(* ===== verification/_CoqProject ===== *)
-Q . S2P
Prelude.v
Bytes.v
LtfsError.v
Extents.v
TapeOps.v
IbmTape.v
FileDebug.v
FileDebugLaws.v
FileDebugProps.v
TapeLayer.v
TapeProps.v
Journal.v
JournalProps.v
JournalComplete.v
FsRaw.v
FsRawRead.v
FsRawWrite.v
FsRawProps.v
Crc.v
CrcTheory.v
CrcProps.v
Time.v
TimeProps.v
Criteria.v
CriteriaProps.v
Base64.v
KeyFormat.v
CacheManager.v
Unified.v
UnifiedReqs.v
UnifiedWrite.v
UnifiedProps.v
UnifiedRead.v
UnifiedFlush.v
UnifiedWriter.v
UnifiedIndex.v
UnifiedRefine.v
UnifiedMem.v
UnifiedFindings.v
Dentry.v
DentryRun.v
DentryTree.v
DentryLookup.v
DentryProps.v
DentryEdit.v
DentryPaths.v
DentryCounts.v
FsOps.v
FsOpsRun.v
FsOpsInv.v
FsCreate.v
FsUnlink.v
FsHold.v
FsMove.v
FsRename.v
FsHandles.v
FsReach.v
FsOpsProps.v
FsWitness.v
Mrsw.v
Xml.v
XmlProps.v
IndexXml.v
XmlHoare.v
IndexXmlSafe.v
IndexXmlProps.v
IndexXmlWitness.v
IndexSorted.v
Label.v
TapeSpace.v
Mam.v
LabelProps.v
LabelWitness.v
Volume.v
VolumeTape.v
VolumeFind.v
VolumeWrite.v
VolumeProps.v
VolumeWitness.v
