(* ===== verification/Prelude.v ===== *)
(** * A verification of Aurora LTFS

    Aurora LTFS presents an LTO tape as a file system.  A volume has two
    partitions: the data partition, to which file contents are appended in
    blocks, and the index partition; a file is a list of extents that say which
    blocks hold which bytes.  This library models the part of libltfs that
    moves file contents between memory and tape, the layers below it down to a
    complete tape backend, the write cache above it, the directory tree with the
    operations on it and its locks, the journal behind incremental indexes, the
    labels and the index in XML and the block protection codes, and proves that
    they do what they are for.

    ** The parts and how they call each other

    - [ltfs_fsops.c]: create, remove, rename, open and close files.  It looks
      paths up in the dentry tree of [fs.c], which counts the handles of each
      dentry and frees it with the last one, and tells the journal and the
      scheduler what changed.  [ltfs_locking_old.h] is the lock of the dentries
      and of the volume.
    - [ltfs_fsops_raw.c]: write, read, extend and truncate the contents of a
      file.  It calls the tape layer through [vol->device], and marks objects
      dirty, which feeds the journal.
    - [tape.c]: the tape layer.  It keeps the position, the append positions
      and the reasons why the medium may not be written, and calls a backend
      through the function table of [tape_ops.h].
    - [filedebug_tc.c]: the backend that keeps a tape in a directory, the one
      backend of the repository whose medium is visible in the source.
    - [ibm_tape.c]: which cartridge a drive may mount, used by all backends.
    - [crc32c_crc.c], [reed_solomon_crc.c]: the check bytes the SCSI backends
      add to each block.
    - [inc_journal.c]: what changed since the last index.
    - [unified.c]: the write cache above [ltfs_fsops_raw.c]; it takes its blocks
      from [cache_manager.c] and asks [index_criteria.c] where a file belongs.
    - [xml_writer_libltfs.c], [xml_reader_libltfs.c]: the index, which holds the
      whole directory tree, as XML; [xml_reader.c] and the macros of [xml.h] are
      the parser's tools.  [ltfs.c] and [ltfs_internal.c] write the index to the end
      of a partition, find the last one, and check that the partitions agree.
      [label.c], with parts of [ltfs.c] and
      [ltfs_internal.c]: the label at the start of each partition.
    - [time_internal.c]: calendar arithmetic for the time stamps of the index.
    - [key_format_ltfs.c], [simple.c], [flatfile.c], [base64.c]: the data keys of
      encrypted volumes.

    ** The files

    - [Prelude] (this file): machine integers with their wrap-around ([u8] to
      [u64], [i32], [i64]; [⊞] and [⊟] are 64-bit), record update
      [r <| field := v |>], tactics and list lemmas.
    - [LtfsError]: the constants and classifying macros of [ltfs_error.h].
    - [Extents]: [struct extent_info] and the list routines of
      [ltfs_fsops_raw.c] and [fs.c].
    - [TapeOps]: the class [TapeOps] is the function table, the class
      [TapeLaws] what its comments promise, stated against a medium of two
      append-only logs of records.  Clients are proved against [TapeLaws].
    - [IbmTape]: density tables and cartridge names.
    - [FileDebug], [FileDebugLaws], [FileDebugProps]: the file backend, the
      instance [filedebug_laws] of [TapeLaws], and its own theorems.
    - [TapeLayer], [TapeProps]: [struct device_data] as the record
      [device_data] and the functions of [tape.c], for any backend.
    - [Journal], [JournalProps], [JournalComplete]: the journal as the ordered
      list of the hash table, its operations, and replay.
    - [FsRaw], [FsRawRead], [FsRawWrite], [FsRawProps]: [struct ltfs_volume] and
      [struct dentry] as far as the raw operations use them, the operations in
      a state and error monad ([let!]), and the theorems about file contents.
    - [Crc], [CrcTheory], [CrcProps]: the eight functions of the two codes, the
      theory of linear check registers (class [CheckRegister]) and the
      theorems.
    - [Bytes]: file contents as functions from offsets to bytes.
    - [Time], [TimeProps]: [time_internal.c] and the text form of time stamps in
      the index.
    - [Criteria], [CriteriaProps]: [index_criteria.c], the rules that select the
      files for the index partition, and the glob matcher.
    - [Base64], [KeyFormat]: [base64.c], the format of data keys and the two key
      managers of [kmi/].
    - [CacheManager]: [cache_manager.c], the pool of cache blocks.
    - [Unified]: [unified.c], the I/O scheduler between the file-system
      operations and the raw file operations: requests, queues, the calls, and
      the background writer split where it gives up the lock of a file.
      [UnifiedReqs], [UnifiedWrite]: lists of requests and the body of
      [unified_write]; [UnifiedProps]: the contract [RawLaws] of the layer below
      and the invariant [sched_ok]; [UnifiedRead], [UnifiedFlush],
      [UnifiedWriter]: the calls; [UnifiedIndex]: the queue of the index partition;
      [UnifiedRefine]: the refinement of plain
      files; [UnifiedMem], [UnifiedFindings]: an instance of [RawLaws] with files
      in memory, and runs.
    - [Dentry]: [struct dentry] in a heap of addresses, the locks that are held,
      and the functions of [fs.c] in a monad whose outcomes are [Done], [Blocked]
      (waiting for a lock that the caller holds itself) and [Fault] (a freed
      dentry, a [NULL] pointer, or the release of a lock that is not held).  [DentryRun]: the rules
      [wp] to step through a run; [DentryTree]: the invariant [tree_ok] and the
      meaning [resolve] of a path; [DentryLookup], [DentryProps]: lookup;
      [DentryEdit], [DentryPaths], [DentryCounts]: linking and unlinking, their
      effect on paths and counters.
    - [FsOps]: create, unlink, rename, open and close of [ltfs_fsops.c] with what
      they call in [ltfs.c], [ltfs_internal.c] and [iosched.c].  [FsOpsRun],
      [FsOpsInv]: the invariant [fs_ok]; [FsCreate], [FsUnlink], [FsHold],
      [FsMove], [FsRename], [FsHandles]: the operations; [FsReach]: any call keeps
      the invariant; [FsOpsProps], [FsWitness]: the theorems, and a volume on
      which all of them apply.
    - [Mrsw]: [ltfs_locking_old.h], each call as atomic steps of a thread, any
      number of threads interleaved.
    - [Xml]: what libxml2 delivers (nodes) and takes (tokens, with the places
      where white space may be put), the parser monad [rd], [xml_reader.c] and the
      macros of [xml.h], percent encoding.  [XmlProps]: parsers on tokens
      ([parses], [steps]); [XmlHoare]: rules [ensures] for parsers on any input.
    - [IndexXml]: [struct ltfs_index] with its tree, the writer and the parser of
      the index.  [IndexXmlProps]: the round trip; [IndexXmlSafe]: what an accepted
      index has; [IndexXmlWitness]: an index on which both apply; [IndexSorted]: the
      order in which the writer leaves the tree keeps an index in good order.
    - [TapeSpace], [Mam]: the contract of spacing over file marks ([SpaceLaws]), the
      calls that a drive has to carry out ([carries_out]), the contract
      of the attributes in the cartridge memory ([MamOps], [MamLaws]), with the
      instances of the file backend; coherency data and lock status.
    - [Label], [LabelProps], [LabelWitness]: the labels, made, written to tape,
      read back and compared.
    - [Volume]: [struct ltfs_volume] as the index needs it; [ltfs_write_index] with
      the callbacks between libxml2 and tape blocks, [ltfs_read_index],
      [ltfs_seek_index] and [ltfs_check_medium] without deep recovery.
      [VolumeTape]: the text of an index in blocks, out and in through the callbacks;
      [VolumeFind]: the last index is found from the end of data; [VolumeWrite]:
      what one call of [ltfs_write_index] leaves on tape and in memory;
      [VolumeProps], [VolumeWitness]: a synchronised volume is consistent.

    ** What the theorems show

    - File contents: a read returns the bytes the extents locate, zeros in
      holes; a write changes exactly the bytes given and keeps the volume fit
      for reading; truncation and [add_extent] likewise; together, what is
      written is what is read, on every backend that keeps the contract and in
      particular on the file backend.  Failures leave the file as it was.
    - The file backend: every successful run of commands is a run of the
      abstract medium, in which a write appends the bytes that its result counts;
      unloading and loading a tape keeps it.
    - The tape layer: what is written is read back from where it was written;
      a latched write error or a protected medium refuses every write of any
      sequence of operations; the capacity cache never answers with stale
      figures.
    - The journal: after any sequence of creations, modifications and removals that
      does not put a removed directory back to its path, the last index and the journal determine the current tree; its sort order
      is a strict order with parents first.
    - The directory tree (without write-once objects, when memory does not run out):
      [fs_path_lookup] finds exactly the dentry that the names
      lead to and leaves exactly the handles and locks that its flags ask for;
      create, unlink and rename change the paths of the tree in exactly the way
      their names say or refuse and change nothing; any sequence of calls keeps a
      tree with exact handle, link and file counts, ends with no lock held and
      leaks nothing.
    - The locks: a writer is alone, in any interleaving of any number of threads,
      and the threads of the lock never block each other for good.
    - Block protection: all loops compute the bit-serial CRC32C; both codes
      round-trip and refuse any damage within four consecutive bytes; the
      Reed-Solomon check accepts exactly the codewords.
    - The scheduler: any error-free run of calls whose writes are [packed], with the
      steps of the background writer anywhere in between, is a run of plain files
      ([scheduler_refines_files]); a flush that reports success has brought every
      byte that readers see to the raw file; the background writer, when no call comes in
      between, loses nothing without keeping the error; the cache stays within
      its bounds.
    - Time stamps: the conversions are those of the proleptic Gregorian
      calendar, inverse to each other, and their text form reads back.
    - Keys: when memory does not run out, a list of keys in a file is read back
      exactly, and no key stays in memory; the base64 decoder keeps to its buffers.
    - Placement: the glob matcher decides the matching relation, and a rule
      selects exactly the files it describes.
    - The index: what is written is read back, whatever white space the writer
      puts between the tags, and whatever is read is sound when the parser
      accepts it.
    - Labels: a volume that was labelled is recognised, on every backend that
      keeps the contract, when the drive carries out the calls of the check.
    - Synchronisation: when an index has been written to both partitions, the
      medium check of a later mount finds both, calls the volume consistent and
      has the index that was written ([synced_volume_is_consistent]), when the drive
      carries out the calls that the check makes.
    - Where the code does something else than it means to, a theorem shows it
      ([force_read_only_is_lost], [rmdir_after_rename_back_loses_deletion],
      the exception in [cart_name_round_trip], [odd_repetitions_accepted],
      [nested_read_waits_forever], [encoded_slash_is_lost],
      [wrapped_extent_accepted], [file_uid_one_accepted], and the runs of [UnifiedFindings]).

    ** Conventions

    A C integer is a [Z]; operations that may leave their type's range are
    written with the wrap.  A function that returns an [int] code returns the
    same code here.  Out of the model are [NULL] argument checks, log messages,
    profiling, and locks, except where acquiring one can fail with a result of
    its own and except in [Dentry] and [FsOps], where the locks that the running
    call holds are part of the state, and [Mrsw].  The outcomes of [malloc] and of host system calls, the clock
    readings and the processor's instructions are inputs, so a theorem holds
    for every failure pattern.  Calls run one at a time; the scheduler's
    background writer takes its steps between them.  A call that would block for
    ever returns [None].  The dentry cache is off, as in the default build.  The theorems about the
    directory tree are for runs in which memory does not run out (the error paths
    are modelled), those about create and rename for volumes without write-once
    objects, and those about sequences for fewer than 2^31 calls; those about
    the lock for fewer than 2^32 threads.

    Code outside the modelled part that a modelled function calls is a parameter:
    writing an index ([ltfs_write_index]), revalidation ([ltfs_revalidate]),
    key retrieval ([fetch_key]), the host file system (class [Host] of
    [FileDebug]), the CRC32 instruction (class [Cpu]), and the Unicode
    functions of ICU that validate names, fold case and find character
    boundaries, libxml2 between bytes and nodes, and the order of uthash's
    [HASH_SORT].  The scheduler is written for any volume ([RawVolume]) that
    keeps [RawLaws].  What a theorem needs of them it states as a hypothesis,
    and its witness gives a concrete instance.

    ** Bounds and fuel

    Theorems about volumes assume fewer than 2^62 records on a partition, file
    offsets below 2^63 and blocks of at most 2^32 bytes: within them no
    unsigned operation wraps except the two the code relies on (the offset of a
    block that begins before its extent does).  Loops with a counter take it as
    fuel: [read_loop] one unit per byte asked for (each turn delivers at least
    one), [blocks_of] one per byte of the buffer, [search_eod_loop] one per file
    of the directory, retries the retry limit of the code; the glob matcher a
    cubic bound in the lengths of pattern and name, the search for an option the
    length of the rule; [write_run] eight steps per request and byte of the write
    ([write_fuel]), [count_keys] one per character, the loops of flush and
    background writer one per request.  The loops of the XML parser take one unit
    per node and its recursion one per level of the tree; [read_text] takes one unit
    per byte of the text (each request delivers at least one), [seek_loop] one per
    candidate for the last index.  Walks towards the root and disposal take the size of the heap, which
    an acyclic tree cannot exceed.  The theorems show the result is reached,
    so the fuel is enough.

    ** Not modelled

    Of [ltfs_fsops.c]: attributes, directory listings, time changes, symbolic
    links, and the wrappers of read and write; of [fs.c]: the late choice of
    platform-safe names and the dump functions.  Of [ltfs.c] and [ltfs_internal.c]:
    mounting, formatting, rollback, revalidation and deep recovery; the incremental
    index in XML (its text is a parameter of [Volume]), the index cache on disk,
    the first-come first-served scheduler (it only passes calls on), extended
    attributes, path-name normalisation (ICU), the SCSI backends' command
    I/O (what the operating system and the drive do is not in the source), the
    FUSE bridge and the support code for logging, tracing, plug-ins
    and configuration.  Of the scheduler, the profiler is left out; its queues and
    counters are modelled, but no theorem is about them. *)

From stdpp Require Export base numbers list option gmap.
From Stdlib Require Export ZArith Lia.

#[export] Set Default Goal Selector "1".
#[global] Open Scope Z_scope.

(** ** Machine integers

    An unsigned [w]-bit C value is a [Z] in [0 .. 2^w - 1]; every C operation
    whose result may leave that range is written with the wrap-around spelt
    out.  Signed values use [i32] and [i64]. *)

Definition u8 (z : Z) : Z := z mod 2 ^ 8.
Definition u16 (z : Z) : Z := z mod 2 ^ 16.
Definition u32 (z : Z) : Z := z mod 2 ^ 32.
Definition u64 (z : Z) : Z := z mod 2 ^ 64.
Definition i32 (z : Z) : Z := (z + 2 ^ 31) mod 2 ^ 32 - 2 ^ 31.
Definition i64 (z : Z) : Z := (z + 2 ^ 63) mod 2 ^ 64 - 2 ^ 63.

Declare Scope u64_scope.
Delimit Scope u64_scope with u64.
Notation "x ⊞ y" := (u64 (x + y)) (at level 50, left associativity) : u64_scope.
Notation "x ⊟ y" := (u64 (x - y)) (at level 50, left associativity) : u64_scope.
#[global] Open Scope u64_scope.

Definition in_u64 (z : Z) : Prop := 0 <= z < 2 ^ 64.
Definition in_u32 (z : Z) : Prop := 0 <= z < 2 ^ 32.

Lemma u64_small z : 0 <= z < 2 ^ 64 -> u64 z = z.
Proof. apply Z.mod_small. Qed.

Lemma u32_small z : 0 <= z < 2 ^ 32 -> u32 z = z.
Proof. apply Z.mod_small. Qed.

Lemma u8_small z : 0 <= z < 2 ^ 8 -> u8 z = z.
Proof. apply Z.mod_small. Qed.

Lemma u64_range z : 0 <= u64 z < 2 ^ 64.
Proof. apply Z.mod_pos_bound. lia. Qed.

Lemma u32_range z : 0 <= u32 z < 2 ^ 32.
Proof. apply Z.mod_pos_bound. lia. Qed.

Lemma u8_range z : 0 <= u8 z < 2 ^ 8.
Proof. apply Z.mod_pos_bound. lia. Qed.

Lemma i32_small z : - 2 ^ 31 <= z < 2 ^ 31 -> i32 z = z.
Proof. intros. unfold i32. rewrite Z.mod_small; lia. Qed.

Lemma i64_small z : - 2 ^ 63 <= z < 2 ^ 63 -> i64 z = z.
Proof. intros. unfold i64. rewrite Z.mod_small; lia. Qed.

(** Bits above the width are lost. *)
Lemma u32_lor_high x y : in_u32 x -> u32 y = 0 -> u32 (Z.lor x y) = x.
Proof.
  unfold u32, in_u32. intros Hx Hy. rewrite <- Z.land_ones in * by lia.
  rewrite Z.land_lor_distr_l, Hy, Z.lor_0_r, Z.land_ones by lia. by apply Z.mod_small.
Qed.

(** [nowrap] removes the wrap-arounds that the context shows to be idle. *)
Ltac nowrap :=
  repeat match goal with
  | |- context [u64 ?z] => rewrite (u64_small z) by lia
  | |- context [u32 ?z] => rewrite (u32_small z) by lia
  | H : context [u64 ?z] |- _ => rewrite (u64_small z) in H by lia
  | H : context [u32 ?z] |- _ => rewrite (u32_small z) in H by lia
  end.

(** ** Updating a field of a record

    [r <| f := v |>] is [r] with the field [f] replaced; an instance of [Eta]
    lists the fields of the record once. *)

Class Eta (R : Type) := eta_of : R -> R.
Class Setter {R E : Type} (p : R -> E) := set_field : E -> R -> R.
Global Arguments set_field {R E} p {Setter} v r : rename.

Ltac build_setter :=
  lazymatch goal with
  | |- @Setter ?R ?E ?p =>
    let i := constr:(_ : Eta R) in
    let e := eval hnf in i in
    lazymatch eval pattern p in e with
    | ?f _ => let g := eval cbv beta in (fun (v : E) => f (fun _ => v)) in exact g
    end
  end.
Global Hint Extern 1 (Setter _) => build_setter : typeclass_instances.

Declare Scope record_scope.
Notation "r <| p := v |>" := (set_field p v r)
  (at level 1, left associativity, v at level 200, p constr at level 1) : record_scope.
#[global] Open Scope record_scope.

(** ** Boolean tests *)

Create HintDb ltfs.
Create Rewrite HintDb ltfs.

(** [bsplit] turns the boolean tests of the context into propositions. *)
Ltac bsplit :=
  repeat match goal with
  | H : (_ && _)%bool = true |- _ => apply andb_true_iff in H as [? ?]
  | H : (_ || _)%bool = false |- _ => apply orb_false_iff in H as [? ?]
  | H : negb _ = true |- _ => apply negb_true_iff in H
  | H : negb _ = false |- _ => apply negb_false_iff in H
  | H : (_ <? _) = true |- _ => apply Z.ltb_lt in H
  | H : (_ <? _) = false |- _ => apply Z.ltb_ge in H
  | H : (_ <=? _) = true |- _ => apply Z.leb_le in H
  | H : (_ <=? _) = false |- _ => apply Z.leb_gt in H
  | H : (_ =? _) = true |- _ => apply Z.eqb_eq in H
  | H : (_ =? _) = false |- _ => apply Z.eqb_neq in H
  | H : (_ >=? _) = true |- _ => rewrite Z.geb_leb in H
  | H : (_ >=? _) = false |- _ => rewrite Z.geb_leb in H
  | H : (_ >? _) = true |- _ => rewrite Z.gtb_ltb in H
  | H : (_ >? _) = false |- _ => rewrite Z.gtb_ltb in H
  end.

(** [case_bool] splits on every test the goal branches on. *)
Ltac case_bool :=
  repeat match goal with
  | |- context [if ?b then _ else _] =>
      lazymatch b with context [if _ then _ else _] => fail | _ => destruct b eqn:? end
  end; bsplit.

(** ** Lists *)

Definition zlength {A} (l : list A) : Z := Z.of_nat (length l).

Definition zsum (l : list Z) : Z := foldr Z.add 0 l.

Lemma zsum_app l k : zsum (l ++ k) = zsum l + zsum k.
Proof. induction l as [|x l IH]; [done|]. change (x + zsum (l ++ k) = x + zsum l + zsum k). lia. Qed.

Lemma zsum_cons x l : zsum (x :: l) = x + zsum l.
Proof. done. Qed.

Lemma zsum_nonneg l : Forall (fun x => 0 <= x) l -> 0 <= zsum l.
Proof. induction 1 as [|x l Hx _ IH]; [done|]. rewrite zsum_cons. lia. Qed.

Lemma zlength_nil {A} : zlength (@nil A) = 0.
Proof. done. Qed.

Lemma zlength_cons {A} (x : A) l : zlength (x :: l) = zlength l + 1.
Proof. unfold zlength. cbn. lia. Qed.

Lemma zlength_app {A} (l k : list A) : zlength (l ++ k) = zlength l + zlength k.
Proof. unfold zlength. rewrite length_app. lia. Qed.

Lemma zlength_nonneg {A} (l : list A) : 0 <= zlength l.
Proof. unfold zlength. lia. Qed.

Definition opt_list {A} (o : option A) : list A :=
  match o with Some x => [x] | None => [] end.

(** The bytes [off .. off + len - 1] of a buffer. *)
Definition slice {A} (off len : Z) (l : list A) : list A :=
  take (Z.to_nat len) (drop (Z.to_nat off) l).

(** [n] zero bytes, as [memset(p, 0, n)] leaves them. *)
Definition zeros (n : Z) : list Z := replicate (Z.to_nat n) 0.

Lemma zlength_zeros n : 0 <= n -> zlength (zeros n) = n.
Proof. intros. unfold zlength, zeros. rewrite length_replicate. lia. Qed.

Lemma zlength_slice {A} off len (l : list A) :
  0 <= off -> 0 <= len -> off + len <= zlength l -> zlength (slice off len l) = len.
Proof. unfold zlength, slice. intros. rewrite length_take, length_drop. lia. Qed.

(** ** Arrays of two elements, indexed by partition number *)

Definition arr2 (A : Type) : Type := A * A.

Definition a2get {A} (a : arr2 A) (i : Z) : A := if i =? 0 then fst a else snd a.
Definition a2set {A} (a : arr2 A) (i : Z) (v : A) : arr2 A :=
  if i =? 0 then (v, snd a) else (fst a, v).

Lemma a2get_set {A} (a : arr2 A) i v : a2get (a2set a i v) i = v.
Proof. unfold a2get, a2set. by destruct (i =? 0). Qed.

Lemma a2get_set_ne {A} (a : arr2 A) i j v :
  (i = 0 \/ i = 1) -> (j = 0 \/ j = 1) -> i <> j -> a2get (a2set a i v) j = a2get a j.
Proof. intros [->| ->] [->| ->] ?; done. Qed.

Notation "a .[ i ]" := (a2get a i) (at level 1, format "a .[ i ]").
Notation "a .[ i <- v ]" := (a2set a i v) (at level 1, format "a .[ i  <-  v ]").

#[export] Hint Rewrite @zlength_nil @zlength_cons @zlength_app : ltfs.
#[export] Hint Rewrite zsum_app zsum_cons : ltfs.
#[export] Hint Resolve u64_range u32_range u8_range zlength_nonneg : ltfs.
