(* ===== verification/Bytes.v ===== *)
(** * File contents as functions from offsets to bytes

    What a file holds is a function [f] from offsets to bytes; a buffer is
    compared with it by [bytes_are], and a write changes it by [patched]. *)

From S2P Require Import Prelude.

Definition bytes_are (f : Z -> option Z) (start : Z) (out : list Z) : Prop :=
  forall i, (i < length out)%nat -> out !! i = f (start + Z.of_nat i).

Lemma bytes_are_nil f start : bytes_are f start [].
Proof. intros i Hi. cbn in Hi. lia. Qed.

Lemma bytes_are_app f start a b :
  bytes_are f start a -> bytes_are f (start + zlength a) b -> bytes_are f start (a ++ b).
Proof.
  intros Ha Hb i Hi. rewrite length_app in Hi. destruct (decide (i < length a)%nat).
  - rewrite lookup_app_l by done. auto.
  - rewrite lookup_app_r, Hb by lia. f_equal. unfold zlength. lia.
Qed.

Lemma bytes_are_zeros f start n :
  (forall o, start <= o < start + n -> f o = Some 0) -> bytes_are f start (zeros n).
Proof.
  intros Hf i Hi. unfold zeros in *. rewrite length_replicate in Hi.
  rewrite lookup_replicate_2 by done. symmetry. apply Hf. lia.
Qed.

Lemma bytes_are_slice f start off len l k :
  0 <= off -> 0 <= len -> off + len <= zlength l ->
  (forall i, 0 <= i < len -> f (start + i) = l !! Z.to_nat (off + i)) ->
  bytes_are f start (slice off len (l ++ k)).
Proof.
  intros Ho Hn Hl Hf i Hi. unfold slice in *. rewrite length_take, length_drop in Hi.
  unfold zlength in Hl. rewrite lookup_take_lt, lookup_drop, lookup_app_l by lia.
  rewrite Hf by lia. f_equal. lia.
Qed.

Lemma zlength_slice_app {A} off len (l k : list A) :
  0 <= off -> 0 <= len -> off + len <= zlength l -> zlength (slice off len (l ++ k)) = len.
Proof. intros. apply zlength_slice; [done..|]. rewrite zlength_app. pose proof (zlength_nonneg k). lia. Qed.

(** The contents after [buf] is written at [offset] over the contents [f]. *)
Definition patched (f : Z -> option Z) (buf : list Z) (offset o : Z) : option Z :=
  if (offset <=? o) && (o <? offset + zlength buf) then buf !! Z.to_nat (o - offset) else f o.

Lemma patched_nil f off o : patched f [] off o = f o.
Proof.
  unfold patched. rewrite zlength_nil. destruct ((off <=? o) && (o <? off + 0)) eqn:E; [|done]. bsplit. lia.
Qed.

Lemma patched_in f buf off o :
  off <= o < off + zlength buf -> patched f buf off o = buf !! Z.to_nat (o - off).
Proof. intros. unfold patched. by replace ((off <=? o) && (o <? off + zlength buf)) with true by lia. Qed.

Lemma patched_out f buf off o :
  o < off \/ off + zlength buf <= o -> patched f buf off o = f o.
Proof. intros. unfold patched. by replace ((off <=? o) && (o <? off + zlength buf)) with false by lia. Qed.

(** Writing a buffer in two pieces. *)
Lemma patched_app f a b off o :
  patched f (a ++ b) off o = patched (patched f a off) b (off + zlength a) o.
Proof.
  pose proof (zlength_nonneg a). pose proof (zlength_nonneg b). pose proof (zlength_app a b).
  destruct (decide (off + zlength a <= o < off + zlength a + zlength b)).
  { rewrite !patched_in by lia. unfold zlength in *. rewrite lookup_app_r by lia. f_equal. lia. }
  rewrite (patched_out _ b) by lia. destruct (decide (off <= o < off + zlength a)).
  - rewrite !patched_in by lia. unfold zlength in *. by rewrite lookup_app_l by lia.
  - by rewrite !patched_out by lia.
Qed.

Lemma patched_ext f g buf off o : f o = g o -> patched f buf off o = patched g buf off o.
Proof. unfold patched. by intros ->. Qed.
