(* ===== verification/LtfsError.v ===== *)
(** * Error codes (src/libltfs/ltfs_error.h)

    The positive constants of the header; a C function that fails returns the
    negated constant, exactly as the definitions of this development do. *)

From S2P Require Import Prelude.

Definition LTFS_NULL_ARG := 1000.
Definition LTFS_NO_MEMORY := 1001.
Definition LTFS_MUTEX_INVALID := 1002.
Definition LTFS_BAD_DEVICE_DATA := 1004.
Definition LTFS_BAD_PARTNUM := 1005.
Definition LTFS_LARGE_BLOCKSIZE := 1009.
Definition LTFS_BAD_LOCATE := 1010.
Definition LTFS_LABEL_MISMATCH := 1013.
Definition LTFS_POLICY_EMPTY_RULE := 1020.
Definition LTFS_BAD_ARG := 1022.
Definition LTFS_NAMETOOLONG := 1023.
Definition LTFS_NO_DENTRY := 1024.
Definition LTFS_INVALID_PATH := 1025.
Definition LTFS_INVALID_SRC_PATH := 1026.
Definition LTFS_DENTRY_EXISTS := 1027.
Definition LTFS_DIRNOTEMPTY := 1028.
Definition LTFS_UNLINKROOT := 1029.
Definition LTFS_RENAMELOOP := 1031.
Definition LTFS_SMALL_BLOCK := 1032.
Definition LTFS_ISDIRECTORY := 1033.
Definition LTFS_UNEXPECTED_VALUE := 1036.
Definition LTFS_ICU_ERROR := 1044.
Definition LTFS_SMALL_BUFFER := 1049.
Definition LTFS_RDONLY_VOLUME := 1050.
Definition LTFS_NO_SPACE := 1051.
Definition LTFS_POLICY_INVALID := 1058.
Definition LTFS_ISFILE := 1059.
Definition LTFS_DEVICE_FENCED := 1066.
Definition LTFS_REVAL_RUNNING := 1067.
Definition LTFS_REVAL_FAILED := 1068.
Definition LTFS_KEY_NOT_FOUND := 1117.
Definition LTFS_INVALID_SEQUENCE := 1118.
Definition LTFS_LESS_SPACE := 1124.
Definition LTFS_WRITE_PROTECT := 1125.
Definition LTFS_WRITE_ERROR := 1126.
Definition LTFS_WORM_ENABLED := 1146.
Definition LTFS_IOSCHED_INIT := 1173.
Definition LTFS_RDONLY_DEN_DRV := 1194.
Definition LTFS_LOCATE_ERROR := 1201.
Definition LTFS_SAFENAME_FAIL := 1204.
Definition LTFS_INDEX_ONLY := 1206.
Definition LTFS_LIBXML2_FAILURE := 1006.
Definition LTFS_LABEL_INVALID := 1012.
Definition LTFS_ERR_MIN := 1000.
Definition LTFS_NOT_PARTITIONED := 1011.
Definition LTFS_LABEL_POSSIBLE_VALID := 1038.
Definition LTFS_SMALL_BLOCKSIZE := 1062.
Definition LTFS_BARCODE_LENGTH := 1063.
Definition LTFS_BARCODE_INVALID := 1064.
Definition EDEV_RECORD_NOT_FOUND := 20014.
Definition LTFS_INDEX_INVALID := 1014.
Definition LTFS_INCONSISTENT := 1015.
Definition LTFS_NO_INDEX := 1053.
Definition LTFS_NO_TRAIL_FM := 1203.
Definition LTFS_UNSUPPORTED_INDEX_VERSION := 1043.
Definition LTFS_SYMLINK_CONFLICT := 1120.
Definition LTFS_XML_READ_FAIL := 5000.
Definition LTFS_XML_CONST_FAIL := 5001.
Definition LTFS_XML_WRONG_NODE := 5002.
Definition LTFS_XML_UNEXPECTED_EOF := 5003.
Definition LTFS_XML_EMPTY_UNKNOWN := 5004.
Definition LTFS_XML_EMPTY := 5005.
Definition LTFS_XML_SKIP_FAIL := 5006.
Definition LTFS_XML_NO_REQUIRED_TAG := 5007.
Definition LTFS_XML_DUPLICATED_TAG := 5008.
Definition LTFS_XML_OPEN_TAG := 5009.
Definition LTFS_XML_SAVE_FAIL := 5010.
Definition LTFS_XML_WRONG_TOPTAG := 5011.
Definition LTFS_XML_WRONG_ENCODING := 5012.
Definition LTFS_XML_TOP_ATTR_FAIL := 5013.
Definition LTFS_XML_WRONG_UUID := 5014.
Definition LTFS_XML_WRONG_GEN := 5015.
Definition LTFS_XML_WRONG_UTIME := 5016.
Definition LTFS_XML_WRONG_LOC := 5017.
Definition LTFS_XML_WRONG_LOC_PREV := 5018.
Definition LTFS_XML_WRONG_PA := 5019.
Definition LTFS_XML_WRONG_POLICY := 5020.
Definition LTFS_XML_TOO_LONG_COMMENT := 5021.
Definition LTFS_XML_WRONG_NEXT := 5022.
Definition LTFS_XML_WRONG_RO_DIR := 5023.
Definition LTFS_XML_WRONG_MTIME_DIR := 5024.
Definition LTFS_XML_WRONG_CRTIME_DIR := 5025.
Definition LTFS_XML_WRONG_ATIME_DIR := 5026.
Definition LTFS_XML_WRONG_CTIME_DIR := 5027.
Definition LTFS_XML_WRONG_BTIME_DIR := 5028.
Definition LTFS_XML_XATTR_TYPE := 5029.
Definition LTFS_XML_XATTR_SIZE := 5030.
Definition LTFS_XML_WRONG_UID := 5031.
Definition LTFS_XML_INVALID_UID := 5032.
Definition LTFS_XML_WRONG_RO_F := 5033.
Definition LTFS_XML_WRONG_MTIME_F := 5034.
Definition LTFS_XML_WRONG_CRTIME_F := 5035.
Definition LTFS_XML_WRONG_ATIME_F := 5036.
Definition LTFS_XML_WRONG_CTIME_F := 5037.
Definition LTFS_XML_WRONG_BTIME_F := 5038.
Definition LTFS_XML_WRONG_SIZE := 5039.
Definition LTFS_XML_WRONG_PART := 5040.
Definition LTFS_XML_WRONG_START_BLK := 5041.
Definition LTFS_XML_WRONG_OFFSET := 5042.
Definition LTFS_XML_WRONG_BYTE_CNT := 5043.
Definition LTFS_XML_WRONG_FILE_OFST := 5044.
Definition LTFS_XML_EXT_OVERLAP := 5045.
Definition LTFS_XML_EXT_TOO_LONG := 5046.
Definition LTFS_XML_WRONG_FTIME_L := 5047.
Definition LTFS_XML_WRONG_PART_MAP := 5048.
Definition LTFS_XML_WRONG_BLOCKSIZE := 5049.
Definition LTFS_XML_WRONG_COMP := 5050.
Definition LTFS_XML_INC_INDEX := 5052.
Definition EDEV_NO_SENSE := 20000.
Definition EDEV_BOP_DETECTED := 20006.
Definition EDEV_CLEANING_REQUIRED := 20098.
Definition EDEV_NOT_READY := 20200.
Definition EDEV_NEED_INITIALIZE := 20203.
Definition EDEV_RW_PERM := 20301.
Definition EDEV_CM_PERM := 20302.
Definition EDEV_MEDIUM_FORMAT_ERROR := 20303.
Definition EDEV_MEDIUM_FORMAT_CORRUPTED := 20304.
Definition EDEV_READ_PERM := 20308.
Definition EDEV_WRITE_PERM := 20309.
Definition EDEV_ILLEGAL_REQUEST := 20500.
Definition EDEV_INVALID_FIELD_CDB := 20501.
Definition EDEV_MEDIUM_MAY_BE_CHANGED := 20601.
Definition EDEV_POR_OR_BUS_RESET := 20603.
Definition EDEV_MEDIUM_REMOVAL_REQ := 20606.
Definition EDEV_RESERVATION_PREEMPTED := 20610.
Definition EDEV_REGISTRATION_PREEMPTED := 20612.
Definition EDEV_DATA_PROTECT := 20700.
Definition EDEV_WRITE_PROTECTED := 20701.
Definition EDEV_WRITE_PROTECTED_WORM := 20702.
Definition EDEV_EOD_DETECTED := 20801.
Definition EDEV_EOD_NOT_FOUND := 20802.
Definition EDEV_CRYPTO_ERROR := 21600.
Definition EDEV_KEY_REQUIRED := 21603.
Definition EDEV_INTERNAL_ERROR := 21700.
Definition EDEV_NO_MEMORY := 21704.
Definition EDEV_INVALID_ARG := 21708.
Definition EDEV_NEED_FAILOVER := 21722.
Definition EDEV_REAL_POWER_ON_RESET := 21723.

(** The macros that classify a (negative) return value. *)

Definition IS_WRITE_PERM (e : Z) : bool :=
  (e =? EDEV_RW_PERM) || (e =? EDEV_WRITE_PERM) || (e =? EDEV_MEDIUM_FORMAT_CORRUPTED).

(** [NEED_REVAL] and [IS_UNEXPECTED_MOVE] of src/libltfs/tape.h. *)
Definition NEED_REVAL (ret : Z) : bool :=
  (ret =? - EDEV_POR_OR_BUS_RESET) || (ret =? - EDEV_MEDIUM_MAY_BE_CHANGED) ||
  (ret =? - EDEV_RESERVATION_PREEMPTED) || (ret =? - EDEV_REGISTRATION_PREEMPTED) ||
  (ret =? - EDEV_REAL_POWER_ON_RESET) || (ret =? - EDEV_NEED_FAILOVER).

Definition IS_UNEXPECTED_MOVE (ret : Z) : bool := ret =? - EDEV_MEDIUM_REMOVAL_REQ.

(** [neg_ret H] closes a goal whose hypothesis [H : 0 <= - code] is absurd. *)
Ltac neg_ret H := exfalso; vm_compute in H; first [exact (H eq_refl) | discriminate H].
