(* ===== verification/Extents.v ===== *)
(** * Extent lists (src/libltfs/ltfs_fsops_raw.c, src/libltfs/fs.c)

    A file is a list of extents, each a run of bytes of the file and the place
    on tape that holds them.  This file models [struct extent_info] and the
    three routines that compute on extent lists: the loop of
    [_ltfs_fsraw_add_extent_unlocked], the loop of [ltfs_fsraw_truncate] and
    [fs_get_used_blocks].  All quantities are the C ones: [uint64_t] except
    [byteoffset], which is [uint32_t].

    The meaning of a list is [locate]: the tape location of each byte of the
    file.  The theorems say that adding an extent overwrites exactly the bytes
    of the new extent, that truncation forgets exactly the bytes past the new
    length, and that both keep the list sorted, disjoint and accounted for. *)

From S2P Require Import Prelude LtfsError.

(** ** The data *)

(** [struct extent_info]; [start.block] and [start.partition] are flattened. *)
Record extent_info := mk_extent {
  start_block : Z;
  start_partition : Z;
  byteoffset : Z;
  bytecount : Z;
  fileoffset : Z;
}.

#[export] Instance eta_extent : Eta extent_info := fun e =>
  mk_extent (start_block e) (start_partition e) (byteoffset e) (bytecount e) (fileoffset e).

#[export] Instance extent_eq_dec : EqDecision extent_info.
Proof. solve_decision. Defined.

(** [fileoffset + bytecount] and [byteoffset + bytecount], as the code computes them. *)
Definition fileoffset_end (e : extent_info) : Z := fileoffset e ⊞ bytecount e.
Definition byteoffset_end (e : extent_info) : Z := byteoffset e ⊞ bytecount e.

(** ** Adding an extent *)

(** What the first half of the loop body does to one entry: the surviving
    entry, the entry split off behind it, and the new [realsize_new]. *)
Inductive update_result :=
  | Updated (entry : option extent_info) (split : list extent_info) (realsize_new : Z)
  | SplitNoMemory.

(** Cut [diff] bytes off the beginning of an entry. *)
Definition cut_head (bs : Z) (entry : extent_info) (diff : Z) : extent_info :=
  let m := diff ⊞ byteoffset entry in
  {| start_block := start_block entry ⊞ m / bs;
     start_partition := start_partition entry;
     byteoffset := u32 (m mod bs);
     bytecount := bytecount entry ⊟ diff;
     fileoffset := fileoffset entry ⊞ diff |}.

(** Update an existing entry by truncating, deleting or splitting it. *)
Definition update_entry (bs : Z) (ext entry : extent_info) (split_ok : bool)
    (realsize_new : Z) : update_result :=
  let ext_end := fileoffset_end ext in
  let entry_end := fileoffset_end entry in
  if (fileoffset ext <=? fileoffset entry) && (fileoffset entry <? ext_end) then
    if entry_end <=? ext_end then
      Updated None [] (realsize_new ⊟ bytecount entry)
    else
      let diff := ext_end ⊟ fileoffset entry in
      Updated (Some (cut_head bs entry diff)) [] (realsize_new ⊟ diff)
  else if (fileoffset entry <? fileoffset ext) && (fileoffset ext <? entry_end) then
    let keep := fileoffset ext ⊟ fileoffset entry in
    if entry_end <=? ext_end then
      Updated (Some (entry <| bytecount := keep |>)) []
              (realsize_new ⊟ u64 (entry_end - fileoffset ext))
    else if split_ok then
      let diff := ext_end ⊟ fileoffset entry in
      Updated (Some (entry <| bytecount := keep |>))
              [(cut_head bs entry diff) <| fileoffset := ext_end |>]
              (realsize_new ⊟ bytecount ext)
    else SplitNoMemory
  else Updated (Some entry) [] realsize_new.

(** Can [ext]'s bytes be appended to [entry]? *)
Definition can_append (bs : Z) (ext entry : extent_info) : bool :=
  (fileoffset ext =? fileoffset_end entry) &&
  (start_partition entry =? start_partition ext) &&
  (byteoffset_end entry mod bs =? 0) &&
  (u64 (start_block entry + byteoffset_end entry / bs) =? start_block ext) &&
  (byteoffset ext =? 0).

Inductive add_status := AddUsed | AddNotUsed | AddNoMemory.

(** [TAILQ_FOREACH_REVERSE_SAFE]: [before] holds the entries still to visit,
    last one first, and [after] the entries behind the current one. *)
Fixpoint add_extent_loop (bs : Z) (ext : extent_info) (split_ok : bool)
    (before after : list extent_info) (realsize_new : Z)
    : add_status * list extent_info * Z :=
  match before with
  | [] => (AddNotUsed, after, realsize_new)
  | entry :: before' =>
      match update_entry bs ext entry split_ok realsize_new with
      | SplitNoMemory => (AddNoMemory, reverse before ++ after, realsize_new)
      | Updated None sp rs => add_extent_loop bs ext split_ok before' (sp ++ after) rs
      | Updated (Some entry') sp rs =>
          if can_append bs ext entry' then
            (AddUsed,
             reverse before' ++ entry' <| bytecount := bytecount entry' ⊞ bytecount ext |>
               :: sp ++ after,
             rs ⊞ bytecount ext)
          else if fileoffset_end entry' <=? fileoffset ext then
            (AddUsed, reverse before' ++ entry' :: ext :: sp ++ after, rs ⊞ bytecount ext)
          else add_extent_loop bs ext split_ok before' (entry' :: sp ++ after) rs
      end
  end.

(** The extent-list part of [_ltfs_fsraw_add_extent_unlocked]: the loop, then
    the insertion at the head when no entry took the extent.  [copy_ok] and
    [split_ok] are the outcomes of the two [malloc] calls. *)
Definition add_extent_list (bs : Z) (ext : extent_info) (copy_ok split_ok : bool)
    (l : list extent_info) (realsize : Z) : Z * list extent_info * Z :=
  if negb copy_ok then (- LTFS_NO_MEMORY, l, realsize)
  else match add_extent_loop bs ext split_ok (reverse l) [] realsize with
       | (AddNoMemory, l', _) => (- LTFS_NO_MEMORY, l', realsize)
       | (AddUsed, l', rs) => (0, l', rs)
       | (AddNotUsed, l', rs) => (0, ext :: l', rs ⊞ bytecount ext)
       end.

(** ** Truncation *)

(** The loop of [ltfs_fsraw_truncate]; [before] is again last entry first. *)
Fixpoint truncate_loop (ulength : Z) (before after : list extent_info) (new_realsize : Z)
    : list extent_info * Z :=
  match before with
  | [] => (after, new_realsize)
  | entry :: before' =>
      let last := fileoffset_end entry in
      if (ulength <=? fileoffset entry) || (ulength =? 0) then
        truncate_loop ulength before' after (new_realsize ⊟ bytecount entry)
      else if ulength <? last then
        truncate_loop ulength before'
          (entry <| bytecount := ulength ⊟ fileoffset entry |> :: after)
          (new_realsize ⊟ u64 (last - ulength))
      else (reverse before ++ after, new_realsize)
  end.

(** The extent list and [realsize] after a truncation to [ulength] of a file
    whose size is [size]. *)
Definition truncate_list (ulength size : Z) (l : list extent_info) (realsize : Z)
    : list extent_info * Z :=
  if (ulength <? size) && negb (bool_decide (l = [])) then
    truncate_loop ulength (reverse l) [] realsize
  else (l, realsize).

(** [fs_get_used_blocks]. *)
Definition fs_get_used_blocks (bs : Z) (l : list extent_info) : Z :=
  foldl (fun used e =>
           let n := byteoffset_end e in
           let used := used ⊞ n / bs in
           if n mod bs =? 0 then used else used ⊞ 1) 0 l.

(** ** The meaning of an extent list *)

Definition extent_end (e : extent_info) : Z := fileoffset e + bytecount e.

(** The place on tape of byte [o] of the file, if the extent holds it:
    partition, block, byte in the block. *)
Definition extent_locate (bs : Z) (e : extent_info) (o : Z) : option (Z * Z * Z) :=
  if (fileoffset e <=? o) && (o <? extent_end e) then
    let n := byteoffset e + (o - fileoffset e) in
    Some (start_partition e, start_block e + n / bs, n mod bs)
  else None.

Fixpoint locate (bs : Z) (l : list extent_info) (o : Z) : option (Z * Z * Z) :=
  match l with
  | [] => None
  | e :: l' => match extent_locate bs e o with
               | Some x => Some x
               | None => locate bs l' o
               end
  end.

(** An extent whose arithmetic stays in range. *)
Definition extent_ok (bs : Z) (e : extent_info) : Prop :=
  0 <= fileoffset e /\ 0 <= bytecount e /\ extent_end e < 2 ^ 63 /\
  in_u32 (byteoffset e) /\ 0 <= start_block e /\
  start_block e + (byteoffset e + bytecount e) / bs < 2 ^ 64.

(** [chain bs lo l hi]: the extents of [l] are good, sorted, disjoint, and lie
    between the file offsets [lo] and [hi]. *)
Fixpoint chain (bs lo : Z) (l : list extent_info) (hi : Z) : Prop :=
  match l with
  | [] => lo <= hi
  | e :: l' => lo <= fileoffset e /\ extent_ok bs e /\ chain bs (extent_end e) l' hi
  end.

Definition total_bytes (l : list extent_info) : Z := zsum (bytecount <$> l).

(** ** Lemmas on chains and locations *)

Section lemmas.
Context (bs : Z) (Hbs : 0 < bs <= 2 ^ 32).

Lemma locate_app l k o :
  locate bs (l ++ k) o = match locate bs l o with Some x => Some x | None => locate bs k o end.
Proof. induction l as [|e l IH]; cbn; [done|]. by destruct (extent_locate bs e o). Qed.

Lemma extent_locate_out e o :
  o < fileoffset e \/ extent_end e <= o -> extent_locate bs e o = None.
Proof. intros H. unfold extent_locate. case_bool; [lia|done]. Qed.

Lemma chain_le lo l hi : chain bs lo l hi -> lo <= hi.
Proof.
  revert lo. induction l as [|e l IH]; cbn; intros lo; [done|].
  intros (? & (? & ? & _) & Hl%IH). unfold extent_end in *. lia.
Qed.

Lemma chain_app lo l k hi :
  chain bs lo (l ++ k) hi <-> exists m, chain bs lo l m /\ chain bs m k hi.
Proof.
  revert lo. induction l as [|e l IH]; cbn; intros lo.
  - split; [intros H; exists lo; split; [lia|done]|].
    intros (m & ? & H). destruct k as [|e k]; cbn in *; [lia|]. intuition lia.
  - rewrite IH. split; [intros (? & ? & m & ?); exists m; tauto|].
    intros (m & (? & ? & ?) & ?). split_and!; [done..|]. by exists m.
Qed.

Lemma chain_weaken lo lo' l hi hi' :
  lo' <= lo -> hi <= hi' -> chain bs lo l hi -> chain bs lo' l hi'.
Proof.
  revert lo lo'. induction l as [|e l IH]; cbn; intros lo lo' ??; [lia|].
  intros (? & ? & ?). split_and!; [lia|done|]. eapply IH; [..|done]; lia.
Qed.

Lemma chain_end lo l hi e :
  chain bs lo (l ++ [e]) hi -> chain bs lo l (fileoffset e) /\ extent_ok bs e /\ extent_end e <= hi.
Proof. rewrite chain_app. cbn. intros (m & Hl & ? & ? & ?). split_and!; [|done..].
  by eapply chain_weaken; [..|apply Hl]; lia. Qed.

Lemma locate_out lo l hi o :
  chain bs lo l hi -> o < lo \/ hi <= o -> locate bs l o = None.
Proof.
  revert lo. induction l as [|e l IH]; cbn; intros lo; [done|].
  intros (? & (? & ? & ?) & Hl) Ho. pose proof (chain_le _ _ _ Hl).
  rewrite extent_locate_out by (unfold extent_end in *; lia).
  eapply IH; [done|]. unfold extent_end in *; lia.
Qed.

Lemma total_bytes_app l k : total_bytes (l ++ k) = total_bytes l + total_bytes k.
Proof. unfold total_bytes. by rewrite fmap_app, zsum_app. Qed.

Lemma total_bytes_cons e l : total_bytes (e :: l) = bytecount e + total_bytes l.
Proof. done. Qed.

Lemma chain_total lo l hi : chain bs lo l hi -> 0 <= total_bytes l <= hi - lo.
Proof.
  revert lo. induction l as [|e l IH]; cbn [chain]; intros lo.
  - cbn. lia.
  - intros (? & (? & ? & _) & Hl%IH). rewrite total_bytes_cons.
    unfold extent_end in *. lia.
Qed.

(** *** Arithmetic of block positions *)

Lemma block_shift a x : a / bs + (a mod bs + x) / bs = (a + x) / bs.
Proof.
  replace (a + x) with ((a mod bs + x) + (a / bs) * bs) by (pose proof (Z.div_mod a bs); lia).
  rewrite Z.div_add by lia. lia.
Qed.

Lemma byte_shift a x : (a mod bs + x) mod bs = (a + x) mod bs.
Proof. by rewrite Zplus_mod_idemp_l. Qed.

Lemma div_le_self n : 0 <= n -> 0 <= n / bs <= n.
Proof. intros. split; [apply Z.div_pos; lia|]. apply Z.div_le_upper_bound; nia. Qed.

(** Cutting the head of an extent keeps the location of the remaining bytes. *)
Lemma cut_head_ok e diff :
  extent_ok bs e -> 0 <= diff <= bytecount e ->
  let h := cut_head bs e diff in
  extent_ok bs h /\ fileoffset h = fileoffset e + diff /\ bytecount h = bytecount e - diff /\
  forall o, extent_locate bs h o = if o <? fileoffset e + diff then None else extent_locate bs e o.
Proof.
  intros (? & ? & ? & Hbo & ? & Hblk) Hd h. unfold extent_end, in_u32 in *.
  pose proof (Z.mod_pos_bound (diff + byteoffset e) bs).
  pose proof (div_le_self (diff + byteoffset e)).
  assert ((diff + byteoffset e) / bs <= (byteoffset e + bytecount e) / bs)
    by (apply Z.div_le_mono; lia).
  subst h. unfold cut_head, extent_ok, extent_end, in_u32; cbn. nowrap.
  split_and!; try lia.
  - rewrite <- Z.add_assoc, block_shift.
    replace (diff + byteoffset e + (bytecount e - diff)) with (byteoffset e + bytecount e) by lia. lia.
  - intros o. unfold extent_locate, extent_end; cbn.
    replace (fileoffset e + diff + (bytecount e - diff)) with (fileoffset e + bytecount e) by lia.
    rewrite <- Z.add_assoc, block_shift, byte_shift.
    replace (diff + byteoffset e + (o - (fileoffset e + diff)))
      with (byteoffset e + (o - fileoffset e)) by lia.
    case_bool; (done || lia).
Qed.

(** Keeping the first [n] bytes of an extent. *)
Lemma cut_tail_ok e n :
  extent_ok bs e -> 0 <= n <= bytecount e ->
  let t := e <| bytecount := n |> in
  extent_ok bs t /\
  forall o, extent_locate bs t o = if o <? fileoffset e + n then extent_locate bs e o else None.
Proof.
  intros (? & ? & ? & Hbo & ? & Hblk) Hn t. unfold extent_end in *.
  subst t; unfold extent_ok, extent_end; cbn. split_and!; try (done || lia).
  - assert ((byteoffset e + n) / bs <= (byteoffset e + bytecount e) / bs)
      by (apply Z.div_le_mono; lia). lia.
  - intros o. unfold extent_locate, extent_end; cbn. case_bool; (done || lia).
Qed.

(** *** One step of the loop

    The entries that [update_entry] leaves of [entry] locate the bytes of
    [entry] outside the new extent, and nothing else. *)
Definition outside (ext : extent_info) (f : Z -> option (Z * Z * Z)) (o : Z) :=
  if (fileoffset ext <=? o) && (o <? extent_end ext) then None else f o.

Ltac solve_total :=
  cbn [opt_list app]; rewrite ?total_bytes_app, ?total_bytes_cons;
  change (total_bytes []) with 0; cbn [bytecount set_field] in *; try lia.

Inductive update_case (ext entry : extent_info) : option extent_info -> list extent_info -> Prop :=
  | Case_delete :
      fileoffset ext <= fileoffset entry -> update_case ext entry None []
  | Case_front e' :
      (* an entry that lies behind the new extent *)
      extent_end ext <= fileoffset e' -> fileoffset entry <= fileoffset e' ->
      extent_end e' = extent_end entry ->
      update_case ext entry (Some e') []
  | Case_back e' sp :
      (* an entry in front of the new extent, and what was split off behind it *)
      fileoffset e' = fileoffset entry -> extent_end e' <= fileoffset ext ->
      chain bs (extent_end ext) sp (Z.max (extent_end ext) (extent_end entry)) ->
      update_case ext entry (Some e') sp.

Lemma update_entry_ok ext entry rs :
  extent_ok bs ext -> extent_ok bs entry -> 0 <= rs - bytecount entry -> rs < 2 ^ 63 ->
  exists e' sp rs',
    update_entry bs ext entry true rs = Updated e' sp rs' /\
    update_case ext entry e' sp /\
    Forall (extent_ok bs) (opt_list e' ++ sp) /\
    rs' = rs - bytecount entry + total_bytes (opt_list e' ++ sp) /\
    forall o, locate bs (opt_list e' ++ sp) o = outside ext (extent_locate bs entry) o.
Proof.
  intros (Hx1 & Hx2 & Hx3 & Hx4 & Hx5 & Hx6) Hok Hrs1 Hrs2.
  pose proof Hok as (He1 & He2 & He3 & _).
  unfold update_entry, fileoffset_end, extent_end in *. nowrap.
  case_bool; nowrap.
  - (* delete *)
    exists None, [], (rs - bytecount entry). split_and!; [done|by constructor|constructor|cbn; lia|].
    intros o. cbn. unfold outside, extent_end, extent_locate, extent_end. by case_bool; try lia.
  - (* cut the beginning *)
    set (d := fileoffset ext + bytecount ext - fileoffset entry).
    destruct (cut_head_ok entry d Hok) as (Hok' & Hfo & Hbc & Hloc); [lia|].
    eexists (Some _), [], _. split_and!; [done|..].
    + constructor; unfold extent_end; lia.
    + cbn; rewrite ?Forall_cons, ?Forall_nil; tauto.
    + solve_total.
    + intros o. cbn. rewrite Hloc. unfold outside, extent_end.
      destruct (o <? _) eqn:?; case_bool; rewrite ?extent_locate_out by (unfold extent_end; lia);
        (done || lia || (by destruct (extent_locate bs entry o))).
  - (* cut the end *)
    set (n := fileoffset ext - fileoffset entry).
    destruct (cut_tail_ok entry n Hok) as (Hok' & Hloc); [lia|].
    eexists (Some _), [], _. split_and!; [done|..].
    + apply Case_back; unfold extent_end; cbn; lia.
    + cbn; rewrite ?Forall_cons, ?Forall_nil; tauto.
    + solve_total.
    + intros o. cbn [locate opt_list app]. rewrite Hloc. unfold outside, extent_end.
      destruct (o <? _) eqn:?; case_bool; rewrite ?extent_locate_out by (unfold extent_end; lia);
        (done || lia || (by destruct (extent_locate bs entry o))).
  - (* split *)
    set (n := fileoffset ext - fileoffset entry).
    set (d := fileoffset ext + bytecount ext - fileoffset entry).
    destruct (cut_tail_ok entry n Hok) as (Hok1 & Hloc1); [lia|].
    destruct (cut_head_ok entry d Hok) as (Hok2 & Hfo2 & Hbc2 & Hloc2); [lia|].
    assert (Hsame : (cut_head bs entry d) <| fileoffset := fileoffset ext + bytecount ext |>
                    = cut_head bs entry d).
    { revert Hfo2. unfold cut_head, set_field; cbn. intros ->. f_equal. lia. }
    eexists (Some _), [_], _. rewrite Hsame. split_and!; [done|..].
    + apply Case_back; [done|unfold extent_end; cbn; lia|].
      cbn [chain]. unfold extent_end. rewrite Hfo2, Hbc2. split_and!; (done || lia).
    + cbn; rewrite ?Forall_cons, ?Forall_nil; tauto.
    + solve_total.
    + intros o. cbn [locate opt_list app]. rewrite Hloc1, Hloc2. unfold outside, extent_end.
      destruct (o <? fileoffset entry + n) eqn:?; destruct (o <? fileoffset entry + d) eqn:?;
        case_bool; rewrite ?extent_locate_out by (unfold extent_end; lia);
        (done || lia || (by destruct (extent_locate bs entry o))).
  - (* untouched *)
    exists (Some entry), [], rs. split_and!; [done|..].
    + repeat match goal with H : (_ && _)%bool = false |- _ => apply andb_false_iff in H as [H|H] end;
        bsplit; first [apply Case_back; [done|unfold extent_end; lia|cbn; unfold extent_end; lia]
                      |apply Case_front; [unfold extent_end; lia|lia|done]].
    + cbn; rewrite ?Forall_cons, ?Forall_nil; tauto.
    + solve_total.
    + intros o. cbn [locate opt_list app]. unfold outside, extent_end.
      repeat match goal with H : (_ && _)%bool = false |- _ => apply andb_false_iff in H as [H|H] end;
        case_bool; rewrite ?extent_locate_out by (unfold extent_end; lia);
        (done || by destruct (extent_locate bs entry o)).
Qed.

(** *** Placing the new extent *)

Lemma extent_locate_in e o :
  fileoffset e <= o < extent_end e -> exists x, extent_locate bs e o = Some x.
Proof. intros. unfold extent_locate. case_bool; [eauto|]. lia. Qed.

Lemma append_ok ext e :
  extent_ok bs ext -> extent_ok bs e -> can_append bs ext e = true ->
  let m := e <| bytecount := bytecount e ⊞ bytecount ext |> in
  fileoffset ext = extent_end e /\ extent_ok bs m /\ extent_end m = extent_end ext /\
  bytecount m = bytecount e + bytecount ext /\
  forall o, extent_locate bs m o =
    match extent_locate bs e o with Some x => Some x | None => extent_locate bs ext o end.
Proof.
  intros (Hx1 & Hx2 & Hx3 & Hx4 & Hx5 & Hx6) (He1 & He2 & He3 & He4 & He5 & He6) Ha m.
  unfold can_append, fileoffset_end, byteoffset_end, extent_end, in_u32 in *.
  pose proof (div_le_self (byteoffset e + bytecount e)).
  subst m; unfold set_field; cbn. nowrap. bsplit. nowrap.
  set (n := byteoffset e + bytecount e) in *.
  assert (Hn : n = n / bs * bs) by (pose proof (Z.div_mod n bs); lia).
  assert (Hshift : forall x, (n + x) / bs = n / bs + x / bs /\ (n + x) mod bs = x mod bs).
  { intros x. replace (n + x) with (x + n / bs * bs) by lia. rewrite Z.div_add, Z.mod_add by lia. lia. }
  unfold extent_ok, extent_end; cbn. split_and!; try (done || lia).
  - rewrite Z.add_assoc. fold n. destruct (Hshift (bytecount ext)) as [-> _].
    replace (byteoffset ext) with 0 in Hx6 by lia. rewrite Z.add_0_l in Hx6. lia.
  - intros o. unfold extent_locate, extent_end; cbn.
    destruct (Hshift (o - fileoffset ext)) as [Hd Hm].
    case_bool; try (done || lia).
    replace (byteoffset e + (o - fileoffset e)) with (n + (o - fileoffset ext)) by (subst n; lia).
    rewrite Hd, Hm. replace (byteoffset ext) with 0 by lia. rewrite !Z.add_0_l, Z.add_assoc. congruence.
Qed.

Definition over (ext : extent_info) (f : Z -> option (Z * Z * Z)) (o : Z) :=
  match extent_locate bs ext o with Some x => Some x | None => f o end.

Definition placed (ext : extent_info) (r : add_status * list extent_info * Z)
  : option (list extent_info * Z) :=
  match r with
  | (AddUsed, l, rs) => Some (l, rs)
  | (AddNotUsed, l, rs) => Some (ext :: l, rs ⊞ bytecount ext)
  | (AddNoMemory, _, _) => None
  end.

Definition is_placed (ext : extent_info) (f : Z -> option (Z * Z * Z)) (hi : Z)
    (r : add_status * list extent_info * Z) : Prop :=
  exists L, placed ext r = Some (L, total_bytes L) /\ chain bs 0 L hi /\
    forall o, locate bs L o = over ext f o.

(** The new extent fits behind a list that ends before it and in front of a
    list that begins after it. *)
Lemma over_middle ext front back o lo m :
  chain bs lo front m -> m <= fileoffset ext ->
  locate bs (front ++ ext :: back) o = over ext (locate bs (front ++ back)) o.
Proof.
  intros Hf Hm. rewrite !locate_app. cbn [locate]. unfold over.
  destruct (extent_locate bs ext o) eqn:E; [|by rewrite locate_app].
  assert (fileoffset ext <= o).
  { unfold extent_locate in E. destruct (_ && _)%bool eqn:?; bsplit; [lia|done]. }
  by rewrite (locate_out lo front m o Hf) by lia.
Qed.

Lemma locate_outside ext entry l o :
  locate bs l o = outside ext (extent_locate bs entry) o ->
  extent_locate bs ext o = None -> locate bs l o = extent_locate bs entry o.
Proof.
  intros -> E. unfold outside, extent_locate in *.
  destruct ((fileoffset ext <=? o) && (o <? extent_end ext))%bool; done.
Qed.

Lemma over_outside ext (f g : Z -> option (Z * Z * Z)) o :
  (extent_locate bs ext o = None -> f o = g o) -> over ext f o = over ext g o.
Proof. unfold over. destruct (extent_locate bs ext o); auto. Qed.

Lemma is_placed_outside ext (f g : Z -> option (Z * Z * Z)) hi r :
  (forall o, extent_locate bs ext o = None -> f o = g o) ->
  is_placed ext f hi r -> is_placed ext g hi r.
Proof.
  intros Hfg (L & ? & ? & HL). exists L. split_and!; [done..|].
  intros o. rewrite HL. by apply over_outside, Hfg.
Qed.

(** The loop, entered with the entries [before] (last one first) still to
    visit and the entries [after], all behind the new extent, done. *)
Lemma add_extent_loop_ok ext before : forall after rs m b hi,
  extent_ok bs ext -> chain bs 0 (reverse before) m -> chain bs b after hi ->
  m <= b -> extent_end ext <= b -> hi < 2 ^ 63 ->
  rs = total_bytes (reverse before ++ after) ->
  is_placed ext (locate bs (reverse before ++ after)) hi
    (add_extent_loop bs ext true before after rs).
Proof.
  induction before as [|entry before IH]; intros after rs m b hi Hext Hbef Haft Hmb Heb Hhi Hrs0.
  { subst rs. change (reverse [] ++ after) with after. cbn [add_extent_loop].
    pose proof (chain_total _ _ _ Haft). pose proof (chain_le _ _ _ Haft).
    pose proof Hext as (? & ? & ?). unfold extent_end in *.
    exists (ext :: after). split_and!.
    - cbn [placed]. rewrite total_bytes_cons. nowrap. do 2 f_equal. lia.
    - cbn [chain]. split_and!; [lia|done|]. by eapply chain_weaken; [..|apply Haft].
    - intros o. apply (over_middle ext [] after o 0 0); cbn; lia. }
  rewrite reverse_cons in Hbef, Hrs0 |- *. rewrite <- app_assoc in Hrs0 |- *.
  cbn [app] in Hrs0 |- *. rewrite total_bytes_app, total_bytes_cons in Hrs0.
  destruct (chain_end _ _ _ _ Hbef) as (Hpre & Hent & Hend).
  pose proof (chain_total _ _ _ Hpre). pose proof (chain_total _ _ _ Haft).
  pose proof (chain_le _ _ _ Hpre). pose proof (chain_le _ _ _ Haft).
  pose proof Hext as (? & ? & _). pose proof Hent as (? & ? & _).
  destruct (update_entry_ok ext entry rs) as (e' & sp & rs' & Hu & Hcase & Hall & Hrs & Hloc);
    [done..|lia|unfold extent_end in *; lia|].
  cbn [add_extent_loop]. rewrite Hu.
  assert (Hstep : forall o, extent_locate bs ext o = None ->
    locate bs (reverse before ++ (opt_list e' ++ sp) ++ after) o
    = locate bs (reverse before ++ entry :: after) o).
  { intros o Ho. rewrite !locate_app. cbn [locate].
    by rewrite <- locate_app, (locate_outside ext entry _ o (Hloc o) Ho). }
  assert (Htail : chain bs (extent_end ext) (sp ++ after) hi).
  { destruct Hcase as [|e' _ _ _|e' sp ? ? Hsp]; cbn.
    1,2: by eapply chain_weaken; [..|apply Haft]; lia.
    apply chain_app. exists b. split; [|done]. eapply chain_weaken; [..|apply Hsp]; lia. }
  rewrite total_bytes_app in Hrs.
  destruct e' as [e'|]; cbn [opt_list app] in *; cycle 1.
  { (* the entry is gone *)
    eapply is_placed_outside; [apply Hstep|]. change (total_bytes []) with 0 in Hrs.
    assert (sp = []) as -> by by inversion Hcase. change (total_bytes []) with 0 in Hrs.
    unfold extent_end in *.
    apply (IH _ _ (fileoffset entry) b); unfold extent_end; try (done || lia).
    cbn [app]. rewrite total_bytes_app. lia. }
  apply Forall_cons in Hall as [He' Hsp]. pose proof He' as (? & ? & ? & _).
  rewrite total_bytes_cons in Hrs. change (total_bytes []) with 0 in Hrs.
  assert (Hfe : fileoffset entry <= fileoffset e') by (inversion Hcase; subst; lia).
  assert (Hplace : extent_end e' <= fileoffset ext ->
    chain bs 0 (reverse before ++ e' :: ext :: sp ++ after) hi /\
    forall o, locate bs (reverse before ++ e' :: ext :: sp ++ after) o =
      over ext (locate bs (reverse before ++ entry :: after)) o).
  { intros He. split.
    - apply chain_app. exists (fileoffset e'). split; [by eapply chain_weaken; [..|apply Hpre]; lia|].
      cbn [chain]. split_and!; (done || lia).
    - intros o. etransitivity; [|by apply over_outside, Hstep].
      rewrite (cons_middle e'), app_assoc.
      rewrite (over_middle ext (reverse before ++ [e']) (sp ++ after) o 0 (extent_end e')); [|..|done].
      + by rewrite <- app_assoc.
      + apply chain_app. exists (fileoffset entry). split; [done|]. cbn. split_and!; (done || lia). }
  destruct (can_append bs ext e') eqn:Happ;
    [|destruct (fileoffset_end e' <=? fileoffset ext) eqn:Hins].
  - (* appended to the entry *)
    destruct (append_ok ext e' Hext He' Happ) as (Hfo & Hok & Hme & Hmb' & Hml).
    destruct Hplace as [Hch Hl]; [lia|].
    pose proof (chain_total _ _ _ Hch) as Ht.
    rewrite !total_bytes_app, !total_bytes_cons, total_bytes_app in Ht.
    exists (reverse before ++ e' <| bytecount := bytecount e' ⊞ bytecount ext |> :: sp ++ after).
    split_and!; [|..].
    + cbn [placed]. rewrite !total_bytes_app, total_bytes_cons, total_bytes_app, Hmb'. nowrap.
      do 2 f_equal. lia.
    + apply chain_app in Hch as (m' & Hch1 & Hch2). apply chain_app. exists m'. split; [done|].
      cbn [chain] in Hch2 |- *. rewrite Hme. unfold set_field; cbn [fileoffset]. tauto.
    + intros o. rewrite <- Hl, !locate_app. cbn [locate]. rewrite Hml.
      by destruct (locate bs (reverse before) o), (extent_locate bs e' o), (extent_locate bs ext o).
  - (* inserted behind the entry *)
    unfold fileoffset_end, extent_end in *. nowrap. bsplit.
    destruct Hplace as [Hch Hl]; [lia|].
    pose proof (chain_total _ _ _ Hch) as Ht.
    rewrite !total_bytes_app, !total_bytes_cons, total_bytes_app in Ht.
    exists (reverse before ++ e' :: ext :: sp ++ after). split_and!; [|done..].
    cbn [placed]. rewrite !total_bytes_app, !total_bytes_cons, total_bytes_app. nowrap.
    do 2 f_equal. lia.
  - (* the entry lies behind the new extent *)
    unfold fileoffset_end, extent_end in *. nowrap. bsplit.
    eapply is_placed_outside; [apply Hstep|]. unfold extent_end in *.
    inversion Hcase; subst; unfold extent_end in *; [|lia].
    apply (IH _ _ (fileoffset entry) (fileoffset e')); try (done || lia).
    + cbn [chain app]. unfold extent_end. split_and!; [lia|done|].
      by eapply chain_weaken; [..|apply Haft]; lia.
    + cbn [app]. rewrite total_bytes_app, total_bytes_cons. change (total_bytes []) with 0 in *. lia.
Qed.
End lemmas.

(** ** The list routines keep a file well formed *)

(** The part of a file's dentry that the extent routines maintain: [size] is
    the logical end of file, [realsize] the bytes on tape. *)
Definition extents_ok (bs size realsize : Z) (l : list extent_info) : Prop :=
  chain bs 0 l size /\ size < 2 ^ 63 /\ realsize = total_bytes l.

Section routines.
Context (bs : Z) (Hbs : 0 < bs <= 2 ^ 32).

Lemma add_extent_list_ok ext size realsize l :
  extents_ok bs size realsize l -> extent_ok bs ext ->
  exists l' realsize', add_extent_list bs ext true true l realsize = (0, l', realsize') /\
    extents_ok bs (Z.max size (extent_end ext)) realsize' l' /\
    forall o, locate bs l' o = over bs ext (locate bs l) o.
Proof.
  intros (Hl & Hs & ->) Hext. pose proof Hext as (? & ? & ? & _).
  destruct (add_extent_loop_ok bs Hbs ext (reverse l) [] (total_bytes l) size
              (Z.max size (extent_end ext)) (Z.max size (extent_end ext)))
    as (L & Hp & Hc & HL); rewrite ?reverse_involutive, ?app_nil_r; cbn; try (done || lia).
  rewrite reverse_involutive, app_nil_r in HL.
  exists L, (total_bytes L). split; [|split; [|done]]; cycle 1.
  { unfold extents_ok. split_and!; (done || lia). }
  unfold add_extent_list; cbn [negb].
  destruct (add_extent_loop _ _ _ _ _ _) as [[[] l'] rs]; cbn in Hp; congruence.
Qed.

Lemma update_entry_nomem ext entry rs :
  extent_ok bs ext -> extent_ok bs entry ->
  update_entry bs ext entry false rs = SplitNoMemory -> extent_end ext < extent_end entry.
Proof.
  intros (? & ? & ? & _) (? & ? & ? & _).
  unfold update_entry, fileoffset_end, extent_end in *. nowrap. case_bool; (done || lia).
Qed.

Lemma update_entry_behind ext entry rs :
  extent_ok bs ext -> extent_ok bs entry -> extent_end ext < fileoffset entry ->
  update_entry bs ext entry false rs = Updated (Some entry) [] rs /\
  can_append bs ext entry = false /\ (fileoffset_end entry <=? fileoffset ext) = false.
Proof.
  intros (? & ? & ? & _) (? & ? & ? & _) ?.
  unfold update_entry, can_append, fileoffset_end, extent_end in *. nowrap.
  split_and!; [case_bool; (done || lia)| |lia].
  by replace (fileoffset ext =? fileoffset entry + bytecount entry) with false by lia.
Qed.

(** When the second allocation fails, the loop has not changed any entry. *)
Lemma add_extent_loop_nomem ext before : forall after rs m l' rs',
  extent_ok bs ext -> chain bs 0 (reverse before) m ->
  add_extent_loop bs ext false before after rs = (AddNoMemory, l', rs') ->
  l' = reverse before ++ after /\ extent_end ext < m.
Proof.
  induction before as [|entry before IH]; intros after rs m l' rs' Hext Hb; [done|].
  rewrite reverse_cons in Hb. apply (chain_end bs Hbs) in Hb as (Hpre & Hent & Hend).
  cbn [add_extent_loop].
  destruct (update_entry bs ext entry false rs) as [[e'|] sp rs1|] eqn:Hu.
  - destruct (can_append bs ext e'); [done|].
    destruct (fileoffset_end e' <=? fileoffset ext); [done|].
    intros Hr. destruct (IH _ _ _ _ _ Hext Hpre Hr) as [Hl Hlt].
    destruct (update_entry_behind ext entry rs Hext Hent Hlt) as (Hu' & _).
    rewrite Hu in Hu'. injection Hu' as -> -> ->. subst l'.
    pose proof Hent as (_ & ? & _). unfold extent_end in *.
    split; [by rewrite reverse_cons, <- app_assoc|lia].
  - intros Hr. destruct (IH _ _ _ _ _ Hext Hpre Hr) as [Hl Hlt].
    destruct (update_entry_behind ext entry rs Hext Hent Hlt) as (Hu' & _). congruence.
  - intros Hr. injection Hr as <- <-. apply update_entry_nomem in Hu; [|done..].
    split; [done|lia].
Qed.

Lemma add_extent_list_nomem ext copy_ok split_ok size realsize l r l' realsize' :
  extents_ok bs size realsize l -> extent_ok bs ext ->
  add_extent_list bs ext copy_ok split_ok l realsize = (r, l', realsize') ->
  r <> 0 -> r = - LTFS_NO_MEMORY /\ l' = l /\ realsize' = realsize.
Proof.
  intros Hl Hext Hr Hne.
  destruct copy_ok; [|unfold add_extent_list in Hr; cbn in Hr; by injection Hr as <- <- <-].
  destruct split_ok.
  { destruct (add_extent_list_ok ext _ _ _ Hl Hext) as (l1 & rs1 & E & _). congruence. }
  unfold add_extent_list in Hr; cbn [negb] in Hr.
  destruct (add_extent_loop _ _ _ _ _ _) as [[st l1] rs1] eqn:E.
  destruct st; injection Hr as <- <- <-; try done.
  destruct Hl as [Hl _]. rewrite <- (reverse_involutive l) in Hl.
  destruct (add_extent_loop_nomem _ _ _ _ _ _ _ Hext Hl E) as [-> _].
  by rewrite reverse_involutive, app_nil_r.
Qed.

(** A successful call did not depend on the second allocation. *)
Lemma update_entry_split ext entry rs e sp rs' split_ok :
  update_entry bs ext entry split_ok rs = Updated e sp rs' ->
  update_entry bs ext entry true rs = Updated e sp rs'.
Proof. unfold update_entry. by destruct split_ok; case_bool. Qed.

Lemma add_extent_loop_split ext split_ok before : forall after rs st l' rs',
  add_extent_loop bs ext split_ok before after rs = (st, l', rs') -> st <> AddNoMemory ->
  add_extent_loop bs ext true before after rs = (st, l', rs').
Proof.
  induction before as [|entry before IH]; intros after rs st l' rs'; cbn [add_extent_loop]; [done|].
  destruct (update_entry bs ext entry split_ok rs) as [e sp rs1|] eqn:Hu.
  - rewrite (update_entry_split _ _ _ _ _ _ _ Hu). destruct e as [e|]; [|by apply IH].
    destruct (can_append bs ext e); [done|]. destruct (fileoffset_end e <=? fileoffset ext); [done|].
    by apply IH.
  - intros [= <- _ _] Hne. done.
Qed.

Lemma add_extent_list_split ext copy_ok split_ok l rs l' rs' :
  add_extent_list bs ext copy_ok split_ok l rs = (0, l', rs') ->
  add_extent_list bs ext true true l rs = (0, l', rs').
Proof.
  unfold add_extent_list. destruct copy_ok; [|done]. cbn [negb].
  destruct (add_extent_loop bs ext split_ok _ _ _) as [[st l1] rs1] eqn:Hl.
  destruct st; [| |done]; by rewrite (add_extent_loop_split _ _ _ _ _ _ _ _ Hl).
Qed.

(** *** Truncation *)

Lemma truncate_loop_stop ulength before after rs m :
  chain bs 0 (reverse before) m -> m <= ulength -> 0 < ulength < 2 ^ 63 ->
  (forall entry before', before = entry :: before' -> fileoffset entry < ulength) ->
  truncate_loop ulength before after rs = (reverse before ++ after, rs).
Proof.
  destruct before as [|entry before]; cbn [truncate_loop]; [done|].
  rewrite reverse_cons. intros Hb Hm Hu Hfo.
  apply (chain_end bs Hbs) in Hb as (Hpre & (? & ? & ? & _) & Hend).
  specialize (Hfo _ _ eq_refl). unfold fileoffset_end, extent_end in *. nowrap.
  replace ((ulength <=? fileoffset entry) || (ulength =? 0)) with false by lia.
  replace (ulength <? fileoffset entry + bytecount entry) with false by lia.
  done.
Qed.

Lemma truncate_loop_ok ulength before : forall m,
  0 <= ulength < 2 ^ 63 -> chain bs 0 (reverse before) m -> m < 2 ^ 63 ->
  exists L, truncate_loop ulength before [] (total_bytes (reverse before)) = (L, total_bytes L) /\
    chain bs 0 L ulength /\
    forall o, locate bs L o = if o <? ulength then locate bs (reverse before) o else None.
Proof.
  induction before as [|entry before IH]; intros m Hu Hb Hm.
  { exists []. cbn. split_and!; [done|lia|]. intros o. by case_bool. }
  rewrite reverse_cons in Hb. pose proof Hb as Hall.
  apply (chain_end bs Hbs) in Hb as (Hpre & Hent & Hend). pose proof Hent as (? & ? & ? & _).
  pose proof (chain_total _ _ _ _ Hpre). pose proof (chain_le _ _ _ _ Hpre).
  rewrite reverse_cons. cbn [truncate_loop]. rewrite total_bytes_app, total_bytes_cons.
  change (total_bytes []) with 0. unfold fileoffset_end, extent_end in *. nowrap.
  destruct ((ulength <=? fileoffset entry) || (ulength =? 0)) eqn:Hc;
    [|destruct (ulength <? fileoffset entry + bytecount entry) eqn:Hc2]; bsplit.
  - (* past the new end of file *)
    apply orb_true_iff in Hc. bsplit.
    assert (ulength <= fileoffset entry) by (destruct Hc as [Hc|Hc]; bsplit; lia).
    replace (total_bytes (reverse before) + (bytecount entry + 0) - bytecount entry)
      with (total_bytes (reverse before)) by lia.
    destruct (IH (fileoffset entry)) as (L & -> & HL & Hloc); [done..|lia|].
    exists L. split_and!; [done..|]. intros o. rewrite Hloc, locate_app. cbn [locate].
    case_bool; [|done]. rewrite (extent_locate_out _ entry) by (unfold extent_end; lia).
    by destruct (locate bs (reverse before) o).
  - (* cut at the new end of file *)
    destruct (cut_tail_ok bs Hbs entry (ulength - fileoffset entry) Hent) as (Hok & Htl); [lia|].
    rewrite (truncate_loop_stop _ _ _ _ (fileoffset entry)); try (done || lia); cycle 1.
    { intros e b ->. rewrite reverse_cons in Hpre. apply (chain_end bs Hbs) in Hpre as (_ & (_ & ? & _) & ?).
      unfold extent_end in *. lia. }
    nowrap. eexists. split_and!; [f_equal| |].
    + rewrite total_bytes_app, total_bytes_cons. change (total_bytes []) with 0. cbn. nowrap. lia.
    + apply chain_app; [done|]. exists (fileoffset entry). split; [done|]. cbn [chain].
      unfold extent_end, set_field; cbn [fileoffset bytecount]. split_and!; (done || lia).
    + intros o. rewrite !locate_app. cbn [locate]. rewrite Htl.
      replace (fileoffset entry + (ulength - fileoffset entry)) with ulength by lia.
      destruct (o <? ulength) eqn:?; bsplit; [done|].
      by rewrite (locate_out bs 0 _ (fileoffset entry)) by (done || lia).
  - (* the rest is inside the new length *)
    rewrite reverse_cons, app_nil_r. eexists. split_and!; [f_equal| |].
    + rewrite total_bytes_app, total_bytes_cons. done.
    + apply chain_app; [done|]. exists (fileoffset entry). split; [done|]. cbn [chain].
      unfold extent_end. split_and!; (done || lia).
    + intros o. case_bool; [done|]. rewrite locate_app. cbn [locate].
      by rewrite (locate_out bs 0 _ (fileoffset entry)), extent_locate_out
        by (done || unfold extent_end; lia).
Qed.

Lemma truncate_list_ok ulength size realsize l :
  extents_ok bs size realsize l -> 0 <= ulength < 2 ^ 63 ->
  exists l' realsize', truncate_list ulength size l realsize = (l', realsize') /\
    extents_ok bs ulength realsize' l' /\
    forall o, locate bs l' o = if o <? ulength then locate bs l o else None.
Proof.
  intros (Hl & Hs & ->) Hu. unfold truncate_list.
  destruct ((ulength <? size) && negb (bool_decide (l = []))) eqn:E.
  - destruct (truncate_loop_ok ulength (reverse l) size) as (L & HL & Hc & Hloc);
      [done|by rewrite reverse_involutive|done|].
    rewrite reverse_involutive in HL, Hloc. exists L, (total_bytes L).
    split; [done|]. split; [|done]. unfold extents_ok. split_and!; (done || lia).
  - exists l, (total_bytes l). split; [done|].
    apply andb_false_iff in E as [E|E]; bsplit.
    + split; [split_and!; [|lia|done]; by eapply chain_weaken; [..|apply Hl]|].
      intros o. case_bool; [done|]. by rewrite (locate_out bs 0 l size) by (done || lia).
    + apply bool_decide_eq_true in E as ->. split; [split_and!; cbn; (done || lia)|].
      intros o. by case_bool.
Qed.
End routines.
