(* ===== verification/TapeOps.v ===== *)
(** * The backend interface (src/libltfs/tape_ops.h)

    [struct tape_ops] is the table of functions a tape backend gives to
    libltfs.  The class [TapeOps] holds those of them that the verified part
    of libltfs calls; the class [TapeLaws] states, against the picture of a
    tape as two append-only logs, what the comments of the header promise.
    The tape layer and the raw file-system operations are proved against
    [TapeLaws]; the file backend discharges it. *)

From S2P Require Import Prelude LtfsError.

(** [struct tc_position]. *)
Record tc_position := mk_position {
  block : Z;
  filemarks : Z;
  partition : Z;
  early_warning : bool;
  programmable_early_warning : bool;
}.

#[export] Instance eta_position : Eta tc_position := fun p =>
  mk_position (block p) (filemarks p) (partition p) (early_warning p)
              (programmable_early_warning p).

(** [TAPE_BLOCK_MAX]. *)
Definition TAPE_BLOCK_MAX : Z := 2 ^ 64 - 1.

(** [struct tc_remaining_cap]. *)
Record tc_remaining_cap := mk_cap {
  remaining_p0 : Z;
  remaining_p1 : Z;
  max_p0 : Z;
  max_p1 : Z;
}.

(** [TC_SPACE_TYPE]. *)
Inductive TC_SPACE_TYPE :=
  TC_SPACE_EOD | TC_SPACE_FM_F | TC_SPACE_FM_B | TC_SPACE_F | TC_SPACE_B.

(** The operations of a backend whose private data is of type [S].  An
    operation that the header gives a [struct tc_position *] takes the caller's
    position and returns the updated one. *)
Class TapeOps (S : Type) := {
  op_read : S -> Z -> tc_position -> bool -> Z * S * tc_position * list Z;
  op_write : S -> list Z -> tc_position -> Z * S * tc_position;
  op_writefm : S -> Z -> tc_position -> bool -> Z * S * tc_position;
  op_rewind : S -> tc_position -> Z * S * tc_position;
  op_locate : S -> tc_position -> tc_position -> Z * S * tc_position;
  op_space : S -> Z -> TC_SPACE_TYPE -> tc_position -> Z * S * tc_position;
  op_erase : S -> tc_position -> bool -> Z * S * tc_position;
  op_unload : S -> tc_position -> Z * S * tc_position;
  op_readpos : S -> tc_position -> Z * S * tc_position;
  op_get_next_block_to_xfer : S -> tc_position -> Z * S * tc_position;
  op_reserve_unit : S -> Z * S;
  op_release_unit : S -> Z * S;
  op_prevent_medium_removal : S -> Z * S;
  op_allow_medium_removal : S -> Z * S;
  op_test_unit_ready : S -> Z * S;
  op_remaining_capacity : S -> tc_remaining_cap -> Z * S * tc_remaining_cap;
  op_allow_overwrite : S -> tc_position -> Z * S;
  op_is_readonly : S -> bool;
  op_get_worm_status : S -> Z * bool;
}.

(** ** The contract

    A medium is a log of records per partition and a head.  Writing truncates
    the log of the partition at the head before it appends. *)

Inductive tape_record := TData (bytes : list Z) | TFilemark.

#[export] Instance tape_record_eq_dec : EqDecision tape_record.
Proof. solve_decision. Defined.

Record medium := mk_medium {
  m_log : Z -> list tape_record;
  m_part : Z;
  m_block : Z;
}.

(** The records the head is on and behind. *)
Definition m_here (m : medium) : option tape_record :=
  m_log m (m_part m) !! Z.to_nat (m_block m).

Definition m_eod (m : medium) (p : Z) : Z := zlength (m_log m p).

Definition m_append (m : medium) (rs : list tape_record) : medium :=
  {| m_log := fun p => if p =? m_part m
                       then take (Z.to_nat (m_block m)) (m_log m p) ++ rs
                       else m_log m p;
     m_part := m_part m;
     m_block := m_block m + zlength rs |}.

Definition m_move (m : medium) (p b : Z) : medium :=
  {| m_log := m_log m; m_part := p; m_block := b |}.

Definition m_wf (m : medium) : Prop :=
  (m_part m = 0 \/ m_part m = 1) /\ 0 <= m_block m <= m_eod m (m_part m).

(** The position a caller holds agrees with the head. *)
Definition at_head (m : medium) (pos : tc_position) : Prop :=
  partition pos = m_part m /\ block pos = m_block m.

(** What tape_ops.h promises.  [tape_rep s m] relates the private data of the
    backend to a medium; a failed operation promises nothing here. *)
Class TapeLaws (S : Type) `{TapeOps S} := {
  tape_rep : S -> medium -> Prop;

  tape_rep_wf s m : tape_rep s m -> m_wf m;

  write_law s m buf pos r s' pos' :
    tape_rep s m -> at_head m pos -> m_block m + 1 < 2 ^ 62 -> buf <> [] ->
    op_write s buf pos = (r, s', pos') -> 0 <= r ->
    tape_rep s' (m_append m [TData buf]) /\ at_head (m_append m [TData buf]) pos';

  writefm_law s m count pos immed r s' pos' :
    tape_rep s m -> at_head m pos -> 0 <= count -> m_block m + count < 2 ^ 62 ->
    op_writefm s count pos immed = (r, s', pos') -> 0 <= r ->
    let m' := if count =? 0 then m
              else m_append m (replicate (Z.to_nat count) TFilemark) in
    r = 0 /\ tape_rep s' m' /\ at_head m' pos';

  read_law s m count pos unusual r s' pos' buf :
    tape_rep s m -> at_head m pos -> 0 <= count ->
    op_read s count pos unusual = (r, s', pos', buf) -> 0 <= r ->
    exists rec, m_here m = Some rec /\
      buf = match rec with TData d => take (Z.to_nat count) d | TFilemark => [] end /\
      r = zlength buf /\
      tape_rep s' (m_move m (m_part m) (m_block m + 1)) /\
      at_head (m_move m (m_part m) (m_block m + 1)) pos';

  locate_law s m dest pos r s' pos' :
    tape_rep s m -> 0 <= partition dest -> 0 <= block dest ->
    op_locate s dest pos = (r, s', pos') -> 0 <= r ->
    let m' := m_move m (partition dest) (Z.min (block dest) (m_eod m (partition dest))) in
    r = 0 /\ tape_rep s' m' /\ at_head m' pos';

  allow_overwrite_law s m pos r s' :
    tape_rep s m -> op_allow_overwrite s pos = (r, s') -> 0 <= r -> r = 0 /\ tape_rep s' m;
}.

(** ** Lemmas on media *)

Lemma m_append_here m r :
  m_wf m -> m_log (m_append m [r]) (m_part m) !! Z.to_nat (m_block m) = Some r.
Proof.
  intros (_ & ? & Hb). unfold m_eod, zlength in Hb. cbn. rewrite Z.eqb_refl.
  rewrite lookup_app_r; rewrite length_take; [|lia].
  replace (_ - _)%nat with 0%nat by lia. done.
Qed.

(** Records before the head survive a write, as does the other partition. *)
Lemma m_append_before m rs p i :
  p <> m_part m \/ Z.of_nat i < m_block m ->
  m_wf m -> m_log (m_append m rs) p !! i = m_log m p !! i.
Proof.
  intros Hi (_ & ? & Hb). unfold m_eod, zlength in Hb. cbn.
  destruct (Z.eqb_spec p (m_part m)) as [->|]; [|done].
  rewrite lookup_app_l; [|rewrite length_take; lia]. apply lookup_take_lt. lia.
Qed.

Lemma m_append_eod m rs :
  m_wf m -> m_eod (m_append m rs) (m_part m) = m_block m + zlength rs.
Proof.
  intros (_ & ? & Hb). unfold m_eod, zlength in *. cbn. rewrite Z.eqb_refl.
  rewrite length_app, length_take. lia.
Qed.
