(* ===== verification/IbmTape.v ===== *)
(** * Cartridge and drive compatibility (src/tape_drivers/ibm_tape.c)

    The tables that say which drive generation may access which cartridge in
    which recording density, the lookup [_is_mountable] with its barcode
    checks in [ibm_tape_is_mountable], and the mapping between cartridge type
    codes and their two-letter names.  Characters are their ASCII codes. *)

From S2P Require Import Prelude.

(** ** Codes (src/tape_drivers/tape_drivers.h, src/libltfs/tape_ops.h) *)

Definition DRIVE_GEN_UNKNOWN := 0.
Definition DRIVE_GEN_LTO5 := 8197.
Definition DRIVE_GEN_LTO6 := 8198.
Definition DRIVE_GEN_LTO7 := 8199.
Definition DRIVE_GEN_LTO8 := 8200.
Definition DRIVE_GEN_LTO9 := 8201.
Definition DRIVE_GEN_JAG4 := 4100.
Definition DRIVE_GEN_JAG5 := 4101.
Definition DRIVE_GEN_JAG5A := 20485.
Definition DRIVE_GEN_JAG6 := 4102.
Definition DRIVE_GEN_JAG7 := 4103.

Definition TC_MP_LTO1D_CART := 24.
Definition TC_MP_LTO2D_CART := 40.
Definition TC_MP_LTO3D_CART := 56.
Definition TC_MP_LTO4D_CART := 72.
Definition TC_MP_LTO5D_CART := 88.
Definition TC_MP_LTO6D_CART := 104.
Definition TC_MP_LTO7D_CART := 120.
Definition TC_MP_LTO8D_CART := 136.
Definition TC_MP_LTO9D_CART := 152.
Definition TC_MP_LTO3W_CART := 60.
Definition TC_MP_LTO4W_CART := 76.
Definition TC_MP_LTO5W_CART := 92.
Definition TC_MP_LTO6W_CART := 108.
Definition TC_MP_LTO7W_CART := 124.
Definition TC_MP_LTO8W_CART := 140.
Definition TC_MP_LTO9W_CART := 156.
Definition TC_MP_JA := 145.
Definition TC_MP_JW := 161.
Definition TC_MP_JJ := 177.
Definition TC_MP_JR := 193.
Definition TC_MP_JB := 146.
Definition TC_MP_JX := 162.
Definition TC_MP_JC := 147.
Definition TC_MP_JY := 163.
Definition TC_MP_JK := 178.
Definition TC_MP_JD := 148.
Definition TC_MP_JZ := 164.
Definition TC_MP_JL := 179.
Definition TC_MP_JE := 149.
Definition TC_MP_JV := 165.
Definition TC_MP_JM := 180.
Definition TC_MP_JF := 150.

Definition TC_DC_UNKNOWN := 0.
Definition TC_DC_LTO1 := 64.
Definition TC_DC_LTO2 := 66.
Definition TC_DC_LTO3 := 68.
Definition TC_DC_LTO4 := 70.
Definition TC_DC_LTO5 := 88.
Definition TC_DC_LTO6 := 90.
Definition TC_DC_LTO7 := 92.
Definition TC_DC_LTOM8 := 93.
Definition TC_DC_LTO8 := 94.
Definition TC_DC_LTO9 := 96.
Definition TC_DC_JAG1 := 81.
Definition TC_DC_JAG2 := 82.
Definition TC_DC_JAG3 := 83.
Definition TC_DC_JAG4 := 84.
Definition TC_DC_JAG5 := 85.
Definition TC_DC_JAG5A := 86.
Definition TC_DC_JAG6 := 87.
Definition TC_DC_JAG7 := 89.
Definition TC_DC_JAG1E := 113.
Definition TC_DC_JAG2E := 114.
Definition TC_DC_JAG3E := 115.
Definition TC_DC_JAG4E := 116.
Definition TC_DC_JAG5E := 117.
Definition TC_DC_JAG5AE := 118.
Definition TC_DC_JAG6E := 119.
Definition TC_DC_JAG7E := 121.

Definition MEDIUM_UNKNOWN := 0.
Definition MEDIUM_PERFECT_MATCH := 1.
Definition MEDIUM_WRITABLE := 2.
Definition MEDIUM_PROBABLY_WRITABLE := 3.
Definition MEDIUM_READONLY := 4.
Definition MEDIUM_CANNOT_ACCESS := 5.

(** [IS_LTO], [DRIVE_FAMILY_GEN] and [MASK_CRYPTO] ([~0x20] on an unsigned char). *)
Definition IS_LTO (type : Z) : bool := negb (Z.land type 0x2000 =? 0).
Definition DRIVE_FAMILY_GEN (type : Z) : Z := Z.land type (Z.lor 0x00FF 0xF000).
Definition MASK_CRYPTO : Z := Z.lnot 0x20.

(** ** The tables *)

Record density_support := row {
  drive_generation : Z;
  cartridge_type : Z;
  table_density : Z;
  access : Z;
}.

Definition jaguar_drive_density : list density_support :=
  [ row DRIVE_GEN_JAG7 TC_MP_JF TC_DC_JAG7 MEDIUM_PERFECT_MATCH;
    row DRIVE_GEN_JAG7 TC_MP_JF TC_DC_UNKNOWN MEDIUM_PROBABLY_WRITABLE;
    row DRIVE_GEN_JAG6 TC_MP_JE TC_DC_JAG6 MEDIUM_PERFECT_MATCH;
    row DRIVE_GEN_JAG6 TC_MP_JE TC_DC_UNKNOWN MEDIUM_PROBABLY_WRITABLE;
    row DRIVE_GEN_JAG6 TC_MP_JV TC_DC_JAG6 MEDIUM_PERFECT_MATCH;
    row DRIVE_GEN_JAG6 TC_MP_JV TC_DC_UNKNOWN MEDIUM_PROBABLY_WRITABLE;
    row DRIVE_GEN_JAG6 TC_MP_JM TC_DC_JAG6 MEDIUM_PERFECT_MATCH;
    row DRIVE_GEN_JAG6 TC_MP_JM TC_DC_UNKNOWN MEDIUM_PROBABLY_WRITABLE;
    row DRIVE_GEN_JAG6 TC_MP_JD TC_DC_JAG5A MEDIUM_WRITABLE;
    row DRIVE_GEN_JAG6 TC_MP_JD TC_DC_JAG5 MEDIUM_WRITABLE;
    row DRIVE_GEN_JAG6 TC_MP_JD TC_DC_UNKNOWN MEDIUM_WRITABLE;
    row DRIVE_GEN_JAG6 TC_MP_JL TC_DC_JAG5A MEDIUM_WRITABLE;
    row DRIVE_GEN_JAG6 TC_MP_JL TC_DC_JAG5 MEDIUM_WRITABLE;
    row DRIVE_GEN_JAG6 TC_MP_JL TC_DC_UNKNOWN MEDIUM_WRITABLE;
    row DRIVE_GEN_JAG6 TC_MP_JZ TC_DC_JAG5A MEDIUM_WRITABLE;
    row DRIVE_GEN_JAG6 TC_MP_JZ TC_DC_JAG5 MEDIUM_WRITABLE;
    row DRIVE_GEN_JAG6 TC_MP_JZ TC_DC_UNKNOWN MEDIUM_WRITABLE;
    row DRIVE_GEN_JAG6 TC_MP_JC TC_DC_JAG5 MEDIUM_WRITABLE;
    row DRIVE_GEN_JAG6 TC_MP_JC TC_DC_JAG4 MEDIUM_READONLY;
    row DRIVE_GEN_JAG6 TC_MP_JC TC_DC_UNKNOWN MEDIUM_PROBABLY_WRITABLE;
    row DRIVE_GEN_JAG6 TC_MP_JK TC_DC_JAG5 MEDIUM_WRITABLE;
    row DRIVE_GEN_JAG6 TC_MP_JK TC_DC_JAG4 MEDIUM_READONLY;
    row DRIVE_GEN_JAG6 TC_MP_JK TC_DC_UNKNOWN MEDIUM_PROBABLY_WRITABLE;
    row DRIVE_GEN_JAG6 TC_MP_JY TC_DC_JAG5 MEDIUM_WRITABLE;
    row DRIVE_GEN_JAG6 TC_MP_JY TC_DC_JAG4 MEDIUM_READONLY;
    row DRIVE_GEN_JAG6 TC_MP_JY TC_DC_UNKNOWN MEDIUM_PROBABLY_WRITABLE;
    row DRIVE_GEN_JAG5A TC_MP_JD TC_DC_JAG5A MEDIUM_PERFECT_MATCH;
    row DRIVE_GEN_JAG5A TC_MP_JD TC_DC_JAG5 MEDIUM_WRITABLE;
    row DRIVE_GEN_JAG5A TC_MP_JD TC_DC_UNKNOWN MEDIUM_WRITABLE;
    row DRIVE_GEN_JAG5A TC_MP_JL TC_DC_JAG5A MEDIUM_PERFECT_MATCH;
    row DRIVE_GEN_JAG5A TC_MP_JL TC_DC_JAG5 MEDIUM_WRITABLE;
    row DRIVE_GEN_JAG5A TC_MP_JL TC_DC_UNKNOWN MEDIUM_WRITABLE;
    row DRIVE_GEN_JAG5A TC_MP_JZ TC_DC_JAG5A MEDIUM_PERFECT_MATCH;
    row DRIVE_GEN_JAG5A TC_MP_JZ TC_DC_JAG5 MEDIUM_WRITABLE;
    row DRIVE_GEN_JAG5A TC_MP_JZ TC_DC_UNKNOWN MEDIUM_WRITABLE;
    row DRIVE_GEN_JAG5A TC_MP_JC TC_DC_JAG5 MEDIUM_WRITABLE;
    row DRIVE_GEN_JAG5A TC_MP_JC TC_DC_JAG4 MEDIUM_READONLY;
    row DRIVE_GEN_JAG5A TC_MP_JC TC_DC_UNKNOWN MEDIUM_PROBABLY_WRITABLE;
    row DRIVE_GEN_JAG5A TC_MP_JK TC_DC_JAG5 MEDIUM_WRITABLE;
    row DRIVE_GEN_JAG5A TC_MP_JK TC_DC_JAG4 MEDIUM_READONLY;
    row DRIVE_GEN_JAG5A TC_MP_JK TC_DC_UNKNOWN MEDIUM_PROBABLY_WRITABLE;
    row DRIVE_GEN_JAG5A TC_MP_JY TC_DC_JAG5 MEDIUM_WRITABLE;
    row DRIVE_GEN_JAG5A TC_MP_JY TC_DC_JAG4 MEDIUM_READONLY;
    row DRIVE_GEN_JAG5A TC_MP_JY TC_DC_UNKNOWN MEDIUM_PROBABLY_WRITABLE;
    row DRIVE_GEN_JAG5 TC_MP_JD TC_DC_JAG5 MEDIUM_PERFECT_MATCH;
    row DRIVE_GEN_JAG5 TC_MP_JD TC_DC_UNKNOWN MEDIUM_PROBABLY_WRITABLE;
    row DRIVE_GEN_JAG5 TC_MP_JL TC_DC_JAG5 MEDIUM_PERFECT_MATCH;
    row DRIVE_GEN_JAG5 TC_MP_JL TC_DC_UNKNOWN MEDIUM_PROBABLY_WRITABLE;
    row DRIVE_GEN_JAG5 TC_MP_JZ TC_DC_JAG5 MEDIUM_PERFECT_MATCH;
    row DRIVE_GEN_JAG5 TC_MP_JZ TC_DC_UNKNOWN MEDIUM_PROBABLY_WRITABLE;
    row DRIVE_GEN_JAG5 TC_MP_JC TC_DC_JAG5 MEDIUM_PERFECT_MATCH;
    row DRIVE_GEN_JAG5 TC_MP_JC TC_DC_JAG4 MEDIUM_WRITABLE;
    row DRIVE_GEN_JAG5 TC_MP_JC TC_DC_UNKNOWN MEDIUM_WRITABLE;
    row DRIVE_GEN_JAG5 TC_MP_JK TC_DC_JAG5 MEDIUM_PERFECT_MATCH;
    row DRIVE_GEN_JAG5 TC_MP_JK TC_DC_JAG4 MEDIUM_WRITABLE;
    row DRIVE_GEN_JAG5 TC_MP_JK TC_DC_UNKNOWN MEDIUM_WRITABLE;
    row DRIVE_GEN_JAG5 TC_MP_JY TC_DC_JAG5 MEDIUM_PERFECT_MATCH;
    row DRIVE_GEN_JAG5 TC_MP_JY TC_DC_JAG4 MEDIUM_WRITABLE;
    row DRIVE_GEN_JAG5 TC_MP_JY TC_DC_UNKNOWN MEDIUM_WRITABLE;
    row DRIVE_GEN_JAG4 TC_MP_JC TC_DC_JAG4 MEDIUM_PERFECT_MATCH;
    row DRIVE_GEN_JAG4 TC_MP_JC TC_DC_UNKNOWN MEDIUM_PROBABLY_WRITABLE;
    row DRIVE_GEN_JAG4 TC_MP_JK TC_DC_JAG4 MEDIUM_PERFECT_MATCH;
    row DRIVE_GEN_JAG4 TC_MP_JK TC_DC_UNKNOWN MEDIUM_PROBABLY_WRITABLE;
    row DRIVE_GEN_JAG4 TC_MP_JY TC_DC_JAG4 MEDIUM_PERFECT_MATCH;
    row DRIVE_GEN_JAG4 TC_MP_JY TC_DC_UNKNOWN MEDIUM_PROBABLY_WRITABLE;
    row DRIVE_GEN_JAG4 TC_MP_JB TC_DC_JAG4 MEDIUM_PERFECT_MATCH;
    row DRIVE_GEN_JAG4 TC_MP_JB TC_DC_UNKNOWN MEDIUM_PROBABLY_WRITABLE;
    row DRIVE_GEN_JAG4 TC_MP_JX TC_DC_JAG4 MEDIUM_PERFECT_MATCH;
    row DRIVE_GEN_JAG4 TC_MP_JX TC_DC_UNKNOWN MEDIUM_PROBABLY_WRITABLE ].

Definition jaguar_drive_density_strict : list density_support :=
  [ row DRIVE_GEN_JAG7 TC_MP_JF TC_DC_JAG7 MEDIUM_PERFECT_MATCH;
    row DRIVE_GEN_JAG7 TC_MP_JF TC_DC_UNKNOWN MEDIUM_PROBABLY_WRITABLE;
    row DRIVE_GEN_JAG6 TC_MP_JE TC_DC_JAG6 MEDIUM_PERFECT_MATCH;
    row DRIVE_GEN_JAG6 TC_MP_JE TC_DC_UNKNOWN MEDIUM_PROBABLY_WRITABLE;
    row DRIVE_GEN_JAG6 TC_MP_JV TC_DC_JAG6 MEDIUM_PERFECT_MATCH;
    row DRIVE_GEN_JAG6 TC_MP_JV TC_DC_UNKNOWN MEDIUM_PROBABLY_WRITABLE;
    row DRIVE_GEN_JAG6 TC_MP_JM TC_DC_JAG6 MEDIUM_PERFECT_MATCH;
    row DRIVE_GEN_JAG6 TC_MP_JM TC_DC_UNKNOWN MEDIUM_PROBABLY_WRITABLE;
    row DRIVE_GEN_JAG5A TC_MP_JD TC_DC_JAG5A MEDIUM_PERFECT_MATCH;
    row DRIVE_GEN_JAG5A TC_MP_JD TC_DC_UNKNOWN MEDIUM_PROBABLY_WRITABLE;
    row DRIVE_GEN_JAG5A TC_MP_JL TC_DC_JAG5A MEDIUM_PERFECT_MATCH;
    row DRIVE_GEN_JAG5A TC_MP_JL TC_DC_UNKNOWN MEDIUM_PROBABLY_WRITABLE;
    row DRIVE_GEN_JAG5A TC_MP_JZ TC_DC_JAG5A MEDIUM_PERFECT_MATCH;
    row DRIVE_GEN_JAG5A TC_MP_JZ TC_DC_UNKNOWN MEDIUM_PROBABLY_WRITABLE;
    row DRIVE_GEN_JAG5 TC_MP_JD TC_DC_JAG5 MEDIUM_PERFECT_MATCH;
    row DRIVE_GEN_JAG5 TC_MP_JD TC_DC_UNKNOWN MEDIUM_PROBABLY_WRITABLE;
    row DRIVE_GEN_JAG5 TC_MP_JL TC_DC_JAG5 MEDIUM_PERFECT_MATCH;
    row DRIVE_GEN_JAG5 TC_MP_JL TC_DC_UNKNOWN MEDIUM_PROBABLY_WRITABLE;
    row DRIVE_GEN_JAG5 TC_MP_JZ TC_DC_JAG5 MEDIUM_PERFECT_MATCH;
    row DRIVE_GEN_JAG5 TC_MP_JZ TC_DC_UNKNOWN MEDIUM_PROBABLY_WRITABLE;
    row DRIVE_GEN_JAG5 TC_MP_JC TC_DC_JAG5 MEDIUM_PERFECT_MATCH;
    row DRIVE_GEN_JAG5 TC_MP_JC TC_DC_UNKNOWN MEDIUM_PROBABLY_WRITABLE;
    row DRIVE_GEN_JAG5 TC_MP_JK TC_DC_JAG5 MEDIUM_PERFECT_MATCH;
    row DRIVE_GEN_JAG5 TC_MP_JK TC_DC_UNKNOWN MEDIUM_PROBABLY_WRITABLE;
    row DRIVE_GEN_JAG5 TC_MP_JY TC_DC_JAG5 MEDIUM_PERFECT_MATCH;
    row DRIVE_GEN_JAG5 TC_MP_JY TC_DC_UNKNOWN MEDIUM_PROBABLY_WRITABLE;
    row DRIVE_GEN_JAG4 TC_MP_JC TC_DC_JAG4 MEDIUM_PERFECT_MATCH;
    row DRIVE_GEN_JAG4 TC_MP_JC TC_DC_UNKNOWN MEDIUM_PROBABLY_WRITABLE;
    row DRIVE_GEN_JAG4 TC_MP_JK TC_DC_JAG4 MEDIUM_PERFECT_MATCH;
    row DRIVE_GEN_JAG4 TC_MP_JK TC_DC_UNKNOWN MEDIUM_PROBABLY_WRITABLE;
    row DRIVE_GEN_JAG4 TC_MP_JY TC_DC_JAG4 MEDIUM_PERFECT_MATCH;
    row DRIVE_GEN_JAG4 TC_MP_JY TC_DC_UNKNOWN MEDIUM_PROBABLY_WRITABLE;
    row DRIVE_GEN_JAG4 TC_MP_JB TC_DC_JAG4 MEDIUM_PERFECT_MATCH;
    row DRIVE_GEN_JAG4 TC_MP_JB TC_DC_UNKNOWN MEDIUM_PROBABLY_WRITABLE;
    row DRIVE_GEN_JAG4 TC_MP_JX TC_DC_JAG4 MEDIUM_PERFECT_MATCH;
    row DRIVE_GEN_JAG4 TC_MP_JX TC_DC_UNKNOWN MEDIUM_PROBABLY_WRITABLE ].

Definition lto_drive_density : list density_support :=
  [ row DRIVE_GEN_LTO9 TC_MP_LTO9D_CART TC_DC_LTO9 MEDIUM_PERFECT_MATCH;
    row DRIVE_GEN_LTO9 TC_MP_LTO9D_CART TC_DC_UNKNOWN MEDIUM_PERFECT_MATCH;
    row DRIVE_GEN_LTO9 TC_MP_LTO8D_CART TC_DC_LTO8 MEDIUM_WRITABLE;
    row DRIVE_GEN_LTO9 TC_MP_LTO8D_CART TC_DC_UNKNOWN MEDIUM_WRITABLE;
    row DRIVE_GEN_LTO8 TC_MP_LTO8D_CART TC_DC_LTO8 MEDIUM_PERFECT_MATCH;
    row DRIVE_GEN_LTO8 TC_MP_LTO7D_CART TC_DC_LTOM8 MEDIUM_PERFECT_MATCH;
    row DRIVE_GEN_LTO8 TC_MP_LTO8D_CART TC_DC_UNKNOWN MEDIUM_PERFECT_MATCH;
    row DRIVE_GEN_LTO8 TC_MP_LTO7D_CART TC_DC_LTO7 MEDIUM_WRITABLE;
    row DRIVE_GEN_LTO8 TC_MP_LTO7D_CART TC_DC_UNKNOWN MEDIUM_WRITABLE;
    row DRIVE_GEN_LTO7 TC_MP_LTO7D_CART TC_DC_LTO7 MEDIUM_PERFECT_MATCH;
    row DRIVE_GEN_LTO7 TC_MP_LTO7D_CART TC_DC_UNKNOWN MEDIUM_PROBABLY_WRITABLE;
    row DRIVE_GEN_LTO7 TC_MP_LTO6D_CART TC_DC_LTO6 MEDIUM_WRITABLE;
    row DRIVE_GEN_LTO7 TC_MP_LTO6D_CART TC_DC_UNKNOWN MEDIUM_WRITABLE;
    row DRIVE_GEN_LTO7 TC_MP_LTO5D_CART TC_DC_LTO5 MEDIUM_READONLY;
    row DRIVE_GEN_LTO7 TC_MP_LTO5D_CART TC_DC_UNKNOWN MEDIUM_READONLY;
    row DRIVE_GEN_LTO6 TC_MP_LTO6D_CART TC_DC_LTO6 MEDIUM_PERFECT_MATCH;
    row DRIVE_GEN_LTO6 TC_MP_LTO6D_CART TC_DC_UNKNOWN MEDIUM_PERFECT_MATCH;
    row DRIVE_GEN_LTO6 TC_MP_LTO5D_CART TC_DC_LTO5 MEDIUM_WRITABLE;
    row DRIVE_GEN_LTO6 TC_MP_LTO5D_CART TC_DC_UNKNOWN MEDIUM_WRITABLE;
    row DRIVE_GEN_LTO5 TC_MP_LTO5D_CART TC_DC_LTO5 MEDIUM_PERFECT_MATCH;
    row DRIVE_GEN_LTO5 TC_MP_LTO5D_CART TC_DC_UNKNOWN MEDIUM_PERFECT_MATCH ].

Definition lto_drive_density_strict : list density_support :=
  [ row DRIVE_GEN_LTO9 TC_MP_LTO9D_CART TC_DC_LTO9 MEDIUM_PERFECT_MATCH;
    row DRIVE_GEN_LTO9 TC_MP_LTO9D_CART TC_DC_UNKNOWN MEDIUM_PERFECT_MATCH;
    row DRIVE_GEN_LTO8 TC_MP_LTO8D_CART TC_DC_LTO8 MEDIUM_PERFECT_MATCH;
    row DRIVE_GEN_LTO8 TC_MP_LTO8D_CART TC_DC_LTOM8 MEDIUM_PERFECT_MATCH;
    row DRIVE_GEN_LTO8 TC_MP_LTO8D_CART TC_DC_UNKNOWN MEDIUM_PERFECT_MATCH;
    row DRIVE_GEN_LTO7 TC_MP_LTO7D_CART TC_DC_LTO7 MEDIUM_PERFECT_MATCH;
    row DRIVE_GEN_LTO7 TC_MP_LTO7D_CART TC_DC_UNKNOWN MEDIUM_PROBABLY_WRITABLE;
    row DRIVE_GEN_LTO6 TC_MP_LTO6D_CART TC_DC_LTO6 MEDIUM_PERFECT_MATCH;
    row DRIVE_GEN_LTO6 TC_MP_LTO6D_CART TC_DC_UNKNOWN MEDIUM_PERFECT_MATCH;
    row DRIVE_GEN_LTO5 TC_MP_LTO5D_CART TC_DC_LTO5 MEDIUM_PERFECT_MATCH;
    row DRIVE_GEN_LTO5 TC_MP_LTO5D_CART TC_DC_UNKNOWN MEDIUM_PERFECT_MATCH ].

(** ** Lookup *)

(** The character literals the code tests. *)
Definition char_J := 74.
Definition char_L := 76.
Definition char_M := 77.
Definition char_8 := 56.

(** One [switch]: the value of the first case that matches, or the default. *)
Fixpoint switch {A} (x : Z) (cases : list (Z * A)) (default : A) : A :=
  match cases with
  | [] => default
  | (k, v) :: rest => if x =? k then v else switch x rest default
  end.

Definition _assume_cartridge_type (product btype : Z) : Z :=
  if product =? char_J then
    switch btype
      [ (66, TC_MP_JB); (67, TC_MP_JC); (75, TC_MP_JK); (89, TC_MP_JY); (68, TC_MP_JD);
        (76, TC_MP_JL); (90, TC_MP_JZ); (69, TC_MP_JE); (86, TC_MP_JV); (77, TC_MP_JM);
        (70, TC_MP_JF) ] 0
  else if product =? char_L then
    switch btype
      [ (53, TC_MP_LTO5D_CART); (54, TC_MP_LTO6D_CART); (55, TC_MP_LTO7D_CART);
        (56, TC_MP_LTO8D_CART); (57, TC_MP_LTO9D_CART) ] 0
  else if product =? char_M then
    switch btype [ (56, TC_MP_LTO7D_CART) ] 0
  else 0.

Definition ibm_tape_assume_cart_type (type_name : list Z) : Z :=
  match type_name with
  | a :: b :: _ =>
      let c_type := _assume_cartridge_type a b in
      if c_type =? 0 then TC_MP_LTO5D_CART else c_type
  | _ => TC_MP_LTO5D_CART
  end.

Definition ibm_tape_assume_cart_name (type : Z) : list Z :=
  switch type
    [ (TC_MP_LTO5D_CART, [76; 53]); (TC_MP_LTO6D_CART, [76; 54]); (TC_MP_LTO7D_CART, [76; 55]);
      (TC_MP_LTO8D_CART, [76; 56]); (TC_MP_LTO9D_CART, [76; 57]);
      (TC_MP_JB, [74; 66]); (TC_MP_JX, [74; 88]); (TC_MP_JC, [74; 67]); (TC_MP_JK, [74; 75]);
      (TC_MP_JY, [74; 89]); (TC_MP_JD, [74; 68]); (TC_MP_JL, [74; 76]); (TC_MP_JZ, [74; 90]);
      (TC_MP_JE, [74; 69]); (TC_MP_JV, [74; 86]); (TC_MP_JM, [74; 77]); (TC_MP_JF, [74; 70]) ]
    [76; 53].

(** The loop over the table. *)
Fixpoint table_access (table : list density_support) (gen ctype dcode : Z) : Z :=
  match table with
  | [] => MEDIUM_CANNOT_ACCESS
  | r :: rest =>
      if (drive_generation r =? gen) && (cartridge_type r =? ctype) && (table_density r =? dcode)
      then access r else table_access rest gen ctype dcode
  end.

Definition _is_mountable (drive_type : Z) (barcode : option (list Z))
    (cart_type density_code : Z) (strict : bool) : Z :=
  let product := match barcode with Some b => nth 6 b 0 | None => 0 end in
  let btype := match barcode with Some b => nth 7 b 0 | None => 0 end in
  let lto := IS_LTO drive_type in
  let dcode := if lto then density_code else Z.land density_code MASK_CRYPTO in
  let known := if lto then (product =? char_L) || (product =? char_M) || (product =? 0)
               else (product =? char_J) || (product =? 0) in
  if negb known then MEDIUM_CANNOT_ACCESS
  else
    let table := if lto then (if strict then lto_drive_density_strict else lto_drive_density)
                 else (if strict then jaguar_drive_density_strict else jaguar_drive_density) in
    let ctype := if cart_type =? 0 then _assume_cartridge_type product btype else cart_type in
    let dcode := if (density_code =? 0) && (product =? char_M) && (btype =? char_8)
                 then TC_DC_LTOM8 else dcode in
    table_access table (DRIVE_FAMILY_GEN drive_type) ctype dcode.

Definition ibm_tape_is_mountable (drive_type : Z) (barcode : option (list Z))
    (cart_type density_code : Z) (strict : bool) : Z :=
  match barcode with
  | Some b =>
      if zlength b =? 6 then MEDIUM_WRITABLE
      else if zlength b =? 8 then _is_mountable drive_type barcode cart_type density_code strict
      else MEDIUM_CANNOT_ACCESS
  | None => _is_mountable drive_type barcode cart_type density_code strict
  end.

(** ** Properties *)

(** A lookup that is not refused answers with a row of the table. *)
Lemma table_access_row table gen ctype dcode :
  table_access table gen ctype dcode = MEDIUM_CANNOT_ACCESS \/
  row gen ctype dcode (table_access table gen ctype dcode) ∈ table.
Proof.
  induction table as [|[g c d a] table IH]; [by left|]. cbn.
  destruct (_ && _) eqn:E; bsplit.
  - subst. right. left.
  - destruct IH; [by left|]. right. by right.
Qed.

(** A check of every row of a table is a check of every successful lookup. *)
Lemma table_access_all (P : density_support -> bool) table gen ctype dcode :
  forallb P table = true ->
  table_access table gen ctype dcode <> MEDIUM_CANNOT_ACCESS ->
  P (row gen ctype dcode (table_access table gen ctype dcode)) = true.
Proof.
  intros HP Hne. destruct (table_access_row table gen ctype dcode) as [?|Hin]; [done|].
  rewrite forallb_forall in HP. apply HP. by apply list_elem_of_In.
Qed.

(** The lookup itself, without the barcode length check. *)
Lemma is_mountable_table drive_type barcode cart_type density strict :
  _is_mountable drive_type barcode cart_type density strict <> MEDIUM_CANNOT_ACCESS ->
  exists ctype dcode, forall st,
    _is_mountable drive_type barcode cart_type density st =
    table_access (if IS_LTO drive_type
                  then (if st then lto_drive_density_strict else lto_drive_density)
                  else (if st then jaguar_drive_density_strict else jaguar_drive_density))
                 (DRIVE_FAMILY_GEN drive_type) ctype dcode.
Proof.
  unfold _is_mountable. destruct (negb _); [done|]. intros _. eexists _, _. done.
Qed.

(** The strict tables never grant what the lenient ones refuse: if a drive
    accepts a cartridge under [strict_drive], it accepts it without, for every
    drive type, barcode, cartridge type and density code.  LTO-8 drives are left
    out because of the row of the strict table that pairs the M8 density with
    an LTO-8 cartridge. *)
Theorem strict_mountable_is_mountable drive_type barcode cart_type density :
  ibm_tape_is_mountable drive_type barcode cart_type density true <> MEDIUM_CANNOT_ACCESS ->
  ibm_tape_is_mountable drive_type barcode cart_type density false <> MEDIUM_CANNOT_ACCESS \/
  DRIVE_FAMILY_GEN drive_type = DRIVE_GEN_LTO8.
Proof.
  pose (P lenient r :=
    negb (table_access lenient (drive_generation r) (cartridge_type r) (table_density r)
            =? MEDIUM_CANNOT_ACCESS) || (drive_generation r =? DRIVE_GEN_LTO8)).
  assert (Hcore : _is_mountable drive_type barcode cart_type density true <> MEDIUM_CANNOT_ACCESS ->
    _is_mountable drive_type barcode cart_type density false <> MEDIUM_CANNOT_ACCESS \/
    DRIVE_FAMILY_GEN drive_type = DRIVE_GEN_LTO8).
  { intros Ha. destruct (is_mountable_table _ _ _ _ _ Ha) as (c & d & E). rewrite !E in *.
    destruct (IS_LTO drive_type).
    - pose proof (table_access_all (P lto_drive_density) lto_drive_density_strict _ _ _ eq_refl Ha) as H.
      apply orb_true_iff in H as [H|H]; bsplit; auto.
    - pose proof (table_access_all (P jaguar_drive_density) jaguar_drive_density_strict _ _ _ eq_refl Ha) as H.
      apply orb_true_iff in H as [H|H]; bsplit; auto. }
  unfold ibm_tape_is_mountable. destruct barcode as [b|]; [|done].
  destruct (zlength b =? 6); [by left|]. by destruct (zlength b =? 8).
Qed.

Lemma strict_mountable_is_mountable_witness :
  ibm_tape_is_mountable 0x2107 None TC_MP_LTO7D_CART TC_DC_LTO7 false <> MEDIUM_CANNOT_ACCESS \/
  DRIVE_FAMILY_GEN 0x2107 = DRIVE_GEN_LTO8.
Proof. apply strict_mountable_is_mountable. vm_compute. discriminate. Defined.

(** The cartridge types that have a name of their own. *)
Definition named_cartridges : list Z :=
  [ TC_MP_LTO5D_CART; TC_MP_LTO6D_CART; TC_MP_LTO7D_CART; TC_MP_LTO8D_CART; TC_MP_LTO9D_CART;
    TC_MP_JB; TC_MP_JX; TC_MP_JC; TC_MP_JK; TC_MP_JY; TC_MP_JD; TC_MP_JL; TC_MP_JZ; TC_MP_JE;
    TC_MP_JV; TC_MP_JM; TC_MP_JF ].

(** Naming a cartridge and reading the name back gives the cartridge type
    again for every named type except JX, whose name is read back as LTO-5. *)
Theorem cart_name_round_trip t :
  t ∈ named_cartridges ->
  ibm_tape_assume_cart_type (ibm_tape_assume_cart_name t) =
  if t =? TC_MP_JX then TC_MP_LTO5D_CART else t.
Proof.
  intros Ht. apply list_elem_of_In in Ht.
  repeat (destruct Ht as [<-|Ht]; [reflexivity|]). destruct Ht.
Qed.

Lemma cart_name_round_trip_witness :
  ibm_tape_assume_cart_type (ibm_tape_assume_cart_name TC_MP_JC) = TC_MP_JC.
Proof. apply (cart_name_round_trip TC_MP_JC). apply list_elem_of_In. vm_compute. tauto. Defined.

(** In strict mode an M8 barcode in an LTO-8 drive is refused, while the
    lenient table calls it a perfect match. *)
Example strict_m8_refused :
  let m8 := Some [65; 65; 65; 48; 48; 49; 77; 56] in
  ibm_tape_is_mountable 0x2108 m8 0 0 true = MEDIUM_CANNOT_ACCESS /\
  ibm_tape_is_mountable 0x2108 m8 0 0 false = MEDIUM_PERFECT_MATCH.
Proof. split; reflexivity. Qed.
