(* ===== verification/FileDebug.v ===== *)
(** * The file backend (src/tape_drivers/generic/file/filedebug_tc.c)

    The backend that keeps a tape as a directory of files, one per record:
    [<partition>_<block>_R] for a data block, [_F] for a filemark, [_E] for the
    end-of-data mark.  The host directory is the map [files], keyed by
    partition, block and suffix.  A host call that fails is an input of the
    model: [host_fail] says which call on which file fails, [host_written] how
    many bytes [write(2)] takes and [host_readdir] in which order [readdir(3)]
    lists the directory.  The emulated delays and the profiler are left out:
    they change neither the medium nor any result. *)

From S2P Require Import Prelude LtfsError TapeOps IbmTape.

(** ** The host *)

Definition SUFFIX_RECORD := 0.
Definition SUFFIX_FILEMARK := 1.
Definition SUFFIX_EOD := 2.
Definition SUFFIX_ATTR := 3.

(** Partition, block, suffix; the attribute file [attr_<p>_<id>] is
    [(p, id, SUFFIX_ATTR)]. *)
Abbreviation fkey := (Z * Z * Z)%type.
Abbreviation fstore := (gmap fkey (list Z)).

(** The file of the cartridge's configuration. *)
Definition CARTRIDGE_CONFIG : fkey := (0, 0, 4).

Inductive host_op := H_asprintf | H_open | H_close | H_read | H_write | H_unlink | H_opendir.

Class Host := {
  host_fail : host_op -> fkey -> bool;
  host_written : fkey -> Z -> Z;
  host_readdir : fstore -> list fkey;
}.

(** ** State *)

(** [struct filedebug_conf_tc], without the delay parameters. *)
Record filedebug_conf := mk_conf {
  dummy_io : bool;
  emulate_readonly : bool;
  capacity_mb : Z;
  cart_type : Z;
  density_code : Z;
  max_transfer_bytes : Z;
}.

(** [struct filedebug_data]: [current_position] is flattened, [files] is the
    directory [dirname] names. *)
Record filedebug_data := mk_fd {
  files : fstore;
  device_reserved : bool;
  medium_locked : bool;
  cur_partition : Z;
  cur_block : Z;
  cur_filemarks : Z;
  max_block_size : Z;
  ready : bool;
  is_readonly : bool;
  is_worm : bool;
  unsupported_tape : bool;
  unsupported_format : bool;
  last_block : arr2 Z;
  eod : arr2 Z;
  partitions : Z;
  write_pass_prev : Z;
  write_pass : Z;
  p0_warning : Z;
  p1_warning : Z;
  p0_p_warning : Z;
  p1_p_warning : Z;
  clear_by_pc : bool;
  force_writeperm : Z;
  force_readperm : Z;
  write_counter : Z;
  read_counter : Z;
  force_errortype : Z;
  drive_type : Z;
  conf : filedebug_conf;
}.

#[export] Instance eta_fd : Eta filedebug_data := fun s =>
  mk_fd (files s) (device_reserved s) (medium_locked s) (cur_partition s) (cur_block s)
    (cur_filemarks s) (max_block_size s) (ready s) (is_readonly s) (is_worm s)
    (unsupported_tape s) (unsupported_format s) (last_block s) (eod s) (partitions s)
    (write_pass_prev s) (write_pass s) (p0_warning s) (p1_warning s) (p0_p_warning s)
    (p1_p_warning s) (clear_by_pc s) (force_writeperm s) (force_readperm s)
    (write_counter s) (read_counter s) (force_errortype s) (drive_type s) (conf s).

#[export] Instance eta_conf : Eta filedebug_conf := fun c =>
  mk_conf (dummy_io c) (emulate_readonly c) (capacity_mb c) (cart_type c) (density_code c)
    (max_transfer_bytes c).

Definition MAX_PARTITIONS := 2.
Definition MISSING_EOD : Z := 2 ^ 64 - 1.
Definition THRESHOLD_FORCE_WRITE_NO_WRITE := 20.
Definition DEFAULT_WRITEPERM := 0.
Definition DEFAULT_READPERM := 0.
Definition DEFAULT_ERRORTYPE := 0.
Definition FILE_DEBUG_MAX_BLOCK_SIZE : Z := 4 * 1024 * 1024.
Definition DEVICE_GOOD := 0.

(** [eod[current_position.partition]] and [last_block[current_position.partition]]. *)
Definition cur_eod (s : filedebug_data) : Z := (eod s).[cur_partition s].
Definition cur_last (s : filedebug_data) : Z := (last_block s).[cur_partition s].

(** [++state->current_position.block]. *)
Definition next_block (s : filedebug_data) : filedebug_data :=
  s <| cur_block := cur_block s ⊞ 1 |>.

Section filedebug.
Context `{Host}.

(** ** Files *)

Definition _filedebug_check_file (s : filedebug_data) (k : fkey) : Z :=
  if host_fail H_open k then - EDEV_RW_PERM
  else match files s !! k with
       | None => 0
       | Some _ => if host_fail H_close k then - EDEV_RW_PERM else 1
       end.

(** The key of a file at the current position; [host_fail H_asprintf] is the
    failure of [_filedebug_make_filename]. *)
Definition cur_key (s : filedebug_data) (suffix : Z) : fkey :=
  (cur_partition s, cur_block s, suffix).

(** The loop over the three suffixes. *)
Fixpoint remove_suffixes (s : filedebug_data) (p b : Z) (suffixes : list Z) : Z * filedebug_data :=
  match suffixes with
  | [] => (DEVICE_GOOD, s)
  | x :: rest =>
      if host_fail H_unlink (p, b, x) then (- EDEV_RW_PERM, s)
      else remove_suffixes (s <| files := delete (p, b, x) (files s) |>) p b rest
  end.

Definition _filedebug_remove_record (s : filedebug_data) (p b : Z) : Z * filedebug_data :=
  if host_fail H_asprintf (p, b, SUFFIX_RECORD) then (- EDEV_NO_MEMORY, s)
  else remove_suffixes s p b [SUFFIX_RECORD; SUFFIX_FILEMARK; SUFFIX_EOD].

Definition _filedebug_remove_current_record (s : filedebug_data) : Z * filedebug_data :=
  _filedebug_remove_record s (cur_partition s) (cur_block s).

(** [open(O_CREAT | O_TRUNC)] of a file, [close] included. *)
Definition create_file (s : filedebug_data) (k : fkey) : Z * filedebug_data :=
  if host_fail H_open k then (- EDEV_RW_PERM, s)
  else
    let s := s <| files := <[k := []]> (files s) |> in
    if host_fail H_close k then (- EDEV_RW_PERM, s) else (0, s).

(** Remove [n] records from block [i] on. *)
Fixpoint remove_from (s : filedebug_data) (p i : Z) (n : nat) : Z * filedebug_data :=
  match n with
  | O => (DEVICE_GOOD, s)
  | S n' =>
      let '(ret, s) := _filedebug_remove_record s p i in
      if ret <? 0 then (ret, s) else remove_from s p (i + 1) n'
  end.

Definition _filedebug_write_eod (s : filedebug_data) : Z * filedebug_data :=
  let remove_extra_rec := negb (cur_eod s =? MISSING_EOD) in
  let '(ret, s) := _filedebug_remove_current_record s in
  if ret <? 0 then (ret, s)
  else if host_fail H_asprintf (cur_key s SUFFIX_EOD) then (- EDEV_NO_MEMORY, s)
  else
    let '(ret, s) := create_file s (cur_key s SUFFIX_EOD) in
    if ret <? 0 then (- EDEV_RW_PERM, s)
    else
      let '(ret, s) :=
        if remove_extra_rec
        then remove_from s (cur_partition s) (cur_block s ⊞ 1)
               (Z.to_nat (cur_eod s - cur_block s))
        else (DEVICE_GOOD, s) in
      if ret <? 0 then (ret, s)
      else (DEVICE_GOOD,
            s <| last_block := (last_block s).[cur_partition s <- cur_block s ⊟ 1] |>
              <| eod := (eod s).[cur_partition s <- cur_block s] |>).

(** ** Capacity and warnings *)

Definition calc_p0_cap (s : filedebug_data) : Z := u64 (capacity_mb (conf s) * 5) / 100.
Definition calc_p0_remaining (s : filedebug_data) : Z := calc_p0_cap s ⊟ (eod s).[0] / 2.
Definition calc_p1_cap (s : filedebug_data) : Z := capacity_mb (conf s) ⊟ calc_p0_cap s.
Definition calc_p1_remaining (s : filedebug_data) : Z := calc_p1_cap s ⊟ (eod s).[1] / 2.

(** The two tests that end [write], [writefm], [locate] and [space]: is the
    position at or past the threshold of its partition? *)
Definition past_warning (s : filedebug_data) (w0 w1 : Z) : bool :=
  (negb (w0 =? 0) && (cur_partition s =? 0) && (w0 <=? cur_block s)) ||
  (negb (w1 =? 0) && (cur_partition s =? 1) && (w1 <=? cur_block s)).

(** [write] reports the programmable warning only on entering the zone. *)
Definition at_warning (s : filedebug_data) (w0 w1 : Z) : bool :=
  (negb (w0 =? 0) && (cur_partition s =? 0) && (cur_block s =? w0)) ||
  (negb (w1 =? 0) && (cur_partition s =? 1) && (cur_block s =? w1)).

Definition raise_ew (b : bool) (pos : tc_position) : tc_position :=
  if b then pos <| early_warning := true |> else pos.
Definition raise_pew (b : bool) (pos : tc_position) : tc_position :=
  if b then pos <| programmable_early_warning := true |> else pos.

Definition report_warnings (s : filedebug_data) (pos : tc_position) : tc_position :=
  raise_pew (past_warning s (p0_p_warning s) (p1_p_warning s))
    (raise_ew (past_warning s (p0_warning s) (p1_warning s)) pos).

(** The thresholds set at load and format. *)
Definition set_thresholds (s : filedebug_data) : filedebug_data :=
  let p0w := u32 (calc_p0_cap s * 2) in
  if partitions s =? 2 then
    let p1w := u32 (calc_p1_cap s * 2) in
    s <| p0_warning := p0w |> <| p1_warning := p1w |>
      <| p0_p_warning := p0w / 2 |> <| p1_p_warning := u32 (p1w - p0w / 2) |>
  else
    s <| p0_warning := p0w |> <| p1_warning := 0 |>
      <| p0_p_warning := u32 (p0w * 2) |> <| p1_p_warning := 0 |>.

Definition _exceeds_max_transfer (s : filedebug_data) (count : Z) : bool :=
  negb (max_transfer_bytes (conf s) =? 0) && (max_transfer_bytes (conf s) <? count).

(** Is this operation on the data partition skipped in dummy I/O mode? *)
Definition dummy_zone (s : filedebug_data) : bool :=
  dummy_io (conf s) && negb (cur_partition s =? 0) && (6 <? cur_block s).

(** ** Cartridge memory attributes *)

(** [ltfs_betou16] and [ltfs_betou32] at an offset of a buffer. *)
Definition betou16_at (buf : list Z) (i : Z) : Z :=
  let b k := nth (Z.to_nat (i + k)) buf 0 in b 0 * 2 ^ 8 + b 1.
Definition betou32_at (buf : list Z) (i : Z) : Z :=
  betou16_at buf i * 2 ^ 16 + betou16_at buf (i + 2).

Definition filedebug_read_attribute (s : filedebug_data) (part id size : Z) : Z * list Z :=
  let k := (part, id, SUFFIX_ATTR) in
  if host_fail H_asprintf k then (- EDEV_NO_MEMORY, [])
  else if host_fail H_open k then (- EDEV_CM_PERM, [])
  else match files s !! k with
       | None => (- EDEV_INVALID_FIELD_CDB, [])
       | Some d => if host_fail H_read k then (- EDEV_CM_PERM, [])
                   else (DEVICE_GOOD, take (Z.to_nat size) d)
       end.

(** [fuel] counts attributes; each takes at least five bytes of the buffer. *)
Fixpoint write_attributes (s : filedebug_data) (part : Z) (buf : list Z) (i : Z) (fuel : nat)
    : Z * filedebug_data :=
  match fuel with
  | O => (DEVICE_GOOD, s)
  | S fuel' =>
      if i <? zlength buf then
        let k := (part, betou16_at buf i, SUFFIX_ATTR) in
        if host_fail H_asprintf k then (- EDEV_NO_MEMORY, s)
        else if host_fail H_open k then (- EDEV_CM_PERM, s)
        else
          let s := s <| files := <[k := []]> (files s) |> in
          if host_fail H_write k then (- EDEV_CM_PERM, s)
          else
            let s := s <| files := <[k := take (Z.to_nat (host_written k (zlength buf))) buf]>
                                     (files s) |> in
            write_attributes s part buf (i + (betou16_at buf (i + 3) + 5)) fuel'
      else (DEVICE_GOOD, s)
  end.

Definition filedebug_write_attribute (s : filedebug_data) (part : Z) (buf : list Z)
    : Z * filedebug_data :=
  write_attributes s part buf 0 (S (length buf)).

Definition TC_MAM_PAGE_VCR := 0x0009.
Definition TC_MAM_PAGE_VCR_SIZE := 0x04.
Definition TC_MAM_PAGE_HEADER_SIZE := 0x05.

Definition _set_wp (s : filedebug_data) (wp : Z) : Z * filedebug_data :=
  let w := u32 wp in
  filedebug_write_attribute s 0
    [0; 9; 0; 0; 4; w / 2 ^ 24; w / 2 ^ 16 mod 2 ^ 8; w / 2 ^ 8 mod 2 ^ 8; w mod 2 ^ 8].

(** Result, write pass, state. *)
Definition _get_wp (s : filedebug_data) : Z * Z * filedebug_data :=
  let '(ret, d) := filedebug_read_attribute s 0 TC_MAM_PAGE_VCR
                     (TC_MAM_PAGE_VCR_SIZE + TC_MAM_PAGE_HEADER_SIZE) in
  if ret =? 0 then (ret, betou32_at d 5, s)
  else let '(ret, s) := _set_wp s 1 in (ret, 0, s).

(** Increment the write pass for the consistency check. *)
Definition bump_write_pass (s : filedebug_data) : Z * filedebug_data :=
  if write_pass_prev s =? write_pass s then
    let s := s <| write_pass := write_pass s ⊞ 1 |> in _set_wp s (write_pass s)
  else (0, s).

(** ** Reading

    The last component of a result is what the call stores at the start of the
    caller's buffer; in dummy mode that is nothing. *)

(** The position the operations report back to the caller. *)
Definition pos_block (s : filedebug_data) (pos : tc_position) : tc_position :=
  pos <| block := cur_block s |>.
Definition pos_block_fm (s : filedebug_data) (pos : tc_position) : tc_position :=
  pos <| block := cur_block s |> <| filemarks := cur_filemarks s |>.
Definition pos_all (s : filedebug_data) (pos : tc_position) : tc_position :=
  pos <| partition := cur_partition s |> <| block := cur_block s |>
      <| filemarks := cur_filemarks s |>.

(** The record, filemark or end of data at the current block, outside dummy mode. *)
Definition read_current (s : filedebug_data) (count : Z) (pos : tc_position)
    : Z * filedebug_data * tc_position * list Z :=
  let fail e := (e, s, pos, []) in
  if host_fail H_asprintf (cur_key s SUFFIX_EOD) then fail (- EDEV_NO_MEMORY)
  else
    let ret := _filedebug_check_file s (cur_key s SUFFIX_EOD) in
    if ret <? 0 then fail ret
    else if 0 <? ret then fail (- EDEV_EOD_NOT_FOUND)
    else
      let ret := _filedebug_check_file s (cur_key s SUFFIX_FILEMARK) in
      if ret <? 0 then fail ret
      else if 0 <? ret then
        let s := (next_block s) <| cur_filemarks := cur_filemarks s ⊞ 1 |> in
        (0, s, pos_block_fm s pos, [])
      else
        let k := cur_key s SUFFIX_RECORD in
        let ret := _filedebug_check_file s k in
        if ret <? 0 then fail ret
        else if 0 <? ret then
          if host_fail H_read k then fail (- EDEV_RW_PERM)
          else
            let d := take (Z.to_nat count) (default [] (files s !! k)) in
            let s := next_block s in
            (zlength d, s, pos_block s pos, d)
        else fail (- EDEV_RW_PERM).

Definition filedebug_read (s : filedebug_data) (count : Z) (pos : tc_position)
    (unusual_size : bool) : Z * filedebug_data * tc_position * list Z :=
  let fail e s := (e, s, pos, []) in
  if negb (ready s) then fail (- EDEV_NOT_READY) s
  else if _exceeds_max_transfer s count then fail (- EDEV_INVALID_ARG) s
  else if unsupported_tape s || unsupported_format s then fail (- EDEV_MEDIUM_FORMAT_ERROR) s
  else
    let s := if force_readperm s =? 0 then s
             else s <| read_counter := read_counter s ⊞ 1 |> in
    if negb (force_readperm s =? 0) && (force_readperm s <? read_counter s) then
      fail (if force_errortype s =? 0 then - EDEV_READ_PERM else - EDEV_NO_SENSE) s
    else if cur_eod s =? cur_block s then fail (- EDEV_EOD_DETECTED) s
    else if dummy_zone s then
      let s := next_block s in (count, s, pos_block s pos, [])
    else read_current s count pos.

(** ** Writing *)

(** Write the record file at the current position and step over it. *)
Definition write_record (s : filedebug_data) (buf : list Z) (pos : tc_position)
    : Z * filedebug_data * tc_position :=
  let '(ret, s) := _filedebug_remove_current_record s in
  if ret <? 0 then (ret, s, pos)
  else
    let '(ret, s) := bump_write_pass s in
    if ret <? 0 then (ret, s, pos)
    else
      let k := cur_key s SUFFIX_RECORD in
      if host_fail H_asprintf k then (- EDEV_NO_MEMORY, s, pos)
      else if host_fail H_open k then (- EDEV_RW_PERM, s, pos)
      else
        let s := s <| files := <[k := []]> (files s) |> in
        if host_fail H_write k then (- EDEV_RW_PERM, s, pos)
        else
          let written := host_written k (zlength buf) in
          let s := s <| files := <[k := take (Z.to_nat written) buf]> (files s) |> in
          if host_fail H_close k then (- EDEV_RW_PERM, s, pos)
          else
            let s := next_block s in
            let pos := pos_block s pos in
            let '(ret, s) := _filedebug_write_eod s in
            if ret <? 0 then (ret, s, pos) else (written, s, pos).

Definition write_protect_error (s : filedebug_data) : Z :=
  if emulate_readonly (conf s) then - EDEV_WRITE_PROTECTED else - EDEV_DATA_PROTECT.

Definition filedebug_write (s : filedebug_data) (buf : list Z) (pos : tc_position)
    : Z * filedebug_data * tc_position :=
  let count := zlength buf in
  let fail e s := (e, s, pos) in
  if negb (ready s) then fail (- EDEV_NOT_READY) s
  else if _exceeds_max_transfer s count then fail (- EDEV_INVALID_ARG) s
  else if is_worm s && negb ((eod s).[partition pos] =? block pos) then
    fail (- EDEV_WRITE_PROTECTED_WORM) s
  else if is_readonly s then fail (write_protect_error s) s
  else if unsupported_tape s || unsupported_format s then fail (- EDEV_MEDIUM_FORMAT_ERROR) s
  else if count =? 0 then fail 0 s
  else
    let s := if force_writeperm s =? 0 then s
             else s <| write_counter := write_counter s ⊞ 1 |> in
    if negb (force_writeperm s =? 0) && (force_writeperm s <? write_counter s) then
      fail (if force_errortype s =? 0 then - EDEV_WRITE_PERM else - EDEV_NO_SENSE) s
    else if negb (force_writeperm s =? 0) &&
            (u64 (force_writeperm s - THRESHOLD_FORCE_WRITE_NO_WRITE) <? write_counter s) then
      let s := next_block s in (DEVICE_GOOD, s, pos_block s pos)
    else if max_block_size s <? count then fail (- EDEV_INVALID_ARG) s
    else
      let '(ret, s, pos) :=
        if dummy_zone s then
          let s := next_block s in
          (count, s <| eod := (eod s).[cur_partition s <- cur_block s] |>, pos_block s pos)
        else write_record s buf pos in
      if ret <? 0 then (ret, s, pos)
      else (ret, s,
            raise_pew (at_warning s (p0_p_warning s) (p1_p_warning s))
              (raise_ew (past_warning s (p0_warning s) (p1_warning s)) pos)).

(** Write filemarks one by one. *)
Fixpoint write_filemarks (s : filedebug_data) (n : nat) (pos : tc_position)
    : Z * filedebug_data * tc_position :=
  match n with
  | O => (DEVICE_GOOD, s, pos)
  | S n' =>
      let '(ret, s) := _filedebug_remove_current_record s in
      if ret <? 0 then (ret, s, pos)
      else
        let k := cur_key s SUFFIX_FILEMARK in
        if host_fail H_asprintf k then (- EDEV_NO_MEMORY, s, pos)
        else
          let '(ret, s) := create_file s k in
          if ret <? 0 then (ret, s, pos)
          else
            let s := (next_block s) <| cur_filemarks := cur_filemarks s ⊞ 1 |> in
            let pos := pos_block_fm s pos in
            let '(ret, s) := _filedebug_write_eod s in
            if ret <? 0 then (ret, s, pos) else write_filemarks s n' pos
  end.

Definition filedebug_writefm (s : filedebug_data) (count : Z) (pos : tc_position) (immed : bool)
    : Z * filedebug_data * tc_position :=
  if negb (ready s) then (- EDEV_NOT_READY, s, pos)
  else if count =? 0 then (DEVICE_GOOD, s, pos)
  else
    let '(ret, s, pos) :=
      if dummy_zone s then
        let s := s <| cur_block := cur_block s ⊞ count |>
                   <| cur_filemarks := cur_filemarks s ⊞ count |> in
        (DEVICE_GOOD, s <| eod := (eod s).[cur_partition s <- cur_block s] |>, pos_block_fm s pos)
      else
        let '(ret, s) := bump_write_pass s in
        if ret <? 0 then (ret, s, pos) else write_filemarks s (Z.to_nat count) pos in
    if ret <? 0 then (ret, s, pos) else (ret, s, report_warnings s pos).

(** ** Moving *)

Definition reset_counters (s : filedebug_data) : filedebug_data :=
  s <| clear_by_pc := false |> <| force_writeperm := DEFAULT_WRITEPERM |>
    <| force_readperm := DEFAULT_READPERM |> <| write_counter := 0 |> <| read_counter := 0 |>.

Definition filedebug_rewind (s : filedebug_data) (pos : tc_position)
    : Z * filedebug_data * tc_position :=
  if negb (ready s) then (- EDEV_NOT_READY, s, pos)
  else if unsupported_tape s then (- EDEV_MEDIUM_FORMAT_ERROR, s, pos)
  else
    let s := reset_counters (s <| cur_block := 0 |> <| cur_filemarks := 0 |>) in
    (DEVICE_GOOD, s,
     (pos_block s pos) <| filemarks := 0 |> <| early_warning := false |>
       <| programmable_early_warning := false |>).

(** Count the filemarks of the partition from block [i] on, [n] blocks far. *)
Fixpoint count_filemarks (s : filedebug_data) (i : Z) (n : nat) (count_fm : Z) : option Z :=
  match n with
  | O => Some count_fm
  | S n' =>
      let k := (cur_partition s, i, SUFFIX_FILEMARK) in
      if host_fail H_asprintf k then None
      else count_filemarks s (i + 1) n'
             (if _filedebug_check_file s k =? 1 then count_fm ⊞ 1 else count_fm)
  end.

(** How [locate] and [space] end: count the filemarks, report the warnings.
    [ret] is the value returned when counting succeeds. *)
Definition finish_move (ret : Z) (s : filedebug_data) (pos : tc_position)
    : Z * filedebug_data * tc_position :=
  match count_filemarks s 0 (Z.to_nat (cur_block s)) 0 with
  | None => (- EDEV_NO_MEMORY, s, pos)
  | Some n =>
      let s := s <| cur_filemarks := n |> in
      (ret, s, report_warnings s (pos <| filemarks := n |>))
  end.

(** Where a locate to block [b] of partition [p] ends. *)
Definition locate_block (s : filedebug_data) (p b : Z) : Z :=
  if ((eod s).[p] =? MISSING_EOD) && ((last_block s).[p] <? b) then (last_block s).[p] ⊞ 1
  else if (eod s).[p] <? b then (eod s).[p]
  else b.

Definition filedebug_locate (s : filedebug_data) (dest pos : tc_position)
    : Z * filedebug_data * tc_position :=
  if negb (ready s) then (- EDEV_NOT_READY, s, pos)
  else if unsupported_tape s || unsupported_format s then (- EDEV_MEDIUM_FORMAT_ERROR, s, pos)
  else if MAX_PARTITIONS <=? partition dest then (- EDEV_INVALID_ARG, s, pos)
  else
    let s := if negb (cur_partition s =? partition dest) && clear_by_pc s
             then s <| clear_by_pc := false |> <| force_writeperm := DEFAULT_WRITEPERM |>
                    <| force_readperm := DEFAULT_READPERM |>
                    <| force_errortype := DEFAULT_ERRORTYPE |>
             else s in
    let s := s <| cur_partition := partition dest |>
               <| cur_block := locate_block s (partition dest) (block dest) |> in
    finish_move 0 s (pos <| partition := cur_partition s |> <| block := cur_block s |>).

(** The forward and backward scans of [_filedebug_space_fm].  A forward scan
    stops at the end of data or behind the last block, so the distance to the
    nearer of the two (in wrapping arithmetic) bounds the number of steps. *)
Definition scan_distance (s : filedebug_data) : nat :=
  Z.to_nat (Z.min (u64 (cur_eod s - cur_block s)) (u64 (cur_last s + 1 - cur_block s))).

Fixpoint space_fm_forward (s : filedebug_data) (count fm_count : Z) (fuel : nat)
    : Z * filedebug_data :=
  if cur_block s =? cur_eod s then (- EDEV_EOD_DETECTED, s)
  else if cur_block s =? cur_last s ⊞ 1 then (- EDEV_RW_PERM, s)
  else match fuel with
  | O => (- EDEV_RW_PERM, s)
  | S fuel' =>
      let k := cur_key s SUFFIX_FILEMARK in
      if host_fail H_asprintf k then (- EDEV_NO_MEMORY, s)
      else
        let ret := _filedebug_check_file s k in
        if ret <? 0 then (ret, s)
        else
          let fm_count := if 0 <? ret then fm_count + 1 else fm_count in
          if (0 <? ret) && (fm_count =? count) then (DEVICE_GOOD, next_block s)
          else space_fm_forward (next_block s) count fm_count fuel'
  end.

Fixpoint space_fm_backward (s : filedebug_data) (count fm_count : Z) (fuel : nat)
    : Z * filedebug_data :=
  let k := cur_key s SUFFIX_FILEMARK in
  if host_fail H_asprintf k then (- EDEV_NO_MEMORY, s)
  else
    let ret := _filedebug_check_file s k in
    if ret <? 0 then (ret, s)
    else
      let fm_count := if 0 <? ret then fm_count + 1 else fm_count in
      if (0 <? ret) && (fm_count =? count) then (DEVICE_GOOD, s)
      else if cur_block s =? 0 then (- EDEV_BOP_DETECTED, s)
      else match fuel with
           | O => (- EDEV_BOP_DETECTED, s)
           | S fuel' => space_fm_backward (s <| cur_block := cur_block s - 1 |>) count fm_count fuel'
           end.

Definition _filedebug_space_fm (s : filedebug_data) (count : Z) (back : bool)
    : Z * filedebug_data :=
  if count =? 0 then (DEVICE_GOOD, s)
  else if back then
    let s := if 0 <? cur_block s then s <| cur_block := cur_block s - 1 |> else s in
    space_fm_backward s count 0 (Z.to_nat (cur_block s))
  else space_fm_forward s count 0 (scan_distance s).

(** [_filedebug_space_rec]. *)
Fixpoint space_rec_forward (s : filedebug_data) (count rec_count : Z) (fuel : nat)
    : Z * filedebug_data :=
  if cur_block s =? cur_eod s then (- EDEV_EOD_DETECTED, s)
  else if cur_block s =? cur_last s ⊞ 1 then (- EDEV_RW_PERM, s)
  else match fuel with
  | O => (- EDEV_RW_PERM, s)
  | S fuel' =>
      let k := cur_key s SUFFIX_FILEMARK in
      if host_fail H_asprintf k then (- EDEV_NO_MEMORY, s)
      else
        let ret := _filedebug_check_file s k in
        if ret <? 0 then (ret, s)
        else if 0 <? ret then (- EDEV_RW_PERM, next_block s)
        else if rec_count + 1 =? count then (DEVICE_GOOD, next_block s)
        else space_rec_forward (next_block s) count (rec_count + 1) fuel'
  end.

Fixpoint space_rec_backward (s : filedebug_data) (count rec_count : Z) (fuel : nat)
    : Z * filedebug_data :=
  let k := cur_key s SUFFIX_FILEMARK in
  if host_fail H_asprintf k then (- EDEV_NO_MEMORY, s)
  else
    let ret := _filedebug_check_file s k in
    if ret <? 0 then (ret, s)
    else if (0 <? ret) && (0 <? rec_count) then (- EDEV_RW_PERM, s)
    else if cur_block s =? 0 then (- EDEV_BOP_DETECTED, s)
    else
      let s := s <| cur_block := cur_block s - 1 |> in
      if rec_count + 1 =? count then (DEVICE_GOOD, s)
      else match fuel with
           | O => (- EDEV_BOP_DETECTED, s)
           | S fuel' => space_rec_backward s count (rec_count + 1) fuel'
           end.

Definition _filedebug_space_rec (s : filedebug_data) (count : Z) (back : bool)
    : Z * filedebug_data :=
  if count =? 0 then (DEVICE_GOOD, s)
  else if back then space_rec_backward s count 0 (Z.to_nat (cur_block s))
  else space_rec_forward s count 0 (scan_distance s).

Definition filedebug_space (s : filedebug_data) (count : Z) (type : TC_SPACE_TYPE)
    (pos : tc_position) : Z * filedebug_data * tc_position :=
  if negb (ready s) then (- EDEV_NOT_READY, s, pos)
  else if unsupported_tape s || unsupported_format s then (- EDEV_MEDIUM_FORMAT_ERROR, s, pos)
  else
    let finish '(ret, s) := finish_move ret s (pos_block s pos) in
    match type with
    | TC_SPACE_EOD =>
        let s := s <| cur_block := cur_eod s |> in
        if cur_block s =? MISSING_EOD then (- EDEV_RW_PERM, s, pos) else finish (0, s)
    | _ =>
        if cur_block s =? MISSING_EOD then (- EDEV_RW_PERM, s, pos)
        else finish (match type with
                     | TC_SPACE_FM_F => _filedebug_space_fm s count false
                     | TC_SPACE_FM_B => _filedebug_space_fm s count true
                     | TC_SPACE_F => _filedebug_space_rec s count false
                     | _ => _filedebug_space_rec s count true
                     end)
    end.

Definition filedebug_erase (s : filedebug_data) (pos : tc_position) (long_erase : bool)
    : Z * filedebug_data * tc_position :=
  if negb (ready s) then (- EDEV_NOT_READY, s, pos)
  else let '(ret, s) := _filedebug_write_eod s in (ret, s, pos_block_fm s pos).

Definition filedebug_readpos (s : filedebug_data) (pos : tc_position)
    : Z * filedebug_data * tc_position :=
  if negb (ready s) then (- EDEV_NOT_READY, s, pos) else (DEVICE_GOOD, s, pos_all s pos).

Definition filedebug_get_next_block_to_xfer (s : filedebug_data) (pos : tc_position)
    : Z * filedebug_data * tc_position :=
  (0, s, pos <| partition := cur_partition s |>
             <| block := cur_block s ⊟ THRESHOLD_FORCE_WRITE_NO_WRITE |>).

(** ** Loading, formatting and the rest of the interface *)

(** One [case] list of [_sanitize_tape] for an LTO generation: the WORM flag is kept. *)
Definition sanitize_lto (s : filedebug_data) (carts : list Z) : Z * filedebug_data :=
  if bool_decide (cart_type (conf s) ∈ carts) then (0, s)
  else (- EDEV_MEDIUM_FORMAT_ERROR, s <| unsupported_tape := true |>).

(** The same for an enterprise generation: rewritable types, then WORM types. *)
Definition sanitize_jag (s : filedebug_data) (carts worm : list Z) : Z * filedebug_data :=
  if bool_decide (cart_type (conf s) ∈ carts) then (0, s <| is_worm := false |>)
  else if bool_decide (cart_type (conf s) ∈ worm) then (0, s <| is_worm := true |>)
  else (- EDEV_MEDIUM_FORMAT_ERROR, s <| is_worm := false |> <| unsupported_tape := true |>).

Definition _sanitize_tape (s : filedebug_data) : Z * filedebug_data :=
  let gen := DRIVE_FAMILY_GEN (drive_type s) in
  let s := s <| unsupported_tape := false |> in
  if drive_type s =? 0 then (0, s <| unsupported_tape := true |>)
  else if gen =? DRIVE_GEN_LTO5 then sanitize_lto s [TC_MP_LTO5D_CART]
  else if gen =? DRIVE_GEN_LTO6 then sanitize_lto s [TC_MP_LTO5D_CART; TC_MP_LTO6D_CART]
  else if gen =? DRIVE_GEN_LTO7 then
    sanitize_lto s [TC_MP_LTO5D_CART; TC_MP_LTO6D_CART; TC_MP_LTO7D_CART]
  else if gen =? DRIVE_GEN_LTO8 then sanitize_lto s [TC_MP_LTO7D_CART; TC_MP_LTO8D_CART]
  else if gen =? DRIVE_GEN_LTO9 then sanitize_lto s [TC_MP_LTO8D_CART; TC_MP_LTO9D_CART]
  else if gen =? DRIVE_GEN_JAG4 then
    sanitize_jag s [TC_MP_JB; TC_MP_JC; TC_MP_JK] [TC_MP_JX; TC_MP_JY]
  else if gen =? DRIVE_GEN_JAG5 then
    sanitize_jag s [TC_MP_JC; TC_MP_JK; TC_MP_JD; TC_MP_JL] [TC_MP_JY; TC_MP_JZ]
  else if gen =? DRIVE_GEN_JAG5A then
    sanitize_jag s [TC_MP_JC; TC_MP_JK; TC_MP_JD; TC_MP_JL] [TC_MP_JY; TC_MP_JZ]
  else if gen =? DRIVE_GEN_JAG6 then
    sanitize_jag s [TC_MP_JC; TC_MP_JK; TC_MP_JD; TC_MP_JL; TC_MP_JE; TC_MP_JM]
                   [TC_MP_JY; TC_MP_JZ; TC_MP_JV]
  else if gen =? DRIVE_GEN_JAG7 then sanitize_jag s [TC_MP_JF] []
  else (- EDEV_MEDIUM_FORMAT_ERROR, s <| is_worm := false |> <| unsupported_tape := true |>).

(** The [switch] that follows a mountability check, in [load] and [modeselect]. *)
Definition configure_readonly (s : filedebug_data) : Z * filedebug_data :=
  let ret := ibm_tape_is_mountable (drive_type s) None (cart_type (conf s))
               (density_code (conf s)) false in
  if (ret =? MEDIUM_PERFECT_MATCH) || (ret =? MEDIUM_WRITABLE) then
    (0, s <| is_readonly := emulate_readonly (conf s) |>)
  else if ret =? MEDIUM_READONLY then (0, s <| is_readonly := true |>)
  else if ret =? MEDIUM_CANNOT_ACCESS then
    let s := s <| unsupported_format := true |> in
    if IS_LTO (drive_type s) then (- EDEV_MEDIUM_FORMAT_ERROR, s) else (0, s)
  else (- LTFS_UNEXPECTED_VALUE, s).

(** The loop of [filedebug_search_eod]: on success the state is at the first
    block that has an EOD mark or neither a record nor a filemark, and the
    boolean tells whether it has the mark.  Each round but the last passes an
    existing file, which bounds the rounds. *)
Fixpoint search_eod_loop (s : filedebug_data) (fuel : nat) : Z * bool * filedebug_data :=
  if host_fail H_asprintf (cur_key s SUFFIX_RECORD) then (- EDEV_NO_MEMORY, false, s)
  else
    let f0 := _filedebug_check_file s (cur_key s SUFFIX_RECORD) in
    let f1 := _filedebug_check_file s (cur_key s SUFFIX_FILEMARK) in
    let f2 := _filedebug_check_file s (cur_key s SUFFIX_EOD) in
    if f0 <? 0 then (f0, false, s)
    else if f1 <? 0 then (f1, false, s)
    else if f2 <? 0 then (f2, false, s)
    else match fuel with
         | O => (0, negb (f2 =? 0), s)
         | S fuel' =>
             if (negb (f0 =? 0) || negb (f1 =? 0)) && (f2 =? 0)
             then search_eod_loop (next_block s) fuel'
             else (0, negb (f2 =? 0), s)
         end.

(** In dummy mode a lost EOD is looked for among the directory entries. *)
Definition search_eod_dummy (s : filedebug_data) (part : Z) : Z * filedebug_data :=
  match list_find (fun k => k.2 = SUFFIX_EOD /\ k.1.1 = part) (host_readdir (files s)) with
  | None => (DEVICE_GOOD, s)
  | Some (_, (_, b, _)) =>
      let s := s <| cur_block := b ⊟ 1 |> <| last_block := (last_block s).[part <- b ⊟ 1] |>
                 <| eod := (eod s).[part <- 0] |> in
      let '(ret, s) := _filedebug_write_eod s in
      if ret <? 0 then (ret, s) else (DEVICE_GOOD, s)
  end.

Definition filedebug_search_eod (s : filedebug_data) (part : Z) : Z * filedebug_data :=
  let s := s <| cur_partition := part |> <| cur_block := 0 |> in
  let '(ret, f2, s) := search_eod_loop s (size (files s)) in
  if ret <? 0 then (ret, s)
  else if negb f2 && negb (cur_block s =? 0) then
    let s := s <| last_block := (last_block s).[part <- cur_block s] |>
               <| eod := (eod s).[part <- MISSING_EOD] |> in
    if dummy_io (conf s) then
      if host_fail H_opendir (part, 0, SUFFIX_EOD) then (0, s) else search_eod_dummy s part
    else (DEVICE_GOOD, s)
  else
    let '(ret, s) := _filedebug_write_eod s in
    if ret <? 0 then (ret, s) else (DEVICE_GOOD, s).

(** [filedebug_load].  [cartridge] is what following the drive's link file and
    reading the cartridge configuration gave: an error, or the directory and
    the configuration. *)
Definition filedebug_load (s : filedebug_data) (cartridge : Z + fstore * filedebug_conf)
    (pos : tc_position) : Z * filedebug_data * tc_position :=
  let at_bop s := s <| cur_partition := 0 |> <| cur_block := 0 |> <| cur_filemarks := 0 |> in
  if ready s then (DEVICE_GOOD, reset_counters (at_bop s), pos)
  else match cartridge with
  | inl e => (e, s, pos)
  | inr (dir, c) =>
      let s := s <| files := dir |> <| conf := c |> <| ready := true |>
                 <| unsupported_tape := false |> <| unsupported_format := false |> in
      let '(ret, s) := _sanitize_tape s in
      if ret <? 0 then (ret, s, pos)
      else
        let '(ret, s) := configure_readonly s in
        if ret <? 0 then (ret, s, pos)
        else
          let '(ret, s) := filedebug_search_eod s 0 in
          if ret <? 0 then (- EDEV_INTERNAL_ERROR, s, pos)
          else
            let '(ret, s) := filedebug_search_eod s 1 in
            if ret <? 0 then (- EDEV_INTERNAL_ERROR, s, pos)
            else
              let s := if dummy_io (conf s)
                       then snd (_filedebug_remove_record s 1 (eod s).[1]) else s in
              let s := (at_bop s) <| partitions := if (eod s).[1] =? 0 then 1
                                                   else MAX_PARTITIONS |> in
              let pos := pos_all s pos in
              let '(ret, wp, s) := _get_wp s in
              if negb (ret =? 0) then (- EDEV_INTERNAL_ERROR, s, pos)
              else (DEVICE_GOOD,
                    set_thresholds (s <| write_pass_prev := wp |> <| write_pass := wp |>), pos)
  end.

(** The last step saves the configuration of the cartridge, which is [conf] here and
    in [filedebug_load]; the result of saving it is ignored. *)
Definition filedebug_unload (s : filedebug_data) (pos : tc_position)
    : Z * filedebug_data * tc_position :=
  let s := if dummy_io (conf s)
           then snd (_filedebug_write_eod
                       (s <| cur_partition := 1 |> <| cur_block := (eod s).[1] |>))
           else s in
  let s := reset_counters (s <| ready := false |> <| cur_partition := 0 |>
                             <| cur_block := 0 |> <| cur_filemarks := 0 |>) in
  (if host_fail H_asprintf CARTRIDGE_CONFIG then - EDEV_INTERNAL_ERROR else DEVICE_GOOD, s, pos_all s pos).

(** Erase both partitions, as [setcap] and [format] do. *)
Definition erase_all (s : filedebug_data) : filedebug_data :=
  let erase s := snd (fst (filedebug_erase s (mk_position 0 0 0 false false) false)) in
  let s := erase (s <| cur_partition := 1 |> <| cur_block := 0 |>) in
  erase (s <| cur_partition := 0 |> <| cur_block := 0 |>).

Definition filedebug_setcap (s : filedebug_data) (proportion : Z) : Z * filedebug_data :=
  if negb (cur_partition s =? 0) || negb (cur_block s =? 0) then (- EDEV_ILLEGAL_REQUEST, s)
  else (DEVICE_GOOD, erase_all (s <| partitions := 1 |>)).

Inductive TC_FORMAT_TYPE :=
  TC_FORMAT_DEFAULT | TC_FORMAT_PARTITION | TC_FORMAT_DEST_PART | TC_FORMAT_MAX.

Definition filedebug_format (s : filedebug_data) (format : TC_FORMAT_TYPE)
    : Z * filedebug_data :=
  if negb (cur_partition s =? 0) || negb (cur_block s =? 0) then (- EDEV_ILLEGAL_REQUEST, s)
  else if is_worm s && (negb ((eod s).[0] =? 0) || negb ((eod s).[1] =? 0)) then
    (- EDEV_WRITE_PROTECTED_WORM, s)
  else if is_readonly s then (write_protect_error s, s)
  else
    let format_as n := (DEVICE_GOOD, set_thresholds (erase_all (s <| partitions := n |>))) in
    match format with
    | TC_FORMAT_DEFAULT => format_as 1
    | TC_FORMAT_PARTITION | TC_FORMAT_DEST_PART => format_as 2
    | TC_FORMAT_MAX => (- EDEV_INVALID_ARG, s)
    end.

Definition filedebug_remaining_capacity (s : filedebug_data) (cap : tc_remaining_cap)
    : Z * filedebug_data * tc_remaining_cap :=
  (DEVICE_GOOD, s,
   if negb (ready s) then cap
   else if partitions s =? 2 then
     {| max_p0 := calc_p0_cap s; remaining_p0 := calc_p0_remaining s;
        max_p1 := calc_p1_cap s; remaining_p1 := calc_p1_remaining s |}
   else {| max_p0 := capacity_mb (conf s); remaining_p0 := 0; max_p1 := 0; remaining_p1 := 0 |}).

Definition filedebug_test_unit_ready (s : filedebug_data) : Z * filedebug_data :=
  (if negb (ready s) then - EDEV_NEED_INITIALIZE else DEVICE_GOOD, s).

Definition filedebug_reserve_unit (s : filedebug_data) : Z * filedebug_data :=
  if device_reserved s then (- EDEV_ILLEGAL_REQUEST, s)
  else (DEVICE_GOOD, s <| device_reserved := true |>).

Definition filedebug_release_unit (s : filedebug_data) : Z * filedebug_data :=
  (DEVICE_GOOD, s <| device_reserved := false |>).

Definition filedebug_prevent_medium_removal (s : filedebug_data) : Z * filedebug_data :=
  if negb (ready s) then (- EDEV_NOT_READY, s) else (DEVICE_GOOD, s <| medium_locked := true |>).

Definition filedebug_allow_medium_removal (s : filedebug_data) : Z * filedebug_data :=
  if negb (ready s) then (- EDEV_NOT_READY, s) else (DEVICE_GOOD, s <| medium_locked := false |>).

Definition filedebug_allow_overwrite (s : filedebug_data) (pos : tc_position)
    : Z * filedebug_data := (DEVICE_GOOD, s).

Definition filedebug_get_eod_status (s : filedebug_data) (part : Z) : Z :=
  if (eod s).[part] =? MISSING_EOD then 1 else 0.

(** [strict_drive] is the backend's command-line option. *)
Definition filedebug_is_readonly (strict_drive : bool) (s : filedebug_data) : bool :=
  ibm_tape_is_mountable (drive_type s) None (cart_type (conf s)) (density_code (conf s))
    strict_drive =? MEDIUM_READONLY.

Definition filedebug_get_worm_status (s : filedebug_data) : Z * bool := (DEVICE_GOOD, is_worm s).

(** The table of operations of the backend. *)
#[export] Instance filedebug_ops (strict_drive : bool) : TapeOps filedebug_data := {|
  op_read := filedebug_read;
  op_write := filedebug_write;
  op_writefm := filedebug_writefm;
  op_rewind := filedebug_rewind;
  op_locate := filedebug_locate;
  op_space := filedebug_space;
  op_erase := filedebug_erase;
  op_unload := filedebug_unload;
  op_readpos := filedebug_readpos;
  op_get_next_block_to_xfer := filedebug_get_next_block_to_xfer;
  op_reserve_unit := filedebug_reserve_unit;
  op_release_unit := filedebug_release_unit;
  op_prevent_medium_removal := filedebug_prevent_medium_removal;
  op_allow_medium_removal := filedebug_allow_medium_removal;
  op_test_unit_ready := filedebug_test_unit_ready;
  op_remaining_capacity := filedebug_remaining_capacity;
  op_allow_overwrite := filedebug_allow_overwrite;
  op_is_readonly := filedebug_is_readonly strict_drive;
  op_get_worm_status := filedebug_get_worm_status;
|}.

End filedebug.
