(* ===== verification/FileDebugLaws.v ===== *)
(** * The file backend keeps its promises

    [fd_rep] relates the state of the file backend to a medium, that is to the
    two logs its directory stands for.  The file proves that [write],
    [writefm], [read] and [locate] of the backend satisfy the contract of
    [TapeOps]: the instance [filedebug_laws]. *)

From S2P Require Import Prelude LtfsError TapeOps FileDebug.

(** ** Media up to equality of their logs *)

Definition m_equiv (m1 m2 : medium) : Prop :=
  m_part m1 = m_part m2 /\ m_block m1 = m_block m2 /\ forall p, m_log m1 p = m_log m2 p.

#[export] Instance m_equiv_equivalence : Equivalence m_equiv.
Proof.
  split.
  - intros m. unfold m_equiv. auto.
  - intros m1 m2 (? & ? & ?). unfold m_equiv. auto.
  - intros m1 m2 m3 (H1 & H2 & H3) (K1 & K2 & K3). unfold m_equiv.
    split_and!; [congruence..|]. intros p. by rewrite H3.
Qed.

Lemma at_head_equiv m1 m2 pos : m_equiv m1 m2 -> at_head m1 pos -> at_head m2 pos.
Proof. unfold at_head. by intros (-> & -> & _). Qed.

Lemma m_append_app m rs ks :
  m_wf m -> m_equiv (m_append (m_append m rs) ks) (m_append m (rs ++ ks)).
Proof.
  intros (_ & ? & Hb). unfold m_eod, zlength in Hb.
  split; [done|split]; cbn.
  - unfold zlength. rewrite length_app. lia.
  - intros p. destruct (Z.eqb_spec p (m_part m)) as [->|]; [|done].
    rewrite app_assoc. f_equal. rewrite take_ge; [done|].
    rewrite length_app, length_take. unfold zlength. lia.
Qed.

(** ** Representation *)

(** The files of block [i] of partition [p] hold the record [rec]. *)
Definition rec_at (f : fstore) (p i : Z) (rec : tape_record) : Prop :=
  f !! (p, i, SUFFIX_EOD) = None /\
  match rec with
  | TData d => f !! (p, i, SUFFIX_FILEMARK) = None /\ f !! (p, i, SUFFIX_RECORD) = Some d
  | TFilemark => is_Some (f !! (p, i, SUFFIX_FILEMARK))
  end.

(** Partition [p] of the directory holds the log [l]. *)
Definition part_rep (s : filedebug_data) (p : Z) (l : list tape_record) : Prop :=
  (eod s).[p] = zlength l /\ zlength l < 2 ^ 62 /\
  is_Some (files s !! (p, zlength l, SUFFIX_EOD)) /\
  forall i rec, l !! i = Some rec -> rec_at (files s) p (Z.of_nat i) rec.

(** A loaded tape that the drive supports, outside dummy mode and without
    injected errors. *)
Definition fd_live (s : filedebug_data) : Prop :=
  ready s = true /\ unsupported_tape s = false /\ unsupported_format s = false /\
  dummy_io (conf s) = false /\ force_writeperm s = 0 /\ force_readperm s = 0.

Definition fd_rep (s : filedebug_data) (m : medium) : Prop :=
  fd_live s /\ m_wf m /\ cur_partition s = m_part m /\ cur_block s = m_block m /\
  part_rep s 0 (m_log m 0) /\ part_rep s 1 (m_log m 1).

#[export] Instance fd_rep_proper s : Proper (m_equiv ==> iff) (fd_rep s).
Proof.
  assert (forall m1 m2, m_equiv m1 m2 -> fd_rep s m1 -> fd_rep s m2) as Himp.
  { intros m1 m2 (Hp & Hb & Hl) (? & Hwf & ? & ? & ? & ?). unfold fd_rep, m_wf, m_eod in *.
    rewrite <- Hp, <- Hb, <- !Hl. done. }
  intros m1 m2 Heq. split; apply Himp; [done|by symmetry].
Qed.

(** ** Steps that do not touch what lies before a block *)

(** [f'] agrees with [f] on the records before block [b] of partition [p]. *)
Definition before_agree (p b : Z) (f f' : fstore) : Prop :=
  forall p' i x, x <> SUFFIX_ATTR -> p' <> p \/ i < b -> f' !! (p', i, x) = f !! (p', i, x).

(** Everything but the files behind [b], the attributes and the write pass is kept. *)
Definition quiet (p b : Z) (s s' : filedebug_data) : Prop :=
  (fd_live s -> fd_live s') /\ cur_partition s' = cur_partition s /\
  cur_block s' = cur_block s /\ eod s' = eod s /\ before_agree p b (files s) (files s').

#[export] Instance quiet_preorder p b : PreOrder (quiet p b).
Proof.
  split.
  - intros s. unfold quiet, before_agree. auto.
  - intros s1 s2 s3 (L1 & P1 & B1 & E1 & A1) (L2 & P2 & B2 & E2 & A2).
    unfold quiet. split_and!; [tauto|congruence..|].
    intros p' i x Hx Hi. by rewrite A2, A1.
Qed.

Lemma quiet_files p b s f :
  before_agree p b (files s) f -> quiet p b s (s <| files := f |>).
Proof. intros H. unfold quiet. cbn. auto. Qed.

Lemma before_agree_delete p b f b' x :
  b <= b' -> before_agree p b f (delete (p, b', x) f).
Proof. intros ? p' i y _ Hi. apply lookup_delete_ne. intros [= -> -> ->]. lia. Qed.

Lemma before_agree_insert p b f b' x d :
  b <= b' -> before_agree p b f (<[(p, b', x) := d]> f).
Proof. intros ? p' i y _ Hi. apply lookup_insert_ne. intros [= -> -> ->]. lia. Qed.

Lemma before_agree_attr p b f p' i d :
  before_agree p b f (<[(p', i, SUFFIX_ATTR) := d]> f).
Proof. intros p'' j y Hy _. apply lookup_insert_ne. intros [= _ _ ?]. congruence. Qed.

#[export] Hint Resolve before_agree_delete before_agree_insert before_agree_attr : ltfs.

Section laws.
Context `{Host}.

Lemma remove_record_ok p b s s' ret b' :
  b <= b' -> _filedebug_remove_record s p b' = (ret, s') -> (ret <? 0) = false ->
  quiet p b s s' /\
  forall x, x = SUFFIX_RECORD \/ x = SUFFIX_FILEMARK \/ x = SUFFIX_EOD ->
    files s' !! (p, b', x) = None.
Proof.
  intros Hb. unfold _filedebug_remove_record. destruct (host_fail H_asprintf _); [by intros [= <- <-]|].
  cbn [remove_suffixes].
  destruct (host_fail H_unlink _); [by intros [= <- <-]|].
  destruct (host_fail H_unlink _); [by intros [= <- <-]|].
  destruct (host_fail H_unlink _); [by intros [= <- <-]|].
  intros [= <- <-] _. split.
  - etransitivity; [|apply quiet_files; eauto with ltfs].
    etransitivity; apply quiet_files; eauto with ltfs.
  - intros x Hx. cbn. unfold SUFFIX_RECORD, SUFFIX_FILEMARK, SUFFIX_EOD in *.
    destruct Hx as [->|[->| ->]];
      rewrite ?lookup_delete_ne by congruence; apply lookup_delete_eq.
Qed.

Lemma create_file_ok p b s s' ret b' x :
  b <= b' -> create_file s (p, b', x) = (ret, s') -> (ret <? 0) = false ->
  quiet p b s s' /\ files s' = <[(p, b', x) := []]> (files s).
Proof.
  intros Hb. unfold create_file. destruct (host_fail H_open _); [by intros [= <- <-]|].
  destruct (host_fail H_close _); [by intros [= <- <-]|].
  intros [= <- <-] _. split; [|done]. apply quiet_files. auto with ltfs.
Qed.

Lemma remove_from_ok p b n : forall s s' ret i,
  b <= i -> remove_from s p i n = (ret, s') -> (ret <? 0) = false ->
  quiet p b s s'.
Proof.
  induction n as [|n IH]; cbn; intros s s' ret i Hi; [by intros [= <- <-]|].
  destruct (_filedebug_remove_record s p i) as [r s1] eqn:E.
  destruct (r <? 0) eqn:Hr; [intros [= <- <-]; congruence|]. intros Hrec Hret.
  etransitivity; [by eapply (remove_record_ok p b); eauto|].
  apply (IH _ _ ret (i + 1)); [lia|done..].
Qed.

Lemma write_attributes_quiet p b part buf fuel : forall s i s' ret,
  write_attributes s part buf i fuel = (ret, s') -> quiet p b s s'.
Proof.
  induction fuel as [|fuel IH]; cbn; intros s i s' ret; [by intros [= <- <-]|].
  destruct (_ <? _); [|by intros [= <- <-]].
  destruct (host_fail H_asprintf _); [by intros [= <- <-]|].
  destruct (host_fail H_open _); [by intros [= <- <-]|].
  destruct (host_fail H_write _).
  { intros [= <- <-]. apply quiet_files. auto with ltfs. }
  intros Hw. etransitivity; [|eapply IH, Hw].
  etransitivity; apply quiet_files; auto with ltfs.
Qed.

Lemma bump_write_pass_quiet p b s s' ret :
  bump_write_pass s = (ret, s') -> quiet p b s s'.
Proof.
  unfold bump_write_pass. destruct (_ =? _); [|by intros [= <- <-]]. intros Hw.
  etransitivity; [|eapply write_attributes_quiet, Hw]. unfold quiet. cbn.
  by split_and!.
Qed.

(** [_filedebug_write_eod] at block [b] of partition [p]. *)
Lemma write_eod_ok p b s s' ret :
  cur_partition s = p -> cur_block s = b -> 0 <= b < 2 ^ 62 -> (eod s).[p] < 2 ^ 62 ->
  _filedebug_write_eod s = (ret, s') -> (ret <? 0) = false ->
  ret = 0 /\ (fd_live s -> fd_live s') /\ cur_partition s' = p /\ cur_block s' = b /\
  eod s' = (eod s).[p <- b] /\ before_agree p b (files s) (files s') /\
  is_Some (files s' !! (p, b, SUFFIX_EOD)).
Proof.
  intros <- <- Hb He. unfold _filedebug_write_eod, _filedebug_remove_current_record, cur_eod.
  replace (negb ((eod s).[cur_partition s] =? MISSING_EOD)) with true
    by (unfold MISSING_EOD; lia).
  destruct (_filedebug_remove_record _ _ _) as [r1 s1] eqn:E1.
  destruct (r1 <? 0) eqn:Hr1; [intros [= <- <-]; congruence|].
  destruct (remove_record_ok (cur_partition s) (cur_block s) _ _ _ _ (Z.le_refl _) E1 Hr1)
    as [(L1 & P1 & B1 & D1 & A1) _].
  destruct (host_fail _ _); [by intros [= <- <-]|].
  destruct (create_file s1 _) as [r2 s2] eqn:E2.
  destruct (r2 <? 0) eqn:Hr2; [by intros [= <- <-]|].
  unfold cur_key in E2. rewrite P1, B1 in E2.
  destruct (create_file_ok (cur_partition s) (cur_block s) _ _ _ _ _ (Z.le_refl _) E2 Hr2)
    as [(L2 & P2 & B2 & D2 & A2) F2].
  destruct (remove_from _ _ _ _) as [r3 s3] eqn:E3.
  destruct (r3 <? 0) eqn:Hr3; [intros [= <- <-]; congruence|].
  rewrite P2, P1, B2, B1 in E3. nowrap.
  destruct (remove_from_ok (cur_partition s) (cur_block s + 1) _ _ _ _ _ (Z.le_refl _) E3 Hr3)
    as (L3 & P3 & B3 & D3 & A3).
  intros [= <- <-] _. split_and!; [done| |cbn; congruence|cbn; congruence| | |].
  - cbn. unfold fd_live in *. cbn. tauto.
  - cbn. by rewrite P3, P2, P1, B3, B2, B1, D3, D2, D1.
  - cbn. intros p' i x Hx Hi.
    rewrite A3; [|done|lia]. rewrite A2, A1 by done. done.
  - cbn. rewrite A3 by (done || lia). rewrite F2, lookup_insert_eq. by eexists.
Qed.

(** Appending one record: what is left to show once the files are written. *)
Lemma rep_append s s' m rec :
  fd_rep s m -> m_block m + 1 < 2 ^ 62 -> fd_live s' ->
  cur_partition s' = cur_partition s -> cur_block s' = cur_block s + 1 ->
  eod s' = (eod s).[cur_partition s <- cur_block s + 1] ->
  before_agree (cur_partition s) (cur_block s) (files s) (files s') ->
  rec_at (files s') (cur_partition s) (cur_block s) rec ->
  is_Some (files s' !! (cur_partition s, cur_block s + 1, SUFFIX_EOD)) ->
  fd_rep s' (m_append m [rec]).
Proof.
  intros (_ & Hwf & Hp & Hb & R0 & R1) Hmax Hlive Hp' Hb' He' Hag Hrec Heod.
  pose proof Hwf as (Hpart & Hb0 & Hble).
  rewrite Hp, Hb in *.
  assert (Hrep : forall p, p = 0 \/ p = 1 -> part_rep s p (m_log m p)) by (intros p [->| ->]; done).
  assert (Hzl : zlength (m_log (m_append m [rec]) (m_part m)) = m_block m + 1)
    by (apply m_append_eod, Hwf).
  assert (Hnew : forall p, p = 0 \/ p = 1 -> part_rep s' p (m_log (m_append m [rec]) p)).
  { intros p Hp01. destruct (Hrep p Hp01) as (E & Hlt & Hmark & Hrecs).
    destruct (Z.eq_dec p (m_part m)) as [->|Hne].
    - unfold part_rep. rewrite Hzl, He', a2get_set.
      split_and!; [done|lia|done|]. intros i r Hi. cbn in Hi. rewrite Z.eqb_refl in Hi.
      unfold m_eod, zlength in Hble.
      apply lookup_app_Some in Hi as [Hi|[Hlen Hi]].
      + apply lookup_take_Some in Hi as [Hi Hilt]. specialize (Hrecs _ _ Hi).
        unfold rec_at in *. rewrite !Hag by (done || right; lia). done.
      + rewrite length_take in Hi, Hlen. apply list_lookup_singleton_Some in Hi as [Hi ->].
        replace (Z.of_nat i) with (m_block m) by lia. done.
    - unfold part_rep. cbn. apply Z.eqb_neq in Hne as Hneb. rewrite Hneb, He'.
      rewrite a2get_set_ne by (done || lia). rewrite Hag by (done || left; done).
      split_and!; [done..|]. intros i r Hi. specialize (Hrecs i r Hi).
      unfold rec_at in *. rewrite !Hag by (done || left; done). done. }
  unfold fd_rep. split_and!; [done| |cbn; congruence| |apply Hnew; auto|apply Hnew; auto].
  - unfold m_wf, m_eod. change (m_part (m_append m [rec])) with (m_part m). rewrite Hzl. cbn.
    change (zlength [rec]) with 1. split; [done|lia].
  - cbn. change (zlength [rec]) with 1. lia.
Qed.

(** ** Writing *)

Lemma write_record_ok s m buf pos ret s' pos' :
  fd_rep s m -> m_block m + 1 < 2 ^ 62 ->
  write_record s buf pos = (ret, s', pos') -> (ret <? 0) = false ->
  (exists k, ret = host_written k (zlength buf)) /\ fd_rep s' (m_append m [TData (take (Z.to_nat ret) buf)]) /\
  pos' = pos <| block := cur_block s + 1 |>.
Proof.
  intros Hrep Hmax. pose proof Hrep as (Hlive & (Hpart & Hb0 & Hble) & Hp & Hb & R0 & R1).
  unfold write_record, _filedebug_remove_current_record.
  destruct (_filedebug_remove_record _ _ _) as [r1 s1] eqn:E1.
  destruct (r1 <? 0) eqn:Hr1; [intros [= <- <- <-]; congruence|].
  destruct (remove_record_ok (cur_partition s) (cur_block s) _ _ _ _ (Z.le_refl _) E1 Hr1)
    as [Q1 N1].
  destruct (bump_write_pass s1) as [r2 s2] eqn:E2.
  destruct (r2 <? 0) eqn:Hr2; [intros [= <- <- <-]; congruence|].
  pose proof (bump_write_pass_quiet (cur_partition s) (cur_block s + 1) _ _ _ E2) as Q2.
  destruct Q1 as (L1 & P1 & B1 & D1 & A1). destruct Q2 as (L2 & P2 & B2 & D2 & A2).
  destruct (host_fail H_asprintf _); [by intros [= <- <- <-]|].
  destruct (host_fail H_open _); [by intros [= <- <- <-]|].
  destruct (host_fail H_write _); [by intros [= <- <- <-]|].
  destruct (host_fail H_close _); [by intros [= <- <- <-]|].
  unfold cur_key, next_block, pos_block. cbn. rewrite P2, P1, B2, B1. nowrap.
  destruct (_filedebug_write_eod _) as [r4 s4] eqn:E4.
  destruct (r4 <? 0) eqn:Hr4; [intros [= <- <- <-]; congruence|].
  apply (write_eod_ok (cur_partition s) (cur_block s + 1)) in E4 as
    (_ & L4 & P4 & B4 & D4 & A4 & M4); cbn; [|congruence|done|lia| |done]; cycle 1.
  { rewrite D2, D1. destruct R0 as (? & ? & _), R1 as (? & ? & _).
    rewrite Hp. destruct Hpart as [-> | ->]; lia. }
  intros [= <- <- <-] _. split_and!; [by eexists| |done]. cbn in *.
  eapply (rep_append s s4 m); try done.
  - apply L4. unfold fd_live in *. cbn. tauto.
  - rewrite D4, D2, D1. done.
  - intros p' i x Hx Hi. rewrite A4 by (done || lia).
    rewrite !lookup_insert_ne by (intros [= ? ? ?]; lia).
    rewrite A2 by (done || lia). by apply A1.
  - unfold rec_at, SUFFIX_RECORD, SUFFIX_FILEMARK, SUFFIX_EOD in *. rewrite !A4 by (done || lia). split_and!.
    + rewrite !lookup_insert_ne by congruence. rewrite A2 by (done || lia). auto.
    + rewrite !lookup_insert_ne by congruence. rewrite A2 by (done || lia). auto.
    + by rewrite lookup_insert_eq.
Qed.

Lemma raise_at_head m b1 b2 pos : at_head m pos -> at_head m (raise_pew b1 (raise_ew b2 pos)).
Proof. by destruct b1, b2. Qed.

(** A write appends the bytes that its result counts: [write(2)] may store fewer than it is given. *)
Lemma filedebug_write_counts s m buf pos r s' pos' :
  fd_rep s m -> at_head m pos -> m_block m + 1 < 2 ^ 62 -> buf <> [] ->
  filedebug_write s buf pos = (r, s', pos') -> 0 <= r ->
  let rec := TData (take (Z.to_nat r) buf) in
  (exists k, r = host_written k (zlength buf)) /\ fd_rep s' (m_append m [rec]) /\ at_head (m_append m [rec]) pos'.
Proof.
  intros Hrep [Hpp Hpb] Hmax Hbuf.
  pose proof Hrep as ((Hrdy & Hut & Huf & Hdum & Hfw & Hfr) & Hwf & Hp & Hb & _).
  unfold filedebug_write. rewrite Hrdy, Hut, Huf, Hfw. cbn.
  intros Hw Hr.
  destruct (_exceeds_max_transfer _ _); [injection Hw as <- <- <-; neg_ret Hr|].
  destruct (is_worm s && _); [injection Hw as <- <- <-; neg_ret Hr|].
  destruct (is_readonly s).
  { injection Hw as <- <- <-. unfold write_protect_error in Hr.
    destruct (emulate_readonly _); neg_ret Hr. }
  replace (zlength buf =? 0) with false in Hw
    by (destruct buf as [|c buf]; [done|];
        rewrite zlength_cons; pose proof (zlength_nonneg buf); lia).
  rewrite Hfw in Hw. cbn in Hw.
  destruct (_ <? zlength buf); [injection Hw as <- <- <-; neg_ret Hr|].
  unfold dummy_zone in Hw. rewrite Hdum in Hw. cbn in Hw.
  destruct (write_record s buf pos) as [[r1 s1] pos1] eqn:E.
  destruct (r1 <? 0) eqn:Hr1; [injection Hw as <- <- <-; bsplit; lia|].
  injection Hw as <- <- <-.
  destruct (write_record_ok _ _ _ _ _ _ _ Hrep Hmax E Hr1) as (Hk & Hrep' & ->).
  split_and!; [done|done|]. apply raise_at_head. split; cbn; [done|]. change (zlength [TData (take (Z.to_nat r1) buf)]) with 1. lia.
Qed.

Context (host_writes_all : forall k n, host_written k n = n).

Lemma filedebug_write_ok s m buf pos r s' pos' :
  fd_rep s m -> at_head m pos -> m_block m + 1 < 2 ^ 62 -> buf <> [] ->
  filedebug_write s buf pos = (r, s', pos') -> 0 <= r ->
  fd_rep s' (m_append m [TData buf]) /\ at_head (m_append m [TData buf]) pos'.
Proof.
  intros Hrep Hpos Hmax Hbuf Hw Hr. destruct (filedebug_write_counts s m buf pos r s' pos' Hrep Hpos Hmax Hbuf Hw Hr) as ([k ->] & Hok).
  rewrite host_writes_all in Hok. unfold zlength in Hok at 1. by rewrite Nat2Z.id, take_ge in Hok.
Qed.

(** One filemark. *)
Lemma write_filemark_ok s m pos s1 s2 s3 r1 r2 r3 :
  fd_rep s m -> m_block m + 1 < 2 ^ 62 ->
  _filedebug_remove_current_record s = (r1, s1) -> (r1 <? 0) = false ->
  create_file s1 (cur_key s1 SUFFIX_FILEMARK) = (r2, s2) -> (r2 <? 0) = false ->
  let s2' := (next_block s2) <| cur_filemarks := cur_filemarks s2 ⊞ 1 |> in
  _filedebug_write_eod s2' = (r3, s3) -> (r3 <? 0) = false ->
  fd_rep s3 (m_append m [TFilemark]) /\
  block (pos_block_fm s2' pos) = m_block m + 1 /\ partition (pos_block_fm s2' pos) = partition pos.
Proof.
  intros Hrep Hmax E1 Hr1 E2 Hr2 s2' E3 Hr3.
  pose proof Hrep as (Hlive & (Hpart & Hb0 & Hble) & Hp & Hb & R0 & R1).
  destruct (remove_record_ok (cur_partition s) (cur_block s) _ _ _ _ (Z.le_refl _) E1 Hr1)
    as [(L1 & P1 & B1 & D1 & A1) N1].
  unfold cur_key in E2. rewrite P1, B1 in E2.
  destruct (create_file_ok (cur_partition s) (cur_block s) _ _ _ _ _ (Z.le_refl _) E2 Hr2)
    as [(L2 & P2 & B2 & D2 & A2) F2].
  assert (Hcb : cur_block s2' = cur_block s + 1).
  { subst s2'. cbn. rewrite B2, B1. nowrap. done. }
  apply (write_eod_ok (cur_partition s) (cur_block s + 1)) in E3 as
    (_ & L3 & P3 & B3 & D3 & A3 & M3); [|cbn; congruence|done|lia| |done]; cycle 1.
  { cbn. rewrite D2, D1. destruct R0 as (? & ? & _), R1 as (? & ? & _).
    rewrite Hp. destruct Hpart as [-> | ->]; lia. }
  split; [|split; [cbn in *; lia|done]].
  apply (rep_append s s3 m TFilemark); try done.
  - apply L3. subst s2'. unfold fd_live in *. cbn. tauto.
  - rewrite D3. cbn. by rewrite D2, D1.
  - intros p' i x Hx Hi. rewrite A3 by (done || lia). cbn.
    by rewrite A2, A1.
  - unfold rec_at. rewrite !A3 by (done || lia). cbn. rewrite F2.
    unfold SUFFIX_FILEMARK, SUFFIX_EOD in *. rewrite lookup_insert_eq.
    rewrite lookup_insert_ne by congruence. split; [auto|by eexists].
Qed.

Lemma write_filemarks_step n s m pos ret s' pos' :
  fd_rep s m -> at_head m pos -> m_block m + 1 < 2 ^ 62 ->
  write_filemarks s (S n) pos = (ret, s', pos') -> (ret <? 0) = false ->
  exists s1 pos1, write_filemarks s1 n pos1 = (ret, s', pos') /\
    fd_rep s1 (m_append m [TFilemark]) /\ at_head (m_append m [TFilemark]) pos1.
Proof.
  intros Hrep [Hpp Hpb] Hmax. cbn [write_filemarks].
  destruct (_filedebug_remove_current_record s) as [r1 s1] eqn:E1.
  destruct (r1 <? 0) eqn:Hr1; [intros [= <- <- <-]; congruence|].
  destruct (host_fail _ _); [by intros [= <- <- <-]|].
  destruct (create_file s1 _) as [r2 s2] eqn:E2.
  destruct (r2 <? 0) eqn:Hr2; [intros [= <- <- <-]; congruence|].
  destruct (_filedebug_write_eod _) as [r3 s3] eqn:E3.
  destruct (r3 <? 0) eqn:Hr3; [intros [= <- <- <-]; congruence|].
  destruct (write_filemark_ok s m pos s1 s2 s3 r1 r2 r3 Hrep Hmax E1 Hr1 E2 Hr2 E3 Hr3)
    as (Hrep1 & Hb1 & Hp1).
  intros Hw _. exists s3, (pos_block_fm (next_block s2) <| cur_filemarks := cur_filemarks s2 ⊞ 1 |> pos).
  split_and!; [done..|]. split; [by rewrite Hp1|by rewrite Hb1].
Qed.

Lemma write_filemarks_ok n : forall s m pos ret s' pos',
  fd_rep s m -> at_head m pos -> m_block m + Z.of_nat (S n) < 2 ^ 62 ->
  write_filemarks s (S n) pos = (ret, s', pos') -> (ret <? 0) = false ->
  ret = 0 /\ fd_rep s' (m_append m (replicate (S n) TFilemark)) /\
  at_head (m_append m (replicate (S n) TFilemark)) pos'.
Proof.
  induction n as [|n IH]; intros s m pos ret s' pos' Hrep Hpos Hmax Hw Hret;
    destruct (write_filemarks_step _ _ _ _ _ _ _ Hrep Hpos ltac:(lia) Hw Hret)
      as (s1 & pos1 & Hw1 & Hrep1 & Hpos1).
  - by injection Hw1 as <- <- <-.
  - assert (m_block (m_append m [TFilemark]) = m_block m + 1) as Hb by done.
    destruct (IH s1 _ pos1 ret s' pos' Hrep1 Hpos1 ltac:(lia) Hw1 Hret) as (-> & Hrep' & Hpos').
    pose proof (m_append_app m [TFilemark] (replicate (S n) TFilemark)
                  (proj1 (proj2 Hrep))) as Heq.
    split_and!; [done|by rewrite <- Heq|by apply (at_head_equiv _ _ _ Heq)].
Qed.

Lemma report_at_head m s pos : at_head m pos -> at_head m (report_warnings s pos).
Proof. apply raise_at_head. Qed.

Lemma filedebug_writefm_ok s m count pos immed r s' pos' :
  fd_rep s m -> at_head m pos -> 0 <= count -> m_block m + count < 2 ^ 62 ->
  filedebug_writefm s count pos immed = (r, s', pos') -> 0 <= r ->
  let m' := if count =? 0 then m
            else m_append m (replicate (Z.to_nat count) TFilemark) in
  r = 0 /\ fd_rep s' m' /\ at_head m' pos'.
Proof.
  intros Hrep Hpos Hc Hmax.
  pose proof Hrep as ((Hrdy & _ & _ & Hdum & _) & _).
  unfold filedebug_writefm, dummy_zone. rewrite Hrdy, Hdum. cbn [negb andb].
  destruct (count =? 0) eqn:Hz; [by intros [= <- <- <-]|]. bsplit.
  intros Hw Hr. cbn zeta.
  destruct (bump_write_pass s) as [r1 s1] eqn:E1.
  destruct (r1 <? 0) eqn:Hr1; [rewrite Hr1 in Hw; injection Hw as <- <- <-; bsplit; lia|].
  assert (Hrep1 : fd_rep s1 m).
  { pose proof (fun p b => bump_write_pass_quiet p b _ _ _ E1) as Hq.
    destruct Hrep as (Hl & ? & Hp & Hb & R0 & R1).
    destruct (Hq 2 0) as (HL & HP & HB & HD & HA).
    unfold fd_rep, part_rep, rec_at in *. rewrite HP, HB, HD.
    assert (forall p i x, p = 0 \/ p = 1 -> x <> SUFFIX_ATTR ->
              files s1 !! (p, i, x) = files s !! (p, i, x)) as Hf by (intros; apply HA; [done|lia]).
    rewrite !Hf by (done || lia). split_and!; try tauto.
    - intros i rec Hi. rewrite !Hf by (done || lia). apply R0. done.
    - intros i rec Hi. rewrite !Hf by (done || lia). apply R1. done. }
  replace (Z.to_nat count) with (S (Z.to_nat (count - 1))) in * by lia.
  destruct (write_filemarks s1 _ pos) as [[r2 s2] pos2] eqn:E2.
  destruct (r2 <? 0) eqn:Hr2; injection Hw as <- <- <-; [bsplit; lia|].
  assert (m_block m + Z.of_nat (S (Z.to_nat (count - 1))) < 2 ^ 62) as Hmax' by lia.
  destruct (write_filemarks_ok _ _ _ _ _ _ _ Hrep1 Hpos Hmax' E2 Hr2) as (-> & ? & ?).
  auto using report_at_head.
Qed.

(** ** Reading and moving *)

Lemma check_file_some s k :
  (_filedebug_check_file s k <? 0) = false -> (0 <? _filedebug_check_file s k) = true ->
  is_Some (files s !! k).
Proof.
  unfold _filedebug_check_file. destruct (host_fail _ _); [done|].
  destruct (files s !! k); [by eexists|done].
Qed.

Lemma check_file_none s k :
  (_filedebug_check_file s k <? 0) = false -> (0 <? _filedebug_check_file s k) = false ->
  files s !! k = None.
Proof.
  unfold _filedebug_check_file. destruct (host_fail H_open _); [done|].
  destruct (files s !! k); [|done]. by destruct (host_fail _ _).
Qed.

(** The head moved, nothing else. *)
Lemma rep_move s m p b f :
  fd_rep s m -> p = 0 \/ p = 1 -> 0 <= b <= m_eod m p ->
  fd_rep (s <| cur_partition := p |> <| cur_block := b |> <| cur_filemarks := f |>) (m_move m p b).
Proof. intros (? & ? & ? & ? & ? & ?) Hp Hb. unfold fd_rep. by split_and!. Qed.

Lemma rep_here s m :
  fd_rep s m -> cur_eod s <> cur_block s ->
  exists rec, m_here m = Some rec /\ rec_at (files s) (cur_partition s) (cur_block s) rec.
Proof.
  intros (_ & (Hpart & Hb0 & Hble) & Hp & Hb & R0 & R1) Hne.
  assert (part_rep s (m_part m) (m_log m (m_part m))) as (E & _ & _ & Hrec)
    by (destruct Hpart as [-> | ->]; done).
  unfold cur_eod in Hne. rewrite Hp, Hb, E in *. unfold m_eod, zlength, m_here in *.
  destruct (lookup_lt_is_Some_2 (m_log m (m_part m)) (Z.to_nat (m_block m))) as [rec Hrec']; [lia|].
  exists rec. split; [done|]. specialize (Hrec _ _ Hrec').
  by rewrite Z2Nat.id in Hrec.
Qed.

Lemma read_current_ok s m count pos r s' pos' buf :
  fd_rep s m -> at_head m pos -> cur_eod s <> cur_block s ->
  read_current s count pos = (r, s', pos', buf) -> 0 <= r ->
  exists rec, m_here m = Some rec /\
    buf = match rec with TData d => take (Z.to_nat count) d | TFilemark => [] end /\
    r = zlength buf /\
    fd_rep s' (m_move m (m_part m) (m_block m + 1)) /\
    at_head (m_move m (m_part m) (m_block m + 1)) pos'.
Proof.
  intros Hrep [Hpp Hpb] Hne. destruct (rep_here s m Hrep Hne) as (rec & Hhere & Hend & Hrec).
  pose proof Hrep as (_ & (Hpart & Hb0 & Hble) & Hp & Hb & R0 & R1).
  assert (Hlt : m_block m + 1 <= m_eod m (m_part m)).
  { unfold m_here in Hhere. apply lookup_lt_Some in Hhere. unfold m_eod, zlength. lia. }
  assert (Hmax : m_eod m (m_part m) < 2 ^ 62).
  { destruct R0 as (_ & ? & _), R1 as (_ & ? & _). unfold m_eod. by destruct Hpart as [-> | ->]. }
  assert (Hstep : forall f, fd_rep ((next_block s) <| cur_filemarks := f |>)
            (m_move m (m_part m) (m_block m + 1))).
  { intros f. pose proof (rep_move s m (m_part m) (m_block m + 1) f Hrep Hpart ltac:(lia)) as HR.
    unfold next_block. rewrite Hb. nowrap. rewrite <- Hp in HR at 1. exact HR. }
  unfold read_current. intros Hr Hpos. exists rec. split; [done|].
  destruct (host_fail _ _); [injection Hr as <- <- <- <-; neg_ret Hpos|].
  destruct (_filedebug_check_file s (cur_key s SUFFIX_EOD) <? 0) eqn:?;
    [injection Hr as <- <- <- <-; bsplit; lia|].
  destruct (0 <? _filedebug_check_file s (cur_key s SUFFIX_EOD));
    [injection Hr as <- <- <- <-; neg_ret Hpos|].
  destruct (_filedebug_check_file s (cur_key s SUFFIX_FILEMARK) <? 0) eqn:Hf;
    [injection Hr as <- <- <- <-; bsplit; lia|].
  destruct (0 <? _filedebug_check_file s (cur_key s SUFFIX_FILEMARK)) eqn:Hf2.
  - destruct (check_file_some _ _ Hf Hf2) as [d Hd].
    destruct rec as [d'|]; [destruct Hrec as [Hrec _]; unfold cur_key in Hd; congruence|].
    injection Hr as <- <- <- <-. split_and!; [done..|apply Hstep|].
    split; cbn; [done|]. rewrite Hb. nowrap. done.
  - pose proof (check_file_none _ _ Hf Hf2) as Hn.
    destruct rec as [d|]; [|destruct Hrec; unfold cur_key in Hn; congruence].
    destruct Hrec as [_ Hd].
    destruct (_filedebug_check_file s (cur_key s SUFFIX_RECORD) <? 0) eqn:Hg;
      [injection Hr as <- <- <- <-; bsplit; lia|].
    destruct (0 <? _filedebug_check_file s (cur_key s SUFFIX_RECORD)); [|injection Hr as <- <- <- <-; neg_ret Hpos].
    destruct (host_fail _ _); [injection Hr as <- <- <- <-; neg_ret Hpos|].
    unfold cur_key in Hr. rewrite Hd in Hr. cbn [default] in Hr.
    injection Hr as <- <- <- <-. split_and!; [done..|apply (Hstep (cur_filemarks s))|].
    split; cbn; [done|]. rewrite Hb. nowrap. done.
Qed.

Lemma filedebug_read_ok s m count pos unusual r s' pos' buf :
  fd_rep s m -> at_head m pos -> 0 <= count ->
  filedebug_read s count pos unusual = (r, s', pos', buf) -> 0 <= r ->
  exists rec, m_here m = Some rec /\
    buf = match rec with TData d => take (Z.to_nat count) d | TFilemark => [] end /\
    r = zlength buf /\
    fd_rep s' (m_move m (m_part m) (m_block m + 1)) /\
    at_head (m_move m (m_part m) (m_block m + 1)) pos'.
Proof.
  intros Hrep Hpos Hc. pose proof Hrep as ((Hrdy & Hut & Huf & Hdum & Hfw & Hfr) & _).
  unfold filedebug_read. rewrite Hrdy, Hut, Huf, Hfr. cbn [negb orb andb Z.eqb].
  intros Hr H0.
  destruct (_exceeds_max_transfer _ _); [injection Hr as <- <- <- <-; neg_ret H0|].
  rewrite Hfr in Hr. unfold dummy_zone in Hr. rewrite Hdum in Hr. cbn [negb orb andb Z.eqb] in Hr.
  destruct (cur_eod s =? cur_block s) eqn:He; [injection Hr as <- <- <- <-; neg_ret H0|].
  bsplit. eapply read_current_ok; eauto.
Qed.

Lemma filedebug_locate_ok s m dest pos r s' pos' :
  fd_rep s m -> 0 <= partition dest -> 0 <= block dest ->
  filedebug_locate s dest pos = (r, s', pos') -> 0 <= r ->
  let m' := m_move m (partition dest) (Z.min (block dest) (m_eod m (partition dest))) in
  r = 0 /\ fd_rep s' m' /\ at_head m' pos'.
Proof.
  intros Hrep Hp0 Hb0. pose proof Hrep as ((Hrdy & Hut & Huf & _) & _ & _ & _ & R0 & R1).
  unfold filedebug_locate. rewrite Hrdy, Hut, Huf. cbn [negb orb].
  intros Hr H0. cbn zeta.
  destruct (_ <=? _) eqn:Hpd; [injection Hr as <- <- <-; neg_ret H0|].
  unfold MAX_PARTITIONS in Hpd. bsplit.
  set (p := partition dest) in *.
  assert (Hp : p = 0 \/ p = 1) by lia.
  assert (part_rep s p (m_log m p)) as (E & Hlt & _) by (destruct Hp as [-> | ->]; done).
  set (sc := if _ && _ then _ else s) in Hr.
  assert (Hsc : fd_rep sc m /\ eod sc = eod s /\ last_block sc = last_block s).
  { subst sc. destruct (_ && _); [|done]. split; [|done].
    destruct Hrep as ((? & ? & ? & ? & ? & ?) & ? & ? & ? & ? & ?).
    unfold fd_rep, fd_live. by split_and!. }
  destruct Hsc as (Hsc & He & Hl).
  assert (Hlb : locate_block sc p (block dest) = Z.min (block dest) (m_eod m p)).
  { unfold locate_block. rewrite He, E. unfold m_eod, MISSING_EOD.
    replace (zlength (m_log m p) =? 2 ^ 64 - 1) with false by lia. cbn [andb].
    destruct (_ <? _) eqn:?; bsplit; lia. }
  unfold finish_move in Hr. rewrite Hlb in Hr.
  destruct (count_filemarks _ _ _ _); injection Hr as <- <- <-; [|neg_ret H0].
  pose proof (zlength_nonneg (m_log m p)).
  split; [done|]. split; [apply rep_move; [done..|]; unfold m_eod in *; lia|].
  apply report_at_head. done.
Qed.

Lemma filedebug_allow_overwrite_ok s m pos r s' :
  fd_rep s m -> filedebug_allow_overwrite s pos = (r, s') -> 0 <= r -> r = 0 /\ fd_rep s' m.
Proof. by intros Hrep [= <- <-] _. Qed.

(** The file backend implements the contract when the host writes records whole. *)
#[export] Instance filedebug_laws (strict_drive : bool) :
  @TapeLaws filedebug_data (filedebug_ops strict_drive) :=
  Build_TapeLaws filedebug_data (filedebug_ops strict_drive) fd_rep
    (fun s m Hrep => proj1 (proj2 Hrep))
    filedebug_write_ok filedebug_writefm_ok filedebug_read_ok filedebug_locate_ok
    filedebug_allow_overwrite_ok.

End laws.

(** ** A concrete tape *)

(** A host on which every call succeeds. *)
#[export] Instance sane_host : Host := {|
  host_fail := fun _ _ => false;
  host_written := fun _ n => n;
  host_readdir := fun f => (map_to_list f).*1;
|}.

(** A freshly formatted LTO-7 cartridge in an LTO-7 drive. *)
Definition blank_tape : filedebug_data := {|
  files := {[ (0, 0, SUFFIX_EOD) := []; (1, 0, SUFFIX_EOD) := [] ]};
  device_reserved := false; medium_locked := false;
  cur_partition := 0; cur_block := 0; cur_filemarks := 0;
  max_block_size := FILE_DEBUG_MAX_BLOCK_SIZE;
  ready := true; is_readonly := false; is_worm := false;
  unsupported_tape := false; unsupported_format := false;
  last_block := (u64 (-1), u64 (-1)); eod := (0, 0); partitions := 2;
  write_pass_prev := 0; write_pass := 0;
  p0_warning := 307; p1_warning := 5837; p0_p_warning := 153; p1_p_warning := 5684;
  clear_by_pc := false; force_writeperm := 0; force_readperm := 0;
  write_counter := 0; read_counter := 0; force_errortype := 0;
  drive_type := 0x2107;
  conf := {| dummy_io := false; emulate_readonly := false; capacity_mb := 3072;
             cart_type := 0x78; density_code := 0x5C; max_transfer_bytes := 0 |};
|}.

Definition blank_medium : medium := {| m_log := fun _ => []; m_part := 0; m_block := 0 |}.

Lemma blank_rep : fd_rep blank_tape blank_medium.
Proof.
  assert (forall p, p = 0 \/ p = 1 -> part_rep blank_tape p []) as Hp.
  { intros p [->| ->]; (split; [done|]; split; [done|]; split; [by eexists|]);
      intros i rec Hi; by rewrite lookup_nil in Hi. }
  split; [by vm_compute|]. split_and!; try done; [|apply Hp; auto..].
  split; [by left|]. vm_compute. split; discriminate.
Qed.
