(* ===== verification/FileDebugProps.v ===== *)
(** * Properties of the file backend

    A run of successful commands on the backend is a run of the abstract
    medium, and a tape that is loaded again holds what it held. *)

From S2P Require Import Prelude LtfsError TapeOps IbmTape FileDebug FileDebugLaws.

(** ** Runs *)

(** The commands a client issues. *)
Inductive tape_cmd :=
  | CmdWrite (buf : list Z)
  | CmdFilemarks (count : Z)
  | CmdRead (count : Z)
  | CmdLocate (part blk : Z).

(** What a command does to a medium, and its data: those that a read returns, and those
    that a write reports as written, which may be the front part of what it was given. *)
Inductive medium_step : medium -> tape_cmd -> list Z -> medium -> Prop :=
  | ms_write m buf n : medium_step m (CmdWrite buf) (take n buf) (m_append m [TData (take n buf)])
  | ms_filemarks m n : 0 < n ->
      medium_step m (CmdFilemarks n) [] (m_append m (replicate (Z.to_nat n) TFilemark))
  | ms_read_data m count d : m_here m = Some (TData d) ->
      medium_step m (CmdRead count) (take (Z.to_nat count) d) (m_move m (m_part m) (m_block m + 1))
  | ms_read_mark m count : m_here m = Some TFilemark ->
      medium_step m (CmdRead count) [] (m_move m (m_part m) (m_block m + 1))
  | ms_locate m p b :
      medium_step m (CmdLocate p b) [] (m_move m p (Z.min b (m_eod m p))).

Inductive medium_run : medium -> list tape_cmd -> list (list Z) -> medium -> Prop :=
  | mr_nil m : medium_run m [] [] m
  | mr_cons m c out m1 cs outs m2 :
      medium_step m c out m1 -> medium_run m1 cs outs m2 -> medium_run m (c :: cs) (out :: outs) m2.

Section props.
Context `{Host}.

(** One command of the backend that succeeds, on a tape that does not grow past
    2^62 blocks. *)
Inductive backend_step : filedebug_data * tc_position -> tape_cmd -> list Z ->
    filedebug_data * tc_position -> Prop :=
  | bs_write s pos buf r s' pos' :
      buf <> [] -> cur_block s + 1 < 2 ^ 62 ->
      filedebug_write s buf pos = (r, s', pos') -> 0 <= r ->
      backend_step (s, pos) (CmdWrite buf) (take (Z.to_nat r) buf) (s', pos')
  | bs_filemarks s pos n immed r s' pos' :
      0 < n -> cur_block s + n < 2 ^ 62 ->
      filedebug_writefm s n pos immed = (r, s', pos') -> 0 <= r ->
      backend_step (s, pos) (CmdFilemarks n) [] (s', pos')
  | bs_read s pos count unusual r s' pos' data :
      0 <= count -> filedebug_read s count pos unusual = (r, s', pos', data) -> 0 <= r ->
      backend_step (s, pos) (CmdRead count) data (s', pos')
  | bs_locate s pos p b r s' pos' :
      0 <= p -> 0 <= b ->
      filedebug_locate s (mk_position b 0 p false false) pos = (r, s', pos') -> 0 <= r ->
      backend_step (s, pos) (CmdLocate p b) [] (s', pos').

Inductive backend_run : filedebug_data * tc_position -> list tape_cmd -> list (list Z) ->
    filedebug_data * tc_position -> Prop :=
  | br_nil c : backend_run c [] [] c
  | br_cons c x out c1 xs outs c2 :
      backend_step c x out c1 -> backend_run c1 xs outs c2 ->
      backend_run c (x :: xs) (out :: outs) c2.

Lemma backend_step_simulates c x out c' m :
  backend_step c x out c' -> fd_rep c.1 m -> at_head m c.2 ->
  exists m', medium_step m x out m' /\ fd_rep c'.1 m' /\ at_head m' c'.2.
Proof.
  intros Hs Hrep Hpos.
  destruct Hs as [s pos buf r s' pos' Hb Hmax Hrun Hr|s pos n immed r s' pos' Hn Hmax Hrun Hr
    |s pos count unusual r s' pos' data Hc Hrun Hr|s pos p b r s' pos' Hp Hb Hrun Hr];
    cbn in Hrep, Hpos |- *; pose proof Hrep as (_ & _ & _ & Hblk & _).
  - rewrite Hblk in Hmax. eexists. split; [constructor|].
    by eapply filedebug_write_counts.
  - rewrite Hblk in Hmax. eexists. split; [by constructor|].
    pose proof (filedebug_writefm_ok s m n pos immed r s' pos' Hrep Hpos ltac:(lia) Hmax Hrun Hr) as (_ & Hok).
    by replace (n =? 0) with false in Hok by lia.
  - destruct (filedebug_read_ok s m count pos unusual r s' pos' data Hrep Hpos Hc Hrun Hr)
      as ([d|] & Hhere & -> & _ & Hrep' & Hpos'); eexists; (split; [by constructor|done]).
  - pose proof (filedebug_locate_ok s m (mk_position b 0 p false false) pos r s' pos' Hrep Hp Hb Hrun Hr)
      as (_ & Hok). eexists. split; [constructor|done].
Qed.

(** C19: the file backend implements the tape of the specification.  Every
    sequence of writes, filemarks, reads and locates that succeeds on a loaded
    tape is a run of the abstract medium of two append-only logs: a write appends
    a record of exactly the bytes that its result counts (all, or a front part when
    the host's [write] was short), the data each read returns is the record at the
    head of the abstract medium, cut to the buffer, and in the end the directory of files again represents
    the abstract medium.  Whatever host calls fail: only successful commands are in
    the sequence, and no partition grows past 2^62 blocks. *)
Theorem filedebug_refines_medium c xs outs c' m :
  backend_run c xs outs c' -> fd_rep c.1 m -> at_head m c.2 ->
  exists m', medium_run m xs outs m' /\ fd_rep c'.1 m' /\ at_head m' c'.2.
Proof.
  intros Hrun. revert m. induction Hrun as [c|c x out c1 xs outs c2 Hs Hrun IH]; intros m Hrep Hpos.
  { exists m. split; [constructor|done]. }
  destruct (backend_step_simulates _ _ _ _ _ Hs Hrep Hpos) as (m1 & Hm1 & Hrep1 & Hpos1).
  destruct (IH m1 Hrep1 Hpos1) as (m2 & Hm2 & Hend). exists m2. split; [by econstructor|done].
Qed.

(** ** Loading a tape *)

(** The files of partition [p] of a directory are the log [l]. *)
Definition dir_holds (f : fstore) (p : Z) (l : list tape_record) : Prop :=
  zlength l < 2 ^ 62 /\ is_Some (f !! (p, zlength l, SUFFIX_EOD)) /\
  forall i rec, l !! i = Some rec -> rec_at f p (Z.of_nat i) rec.

Lemma dir_holds_size f p l : dir_holds f p l -> (length l <= size f)%nat.
Proof.
  intros (_ & _ & Hrec).
  set (key i := if bool_decide (is_Some (f !! (p, Z.of_nat i, SUFFIX_FILEMARK)))
                then (p, Z.of_nat i, SUFFIX_FILEMARK) else (p, Z.of_nat i, SUFFIX_RECORD)).
  assert (Hnd : NoDup (key <$> seq 0 (length l))).
  { apply NoDup_fmap_2_strong; [|apply NoDup_seq]. intros i j _ _ Hij. unfold key in Hij.
    assert (Z.of_nat i = Z.of_nat j) by (repeat case_bool_decide; congruence). lia. }
  rewrite <- (length_seq (length l) 0), <- (length_fmap key), <- (size_list_to_set (C := gset fkey)) by done.
  rewrite <- size_dom. apply subseteq_size. intros k Hk.
  apply elem_of_list_to_set, list_elem_of_fmap in Hk as (i & -> & Hi%elem_of_seq).
  destruct (lookup_lt_is_Some_2 l i) as [rec Hl]; [lia|].
  destruct (Hrec _ _ Hl) as [_ Hr]. apply elem_of_dom. unfold key. case_bool_decide as Hfm; [done|].
  destruct rec as [d|]; [destruct Hr as [_ Hr]; by eexists|done].
Qed.

Lemma check_file_yes s k : is_Some (files s !! k) -> (_filedebug_check_file s k <? 0) = false ->
  _filedebug_check_file s k = 1.
Proof.
  unfold _filedebug_check_file. destruct (host_fail H_open k); [done|]. intros [d ->].
  by destruct (host_fail H_close k).
Qed.

Lemma check_file_no s k : files s !! k = None -> (_filedebug_check_file s k <? 0) = false ->
  _filedebug_check_file s k = 0.
Proof. unfold _filedebug_check_file. destruct (host_fail H_open k); [done|]. by intros ->. Qed.

Lemma search_eod_loop_ok p l fuel : forall s ret f2 s',
  cur_partition s = p -> dir_holds (files s) p l -> 0 <= cur_block s <= zlength l ->
  zlength l - cur_block s <= Z.of_nat fuel ->
  search_eod_loop s fuel = (ret, f2, s') -> (ret <? 0) = false ->
  f2 = true /\ s' = s <| cur_block := zlength l |>.
Proof.
  induction fuel as [|fuel IH]; intros s ret f2 s' Hp Hd Hb Hf; cbn [search_eod_loop].
  - destruct (host_fail _ _); [by intros [= <- <- <-]|].
    destruct (_ <? 0) eqn:H0; [intros [= <- <- <-]; congruence|].
    destruct (_filedebug_check_file s (cur_key s SUFFIX_FILEMARK) <? 0) eqn:H1; [intros [= <- <- <-]; congruence|].
    destruct (_filedebug_check_file s (cur_key s SUFFIX_EOD) <? 0) eqn:H2; [intros [= <- <- <-]; congruence|].
    intros [= <- <- <-] _. assert (cur_block s = zlength l) as Hbl by lia.
    destruct Hd as (_ & He & _). unfold cur_key in *. rewrite Hp, Hbl in *.
    rewrite (check_file_yes _ _ He H2). split; [done|]. by destruct s; cbn in *; subst.
  - destruct (host_fail _ _); [by intros [= <- <- <-]|].
    destruct (_ <? 0) eqn:H0; [intros [= <- <- <-]; congruence|].
    destruct (_filedebug_check_file s (cur_key s SUFFIX_FILEMARK) <? 0) eqn:H1; [intros [= <- <- <-]; congruence|].
    destruct (_filedebug_check_file s (cur_key s SUFFIX_EOD) <? 0) eqn:H2; [intros [= <- <- <-]; congruence|].
    pose proof Hd as (Hlen & He & Hrec). unfold cur_key in *. rewrite Hp in *.
    destruct (decide (cur_block s = zlength l)) as [Hbl|Hbl].
    + rewrite Hbl in H2 |- *. rewrite (check_file_yes _ _ He H2). cbn [Z.eqb negb]. rewrite andb_false_r.
      intros [= <- <- <-] _. split; [done|]. by destruct s; cbn in *; subst.
    + destruct (lookup_lt_is_Some_2 l (Z.to_nat (cur_block s))) as [rec Hl]; [unfold zlength in *; lia|].
      pose proof (Hrec _ _ Hl) as [Hne Hr]. rewrite Z2Nat.id in Hne, Hr by lia.
      rewrite (check_file_no _ _ Hne H2).
      set (go := (_ || _) && _).
      assert (go = true) as ->.
      { subst go. cbn [Z.eqb]. rewrite andb_true_r. destruct rec as [d|].
        - destruct Hr as [_ Hr]. rewrite (check_file_yes s (p, cur_block s, SUFFIX_RECORD)); [done|by eexists|done].
        - rewrite (check_file_yes s (p, cur_block s, SUFFIX_FILEMARK)); [|done..]. apply orb_true_r. }
      intros Hrun Hret. unfold next_block in Hrun. rewrite u64_small in Hrun by lia.
      apply IH in Hrun as [-> ->]; cbn; try done; try lia.
Qed.

(** After the search the end of data is known and the files are the same log. *)
Lemma search_eod_ok s p l ret s' :
  (p = 0 \/ p = 1) -> dir_holds (files s) p l -> (eod s).[p] < 2 ^ 62 ->
  filedebug_search_eod s p = (ret, s') -> (ret <? 0) = false ->
  (fd_live s -> fd_live s') /\ eod s' = (eod s).[p <- zlength l] /\
  dir_holds (files s') p l /\
  (forall p' l', p' <> p -> dir_holds (files s) p' l' -> dir_holds (files s') p' l').
Proof.
  intros Hp Hd He. unfold filedebug_search_eod.
  set (s0 := s <| cur_partition := p |> <| cur_block := 0 |>).
  destruct (search_eod_loop s0 (size (files s0))) as [[r f2] s1] eqn:Hs.
  destruct (r <? 0) eqn:Hr; [intros [= <- <-]; congruence|].
  pose proof (dir_holds_size _ _ _ Hd) as Hsz. pose proof Hd as (Hlen & _).
  assert (Hfuel : zlength l - cur_block s0 <= Z.of_nat (size (files s0)))
    by (unfold zlength; cbn [s0 cur_block files set_field]; lia).
  destruct (search_eod_loop_ok p l _ s0 _ _ _ eq_refl Hd (conj (Z.le_refl 0) (zlength_nonneg l)) 
    Hfuel Hs Hr) as [-> ->]. cbn [negb andb].
  destruct (_filedebug_write_eod _) as [r2 s2] eqn:Hw.
  destruct (r2 <? 0) eqn:Hr2; intros [= <- <-] Hret; [congruence|].
  pose proof (zlength_nonneg l).
  assert (Hcp : cur_partition (s0 <| cur_block := zlength l |>) = p) by reflexivity.
  destruct (write_eod_ok p (zlength l) (s0 <| cur_block := zlength l |>) s2 r2 Hcp eq_refl ltac:(lia) He Hw Hr2)
    as (_ & Hlive & _ & _ & Heod & Hag & Hmark).
  cbn in Heod, Hag. split_and!; [intros Hl; by apply Hlive|done| |].
  - split_and!; [done..|]. intros i rec Hi. destruct Hd as (_ & _ & Hrec). specialize (Hrec _ _ Hi).
    apply lookup_lt_Some in Hi. unfold rec_at, zlength in *. rewrite !Hag by (done || right; lia). done.
  - intros p' l' Hne (Hl' & Hm' & Hrec'). split_and!; [done|by rewrite Hag by (done || left; done)|].
    intros i rec Hi. specialize (Hrec' _ _ Hi). unfold rec_at in *. rewrite !Hag by (done || left; done). done.
Qed.

(** The state in which [filedebug_load] looks for the end of data. *)
Definition cartridge_in (s : filedebug_data) (dir : fstore) (c : filedebug_conf) : filedebug_data :=
  snd (configure_readonly (snd (_sanitize_tape
    (s <| files := dir |> <| conf := c |> <| ready := true |>
       <| unsupported_tape := false |> <| unsupported_format := false |>)))).

(** The drive takes the cartridge: neither its type nor its format is foreign. *)
Definition drive_takes (s : filedebug_data) (dir : fstore) (c : filedebug_conf) : Prop :=
  unsupported_tape (cartridge_in s dir c) = false /\ unsupported_format (cartridge_in s dir c) = false.

(** Fields that the two checks leave alone. *)
Definition same_tape (s s' : filedebug_data) : Prop :=
  files s' = files s /\ conf s' = conf s /\ eod s' = eod s /\ ready s' = ready s /\
  force_writeperm s' = force_writeperm s /\ force_readperm s' = force_readperm s.

Lemma sanitize_same s : same_tape s (snd (_sanitize_tape s)).
Proof.
  unfold _sanitize_tape, sanitize_lto, sanitize_jag. by repeat case_match.
Qed.

Lemma configure_same s : same_tape s (snd (configure_readonly s)).
Proof. unfold configure_readonly. by repeat case_match. Qed.

Lemma get_wp_quiet p b s r wp s' : _get_wp s = (r, wp, s') -> quiet p b s s'.
Proof.
  unfold _get_wp. destruct (filedebug_read_attribute _ _ _ _) as [r1 d].
  destruct (r1 =? 0); [by intros [= _ _ <-]|].
  destruct (_set_wp s 1) as [r2 s2] eqn:Hw. intros [= _ _ <-]. eapply write_attributes_quiet, Hw.
Qed.

Lemma dir_holds_agree p b p' l f f' :
  before_agree p b f f' -> p' <> p \/ zlength l < b -> dir_holds f p' l -> dir_holds f' p' l.
Proof.
  intros Hag Hb (Hl & Hm & Hrec). split_and!; [done|by rewrite Hag|].
  intros i rec Hi. specialize (Hrec _ _ Hi). apply lookup_lt_Some in Hi.
  unfold rec_at, zlength in *. assert (Hb' : p' <> p \/ Z.of_nat i < b) by lia.
  rewrite !Hag by done. done.
Qed.

(** The medium with the two logs and the head at the beginning of the tape. *)
Definition rewound (l0 l1 : list tape_record) : medium :=
  {| m_log := fun p => if p =? 0 then l0 else if p =? 1 then l1 else []; m_part := 0; m_block := 0 |}.

Lemma filedebug_load_ok s dir c pos r s' pos' l0 l1 :
  ready s = false -> force_writeperm s = 0 -> force_readperm s = 0 -> dummy_io c = false ->
  (eod s).[0] < 2 ^ 62 -> (eod s).[1] < 2 ^ 62 -> drive_takes s dir c ->
  dir_holds dir 0 l0 -> dir_holds dir 1 l1 ->
  filedebug_load s (inr (dir, c)) pos = (r, s', pos') -> 0 <= r ->
  r = 0 /\ fd_rep s' (rewound l0 l1) /\ at_head (rewound l0 l1) pos'.
Proof.
  intros Hrdy Hfw Hfr Hdum He0 He1 Htakes Hd0 Hd1. unfold filedebug_load. rewrite Hrdy.
  set (sA := s <| files := dir |> <| conf := c |> <| ready := true |>
               <| unsupported_tape := false |> <| unsupported_format := false |>).
  destruct (_sanitize_tape sA) as [r1 s1] eqn:E1.
  destruct (r1 <? 0) eqn:Hr1; [intros [= <- _ _] ?; bsplit; lia|].
  destruct (configure_readonly s1) as [r2 s2] eqn:E2.
  destruct (r2 <? 0) eqn:Hr2; [intros [= <- _ _] ?; bsplit; lia|].
  assert (Hs2 : s2 = cartridge_in s dir c) by (unfold cartridge_in; fold sA; by rewrite E1; cbn; rewrite E2).
  pose proof (sanitize_same sA) as HsA. rewrite E1 in HsA. cbn [snd] in HsA.
  pose proof (configure_same s1) as Hs1. rewrite E2 in Hs1. cbn [snd] in Hs1.
  destruct HsA as (F1 & C1 & D1 & R1 & W1 & P1). destruct Hs1 as (F2 & C2 & D2 & R2 & W2 & P2).
  assert (Hlive2 : fd_live s2).
  { unfold drive_takes in Htakes. rewrite <- Hs2 in Htakes. unfold fd_live. split_and!; try apply Htakes.
    - by rewrite R2, R1. - by rewrite C2, C1. - by rewrite W2, W1. - by rewrite P2, P1. }
  rewrite F1 in F2. rewrite D1 in D2. cbn in F2, D2.
  destruct (filedebug_search_eod s2 0) as [r3 s3] eqn:E3.
  destruct (r3 <? 0) eqn:Hr3; [intros [= <- _ _] Hneg; neg_ret Hneg|].
  destruct (search_eod_ok s2 0 l0 r3 s3 ltac:(auto) ltac:(by rewrite F2) ltac:(by rewrite D2) E3 Hr3)
    as (L3 & D3 & H30 & H31).
  assert (Hd1' : dir_holds (files s3) 1 l1) by (apply H31; [done|by rewrite F2]).
  destruct (filedebug_search_eod s3 1) as [r4 s4] eqn:E4.
  destruct (r4 <? 0) eqn:Hr4; [intros [= <- _ _] Hneg; neg_ret Hneg|].
  destruct (search_eod_ok s3 1 l1 r4 s4 ltac:(auto) Hd1' ltac:(rewrite D3, D2; cbn; done) E4 Hr4)
    as (L4 & D4 & H41 & H40).
  specialize (H40 0 l0 ltac:(done) H30). pose proof (L4 (L3 Hlive2)) as Hlive4.
  pose proof Hlive4 as (_ & _ & _ & Hdum4 & _). rewrite Hdum4.
  set (s5 := _ <| partitions := _ |>).
  destruct (_get_wp s5) as [[r6 wp] s6] eqn:E6.
  destruct (r6 =? 0); cbn [negb]; intros [= <- <- <-] Hpos; [|by vm_compute in Hpos].
  pose proof (get_wp_quiet 2 0 _ _ _ _ E6) as (L6 & P6 & B6 & D6 & A6).
  set (s7 := set_thresholds _).
  assert (Hs7 : files s7 = files s6 /\ eod s7 = eod s6 /\ cur_partition s7 = cur_partition s6 /\
    cur_block s7 = cur_block s6 /\ (fd_live s6 -> fd_live s7))
    by (subst s7; unfold set_thresholds; cbn; by destruct (partitions s6 =? 2)).
  destruct Hs7 as (F7 & D7 & P7 & B7 & L7). clearbody s7.
  assert (Heod : eod s7 = (zlength l0, zlength l1)) by (rewrite D7, D6; cbn; by rewrite D4, D3).
  assert (Hd07 : dir_holds (files s7) 0 l0)
    by (rewrite F7; eapply (dir_holds_agree 2 0); [done|by left|exact H40]).
  assert (Hd17 : dir_holds (files s7) 1 l1)
    by (rewrite F7; eapply (dir_holds_agree 2 0); [done|by left|exact H41]).
  split; [done|]. split; [|done]. split; [apply L7, L6, Hlive4|].
  split; [split; [by left|split; [done|apply zlength_nonneg]]|].
  split; [by rewrite P7, P6|]. split; [by rewrite B7, B6|].
  split; unfold part_rep; rewrite Heod; (split; [done|assumption]).
Qed.

(** C30: a tape keeps its contents over an unload and a load.  When the tape is
    unloaded and the same cartridge is loaded again, successfully and in the
    drive that took it before, the drive finds both logs as they were, with the
    end of data of each partition, and is positioned at the beginning of
    partition 0. *)
Theorem filedebug_reload_keeps_tape s m pos1 s1 pos2 r s' pos' :
  fd_rep s m -> drive_takes s1 (files s) (conf s) ->
  filedebug_unload s pos1 = (0, s1, pos2) ->
  filedebug_load s1 (inr (files s1, conf s1)) pos2 = (r, s', pos') -> 0 <= r ->
  r = 0 /\ exists m', fd_rep s' m' /\ at_head m' pos' /\ m_part m' = 0 /\ m_block m' = 0 /\
    forall p, p = 0 \/ p = 1 -> m_log m' p = m_log m p.
Proof.
  intros ((_ & _ & _ & Hdum & _) & _ & _ & _ & R0 & R1) Htakes. unfold filedebug_unload. rewrite Hdum.
  destruct (host_fail H_asprintf CARTRIDGE_CONFIG); [done|]. intros [= <- <-] Hload Hr.
  destruct R0 as (E0 & Hl0 & M0 & Hrec0), R1 as (E1 & Hl1 & M1 & Hrec1).
  apply (filedebug_load_ok _ _ _ _ _ _ _ (m_log m 0) (m_log m 1)) in Hload; try done;
    try (by split_and!).
  2: { change ((eod s).[0] < 2 ^ 62). lia. } 2: { change ((eod s).[1] < 2 ^ 62). lia. }
  destruct Hload as (-> & Hrep & Hpos).
  split; [done|]. exists (rewound (m_log m 0) (m_log m 1)). split_and!; try done.
  intros p [->| ->]; done.
Qed.
End props.

(** ** Witnesses *)

Definition bot : tc_position := mk_position 0 0 0 false false.

(** The blank tape after a record and a filemark were written to it. *)
Definition two_records : filedebug_data :=
  (filedebug_writefm (filedebug_write blank_tape [1; 2; 3] bot).1.2 1 (mk_position 1 0 0 false false) false).1.2.

Lemma filedebug_refines_medium_witness :
  exists m', medium_run blank_medium [CmdWrite [1; 2; 3]; CmdFilemarks 1; CmdLocate 0 0; CmdRead 10]
      [[1; 2; 3]; []; []; [1; 2; 3]] m' /\ m_block m' = 1.
Proof.
  pose (s2 := two_records).
  pose (s3 := (filedebug_locate s2 (mk_position 0 0 0 false false) (mk_position 2 1 0 false false)).1.2).
  pose (p3 := (filedebug_locate s2 (mk_position 0 0 0 false false) (mk_position 2 1 0 false false)).2).
  pose (s4 := (filedebug_read s3 10 p3 false).1.1.2). pose (p4 := (filedebug_read s3 10 p3 false).1.2).
  destruct (filedebug_refines_medium (H := sane_host) (blank_tape, bot)
    [CmdWrite [1; 2; 3]; CmdFilemarks 1; CmdLocate 0 0; CmdRead 10] [[1; 2; 3]; []; []; [1; 2; 3]] (s4, p4)
    blank_medium) as (m' & Hrun & Hrep & Hpos).
  - apply br_cons with (c1 := ((filedebug_write blank_tape [1; 2; 3] bot).1.2, mk_position 1 0 0 false false)).
    { refine (bs_write _ _ [1; 2; 3] 3 _ _ _ _ _ _); [discriminate|reflexivity|vm_compute; reflexivity|discriminate]. }
    apply br_cons with (c1 := (s2, mk_position 2 1 0 false false)).
    { apply (bs_filemarks _ _ _ false 0); [reflexivity|reflexivity|vm_compute; reflexivity|discriminate]. }
    apply br_cons with (c1 := (s3, p3)).
    { apply (bs_locate _ _ _ _ 0); [discriminate|discriminate|vm_compute; reflexivity|discriminate]. }
    apply br_cons with (c1 := (s4, p4)).
    { apply (bs_read _ _ _ false 3); [discriminate|vm_compute; reflexivity|discriminate]. }
    apply br_nil.
  - apply blank_rep.
  - split; reflexivity.
  - exists m'. split; [exact Hrun|]. destruct Hpos as [_ <-]. reflexivity.
Defined.

Lemma two_records_rep : exists m, fd_rep two_records m /\ m_log m 0 = [TData [1; 2; 3]; TFilemark].
Proof.
  destruct (filedebug_write blank_tape [1; 2; 3] bot) as [[r s] pos] eqn:Hw.
  destruct (filedebug_write_ok (H := sane_host) (fun _ _ => eq_refl) blank_tape blank_medium [1; 2; 3] bot r s pos) as [Hrep Hpos].
  - apply blank_rep. - split; reflexivity. - reflexivity. - discriminate. - exact Hw.
  - replace r with 3; [lia|]. vm_compute in Hw. congruence.
  - destruct (filedebug_writefm s 1 pos false) as [[r2 s2] pos2] eqn:Hf.
    assert (s2 = two_records /\ r2 = 0) as [-> ->]
      by (unfold two_records; vm_compute in Hw; injection Hw as <- <- <-; vm_compute in Hf |- *;
          injection Hf as <- <- _; done).
    destruct (filedebug_writefm_ok s _ 1 pos false 0 two_records pos2 Hrep Hpos) as (_ & Hrep2 & _);
      [lia|reflexivity|exact Hf|lia|].
    eexists. split; [exact Hrep2|]. reflexivity.
Qed.

Lemma filedebug_reload_keeps_tape_witness :
  exists s' m', fd_rep s' m' /\ m_log m' 0 = [TData [1; 2; 3]; TFilemark].
Proof.
  destruct two_records_rep as (m & Hrep & Hlog).
  pose (s1 := (filedebug_unload two_records bot).1.2).
  pose (res := filedebug_load s1 (inr (files s1, conf s1)) bot).
  destruct (filedebug_reload_keeps_tape two_records m bot s1 bot 0 res.1.2 res.2)
    as (_ & m' & Hrep' & _ & _ & _ & Hl).
  - exact Hrep.
  - split; vm_compute; reflexivity.
  - vm_compute. reflexivity.
  - vm_compute. reflexivity.
  - discriminate.
  - exists res.1.2, m'. split; [exact Hrep'|]. rewrite Hl; [exact Hlog|left; reflexivity].
Defined.
