(* ===== verification/TapeLayer.v ===== *)
(** * The tape layer (src/libltfs/tape.c)

    The functions every other part of libltfs uses to reach the drive: they
    keep the last known position, the append position of each partition and
    the reasons why the medium may not be written.  The state is
    [struct device_data]; the drive is any instance of [TapeOps].

    Not in the model: argument [NULL] checks (a model value is never null) and
    the mutexes around single assignments.  [now] is the clock reading of the
    call; one call reads the clock once. *)

From S2P Require Import Prelude LtfsError TapeOps.

(** ** State *)

Inductive partition_status := PART_WRITABLE | PART_LESS_SPACE | PART_NO_SPACE.

#[export] Instance partition_status_eq_dec : EqDecision partition_status.
Proof. solve_decision. Defined.

(** [struct ltfs_timespec] and [timer_sub]. *)
Record ltfs_timespec := mk_time { tv_sec : Z; tv_nsec : Z }.

Definition timer_sub (a b : ltfs_timespec) : ltfs_timespec :=
  let nsec := tv_nsec a - tv_nsec b in
  if nsec <? 0 then mk_time (tv_sec a - tv_sec b - 1) (nsec + 1000000000)
  else mk_time (tv_sec a - tv_sec b) nsec.

(** [struct device_data]. *)
Record device_data (S : Type) := mk_device {
  position : tc_position;
  append_pos : arr2 Z;
  max_block_size : Z;
  partition_space : arr2 partition_status;
  write_protected : Z;
  write_error : bool;
  medium_modified : bool;
  device_reserved : bool;
  medium_locked : bool;
  fence : bool;
  append_only_mode : bool;
  previous_exist : ltfs_timespec;
  capacity : tc_remaining_cap;
  capacity_time : ltfs_timespec;
  capacity_written : Z;
  capacity_valid : bool;
  backend_data : S;
}.

Arguments mk_device {S}.
Arguments position {S}. Arguments append_pos {S}. Arguments max_block_size {S}.
Arguments partition_space {S}. Arguments write_protected {S}. Arguments write_error {S}.
Arguments medium_modified {S}. Arguments device_reserved {S}. Arguments medium_locked {S}.
Arguments fence {S}. Arguments append_only_mode {S}. Arguments previous_exist {S}.
Arguments capacity {S}. Arguments capacity_time {S}. Arguments capacity_written {S}.
Arguments capacity_valid {S}. Arguments backend_data {S}.

#[export] Instance eta_device {S} : Eta (device_data S) := fun d =>
  mk_device (position d) (append_pos d) (max_block_size d) (partition_space d)
    (write_protected d) (write_error d) (medium_modified d) (device_reserved d)
    (medium_locked d) (fence d) (append_only_mode d) (previous_exist d) (capacity d)
    (capacity_time d) (capacity_written d) (capacity_valid d) (backend_data d).

Definition VOL_FORCE_READ_ONLY : Z := 0x100000000.
Definition TAPE_CAPACITY_REFRESH_BYTES : Z := 1024 * 1024 * 1024.
Definition TAPE_CAPACITY_REFRESH_SEC : Z := 10.

Section tape.
Context {S : Type} `{TapeOps S}.
Implicit Types d : device_data S.

(** The backend's answer: its private data and the position it filled in. *)
Definition after_op d (s : S) (pos : tc_position) : device_data S :=
  d <| backend_data := s |> <| position := pos |>.

Definition _tape_medium_seen (now : ltfs_timespec) d : device_data S :=
  d <| previous_exist := now |>.

Definition _tape_capacity_forget d : device_data S :=
  d <| capacity_valid := false |> <| capacity_written := 0 |>.

(** ** The fence *)

(** [tape_device_lock]; [mutex_ok] tells whether the mutex could be taken. *)
Definition tape_device_lock (mutex_ok : bool) d : Z :=
  if negb mutex_ok then - LTFS_MUTEX_INVALID
  else if fence d then - LTFS_DEVICE_FENCED
  else 0.

Definition tape_start_fence d : Z * device_data S := (0, d <| fence := true |>).
Definition tape_release_fence d : Z * device_data S := (0, d <| fence := false |>).

(** ** Reservation and the medium lock

    [do { ret = op } while (NEED_REVAL(ret))] repeats until the drive answers
    something else; [None] stands for a drive that never does within [fuel]. *)
Fixpoint until_reval (fuel : nat) (op : S -> Z * S) (s : S) : option (Z * S) :=
  match fuel with
  | O => None
  | Datatypes.S fuel' =>
      let '(ret, s') := op s in
      if NEED_REVAL ret then until_reval fuel' op s' else Some (ret, s')
  end.

Definition tape_reserve_device (fuel : nat) d : option (Z * device_data S) :=
  if device_reserved d then Some (0, d)
  else match until_reval fuel op_reserve_unit (backend_data d) with
       | None => None
       | Some (ret, s) =>
           let d := d <| backend_data := s |> in
           if ret =? 0 then Some (0, d <| device_reserved := true |>)
           else Some (if ret <? 0 then ret else - ret, d)
       end.

Definition tape_release_device (fuel : nat) d : option (device_data S) :=
  if negb (device_reserved d) then Some d
  else match until_reval fuel op_release_unit (backend_data d) with
       | None => None
       | Some (ret, s) => Some (d <| backend_data := s |> <| device_reserved := negb (ret =? 0) |>)
       end.

Definition tape_prevent_medium_removal (fuel : nat) d : option (Z * device_data S) :=
  if medium_locked d then Some (0, d)
  else match until_reval fuel op_prevent_medium_removal (backend_data d) with
       | None => None
       | Some (ret, s) =>
           let d := d <| backend_data := s |> in
           if ret =? 0 then Some (0, d <| medium_locked := true |>)
           else Some (if ret <? 0 then ret else - ret, d)
       end.

Definition tape_allow_medium_removal (fuel : nat) d (force_release : bool)
    : option (device_data S) :=
  if negb (medium_locked d || force_release) then Some d
  else match until_reval fuel op_allow_medium_removal (backend_data d) with
       | None => None
       | Some (ret, s) => Some (d <| backend_data := s |> <| medium_locked := negb (ret =? 0) |>)
       end.

(** ** Readiness and capacity *)

Definition tape_test_unit_ready (now : ltfs_timespec) d : Z * device_data S :=
  if tv_sec (timer_sub now (previous_exist d)) =? 0 then (0, d)
  else
    let '(ret, s) := op_test_unit_ready (backend_data d) in
    let d := d <| backend_data := s |> in
    if ret <? 0 then (ret, d) else (ret, d <| previous_exist := now |>).

(** Result, capacity, device. [cap] is the caller's buffer. *)
Definition tape_get_capacity (now : ltfs_timespec) d (cap : tc_remaining_cap)
    : Z * tc_remaining_cap * device_data S :=
  if capacity_valid d && (capacity_written d <? TAPE_CAPACITY_REFRESH_BYTES) &&
     ((capacity_written d =? 0) ||
      (tv_sec (timer_sub now (capacity_time d)) <? TAPE_CAPACITY_REFRESH_SEC))
  then (0, capacity d, d)
  else
    let '(ret, s, cap) := op_remaining_capacity (backend_data d) cap in
    let d := d <| backend_data := s |> in
    if ret <? 0 then (ret, cap, d)
    else (0, cap,
          _tape_medium_seen now
            (d <| capacity := cap |> <| capacity_time := now |> <| capacity_written := 0 |>
               <| capacity_valid := true |>)).

(** ** Read-only state *)

Definition tape_read_only d (part : Z) : Z :=
  let ret :=
    if negb (write_protected d =? 0) then - LTFS_WRITE_PROTECT
    else if write_error d then - LTFS_WRITE_ERROR
    else match (partition_space d).[part] with
         | PART_WRITABLE => 0
         | PART_LESS_SPACE => - LTFS_LESS_SPACE
         | PART_NO_SPACE => - LTFS_NO_SPACE
         end in
  if (ret =? 0) && op_is_readonly (backend_data d) then - LTFS_RDONLY_DEN_DRV else ret.

(** [write_protected] is an [unsigned int]. *)
Definition tape_force_read_only d : Z * device_data S :=
  (0, d <| write_protected := u32 (Z.lor (write_protected d) VOL_FORCE_READ_ONLY) |>).

(** ** Moving *)

Definition space_of d : partition_status := (partition_space d).[partition (position d)].

Definition set_space (st : partition_status) d : device_data S :=
  d <| partition_space := (partition_space d).[partition (position d) <- st] |>.

(** What a locate tells about the space left. *)
Definition note_warnings d : device_data S :=
  let d := if early_warning (position d) then set_space PART_NO_SPACE d else d in
  if negb (bool_decide (space_of d = PART_NO_SPACE)) && programmable_early_warning (position d)
  then set_space PART_LESS_SPACE d else d.

Definition tape_rewind (now : ltfs_timespec) d : Z * device_data S :=
  let '(ret, s, pos) := op_rewind (backend_data d) (position d) in
  let d := after_op d s pos in
  if ret <? 0 then (ret, d) else (ret, _tape_medium_seen now d).

Definition tape_seek (now : ltfs_timespec) d (pos : tc_position) : Z * device_data S :=
  let '(ret, d) :=
    if ((partition pos =? 0) && (block pos =? 0)) ||
       negb (partition pos =? partition (position d)) || negb (block pos =? block (position d))
    then
      let '(ret, s, p) := op_locate (backend_data d) pos (position d) in
      let d := after_op d s p in
      (ret, if ret <? 0 then d else note_warnings d)
    else (0, d) in
  let ret := if IS_WRITE_PERM (- ret) then - LTFS_LOCATE_ERROR else ret in
  let ret :=
    if (ret =? 0) &&
       (negb (partition (position d) =? partition pos) ||
        (negb (block pos =? TAPE_BLOCK_MAX) && negb (block pos =? block (position d))))
    then - LTFS_BAD_LOCATE else ret in
  (ret, if ret =? 0 then _tape_medium_seen now d else d).

Definition eod_position (part : Z) : tc_position := mk_position TAPE_BLOCK_MAX 0 part false false.

Definition tape_seek_eod (now : ltfs_timespec) d (part : Z) : Z * device_data S :=
  if 1 <? part then (- LTFS_BAD_PARTNUM, d)
  else
    let '(ret, s, p) := op_locate (backend_data d) (eod_position part) (position d) in
    let d := after_op d s p in
    if ret <? 0 then (if IS_WRITE_PERM (- ret) then - LTFS_LOCATE_ERROR else ret, d)
    else if negb (part =? partition (position d)) then (- LTFS_BAD_LOCATE, d)
    else
      let d := note_warnings d in
      let d := d <| append_pos := (append_pos d).[part <- block (position d)] |> in
      (0, _tape_medium_seen now d).

Definition tape_spacefm (now : ltfs_timespec) d (count : Z) : Z * device_data S :=
  let '(ret, s, pos) :=
    if 0 <? count then op_space (backend_data d) count TC_SPACE_FM_F (position d)
    else op_space (backend_data d) (- count) TC_SPACE_FM_B (position d) in
  let d := after_op d s pos in
  (ret, if ret <? 0 then d else _tape_medium_seen now d).

Definition tape_update_position d : Z * device_data S * tc_position :=
  let '(ret, s, pos) := op_readpos (backend_data d) (position d) in
  (if ret <? 0 then ret else 0, after_op d s pos, pos).

Definition tape_get_first_untransfered_position d (pos : tc_position)
    : Z * device_data S * tc_position :=
  let '(ret, s, p) := op_readpos (backend_data d) (position d) in
  let d := after_op d s p in
  if ret <? 0 then (ret, d, pos)
  else
    let '(ret, s, pos) := op_get_next_block_to_xfer (backend_data d) pos in
    (if ret <? 0 then ret else 0, d <| backend_data := s |>, pos).

Definition tape_locate_next_index (now : ltfs_timespec) d : Z * device_data S :=
  tape_spacefm now d 1.

Definition tape_locate_previous_index (now : ltfs_timespec) d : Z * device_data S :=
  let '(ret, d) := tape_spacefm now d (-4) in
  if ret =? 0 then tape_spacefm now d 1 else (ret, d).

Definition tape_locate_first_index (now : ltfs_timespec) d (part : Z) : Z * device_data S :=
  let '(ret, d) := tape_seek now d (mk_position 4 0 part false false) in
  if ret =? 0 then tape_spacefm now d 1 else (ret, d).

Definition tape_locate_last_index (now : ltfs_timespec) d (part : Z) : Z * device_data S :=
  let '(ret, d) := tape_seek_eod now d part in
  if negb (ret =? 0) then (ret, d)
  else
    let '(ret, d) := tape_spacefm now d (-2) in
    if ret =? 0 then tape_spacefm now d 1 else (ret, d).

(** ** Append positions *)

Definition tape_get_append_position d (prt : Z) : Z * Z :=
  if 1 <? prt then (- LTFS_BAD_PARTNUM, 0) else (0, (append_pos d).[prt]).

Definition tape_set_append_position d (prt block : Z) : Z * device_data S :=
  if 1 <? prt then (- LTFS_BAD_PARTNUM, d)
  else (0, d <| append_pos := (append_pos d).[prt <- block] |>).

Definition tape_set_ip_append_position d (prt block : Z) : Z * device_data S :=
  let '(ret, is_worm) := op_get_worm_status (backend_data d) in
  if (ret =? 0) && is_worm then tape_set_append_position d prt 0
  else tape_set_append_position d prt block.

Definition tape_seek_append_position (now : ltfs_timespec) d (prt : Z) (unlock_write : bool)
    : Z * device_data S :=
  let b := (append_pos d).[prt] in
  let b := if b =? 0 then TAPE_BLOCK_MAX else b in
  let '(ret, d) := tape_seek now d (mk_position b 0 prt false false) in
  if ret <? 0 then (ret, d <| write_error := true |>)
  else
    let '(ret, d) :=
      if unlock_write && append_only_mode d && negb (b =? TAPE_BLOCK_MAX) then
        let '(ret, s) := op_allow_overwrite (backend_data d) (position d) in
        (ret, d <| backend_data := s |>)
      else (ret, d) in
    (ret, if (append_pos d).[prt] =? 0
          then d <| append_pos := (append_pos d).[prt <- block (position d)] |> else d).

(** ** Reading and writing *)

(** The checks a write passes before the backend is called. *)
Definition write_refusal d (ignore_less ignore_nospc : bool) : Z :=
  if negb (write_protected d =? 0) then - LTFS_WRITE_PROTECT
  else if write_error d then - LTFS_WRITE_ERROR
  else if bool_decide (space_of d = PART_NO_SPACE) && negb ignore_nospc then - LTFS_NO_SPACE
  else if bool_decide (space_of d = PART_LESS_SPACE) && negb ignore_less then - LTFS_LESS_SPACE
  else 0.

(** A "real" write error refuses all further writes. *)
Definition note_write_error (ret : Z) d : device_data S :=
  if NEED_REVAL ret then d else d <| write_error := true |>.

(** The early warnings of a successful write; [ret] is replaced when the caller
    does not ignore them. *)
Definition note_write_space (ret : Z) (ignore_less ignore_nospc : bool) d : Z * device_data S :=
  if early_warning (position d) then
    (if ignore_nospc then ret else - LTFS_NO_SPACE, set_space PART_NO_SPACE d)
  else if programmable_early_warning (position d) then
    (if ignore_less then ret else - LTFS_LESS_SPACE, set_space PART_LESS_SPACE d)
  else (ret, d).

Definition note_append_pos d : device_data S :=
  d <| append_pos := (append_pos d).[partition (position d) <- block (position d)] |>.

Definition tape_write (now : ltfs_timespec) d (buf : list Z) (ignore_less ignore_nospc : bool)
    : Z * device_data S :=
  let count := zlength buf in
  let ret := write_refusal d ignore_less ignore_nospc in
  let ret := if (ret =? 0) && (max_block_size d <? count) then - LTFS_LARGE_BLOCKSIZE else ret in
  if ret <? 0 then (ret, d)
  else
    let '(ret, s, pos) := op_write (backend_data d) buf (position d) in
    let d := after_op d s pos in
    if ret <? 0 then (ret, note_write_error ret d)
    else
      let d := _tape_medium_seen now d in
      let d := d <| capacity_written := capacity_written d ⊞ count |>
                 <| medium_modified := true |> in
      let d := if early_warning (position d) || programmable_early_warning (position d)
               then _tape_capacity_forget d else d in
      let '(ret, d) := note_write_space count ignore_less ignore_nospc d in
      (ret, note_append_pos d).

Definition tape_write_filemark (now : ltfs_timespec) d (count : Z)
    (ignore_less ignore_nospc immed : bool) : Z * device_data S :=
  let ret := write_refusal d ignore_less ignore_nospc in
  if ret <? 0 then (ret, d)
  else
    let '(ret, s, pos) := op_writefm (backend_data d) count (position d) immed in
    let d := after_op d s pos in
    if ret <? 0 then (ret, note_write_error ret d)
    else
      let d := _tape_capacity_forget (_tape_medium_seen now d) in
      let d := if count =? 0 then d else d <| medium_modified := true |> in
      let '(ret, d) :=
        if (ret =? 0) && negb immed && negb (count =? 0) then
          let '(ret, s, pos) := op_writefm (backend_data d) 0 (position d) false in
          (ret, after_op d s pos)
        else (ret, d) in
      if ret <? 0 then (ret, note_write_error ret d)
      else
        let '(ret, d) := note_write_space ret ignore_less ignore_nospc d in
        (ret, note_append_pos d).

(** [fetch_key], when a key manager is attached, asks it for the key of the
    data under the head and sets it in the drive; [None] is a failure. *)
Definition tape_read (now : ltfs_timespec) (fetch_key : option (S -> option S)) d (count : Z)
    (unusual_size : bool) : Z * list Z * device_data S :=
  let '(ret, s, pos, buf) := op_read (backend_data d) count (position d) unusual_size in
  let d := after_op d s pos in
  let '(ret, buf, d) :=
    match fetch_key with
    | Some fetch =>
        if (ret =? - EDEV_CRYPTO_ERROR) || (ret =? - EDEV_KEY_REQUIRED) then
          match fetch (backend_data d) with
          | Some s =>
              let '(ret, s, pos, buf) := op_read s count (position d) unusual_size in
              (ret, buf, after_op d s pos)
          | None => (ret, buf, d)
          end
        else (ret, buf, d)
    | None => (ret, buf, d)
    end in
  (ret, buf, if ret <? 0 then d else _tape_medium_seen now d).

Definition tape_erase (now : ltfs_timespec) d (long_erase : bool) : Z * device_data S :=
  let d := _tape_capacity_forget d in
  let '(ret, s, pos) := op_erase (backend_data d) (position d) long_erase in
  let d := after_op d s pos in
  if ret <? 0 then (ret, d)
  else (ret, (_tape_medium_seen now d) <| medium_modified := true |>).

End tape.

(** ** What the functions guarantee *)

Section guarantees.
Context {S : Type} `{TapeLaws S}.
Implicit Types d : device_data S.

(** The drive holds the medium [m] and the cached position is the head. *)
Definition dev_ok d (m : medium) : Prop :=
  tape_rep (backend_data d) m /\ at_head m (position d).

(** Bookkeeping that changes neither the drive nor the cached position. *)
Definition same_drive d d' : Prop :=
  backend_data d' = backend_data d /\ position d' = position d.

Lemma dev_ok_same d d' m : same_drive d d' -> dev_ok d m -> dev_ok d' m.
Proof. unfold dev_ok. by intros [-> ->]. Qed.

Lemma note_warnings_frame d :
  same_drive d (note_warnings d) /\ append_pos (note_warnings d) = append_pos d /\
  write_error (note_warnings d) = write_error d /\
  write_protected (note_warnings d) = write_protected d.
Proof.
  unfold note_warnings. destruct (early_warning _); destruct (negb _ && _); done.
Qed.

Lemma note_write_space_frame ret il ins d r d' :
  note_write_space ret il ins d = (r, d') ->
  same_drive d d' /\ append_pos d' = append_pos d /\ write_error d' = write_error d /\
  write_protected d' = write_protected d /\
  (r = ret \/ r = - LTFS_NO_SPACE \/ r = - LTFS_LESS_SPACE).
Proof.
  unfold note_write_space. intros E.
  destruct (early_warning _); [|destruct (programmable_early_warning _)];
    injection E as <- <-; destruct il, ins; by split_and!; auto.
Qed.

(** The result of a write that reached the medium: success, or a warning that
    the caller asked to be told. *)
Definition written (r ok : Z) : Prop :=
  r = ok \/ r = - LTFS_NO_SPACE \/ r = - LTFS_LESS_SPACE.

(** Either the write was refused or failed in the backend, or the record is on
    the medium behind the old head and everything before it is kept. *)
Lemma tape_write_cases now d m buf il ins r d' :
  dev_ok d m -> m_block m + 1 < 2 ^ 62 -> buf <> [] ->
  tape_write now d buf il ins = (r, d') ->
  (r < 0 /\ d' = d) \/
  (r < 0 /\ exists s pos, op_write (backend_data d) buf (position d) = (r, s, pos) /\
     d' = note_write_error r (after_op d s pos)) \/
  (written r (zlength buf) /\ dev_ok d' (m_append m [TData buf]) /\
   append_pos d' = (append_pos d).[m_part m <- m_block m + 1] /\
   write_error d' = write_error d /\ write_protected d' = write_protected d).
Proof.
  intros [Hrep Hpos] Hmax Hbuf. unfold tape_write.
  set (ret := if _ && _ then _ else _). destruct (ret <? 0) eqn:Hret.
  { intros [= <- <-]. left. bsplit. done. }
  destruct (op_write _ _ _) as [[r1 s] pos] eqn:E. destruct (r1 <? 0) eqn:Hr1.
  { intros [= <- <-]. right; left. bsplit. eauto. }
  bsplit. destruct (write_law _ _ _ _ _ _ _ Hrep Hpos Hmax Hbuf E Hr1) as [Hrep' Hpos'].
  set (d1 := if _ || _ then _ else _). destruct (note_write_space _ _ _ d1) as [r2 d2] eqn:E2.
  intros [= <- <-]. right; right.
  apply note_write_space_frame in E2 as ([Hb Hp] & Ha & He & Hw & Hr).
  assert (same_drive (after_op d s pos) d1 /\ append_pos d1 = append_pos d /\
          write_error d1 = write_error d /\ write_protected d1 = write_protected d)
    as ([Hb1 Hp1] & Ha1 & He1 & Hw1) by (subst d1; by destruct (_ || _)).
  split_and!; [done| | |cbn; congruence|cbn; congruence].
  - unfold dev_ok. cbn. rewrite Hb, Hp, Hb1, Hp1. done.
  - destruct Hpos' as [Hpp Hpb]. cbn. rewrite Hp, Hp1, Ha, Ha1. cbn.
    rewrite Hpp, Hpb. done.
Qed.

(** A locate keeps both logs and ends on the requested block, or at the end of
    data when that comes first. *)
Lemma tape_seek_cases now d m pos r d' :
  dev_ok d m -> 0 <= partition pos -> 0 <= block pos ->
  tape_seek now d pos = (r, d') ->
  append_pos d' = append_pos d /\ write_error d' = write_error d /\
  write_protected d' = write_protected d /\
  (0 <= r -> r = 0 /\
     dev_ok d' (m_move m (partition pos) (Z.min (block pos) (m_eod m (partition pos)))) /\
     (block pos = TAPE_BLOCK_MAX \/ block pos <= m_eod m (partition pos))).
Proof.
  intros [Hrep Hpos] Hp0 Hb0. unfold tape_seek.
  set (go := _ || _ || _). set (res := if go then _ else _).
  assert (exists r1 d1, res = (r1, d1) /\ append_pos d1 = append_pos d /\
    write_error d1 = write_error d /\ write_protected d1 = write_protected d /\
    (0 <= r1 -> r1 = 0 /\
      dev_ok d1 (m_move m (partition pos) (Z.min (block pos) (m_eod m (partition pos))))))
    as (r1 & d1 & -> & Ha & He & Hw & Hok).
  { subst res. destruct go eqn:Hgo.
    - destruct (op_locate _ _ _) as [[r1 s] p] eqn:E. eexists _, _. split; [done|].
      pose proof (note_warnings_frame (after_op d s p)) as ([Hb Hp] & Ha & He & Hw).
      destruct (r1 <? 0) eqn:Hr1; bsplit; (split_and!; [done..|]).
      + intros; lia.
      + intros _. destruct (locate_law _ _ _ _ _ _ _ Hrep Hp0 Hb0 E Hr1) as (-> & Hrep' & Hpos').
        split; [done|]. unfold dev_ok. rewrite Hb, Hp. done.
    - eexists 0, d. split_and!; [done..|]. intros _. split; [done|].
      subst go. bsplit. destruct Hpos as [Hpp Hpb].
      pose proof (tape_rep_wf _ _ Hrep) as (_ & _ & Hle).
      replace (partition pos) with (m_part m) by congruence.
      replace (block pos) with (m_block m) by congruence.
      rewrite Z.min_l by done. by destruct m. }
  intros E. cbn zeta in E.
  assert (Hneg : r1 < 0 -> r < 0).
  { intros Hr1. injection E as <- _.
    replace (r1 =? 0) with false by lia. destruct (IS_WRITE_PERM (- r1)); [done|].
    replace (r1 =? 0) with false by lia. done. }
  assert (Hd : same_drive d1 d' /\ append_pos d' = append_pos d1 /\
               write_error d' = write_error d1 /\ write_protected d' = write_protected d1).
  { injection E as _ <-. by match goal with |- same_drive _ (if ?b then _ else _) /\ _ => destruct b end. }
  destruct Hd as (Hsame & Ha' & He' & Hw').
  split_and!; [congruence..|]. intros Hr. destruct Hok as [-> Hok]; [lia|].
  change (IS_WRITE_PERM (- 0)) with false in E. cbn [Z.eqb andb] in E.
  pose proof Hok as [_ [Hpp Hpb]]. cbn in Hpp, Hpb.
  destruct (negb (partition _ =? _) || _) eqn:Hbad; [injection E as <- _; neg_ret Hr|]. injection E as <- _.
  split; [done|]. split; [by apply (dev_ok_same d1)|].
  apply orb_false_iff in Hbad as [_ Hbad]. apply andb_false_iff in Hbad as [Hbad|Hbad]; bsplit; lia.
Qed.

Lemma dev_ok_wf d m : dev_ok d m -> m_wf m.
Proof. intros [Hrep _]. by apply (tape_rep_wf (backend_data d)). Qed.

Lemma tape_read_ok now d m count unusual r buf d' :
  dev_ok d m -> 0 <= count ->
  tape_read now None d count unusual = (r, buf, d') -> 0 <= r ->
  exists rec, m_here m = Some rec /\
    buf = match rec with TData b => take (Z.to_nat count) b | TFilemark => [] end /\
    r = zlength buf /\ dev_ok d' (m_move m (m_part m) (m_block m + 1)) /\
    append_pos d' = append_pos d /\ write_error d' = write_error d /\
    write_protected d' = write_protected d.
Proof.
  intros [Hrep Hpos] Hc. unfold tape_read.
  destruct (op_read _ _ _ _) as [[[r1 s] p] b] eqn:E. intros [= <- <- <-] Hr.
  destruct (read_law _ _ _ _ _ _ _ _ _ Hrep Hpos Hc E Hr) as (rec & Hh & Hb & Hr' & Hrep' & Hpos').
  exists rec. destruct (r1 <? 0) eqn:?; bsplit; [lia|]. by split_and!.
Qed.

Lemma tape_seek_append_cases now d m prt unlock r d' :
  dev_ok d m -> prt = 0 \/ prt = 1 -> 0 <= (append_pos d).[prt] ->
  m_eod m prt < TAPE_BLOCK_MAX ->
  tape_seek_append_position now d prt unlock = (r, d') -> 0 <= r ->
  let b := if (append_pos d).[prt] =? 0 then m_eod m prt else (append_pos d).[prt] in
  r = 0 /\ dev_ok d' (m_move m prt (Z.min b (m_eod m prt))) /\
  (b <= m_eod m prt \/ b = TAPE_BLOCK_MAX) /\
  write_error d' = write_error d /\ write_protected d' = write_protected d.
Proof.
  intros Hok Hprt Ha0 Heod. unfold tape_seek_append_position.
  set (b := if _ =? 0 then TAPE_BLOCK_MAX else _).
  destruct (tape_seek now d _) as [r1 d1] eqn:E. intros Hr Hr0.
  assert (0 <= b) by (subst b; unfold TAPE_BLOCK_MAX; case_bool; lia).
  apply (tape_seek_cases now d m) in E as (Ha & He & Hw & Hs); cbn; [|done|lia|done].
  destruct (r1 <? 0) eqn:Hr1; [injection Hr as <- <-; bsplit; lia|]. bsplit.
  destruct (Hs Hr1) as (-> & Hok1 & Hb). clear Hs. cbn in Hok1, Hb.
  set (b' := if _ =? 0 then m_eod m prt else _).
  assert (Hbb : Z.min b (m_eod m prt) = Z.min b' (m_eod m prt) /\
                (b' <= m_eod m prt \/ b' = TAPE_BLOCK_MAX)) by (subst b b'; case_bool; lia).
  destruct Hbb as [Hbb Hb'].
  set (res := if _ && _ then _ else _) in Hr.
  assert (exists r2 d2, res = (r2, d2) /\ (0 <= r2 -> r2 = 0 /\
    dev_ok d2 (m_move m prt (Z.min b (m_eod m prt)))) /\
    write_error d2 = write_error d1 /\ write_protected d2 = write_protected d1)
    as (r2 & d2 & -> & Hok2 & He2 & Hw2).
  { subst res. destruct (unlock && _ && _); [|by eexists _, _].
    destruct (op_allow_overwrite _ _) as [r2 s2] eqn:E. eexists _, _. split; [done|].
    split; [|done]. intros Hr2. destruct Hok1 as [Hrep1 Hpos1].
    destruct (allow_overwrite_law _ _ _ _ _ Hrep1 E Hr2) as [-> Hrep2]. by split. }
  injection Hr as <- <-. destruct (Hok2 Hr0) as [-> Hok3]. rewrite <- Hbb.
  split; [done|]. split; [apply (dev_ok_same d2); [by destruct ((append_pos d2).[prt] =? 0)|done]|]. split; [done|].
  destruct ((append_pos d2).[prt] =? 0); cbn; split; congruence.
Qed.
End guarantees.
