(* ===== verification/TapeProps.v ===== *)
(** * Properties of the tape layer

    What libltfs may rely on when it reads, writes and moves through
    src/libltfs/tape.c, for every backend that keeps the contract of
    [TapeLaws], and the file backend as the concrete instance. *)

From S2P Require Import Prelude LtfsError TapeOps FileDebug FileDebugLaws TapeLayer.

Section props.
Context {S : Type} `{TapeLaws S}.
Implicit Types d : device_data S.

(** C27: what is written can be read back.  If [tape_write] succeeds, [tape_seek]
    returns to the block it was written at and [tape_read] succeeds with a
    large enough buffer, the bytes read are the bytes written, for every
    backend that keeps the contract. *)
Theorem tape_write_read_back now d m buf il ins r1 d1 pos d2 count r3 buf' d3 :
  dev_ok d m -> m_block m + 1 < 2 ^ 62 -> buf <> [] -> zlength buf <= count ->
  tape_write now d buf il ins = (r1, d1) -> 0 <= r1 ->
  partition pos = m_part m -> block pos = m_block m ->
  tape_seek now d1 pos = (0, d2) ->
  tape_read now None d2 count false = (r3, buf', d3) -> 0 <= r3 ->
  r1 = zlength buf /\ r3 = zlength buf /\ buf' = buf.
Proof.
  intros Hok Hmax Hbuf Hc Hw Hr1 Hpp Hpb Hs Hrd Hr3.
  pose proof (dev_ok_wf _ _ Hok) as Hwf. pose proof Hwf as (Hpart & Hb0 & _).
  destruct (tape_write_cases _ _ _ _ _ _ _ _ Hok Hmax Hbuf Hw)
    as [[? _]|[[? _]|(Hwr & Hok1 & _)]]; [lia..|].
  assert (0 <= partition pos /\ 0 <= block pos) as [Hp0 Hbl0] by lia.
  destruct (tape_seek_cases _ _ _ _ _ _ Hok1 Hp0 Hbl0 Hs) as (_ & _ & _ & Hs').
  destruct (Hs' (Z.le_refl 0)) as (_ & Hok2 & _). rewrite Hpp, Hpb in Hok2.
  rewrite m_append_eod in Hok2 by done. change (zlength [TData buf]) with 1 in Hok2.
  rewrite Z.min_l in Hok2 by lia.
  assert (0 <= count) as Hc0 by (pose proof (zlength_nonneg buf); lia).
  destruct (tape_read_ok _ _ _ _ _ _ _ _ Hok2 Hc0 Hrd Hr3)
    as (rec & Hrec & Hb' & Hz & _).
  unfold m_here in Hrec. cbn [m_move m_log m_part m_block] in Hrec.
  rewrite m_append_here in Hrec by done. injection Hrec as <-.
  rewrite take_ge in Hb' by (unfold zlength in *; lia). subst buf'.
  split_and!; [|done..]. destruct Hwr as [->|[->| ->]]; [done|neg_ret Hr1..].
Qed.

(** ** Sequences of operations *)

Inductive dev_op :=
  | OpWrite (buf : list Z) (il ins : bool)
  | OpWriteFm (count : Z) (il ins immed : bool)
  | OpRead (count : Z) (unusual : bool)
  | OpSeek (pos : tc_position)
  | OpSeekEod (part : Z)
  | OpSeekAppend (part : Z) (unlock : bool)
  | OpSpaceFm (count : Z)
  | OpRewind.

Definition run_op now d (op : dev_op) : Z * device_data S :=
  match op with
  | OpWrite buf il ins => tape_write now d buf il ins
  | OpWriteFm count il ins immed => tape_write_filemark now d count il ins immed
  | OpRead count unusual => let '(r, _, d') := tape_read now None d count unusual in (r, d')
  | OpSeek pos => tape_seek now d pos
  | OpSeekEod part => tape_seek_eod now d part
  | OpSeekAppend part unlock => tape_seek_append_position now d part unlock
  | OpSpaceFm count => tape_spacefm now d count
  | OpRewind => tape_rewind now d
  end.

Fixpoint run_ops now d (ops : list dev_op) : list Z * device_data S :=
  match ops with
  | [] => ([], d)
  | op :: rest =>
      let '(r, d1) := run_op now d op in
      let '(rs, d2) := run_ops now d1 rest in (r :: rs, d2)
  end.

Definition is_write (op : dev_op) : bool :=
  match op with OpWrite _ _ _ | OpWriteFm _ _ _ _ => true | _ => false end.

(** Writing is forbidden: by a write protection or by an earlier write error. *)
Definition forbidden d : Prop := write_protected d <> 0 \/ write_error d = true.

Lemma forbidden_refuses d il ins : forbidden d -> write_refusal d il ins < 0.
Proof.
  unfold write_refusal. intros [Hp| ->].
  - by replace (write_protected d =? 0) with false by lia.
  - by destruct (negb _).
Qed.

Lemma forbidden_write now d op :
  forbidden d -> is_write op = true -> exists r, r < 0 /\ run_op now d op = (r, d).
Proof.
  intros Hf Hw. destruct op as [buf il ins|count il ins immed| | | | | |]; try done; cbn;
    pose proof (forbidden_refuses d il ins Hf) as Hr.
  - unfold tape_write. exists (write_refusal d il ins). split; [done|].
    replace (write_refusal d il ins =? 0) with false by lia. cbn [andb].
    by replace (_ <? 0) with true by lia.
  - unfold tape_write_filemark. exists (write_refusal d il ins). split; [done|].
    by replace (_ <? 0) with true by lia.
Qed.

(** Operations that do not write leave the prohibition in place. *)
Lemma forbidden_kept now d op r d' :
  forbidden d -> is_write op = false -> run_op now d op = (r, d') -> forbidden d'.
Proof.
  assert (Hframe : forall d d' : device_data S, write_protected d' = write_protected d ->
    (write_error d' = write_error d \/ write_error d' = true) -> forbidden d -> forbidden d').
  { unfold forbidden. intros e e' -> [->| ->]; tauto. }
  assert (Hseek : forall e pos q e', tape_seek now e pos = (q, e') ->
    write_protected e' = write_protected e /\ write_error e' = write_error e).
  { intros e pos q e'. unfold tape_seek.
    destruct (_ || _ || _); [destruct (op_locate _ _ _) as [[r1 s] p]|]; intros [= _ <-];
      match goal with |- context [if ?b then _tape_medium_seen _ _ else _] => destruct b end;
      try done; destruct (r1 <? 0); try done; cbn;
      destruct (note_warnings_frame (after_op e s p)) as (_ & _ & He & Hw); done. }
  intros Hf Hw E. destruct op as [| |count unusual|pos|part|part unlock|count|]; try done; cbn in E.
  - unfold tape_read in E. destruct (op_read _ _ _ _) as [[[r1 s] p] b]. injection E as _ <-.
    apply (Hframe d); [by destruct (r1 <? 0)|left; by destruct (r1 <? 0)|done].
  - destruct (Hseek _ _ _ _ E). apply (Hframe d); auto.
  - unfold tape_seek_eod in E. destruct (1 <? part); [by injection E as _ <-|].
    destruct (op_locate _ _ _) as [[r1 s] p].
    destruct (note_warnings_frame (after_op d s p)) as (_ & _ & He & Hwp).
    destruct (r1 <? 0); [by injection E as _ <-|].
    destruct (negb _); injection E as _ <-; [done|]. apply (Hframe d); cbn; auto.
  - unfold tape_seek_append_position in E.
    destruct (tape_seek now d _) as [r1 d1] eqn:Es. destruct (Hseek _ _ _ _ Es) as [Hp1 He1].
    destruct (r1 <? 0); [injection E as _ <-; apply (Hframe d); cbn; auto|].
    destruct (unlock && _ && _); [destruct (op_allow_overwrite _ _) as [r2 s2]|];
      injection E as _ <-; apply (Hframe d); try done;
      match goal with |- context [if ?b then _ else _] => destruct b end; cbn; auto.
  - unfold tape_spacefm in E. destruct (0 <? count), (op_space _ _ _ _) as [[r1 s] p];
      injection E as _ <-;
      (apply (Hframe d); [by destruct (r1 <? 0)|left; by destruct (r1 <? 0)|done]).
  - unfold tape_rewind in E. destruct (op_rewind _ _) as [[r1 s] p].
    destruct (r1 <? 0); injection E as _ <-; by apply (Hframe d); cbn; auto.
Qed.

(** C28: after a write error (or on a write-protected medium) the layer is a
    read-only device: in any sequence of operations every write and filemark
    is refused, and the drive ends exactly as if they had not been attempted. *)
Theorem forbidden_writes_do_nothing now ops : forall d rs d',
  forbidden d -> run_ops now d ops = (rs, d') ->
  Forall2 (fun op r => is_write op = true -> r < 0) ops rs /\
  snd (run_ops now d (filter (fun op => is_write op = false) ops)) = d'.
Proof.
  induction ops as [|op ops IH]; intros d rs d' Hf; cbn [run_ops].
  { intros [= <- <-]. by split. }
  destruct (run_op now d op) as [r d1] eqn:E. destruct (run_ops now d1 ops) as [rs1 d2] eqn:E2.
  intros [= <- <-]. destruct (is_write op) eqn:Hw.
  - destruct (forbidden_write now d op Hf Hw) as (r' & Hr' & E'). rewrite E' in E.
    injection E as <- <-. destruct (IH _ _ _ Hf E2) as [Hall Hrun].
    rewrite filter_cons_False by congruence. split; [constructor; auto|done].
  - pose proof (forbidden_kept now d op r d1 Hf Hw E) as Hf1.
    destruct (IH _ _ _ Hf1 E2) as [Hall Hrun].
    rewrite filter_cons_True by done. cbn [run_ops]. rewrite E.
    destruct (run_ops now d1 (filter _ ops)) as [rs3 d3] eqn:E3.
    split; [constructor; [congruence|done]|done].
Qed.

(** A failed write is final.  When a write passes the checks and the backend
    fails it, [tape_write] returns the backend's error, and from then on writing
    is forbidden exactly when the error is not one that calls for
    revalidation of the drive. *)
Theorem write_failure_is_latched now d buf il ins q s pos :
  write_refusal d il ins = 0 -> zlength buf <= max_block_size d ->
  op_write (backend_data d) buf (position d) = (q, s, pos) -> q < 0 ->
  exists d', tape_write now d buf il ins = (q, d') /\ backend_data d' = s /\
    (forbidden d' <-> NEED_REVAL q = false).
Proof.
  intros Hok Hlen E Hq. unfold tape_write. rewrite Hok, E.
  replace (max_block_size d <? zlength buf) with false by lia. cbn [andb Z.eqb Z.ltb Z.compare].
  replace (q <? 0) with true by lia. eexists. split; [done|].
  assert (write_protected d = 0 /\ write_error d = false) as [Hp He].
  { unfold write_refusal in Hok. destruct (write_protected d =? 0) eqn:?; bsplit; [|done].
    by destruct (write_error d). }
  unfold note_write_error, forbidden. destruct (NEED_REVAL q); cbn; rewrite ?Hp, ?He.
  - split; [done|]. split; [intros [?|?]; done|done].
  - split; [done|]. split; [done|]. by right.
Qed.

(** Forcing a device read-only does not: the flag lies outside the 32 bits of
    [write_protected], so [tape_force_read_only] succeeds and changes nothing. *)
Theorem force_read_only_is_lost d :
  in_u32 (write_protected d) -> tape_force_read_only d = (0, d).
Proof.
  intros Hw. unfold tape_force_read_only. f_equal.
  assert (u32 (Z.lor (write_protected d) VOL_FORCE_READ_ONLY) = write_protected d) as ->
    by (unfold VOL_FORCE_READ_ONLY; rewrite u32_lor_high; [done|done|reflexivity]).
  by destruct d.
Qed.

(** ** The capacity cache *)

(** [tape_get_capacity] answers from its cache only when the cached figures
    can still be right: they were read from the loaded medium and either
    nothing has been written since, or less than 1 GiB within less than ten
    seconds; in every other case the drive is asked and its answer is cached. *)
Theorem capacity_cache_is_fresh now d cap r cap' d' :
  tape_get_capacity now d cap = (r, cap', d') ->
  (r = 0 /\ d' = d /\ cap' = capacity d /\ capacity_valid d = true /\
   (capacity_written d = 0 \/
    (capacity_written d < TAPE_CAPACITY_REFRESH_BYTES /\
     tv_sec (timer_sub now (capacity_time d)) < TAPE_CAPACITY_REFRESH_SEC))) \/
  (exists s, op_remaining_capacity (backend_data d) cap = (r, s, cap') /\ r < 0 /\
     d' = d <| backend_data := s |>) \/
  (exists s q, op_remaining_capacity (backend_data d) cap = (q, s, cap') /\ 0 <= q /\ r = 0 /\
     backend_data d' = s /\ capacity d' = cap' /\ capacity_valid d' = true /\
     capacity_written d' = 0 /\ capacity_time d' = now).
Proof.
  unfold tape_get_capacity. destruct (_ && _ && _) eqn:Hc.
  - intros [= <- <- <-]. left.
    apply andb_true_iff in Hc as [Hc Ho]. apply andb_true_iff in Hc as [Hv Hl].
    split_and!; try done. apply orb_true_iff in Ho as [Ho|Ho]; bsplit; auto.
  - destruct (op_remaining_capacity _ _) as [[q s] c] eqn:E.
    destruct (q <? 0) eqn:Hq; intros [= <- <- <-]; bsplit.
    + right; left. by exists s.
    + right; right. exists s, q. by split_and!.
Qed.
End props.

(** ** Witnesses: the file backend with a blank tape *)

Definition epoch : ltfs_timespec := mk_time 1000 0.

Definition no_capacity : tc_remaining_cap := mk_cap 0 0 0 0.

Definition blank_device : device_data filedebug_data := {|
  position := mk_position 0 0 0 false false;
  append_pos := (0, 0);
  TapeLayer.max_block_size := 1048576;
  partition_space := (PART_WRITABLE, PART_WRITABLE);
  write_protected := 0;
  write_error := false;
  medium_modified := false;
  TapeLayer.device_reserved := false;
  TapeLayer.medium_locked := false;
  fence := false;
  append_only_mode := false;
  previous_exist := mk_time 0 0;
  capacity := no_capacity;
  capacity_time := mk_time 0 0;
  capacity_written := 0;
  capacity_valid := false;
  backend_data := blank_tape;
|}.

Definition host_writes_all_sane : forall k n, host_written k n = n := fun _ _ => eq_refl.

#[export] Instance sane_ops : TapeOps filedebug_data := filedebug_ops false.
#[export] Instance sane_laws : TapeLaws filedebug_data :=
  filedebug_laws host_writes_all_sane false.

Lemma blank_device_ok : dev_ok blank_device blank_medium.
Proof. split; [apply blank_rep|done]. Qed.

Lemma tape_write_read_back_witness :
  let d1 := snd (tape_write epoch blank_device [1; 2; 3] false false) in
  let d2 := snd (tape_seek epoch d1 (mk_position 0 0 0 false false)) in
  snd (fst (tape_read epoch None d2 10 false)) = [1; 2; 3].
Proof.
  cbv zeta.
  pose (d1 := snd (tape_write epoch blank_device [1; 2; 3] false false)).
  pose (d2 := snd (tape_seek epoch d1 (mk_position 0 0 0 false false))).
  refine (proj2 (proj2 (tape_write_read_back epoch blank_device blank_medium [1; 2; 3] false false
    3 d1 (mk_position 0 0 0 false false) d2 10 3
    (snd (fst (tape_read epoch None d2 10 false))) (snd (tape_read epoch None d2 10 false))
    blank_device_ok _ _ _ _ _ _ _ _ _ _))); try (vm_compute; congruence).
Defined.

Lemma forbidden_writes_do_nothing_witness :
  let d := blank_device <| write_error := true |> in
  let ops := [OpWrite [1] true true; OpSeek (mk_position 0 0 1 false false);
              OpWriteFm 1 true true false] in
  snd (run_ops epoch d [OpSeek (mk_position 0 0 1 false false)]) = snd (run_ops epoch d ops).
Proof.
  cbv zeta.
  refine (proj2 (forbidden_writes_do_nothing epoch
    [OpWrite [1] true true; OpSeek (mk_position 0 0 1 false false); OpWriteFm 1 true true false]
    (blank_device <| write_error := true |>) _ _ (or_intror eq_refl) (surjective_pairing _))).
Defined.

Lemma write_failure_is_latched_witness :
  let d := blank_device <| backend_data := blank_tape <| is_readonly := true |> |> in
  exists d', tape_write epoch d [1] false false = (- EDEV_DATA_PROTECT, d') /\
    backend_data d' = blank_tape <| is_readonly := true |> /\
    (forbidden d' <-> NEED_REVAL (- EDEV_DATA_PROTECT) = false).
Proof.
  refine (write_failure_is_latched epoch _ [1] false false (- EDEV_DATA_PROTECT) _
            (position blank_device) _ _ _ _); try reflexivity; vm_compute; congruence.
Defined.

Lemma force_read_only_is_lost_witness :
  tape_force_read_only blank_device = (0, blank_device).
Proof. refine (force_read_only_is_lost blank_device _). vm_compute. split; congruence. Defined.

Lemma capacity_cache_is_fresh_witness :
  let res := tape_get_capacity epoch blank_device no_capacity in
  capacity_time (snd res) = epoch.
Proof.
  cbv zeta.
  destruct (capacity_cache_is_fresh epoch blank_device no_capacity 0
              (snd (fst (tape_get_capacity epoch blank_device no_capacity)))
              (snd (tape_get_capacity epoch blank_device no_capacity)))
    as [(_ & _ & _ & Hv & _)|[(s & _ & Hn & _)|(s & q & _ & _ & _ & _ & _ & _ & _ & Ht)]].
  - reflexivity.
  - discriminate Hv.
  - discriminate Hn.
  - exact Ht.
Defined.
