(* ===== verification/Journal.v ===== *)
(** * The journal of the incremental index (src/libltfs/inc_journal.c)

    Between two indexes libltfs records which objects were created, modified
    and deleted, and writes only those to an incremental index.  This file
    models the journal and its operations; [JournalProps] proves what they
    are for: replaying the journal on the tree of the last index gives the
    current tree.

    A path is the list of its bytes.  The hash table [vol->journal] is the list
    of its entries, newest first: [HASH_ADD_KEYPTR] puts an entry at the head
    of its chain and [HASH_FIND] returns the first entry of the chain that has
    the key.  The outcomes of the allocations are boolean inputs. *)

From S2P Require Import Prelude LtfsError.

Abbreviation path := (list Z).

Definition char_slash : Z := 0x2F.

(** ** Names (src/libltfs/fs.c) *)

Definition percent_encoded_char (c : Z) : bool :=
  (c =? 0x3A) ||
  ((0 <=? c) && (c <=? 0x1F) && negb (c =? 0x09) && negb (c =? 0x0A) && negb (c =? 0x0D)).

Definition fs_is_percent_encode_required (name : path) : bool := existsb percent_encoded_char name.

(** [struct ltfs_name]. *)
Record ltfs_name := mk_name { percent_encode : bool; name : path }.

(** ** Entries *)

Inductive journal_reason := CREATE | MODIFY | DELETE_FILE | DELETE_DIRECTORY.

#[export] Instance journal_reason_eq_dec : EqDecision journal_reason.
Proof. solve_decision. Defined.

(** What the journal reads of a [struct dentry]. *)
Record jdentry := mk_jdentry { d_uid : Z; d_name : path; d_isdir : bool }.

(** [struct jentry]; [j_dentry] is [NULL] for a deletion, [j_name] is set only there. *)
Record jentry := mk_jentry {
  full_path : path;
  j_uid : Z;
  reason : journal_reason;
  j_dentry : option jdentry;
  j_name : option ltfs_name;
}.

#[export] Instance eta_jentry : Eta jentry := fun e =>
  mk_jentry (full_path e) (j_uid e) (reason e) (j_dentry e) (j_name e).

(** The part of [struct ltfs_volume] the journal keeps. *)
Record jvolume := mk_jvolume {
  journal : list jentry;
  created_dirs : list path;
  journal_err : bool;
}.

#[export] Instance eta_jvolume : Eta jvolume := fun v =>
  mk_jvolume (journal v) (created_dirs v) (journal_err v).

Definition has_key (p : path) (uid : Z) (e : jentry) : bool :=
  (j_uid e =? uid) && bool_decide (full_path e = p).

(** [_find_jentry]; [key_ok] is the outcome of the key's allocation. *)
Definition _find_jentry (key_ok : bool) (p : path) (uid : Z) (v : jvolume)
    : option jentry * jvolume :=
  if key_ok then (List.find (has_key p uid) (journal v), v)
  else (None, v <| journal_err := true |>).

(** [HASH_DEL] of the entry that [_find_jentry] found. *)
Fixpoint del_first (p : path) (uid : Z) (l : list jentry) : list jentry :=
  match l with
  | [] => []
  | e :: l' => if has_key p uid e then l' else e :: del_first p uid l'
  end.

(** An assignment through the pointer that [_find_jentry] returned. *)
Fixpoint update_first (p : path) (uid : Z) (f : jentry -> jentry) (l : list jentry) : list jentry :=
  match l with
  | [] => []
  | e :: l' => if has_key p uid e then f e :: l' else e :: update_first p uid f l'
  end.

(** Is [p] the directory [dir] or below it?  [strncmp] over the length of
    [dir], then the end of the string or a separator. *)
Fixpoint _is_same_or_under (p dir : path) : bool :=
  match dir, p with
  | [], [] => true
  | [], c :: _ => c =? char_slash
  | d :: dir', c :: p' => (c =? d) && _is_same_or_under p' dir'
  | _ :: _, [] => false
  end.

(** What follows the last separator, or the whole string: [strrchr]. *)
Fixpoint last_component (p acc : path) : path :=
  match p with
  | [] => acc
  | c :: p' => last_component p' (if c =? char_slash then p' else acc)
  end.

Definition _set_deleted_name (p : path) : ltfs_name :=
  let n := last_component p p in mk_name (fs_is_percent_encode_required n) n.

(** Is an ancestor of [p] (or [p] itself) created in this session? *)
Definition created_above (p : path) (v : jvolume) : bool :=
  existsb (fun cp => _is_same_or_under p cp) (created_dirs v).

Definition add_entry (e : jentry) (v : jvolume) : jvolume := v <| journal := e :: journal v |>.

(** ** Operations *)

(** [path_ok], [ent_ok], [jdir_ok]: the full path, the entry and the record of
    the created directory could be allocated. *)
Definition incj_create (path_ok ent_ok jdir_ok : bool) (ppath : path) (d : jdentry) (v : jvolume)
    : Z * jvolume :=
  if journal_err v then (0, v)
  else if created_above ppath v then (0, v)
  else if negb path_ok || negb ent_ok then (- LTFS_NO_MEMORY, v <| journal_err := true |>)
  else
    let p := ppath ++ char_slash :: d_name d in
    let v := add_entry (mk_jentry p (d_uid d) CREATE (Some d) None) v in
    if d_isdir d then
      if jdir_ok then (0, v <| created_dirs := created_dirs v ++ [p] |>)
      else (- LTFS_NO_MEMORY, v)
    else (0, v).

Definition incj_modify (key_ok ent_ok : bool) (p : path) (d : jdentry) (v : jvolume)
    : Z * jvolume :=
  if journal_err v then (0, v)
  else
    let '(ent, v) := _find_jentry key_ok p (d_uid d) v in
    match ent with
    | Some _ => (0, v)
    | None =>
        if created_above p v then (0, v)
        else if negb ent_ok then (- LTFS_NO_MEMORY, v <| journal_err := true |>)
        else (0, add_entry (mk_jentry p (d_uid d) MODIFY (Some d) None) v)
    end.

(** [name_ok]: the deleted name could be duplicated. *)
Definition incj_rmfile (key_ok path_ok ent_ok name_ok : bool) (p : path) (d : jdentry)
    (v : jvolume) : Z * jvolume :=
  if journal_err v then (0, v)
  else
    let '(ent, v) := _find_jentry key_ok p (d_uid d) v in
    let record :=
      if created_above p v then (0, v)
      else if negb path_ok || negb ent_ok || negb name_ok then
        (- LTFS_NO_MEMORY, v <| journal_err := true |>)
      else (0, add_entry (mk_jentry p (d_uid d) DELETE_FILE None (Some (_set_deleted_name p))) v) in
    match ent with
    | Some e =>
        match reason e with
        | CREATE => (0, v <| journal := del_first p (d_uid d) (journal v) |>)
        | MODIFY =>
            if negb name_ok then
              (- LTFS_NO_MEMORY,
               v <| journal := update_first p (d_uid d) (fun e => e <| j_name := None |>) (journal v) |>
                 <| journal_err := true |>)
            else
              (0, v <| journal := update_first p (d_uid d)
                        (fun e => e <| j_name := Some (_set_deleted_name p) |>
                                    <| reason := DELETE_FILE |> <| j_dentry := None |>)
                        (journal v) |>)
        | _ => record
        end
    | None => record
    end.

(** The loop over [created_dirs] of [incj_rmdir]: the remaining list, whether
    the directory itself was in it, and whether the function returns early
    because an ancestor is created in this session. *)
Fixpoint rmdir_created (p : path) (l : list path) (self : bool) : list path * bool * bool :=
  match l with
  | [] => ([], self, false)
  | cp :: l' =>
      if _is_same_or_under cp p then rmdir_created p l' (self || bool_decide (p = cp))
      else if _is_same_or_under p cp then (l, self, true)
      else let '(rest, self, early) := rmdir_created p l' self in (cp :: rest, self, early)
  end.

Definition is_delete (r : journal_reason) : bool :=
  match r with DELETE_FILE | DELETE_DIRECTORY => true | _ => false end.

(** Does the loop over the journal keep this entry? *)
Definition rmdir_keeps (p : path) (uid : Z) (e : jentry) : bool :=
  negb (_is_same_or_under (full_path e) p) ||
  (negb (j_uid e =? uid) && bool_decide (full_path e = p) && is_delete (reason e)).

Definition incj_rmdir (path_ok ent_ok name_ok : bool) (p : path) (d : jdentry) (v : jvolume)
    : Z * jvolume :=
  if journal_err v then (0, v)
  else
    let '(dirs, created_in_session, early) := rmdir_created p (created_dirs v) false in
    let v := v <| created_dirs := dirs |> in
    if early then (0, v)
    else
      let v := v <| journal := List.filter (rmdir_keeps p (d_uid d)) (journal v) |> in
      if created_in_session then (0, v)
      else if negb path_ok || negb ent_ok || negb name_ok then
        (- LTFS_NO_MEMORY, v <| journal_err := true |>)
      else (0, add_entry (mk_jentry p (d_uid d) DELETE_DIRECTORY None
                            (Some (_set_deleted_name p))) v).

Definition incj_clear (v : jvolume) : Z * jvolume := (0, mk_jvolume [] [] false).

(** ** The order in which an incremental index lists the entries *)

(** [strcmp]: the sign of the first difference, bytes compared unsigned. *)
Fixpoint strcmp (a b : path) : Z :=
  match a, b with
  | [], [] => 0
  | [], _ :: _ => -1
  | _ :: _, [] => 1
  | x :: a', y :: b' => if x =? y then strcmp a' b' else if x <? y then -1 else 1
  end.

Definition _by_path (a b : jentry) : Z :=
  let ret := strcmp (full_path a) (full_path b) in
  if negb (ret =? 0) then ret
  else
    let a_deleted := is_delete (reason a) in
    let b_deleted := is_delete (reason b) in
    if negb (Bool.eqb a_deleted b_deleted) then (if a_deleted then -1 else 1)
    else if j_uid b <? j_uid a then 1 else -1.

(** ** Marking an object dirty (src/libltfs/ltfs_internal.c) *)

(** [ltfs_set_dentry_dirty]: [fullpath] is what [ltfs_build_fullpath] returned,
    [has_parent] and [dirty] are the fields of the dentry.  The new value of
    [dirty] is [true] in every case. *)
Definition ltfs_set_dentry_dirty (key_ok ent_ok : bool) (fullpath : option path)
    (has_parent dirty : bool) (d : jdentry) (v : jvolume) : Z * jvolume :=
  if negb dirty && has_parent then
    match fullpath with
    | Some p => (0, snd (incj_modify key_ok ent_ok p d v))
    | None => (- LTFS_NO_MEMORY, v <| journal_err := true |>)
    end
  else (0, v).

(** [ltfs_build_fullpath] through [_lay_dirs]: [names] are the names of the
    dentry and its ancestors, innermost first, without the root, whose name is
    ["/"]. *)
Fixpoint _lay_dirs (p : option path) (names : list path) : path :=
  match names with
  | [] => match p with Some p => char_slash :: p | None => [char_slash] end
  | n :: rest => _lay_dirs (Some (match p with Some p => n ++ char_slash :: p | None => n end)) rest
  end.

Definition ltfs_build_fullpath (names : list path) : path := _lay_dirs None names.
