(* ===== verification/JournalProps.v ===== *)
(** * The journal is complete

    The tree of the last index, changed by any sequence of creations,
    modifications and removals (a rename is a removal and a creation), is
    recovered from that index and the journal: an object that the journal
    covers is taken from the current tree, an object it deletes is dropped,
    everything else is as it was. *)

From S2P Require Import Prelude LtfsError Journal.

(** ** Paths *)

Notation "p ⊑ d" := (_is_same_or_under p d = true) (at level 70).

Lemma under_split p d :
  p ⊑ d <-> exists t, p = d ++ t /\ (t = [] \/ exists t', t = char_slash :: t').
Proof.
  revert p. induction d as [|c d IH]; intros [|x p]; cbn.
  - split; [by exists []; auto|done].
  - split.
    + intros ?; bsplit; subst. eexists; split; [done|]. right. by eexists.
    + intros (t & Ht & [->|[t' ->]]); cbn in Ht; [done|]. injection Ht as -> _. by apply Z.eqb_refl.
  - split; [done|]. intros (t & Ht & _). done.
  - rewrite andb_true_iff, Z.eqb_eq, IH. split.
    + intros (-> & t & -> & Ht). by exists t.
    + intros (t & Ht & Hs). injection Ht as -> ->. split; [done|]. by exists t.
Qed.

Lemma under_refl p : p ⊑ p.
Proof. apply under_split. exists []. rewrite app_nil_r. auto. Qed.

Lemma under_trans p q r : p ⊑ q -> q ⊑ r -> p ⊑ r.
Proof.
  rewrite !under_split. intros (t & -> & Ht) (u & -> & Hu). exists (u ++ t).
  rewrite app_assoc. split; [done|]. destruct Hu as [->|[u' ->]]; [done|]. right. by eexists.
Qed.

Lemma under_antisym p q : p ⊑ q -> q ⊑ p -> p = q.
Proof.
  rewrite !under_split. intros (t & -> & _) (u & Hu & _).
  rewrite <- app_assoc in Hu. apply (f_equal length) in Hu. rewrite !length_app in Hu.
  destruct t; [by rewrite app_nil_r|cbn in Hu; lia].
Qed.

(** Two ancestors of one path are comparable. *)
Lemma under_linear p a b : p ⊑ a -> p ⊑ b -> a ⊑ b \/ b ⊑ a.
Proof.
  rewrite !under_split. intros (t & -> & Ht) (u & Hu & Hu').
  apply app_eq_app in Hu as (k & [[H1 H2]|[H1 H2]]); subst.
  - left. exists k. split; [done|]. destruct Hu' as [Hn|[u' Hc]].
    + destruct k; [by left|done].
    + destruct k as [|x k]; [by left|]. injection Hc as -> _. right. by eexists.
  - right. exists k. split; [done|]. destruct Ht as [Hn|[u' Hc]].
    + destruct k; [by left|done].
    + destruct k as [|x k]; [by left|]. injection Hc as -> _. right. by eexists.
Qed.

(** The ancestors of an object are its directory and the ancestors of that. *)
Lemma under_child pp n p :
  char_slash ∉ n -> pp ++ char_slash :: n ⊑ p -> p = pp ++ char_slash :: n \/ pp ⊑ p.
Proof.
  intros Hn. rewrite !under_split. intros (t & Ht & [->|[t' ->]]).
  - left. by rewrite app_nil_r in Ht.
  - right. apply app_eq_app in Ht as (k & [[-> Hk]|[-> Hk]]).
    + exists k. split; [done|]. destruct k as [|x k]; [by left|].
      injection Hk as -> _. right. by eexists.
    + destruct k as [|x k]; cbn in Hk.
      * exists []. rewrite !app_nil_r. split; [done|by left].
      * injection Hk as <- Hk. exfalso. apply Hn. rewrite Hk. set_solver.
Qed.

Lemma child_under pp n : pp ++ char_slash :: n ⊑ pp.
Proof. apply under_split. eexists. split; [done|]. right. by eexists. Qed.

Lemma child_ne pp n : pp ++ char_slash :: n <> pp.
Proof.
  intros E. apply (f_equal length) in E. rewrite length_app in E. cbn in E. lia.
Qed.

#[export] Hint Resolve under_refl child_under : ltfs.

(** ** Trees and replay *)

(** An object of the index: its uid, its kind, its contents (a version number)
    and whether it is marked dirty since the last index. *)
Record node := mk_node { n_uid : Z; n_isdir : bool; n_data : Z; n_dirty : bool }.

Abbreviation tree := (path -> option node).

Definition root : path := [].

Definition is_dir (t : tree) (p : path) : Prop := exists n, t p = Some n /\ n_isdir n = true.

(** Every ancestor of an object is a directory. *)
Definition wf_tree (t : tree) : Prop :=
  forall p q n, t p = Some n -> p ⊑ q -> p <> q -> is_dir t q.

(** A created object is written with everything below it, a modified one alone. *)
Definition covers (q : path) (e : jentry) : bool :=
  match reason e with
  | CREATE => _is_same_or_under q (full_path e)
  | MODIFY => bool_decide (q = full_path e)
  | _ => false
  end.

Definition deletes (q : path) (e : jentry) : bool :=
  is_delete (reason e) && _is_same_or_under q (full_path e).

Definition cov (l : list jentry) (q : path) : bool := existsb (covers q) l.
Definition del (l : list jentry) (q : path) : bool := existsb (deletes q) l.

(** Deletions come first, then the current state of what the journal covers. *)
Definition replay (t0 t : tree) (l : list jentry) : tree := fun q =>
  if cov l q then t q else if del l q then None else t0 q.

(** Put [sub] in the place of everything at and below [p]. *)
Definition graft (sub : tree) (p : path) (t : tree) : tree := fun q =>
  if _is_same_or_under q p then sub q else t q.

Definition no_tree : tree := fun _ => None.

Definition set_node (p : path) (n : node) (t : tree) : tree := fun q =>
  if bool_decide (q = p) then Some n else t q.

(** A subtree rooted at [p]. *)
Definition subtree_at (p : path) (sub : tree) : Prop :=
  (forall q n, sub q = Some n -> q ⊑ p) /\
  (forall q r n, sub q = Some n -> q ⊑ r -> q <> r -> r ⊑ p -> is_dir sub r).

Lemma cov_spec l q : cov l q = true <-> exists e, e ∈ l /\ covers q e = true.
Proof.
  unfold cov. rewrite existsb_exists. split; intros (e & He & Hq); exists e; split; try done;
    by apply list_elem_of_In.
Qed.

Lemma del_spec l q : del l q = true <-> exists e, e ∈ l /\ deletes q e = true.
Proof.
  unfold del. rewrite existsb_exists. split; intros (e & He & Hq); exists e; split; try done;
    by apply list_elem_of_In.
Qed.

Lemma deletes_spec q e :
  deletes q e = true <-> is_delete (reason e) = true /\ q ⊑ full_path e.
Proof. unfold deletes. by rewrite andb_true_iff. Qed.

Lemma created_above_spec p v :
  created_above p v = true <-> exists c, c ∈ created_dirs v /\ p ⊑ c.
Proof.
  unfold created_above. rewrite existsb_exists. split; intros (c & Hc & Hp); exists c; split; try done;
    by apply list_elem_of_In.
Qed.

(** ** The file system operations that reach the journal *)

Inductive fs_step : tree * jvolume -> tree * jvolume -> Prop :=
  | step_create t v pp d sub n pok eok jok r v' :
      is_dir t pp -> char_slash ∉ d_name d ->
      t (pp ++ char_slash :: d_name d) = None ->
      subtree_at (pp ++ char_slash :: d_name d) sub ->
      sub (pp ++ char_slash :: d_name d) = Some n ->
      n_uid n = d_uid d -> n_isdir n = d_isdir d ->
      (* the directory is not one that was deleted here in this session *)
      (forall e, e ∈ journal v -> is_delete (reason e) = true ->
         full_path e = pp ++ char_slash :: d_name d -> d_isdir d = true -> j_uid e <> d_uid d) ->
      incj_create pok eok jok pp d v = (r, v') ->
      fs_step (t, v) (graft sub (pp ++ char_slash :: d_name d) t, v')
  | step_modify t v p d n data kok eok fp r v' :
      p <> root -> t p = Some n -> n_uid n = d_uid d -> fp = Some p \/ fp = None ->
      ltfs_set_dentry_dirty kok eok fp true (n_dirty n) d v = (r, v') ->
      fs_step (t, v) (set_node p (mk_node (n_uid n) (n_isdir n) data true) t, v')
  | step_rmfile t v p d n kok pok eok nok r v' :
      p <> root -> t p = Some n -> n_uid n = d_uid d -> n_isdir n = false ->
      incj_rmfile kok pok eok nok p d v = (r, v') ->
      fs_step (t, v) (graft no_tree p t, v')
  | step_rmdir t v p d n pok eok nok r v' :
      p <> root -> t p = Some n -> n_uid n = d_uid d -> n_isdir n = true ->
      incj_rmdir pok eok nok p d v = (r, v') ->
      fs_step (t, v) (graft no_tree p t, v').

(** ** The invariant *)

Definition live (e : jentry) : Prop := is_delete (reason e) = false.

(** A live entry has no newer entry with its key. *)
Fixpoint keyed (l : list jentry) : Prop :=
  match l with
  | [] => True
  | e :: l' => (forall e', e' ∈ l' -> live e' -> has_key (full_path e) (j_uid e) e' = false) /\ keyed l'
  end.

Record complete (t0 t : tree) (l : list jentry) (dirs : list path) : Prop := {
  c_cov q : q <> root ->
    cov l q = true \/ (t q = None /\ del l q = true) \/ (t q = t0 q /\ del l q = false);
  c_created c e : c ∈ dirs -> e ∈ l -> full_path e ⊑ c -> full_path e = c;
  c_parent e p : e ∈ l -> full_path e ⊑ p -> full_path e <> p -> is_dir t p;
  c_owner c : c ∈ dirs -> is_dir t c /\ exists e, e ∈ l /\ reason e = CREATE /\ full_path e = c;
  c_live e : e ∈ l -> live e -> exists n, t (full_path e) = Some n /\ n_uid n = j_uid e;
  c_base e q : e ∈ l -> reason e = CREATE -> q ⊑ full_path e -> del l q = true \/ t0 q = None;
  c_dirty q n : t q = Some n -> n_dirty n = true -> q <> root -> cov l q = true;
  c_key : keyed l;
  c_self e e' : e ∈ l -> e' ∈ l -> reason e = CREATE -> is_delete (reason e') = true ->
    full_path e' = full_path e -> is_dir t (full_path e) -> j_uid e' <> j_uid e;
}.

Lemma find_live l e :
  keyed l -> e ∈ l -> live e -> List.find (has_key (full_path e) (j_uid e)) l = Some e.
Proof.
  induction l as [|x l IH]; cbn [keyed List.find]; [by rewrite elem_of_nil|].
  intros [Hx Hk] He Hl. apply elem_of_cons in He as [<-|He].
  - unfold has_key. by rewrite Z.eqb_refl, bool_decide_eq_true_2.
  - destruct (has_key (full_path e) (j_uid e) x) eqn:Hh; [|by apply IH].
    specialize (Hx e He Hl). unfold has_key in *. bsplit.
    apply bool_decide_eq_true in H0. rewrite <- H, H0, Z.eqb_refl, bool_decide_eq_true_2 in Hx by done.
    done.
Qed.

Lemma find_spec p uid l e :
  List.find (has_key p uid) l = Some e -> e ∈ l /\ full_path e = p /\ j_uid e = uid.
Proof.
  intros Hf. apply find_some in Hf as [Hin Hk]. unfold has_key in Hk. bsplit.
  apply bool_decide_eq_true in H0. by rewrite list_elem_of_In.
Qed.

Lemma find_none p uid l e :
  List.find (has_key p uid) l = None -> e ∈ l -> full_path e = p -> j_uid e <> uid.
Proof.
  intros Hf He <- <-. apply list_elem_of_In in He. apply (find_none _ _ Hf) in He.
  unfold has_key in He. by rewrite Z.eqb_refl, bool_decide_eq_true_2 in He.
Qed.

Lemma wf_none t p q : wf_tree t -> t p = None -> q ⊑ p -> t q = None.
Proof.
  intros Hwf Hp Hq. destruct (t q) as [n|] eqn:Hn; [|done]. exfalso.
  destruct (decide (q = p)) as [->|Hne]; [congruence|].
  destruct (Hwf _ _ _ Hn Hq Hne) as (n' & Hn' & _). congruence.
Qed.

(** ** Trees stay well formed *)

Lemma graft_in sub p t q : q ⊑ p -> graft sub p t q = sub q.
Proof. unfold graft. by intros ->. Qed.

Lemma graft_out sub p t q : ~ q ⊑ p -> graft sub p t q = t q.
Proof. unfold graft. intros Hq. by destruct (_is_same_or_under q p). Qed.

Lemma under_dec q p : q ⊑ p \/ ~ q ⊑ p.
Proof. destruct (_is_same_or_under q p); auto. Qed.

Lemma graft_wf t sub pp n :
  wf_tree t -> is_dir t pp -> char_slash ∉ n -> subtree_at (pp ++ char_slash :: n) sub ->
  t (pp ++ char_slash :: n) = None ->
  wf_tree (graft sub (pp ++ char_slash :: n) t).
Proof.
  intros Hwf Hpp Hn [Hs1 Hs2] Hnone p q x Hp Hpq Hne. set (P := pp ++ char_slash :: n) in *.
  assert (Hup : forall r, is_dir t r -> ~ r ⊑ P -> is_dir (graft sub P t) r).
  { intros r (y & Hy & Hd) Hr. exists y. by rewrite graft_out. }
  destruct (under_dec p P) as [HpP|HpP].
  - rewrite graft_in in Hp by done. destruct (under_linear _ _ _ Hpq HpP) as [HqP|HPq].
    + destruct (Hs2 _ _ _ Hp Hpq Hne HqP) as (y & Hy & Hd). exists y. by rewrite graft_in.
    + destruct (decide (q = P)) as [->|HqP].
      { destruct (Hs2 _ _ _ Hp HpP Hne (under_refl P)) as (y & Hy & Hd). exists y.
        by rewrite graft_in by apply under_refl. }
      apply Hup.
      * apply under_child in HPq as [->|Hppq]; [done| |done].
        destruct (decide (q = pp)) as [->|]; [done|].
        destruct Hpp as (y & Hy & _). by apply (Hwf pp q y).
      * intros HqP'. apply HqP. by apply under_antisym.
  - rewrite graft_out in Hp by done. apply Hup; [by apply (Hwf p q x)|].
    intros HqP. apply HpP. by apply (under_trans _ q).
Qed.

Lemma prune_wf t p : wf_tree t -> wf_tree (graft no_tree p t).
Proof.
  intros Hwf q r x Hq Hqr Hne. destruct (under_dec q p) as [Hqp|Hqp].
  { by rewrite graft_in in Hq by done. }
  rewrite graft_out in Hq by done. destruct (Hwf _ _ _ Hq Hqr Hne) as (y & Hy & Hd).
  exists y. rewrite graft_out; [done|]. intros Hrp. apply Hqp. by apply (under_trans _ r).
Qed.

Lemma set_node_dir t p n data r :
  t p = Some n -> is_dir t r -> is_dir (set_node p (mk_node (n_uid n) (n_isdir n) data true) t) r.
Proof.
  intros Hp (y & Hy & Hd). unfold is_dir, set_node. destruct (bool_decide (r = p)) eqn:E.
  - apply bool_decide_eq_true in E as ->. eexists. split; [done|]. cbn. congruence.
  - by exists y.
Qed.

Lemma set_node_wf t p n data :
  wf_tree t -> t p = Some n -> wf_tree (set_node p (mk_node (n_uid n) (n_isdir n) data true) t).
Proof.
  intros Hwf Hp q r x Hq Hqr Hne. apply set_node_dir; [done|].
  unfold set_node in Hq. destruct (bool_decide (q = p)) eqn:E; [|by apply (Hwf q r x)].
  apply bool_decide_eq_true in E as ->. by apply (Hwf p r n).
Qed.

(** ** Creation *)

(** Entries that live below a path that does not exist do not exist. *)
Lemma no_live_below t0 t l dirs P e :
  wf_tree t -> complete t0 t l dirs -> t P = None -> e ∈ l -> live e -> ~ full_path e ⊑ P.
Proof.
  intros Hwf Hc HP He Hl Hu. destruct (c_live _ _ _ _ Hc e He Hl) as (n & Hn & _).
  by rewrite (wf_none t P) in Hn.
Qed.

Lemma covers_live q e : covers q e = true -> live e /\ q ⊑ full_path e.
Proof.
  unfold covers, live. destruct (reason e); try done. intros Hq.
  apply bool_decide_eq_true in Hq as ->. split; [done|apply under_refl].
Qed.

(** A creation below a directory created in this session needs no entry. *)
Lemma create_skip t0 t l dirs sub pp n c :
  wf_tree t -> complete t0 t l dirs -> t (pp ++ char_slash :: n) = None ->
  c ∈ dirs -> pp ⊑ c ->
  complete t0 (graft sub (pp ++ char_slash :: n) t) l dirs.
Proof.
  intros Hwf Hc Hnone Hcd Hpc. set (P := pp ++ char_slash :: n) in *.
  assert (HPc : P ⊑ c) by (apply (under_trans _ pp); [apply child_under|done]).
  destruct (c_owner _ _ _ _ Hc c Hcd) as (_ & ec & Hec & Hrc & Hpath).
  assert (Hcov : forall q, q ⊑ P -> cov l q = true).
  { intros q Hq. apply cov_spec. exists ec. split; [done|]. unfold covers. rewrite Hrc, Hpath.
    by apply (under_trans _ P). }
  assert (Hdir : forall r, is_dir t r -> is_dir (graft sub P t) r).
  { intros r (y & Hy & Hd). exists y. rewrite graft_out; [done|].
    intros Hr. by rewrite (wf_none t P r) in Hy. }
  split.
  - intros q Hq. destruct (under_dec q P) as [HqP|HqP]; [left; by apply Hcov|].
    rewrite graft_out by done. by apply (c_cov _ _ _ _ Hc).
  - apply Hc.
  - intros e p He Hu Hne. by apply Hdir, (c_parent _ _ _ _ Hc e).
  - intros c' Hc'. destruct (c_owner _ _ _ _ Hc c' Hc') as [Hd He]. split; [by apply Hdir|done].
  - intros e He Hl. destruct (c_live _ _ _ _ Hc e He Hl) as (x & Hx & Hu). exists x.
    rewrite graft_out; [done|]. intros HP. by rewrite (wf_none t P) in Hx.
  - apply Hc.
  - intros q x Hx Hd Hq. destruct (under_dec q P) as [HqP|HqP]; [by apply Hcov|].
    rewrite graft_out in Hx by done. by apply (c_dirty _ _ _ _ Hc q x).
  - apply Hc.
  - intros e e' He He' Hr Hdel Heq (x & Hx & Hd). apply (c_self _ _ _ _ Hc e e'); try done.
    destruct (c_live _ _ _ _ Hc e He) as (y & Hy & Hyu); [unfold live; by rewrite Hr|].
    exists y. split; [done|]. rewrite graft_out in Hx; [congruence|].
    intros HP. by rewrite (wf_none t P) in Hy.
Qed.

Lemma cov_cons e l q : cov (e :: l) q = covers q e || cov l q.
Proof. done. Qed.

Lemma del_cons_live e l q : live e -> del (e :: l) q = del l q.
Proof. unfold del, live. cbn. unfold deletes at 1. by intros ->. Qed.

Lemma create_add t0 t l dirs sub pp d n :
  wf_tree t -> complete t0 t l dirs -> is_dir t pp -> char_slash ∉ d_name d ->
  let P := pp ++ char_slash :: d_name d in
  t P = None -> sub P = Some n -> n_uid n = d_uid d -> n_isdir n = d_isdir d ->
  (forall e, e ∈ l -> is_delete (reason e) = true -> full_path e = P -> d_isdir d = true ->
     j_uid e <> d_uid d) ->
  (forall c, c ∈ dirs -> ~ pp ⊑ c) ->
  let l' := mk_jentry P (d_uid d) CREATE (Some d) None :: l in
  complete t0 (graft sub P t) l' dirs /\
  (d_isdir d = true -> complete t0 (graft sub P t) l' (dirs ++ [P])).
Proof.
  intros Hwf Hc Hpp Hn P Hnone Hsub Huid Hisd Hself Hskip l'.
  set (e0 := mk_jentry P (d_uid d) CREATE (Some d) None) in *.
  assert (Hlive0 : live e0) by done.
  assert (HnP : forall c, c ∈ dirs -> ~ P ⊑ c).
  { intros c Hcd HPc. apply under_child in HPc as [->|Hppc]; [|by apply (Hskip c)|done].
    destruct (c_owner _ _ _ _ Hc P Hcd) as [(y & Hy & _) _]. congruence. }
  assert (Hdir : forall r, is_dir t r -> is_dir (graft sub P t) r).
  { intros r (y & Hy & Hd). exists y. rewrite graft_out; [done|].
    intros Hr. by rewrite (wf_none t P r) in Hy. }
  assert (Hbelow : forall e, e ∈ l -> full_path e ⊑ P -> full_path e = P).
  { intros e He Hu. destruct (decide (full_path e = P)); [done|].
    destruct (c_parent _ _ _ _ Hc e P He Hu) as (y & Hy & _); [done|congruence]. }
  assert (Hbase : forall q, q ⊑ P -> del l q = true \/ t0 q = None).
  { intros q Hq. destruct (decide (q = root)) as [->|Hroot].
    { exfalso. apply under_split in Hq as (u & Hu & _). subst P. unfold root in Hu. by destruct pp. }
    pose proof (wf_none t P q Hwf Hnone Hq) as Htq.
    destruct (c_cov _ _ _ _ Hc q Hroot) as [Hcov|[[_ ?]|[? _]]]; [|auto|right; congruence].
    apply cov_spec in Hcov as (e & He & Hce). destruct (covers_live _ _ Hce) as [Hl Hqe].
    pose proof (no_live_below _ _ _ _ P e Hwf Hc Hnone He Hl) as Hno.
    destruct (reason e) eqn:Hr; unfold covers in Hce; rewrite Hr in Hce; try done.
    - by apply (c_base _ _ _ _ Hc e q).
    - apply bool_decide_eq_true in Hce. by rewrite <- Hce in Hno. }
  assert (Hmain : complete t0 (graft sub P t) l' dirs).
  { split.
    - intros q Hq. unfold l'. rewrite cov_cons, del_cons_live by done.
      destruct (under_dec q P) as [HqP|HqP]; [left; cbn; by rewrite HqP|].
      rewrite graft_out by done. destruct (c_cov _ _ _ _ Hc q Hq) as [->|?]; [|auto].
      left. apply orb_true_r.
    - intros c e Hcd He Hu. apply elem_of_cons in He as [->|He]; [|by apply (c_created _ _ _ _ Hc c)].
      by destruct (HnP c Hcd).
    - intros e p He Hu Hne. apply elem_of_cons in He as [->|He].
      + apply Hdir. apply under_child in Hu as [->|Hu]; [done| |done].
        destruct (decide (p = pp)) as [->|]; [done|]. destruct Hpp as (y & Hy & _).
        by apply (Hwf pp p y).
      + by apply Hdir, (c_parent _ _ _ _ Hc e).
    - intros c Hcd. destruct (c_owner _ _ _ _ Hc c Hcd) as (Hd & e & He & ?).
      split; [by apply Hdir|]. exists e. split; [by right|done].
    - intros e He Hl. apply elem_of_cons in He as [->|He].
      + exists n. cbn. by rewrite graft_in by apply under_refl.
      + destruct (c_live _ _ _ _ Hc e He Hl) as (x & Hx & Hu). exists x.
        rewrite graft_out; [done|]. intros HP. by rewrite (wf_none t P) in Hx.
    - intros e q He Hr Hq. unfold l'. rewrite del_cons_live by done.
      apply elem_of_cons in He as [->|He]; [by apply Hbase|by apply (c_base _ _ _ _ Hc e)].
    - intros q x Hx Hd Hq. unfold l'. rewrite cov_cons.
      destruct (under_dec q P) as [HqP|HqP]; [cbn; by rewrite HqP|].
      rewrite graft_out in Hx by done. rewrite (c_dirty _ _ _ _ Hc q x) by done. apply orb_true_r.
    - split; [|apply Hc]. intros e He Hl. unfold has_key. cbn.
      destruct (bool_decide (full_path e = P)) eqn:E; [|apply andb_false_r].
      apply bool_decide_eq_true in E.
      destruct (no_live_below _ _ _ _ P e Hwf Hc Hnone He Hl). rewrite E. apply under_refl.
    - intros e e' He He' Hr Hdel Heq Hd.
      apply elem_of_cons in He' as [->|He']; [done|].
      apply elem_of_cons in He as [->|He].
      + apply Hself; try done. destruct Hd as (y & Hy & Hyd). cbn in Hy.
        rewrite graft_in in Hy by apply under_refl. congruence.
      + apply (c_self _ _ _ _ Hc e e'); try done. destruct Hd as (x & Hx & Hd).
        destruct (c_live _ _ _ _ Hc e He) as (y & Hy & _); [unfold live; by rewrite Hr|].
        exists y. split; [done|]. rewrite graft_out in Hx; [congruence|].
        intros HP. by rewrite (wf_none t P) in Hy. }
  split; [done|]. intros Hd. split; try apply Hmain.
  - intros c e Hcd He Hu. apply elem_of_app in Hcd as [Hcd|Hcd].
    + by apply (c_created _ _ _ _ Hmain c).
    + apply list_elem_of_singleton in Hcd as ->. apply elem_of_cons in He as [->|He]; [done|auto].
  - intros c Hcd. apply elem_of_app in Hcd as [Hcd|Hcd]; [by apply (c_owner _ _ _ _ Hmain)|].
    apply list_elem_of_singleton in Hcd as ->. split.
    + exists n. rewrite graft_in by apply under_refl. split; [done|congruence].
    + exists e0. split; [by left|done].
Qed.

(** ** Modification *)

(** Changing an object the journal covers. *)
Lemma modify_covered t0 t l dirs p n data :
  complete t0 t l dirs -> t p = Some n -> cov l p = true ->
  complete t0 (set_node p (mk_node (n_uid n) (n_isdir n) data true) t) l dirs.
Proof.
  intros Hc Hp Hcov.
  pose proof (fun r => set_node_dir t p n data r Hp) as Hdir.
  split.
  - intros q Hq. unfold set_node. destruct (bool_decide (q = p)) eqn:E.
    + apply bool_decide_eq_true in E as ->. by left.
    + by apply (c_cov _ _ _ _ Hc).
  - apply Hc.
  - intros e r He Hu Hne. by apply Hdir, (c_parent _ _ _ _ Hc e).
  - intros c Hcd. destruct (c_owner _ _ _ _ Hc c Hcd). auto.
  - intros e He Hl. destruct (c_live _ _ _ _ Hc e He Hl) as (x & Hx & Hu). unfold set_node.
    destruct (bool_decide (full_path e = p)) eqn:E; [|by exists x].
    apply bool_decide_eq_true in E. eexists. split; [done|]. cbn. congruence.
  - apply Hc.
  - intros q x Hx Hd Hq. unfold set_node in Hx. destruct (bool_decide (q = p)) eqn:E.
    + by apply bool_decide_eq_true in E as ->.
    + by apply (c_dirty _ _ _ _ Hc q x).
  - apply Hc.
  - intros e e' He He' Hr Hdel Heq (x & Hx & Hd). apply (c_self _ _ _ _ Hc e e'); try done.
    unfold set_node in Hx. destruct (bool_decide (full_path e = p)) eqn:E; [|by exists x].
    apply bool_decide_eq_true in E as ->. exists n. injection Hx as <-. done.
Qed.

(** Adding the entry of a modified object. *)
Lemma modify_add t0 t l dirs p d n :
  wf_tree t -> complete t0 t l dirs -> t p = Some n -> n_uid n = d_uid d ->
  List.find (has_key p (d_uid d)) l = None -> (forall c, c ∈ dirs -> ~ p ⊑ c) ->
  complete t0 t (mk_jentry p (d_uid d) MODIFY (Some d) None :: l) dirs.
Proof.
  intros Hwf Hc Hp Huid Hf Hskip. set (e0 := mk_jentry p (d_uid d) MODIFY (Some d) None).
  assert (Hlive0 : live e0) by done.
  split.
  - intros q Hq. rewrite cov_cons, del_cons_live by done.
    destruct (c_cov _ _ _ _ Hc q Hq) as [->|?]; [|auto]. left. apply orb_true_r.
  - intros c e Hcd He Hu. apply elem_of_cons in He as [->|He]; [|by apply (c_created _ _ _ _ Hc c)].
    by destruct (Hskip c Hcd).
  - intros e r He Hu Hne. apply elem_of_cons in He as [->|He]; [by apply (Hwf p r n)|].
    by apply (c_parent _ _ _ _ Hc e).
  - intros c Hcd. destruct (c_owner _ _ _ _ Hc c Hcd) as (Hd & e & He & ?).
    split; [done|]. exists e. split; [by right|done].
  - intros e He Hl. apply elem_of_cons in He as [->|He]; [by exists n|by apply (c_live _ _ _ _ Hc)].
  - intros e q He Hr Hq. rewrite del_cons_live by done.
    apply elem_of_cons in He as [->|He]; [done|by apply (c_base _ _ _ _ Hc e)].
  - intros q x Hx Hd Hq. rewrite cov_cons, (c_dirty _ _ _ _ Hc q x) by done. apply orb_true_r.
  - split; [|apply Hc]. intros e He Hl. cbn. apply list_elem_of_In in He.
    by apply (List.find_none _ _ Hf).
  - intros e e' He He' Hr Hdel Heq Hd.
    apply elem_of_cons in He' as [->|He']; [done|].
    apply elem_of_cons in He as [->|He]; [done|]. by apply (c_self _ _ _ _ Hc e e').
Qed.

Lemma cov_live_entry t0 t l dirs p n e :
  complete t0 t l dirs -> p <> root -> t p = Some n ->
  e ∈ l -> full_path e = p -> cov l p = true.
Proof.
  intros Hc Hr Hp He Hpe. destruct (is_delete (reason e)) eqn:Hd.
  - destruct (c_cov _ _ _ _ Hc p Hr) as [?|[[? _]|[_ Hnd]]]; [done|congruence|].
    exfalso. apply not_true_iff_false in Hnd. apply Hnd, del_spec. exists e. split; [done|].
    apply deletes_spec. split; [done|]. rewrite Hpe. apply under_refl.
  - apply cov_spec. exists e. split; [done|]. unfold covers. destruct (reason e); try done.
    + rewrite Hpe. apply under_refl.
    + by apply bool_decide_eq_true.
Qed.

Lemma cov_created t0 t l dirs p c :
  complete t0 t l dirs -> c ∈ dirs -> p ⊑ c -> cov l p = true.
Proof.
  intros Hc Hcd Hp. destruct (c_owner _ _ _ _ Hc c Hcd) as (_ & e & He & Hr & Hpe).
  apply cov_spec. exists e. split; [done|]. unfold covers. by rewrite Hr, Hpe.
Qed.

(** ** Removal *)

(** What is common to all removals: [l'] is a journal that still covers or
    deletes what it did outside [p], and below [p] deletes what the last index
    had (or an ancestor of [p] is created in this session). *)
Lemma remove_complete t0 t l dirs l' dirs' p :
  wf_tree t -> complete t0 t l dirs ->
  (forall c, c ∈ dirs' -> c ∈ dirs /\ ~ c ⊑ p) ->
  (forall c, c ∈ dirs' -> exists e, e ∈ l' /\ reason e = CREATE /\ full_path e = c) ->
  (forall e, e ∈ l' -> live e -> e ∈ l /\ ~ full_path e ⊑ p) ->
  (forall e, e ∈ l' -> ~ live e -> full_path e ⊑ p -> full_path e = p) ->
  (forall e, e ∈ l' -> (e ∈ l \/ full_path e = p)) ->
  (forall e c, e ∈ l' -> c ∈ dirs' -> full_path e ⊑ c -> full_path e = c) ->
  (forall q, ~ q ⊑ p -> cov l' q = cov l q /\ del l' q = del l q) ->
  (forall q, q <> root -> q ⊑ p -> cov l' q = true \/ del l' q = true \/ t0 q = None) ->
  (forall q e, e ∈ l' -> reason e = CREATE -> q ⊑ full_path e -> q ⊑ p ->
     del l' q = true \/ t0 q = None) ->
  (exists n, t p = Some n) -> keyed l' ->
  complete t0 (graft no_tree p t) l' dirs'.
Proof.
  intros Hwf Hc Hdirs Hown Hlive Hdead Hin Hcre Hout Hbelow Hbase [n Hp] Hkey.
  assert (Hdir : forall r, is_dir t r -> ~ r ⊑ p -> is_dir (graft no_tree p t) r).
  { intros r (y & Hy & Hd) Hr. exists y. by rewrite graft_out. }
  split.
  - intros q Hq. destruct (under_dec q p) as [Hqp|Hqp].
    + rewrite graft_in by done. destruct (Hbelow q Hq Hqp) as [?|[?|?]]; auto.
      destruct (del l' q) eqn:?; auto.
    + rewrite graft_out by done. destruct (Hout q Hqp) as [-> ->]. by apply (c_cov _ _ _ _ Hc).
  - intros c e Hcd He. by apply Hcre.
  - intros e r He Hu Hne.
    assert (Hnr : ~ r ⊑ p).
    { intros Hrp. pose proof (under_trans _ _ _ Hu Hrp) as Hep.
      destruct (is_delete (reason e)) eqn:Hdel.
      - assert (full_path e = p) as Heq by (apply Hdead; try done; unfold live; congruence).
        apply Hne, under_antisym; [done|by rewrite Heq].
      - destruct (Hlive e He Hdel) as [_ ?]. done. }
    apply Hdir; [|done]. destruct (Hin e He) as [Hel|Heq].
    + by apply (c_parent _ _ _ _ Hc e).
    + rewrite Heq in *. by apply (Hwf p r n).
  - intros c Hcd. destruct (Hdirs c Hcd) as [Hcd' Hncp]. split; [|by apply Hown].
    apply Hdir; [by apply (c_owner _ _ _ _ Hc)|done].
  - intros e He Hl. destruct (Hlive e He Hl) as [Hel Hnp].
    destruct (c_live _ _ _ _ Hc e Hel Hl) as (x & Hx & Hu). exists x. by rewrite graft_out.
  - intros e q He Hr Hq. destruct (under_dec q p) as [Hqp|Hqp]; [by apply (Hbase q e)|].
    destruct (Hout q Hqp) as [_ ->]. apply (c_base _ _ _ _ Hc e); try done.
    apply Hlive; [done|]. unfold live. by rewrite Hr.
  - intros q x Hx Hd Hq. destruct (under_dec q p) as [Hqp|Hqp].
    { by rewrite graft_in in Hx by done. }
    rewrite graft_out in Hx by done. destruct (Hout q Hqp) as [-> _].
    by apply (c_dirty _ _ _ _ Hc q x).
  - done.
  - intros e e' He He' Hr Hdel Heq (x & Hx & Hd).
    destruct (Hlive e He) as [Hel Hnp]; [unfold live; by rewrite Hr|].
    rewrite graft_out in Hx by done.
    apply (c_self _ _ _ _ Hc e e'); try done; [|by exists x].
    destruct (Hin e' He') as [?|Hep]; [done|]. exfalso. apply Hnp. rewrite <- Heq, Hep. apply under_refl.
Qed.

Lemma del_first_elem p uid l e : e ∈ del_first p uid l -> e ∈ l.
Proof.
  induction l as [|x l IH]; cbn; [done|]. destruct (has_key p uid x); [by right|].
  rewrite !elem_of_cons. intros [?|?]; auto.
Qed.

Lemma elem_del_first p uid l e : e ∈ l -> has_key p uid e = false -> e ∈ del_first p uid l.
Proof.
  induction l as [|x l IH]; cbn; [by rewrite elem_of_nil|]. rewrite elem_of_cons. intros [->|He] Hk.
  - rewrite Hk. left.
  - destruct (has_key p uid x); [done|]. right. auto.
Qed.

Lemma del_first_keyed p uid l : keyed l -> keyed (del_first p uid l).
Proof.
  induction l as [|x l IH]; cbn; [done|]. intros [Hx Hk]. destruct (has_key p uid x); [done|].
  split; [|auto]. intros e He. apply Hx. by apply del_first_elem in He.
Qed.

(** A live entry that the deletion keeps does not have the key. *)
Lemma del_first_live p uid l e :
  keyed l -> e ∈ del_first p uid l -> live e ->
  (exists e0, List.find (has_key p uid) l = Some e0) -> has_key p uid e = false.
Proof.
  induction l as [|x l IH]; cbn; [by rewrite elem_of_nil|]. intros [Hx Hk] He Hl Hf.
  destruct (has_key p uid x) eqn:Hxk.
  - specialize (Hx e He Hl). unfold has_key in *. bsplit. apply bool_decide_eq_true in H0. by subst.
  - apply elem_of_cons in He as [->|He]; [done|]. by apply IH.
Qed.

Lemma existsb_del_first f p uid l e0 :
  List.find (has_key p uid) l = Some e0 -> f e0 = false ->
  existsb f (del_first p uid l) = existsb f l.
Proof.
  induction l as [|x l IH]; cbn; [done|]. destruct (has_key p uid x).
  - intros [= ->] ->. done.
  - intros Hf Hfe. cbn. by rewrite IH.
Qed.

Lemma existsb_update_first f g p uid l e0 :
  List.find (has_key p uid) l = Some e0 -> f (g e0) = f e0 ->
  existsb f (update_first p uid g l) = existsb f l.
Proof.
  induction l as [|x l IH]; cbn; [done|]. destruct (has_key p uid x); cbn.
  - intros [= ->] ->. done.
  - intros Hf Hfe. by rewrite IH.
Qed.

Lemma update_first_elem p uid g l e e0 :
  List.find (has_key p uid) l = Some e0 -> e ∈ update_first p uid g l -> e ∈ l \/ e = g e0.
Proof.
  induction l as [|x l IH]; cbn; [done|]. destruct (has_key p uid x).
  - intros [= ->]. rewrite !elem_of_cons. intuition.
  - intros Hf. rewrite !elem_of_cons. intros [?|He]; [auto|]. destruct (IH Hf He); auto.
Qed.

Lemma elem_update_first p uid g l e :
  e ∈ l -> has_key p uid e = false -> e ∈ update_first p uid g l.
Proof.
  induction l as [|x l IH]; cbn; [by rewrite elem_of_nil|]. rewrite elem_of_cons. intros [->|He] Hk.
  - rewrite Hk. left.
  - destruct (has_key p uid x); right; auto.
Qed.

Lemma elem_update_first_new p uid g l e0 :
  List.find (has_key p uid) l = Some e0 -> g e0 ∈ update_first p uid g l.
Proof.
  induction l as [|x l IH]; cbn; [done|]. destruct (has_key p uid x).
  - intros [= ->]. left.
  - intros Hf. right. auto.
Qed.

Lemma update_first_live p uid g l e :
  (forall x, ~ live (g x)) -> keyed l -> e ∈ update_first p uid g l -> live e ->
  (exists e0, List.find (has_key p uid) l = Some e0) -> e ∈ l /\ has_key p uid e = false.
Proof.
  intros Hg. induction l as [|x l IH]; cbn; [by rewrite elem_of_nil|]. intros [Hx Hk] He Hl Hf.
  destruct (has_key p uid x) eqn:Hxk.
  - apply elem_of_cons in He as [->|He]; [by destruct (Hg x)|].
    specialize (Hx e He Hl). unfold has_key in *. bsplit. apply bool_decide_eq_true in H0. subst.
    split; [by right|done].
  - apply elem_of_cons in He as [->|He]; [split; [left|done]|].
    destruct (IH Hk He Hl Hf). split; [by right|done].
Qed.

Lemma update_first_keyed p uid g l :
  (forall x, ~ live (g x)) -> (forall x, full_path (g x) = full_path x /\ j_uid (g x) = j_uid x) ->
  keyed l -> keyed (update_first p uid g l).
Proof.
  intros Hg Hkey. induction l as [|x l IH]; cbn; [done|]. intros [Hx Hk].
  destruct (has_key p uid x); cbn.
  - destruct (Hkey x) as [-> ->]. done.
  - split; [|auto]. intros e He Hl.
    destruct (List.find (has_key p uid) l) as [e0|] eqn:Hf.
    + apply (update_first_elem _ _ _ _ _ _ Hf) in He as [He| ->]; [auto|by destruct (Hg e0)].
    + apply Hx; [|done]. clear -He Hf. induction l as [|y l IH]; cbn in *; [done|].
      destruct (has_key p uid y); [done|]. apply elem_of_cons in He as [->|He]; [left|right; auto].
Qed.

(** What a file's path implies. *)
Lemma file_below t p n q :
  wf_tree t -> t p = Some n -> n_isdir n = false -> q ⊑ p -> (exists x, t q = Some x) -> q = p.
Proof.
  intros Hwf Hp Hf Hq [x Hx]. destruct (decide (q = p)); [done|].
  destruct (Hwf _ _ _ Hx Hq) as (y & Hy & Hd); [done|congruence].
Qed.

Section rmfile.
Context (t0 t : tree) (l : list jentry) (dirs : list path) (p : path) (n : node).
Context (Hwf : wf_tree t) (Hc : complete t0 t l dirs) (Hroot : p <> root).
Context (Hp : t p = Some n) (Hfile : n_isdir n = false).

Lemma file_not_dir : ~ is_dir t p.
Proof. intros (x & Hx & Hd). congruence. Qed.

Lemma file_dirs c : c ∈ dirs -> c ∈ dirs /\ ~ c ⊑ p.
Proof.
  intros Hcd. split; [done|]. intros Hu. destruct (c_owner _ _ _ _ Hc c Hcd) as [Hd _].
  apply file_not_dir. rewrite <- (file_below t p n c); try done. destruct Hd as (x & Hx & _). by exists x.
Qed.

Lemma file_dead e : e ∈ l -> full_path e ⊑ p -> full_path e = p.
Proof.
  intros He Hu. destruct (decide (full_path e = p)); [done|].
  destruct file_not_dir. by apply (c_parent _ _ _ _ Hc e).
Qed.

Lemma file_live_key e : e ∈ l -> live e -> full_path e ⊑ p -> has_key p (n_uid n) e = true.
Proof.
  intros He Hl Hu. pose proof (file_dead e He Hu) as Heq.
  destruct (c_live _ _ _ _ Hc e He Hl) as (x & Hx & Hxu). unfold has_key.
  rewrite Heq in Hx. rewrite bool_decide_eq_true_2 by done.
  replace (j_uid e =? n_uid n) with true; [done|]. symmetry. apply Z.eqb_eq. congruence.
Qed.

Lemma rmfile_created e0 :
  List.find (has_key p (n_uid n)) l = Some e0 -> reason e0 = CREATE ->
  complete t0 (graft no_tree p t) (del_first p (n_uid n) l) dirs.
Proof.
  intros Hf Hr. destruct (find_spec _ _ _ _ Hf) as (He0 & Hpe & _).
  assert (Hdel : forall q, del (del_first p (n_uid n) l) q = del l q).
  { intros q. apply (existsb_del_first _ _ _ _ e0 Hf). unfold deletes. by rewrite Hr. }
  assert (Hbase : forall q, q ⊑ p -> del (del_first p (n_uid n) l) q = true \/ t0 q = None).
  { intros q Hq. rewrite Hdel. apply (c_base _ _ _ _ Hc e0); congruence. }
  apply (remove_complete t0 t l dirs); try done.
  - apply file_dirs.
  - intros c Hcd. destruct (c_owner _ _ _ _ Hc c Hcd) as (_ & e & He & Hre & Hce).
    exists e. split; [|done]. apply elem_del_first; [done|]. unfold has_key.
    rewrite (bool_decide_eq_false_2 (full_path e = p)); [apply andb_false_r|].
    intros Heq. destruct (file_dirs c Hcd) as [_ Hn]. apply Hn. rewrite <- Hce, Heq. apply under_refl.
  - intros e He Hl. pose proof (del_first_elem _ _ _ _ He) as Hel. split; [done|]. intros Hu.
    pose proof (file_live_key e Hel Hl Hu) as Hk.
    rewrite (del_first_live _ _ _ _ (c_key _ _ _ _ Hc) He Hl) in Hk; [done|by exists e0].
  - intros e He _. by apply file_dead, (del_first_elem p (n_uid n)).
  - intros e He. left. by apply del_first_elem in He.
  - intros e c He Hcd. by apply (c_created _ _ _ _ Hc c), (del_first_elem p (n_uid n)).
  - intros q Hq. split; [|apply Hdel]. apply (existsb_del_first _ _ _ _ e0 Hf).
    unfold covers. rewrite Hr, Hpe. by apply not_true_iff_false.
  - intros q _ Hq. right. by apply Hbase.
  - intros q e _ _ _ Hq. by apply Hbase.
  - by exists n.
  - apply del_first_keyed, Hc.
Qed.

Lemma rmfile_modified e0 g :
  List.find (has_key p (n_uid n)) l = Some e0 -> reason e0 = MODIFY ->
  (forall x, is_delete (reason (g x)) = true) ->
  (forall x, full_path (g x) = full_path x /\ j_uid (g x) = j_uid x) ->
  complete t0 (graft no_tree p t) (update_first p (n_uid n) g l) dirs.
Proof.
  intros Hf Hr Hgd Hgk. destruct (find_spec _ _ _ _ Hf) as (He0 & Hpe & _).
  assert (Hgl : forall x, ~ live (g x)) by (intros x; unfold live; by rewrite Hgd).
  assert (Hgp : full_path (g e0) = p) by (by destruct (Hgk e0) as [-> _]).
  pose proof (elem_update_first_new p (n_uid n) g l e0 Hf) as Hnew.
  assert (Hdel : forall q, q ⊑ p -> del (update_first p (n_uid n) g l) q = true).
  { intros q Hq. apply del_spec. exists (g e0). split; [done|]. apply deletes_spec.
    by rewrite Hgp. }
  assert (Hlv : forall e, e ∈ update_first p (n_uid n) g l -> live e ->
            e ∈ l /\ has_key p (n_uid n) e = false)
    by (intros e He Hl; apply (update_first_live p (n_uid n) g); try done; [apply Hc|by exists e0]).
  apply (remove_complete t0 t l dirs); try done.
  - apply file_dirs.
  - intros c Hcd. destruct (c_owner _ _ _ _ Hc c Hcd) as (_ & e & He & Hre & Hce).
    exists e. split; [|done]. apply elem_update_first; [done|]. unfold has_key.
    rewrite (bool_decide_eq_false_2 (full_path e = p)); [apply andb_false_r|].
    intros Heq. destruct (file_dirs c Hcd) as [_ Hn]. apply Hn. rewrite <- Hce, Heq. apply under_refl.
  - intros e He Hl. destruct (Hlv e He Hl) as [Hel Hk]. split; [done|]. intros Hu.
    by rewrite (file_live_key e Hel Hl Hu) in Hk.
  - intros e He _ Hu. apply (update_first_elem _ _ _ _ _ _ Hf) in He as [He| ->]; [|done].
    by apply file_dead.
  - intros e He. apply (update_first_elem _ _ _ _ _ _ Hf) in He as [He| ->]; auto.
  - intros e c He Hcd Hu. apply (update_first_elem _ _ _ _ _ _ Hf) in He as [He| ->].
    + by apply (c_created _ _ _ _ Hc c).
    + rewrite Hgp in *. rewrite <- Hpe in *. by apply (c_created _ _ _ _ Hc c).
  - intros q Hq. split; apply (existsb_update_first _ _ _ _ _ e0 Hf).
    + unfold covers. pose proof (Hgd e0). rewrite Hr, Hpe.
      destruct (reason (g e0)); try done; rewrite bool_decide_eq_false_2; try done;
        intros ->; by destruct (Hq (under_refl p)).
    + unfold deletes. rewrite Hr, Hgd, Hgp. cbn. by apply not_true_iff_false.
  - intros q _ Hq. auto.
  - intros q e _ _ _ Hq. auto.
  - by exists n.
  - apply update_first_keyed; [done..|apply Hc].
Qed.

(** No live entry of the path. *)
Context (Hnolive : forall e, List.find (has_key p (n_uid n)) l = Some e -> ~ live e).

Lemma file_no_live e : e ∈ l -> live e -> ~ full_path e ⊑ p.
Proof.
  intros He Hl Hu. pose proof (file_live_key e He Hl Hu) as Hk. unfold has_key in Hk. bsplit.
  apply bool_decide_eq_true in H0.
  apply (Hnolive e); [|done]. rewrite <- H, <- H0. apply find_live; [apply Hc|done..].
Qed.

Lemma rmfile_skip c :
  c ∈ dirs -> p ⊑ c -> complete t0 (graft no_tree p t) l dirs.
Proof.
  intros Hcd Hpc. apply (remove_complete t0 t l dirs); try done.
  - apply file_dirs.
  - intros c' Hcd'. by apply (c_owner _ _ _ _ Hc).
  - intros e He Hl. split; [done|by apply file_no_live].
  - intros e He _. by apply file_dead.
  - intros e He. by left.
  - intros e c' He Hcd'. by apply (c_created _ _ _ _ Hc c').
  - intros q _ Hq. left. apply (cov_created _ _ _ _ _ _ Hc Hcd). by apply (under_trans _ p).
  - intros q e He Hr Hq _. by apply (c_base _ _ _ _ Hc e).
  - by exists n.
  - apply Hc.
Qed.

Lemma rmfile_add e0 :
  full_path e0 = p -> j_uid e0 = n_uid n -> is_delete (reason e0) = true ->
  (forall c, c ∈ dirs -> ~ p ⊑ c) ->
  complete t0 (graft no_tree p t) (e0 :: l) dirs.
Proof.
  intros Hpe Hue Hde Hskip.
  assert (Hdel : forall q, q ⊑ p -> del (e0 :: l) q = true).
  { intros q Hq. apply del_spec. exists e0. split; [left|]. apply deletes_spec. by rewrite Hpe. }
  assert (Hnl : ~ live e0) by (unfold live; congruence).
  apply (remove_complete t0 t l dirs); try done.
  - apply file_dirs.
  - intros c Hcd. destruct (c_owner _ _ _ _ Hc c Hcd) as (_ & e & He & ?).
    exists e. split; [by right|done].
  - intros e He Hl. apply elem_of_cons in He as [->|He]; [done|]. split; [done|by apply file_no_live].
  - intros e He _ Hu. apply elem_of_cons in He as [->|He]; [done|by apply file_dead].
  - intros e He. apply elem_of_cons in He as [->|He]; auto.
  - intros e c He Hcd Hu. apply elem_of_cons in He as [->|He]; [|by apply (c_created _ _ _ _ Hc c)].
    rewrite Hpe in Hu. by destruct (Hskip c Hcd).
  - intros q Hq. split.
    + rewrite cov_cons. unfold covers at 1. by destruct (reason e0).
    + unfold del. cbn. unfold deletes at 1. rewrite Hpe.
      replace (_is_same_or_under q p) with false by (symmetry; by apply not_true_iff_false).
      by rewrite andb_false_r.
  - intros q _ Hq. auto.
  - intros q e _ _ _ Hq. auto.
  - by exists n.
  - split; [|apply Hc]. intros e He Hl. destruct (has_key (full_path e0) (j_uid e0) e) eqn:Hk; [|done].
    destruct (file_no_live e He Hl). unfold has_key in Hk. bsplit. apply bool_decide_eq_true in H0.
    rewrite H0, Hpe. apply under_refl.
Qed.
End rmfile.
