(* ===== verification/JournalComplete.v ===== *)
(** * The journal recovers the current tree

    The removal of a directory, the preservation of the invariant of
    [JournalProps] by every operation, and the theorems about the journal. *)

From S2P Require Import Prelude LtfsError Journal JournalProps.

(** ** The two loops of [incj_rmdir] *)

Lemma rmdir_created_spec p l s dirs' s' early :
  rmdir_created p l s = (dirs', s', early) ->
  (forall c, c ∈ dirs' -> c ∈ l) /\
  (if early then exists c, c ∈ l /\ p ⊑ c /\ ~ c ⊑ p
   else (forall c, c ∈ dirs' -> ~ c ⊑ p /\ ~ p ⊑ c) /\
        (s' = true <-> s = true \/ p ∈ l)).
Proof.
  revert s dirs' s' early. induction l as [|c l IH]; intros s dirs' s' early; cbn.
  { intros [= <- <- <-]. split; [done|]. split; [by intros c ?%elem_of_nil|].
    rewrite elem_of_nil. tauto. }
  destruct (_is_same_or_under c p) eqn:Hcp.
  - intros Hr. apply IH in Hr as [Hsub Hrest]. split; [intros x Hx; right; auto|].
    destruct early.
    + destruct Hrest as (x & Hx & ?). exists x. split; [by right|done].
    + destruct Hrest as [Hall Hs]. split; [done|]. rewrite Hs, orb_true_iff, bool_decide_eq_true, elem_of_cons.
      tauto.
  - destruct (_is_same_or_under p c) eqn:Hpc.
    + intros [= <- <- <-]. split; [done|]. exists c. rewrite Hcp. split; [left|done].
    + destruct (rmdir_created p l s) as [[rest s1] e1] eqn:Hr. intros [= <- <- <-].
      apply IH in Hr as [Hsub Hrest]. split.
      { intros x Hx. apply elem_of_cons in Hx as [->|Hx]; [left|right; auto]. }
      destruct e1.
      * destruct Hrest as (x & Hx & ?). exists x. split; [by right|done].
      * destruct Hrest as [Hall Hs]. split.
        { intros x Hx. apply elem_of_cons in Hx as [->|Hx]; [by rewrite Hcp, Hpc|auto]. }
        rewrite Hs, elem_of_cons. split; [tauto|]. intros [?|[->|?]]; auto.
        by rewrite under_refl in Hcp.
Qed.

Lemma elem_of_filter_b {A} (f : A -> bool) l x : x ∈ List.filter f l <-> x ∈ l /\ f x = true.
Proof. rewrite !list_elem_of_In. apply filter_In. Qed.

Lemma existsb_filter {A} (f k : A -> bool) l :
  (forall x, x ∈ l -> k x = false -> f x = false) -> existsb f (List.filter k l) = existsb f l.
Proof.
  induction l as [|x l IH]; intros Hf; [done|]. cbn.
  assert (IH' : existsb f (List.filter k l) = existsb f l).
  { apply IH. intros y Hy. apply Hf. by right. }
  destruct (k x) eqn:Hk; cbn; rewrite IH'; [done|].
  rewrite (Hf x); [done|left|done].
Qed.

Lemma keyed_filter k l : keyed l -> keyed (List.filter k l).
Proof.
  induction l as [|x l IH]; cbn; [done|]. intros [Hx Hk]. destruct (k x); [|auto].
  split; [|auto]. intros e He. apply Hx. by apply (elem_of_filter_b k) in He as [? _].
Qed.

Lemma rmdir_keeps_spec p uid e :
  rmdir_keeps p uid e = true <->
  ~ full_path e ⊑ p \/ (j_uid e <> uid /\ full_path e = p /\ is_delete (reason e) = true).
Proof.
  unfold rmdir_keeps. rewrite orb_true_iff, !andb_true_iff, !negb_true_iff, bool_decide_eq_true,
    Z.eqb_neq, <- not_true_iff_false. tauto.
Qed.

Section rmdir.
Context (t0 t : tree) (l : list jentry) (dirs dirs' : list path) (p : path) (n : node).
Context (Hwf : wf_tree t) (Hc : complete t0 t l dirs) (Hp : t p = Some n).

(** An ancestor was created in this session: nothing to record. *)
Lemma rmdir_early c :
  c ∈ dirs -> p ⊑ c -> ~ c ⊑ p -> (forall c, c ∈ dirs' -> c ∈ dirs) ->
  complete t0 (graft no_tree p t) l dirs'.
Proof.
  intros Hcd Hpc Hncp Hsub.
  assert (Hno : forall e, e ∈ l -> ~ full_path e ⊑ p).
  { intros e He Hu. apply Hncp.
    rewrite <- (c_created _ _ _ _ Hc c e Hcd He); [done|by apply (under_trans _ p)]. }
  apply (remove_complete t0 t l dirs); try done.
  - intros c' Hc'. split; [auto|]. destruct (c_owner _ _ _ _ Hc c' (Hsub c' Hc')) as (_ & e & He & _ & <-).
    by apply Hno.
  - intros c' Hc'. by apply (c_owner _ _ _ _ Hc), Hsub.
  - intros e He _. auto.
  - intros e He _ Hu. by destruct (Hno e He).
  - auto.
  - intros e c' He Hc'. by apply (c_created _ _ _ _ Hc); auto.
  - intros q _ Hq. left. apply (cov_created _ _ _ _ _ _ Hc Hcd). by apply (under_trans _ p).
  - intros q e He Hr Hq _. by apply (c_base _ _ _ _ Hc e).
  - by exists n.
  - apply Hc.
Qed.

Context (Hsub : forall c, c ∈ dirs' -> c ∈ dirs).
Context (Hdisj : forall c, c ∈ dirs' -> ~ c ⊑ p /\ ~ p ⊑ c).

Abbreviation kept := (List.filter (rmdir_keeps p (n_uid n)) l).

Lemma kept_elem e : e ∈ kept <-> e ∈ l /\ (~ full_path e ⊑ p \/
  (j_uid e <> n_uid n /\ full_path e = p /\ is_delete (reason e) = true)).
Proof. by rewrite elem_of_filter_b, rmdir_keeps_spec. Qed.

Lemma kept_live e : e ∈ kept -> live e -> e ∈ l /\ ~ full_path e ⊑ p.
Proof. rewrite kept_elem. unfold live. intros [? [?|(_ & _ & ?)]] ?; [done|congruence]. Qed.

Lemma kept_dead e : e ∈ kept -> full_path e ⊑ p -> full_path e = p.
Proof. rewrite kept_elem. tauto. Qed.

Lemma kept_owner c : c ∈ dirs' -> exists e, e ∈ kept /\ reason e = CREATE /\ full_path e = c.
Proof.
  intros Hcd. destruct (c_owner _ _ _ _ Hc c (Hsub c Hcd)) as (_ & e & He & Hr & <-).
  exists e. split; [|done]. apply kept_elem. split; [done|left]. by apply Hdisj.
Qed.

Lemma kept_same f q :
  (forall e, f e = true -> q ⊑ full_path e) -> ~ q ⊑ p -> existsb f kept = existsb f l.
Proof.
  intros Hf Hq. apply existsb_filter. intros e _ Hk. apply not_true_iff_false. intros Hfe.
  apply not_true_iff_false in Hk. apply Hk, rmdir_keeps_spec. left. intros Hu.
  apply Hq. by apply (under_trans _ (full_path e)); auto.
Qed.

Lemma kept_cov q : ~ q ⊑ p -> cov kept q = cov l q /\ del kept q = del l q.
Proof.
  intros Hq. split; apply (kept_same _ q); try done; intros e.
  - apply covers_live.
  - apply deletes_spec.
Qed.

(** The directory itself was created in this session: its entry goes away, the
    deletion of what the last index had there stays. *)
Lemma rmdir_self : p ∈ dirs -> complete t0 (graft no_tree p t) kept dirs'.
Proof.
  intros Hself. destruct (c_owner _ _ _ _ Hc p Hself) as (Hd & e & He & Hr & Hpe).
  assert (Hbase : forall q, q ⊑ p -> del kept q = true \/ t0 q = None).
  { intros q Hq. destruct (c_base _ _ _ _ Hc e q He Hr) as [Hdel|?]; [by rewrite Hpe| |auto].
    left. apply del_spec in Hdel as (e' & He' & Hde). apply deletes_spec in Hde as [Hde Hqe].
    apply del_spec. exists e'. split; [|by apply deletes_spec]. apply kept_elem. split; [done|].
    destruct (under_dec (full_path e') p) as [Hu|]; [right|by left].
    pose proof (c_created _ _ _ _ Hc p e' Hself He' Hu) as Heq. split; [|done].
    destruct (c_live _ _ _ _ Hc e He) as (x & Hx & Hxu); [unfold live; by rewrite Hr|].
    rewrite Hpe in Hx. assert (n_uid n = j_uid e) as -> by congruence.
    apply (c_self _ _ _ _ Hc); try done; congruence. }
  apply (remove_complete t0 t l dirs); try done.
  - intros c Hcd. split; [auto|by apply Hdisj].
  - apply kept_owner.
  - apply kept_live.
  - intros x Hx _. by apply kept_dead.
  - intros x Hx. left. by apply kept_elem in Hx as [? _].
  - intros x c Hx Hcd. apply (c_created _ _ _ _ Hc); [auto|by apply kept_elem in Hx as [? _]].
  - apply kept_cov.
  - intros q _ Hq. right. auto.
  - intros q x _ _ _. auto.
  - by exists n.
  - apply keyed_filter, Hc.
Qed.

(** Otherwise the deletion is recorded. *)
Lemma rmdir_add e0 :
  full_path e0 = p -> is_delete (reason e0) = true ->
  complete t0 (graft no_tree p t) (e0 :: kept) dirs'.
Proof.
  intros Hpe Hde.
  assert (Hdel : forall q, q ⊑ p -> del (e0 :: kept) q = true).
  { intros q Hq. apply del_spec. exists e0. split; [left|]. apply deletes_spec. by rewrite Hpe. }
  assert (Hnl : ~ live e0) by (unfold live; congruence).
  apply (remove_complete t0 t l dirs); try done.
  - intros c Hcd. split; [auto|by apply Hdisj].
  - intros c Hcd. destruct (kept_owner c Hcd) as (e & He & ?). exists e. split; [by right|done].
  - intros e He Hl. apply elem_of_cons in He as [->|He]; [done|by apply kept_live].
  - intros e He _ Hu. apply elem_of_cons in He as [->|He]; [done|by apply kept_dead].
  - intros e He. apply elem_of_cons in He as [->|He]; [auto|left; by apply kept_elem in He as [? _]].
  - intros e c He Hcd Hu. apply elem_of_cons in He as [->|He].
    + rewrite Hpe in Hu. by destruct (Hdisj c Hcd).
    + apply (c_created _ _ _ _ Hc); try done; [auto|by apply kept_elem in He as [? _]].
  - intros q Hq. destruct (kept_cov q Hq) as [Hcov Hdl]. split.
    + rewrite cov_cons. unfold covers at 1. by destruct (reason e0).
    + unfold del in *. cbn. unfold deletes at 1. rewrite Hpe.
      replace (_is_same_or_under q p) with false by (symmetry; by apply not_true_iff_false).
      by rewrite andb_false_r.
  - intros q _ Hq. auto.
  - intros q e _ _ _ Hq. auto.
  - by exists n.
  - split; [|apply keyed_filter, Hc]. intros e He Hl.
    destruct (has_key (full_path e0) (j_uid e0) e) eqn:Hk; [|done].
    destruct (kept_live e He Hl) as [_ []]. unfold has_key in Hk. bsplit.
    apply bool_decide_eq_true in H0. rewrite H0, Hpe. apply under_refl.
Qed.
End rmdir.

(** ** Every operation preserves the invariant *)

Definition journal_inv (t0 : tree) (s : tree * jvolume) : Prop :=
  wf_tree s.1 /\ (journal_err s.2 = false -> complete t0 s.1 (journal s.2) (created_dirs s.2)).

Lemma not_created_above p v : created_above p v = false -> forall c, c ∈ created_dirs v -> ~ p ⊑ c.
Proof.
  intros Ha c Hc Hp. apply not_true_iff_false in Ha. apply Ha, created_above_spec. by exists c.
Qed.

Lemma create_inv t0 t v pp d sub n pok eok jok r v' :
  journal_inv t0 (t, v) -> is_dir t pp -> char_slash ∉ d_name d ->
  let P := pp ++ char_slash :: d_name d in
  t P = None -> sub P = Some n -> n_uid n = d_uid d -> n_isdir n = d_isdir d ->
  (forall e, e ∈ journal v -> is_delete (reason e) = true ->
     full_path e = P -> d_isdir d = true -> j_uid e <> d_uid d) ->
  incj_create pok eok jok pp d v = (r, v') ->
  journal_err v' = false -> complete t0 (graft sub P t) (journal v') (created_dirs v').
Proof.
  intros [Hwf Hc] Hpp Hn P Hnone Hsub Hu Hd Hself. cbn in Hwf, Hc. unfold incj_create.
  destruct (journal_err v) eqn:Herr; [intros [= _ <-]; congruence|]. specialize (Hc eq_refl).
  destruct (created_above pp v) eqn:Ha.
  { intros [= _ <-] _. apply created_above_spec in Ha as (c & Hcd & Hpc).
    by apply (create_skip t0 t _ _ sub pp (d_name d) c). }
  destruct (negb pok || negb eok); [by intros [= _ <-]|].
  destruct (create_add t0 t (journal v) (created_dirs v) sub pp d n) as [Hadd Hdir]; try done.
  { by apply not_created_above. }
  destruct (d_isdir d); [destruct jok|]; intros [= _ <-] _; cbn; [by apply Hdir|done..].
Qed.

Lemma modify_inv t0 t v p d n data kok eok fp r v' :
  journal_inv t0 (t, v) -> p <> root -> t p = Some n -> n_uid n = d_uid d ->
  fp = Some p \/ fp = None ->
  ltfs_set_dentry_dirty kok eok fp true (n_dirty n) d v = (r, v') ->
  journal_err v' = false ->
  complete t0 (set_node p (mk_node (n_uid n) (n_isdir n) data true) t) (journal v') (created_dirs v').
Proof.
  intros [Hwf Hc] Hroot Hp Hu Hfp. cbn in Hwf, Hc. unfold ltfs_set_dentry_dirty. rewrite andb_true_r.
  destruct (n_dirty n) eqn:Hdirty; cbn.
  { intros [= _ <-] Herr. specialize (Hc Herr). apply modify_covered; try done.
    by apply (c_dirty _ _ _ _ Hc p n). }
  destruct fp as [q|]; [|by intros [= _ <-]].
  assert (q = p) as -> by (by destruct Hfp as [[= ->]|?]).
  intros [= _ <-]. unfold incj_modify.
  destruct (journal_err v) eqn:Herr; [cbn; congruence|]. specialize (Hc eq_refl).
  unfold _find_jentry. destruct kok; cbn.
  2: { by repeat case_match. }
  destruct (List.find _ _) as [e|] eqn:Hf; cbn.
  { intros _. apply modify_covered; try done. destruct (find_spec _ _ _ _ Hf) as (He & Hpe & _).
    by apply (cov_live_entry t0 t _ (created_dirs v) p n e). }
  destruct (created_above p v) eqn:Ha; cbn.
  { intros _. apply created_above_spec in Ha as (c & Hcd & Hpc).
    apply modify_covered; try done. by apply (cov_created _ _ _ _ _ c Hc). }
  destruct eok; [|done]. intros _. apply modify_covered; [|done|].
  - apply (modify_add t0 t _ _ p d n); try done. by apply not_created_above.
  - cbn. by rewrite bool_decide_eq_true_2.
Qed.

Lemma rmfile_inv t0 t v p d n kok pok eok nok r v' :
  journal_inv t0 (t, v) -> p <> root -> t p = Some n -> n_uid n = d_uid d -> n_isdir n = false ->
  incj_rmfile kok pok eok nok p d v = (r, v') ->
  journal_err v' = false -> complete t0 (graft no_tree p t) (journal v') (created_dirs v').
Proof.
  intros [Hwf Hc] Hroot Hp Hu Hfile. cbn in Hwf, Hc. unfold incj_rmfile.
  destruct (journal_err v) eqn:Herr; [intros [= _ <-]; congruence|]. specialize (Hc eq_refl).
  unfold _find_jentry. destruct kok; cbn.
  2: { repeat case_match; by intros [= _ <-]. }
  rewrite <- Hu.
  assert (Hrecord : (forall e, List.find (has_key p (n_uid n)) (journal v) = Some e -> ~ live e) ->
    (if created_above p v then (0, v)
     else if negb pok || negb eok || negb nok then (- LTFS_NO_MEMORY, v <| journal_err := true |>)
     else (0, add_entry (mk_jentry p (n_uid n) DELETE_FILE None (Some (_set_deleted_name p))) v))
      = (r, v') ->
    journal_err v' = false -> complete t0 (graft no_tree p t) (journal v') (created_dirs v')).
  { intros Hnl. destruct (created_above p v) eqn:Ha.
    { intros [= _ <-] _. apply created_above_spec in Ha as (c & Hcd & Hpc).
      by apply (rmfile_skip t0 t _ _ p n Hwf Hc Hp Hfile Hnl c). }
    destruct (negb pok || negb eok || negb nok); [by intros [= _ <-]|].
    intros [= _ <-] _. cbn. apply (rmfile_add t0 t _ _ p n); try done. by apply not_created_above. }
  destruct (List.find _ _) as [e|] eqn:Hf; [|apply Hrecord; by intros].
  destruct (reason e) eqn:Hr.
  - intros [= _ <-] _. cbn. by apply (rmfile_created t0 t _ _ p n Hwf Hc Hp Hfile e).
  - destruct nok; cbn; intros [= _ <-]; [|done]. intros _. cbn.
    by apply (rmfile_modified t0 t _ _ p n Hwf Hc Hroot Hp Hfile e).
  - apply Hrecord. intros ? [= <-]. unfold live. by rewrite Hr.
  - apply Hrecord. intros ? [= <-]. unfold live. by rewrite Hr.
Qed.

Lemma rmdir_inv t0 t v p d n pok eok nok r v' :
  journal_inv t0 (t, v) -> t p = Some n -> n_uid n = d_uid d ->
  incj_rmdir pok eok nok p d v = (r, v') ->
  journal_err v' = false -> complete t0 (graft no_tree p t) (journal v') (created_dirs v').
Proof.
  intros [Hwf Hc] Hp Hu. cbn in Hwf, Hc. unfold incj_rmdir.
  destruct (journal_err v) eqn:Herr; [intros [= _ <-]; congruence|]. specialize (Hc eq_refl).
  destruct (rmdir_created _ _ _) as [[dirs' self] early] eqn:Hl.
  apply rmdir_created_spec in Hl as [Hsub Hrest]. rewrite <- Hu. destruct early.
  { intros [= _ <-] _. cbn. destruct Hrest as (c & Hcd & Hpc & Hcp).
    by apply (rmdir_early t0 t _ (created_dirs v) dirs' p n Hwf Hc Hp c). }
  destruct Hrest as [Hdisj Hself]. destruct self.
  { intros [= _ <-] _. cbn. apply (rmdir_self t0 t _ (created_dirs v)); try done.
    by destruct Hself as [[?|?] _]. }
  destruct (negb pok || negb eok || negb nok); intros [= _ <-]; [done|]. intros _. cbn.
  by apply (rmdir_add t0 t _ (created_dirs v)).
Qed.

Lemma step_inv t0 s s' : fs_step s s' -> journal_inv t0 s -> journal_inv t0 s'.
Proof.
  intros Hs Hi. pose proof Hi as [Hwf _]. destruct Hs; (split; cbn in *; [|intros ?]).
  - by apply graft_wf.
  - by eapply create_inv.
  - by apply set_node_wf.
  - by eapply modify_inv.
  - by apply prune_wf.
  - by eapply rmfile_inv.
  - by apply prune_wf.
  - by eapply rmdir_inv.
Qed.

Definition clean (t : tree) : Prop := forall q n, t q = Some n -> q <> root -> n_dirty n = false.

Lemma start_inv t0 : wf_tree t0 -> clean t0 -> journal_inv t0 (t0, (incj_clear (mk_jvolume [] [] false)).2).
Proof.
  intros Hwf Hcl. split; [done|]. intros _. cbn.
  split; cbn; try done; try (by intros * ?%elem_of_nil); try (by intros * ? ?%elem_of_nil).
  - auto.
  - intros q n Hq Hd Hr. by rewrite (Hcl q n) in Hd.
Qed.

(** What a session of operations since the last index reaches. *)
Definition session (t0 : tree) (s : tree * jvolume) : Prop :=
  exists v, rtc fs_step (t0, (incj_clear v).2) s.

Lemma session_inv t0 s : wf_tree t0 -> clean t0 -> session t0 s -> journal_inv t0 s.
Proof.
  intros Hwf Hcl [v Hs]. assert (Hi : journal_inv t0 (t0, (incj_clear v).2)) by by apply start_inv.
  revert Hi. induction Hs as [|s1 s2 s3 H1 _ IH]; [done|]. intros Hi. apply IH. by apply (step_inv t0 s1).
Qed.

(** ** The theorems *)

(** C9: the journal of a session recovers the tree.  Take any sequence of
    creations, modifications and removals (with any of their allocations
    failing) that was applied to the tree of the last index and in which no directory was put
    back to a path where the same directory (the same uid) had been removed earlier in the session.  If
    no error made the journal invalid, then replaying it on the last index gives every
    object of the current tree, and nothing else.  Putting a directory back and removing it
    again loses the removal ([rmdir_after_rename_back_loses_deletion]). *)
Theorem journal_is_complete t0 t v q :
  wf_tree t0 -> clean t0 -> session t0 (t, v) -> journal_err v = false -> q <> root ->
  replay t0 t (journal v) q = t q.
Proof.
  intros Hwf Hcl Hs Herr Hq. destruct (session_inv _ _ Hwf Hcl Hs) as [_ Hc]. specialize (Hc Herr).
  unfold replay. cbn in Hc.
  destruct (c_cov _ _ _ _ Hc q Hq) as [->|[[Ht Hd]|[Ht Hd]]]; [done|..]; rewrite Hd; by destruct (cov _ q).
Qed.

(** C29: the pointers of the journal never dangle.  A directory recorded as
    created shares its path string with an entry that is in the journal (it is
    freed with that entry), and an entry for a created or modified object
    refers to an object that is in the tree under that path with that uid. *)
Theorem journal_pointers_valid t0 t v :
  wf_tree t0 -> clean t0 -> session t0 (t, v) -> journal_err v = false ->
  (forall c, c ∈ created_dirs v ->
     exists e, e ∈ journal v /\ reason e = CREATE /\ full_path e = c) /\
  (forall e, e ∈ journal v -> is_delete (reason e) = false ->
     exists n, t (full_path e) = Some n /\ n_uid n = j_uid e).
Proof.
  intros Hwf Hcl Hs Herr. destruct (session_inv _ _ Hwf Hcl Hs) as [_ Hc]. specialize (Hc Herr).
  split; [intros c Hcd; by apply (c_owner _ _ _ _ Hc)|apply (c_live _ _ _ _ Hc)].
Qed.

(** *** A concrete session *)

Definition tree_of (l : list (path * node)) : tree := fun q =>
  option_map snd (List.find (fun x => bool_decide (x.1 = q)) l).

Definition dirb (t : tree) (q : path) : bool :=
  match t q with Some n => n_isdir n | None => false end.

Definition wf_list (l : list (path * node)) : bool :=
  forallb (fun x => forallb (fun i => let q := take i x.1 in
    negb (_is_same_or_under x.1 q) || bool_decide (x.1 = q) || dirb (tree_of l) q)
    (seq 0 (length x.1))) l.

Lemma tree_of_elem l q n : tree_of l q = Some n -> (q, n) ∈ l.
Proof.
  unfold tree_of. destruct (List.find _ l) as [[p m]|] eqn:Hf; cbn; [|done]. intros [= ->].
  apply find_some in Hf as [Hin Hq]. apply bool_decide_eq_true in Hq. cbn in Hq. subst.
  by apply list_elem_of_In.
Qed.

Lemma wf_list_spec l : wf_list l = true -> wf_tree (tree_of l).
Proof.
  unfold wf_list. rewrite forallb_forall. intros Hl p q n Hp Hu Hne.
  apply tree_of_elem, list_elem_of_In in Hp. specialize (Hl _ Hp). cbn in Hl.
  rewrite forallb_forall in Hl. pose proof Hu as Hs. apply under_split in Hs as (u & -> & _).
  specialize (Hl (length q)). rewrite take_app_length in Hl.
  assert (In (length q) (seq 0 (length (q ++ u)))) as Hin.
  { apply in_seq. rewrite length_app. destruct u; [|cbn; lia]. by rewrite app_nil_r in Hne. }
  specialize (Hl Hin). rewrite Hu, (bool_decide_eq_false_2 _ Hne) in Hl. cbn in Hl.
  unfold dirb in Hl. destruct (tree_of l q) as [m|] eqn:E; [|done]. by exists m.
Qed.

(** The last index had ["/d"] and ["/d/x"]; the session removes both and
    creates the directory ["/e"]. *)
Definition path_d : path := [0x2F; 0x64].
Definition path_dx : path := [0x2F; 0x64; 0x2F; 0x78].
Definition path_e : path := [0x2F; 0x65].

Definition dir_node (uid : Z) : node := mk_node uid true 0 false.
Definition old_nodes : list (path * node) :=
  [(root, dir_node 1); (path_d, dir_node 2); (path_dx, mk_node 3 false 0 false)].
Definition old_tree : tree := tree_of old_nodes.
Definition jdir_d : jdentry := mk_jdentry 2 [0x64] true.
Definition jdir_e : jdentry := mk_jdentry 4 [0x65] true.
Definition new_tree : tree :=
  graft (tree_of [(path_e, dir_node 4)]) path_e (graft no_tree path_d old_tree).
Definition new_journal : jvolume :=
  (incj_create true true true root jdir_e
    (incj_rmdir true true true path_d jdir_d (mk_jvolume [] [] false)).2).2.

Lemma old_tree_wf : wf_tree old_tree.
Proof. by apply wf_list_spec. Qed.

Lemma old_tree_clean : clean old_tree.
Proof.
  intros q n Hq _. apply tree_of_elem in Hq. unfold old_nodes in Hq.
  rewrite !elem_of_cons, elem_of_nil in Hq. by destruct Hq as [[= _ ->]|[[= _ ->]|[[= _ ->]|[]]]].
Qed.

Lemma new_session : session old_tree (new_tree, new_journal).
Proof.
  exists (mk_jvolume [] [] false). cbn.
  apply (rtc_l _ _ (graft no_tree path_d old_tree,
    (incj_rmdir true true true path_d jdir_d (mk_jvolume [] [] false)).2)).
  { eapply (step_rmdir old_tree _ path_d jdir_d (dir_node 2) true true true 0); done. }
  apply rtc_once.
  apply (step_create _ _ root jdir_e _ (dir_node 4) true true true 0); try done.
  - exists (dir_node 1). by vm_compute.
  - intros Hin. apply list_elem_of_singleton in Hin. done.
  - split.
    + intros q n Hq. apply tree_of_elem in Hq. rewrite elem_of_cons, elem_of_nil in Hq.
      destruct Hq as [[= -> _]|[]]. done.
    + intros q r n Hq Hu Hne Hr. apply tree_of_elem in Hq. rewrite elem_of_cons, elem_of_nil in Hq.
      destruct Hq as [[= -> _]|[]]. by destruct Hne; apply under_antisym.
  - intros e He _ Hp. cbn in He. rewrite elem_of_cons, elem_of_nil in He. by destruct He as [->|[]].
Qed.

Lemma journal_is_complete_witness :
  replay old_tree new_tree (journal new_journal) path_dx = None /\
  replay old_tree new_tree (journal new_journal) path_e = Some (dir_node 4).
Proof.
  split; rewrite (journal_is_complete old_tree new_tree new_journal); try done;
    first [apply old_tree_wf|apply old_tree_clean|apply new_session].
Defined.

Lemma journal_pointers_valid_witness :
  exists e, e ∈ journal new_journal /\ reason e = CREATE /\ full_path e = path_e.
Proof.
  apply (journal_pointers_valid old_tree new_tree new_journal).
  - apply old_tree_wf.
  - apply old_tree_clean.
  - apply new_session.
  - reflexivity.
  - apply list_elem_of_singleton. reflexivity.
Defined.

(** Renaming a directory of the last index away and back and then removing
    it loses its deletion.  The removal takes the directory for one created in
    this session and drops every record with its uid, its own deletion record
    included, so that replaying the journal brings the directory back. *)
Theorem rmdir_after_rename_back_loses_deletion :
  let rename from to d v :=
    (incj_create true true true root to (incj_rmdir true true true from d v).2).2 in
  let v1 := rename path_d (mk_jdentry 2 [0x65] true) jdir_d (incj_clear new_journal).2 in
  let v2 := rename path_e jdir_d jdir_d v1 in
  let v3 := (incj_rmdir true true true path_d jdir_d v2).2 in
  journal v3 = [] /\ journal_err v3 = false /\
  replay old_tree (graft no_tree path_d old_tree) (journal v3) path_d = Some (dir_node 2).
Proof. by vm_compute. Qed.

(** *** The order of the entries *)

Lemma strcmp_refl a : strcmp a a = 0.
Proof. induction a as [|x a IH]; cbn; [done|]. by rewrite Z.eqb_refl. Qed.

Lemma strcmp_eq a b : strcmp a b = 0 -> a = b.
Proof.
  revert b. induction a as [|x a IH]; intros [|y b]; cbn; try done.
  destruct (x =? y) eqn:E; [|by destruct (x <? y)]. intros H. apply Z.eqb_eq in E as ->.
  f_equal. auto.
Qed.

Lemma strcmp_swap a b : strcmp b a = - strcmp a b.
Proof.
  revert b. induction a as [|x a IH]; intros [|y b]; cbn; try done.
  rewrite (Z.eqb_sym y x). destruct (x =? y) eqn:E; [auto|].
  apply Z.eqb_neq in E. destruct (Z.ltb_spec x y), (Z.ltb_spec y x); lia.
Qed.

Lemma strcmp_trans a b c : strcmp a b < 0 -> strcmp b c < 0 -> strcmp a c < 0.
Proof.
  revert b c. induction a as [|x a IH]; intros [|y b] [|z c]; cbn; try lia.
  destruct (Z.eqb_spec x y), (Z.eqb_spec y z), (Z.eqb_spec x z), (Z.ltb_spec x y), (Z.ltb_spec y z),
    (Z.ltb_spec x z); try lia. apply IH.
Qed.

Lemma strcmp_prefix a u : u <> [] -> strcmp a (a ++ u) < 0.
Proof.
  intros Hu. induction a as [|x a IH]; cbn; [by destruct u|]. by rewrite Z.eqb_refl.
Qed.

(** The order of the entries as a relation. *)
Definition listed_before (a b : jentry) : Prop := _by_path a b < 0.

Lemma by_path_cases a b :
  listed_before a b <->
  strcmp (full_path a) (full_path b) < 0 \/
  (full_path a = full_path b /\
   (is_delete (reason a) = true /\ is_delete (reason b) = false \/
    is_delete (reason a) = is_delete (reason b) /\ j_uid a <= j_uid b)).
Proof.
  unfold listed_before, _by_path. destruct (Z.eqb_spec (strcmp (full_path a) (full_path b)) 0) as [E|E]; cbn.
  - rewrite E. apply strcmp_eq in E. rewrite E.
    destruct (is_delete (reason a)), (is_delete (reason b)), (Z.ltb_spec (j_uid b) (j_uid a)); cbn;
      split; intros; repeat match goal with H : _ \/ _ |- _ => destruct H | H : _ /\ _ |- _ => destruct H end;
      try done; try lia; auto.
  - split; [by left|]. intros [?|[Heq _]]; [done|]. by rewrite Heq, strcmp_refl in E.
Qed.

(** [_by_path] sorts the journal into an order an index can be built from.
    It is transitive, one of two entries with different keys comes first, a
    directory's entry precedes the entries of everything below it, and the
    deletion of an object that had a path before precedes the entry of the
    object that has it now. *)
Theorem by_path_order :
  (forall a b c, listed_before a b -> listed_before b c -> listed_before a c) /\
  (forall a b, has_key (full_path a) (j_uid a) b = false ->
     listed_before a b <-> ~ listed_before b a) /\
  (forall a b, full_path b ⊑ full_path a -> full_path b <> full_path a -> listed_before a b) /\
  (forall a b, full_path a = full_path b ->
     is_delete (reason a) = true -> is_delete (reason b) = false -> listed_before a b).
Proof.
  split; [|split; [|split]].
  - intros a b c. rewrite !by_path_cases. intros [H1|[E1 H1]] [H2|[E2 H2]].
    + left. by apply (strcmp_trans _ (full_path b)).
    + left. by rewrite <- E2.
    + left. by rewrite E1.
    + right. split; [congruence|]. destruct H1 as [[-> H1]|[-> H1]], H2 as [[H2 H2']|[H2 H2']];
        try (rewrite H1 in H2; congruence); [left; split; congruence|left; done|].
      right. split; [done|lia].
  - intros a b Hk. rewrite !by_path_cases, (strcmp_swap (full_path a)).
    destruct (Z.eqb_spec (strcmp (full_path a) (full_path b)) 0) as [E|E].
    + rewrite E. apply strcmp_eq in E. unfold has_key in Hk. rewrite E, bool_decide_eq_true_2, andb_true_r in Hk by done.
      apply Z.eqb_neq in Hk. rewrite E.
      destruct (is_delete (reason a)), (is_delete (reason b)); intuition lia.
    + assert (full_path a <> full_path b) by (intros Heq; by rewrite Heq, strcmp_refl in E).
      split; [intros [?|[? _]]; [|done]; intros [?|[Heq _]]; [lia|by rewrite Heq in *]|].
      intros Hn. left. destruct (Z.ltb_spec (strcmp (full_path a) (full_path b)) 0); [done|].
      destruct Hn. left. lia.
  - intros a b Hu Hne. apply by_path_cases. left. apply under_split in Hu as (u & Hu & _).
    rewrite Hu. apply strcmp_prefix. intros ->. by rewrite app_nil_r in Hu.
  - intros a b Heq Ha Hb. apply by_path_cases. auto.
Qed.

(** The entries of the session, sorted: the hypotheses hold for them. *)
Lemma by_path_order_witness :
  listed_before (mk_jentry path_d 2 DELETE_DIRECTORY None None) (mk_jentry path_dx 3 MODIFY None None).
Proof. by apply (proj1 (proj2 (proj2 by_path_order))). Defined.
