(* ===== verification/FsRaw.v ===== *)
(** * Raw file operations (src/libltfs/ltfs_fsops_raw.c)

    The functions below the I/O scheduler that move file contents between a
    buffer and the tape: writing blocks, adding the extent that describes
    them, reading a file through its extents and the one-block cache of the
    volume, truncating it.  With them the helpers of src/libltfs/ltfs.c and
    src/libltfs/ltfs_internal.c they call.

    Not in the model: argument checks for [NULL], the locks themselves (their
    failure results are there), log messages and the dentry cache, which is
    off.  Revalidation of the medium and writing an index are the parameters
    [ltfs_revalidate] and [ltfs_write_index] of the model. *)

From S2P Require Import Prelude LtfsError Extents TapeOps TapeLayer Journal.

(** ** State *)

(** The fields of [struct ltfs_volume], its label and its index that these
    functions use.  [last_block] is the block cache: [NULL] or a buffer of one
    block whose first [last_size] bytes were read at [last_pos]. *)
Record ltfs_volume (S : Type) := mk_volume {
  device : device_data S;
  blocksize : Z;
  part_num2id : arr2 Z;
  partid_ip : Z;
  partid_dp : Z;
  last_pos_partition : Z;
  last_pos_block : Z;
  last_size : Z;
  last_block : option (list Z);
  ip_index_file_end : bool;
  dp_index_file_end : bool;
  selfptr_partition : Z;
  first_locate : ltfs_timespec;
  reval : Z;
  idx_dirty : bool;
  inc_dirty : bool;
  atime_dirty : bool;
  use_atime : bool;
  version : Z;
  write_version : Z;
  vol_journal : jvolume;
}.

Arguments mk_volume {S}. Arguments device {S}. Arguments blocksize {S}. Arguments part_num2id {S}.
Arguments partid_ip {S}. Arguments partid_dp {S}. Arguments last_pos_partition {S}.
Arguments last_pos_block {S}. Arguments last_size {S}. Arguments last_block {S}.
Arguments ip_index_file_end {S}. Arguments dp_index_file_end {S}. Arguments selfptr_partition {S}.
Arguments first_locate {S}. Arguments reval {S}. Arguments idx_dirty {S}. Arguments inc_dirty {S}.
Arguments atime_dirty {S}. Arguments use_atime {S}. Arguments version {S}.
Arguments write_version {S}. Arguments vol_journal {S}.

#[export] Instance eta_volume {S} : Eta (ltfs_volume S) := fun v =>
  mk_volume (device v) (blocksize v) (part_num2id v) (partid_ip v) (partid_dp v)
    (last_pos_partition v) (last_pos_block v) (last_size v) (last_block v)
    (ip_index_file_end v) (dp_index_file_end v) (selfptr_partition v) (first_locate v) (reval v)
    (idx_dirty v) (inc_dirty v) (atime_dirty v) (use_atime v) (version v) (write_version v)
    (vol_journal v).

(** The fields of [struct dentry] that these functions use. *)
Record dentry := mk_dentry {
  d_id : jdentry;
  has_parent : bool;
  extentlist : list extent_info;
  size : Z;
  realsize : Z;
  dirty : bool;
  extents_dirty : bool;
  modify_time : ltfs_timespec;
  change_time : ltfs_timespec;
  access_time : ltfs_timespec;
}.

#[export] Instance eta_dentry : Eta dentry := fun d =>
  mk_dentry (d_id d) (has_parent d) (extentlist d) (size d) (realsize d) (dirty d)
    (extents_dirty d) (modify_time d) (change_time d) (access_time d).

(** The allocations of a call, and the path [ltfs_build_fullpath] returns. *)
Record allocs := mk_allocs {
  copy_ok : bool;
  split_ok : bool;
  key_ok : bool;
  ent_ok : bool;
  fullpath : option path;
}.

(** The clock readings of a call: before and after it moves the tape. *)
Record clock := mk_clock { ts_start : ltfs_timespec; ts_end : ltfs_timespec }.

Definition UINT64_MAX : Z := 2 ^ 64 - 1.
Definition NO_PARTITION : Z := 2 ^ 32 - 1.

(** ** Results

    An operation on the volume ends with an error code or a value; [None] is
    an operation that does not return. *)

Definition io (S A : Type) : Type := ltfs_volume S -> option ((Z + A) * ltfs_volume S).

Section io.
Context {S : Type}.

Definition io_ret {A} (x : A) : io S A := fun v => Some (inr x, v).
Definition io_fail {A} (r : Z) : io S A := fun v => Some (inl r, v).
Definition io_stuck {A} : io S A := fun _ => None.

Definition io_bind {A B} (c : io S A) (k : A -> io S B) : io S B := fun v =>
  match c v with
  | None => None
  | Some (inl r, v') => Some (inl r, v')
  | Some (inr x, v') => k x v'
  end.

(** A function with a C result code: an error when it is negative. *)
Definition io_code (f : ltfs_volume S -> Z * ltfs_volume S) : io S Z := fun v =>
  let '(r, v') := f v in Some (if r <? 0 then inl r else inr r, v').

Definition io_get {A} (f : ltfs_volume S -> A) : io S A := fun v => Some (inr (f v), v).
Definition io_modify (f : ltfs_volume S -> ltfs_volume S) : io S unit := fun v => Some (inr tt, f v).
End io.

Declare Scope io_scope.
Delimit Scope io_scope with io.
Notation "'let!' x ':=' c 'in' k" := (io_bind c (fun x => k))
  (at level 10, x pattern, c at level 100, k at level 200) : io_scope.
Open Scope io_scope.

Section fsraw.
Context {S : Type} `{TapeOps S}.
Implicit Types v : ltfs_volume S.
Implicit Types d : dentry.

(** [ltfs_write_index(partition, SYNC_CASCHE_PRESSURE, LTFS_FULL_INDEX, vol)],
    [ltfs_revalidate(false, vol)] and the key manager of [tape_read]. *)
Context (ltfs_write_index : Z -> ltfs_volume S -> Z * ltfs_volume S).
Context (ltfs_revalidate : ltfs_volume S -> Z * ltfs_volume S).
Context (fetch_key : option (S -> option S)).

Definition set_device v (dev : device_data S) : ltfs_volume S := v <| device := dev |>.

(** ** Helpers of ltfs.c and ltfs_internal.c *)

Definition ltfs_part_id2num (id : Z) v : Z :=
  if (part_num2id v).[0] =? id then 0
  else if (part_num2id v).[1] =? id then 1
  else NO_PARTITION.

Definition ltfs_get_partition_readonly (part : Z) v : Z :=
  if negb (part =? partid_dp v) && negb (part =? partid_ip v) then - LTFS_BAD_PARTNUM
  else tape_read_only (device v) (ltfs_part_id2num part v).

(** [ltfs_get_volume_lock]: [None] while a revalidation is running. *)
Definition ltfs_get_volume_lock : io S unit := fun v =>
  if reval v =? - LTFS_REVAL_RUNNING then None
  else if reval v <? 0 then Some (inl (reval v), v) else Some (inr tt, v).

(** [ltfs_wait_revalidation] returns the outcome of the last revalidation. *)
Definition ltfs_wait_revalidation v : option Z :=
  if reval v =? - LTFS_REVAL_RUNNING then None else Some (reval v).

Definition ltfs_set_index_dirty (atime : bool) v : ltfs_volume S :=
  let v := if atime then v <| atime_dirty := true |>
           else v <| idx_dirty := true |> <| inc_dirty := true |> in
  if negb atime || (atime && use_atime v) then v <| version := write_version v |> else v.

(** Must an index be written to [part] before the other partition is written? *)
Definition index_due (part : Z) v : bool :=
  ((part =? partid_ip v) && negb (ip_index_file_end v)) ||
  (negb ((part =? partid_ip v) && negb (ip_index_file_end v)) && (part =? partid_dp v) &&
   (negb (dp_index_file_end v) ||
    (ip_index_file_end v && (selfptr_partition v =? partid_ip v)))).

Definition ltfs_write_index_conditional (part : Z) v : Z * ltfs_volume S :=
  if index_due part v then ltfs_write_index part v else (0, v).

(** Mark the dentry dirty; the journal is updated. *)
Definition set_dentry_dirty (al : allocs) d v : dentry * ltfs_volume S :=
  let '(_, j) := ltfs_set_dentry_dirty (key_ok al) (ent_ok al) (fullpath al) (has_parent d)
                   (dirty d) (d_id d) (vol_journal v) in
  (d <| dirty := true |>, v <| vol_journal := j |>).

(** What every operation does with the drive when it ends with an error. *)
Definition after_error (ret : Z) v : ltfs_volume S :=
  if NEED_REVAL ret then set_device v (snd (tape_start_fence (device v)))
  else if IS_UNEXPECTED_MOVE ret then v <| reval := - LTFS_REVAL_FAILED |>
  else v.

(** ** Writing blocks *)

Definition on_device (f : device_data S -> Z * device_data S) : io S Z := fun v =>
  let '(r, dev) := f (device v) in Some (if r <? 0 then inl r else inr r, set_device v dev).

(** The blocks a buffer is cut into: [while (write_count < count)]; the last
    may be short.  [fuel] bounds the number of blocks. *)
Fixpoint blocks_of (fuel : nat) (bs : Z) (buf : list Z) : list (list Z) :=
  match fuel, buf with
  | _, [] => []
  | O, _ => []
  | Datatypes.S fuel', _ =>
      let to_write := if bs <? zlength buf then bs else zlength buf in
      take (Z.to_nat to_write) buf :: blocks_of fuel' bs (drop (Z.to_nat to_write) buf)
  end.

Fixpoint write_blocks (now : ltfs_timespec) (blocks : list (list Z)) : io S unit :=
  match blocks with
  | [] => io_ret tt
  | b :: rest =>
      let! _ := on_device (fun dev => tape_write now dev b false false) in
      write_blocks now rest
  end.

(** The loop over the repetitions. *)
Fixpoint write_reps (now : ltfs_timespec) (n : nat) (blocks : list (list Z)) : io S unit :=
  match n with
  | O => io_ret tt
  | Datatypes.S n' => let! _ := write_blocks now blocks in write_reps now n' blocks
  end.

(** Everything that happens while the device is locked; the result is the
    block the first write went to. *)
Definition write_data_locked (ck : clock) (part : Z) (buf : list Z) (repetitions : Z) : io S Z :=
  let! _ := io_code (fun v => (ltfs_get_partition_readonly part v, v)) in
  let! _ := io_code (fun v =>
      if part =? partid_ip v then ltfs_write_index_conditional (partid_dp v) v
      else ltfs_write_index_conditional (partid_ip v) v) in
  let! first := io_get (fun v =>
      negb (part =? partid_ip v) && (tv_sec (first_locate v) =? 0) && (tv_nsec (first_locate v) =? 0)) in
  let! _ := io_modify (fun v => if part =? partid_ip v then v <| ip_index_file_end := false |>
                                else v <| dp_index_file_end := false |>) in
  let! _ := io_modify (fun v => if first then v <| first_locate := mk_time UINT64_MAX (tv_nsec (first_locate v)) |> else v) in
  let! num := io_get (ltfs_part_id2num part) in
  let! ip := io_get partid_ip in
  let! _ := on_device (fun dev => tape_seek_append_position (ts_end ck) dev num (part =? ip)) in
  let! _ := io_modify (fun v => if first then v <| first_locate := timer_sub (ts_end ck) (ts_start ck) |> else v) in
  let! start := io_get (fun v => block (position (device v))) in
  let! bs := io_get blocksize in
  let! _ := write_reps (ts_end ck) (Z.to_nat repetitions) (blocks_of (length buf) bs buf) in
  io_ret start.

(** [_ltfs_fsraw_write_data_unlocked]: the result carries [*startblock], which
    is left alone when nothing is written. *)
Definition _ltfs_fsraw_write_data_unlocked (mutex_ok : bool) (ck : clock) (part : Z) (buf : list Z)
    (repetitions startblock : Z) : io S Z := fun v =>
  if negb (part =? partid_dp v) && negb (part =? partid_ip v) then Some (inl (- LTFS_BAD_PARTNUM), v)
  else if (zlength buf =? 0) || (repetitions =? 0) then Some (inr startblock, v)
  else if (1 <? repetitions) && negb (zlength buf mod blocksize v =? 0) then
    Some (inl (- LTFS_BAD_ARG), v)
  else
    let r := tape_device_lock mutex_ok (device v) in
    if r <? 0 then Some (inl r, v)
    else match write_data_locked ck part buf repetitions v with
         | None => None
         | Some (inl r, v) => Some (inl r, after_error r v)
         | Some (inr start, v) => Some (inr start, v)
         end.

(** The retry around a write: [again] is the call to repeat after a successful
    revalidation. *)
Definition on_write_error (r : Z) (again : io S Z) : io S Z := fun v =>
  if r =? - LTFS_DEVICE_FENCED then
    match ltfs_wait_revalidation v with
    | None => None
    | Some ret => if ret =? 0 then again v else Some (inl ret, v)
    end
  else if NEED_REVAL r then
    let '(ret, v) := ltfs_revalidate v in
    if ret =? 0 then again v else Some (inl ret, v)
  else if IS_UNEXPECTED_MOVE r then Some (inl r, v <| reval := - LTFS_REVAL_FAILED |>)
  else Some (inl r, v).

Fixpoint ltfs_fsraw_write_data (fuel : nat) (mutex_ok : bool) (ck : clock) (part : Z) (buf : list Z)
    (repetitions startblock : Z) : io S Z :=
  match fuel with
  | O => io_stuck
  | Datatypes.S fuel' => fun v =>
      match ltfs_get_volume_lock v with
      | None => None
      | Some (inl r, v) => Some (inl r, v)
      | Some (inr _, v) =>
          match _ltfs_fsraw_write_data_unlocked mutex_ok ck part buf repetitions startblock v with
          | Some (inl r, v) =>
              on_write_error r (ltfs_fsraw_write_data fuel' mutex_ok ck part buf repetitions startblock) v
          | res => res
          end
      end
  end.

(** ** Extents of a file *)

Definition _ltfs_fsraw_add_extent_unlocked (al : allocs) (now : ltfs_timespec) d (ext : extent_info)
    (update_time : bool) v : Z * dentry * ltfs_volume S :=
  match add_extent_list (blocksize v) ext (copy_ok al) (split_ok al) (extentlist d) (realsize d) with
  | (ret, l, rs) =>
      if ret <? 0 then (ret, d <| extentlist := l |>, v)
      else
        let ext_end := fileoffset_end ext in
        let d := d <| extentlist := l |> in
        let d := if size d <? ext_end then d <| size := ext_end |> else d in
        let d := d <| realsize := rs |> in
        let d := if update_time then d <| modify_time := now |> <| change_time := now |> else d in
        let d := d <| extents_dirty := true |> in
        let '(d, v) := set_dentry_dirty al d v in
        (0, d, ltfs_set_index_dirty false v)
  end.

(** Running out of space does not matter here: the blocks are on the tape. *)
Definition not_about_space (ret : Z) : bool :=
  (ret <? 0) && negb (ret =? - LTFS_NO_SPACE) && negb (ret =? - LTFS_LESS_SPACE).

Definition ltfs_fsraw_add_extent (al : allocs) (now : ltfs_timespec) d (ext : extent_info)
    (update_time : bool) v : option (Z * dentry * ltfs_volume S) :=
  let r_ip := ltfs_get_partition_readonly (partid_ip v) v in
  if not_about_space r_ip then Some (r_ip, d, v)
  else
    let r_dp := ltfs_get_partition_readonly (partid_dp v) v in
    if not_about_space r_dp then Some (r_dp, d, v)
    else match ltfs_get_volume_lock v with
         | None => None
         | Some (inl r, v) => Some (r, d, v)
         | Some (inr _, v) => Some (_ltfs_fsraw_add_extent_unlocked al now d ext update_time v)
         end.

Definition written_extent (part start count offset : Z) : extent_info :=
  mk_extent start part 0 count offset.

Definition ltfs_fsraw_write (fuel : nat) (mutex_ok : bool) (ck : clock) (al : allocs) d (buf : list Z)
    (offset part : Z) (update_time : bool) v : option (Z * dentry * ltfs_volume S) :=
  match ltfs_fsraw_write_data fuel mutex_ok ck part buf 1 0 v with
  | None => None
  | Some (inl r, v) => Some (r, d, v)
  | Some (inr start, v) =>
      Some (_ltfs_fsraw_add_extent_unlocked al (ts_end ck) d
              (written_extent part start (zlength buf) (u64 offset)) update_time v)
  end.

Definition ltfs_fsraw_truncate (al : allocs) (now : ltfs_timespec) d (length : Z) v
    : option (Z * dentry * ltfs_volume S) :=
  match ltfs_get_volume_lock v with
  | None => None
  | Some (inl r, v) => Some (r, d, v)
  | Some (inr _, v) =>
      let ulength := u64 length in
      let '(l, rs) := truncate_list ulength (size d) (extentlist d) (realsize d) in
      let d := d <| extentlist := l |> <| size := ulength |> <| realsize := rs |>
                 <| modify_time := now |> <| change_time := now |> in
      let '(d, v) := set_dentry_dirty al d v in
      Some (0, d, ltfs_set_index_dirty false v)
  end.
(** ** Reading *)

(** The variables of [ltfs_fsraw_read] that live across extents: the output
    buffer up to [read_count], [next_off], and whether this call measures the
    first locate.  [read_count] is the length of [r_buf]. *)
Record rstate := mk_rstate { r_buf : list Z; next_off : Z; is_first_dp_locate : bool }.

Definition read_count (st : rstate) : Z := zlength (r_buf st).

(** Bytes appended to the output buffer. *)
Definition put (bytes : list Z) (next : Z) (st : rstate) : rstate :=
  mk_rstate (r_buf st ++ bytes) next (is_first_dp_locate st).

(** The buffer of the block cache after the drive stored [rd] in it. *)
Definition overwrite (rd old : list Z) : list Z := rd ++ drop (length rd) old.

(** Is the block [seekb] of the extent's partition in the cache, and the head
    right behind it? *)
Definition cache_hit (entry : extent_info) (seekp seekb : Z) (curpos : tc_position) v : bool :=
  (start_partition entry =? last_pos_partition v) && (seekb =? last_pos_block v) &&
  ((seekp =? partition curpos) && (u64 (seekb + 1) =? block curpos)).

(** Bring the block into the cache; the result is the caller's [curpos]. *)
Definition read_block (ck : clock) (entry : extent_info) (seekp seekb blockbytes : Z)
    (curpos : tc_position) : io S tc_position := fun v =>
  if cache_hit entry seekp seekb curpos v then
    if last_size v <? blockbytes then Some (inl (- LTFS_SMALL_BLOCK), v) else Some (inr curpos, v)
  else
    let '(nread, rd, dev) :=
      tape_read (ts_end ck) fetch_key (device v) (blocksize v) (negb (blocksize v =? blockbytes)) in
    let v := (set_device v dev) <| last_block := option_map (overwrite rd) (last_block v) |> in
    if nread <? 0 then Some (inl nread, v)
    else if nread <? blockbytes then Some (inl (- LTFS_SMALL_BLOCK), v)
    else Some (inr (curpos <| block := u64 (block curpos + 1) |>),
               v <| last_pos_partition := start_partition entry |> <| last_pos_block := seekb |>
                 <| last_size := nread |>).

(** Read from the extent until its end or until the output buffer is full. *)
Fixpoint read_loop (fuel : nat) (ck : clock) (entry : extent_info) (count last_off : Z)
    (seekp seekb firstbyte lastbyte : Z) (curpos : tc_position) (st : rstate) : io S rstate :=
  if (next_off st <? fileoffset_end entry) && (read_count st <? count) then
    match fuel with
    | O => io_stuck
    | Datatypes.S fuel' =>
        let! bs := io_get blocksize in
        let lastbyte := lastbyte ⊞ bs in
        let lastbyte := if fileoffset_end entry <? lastbyte then fileoffset_end entry else lastbyte in
        let blockbytes := lastbyte ⊟ firstbyte in
        let! curpos := read_block ck entry seekp seekb blockbytes curpos in
        let! cache := io_get (fun v => default [] (last_block v)) in
        let ncopy := (if last_off <? lastbyte then last_off else lastbyte) ⊟ next_off st in
        let st := put (slice (next_off st ⊟ firstbyte) ncopy cache) (next_off st ⊞ ncopy) st in
        read_loop fuel' ck entry count last_off seekp (u64 (seekb + 1)) (firstbyte ⊞ bs) lastbyte
          curpos st
    end
  else io_ret st.

(** Move to the block that holds [next_off], unless the head is there or the
    block is in the cache. *)
Definition seek_block (ck : clock) (entry : extent_info) (seekp seekb : Z) (curpos : tc_position)
    (st : rstate) : io S rstate := fun v =>
  if (negb (partition curpos =? seekp) || negb (block curpos =? seekb)) &&
     negb (cache_hit entry seekp seekb curpos v)
  then
    let first := (tv_sec (first_locate v) =? 0) && (tv_nsec (first_locate v) =? 0) &&
                 (seekp =? u32 (partid_dp v)) in
    let v := if first then v <| first_locate := mk_time UINT64_MAX (tv_nsec (first_locate v)) |> else v in
    let first := first || is_first_dp_locate st in
    let '(ret, dev) := tape_seek (ts_end ck) (device v) (mk_position seekb 0 seekp false false) in
    let v := set_device v dev in
    if ret <? 0 then Some (inl ret, v)
    else Some (inr (mk_rstate (r_buf st) (next_off st) first),
               if first then v <| first_locate := timer_sub (ts_end ck) (ts_start ck) |> else v)
  else Some (inr st, v).

(** The part of the loop body that reads from one extent. *)
Definition read_extent (ck : clock) (entry : extent_info) (count last_off : Z) (st : rstate)
    : io S rstate :=
  if next_off st <? fileoffset_end entry then
    let! curpos := io_get (fun v => position (device v)) in
    let! seekp := io_get (ltfs_part_id2num (start_partition entry)) in
    let! bs := io_get blocksize in
    let seekb := start_block entry ⊞ u64 (next_off st - fileoffset entry + byteoffset entry) / bs in
    let! st := seek_block ck entry seekp seekb curpos st in
    let firstbyte := u64 (fileoffset entry - byteoffset entry + (seekb - start_block entry) * bs) in
    read_loop (Z.to_nat count) ck entry count last_off seekp seekb firstbyte firstbyte curpos st
  else io_ret st.

(** [TAILQ_FOREACH(entry, &d->extentlist, list)]. *)
Fixpoint read_extents (ck : clock) (l : list extent_info) (count last_off : Z) (st : rstate)
    : io S rstate :=
  match l with
  | [] => io_ret st
  | entry :: rest =>
      if read_count st =? count then io_ret st
      else if (next_off st <? fileoffset entry) && (last_off <? fileoffset entry) then
        io_ret (put (zeros (last_off ⊟ next_off st)) (next_off st) st)
      else
        let st := if next_off st <? fileoffset entry
                  then put (zeros (fileoffset entry ⊟ next_off st)) (fileoffset entry) st else st in
        let! st := read_extent ck entry count last_off st in
        read_extents ck rest count last_off st
  end.

(** Everything between taking and releasing the device lock; [fresh] is what
    [malloc] returned for the block cache, if it is called. *)
Definition read_locked (ck : clock) (fresh : option (list Z)) d (count offset : Z) : io S rstate :=
  let! cache := io_get last_block in
  let! _ := match cache, fresh with
            | Some _, _ => io_ret tt
            | None, Some b => io_modify (fun v => v <| last_block := Some b |>)
            | None, None => io_fail (- LTFS_NO_MEMORY)
            end in
  let last_off := u64 offset ⊞ count in
  let! st := read_extents ck (extentlist d) count last_off (mk_rstate [] (u64 offset) false) in
  (* sparse end of file *)
  let st := if (read_count st <? count) && (next_off st <? size d) then
              put (zeros (if last_off <? size d then last_off ⊟ next_off st
                          else size d ⊟ next_off st)) (next_off st) st
            else st in
  let! _ := io_modify (ltfs_set_index_dirty true) in
  io_ret st.

(** [ltfs_fsraw_read]: the result code, the bytes stored in the caller's buffer
    when it is not an error, and the dentry with its new access time. *)
Fixpoint ltfs_fsraw_read (fuel : nat) (mutex_ok : bool) (ck : clock) (fresh : option (list Z)) d
    (count offset : Z) v : option (Z * list Z * dentry * ltfs_volume S) :=
  if count =? 0 then Some (0, [], d, v)
  else match fuel with
  | O => None
  | Datatypes.S fuel' =>
      match ltfs_get_volume_lock v with
      | None => None
      | Some (inl r, v) => Some (r, [], d, v)
      | Some (inr _, v) =>
          let r := tape_device_lock mutex_ok (device v) in
          if r =? - LTFS_DEVICE_FENCED then
            match ltfs_wait_revalidation v with
            | None => None
            | Some ret => if ret =? 0 then ltfs_fsraw_read fuel' mutex_ok ck fresh d count offset v
                          else Some (ret, [], d, v)
            end
          else if r <? 0 then Some (r, [], d, v)
          else match read_locked ck fresh d count offset v with
          | None => None
          | Some (inr st, v) => Some (read_count st, r_buf st, d <| access_time := ts_end ck |>, v)
          | Some (inl r, v) =>
              let v := after_error r v in
              if NEED_REVAL r then
                let '(ret, v) := ltfs_revalidate v in
                if ret =? 0 then ltfs_fsraw_read fuel' mutex_ok ck fresh d count offset v
                else Some (ret, [], d, v)
              else Some (r, [], d, v)
          end
      end
  end.
End fsraw.
