(* ===== verification/FsRawRead.v ===== *)
(** * Reading a file returns its contents

    [file_byte] is the content of a file: byte [o] is the byte of the tape that
    its extent list locates, or zero where no extent holds it.
    [ltfs_fsraw_read] is proved to return exactly these bytes, through block
    boundaries, holes, the block cache and the wrap-around of the unsigned
    offsets of blocks that begin before the file does. *)

From S2P Require Import Prelude Bytes LtfsError Extents TapeOps TapeLayer Journal FsRaw.

(** ** Wrap-around *)

Lemma u64_add_l a b : u64 (u64 a + b) = u64 (a + b).
Proof. unfold u64. apply Zplus_mod_idemp_l. Qed.

Lemma u64_sub_r a b : u64 (a - u64 b) = u64 (a - b).
Proof. unfold u64. apply Zminus_mod_idemp_r. Qed.

(** ** The content of a file *)

Abbreviation tape_log := (Z -> list tape_record).

Definition tape_byte (log : tape_log) (num b k : Z) : option Z :=
  match log num !! Z.to_nat b with
  | Some (TData x) => x !! Z.to_nat k
  | _ => None
  end.

Definition file_byte {S} (v : ltfs_volume S) (log : tape_log) (l : list extent_info) (o : Z) : option Z :=
  match locate (blocksize v) l o with
  | Some (p, b, k) => tape_byte log (ltfs_part_id2num p v) b k
  | None => Some 0
  end.

Section read.
Context {S : Type} `{TapeLaws S}.
Implicit Types v : ltfs_volume S.

(** The block cache holds the block it claims to hold. *)
Definition cache_ok v (log : tape_log) : Prop :=
  let num := ltfs_part_id2num (last_pos_partition v) v in
  num <> NO_PARTITION ->
  exists bytes rest, log num !! Z.to_nat (last_pos_block v) = Some (TData bytes) /\
    0 <= last_pos_block v /\
    last_block v = Some (take (Z.to_nat (blocksize v)) bytes ++ rest) /\
    last_size v = zlength (take (Z.to_nat (blocksize v)) bytes).

(** The drive holds the two logs, the cache is right, and the label is that of
    [v0]. *)
Record read_inv (v0 : ltfs_volume S) (log : tape_log) v (m : medium) : Prop := {
  ri_dev : dev_ok (device v) m;
  ri_log : m_log m = log;
  ri_cache : cache_ok v log;
  ri_bs : blocksize v = blocksize v0;
  ri_label : part_num2id v = part_num2id v0;
  ri_alloc : exists b, last_block v = Some b;
}.

Lemma id2num_label v v' id : part_num2id v' = part_num2id v -> ltfs_part_id2num id v' = ltfs_part_id2num id v.
Proof. unfold ltfs_part_id2num. by intros ->. Qed.

Lemma part_valid m : m_wf m -> m_part m <> NO_PARTITION.
Proof. unfold NO_PARTITION. intros [[->| ->] _]; done. Qed.

Context (v0 : ltfs_volume S) (log : tape_log).
Context (Hbs : 0 < blocksize v0 <= 2 ^ 32).
Context (Hlog : forall p, zlength (log p) < 2 ^ 62).

Abbreviation bs := (blocksize v0).
Abbreviation inv := (read_inv v0 log).

(** The head is where the next read needs it, or the read will fail. *)
Definition ready v m (entry : extent_info) (seekp seekb : Z) (curpos : tc_position) : Prop :=
  if cache_hit entry seekp seekb curpos v then at_head m curpos
  else (m_part m = seekp /\ m_block m = seekb) \/ m_here m = None.

Lemma log_block p b r : log p !! Z.to_nat b = Some r -> 0 <= b -> b < 2 ^ 62.
Proof. intros Hl%lookup_lt_Some Hb. specialize (Hlog p). unfold zlength in Hlog. lia. Qed.

Lemma cache_hit_spec entry seekp seekb curpos v :
  cache_hit entry seekp seekb curpos v = true <->
  start_partition entry = last_pos_partition v /\ seekb = last_pos_block v /\
  seekp = partition curpos /\ u64 (seekb + 1) = block curpos.
Proof. unfold cache_hit. rewrite !andb_true_iff, !Z.eqb_eq. tauto. Qed.

Lemma read_block_ok ck entry seekb blockbytes curpos v m :
  inv v m -> 0 <= seekb -> 0 < blockbytes ->
  let seekp := ltfs_part_id2num (start_partition entry) v0 in
  ready v m entry seekp seekb curpos ->
  exists res v', read_block None ck entry seekp seekb blockbytes curpos v = Some (res, v') /\
    match res with
    | inl r => r < 0
    | inr curpos' => exists m' bytes rest, inv v' m' /\ m_part m' = seekp /\ m_block m' = seekb + 1 /\
        log seekp !! Z.to_nat seekb = Some (TData bytes) /\
        last_block v' = Some (take (Z.to_nat bs) bytes ++ rest) /\
        blockbytes <= zlength (take (Z.to_nat bs) bytes) /\ last_pos_block v' = seekb
    end.
Proof.
  intros [Hdev Hm Hcache Hb Hlab [lb Hlb]] Hs Hbb seekp Hready. unfold ready in Hready. unfold read_block.
  pose proof (dev_ok_wf _ _ Hdev) as Hwf.
  assert (Hnum : forall u : ltfs_volume S, part_num2id u = part_num2id v0 ->
            last_pos_partition u = start_partition entry ->
            ltfs_part_id2num (last_pos_partition u) u = seekp).
  { intros u Hu ->. by apply id2num_label. }
  destruct (cache_hit entry seekp seekb curpos v) eqn:Hhit.
  - destruct (Z.ltb_spec (last_size v) blockbytes); eexists _, _; (split; [done|]); [done|].
    apply cache_hit_spec in Hhit as (Hep & Hsb & Hsp & Hcb). destruct Hready as [Hpp Hpb].
    pose proof Hcache as Hc. unfold cache_ok in Hc. rewrite (Hnum v) in Hc by done.
    destruct Hc as (bytes & rest & Hl & Hl0 & Hlb' & Hsz); [rewrite Hsp, Hpp; by apply part_valid|].
    pose proof (log_block _ _ _ Hl Hl0). rewrite Hb in Hlb', Hsz.
    exists m, bytes, rest. rewrite <- Hsb in Hl. rewrite u64_small in Hcb by lia.
    split; [split; try done; by exists lb|]. split_and!; try done; lia.
  - destruct (tape_read _ _ _ _ _) as [[nread rd] dev] eqn:Hrd.
    destruct (nread <? 0) eqn:Hn; bsplit; [by eexists _, _|].
    destruct (nread <? blockbytes) eqn:Hn2; bsplit; [by eexists _, _|].
    eexists _, _. split; [done|]. assert (0 <= blocksize v) as Hb0 by (rewrite Hb; lia).
    destruct (tape_read_ok _ _ _ _ _ _ _ _ Hdev Hb0 Hrd Hn) as (rec & Hhere & Hrde & Hnr & Hdev' & _).
    destruct Hready as [[Hpart Hblk]|Hnone]; [|congruence].
    unfold m_here in Hhere. rewrite Hm, Hpart, Hblk in Hhere.
    destruct rec as [bytes|]; [|subst rd; change (zlength []) with 0 in Hnr; lia].
    rewrite Hb in Hrde. rewrite Hpart, Hblk in Hdev'.
    exists (m_move m seekp (seekb + 1)), bytes, (drop (length rd) lb). cbn. rewrite Hlb. cbn.
    unfold overwrite. subst rd. split; [|split_and!; try done; lia].
    split; cbn; try done; [|by eexists].
    unfold cache_ok. cbn. rewrite Hb. intros _.
    exists bytes, (drop (length (take (Z.to_nat bs) bytes)) lb). split; [|done].
    replace (ltfs_part_id2num _ _) with seekp; [done|]. symmetry. by apply id2num_label.
Qed.

(** ** One extent *)

Context (L : list extent_info).
Abbreviation f := (file_byte v0 log L).

(** The output so far: [next] bytes from [offset]. *)
Definition filled (offset count : Z) (st : rstate) : Prop :=
  bytes_are f offset (r_buf st) /\ next_off st = offset + zlength (r_buf st) /\
  zlength (r_buf st) <= count.

(** What the blocks of an extent hold. *)
Lemma extent_block_bytes entry j bytes o :
  extent_ok bs entry -> 0 <= j ->
  let F := fileoffset entry - byteoffset entry + j * bs in
  log (ltfs_part_id2num (start_partition entry) v0) !! Z.to_nat (start_block entry + j) = Some (TData bytes) ->
  F <= o < F + bs -> fileoffset entry <= o < extent_end entry ->
  locate bs L o = extent_locate bs entry o ->
  f o = bytes !! Z.to_nat (o - F).
Proof.
  intros (_ & _ & _ & [Hbo _] & _) Hj F Hl HF Ho Hloc. unfold file_byte. rewrite Hloc.
  unfold extent_locate. replace ((_ <=? o) && _) with true by lia.
  assert (Hn : byteoffset entry + (o - fileoffset entry) = bs * j + (o - F)) by (subst F; lia).
  rewrite Hn. rewrite <- (Z.div_unique (bs * j + (o - F)) bs j (o - F)) by lia.
  rewrite <- (Z.mod_unique (bs * j + (o - F)) bs j (o - F)) by lia.
  unfold tape_byte. by rewrite Hl.
Qed.

Lemma read_loop_ok ck entry offset count : forall fuel seekb firstbyte lastbyte curpos st v m,
  extent_ok bs entry -> 0 <= offset -> offset + count < 2 ^ 63 ->
  let seekp := ltfs_part_id2num (start_partition entry) v0 in
  let stop := Z.min (extent_end entry) (offset + count) in
  let F := fileoffset entry - byteoffset entry + (seekb - start_block entry) * bs in
  (forall o, next_off st <= o < extent_end entry -> locate bs L o = extent_locate bs entry o) ->
  inv v m -> filled offset count st -> count - read_count st <= Z.of_nat fuel ->
  start_block entry <= seekb -> fileoffset entry <= next_off st <= stop ->
  (next_off st < stop -> firstbyte = u64 F /\ lastbyte = u64 F /\ F <= next_off st < F + bs /\
     ready v m entry seekp seekb curpos) ->
  exists res v', read_loop None fuel ck entry count (offset + count) seekp seekb firstbyte lastbyte
                   curpos st v = Some (res, v') /\
    match res with
    | inl r => r < 0
    | inr st' => exists m', inv v' m' /\ filled offset count st' /\ next_off st' = stop
    end.
Proof.
  induction fuel as [|fuel IH]; intros seekb firstbyte lastbyte curpos st v m Hent Ho Hmax seekp stop F
    Hloc Hinv (Hby & Hnx & Hct) Hfuel Hsb Hn Hgo;
    pose proof Hent as (Hfo & Hbc & Hee & [Hbo0 Hbo] & Hst & _); unfold extent_end in *;
    assert (Hend : fileoffset_end entry = fileoffset entry + bytecount entry)
      by (unfold fileoffset_end; nowrap; done); cbn [read_loop]; rewrite Hend; unfold read_count in *.
  { replace ((_ <? _) && _) with false by lia. eexists _, _. split; [done|]. exists m.
    split_and!; try done; lia. }
  destruct ((next_off st <? fileoffset entry + bytecount entry) && (zlength (r_buf st) <? count)) eqn:Hcond.
  2: { eexists _, _. split; [done|]. exists m. split_and!; try done.
       apply andb_false_iff in Hcond as [?|?]; bsplit; lia. }
  bsplit. destruct Hgo as (-> & -> & HF & Hready); [lia|].
  unfold io_bind at 1, io_get at 1. cbn beta iota zeta.
  rewrite (ri_bs _ _ _ _ Hinv), u64_add_l, (u64_small (F + bs)) by lia.
  set (lb := if _ <? F + bs then _ else _).
  assert (Hlb : lb = Z.min (fileoffset entry + bytecount entry) (F + bs))
    by (subst lb; case_bool; lia).
  rewrite !u64_sub_r, (u64_small (lb - F)) by lia.
  destruct (read_block_ok ck entry seekb (lb - F) curpos v m) as (res & v1 & Hrb & Hpost); try done; try lia.
  unfold io_bind at 1. fold seekp in Hrb. rewrite Hrb. clear Hrb.
  destruct res as [r|curpos1]; [by eexists _, _|].
  destruct Hpost as (m1 & bytes & rest & Hinv1 & Hp1 & Hb1 & Hl1 & Hlast & Hlen & Hlp).
  unfold io_bind at 1, io_get at 1. cbn beta iota. rewrite Hlast. cbn [default from_option id].
  set (e := if offset + count <? lb then _ else _).
  assert (He : e = Z.min (offset + count) lb) by (subst e; case_bool; lia).
  rewrite (u64_small (e - next_off st)), (u64_small (next_off st - F)), (u64_small (next_off st + _)) by lia.
  pose proof (log_block _ _ _ Hl1) as Hsmall. rewrite (u64_small (seekb + 1)) by lia.
  set (data := take (Z.to_nat bs) bytes) in *.
  assert (Hdl : zlength (slice (next_off st - F) (e - next_off st) (data ++ rest)) = e - next_off st)
    by (apply zlength_slice_app; lia).
  apply IH with (m := m1); try done; cbn [put next_off r_buf]; fold F; unfold read_count, extent_end in *; cbn [r_buf put].
  - intros o Hoo. apply Hloc. lia.
  - split_and!; [| |].
    + apply bytes_are_app; [done|]. rewrite <- Hnx. apply bytes_are_slice; try lia.
      intros i Hi. unfold data. rewrite lookup_take_lt by (unfold zlength, data in *; rewrite length_take in *; lia).
      rewrite (extent_block_bytes entry (seekb - start_block entry) bytes); try done; try (unfold extent_end; lia).
      * f_equal. fold F. lia.
      * by replace (start_block entry + (seekb - start_block entry)) with seekb by lia.
      * apply Hloc. lia.
    + cbn. rewrite zlength_app, Hdl. lia.
    + cbn. rewrite zlength_app, Hdl. lia.
  - rewrite zlength_app, Hdl. lia.
  - lia.
  - lia.
  - intros Hcont. assert (Hlb2 : lb = F + bs) by lia.
    assert (HF2 : fileoffset entry - byteoffset entry + (seekb + 1 - start_block entry) * bs = F + bs)
      by (subst F; lia).
    rewrite HF2, Hlb2, (u64_small (F + bs)) by lia.
    split_and!; [done|done|lia|lia|]. unfold ready.
    assert (cache_hit entry (ltfs_part_id2num (start_partition entry) v0) (seekb + 1) curpos1 v1 = false) as ->.
    { apply not_true_iff_false. intros (_ & Hh & _)%cache_hit_spec. lia. }
    by left.
Qed.
(** Positioning leaves the head where the first block is read. *)
Lemma seek_block_ok ck entry seekb st v m :
  inv v m -> 0 <= seekb < 2 ^ 64 ->
  let seekp := ltfs_part_id2num (start_partition entry) v0 in
  let curpos := position (device v) in
  exists res v', seek_block ck entry seekp seekb curpos st v = Some (res, v') /\
    match res with
    | inl r => r < 0
    | inr st' => exists m', inv v' m' /\ ready v' m' entry seekp seekb curpos /\
        r_buf st' = r_buf st /\ next_off st' = next_off st
    end.
Proof.
  intros Hinv Hs seekp curpos. pose proof Hinv as [Hdev Hm Hcache Hb Hlab Hal].
  pose proof Hdev as [_ Hpos].
  unfold seek_block. destruct (_ && _) eqn:Hgo.
  - apply andb_true_iff in Hgo as [_ Hnh]. apply negb_true_iff in Hnh.
    destruct (tape_seek _ _ _) as [ret dev] eqn:Hsk.
    destruct (ret <? 0) eqn:Hr; bsplit; [by eexists _, _|]. eexists _, _. split; [done|].
    assert (Hsk' := Hsk).
    apply (tape_seek_cases _ _ m) in Hsk' as (_ & _ & _ & Hok); cbn;
      [|by case_match|unfold seekp, ltfs_part_id2num, NO_PARTITION; case_bool; lia|lia].
    destruct (Hok Hr) as (_ & Hdev' & Hb'). cbn in Hdev', Hb'.
    exists (m_move m seekp (Z.min seekb (m_eod m seekp))).
    set (v1 := if _ || _ then _ else _). set (v2 := if _ || _ then _ else _) in v1.
    assert (Hsame : device v1 = dev /\ cache_ok v1 log /\ blocksize v1 = bs /\
      part_num2id v1 = part_num2id v0 /\ (exists b, last_block v1 = Some b) /\
      cache_hit entry seekp seekb curpos v1 = cache_hit entry seekp seekb curpos v)
      by (subst v1 v2; by repeat case_match).
    destruct Hsame as (Hd1 & Hc1 & Hb1 & Hl1 & Ha1 & Hh1).
    split; [split; try done; by rewrite Hd1|]. split; [|done].
    unfold ready. rewrite Hh1, Hnh.
    destruct (Z.leb_spec seekb (m_eod m seekp)); [left; cbn; lia|].
    right. unfold m_here. cbn. rewrite Z.min_r by lia. apply lookup_ge_None. unfold m_eod, zlength. lia.
  - eexists _, _. split; [done|]. exists m. split; [done|]. split; [|done].
    unfold ready. destruct (cache_hit entry seekp seekb curpos v) eqn:Hh; [done|]. left.
    rewrite andb_true_r in Hgo. bsplit. destruct Hpos as [Hpp Hpb]. unfold curpos in *. split; congruence.
Qed.

Lemma read_extent_ok ck entry offset count st v m :
  extent_ok bs entry -> 0 <= offset -> offset + count < 2 ^ 63 -> inv v m ->
  filled offset count st -> fileoffset entry <= next_off st ->
  (forall o, next_off st <= o < extent_end entry -> locate bs L o = extent_locate bs entry o) ->
  exists res v', read_extent None ck entry count (offset + count) st v = Some (res, v') /\
    match res with
    | inl r => r < 0
    | inr st' => exists m', inv v' m' /\ filled offset count st' /\
        next_off st' = if next_off st <? extent_end entry
                       then Z.min (extent_end entry) (offset + count) else next_off st
    end.
Proof.
  intros Hent Ho Hmax Hinv Hfill Hn Hloc. pose proof Hent as (Hfo & Hbc & Hee & [Hbo0 Hbo] & Hst & Hsb).
  unfold read_extent.
  assert (Hend : fileoffset_end entry = extent_end entry)
    by (unfold fileoffset_end, extent_end in *; nowrap; done).
  rewrite Hend. destruct (next_off st <? extent_end entry) eqn:Hlt; bsplit.
  2: { eexists _, _. split; [done|]. by exists m. }
  unfold io_bind at 1, io_get at 1. unfold io_bind at 1, io_get at 1. unfold io_bind at 1, io_get at 1.
  cbn beta iota zeta. rewrite (ri_bs _ _ _ _ Hinv), (id2num_label v0 v) by apply Hinv.
  set (n := next_off st - fileoffset entry + byteoffset entry).
  assert (Hnr : 0 <= n < byteoffset entry + bytecount entry) by (unfold n, extent_end in *; lia).
  assert (Hdiv : n / bs <= (byteoffset entry + bytecount entry) / bs) by (apply Z.div_le_mono; lia).
  assert (Hdiv0 : 0 <= n / bs) by (apply Z.div_pos; lia).
  unfold extent_end in Hee. rewrite (u64_small n), (u64_small (start_block entry + n / bs)) by lia.
  destruct (seek_block_ok ck entry (start_block entry + n / bs) st v m Hinv ltac:(lia))
    as (res & v1 & Hsk & Hpost).
  unfold io_bind at 1. rewrite Hsk. destruct res as [r|st1]; [by eexists _, _|].
  destruct Hpost as (m1 & Hinv1 & Hready & Hb1 & Hn1). destruct Hfill as (Hf1 & Hf2 & Hf3).
  assert (Hmod : n = bs * (n / bs) + n mod bs /\ 0 <= n mod bs < bs)
    by (split; [apply Z.div_mod; lia|apply Z.mod_pos_bound; lia]).
  unfold filled in *. rewrite <- Hn1, <- Hb1 in *.
  replace (start_block entry + n / bs - start_block entry) with (n / bs) by lia.
  apply (read_loop_ok ck entry offset count (Z.to_nat count) _ _ _ _ st1 v1 m1); try done; try lia.
  - unfold read_count. pose proof (zlength_nonneg (r_buf st1)). lia.
  - intros _. replace (start_block entry + n / bs - start_block entry) with (n / bs) by lia.
    split_and!; try done; unfold n in *; lia.
Qed.

(** ** All extents *)

(** The output is complete up to the end of the request, or nothing of the file
    lies behind it. *)
Lemma read_extents_ok ck offset count hi : forall l lo st v m,
  chain bs lo l hi -> hi < 2 ^ 63 -> 0 <= offset -> 0 < count -> offset + count < 2 ^ 63 -> inv v m ->
  filled offset count st -> (zlength (r_buf st) = 0 \/ next_off st <= hi) ->
  (next_off st < offset + count -> forall o, next_off st <= o -> locate bs L o = locate bs l o) ->
  exists res v', read_extents None ck l count (offset + count) st v = Some (res, v') /\
    match res with
    | inl r => r < 0
    | inr st' => exists m', inv v' m' /\ bytes_are f offset (r_buf st') /\
        (zlength (r_buf st') = 0 \/ offset + zlength (r_buf st') <= hi) /\
        (zlength (r_buf st') = count \/
         (zlength (r_buf st') < count /\ next_off st' = offset + zlength (r_buf st') /\
          forall o, next_off st' <= o -> locate bs L o = None))
    end.
Proof.
  induction l as [|entry l IH]; intros lo st v m Hch Hhi Ho Hc Hmax Hinv Hfill Hbound Hloc;
    pose proof Hfill as (Hby & Hnx & Hct); cbn [read_extents].
  { eexists _, _. split; [done|]. exists m. split_and!; try done; [lia|].
    destruct (decide (zlength (r_buf st) = count)); [auto|right]. split_and!; try lia.
    intros o Hoo. by rewrite Hloc by lia. }
  unfold read_count. destruct (Z.eqb_spec (zlength (r_buf st)) count) as [Hfull|Hfull].
  { eexists _, _. split; [done|]. exists m. split_and!; try done; [lia|auto]. }
  destruct Hch as (Hlo & Hent & Hch). pose proof Hent as (Hfo & Hbc & Hee & _).
  pose proof (chain_le bs _ _ _ Hch) as Hle.
  assert (Hgap : forall o, next_off st <= o < fileoffset entry -> f o = Some 0).
  { intros o Hoo. unfold file_byte. rewrite Hloc by lia. cbn.
    rewrite extent_locate_out by lia. rewrite (locate_out bs (extent_end entry) l hi); try done.
    unfold extent_end in *. lia. }
  destruct ((next_off st <? fileoffset entry) && (offset + count <? fileoffset entry)) eqn:Hbeyond.
  { bsplit. rewrite u64_small by (unfold extent_end in *; pose proof (zlength_nonneg (r_buf st)); lia).
    eexists _, _. split; [done|]. exists m. cbn.
    assert (zlength (r_buf st ++ zeros (offset + count - next_off st)) = count) as Hz
      by (rewrite zlength_app, zlength_zeros by lia; lia).
    split_and!; try done.
    - apply bytes_are_app; [done|]. apply bytes_are_zeros. intros o Hoo. apply Hgap. lia.
    - right. rewrite Hz. unfold extent_end in *. lia.
    - by left. }
  set (st1 := if next_off st <? fileoffset entry then _ else st).
  assert (Hst1 : filled offset count st1 /\ next_off st1 = Z.max (next_off st) (fileoffset entry)).
  { subst st1. destruct (Z.ltb_spec (next_off st) (fileoffset entry)); [|split; [done|lia]].
    cbn in Hbeyond. bsplit. unfold filled, extent_end in *. cbn.
    pose proof (zlength_nonneg (r_buf st)). rewrite u64_small by lia.
    split_and!; [| | |lia].
    - apply bytes_are_app; [done|]. apply bytes_are_zeros. intros o Hoo. apply Hgap. lia.
    - rewrite zlength_app, zlength_zeros by lia. lia.
    - rewrite zlength_app, zlength_zeros by lia. lia. }
  destruct Hst1 as [Hfill1 Hn1].
  destruct (read_extent_ok ck entry offset count st1 v m) as (res & v1 & Hre & Hpost); try done; [lia| |].
  { intros o Hoo. rewrite Hloc by lia. cbn.
    unfold extent_locate. by replace ((_ <=? o) && _) with true by lia. }
  unfold io_bind. rewrite Hre. destruct res as [r|st2]; [by eexists _, _|].
  destruct Hpost as (m2 & Hinv2 & Hfill2 & Hn2).
  assert (Hn2' : next_off st2 = Z.max (next_off st1) (Z.min (extent_end entry) (offset + count))).
  { rewrite Hn2. destruct Hfill1 as (_ & ? & ?). case_bool; lia. }
  pose proof Hfill2 as (_ & Hnx2 & _).
  apply (IH (extent_end entry) _ _ m2); try done.
  - destruct Hbound as [Hz|Hz]; [|right; unfold extent_end in *; lia].
    destruct (Z.ltb_spec offset (extent_end entry)); [right; unfold extent_end in *; lia|left].
    unfold extent_end in *. lia.
  - intros Hlt o Hoo. rewrite Hloc by lia. cbn. by rewrite extent_locate_out by lia.
Qed.
End read.

(** ** The whole read *)

Section read_file.
Context {S : Type} `{TapeLaws S}.
Implicit Types v : ltfs_volume S.

(** A mounted volume at rest: the cached position is right, the block cache
    holds what it claims, the block size is a legal one and the tape is not
    longer than 2^62 records. *)
Record volume_ok v (m : medium) : Prop := {
  vo_dev : dev_ok (device v) m;
  vo_cache : cache_ok v (m_log m);
  vo_bs : 0 < blocksize v <= 2 ^ 32;
  vo_log : forall p, zlength (m_log m p) < 2 ^ 62;
}.

Lemma cache_ok_none v log : cache_ok v log -> last_block v = None ->
  ltfs_part_id2num (last_pos_partition v) v = NO_PARTITION.
Proof.
  intros Hc Hn. unfold cache_ok in Hc.
  destruct (decide (ltfs_part_id2num (last_pos_partition v) v = NO_PARTITION)) as [|Hne]; [done|].
  destruct (Hc Hne) as (? & ? & _ & _ & Hl & _). congruence.
Qed.

(** How many bytes a read of [count] bytes at [offset] returns. *)
Definition read_length (d : dentry) (count offset : Z) : Z := Z.max 0 (Z.min count (size d - offset)).

(** Filling up to the end of file. *)
Lemma sparse_end_ok v log d offset count st :
  size d < 2 ^ 63 -> 0 <= offset -> 0 < count -> offset + count < 2 ^ 63 ->
  let f := file_byte v log (extentlist d) in
  bytes_are f offset (r_buf st) ->
  (zlength (r_buf st) = 0 \/ offset + zlength (r_buf st) <= size d) ->
  (zlength (r_buf st) = count \/
   (zlength (r_buf st) < count /\ next_off st = offset + zlength (r_buf st) /\
    forall o, next_off st <= o -> locate (blocksize v) (extentlist d) o = None)) ->
  let st' := if (read_count st <? count) && (next_off st <? size d) then
               put (zeros (if offset + count <? size d then (offset + count) ⊟ next_off st
                           else size d ⊟ next_off st)) (next_off st) st
             else st in
  bytes_are f offset (r_buf st') /\ zlength (r_buf st') = read_length d count offset.
Proof.
  intros Hsz Ho Hc Hmax f Hby Hb Hend. unfold read_count, read_length.
  pose proof (zlength_nonneg (r_buf st)).
  destruct ((_ <? count) && _) eqn:Hgo; cbn zeta.
  2: { split; [done|]. apply andb_false_iff in Hgo. destruct Hend as [Hfull|(? & ? & _)];
       destruct Hgo as [Hgo|Hgo]; bsplit; lia. }
  bsplit. destruct Hend as [?|(_ & Hnx & Hnone)]; [lia|]. cbn [put r_buf].
  set (n := if offset + count <? size d then _ else _).
  assert (Hn : n = Z.min (offset + count) (size d) - next_off st).
  { subst n. case_bool; rewrite u64_small; lia. }
  split.
  - apply bytes_are_app; [done|]. apply bytes_are_zeros. intros o Hoo.
    unfold f, file_byte. by rewrite Hnone by lia.
  - rewrite zlength_app, zlength_zeros by lia. lia.
Qed.

Lemma read_locked_ok ck fresh v m d count offset :
  volume_ok v m -> extents_ok (blocksize v) (size d) (realsize d) (extentlist d) ->
  0 < count -> 0 <= offset -> offset + count < 2 ^ 63 ->
  exists res v', read_locked None ck fresh d count offset v = Some (res, v') /\
    match res with
    | inl r => r < 0
    | inr st => exists m', volume_ok v' m' /\ m_log m' = m_log m /\
        blocksize v' = blocksize v /\ part_num2id v' = part_num2id v /\
        zlength (r_buf st) = read_length d count offset /\
        bytes_are (file_byte v (m_log m) (extentlist d)) offset (r_buf st)
    end.
Proof.
  intros [Hdev Hcache Hbs Hlog] (Hch & Hsz & _) Hc Ho Hmax. unfold read_locked.
  assert (Halloc : (exists v1, read_inv v (m_log m) v1 m /\
      (let! cache := io_get (@last_block S) in
       match cache, fresh with
       | Some _, _ => io_ret tt
       | None, Some b => io_modify (fun v : ltfs_volume S => v <| last_block := Some b |>)
       | None, None => io_fail (- LTFS_NO_MEMORY)
       end) v = Some (inr tt, v1)) \/
      (last_block v = None /\ fresh = None)).
  { unfold io_bind, io_get. destruct (last_block v) as [b|] eqn:Hlb.
    - left. exists v. split; [split; try done; by exists b|done].
    - destruct fresh as [b|]; [|by right]. left. exists (v <| last_block := Some b |>). split; [|done].
      split; try done; [|by exists b]. intros Hne. pose proof (cache_ok_none _ _ Hcache Hlb) as Hno.
      by rewrite (id2num_label v) in Hne. }
  unfold io_bind in *. unfold io_get in *.
  destruct Halloc as [(v1 & Hinv & ->)|[-> ->]]; [|by eexists _, _].
  rewrite (u64_small offset), (u64_small (offset + count)) by lia.
  destruct (read_extents_ok v (m_log m) Hbs Hlog (extentlist d) ck offset count (size d)
              (extentlist d) 0 (mk_rstate [] offset false) v1 m) as (res & v2 & Hre & Hpost); try done.
  - unfold filled. cbn [r_buf next_off]. change (zlength []) with 0.
    split_and!; [apply bytes_are_nil|lia..].
  - by left.
  - rewrite Hre. destruct res as [r|st]; [by eexists _, _|].
    eexists _, _. split; [done|]. destruct Hpost as (m2 & [Hd2 Hm2 Hc2 Hb2 Hl2 _] & Hby & Hbd & Hend).
    exists m2. destruct (sparse_end_ok v (m_log m) d offset count st) as [Hby' Hlen]; try done.
    set (v3 := ltfs_set_index_dirty true v2).
    assert (Hsame : device v3 = device v2 /\ blocksize v3 = blocksize v2 /\
      part_num2id v3 = part_num2id v2 /\ (cache_ok v2 (m_log m) -> cache_ok v3 (m_log m)))
      by (subst v3; unfold ltfs_set_index_dirty; cbn; by destruct (use_atime v2)).
    destruct Hsame as (Hd3 & Hb3 & Hl3 & Hc3).
    split; [|split_and!; [congruence..|exact Hby']].
    split; [by rewrite Hd3|rewrite Hm2; auto|by rewrite Hb3, Hb2|by rewrite Hm2].
Qed.

(** What one attempt of [ltfs_fsraw_read] on a volume at rest comes to: the
    bytes of the file, or the error [e] of the drive (or of the allocation),
    after which the call revalidates the medium and retries, or returns. *)
Lemma fsraw_read_cases rv fuel ck fresh v m d count offset :
  volume_ok v m -> reval v = 0 -> fence (device v) = false ->
  extents_ok (blocksize v) (size d) (realsize d) (extentlist d) ->
  0 < count -> 0 <= offset -> offset + count < 2 ^ 63 ->
  let read f := ltfs_fsraw_read rv None f true ck fresh d count offset in
  (exists out v' m', read (Datatypes.S fuel) v = Some (zlength out, out, d <| access_time := ts_end ck |>, v') /\
     zlength out = read_length d count offset /\
     bytes_are (file_byte v (m_log m) (extentlist d)) offset out /\
     volume_ok v' m' /\ m_log m' = m_log m) \/
  (exists e v1, e < 0 /\
     read (Datatypes.S fuel) v =
       if NEED_REVAL e then
         let '(ret, v2) := rv (after_error e v1) in
         if ret =? 0 then read fuel v2 else Some (ret, [], d, v2)
       else Some (e, [], d, after_error e v1)).
Proof.
  intros Hv Hrv Hfe Hex Hc Ho Hmax. cbn zeta. cbn [ltfs_fsraw_read].
  replace (count =? 0) with false by lia. 
  assert (ltfs_get_volume_lock v = Some (inr tt, v)) as -> by (unfold ltfs_get_volume_lock; by rewrite Hrv).
  assert (tape_device_lock true (device v) = 0) as -> by (unfold tape_device_lock; by rewrite Hfe).
  destruct (read_locked_ok ck fresh v m d count offset Hv Hex Hc Ho Hmax) as (res & v1 & Hres & Hpost).
  replace (0 =? - LTFS_DEVICE_FENCED) with false by done. cbn [Z.ltb Z.compare].
  rewrite Hres. destruct res as [e|st].
  - right. exists e, v1. split; [done|]. by destruct (NEED_REVAL e).
  - left. destruct Hpost as (m' & Hv' & Hm' & _ & _ & Hlen & Hby). by exists (r_buf st), v1, m'.
Qed.
End read_file.
