(* ===== verification/FsRawWrite.v ===== *)
(** * Writing changes exactly the bytes written

    A write appends the blocks of the buffer behind the data of the partition
    and adds one extent to the file; afterwards the file holds the buffer at
    its offset and its old contents everywhere else, and the volume satisfies
    what reading needs.  With [FsRawRead] this is the round trip of a file. *)

From S2P Require Import Prelude Bytes LtfsError Extents TapeOps TapeLayer Journal FsRaw FsRawRead.

(** ** Cutting a buffer into blocks *)

Lemma blocks_of_length fuel bs buf :
  0 < bs -> (length buf <= fuel)%nat -> zlength (blocks_of fuel bs buf) <= zlength buf.
Proof.
  intros Hbs. revert buf. induction fuel as [|fuel IH]; intros [|x buf] Hl; cbn [blocks_of]; cbn in Hl; try lia.
  { done. } { done. }
  set (n := if _ <? _ then _ else _). rewrite zlength_cons.
  assert (0 < n <= zlength (x :: buf)) by (subst n; case_bool; rewrite zlength_cons in *; pose proof (zlength_nonneg buf); lia).
  specialize (IH (drop (Z.to_nat n) (x :: buf))).
  unfold zlength in *. rewrite length_drop in IH. cbn [length] in *. lia.
Qed.

Lemma blocks_of_nonempty fuel bs buf b : 0 < bs -> b ∈ blocks_of fuel bs buf -> b <> [].
Proof.
  intros Hbs. revert buf. induction fuel as [|fuel IH]; intros [|x buf]; cbn [blocks_of];
    try by intros ?%elem_of_nil.
  intros [->|Hb]%elem_of_cons; [|by apply (IH _ Hb)].
  set (n := if _ <? _ then _ else _).
  assert (0 < n) by (subst n; case_bool; rewrite zlength_cons in *; pose proof (zlength_nonneg buf); lia).
  destruct (Z.to_nat n) eqn:?; [lia|done].
Qed.

(** Byte [k] of block [j] is byte [j * bs + k] of the buffer. *)
Lemma blocks_of_lookup fuel bs buf j k :
  0 < bs -> (length buf <= fuel)%nat -> 0 <= j -> 0 <= k < bs -> j * bs + k < zlength buf ->
  exists b, blocks_of fuel bs buf !! Z.to_nat j = Some b /\ b !! Z.to_nat k = buf !! Z.to_nat (j * bs + k).
Proof.
  intros Hbs. revert buf j. induction fuel as [|fuel IH]; intros buf j Hl Hj Hk Hlt.
  { unfold zlength in Hlt. assert (0 <= j * bs) by (apply Z.mul_nonneg_nonneg; lia). lia. }
  destruct buf as [|x buf]; [change (zlength []) with 0 in Hlt; assert (0 <= j * bs) by (apply Z.mul_nonneg_nonneg; lia); lia|].
  cbn [blocks_of]. set (B := x :: buf) in *. set (n := if _ <? _ then _ else _).
  destruct (decide (j = 0)) as [->|Hj0].
  { eexists. split; [done|]. rewrite lookup_take_lt; [f_equal; lia|]. subst n. case_bool; lia. }
  assert (Hj1 : bs <= j * bs) by (replace bs with (1 * bs) at 1 by lia; apply Z.mul_le_mono_nonneg_r; lia).
  assert (Hn : n = bs) by (subst n; case_bool; lia). rewrite Hn.
  destruct (IH (drop (Z.to_nat bs) B) (j - 1)) as (b & Hb & Hbk).
  - rewrite length_drop. unfold B in *. cbn [length] in *. lia.
  - lia.
  - done.
  - unfold zlength in *. rewrite length_drop. lia.
  - exists b. replace (Z.to_nat j) with (Datatypes.S (Z.to_nat (j - 1))) by lia. split; [done|].
    rewrite Hbk, lookup_drop. f_equal. lia.
Qed.

(** ** The medium after a run of writes *)

(** [m'] is [m] with the records [rs] written at the head. *)
Definition appended (m : medium) (rs : list tape_record) (m' : medium) : Prop :=
  m_part m' = m_part m /\ m_block m' = m_block m + zlength rs /\
  forall p, m_log m' p = m_log (m_append m rs) p.

Lemma appended_nil m : m_wf m -> m_block m = m_eod m (m_part m) -> appended m [] m.
Proof.
  intros (_ & Hb) He. unfold appended. rewrite zlength_nil. split_and!; [done|lia|]. intros p. cbn.
  destruct (Z.eqb_spec p (m_part m)) as [->|]; [|done]. rewrite app_nil_r, take_ge; [done|].
  unfold m_eod, zlength in *. lia.
Qed.

Lemma appended_step m r rs m' :
  m_wf m -> appended (m_append m [r]) rs m' -> appended m (r :: rs) m'.
Proof.
  intros (_ & Hb0 & Hb) (Hp & Hbl & Hl). unfold appended in *. cbn in Hp, Hbl.
  rewrite zlength_cons. change (zlength [r]) with 1 in *.
  split_and!; [done|lia|]. intros p. rewrite Hl. cbn.
  destruct (Z.eqb_spec p (m_part m)) as [->|]; [|done].
  unfold m_eod, zlength in *. change (length [r]) with 1%nat in *.
  assert (Hlen : length (take (Z.to_nat (m_block m)) (m_log m (m_part m))) = Z.to_nat (m_block m))
    by (rewrite length_take; lia).
  rewrite take_app, Hlen, take_take. replace (_ `min` _)%nat with (Z.to_nat (m_block m)) by lia.
  replace (_ - _)%nat with 1%nat by lia. by rewrite <- app_assoc.
Qed.

Section write.
Context {S : Type} `{TapeLaws S}.
Implicit Types v : ltfs_volume S.

(** ** The write loops *)

Lemma write_blocks_app now a b v :
  write_blocks now (a ++ b) v = io_bind (write_blocks now a) (fun _ => write_blocks now b) v.
Proof.
  revert v. induction a as [|x a IH]; intros v; [done|]. cbn [write_blocks app].
  unfold io_bind in *. destruct (on_device _ v) as [[[r|r] v1]|]; [done| |done]. apply IH.
Qed.

Lemma write_reps_concat now n blocks v :
  write_reps now n blocks v = write_blocks now (concat (replicate n blocks)) v.
Proof.
  revert v. induction n as [|n IH]; intros v; [done|].
  cbn [write_reps replicate concat]. rewrite write_blocks_app. unfold io_bind.
  destruct (write_blocks now blocks v) as [[[r|r] v1]|]; [done|apply IH|done].
Qed.

Lemma write_blocks_ok now : forall blocks v m,
  dev_ok (device v) m -> blocks <> [] -> (forall b, b ∈ blocks -> b <> []) ->
  m_block m + zlength blocks < 2 ^ 62 ->
  exists res dev, write_blocks now blocks v = Some (res, set_device v dev) /\
    match res with
    | inl r => r < 0
    | inr _ => exists m', dev_ok dev m' /\ appended m (TData <$> blocks) m' /\
        append_pos dev = (append_pos (device v)).[m_part m <- m_block m + zlength blocks]
    end.
Proof.
  induction blocks as [|b blocks IH]; intros v m Hdev Hne Hall Hmax; [done|].
  pose proof (dev_ok_wf _ _ Hdev) as Hwf. cbn [write_blocks]. unfold io_bind, on_device.
  rewrite zlength_cons in *. pose proof (zlength_nonneg blocks).
  destruct (tape_write now (device v) b false false) as [r dev1] eqn:Hw.
  destruct (r <? 0) eqn:Hr; bsplit.
  { exists (inl r), dev1. by split. }
  assert (Hmax1 : m_block m + 1 < 2 ^ 62) by lia.
  destruct (tape_write_cases _ _ _ _ _ _ _ _ Hdev Hmax1 (Hall b (list_elem_of_here _ _)) Hw)
    as [[? _]|[[? _]|(_ & Hdev1 & Hap & _)]]; [lia..|].
  assert (Hstep : appended (m_append m [TData b]) [] (m_append m [TData b])).
  { pose proof (dev_ok_wf _ _ Hdev1) as Hwf1. apply appended_nil; [done|].
    change (m_part (m_append m [TData b])) with (m_part m). by rewrite m_append_eod. }
  destruct blocks as [|b2 blocks].
  { exists (inr tt), dev1. split; [done|]. exists (m_append m [TData b]). split_and!; [done| |done].
    by apply appended_step. }
  destruct (IH (set_device v dev1) (m_append m [TData b])) as (res & dev & Hrun & Hpost); try done.
  { intros x Hx. apply Hall. by right. }
  { cbn. change (zlength [TData b]) with 1. lia. }
  exists res, dev. rewrite Hrun. split; [done|]. destruct res as [e|[]]; [done|].
  destruct Hpost as (m' & Hdev' & Happ & Hap'). exists m'. split_and!; [done|by apply appended_step|].
  rewrite Hap'. cbn. rewrite Hap. change (zlength [TData b]) with 1.
  unfold a2set. destruct (m_part m =? 0); cbn [fst snd]; f_equal; lia.
Qed.

(** The fields a write leaves alone. *)
Definition same_rest v v' : Prop :=
  blocksize v' = blocksize v /\ part_num2id v' = part_num2id v /\ partid_ip v' = partid_ip v /\
  partid_dp v' = partid_dp v /\ last_pos_partition v' = last_pos_partition v /\
  last_pos_block v' = last_pos_block v /\ last_size v' = last_size v /\ last_block v' = last_block v /\
  reval v' = reval v.

(** Where the next write to partition [num] goes: the append position, or the
    end of data when none is known. *)
Definition append_block v m (num : Z) : Z :=
  Z.min (if (append_pos (device v)).[num] =? 0 then m_eod m num else (append_pos (device v)).[num])
        (m_eod m num).

Context (write_index : Z -> ltfs_volume S -> Z * ltfs_volume S).

Definition other_partition (part : Z) v : Z := if part =? partid_ip v then partid_dp v else partid_ip v.

Lemma write_data_locked_ok ck part buf v m :
  volume_ok v m -> buf <> [] -> index_due (other_partition part v) v = false ->
  let num := ltfs_part_id2num part v in
  num <> NO_PARTITION -> 0 <= (append_pos (device v)).[num] ->
  append_block v m num + zlength buf < 2 ^ 62 ->
  exists res v', write_data_locked write_index ck part buf 1 v = Some (res, v') /\
    match res with
    | inl r => r < 0
    | inr start => exists m' m1, start = append_block v m num /\ same_rest v v' /\
        dev_ok (device v') m' /\ m1 = m_move m num start /\ m_wf m1 /\
        appended m1 (TData <$> blocks_of (length buf) (blocksize v) buf) m' /\
        (append_pos (device v')).[num] = m_block m'
    end.
Proof.
  intros [Hdev Hcache Hbs Hlog] Hbuf Hidx num Hnum Hap Hmax. unfold write_data_locked.
  assert (Hnum01 : num = 0 \/ num = 1).
  { unfold num, ltfs_part_id2num in *. case_bool; auto. done. }
  unfold io_bind at 1, io_code at 1. destruct (ltfs_get_partition_readonly part v <? 0) eqn:Hro; bsplit.
  { by eexists _, _. }
  unfold io_bind at 1, io_code at 1.
  assert ((if part =? partid_ip v then ltfs_write_index_conditional write_index (partid_dp v) v
           else ltfs_write_index_conditional write_index (partid_ip v) v) = (0, v)) as ->.
  { unfold other_partition in Hidx. unfold ltfs_write_index_conditional.
    destruct (part =? partid_ip v); by rewrite Hidx. }
  change (0 <? 0) with false. cbn beta iota.
  unfold io_bind at 1, io_get at 1. unfold io_bind at 1, io_modify at 1. unfold io_bind at 1, io_modify at 1.
  unfold io_bind at 1, io_get at 1. unfold io_bind at 1, io_get at 1.
  set (first := negb _ && _ && _). set (v1 := if part =? partid_ip v then _ else _).
  set (v2 := if first then _ else v1).
  assert (Hv2 : device v2 = device v /\ same_rest v v2)
    by (subst v2 v1; unfold same_rest; destruct first, (part =? partid_ip v); done).
  clearbody v2 first. clear v1. destruct Hv2 as (Hd2 & Hsame).
  rewrite (id2num_label v v2) by apply Hsame. fold num.
  unfold io_bind at 1, on_device at 1. rewrite Hd2.
  destruct (tape_seek_append_position _ _ _ _) as [r dev3] eqn:Hsk.
  destruct (r <? 0) eqn:Hr; bsplit; [by eexists _, _|].
  apply (tape_seek_append_cases _ _ m) in Hsk as (_ & Hdev3 & Hb & _); try done.
  2: { specialize (Hlog num). unfold m_eod, TAPE_BLOCK_MAX. lia. }
  change (Z.min _ (m_eod m num)) with (append_block v m num) in Hdev3.
  unfold io_bind at 1, io_modify at 1. set (v3 := if first then _ else _).
  assert (Hv3 : device v3 = dev3 /\ same_rest v v3)
    by (subst v3; unfold same_rest in *; by destruct first).
  clearbody v3. destruct Hv3 as (Hd3 & Hsame3).
  unfold io_bind at 1, io_get at 1. unfold io_bind at 1, io_get at 1. rewrite Hd3.
  unfold io_bind. rewrite write_reps_concat. change (Z.to_nat 1) with 1%nat. cbn [replicate concat].
  rewrite app_nil_r. pose proof Hsame3 as (Hb3 & _). rewrite Hb3.
  pose proof Hdev3 as [_ [Hpp Hpb]]. cbn in Hpp, Hpb.
  destruct (write_blocks_ok (ts_end ck) (blocks_of (length buf) (blocksize v) buf) v3
    (m_move m num (append_block v m num))) as (res & dev & Hrun & Hpost).
  - by rewrite Hd3.
  - by destruct buf.
  - intros b. apply blocks_of_nonempty. lia.
  - pose proof (blocks_of_length (length buf) (blocksize v) buf ltac:(lia) (Nat.le_refl _)). cbn. lia.
  - rewrite Hrun. destruct res as [e|[]]; [by eexists _, _|].
    destruct Hpost as (m' & Hdev' & Happ & Hap'). eexists _, _. split; [done|].
    eexists m', _. rewrite Hpb. split_and!; try done.
    + by apply (dev_ok_wf dev3).
    + cbn. rewrite Hap'. cbn. destruct Happ as (_ & -> & _). cbn.
      rewrite a2get_set. unfold zlength. by rewrite length_fmap.
Qed.

(** ** The contents after a write *)

(** Everything the file and the cache refer to on partition [num] lies before
    the place where the next write goes. *)
Definition protected v m (l : list extent_info) (num : Z) : Prop :=
  (forall o p b k, locate (blocksize v) l o = Some (p, b, k) -> ltfs_part_id2num p v = num ->
     b < append_block v m num) /\
  (ltfs_part_id2num (last_pos_partition v) v = num -> last_pos_block v < append_block v m num).

Lemma locate_nonneg bs lo l hi o p b k :
  0 < bs -> chain bs lo l hi -> locate bs l o = Some (p, b, k) -> 0 <= b /\ 0 <= k < bs.
Proof.
  intros Hbs. revert lo. induction l as [|e l IH]; intros lo; cbn [locate chain]; [done|].
  intros (_ & (_ & _ & _ & [Hbo _] & Hst & _) & Hch). unfold extent_locate.
  destruct ((_ <=? o) && _) eqn:Hin; [|by apply IH with (lo := extent_end e)]. bsplit. intros [= _ <- <-].
  split; [|by apply Z.mod_pos_bound]. pose proof (Z.div_pos (byteoffset e + (o - fileoffset e)) bs). lia.
Qed.

(** Records before the place of the write are kept. *)
Lemma appended_before m num start rs m' p b :
  m_wf (m_move m num start) -> appended (m_move m num start) rs m' -> 0 <= b ->
  (p = num -> b < start) -> m_log m' p !! Z.to_nat b = m_log m p !! Z.to_nat b.
Proof.
  intros Hwf (_ & _ & Hl) Hb Hp. rewrite Hl.
  rewrite (m_append_before (m_move m num start)); [done| |done]. cbn.
  destruct (decide (p = num)) as [->|]; [right; specialize (Hp eq_refl); lia|by left].
Qed.

(** The new records, from [start] on. *)
Lemma appended_new m num start rs m' i :
  m_wf (m_move m num start) -> appended (m_move m num start) rs m' -> 0 <= i ->
  m_log m' num !! Z.to_nat (start + i) = rs !! Z.to_nat i.
Proof.
  intros (_ & Hb0 & Hb) (_ & _ & Hl) Hi. rewrite Hl. cbn in *. unfold m_eod, zlength in Hb. cbn in Hb.
  rewrite Z.eqb_refl, lookup_app_r; rewrite length_take; [|lia]. f_equal. lia.
Qed.

Lemma appended_eod m num start rs m' p :
  m_wf (m_move m num start) -> appended (m_move m num start) rs m' ->
  zlength (m_log m' p) = if p =? num then start + zlength rs else zlength (m_log m p).
Proof.
  intros (_ & Hb0 & Hb) (_ & _ & Hl). rewrite Hl. cbn in *. unfold m_eod, zlength in *. cbn in Hb.
  destruct (p =? num) eqn:E; [|done]. bsplit. subst. rewrite length_app, length_take. lia.
Qed.

Section one_write.
Context (v : ltfs_volume S) (m m' : medium) (l : list extent_info) (sz rs : Z) (part : Z).
Context (buf : list Z) (offset : Z).
Context (Hv : volume_ok v m) (Hl : extents_ok (blocksize v) sz rs l).
Abbreviation num := (ltfs_part_id2num part v).
Abbreviation start := (append_block v m num).
Abbreviation bs := (blocksize v).
Context (Hwf : m_wf (m_move m num start)) (Hprot : protected v m l num).
Context (Happ : appended (m_move m num start) (TData <$> blocks_of (length buf) bs buf) m').

(** The old contents can still be read. *)
Lemma old_byte_kept o : file_byte v (m_log m') l o = file_byte v (m_log m) l o.
Proof.
  unfold file_byte. destruct (locate bs l o) as [[[p b] k]|] eqn:Hloc; [|done].
  destruct Hl as [Hch _].
  destruct (locate_nonneg _ _ _ _ _ _ _ _ (proj1 (vo_bs _ _ Hv)) Hch Hloc) as [Hb _].
  unfold tape_byte.
  rewrite (appended_before m num start (TData <$> blocks_of (length buf) bs buf) m'); try done.
  intros Hp. by apply (proj1 Hprot o p b k).
Qed.

(** The new extent locates the buffer. *)
Lemma new_byte_read o :
  offset <= o < offset + zlength buf ->
  exists b k, extent_locate bs (written_extent part start (zlength buf) offset) o = Some (part, b, k) /\
    tape_byte (m_log m') num b k = buf !! Z.to_nat (o - offset) /\
    b < start + zlength (blocks_of (length buf) bs buf).
Proof.
  intros Ho. unfold extent_locate, written_extent, extent_end. cbn.
  replace ((offset <=? o) && _) with true by lia. rewrite Z.add_0_l.
  eexists _, _. split; [done|]. pose proof (vo_bs _ _ Hv) as Hbs.
  assert (0 <= (o - offset) / bs) by (apply Z.div_pos; lia).
  pose proof (Z.mod_pos_bound (o - offset) bs (proj1 Hbs)) as Hmod.
  assert (Hdm : (o - offset) / bs * bs + (o - offset) mod bs = o - offset)
    by (rewrite (Z.div_mod (o - offset) bs) at 3 by lia; lia).
  destruct (blocks_of_lookup (length buf) bs buf ((o - offset) / bs) ((o - offset) mod bs))
    as (b & Hb & Hk); try done; try lia.
  unfold tape_byte. rewrite (appended_new m num start (TData <$> blocks_of (length buf) bs buf)); try done.
  rewrite list_lookup_fmap, Hb. cbn. rewrite Hk, Hdm. split; [done|].
  apply lookup_lt_Some in Hb. unfold zlength. lia.
Qed.

Lemma cache_kept : cache_ok v (m_log m').
Proof.
  intros Hne. destruct (vo_cache _ _ Hv Hne) as (bytes & rest & Hlk & Hp0 & Hrest).
  exists bytes, rest. split; [|done].
  rewrite (appended_before m num start (TData <$> blocks_of (length buf) bs buf)); try done.
  intros Heq. by apply Hprot.
Qed.
End one_write.

Lemma file_byte_same v v' log l o :
  blocksize v' = blocksize v -> part_num2id v' = part_num2id v ->
  file_byte v' log l o = file_byte v log l o.
Proof.
  intros Hb Hp. unfold file_byte. rewrite Hb. destruct (locate _ _ _) as [[[p b] k]|]; [|done].
  by rewrite (id2num_label v v').
Qed.

Lemma cache_ok_same v v' log : same_rest v v' -> cache_ok v log -> cache_ok v' log.
Proof.
  intros (Hb & Hp & _ & _ & Hlp & Hlb & Hls & Hblk & _) Hc. unfold cache_ok in *.
  rewrite (id2num_label v v') by done. by rewrite Hb, Hlp, Hlb, Hls, Hblk.
Qed.
End write.

(** ** Whole operations *)

Section ops.
Context {S : Type} `{TapeLaws S}.
Implicit Types v : ltfs_volume S.

Lemma set_dentry_dirty_frame al d v d' v' :
  set_dentry_dirty al d v = (d', v') ->
  d' = d <| dirty := true |> /\ device v' = device v /\ same_rest v v'.
Proof.
  unfold set_dentry_dirty. destruct (ltfs_set_dentry_dirty _ _ _ _ _ _ _) as [r j].
  by intros [= <- <-].
Qed.

Lemma index_dirty_frame atime v :
  device (ltfs_set_index_dirty atime v) = device v /\ same_rest v (ltfs_set_index_dirty atime v).
Proof. unfold ltfs_set_index_dirty, same_rest. destruct atime; cbn; [destruct (use_atime v)|]; done. Qed.

Lemma same_rest_trans v1 v2 v3 : same_rest v1 v2 -> same_rest v2 v3 -> same_rest v1 v3.
Proof. unfold same_rest. intros (?&?&?&?&?&?&?&?&?) (?&?&?&?&?&?&?&?&?). split_and!; congruence. Qed.

(** Adding an extent, with and without memory. *)
Lemma add_extent_unlocked_ok al now d ext ut v :
  0 < blocksize v <= 2 ^ 32 -> copy_ok al = true -> split_ok al = true ->
  extents_ok (blocksize v) (size d) (realsize d) (extentlist d) -> extent_ok (blocksize v) ext ->
  exists d' v', _ltfs_fsraw_add_extent_unlocked al now d ext ut v = (0, d', v') /\
    device v' = device v /\ same_rest v v' /\
    extents_ok (blocksize v) (size d') (realsize d') (extentlist d') /\
    size d' = Z.max (size d) (extent_end ext) /\ dirty d' = true /\ extents_dirty d' = true /\
    forall o, locate (blocksize v) (extentlist d') o =
              over (blocksize v) ext (locate (blocksize v) (extentlist d)) o.
Proof.
  intros Hbs Hc Hs Hok Hext. unfold _ltfs_fsraw_add_extent_unlocked. rewrite Hc, Hs.
  destruct (add_extent_list_ok _ Hbs ext _ _ _ Hok Hext) as (l' & rs' & -> & Hok' & Hloc).
  change (0 <? 0) with false. cbn beta iota zeta.
  assert (Hend : fileoffset_end ext = extent_end ext).
  { destruct Hext as (? & ? & ? & _). unfold fileoffset_end, extent_end in *. nowrap. done. }
  rewrite Hend. set (d1 := (_ <| extents_dirty := true |>)).
  assert (Hd1 : extentlist d1 = l' /\ realsize d1 = rs' /\ size d1 = Z.max (size d) (extent_end ext) /\
                extents_dirty d1 = true).
  { subst d1. destruct ut; cbn; (destruct (Z.ltb_spec (size d) (extent_end ext)); cbn; split_and!; try done; lia). }
  clearbody d1. destruct Hd1 as (Hl1 & Hr1 & Hs1 & He1).
  destruct (set_dentry_dirty al d1 v) as [d2 v2] eqn:Hd.
  apply set_dentry_dirty_frame in Hd as (-> & Hdev & Hsame).
  destruct (index_dirty_frame false v2) as [Hdev' Hsame'].
  eexists _, _. split; [done|]. cbn. rewrite Hl1, Hr1, Hs1.
  split_and!; try done; try congruence; by apply (same_rest_trans v v2).
Qed.

Lemma add_extent_unlocked_allocs al now d ext ut v d' v' :
  _ltfs_fsraw_add_extent_unlocked al now d ext ut v = (0, d', v') ->
  _ltfs_fsraw_add_extent_unlocked (mk_allocs true true (key_ok al) (ent_ok al) (fullpath al))
    now d ext ut v = (0, d', v').
Proof.
  unfold _ltfs_fsraw_add_extent_unlocked. cbn [copy_ok split_ok].
  destruct (add_extent_list _ _ (copy_ok al) _ _ _) as [[r l] rs] eqn:Hadd.
  destruct (Z.ltb_spec r 0); [intros [= ? _ _]; lia|]. intros Hrun.
  assert (r = 0) as ->.
  { unfold add_extent_list in Hadd. destruct (copy_ok al); cbn in Hadd.
    - destruct (add_extent_loop _ _ _ _ _ _) as [[[] ?] ?]; by injection Hadd as <- _ _.
    - by injection Hadd as <- _ _. }
  rewrite (add_extent_list_split _ _ _ _ _ _ _ _ Hadd). exact Hrun.
Qed.

Lemma add_extent_unlocked_fails al now d ext ut v r d' v' :
  0 < blocksize v <= 2 ^ 32 ->
  extents_ok (blocksize v) (size d) (realsize d) (extentlist d) -> extent_ok (blocksize v) ext ->
  _ltfs_fsraw_add_extent_unlocked al now d ext ut v = (r, d', v') -> r <> 0 ->
  r = - LTFS_NO_MEMORY /\ d' = d /\ v' = v.
Proof.
  intros Hbs Hok Hext. unfold _ltfs_fsraw_add_extent_unlocked.
  destruct (add_extent_list _ _ _ _ _ _) as [[r1 l1] rs1] eqn:Hadd. intros Hr Hne.
  destruct (Z.eqb_spec r1 0) as [->|Hr1].
  { change (0 <? 0) with false in Hr. cbn beta iota zeta in Hr.
    destruct (set_dentry_dirty _ _ _) in Hr. congruence. }
  destruct (add_extent_list_nomem _ Hbs _ _ _ _ _ _ _ _ _ Hok Hext Hadd Hr1) as (-> & -> & ->).
  change (- LTFS_NO_MEMORY <? 0) with true in Hr. cbn beta iota in Hr. injection Hr as <- <- <-.
  split_and!; try done. by destruct d.
Qed.

Context (write_index : Z -> ltfs_volume S -> Z * ltfs_volume S).
Context (rv : ltfs_volume S -> Z * ltfs_volume S).

(** What the caller of a write must provide. *)
Record write_pre v m d (buf : list Z) (offset part : Z) : Prop := {
  wp_vol : volume_ok v m;
  wp_reval : reval v = 0;
  wp_fence : fence (device v) = false;
  wp_file : extents_ok (blocksize v) (size d) (realsize d) (extentlist d);
  wp_part : part = partid_dp v \/ part = partid_ip v;
  wp_num : ltfs_part_id2num part v <> NO_PARTITION;
  wp_index : index_due (other_partition part v) v = false;
  wp_append : 0 <= (append_pos (device v)).[ltfs_part_id2num part v];
  wp_protected : protected v m (extentlist d) (ltfs_part_id2num part v);
  wp_buf : buf <> [];
  wp_offset : 0 <= offset;
  wp_end : offset + zlength buf < 2 ^ 63;
  wp_room : append_block v m (ltfs_part_id2num part v) + zlength buf < 2 ^ 62;
}.

Lemma write_data_unlocked_ok ck v m d buf offset part sb :
  write_pre v m d buf offset part ->
  let num := ltfs_part_id2num part v in
  exists res v', _ltfs_fsraw_write_data_unlocked write_index true ck part buf 1 sb v = Some (res, v') /\
    match res with
    | inl r => r < 0
    | inr start => exists m', start = append_block v m num /\ same_rest v v' /\
        dev_ok (device v') m' /\ m_wf (m_move m num start) /\
        appended (m_move m num start) (TData <$> blocks_of (length buf) (blocksize v) buf) m' /\
        (append_pos (device v')).[num] = m_block m'
    end.
Proof.
  intros Hp num. unfold _ltfs_fsraw_write_data_unlocked.
  pose proof (zlength_nonneg buf).
  assert (0 < zlength buf) by (destruct buf; [by destruct (wp_buf _ _ _ _ _ _ Hp)|rewrite zlength_cons; pose proof (zlength_nonneg buf); lia]).
  replace (negb (part =? partid_dp v) && negb (part =? partid_ip v)) with false
    by (pose proof (wp_part _ _ _ _ _ _ Hp); lia).
  replace ((zlength buf =? 0) || (1 =? 0)) with false by lia. cbn [Z.ltb Z.compare Pos.compare Pos.compare_cont andb].
  assert (tape_device_lock true (device v) = 0) as ->
    by (unfold tape_device_lock; by rewrite (wp_fence _ _ _ _ _ _ Hp)).
  change (0 <? 0) with false. cbn beta iota.
  destruct (write_data_locked_ok write_index ck part buf v m) as (res & v1 & -> & Hpost); try apply Hp.
  destruct res as [r|start]; eexists _, _; (split; [done|]); [done|].
  destruct Hpost as (m' & m1 & Hs & Hsame & Hdev & -> & Hwf & Happ & Hap). exists m'. by split_and!.
Qed.

(** The state after a write of [buf] at [offset]. *)
Record wrote v m d v' m' d' (buf : list Z) (offset part : Z) : Prop := {
  wr_vol : volume_ok v' m';
  wr_file : extents_ok (blocksize v') (size d') (realsize d') (extentlist d');
  wr_size : size d' = Z.max (size d) (offset + zlength buf);
  wr_bytes o : file_byte v' (m_log m') (extentlist d') o =
    if (offset <=? o) && (o <? offset + zlength buf) then buf !! Z.to_nat (o - offset)
    else file_byte v (m_log m) (extentlist d) o;
  wr_protected : protected v' m' (extentlist d') (ltfs_part_id2num part v);
  wr_rest : same_rest v v';
  wr_dirty : dirty d' = true;
}.

Lemma fsraw_write_success al ck d buf offset part ut v m v1 m' start :
  write_pre v m d buf offset part -> copy_ok al = true -> split_ok al = true ->
  let num := ltfs_part_id2num part v in
  start = append_block v m num -> same_rest v v1 -> dev_ok (device v1) m' ->
  m_wf (m_move m num start) ->
  appended (m_move m num start) (TData <$> blocks_of (length buf) (blocksize v) buf) m' ->
  (append_pos (device v1)).[num] = m_block m' ->
  exists d' v', _ltfs_fsraw_add_extent_unlocked al (ts_end ck) d
      (written_extent part start (zlength buf) (u64 offset)) ut v1 = (0, d', v') /\
    wrote v m d v' m' d' buf offset part.
Proof.
  intros Hp Hc Hs num -> Hsame Hdev Hwf Happ Hap.
  pose proof (wp_vol _ _ _ _ _ _ Hp) as Hvol. pose proof (vo_bs _ _ Hvol) as Hbs.
  pose proof (wp_file _ _ _ _ _ _ Hp) as Hfile. pose proof (wp_protected _ _ _ _ _ _ Hp) as Hprot.
  pose proof (wp_offset _ _ _ _ _ _ Hp) as Hoff. pose proof (wp_end _ _ _ _ _ _ Hp) as Hend.
  pose proof (wp_room _ _ _ _ _ _ Hp) as Hroom. pose proof Hsame as (Hb1 & Hl1 & _).
  pose proof (zlength_nonneg buf). rewrite (u64_small offset) by lia.
  set (ext := written_extent part (append_block v m num) (zlength buf) offset).
  pose proof Hwf as (_ & Hst & _). cbn in Hst.
  assert (Hext : extent_ok (blocksize v1) ext).
  { unfold extent_ok, ext, extent_end, in_u32, written_extent.
    cbn [fileoffset bytecount byteoffset start_block]. rewrite Hb1, Z.add_0_l.
    assert (zlength buf / blocksize v <= zlength buf) by (apply Z.div_le_upper_bound; nia).
    fold num in Hroom. split_and!; lia. }
  destruct (add_extent_unlocked_ok al (ts_end ck) d ext ut v1) as
    (d' & v' & Hrun & Hdev' & Hsame' & Hok & Hsz & Hdirty & _ & Hloc); try done; try (by rewrite Hb1).
  exists d', v'. split; [done|].
  pose proof (same_rest_trans _ _ _ Hsame Hsame') as Hall. pose proof Hall as (Hb' & Hl' & _ & _ & Hlp & Hlb & _).
  set (nb := zlength (blocks_of (length buf) (blocksize v) buf)).
  assert (Hnb : 0 <= nb <= zlength buf)
    by (split; [apply zlength_nonneg|apply blocks_of_length; [lia|done]]).
  assert (Heod : m_eod m' num = append_block v m num + nb).
  { unfold m_eod. rewrite (appended_eod m num _ _ m' num Hwf Happ), Z.eqb_refl.
    unfold nb, zlength. by rewrite length_fmap. }
  assert (Hblk : m_block m' = append_block v m num + nb).
  { destruct Happ as (_ & -> & _). cbn. unfold nb, zlength. by rewrite length_fmap. }
  assert (Hab : append_block v' m' num = append_block v m num + nb).
  { unfold append_block at 1. rewrite Hdev', Hap, Heod, Hblk. case_bool; lia. }
  rewrite Hb1 in Hloc, Hok.
  assert (Hnew := new_byte_read v m m' part buf offset Hvol Hwf Happ).
  split; try done.
  - split; [by rewrite Hdev'| |by rewrite Hb'|].
    + apply (cache_ok_same v); [done|]. by apply (cache_kept v m m' (extentlist d) part buf).
    + intros p. rewrite (appended_eod m num _ _ m' p Hwf Happ). unfold zlength at 1. rewrite length_fmap.
      fold (zlength (blocks_of (length buf) (blocksize v) buf)). fold nb.
      destruct (p =? num); [fold num in Hroom; lia|apply Hvol].
  - by rewrite Hb'.
  - intros o. rewrite (file_byte_same v v') by done. unfold file_byte at 1. rewrite Hloc. unfold over.
    destruct ((offset <=? o) && (o <? offset + zlength buf)) eqn:Hin.
    + bsplit. destruct (Hnew o) as (b & k & Hel & Htb & _); [lia|]. fold num ext in Hel. by rewrite Hel.
    + rewrite extent_locate_out; [apply (old_byte_kept v m m' (extentlist d) _ _ part buf Hvol Hfile Hwf Hprot Happ)|].
      unfold ext, extent_end. cbn. lia.
  - fold num. split.
    + intros o p b k Hlk Hpn. rewrite Hab. rewrite Hb', Hloc in Hlk. rewrite (id2num_label v v') in Hpn by done.
      unfold over in Hlk. destruct (extent_locate (blocksize v) ext o) as [x|] eqn:Hx.
      * injection Hlk as ->. destruct (Hnew o) as (b' & k' & Hel & _ & Hlt).
        { unfold extent_locate, ext, extent_end in Hx. cbn in Hx.
          destruct ((offset <=? o) && _) eqn:Hin; [bsplit; lia|done]. }
        fold num ext in Hel. rewrite Hx in Hel. injection Hel as -> -> ->. fold num nb in Hlt. lia.
      * apply Z.lt_le_trans with (append_block v m num); [|lia]. by apply (proj1 Hprot o p b k).
    + rewrite (id2num_label v v'), Hlp, Hlb, Hab by done. intros Heq.
      apply Z.lt_le_trans with (append_block v m num); [|lia]. by apply Hprot.
Qed.

Lemma fsraw_write_cases fuel ck al d buf offset part ut v m :
  write_pre v m d buf offset part -> copy_ok al = true -> split_ok al = true ->
  let write := ltfs_fsraw_write write_index rv (Datatypes.S fuel) true ck al d buf offset part ut v in
  (exists d' v' m', write = Some (0, d', v') /\ wrote v m d v' m' d' buf offset part) \/
  (exists e v1, e < 0 /\
     _ltfs_fsraw_write_data_unlocked write_index true ck part buf 1 0 v = Some (inl e, v1) /\
     (NEED_REVAL e = false -> e <> - LTFS_DEVICE_FENCED -> exists v2, write = Some (e, d, v2))).
Proof.
  intros Hp Hc Hs. cbn zeta. unfold ltfs_fsraw_write. cbn [ltfs_fsraw_write_data].
  assert (ltfs_get_volume_lock v = Some (inr tt, v)) as ->
    by (unfold ltfs_get_volume_lock; by rewrite (wp_reval _ _ _ _ _ _ Hp)).
  destruct (write_data_unlocked_ok ck v m d buf offset part 0 Hp) as (res & v1 & Hrun & Hpost).
  rewrite Hrun. destruct res as [e|start].
  - right. exists e, v1. split_and!; [done..|]. intros Hnr Hnf. unfold on_write_error.
    replace (e =? - LTFS_DEVICE_FENCED) with false by (symmetry; by apply Z.eqb_neq). rewrite Hnr.
    destruct (IS_UNEXPECTED_MOVE e); by eexists.
  - left. destruct Hpost as (m' & Hst & Hsame & Hdev & Hwf & Happ & Hap).
    destruct (fsraw_write_success al ck d buf offset part ut v m v1 m' start) as (d' & v' & Hadd & Hwr); try done.
    exists d', v', m'. by rewrite Hadd.
Qed.
End ops.
