(* ===== verification/FsRawProps.v ===== *)
(** * Properties of the raw file operations

    Reading, writing, extending and truncating a file, for every backend that
    keeps the contract of [TapeLaws]; the witnesses run them on the file
    backend. *)

From S2P Require Import Prelude Bytes LtfsError Extents TapeOps FileDebug FileDebugLaws TapeLayer TapeProps Journal.
From S2P Require Import FsRaw FsRawRead FsRawWrite.

Section props.
Context {S : Type} `{TapeLaws S}.
Implicit Types v : ltfs_volume S.
Implicit Types d : dentry.

(** C2: a read returns the contents of the file.  On a volume at rest,
    [ltfs_fsraw_read] ends after at most one iteration per byte of the request;
    it returns min(count, size - offset) bytes (none past the end of file), and
    each is the byte of the tape that the extent list locates, or zero in a
    hole, whatever the block cache held before; the volume is at rest again
    and the tape unchanged.  The alternative is an error [e] of the drive,
    which is returned, or leads to the revalidation of the medium and a retry. *)
Theorem fsraw_read_returns_contents rv fuel ck fresh v m d count offset :
  volume_ok v m -> reval v = 0 -> fence (device v) = false ->
  extents_ok (blocksize v) (size d) (realsize d) (extentlist d) ->
  0 < count -> 0 <= offset -> offset + count < 2 ^ 63 ->
  let read f := ltfs_fsraw_read rv None f true ck fresh d count offset in
  (exists out v' m',
     read (Datatypes.S fuel) v = Some (zlength out, out, d <| access_time := ts_end ck |>, v') /\
     zlength out = read_length d count offset /\
     bytes_are (file_byte v (m_log m) (extentlist d)) offset out /\
     volume_ok v' m' /\ m_log m' = m_log m) \/
  (exists e v1, e < 0 /\
     read (Datatypes.S fuel) v =
       if NEED_REVAL e then
         let '(ret, v2) := rv (after_error e v1) in
         if ret =? 0 then read fuel v2 else Some (ret, [], d, v2)
       else Some (e, [], d, after_error e v1)).
Proof. intros. by apply fsraw_read_cases. Qed.

(** C3: a write changes exactly the bytes written.  If the other partition
    already ends in an index, [ltfs_fsraw_write] appends the buffer to the
    partition and afterwards the file has the bytes of the buffer at [offset]
    and its old bytes everywhere else (zeros in a hole), its size is the
    larger of the old size and the end of the write, its extents are sorted,
    disjoint and accounted for, and everything it refers to lies before the
    new append position.  The alternative is a negative result of the data
    write, which is returned with the file untouched unless it calls for
    revalidation. *)
Theorem fsraw_write_changes_bytes write_index rv fuel ck al d buf offset part ut v m :
  write_pre v m d buf offset part -> copy_ok al = true -> split_ok al = true ->
  let write := ltfs_fsraw_write write_index rv (Datatypes.S fuel) true ck al d buf offset part ut v in
  (exists d' v' m', write = Some (0, d', v') /\ wrote v m d v' m' d' buf offset part) \/
  (exists e v1, e < 0 /\
     _ltfs_fsraw_write_data_unlocked write_index true ck part buf 1 0 v = Some (inl e, v1) /\
     (NEED_REVAL e = false -> e <> - LTFS_DEVICE_FENCED -> exists v2, write = Some (e, d, v2))).
Proof. intros. by apply fsraw_write_cases. Qed.

(** C1: what was written is read back.  After a successful [ltfs_fsraw_write]
    every later [ltfs_fsraw_read] of the file, at any offset and for any count,
    either fails in the drive or returns, up to the new end of file, the bytes
    of the buffer where it was written and the old contents around it. *)
Theorem fsraw_write_then_read write_index rv fuel ck al d buf offset part ut v m :
  write_pre v m d buf offset part -> copy_ok al = true -> split_ok al = true ->
  (exists d' v', ltfs_fsraw_write write_index rv (Datatypes.S fuel) true ck al d buf offset part ut v
                   = Some (0, d', v') /\
     forall fuel' ck' fresh count off,
       fence (device v') = false -> 0 < count -> 0 <= off -> off + count < 2 ^ 63 ->
       let res := ltfs_fsraw_read rv None (Datatypes.S fuel') true ck' fresh d' count off v' in
       (exists out v'', res = Some (zlength out, out, d' <| access_time := ts_end ck' |>, v'') /\
          zlength out = Z.max 0 (Z.min count (Z.max (size d) (offset + zlength buf) - off)) /\
          bytes_are (patched (file_byte v (m_log m) (extentlist d)) buf offset) off out) \/
       (exists e v1, e < 0 /\ read_locked None ck' fresh d' count off v' = Some (inl e, v1))) \/
  (exists e v1, e < 0 /\
     _ltfs_fsraw_write_data_unlocked write_index true ck part buf 1 0 v = Some (inl e, v1)).
Proof.
  intros Hp Hc Hs.
  destruct (fsraw_write_cases write_index rv fuel ck al d buf offset part ut v m Hp Hc Hs)
    as [(d' & v' & m' & Hrun & [Hvol Hfile Hsz Hby _ Hrest _])|(e & v1 & He & Hrun & _)]; [left|right; eauto].
  exists d', v'. split; [done|]. intros fuel' ck' fresh count off Hfe Hct Hoff Hmax.
  assert (Hrv : reval v' = 0) by (rewrite <- (wp_reval _ _ _ _ _ _ Hp); apply Hrest).
  destruct (read_locked_ok ck' fresh v' m' d' count off Hvol Hfile Hct Hoff Hmax)
    as (res & v2 & Hres & Hpost).
  destruct res as [e|st]; [right; eauto|left].
  destruct Hpost as (_ & _ & _ & _ & _ & Hlen & Hbytes).
  exists (r_buf st), v2. split; [|split].
  - cbn [ltfs_fsraw_read]. replace (count =? 0) with false by lia.
    assert (ltfs_get_volume_lock v' = Some (inr tt, v')) as ->
      by (unfold ltfs_get_volume_lock; by rewrite Hrv).
    assert (tape_device_lock true (device v') = 0) as -> by (unfold tape_device_lock; by rewrite Hfe).
    replace (0 =? - LTFS_DEVICE_FENCED) with false by done. cbn [Z.ltb Z.compare]. by rewrite Hres.
  - rewrite Hlen. unfold read_length. by rewrite Hsz.
  - intros i Hi. rewrite Hbytes by done. rewrite Hby. done.
Qed.

(** C25: adding an extent is all or nothing.  [ltfs_fsraw_add_extent] either
    succeeds, and then every byte in the range of the extent is located by the
    extent, every other byte is located as before, the list stays sorted and
    disjoint, [size] and [realsize] are right and the file is marked dirty; or
    it fails and the file and the volume are unchanged. *)
Theorem fsraw_add_extent_atomic al now d ext ut v r d' v' :
  0 < blocksize v <= 2 ^ 32 ->
  extents_ok (blocksize v) (size d) (realsize d) (extentlist d) -> extent_ok (blocksize v) ext ->
  ltfs_fsraw_add_extent al now d ext ut v = Some (r, d', v') ->
  (r < 0 /\ d' = d /\ v' = v) \/
  (r = 0 /\ extents_ok (blocksize v) (size d') (realsize d') (extentlist d') /\
   size d' = Z.max (size d) (extent_end ext) /\ dirty d' = true /\
   forall o, locate (blocksize v) (extentlist d') o =
     if (fileoffset ext <=? o) && (o <? extent_end ext) then extent_locate (blocksize v) ext o
     else locate (blocksize v) (extentlist d) o).
Proof.
  intros Hbs Hok Hext. unfold ltfs_fsraw_add_extent.
  assert (Hspace : forall x, not_about_space x = true -> x < 0).
  { unfold not_about_space. intros x Hx. lia. }
  destruct (not_about_space _) eqn:Hip; [intros [= <- <- <-]; left; auto|].
  destruct (not_about_space (ltfs_get_partition_readonly (partid_dp v) v)) eqn:Hdp;
    [intros [= <- <- <-]; left; auto|].
  unfold ltfs_get_volume_lock. destruct (reval v =? _); [done|].
  destruct (reval v <? 0) eqn:Hrv; [intros [= <- <- <-]; bsplit; by left|].
  intros [= Hrun]. destruct (Z.eqb_spec r 0) as [->|Hne].
  - right. split; [done|].
    apply add_extent_unlocked_allocs in Hrun.
    destruct (add_extent_unlocked_ok (mk_allocs true true (key_ok al) (ent_ok al) (fullpath al))
      now d ext ut v Hbs eq_refl eq_refl Hok Hext) as (d1 & v1 & Hrun1 & _ & _ & Hok1 & Hsz1 & Hdir1 & _ & Hloc1).
    rewrite Hrun in Hrun1. injection Hrun1 as <- <-. split_and!; try done.
    intros o. rewrite Hloc1. unfold over. unfold extent_locate at 1.
    destruct ((fileoffset ext <=? o) && _) eqn:Hin; [|done]. unfold extent_locate. by rewrite Hin.
  - left. destruct (add_extent_unlocked_fails _ _ _ _ _ _ _ _ _ Hbs Hok Hext Hrun Hne) as (-> & -> & ->).
    done.
Qed.

(** C26: truncation forgets exactly the bytes past the new length.  After
    [ltfs_fsraw_truncate] the size is the new length, every byte below it is
    located as before (a file that grows gets a hole), nothing at or past it
    is, the list stays sorted and disjoint and [realsize] is the number of bytes
    the extents hold. *)
Theorem fsraw_truncate_contents al now d length v r d' v' :
  0 < blocksize v <= 2 ^ 32 ->
  extents_ok (blocksize v) (size d) (realsize d) (extentlist d) -> 0 <= length < 2 ^ 63 ->
  ltfs_fsraw_truncate al now d length v = Some (r, d', v') ->
  (r < 0 /\ d' = d /\ v' = v) \/
  (r = 0 /\ size d' = length /\ dirty d' = true /\ realsize d' = total_bytes (extentlist d') /\
   extents_ok (blocksize v) (size d') (realsize d') (extentlist d') /\
   forall o, locate (blocksize v) (extentlist d') o =
     if o <? length then locate (blocksize v) (extentlist d) o else None).
Proof.
  intros Hbs Hok Hlen. unfold ltfs_fsraw_truncate, ltfs_get_volume_lock.
  destruct (reval v =? _); [done|].
  destruct (reval v <? 0) eqn:Hrv; [intros [= <- <- <-]; bsplit; by left|].
  rewrite u64_small by lia.
  destruct (truncate_list_ok _ Hbs length _ _ _ Hok Hlen) as (l' & rs' & -> & Hok' & Hloc).
  destruct (set_dentry_dirty al _ v) as [d2 v2] eqn:Hd. intros [= <- <- <-]. right.
  apply set_dentry_dirty_frame in Hd as (-> & _ & _). cbn. split_and!; try done. apply Hok'.
Qed.
End props.

(** ** Witnesses: an empty file on a blank tape with four-byte blocks *)

Definition small_volume : ltfs_volume filedebug_data := {|
  device := blank_device;
  blocksize := 4;
  part_num2id := (0x61, 0x62);
  partid_ip := 0x61;
  partid_dp := 0x62;
  last_pos_partition := 0;
  last_pos_block := 0;
  last_size := 0;
  last_block := None;
  ip_index_file_end := true;
  dp_index_file_end := true;
  selfptr_partition := 0x62;
  first_locate := mk_time 0 0;
  reval := 0;
  idx_dirty := false; inc_dirty := false; atime_dirty := false; use_atime := false;
  version := 20400; write_version := 20400;
  vol_journal := mk_jvolume [] [] false;
|}.

Definition empty_file : dentry :=
  mk_dentry (mk_jdentry 7 [0x66] false) true [] 0 0 false false epoch epoch epoch.

Definition two_times : clock := mk_clock epoch (mk_time 1002 0).
Definition all_allocs : allocs := mk_allocs true true true true (Some [0x2F; 0x66]).
Definition no_index (part : Z) (v : ltfs_volume filedebug_data) := (0, v).
Definition no_reval (v : ltfs_volume filedebug_data) := (- LTFS_REVAL_FAILED, v).

Lemma small_volume_ok : volume_ok small_volume blank_medium.
Proof.
  split; [apply blank_device_ok| |vm_compute; split; congruence|].
  - intros Hn. by destruct Hn.
  - intros p. by vm_compute.
Qed.

Lemma small_write_pre : write_pre small_volume blank_medium empty_file [1; 2; 3; 4; 5; 6] 3 0x62.
Proof.
  split.
  - apply small_volume_ok.
  - reflexivity.
  - reflexivity.
  - split; [vm_compute; congruence|split; reflexivity].
  - left. reflexivity.
  - vm_compute. congruence.
  - reflexivity.
  - vm_compute. congruence.
  - split; [intros o p b k Hl; discriminate Hl|]. intros Hn. discriminate Hn.
  - discriminate.
  - vm_compute. congruence.
  - reflexivity.
  - reflexivity.
Qed.

(** The volume and the file after the write. *)
Definition small_written : option (Z * dentry * ltfs_volume filedebug_data) :=
  ltfs_fsraw_write no_index no_reval 1 true two_times all_allocs empty_file [1; 2; 3; 4; 5; 6] 3 0x62
    true small_volume.

Lemma fsraw_write_changes_bytes_witness :
  exists d' v' m', small_written = Some (0, d', v') /\
    wrote small_volume blank_medium empty_file v' m' d' [1; 2; 3; 4; 5; 6] 3 0x62.
Proof.
  destruct (fsraw_write_changes_bytes no_index no_reval 0 two_times all_allocs empty_file
    [1; 2; 3; 4; 5; 6] 3 0x62 true small_volume blank_medium small_write_pre eq_refl eq_refl)
    as [Hok|(e & v1 & He & Hrun & _)]; [exact Hok|].
  exfalso. vm_compute in Hrun. discriminate Hrun.
Defined.

(** Reading ten bytes from offset 1 of the file just written: the hole before
    the write, the two blocks, and a short count at the end of file. *)
Lemma fsraw_write_then_read_witness :
  exists d' v' out v'', small_written = Some (0, d', v') /\
    ltfs_fsraw_read no_reval None 1 true two_times (Some (zeros 4)) d' 10 1 v' =
      Some (zlength out, out, d' <| access_time := mk_time 1002 0 |>, v'') /\
    zlength out = 8 /\
    bytes_are (patched (file_byte small_volume (m_log blank_medium) []) [1; 2; 3; 4; 5; 6] 3) 1 out.
Proof.
  destruct (fsraw_write_then_read no_index no_reval 0 two_times all_allocs empty_file
    [1; 2; 3; 4; 5; 6] 3 0x62 true small_volume blank_medium small_write_pre eq_refl eq_refl)
    as [(d' & v' & Hw & Hread)|(e & v1 & He & Hrun)].
  - pose proof Hw as Hw'. vm_compute in Hw'. injection Hw' as Hd Hv.
    destruct (Hread 0%nat two_times (Some (zeros 4)) 10 1) as [(out & v'' & Hr & Hl & Hb)|(e & v1 & _ & Hr)];
      [rewrite <- Hv; reflexivity|reflexivity|discriminate|reflexivity|..].
    + exists d', v', out, v''. split; [exact Hw|]. split; [exact Hr|]. split; [exact Hl|exact Hb].
    + exfalso. rewrite <- Hd, <- Hv in Hr. vm_compute in Hr. discriminate Hr.
  - exfalso. vm_compute in Hrun. discriminate Hrun.
Defined.

Lemma fsraw_read_returns_contents_witness :
  exists out v', ltfs_fsraw_read no_reval None 1 true two_times (Some (zeros 4))
      (empty_file <| size := 5 |>) 10 2 small_volume =
      Some (zlength out, out, (empty_file <| size := 5 |>) <| access_time := mk_time 1002 0 |>, v') /\
    zlength out = 3 /\
    bytes_are (file_byte small_volume (m_log blank_medium) []) 2 out.
Proof.
  destruct (fsraw_read_returns_contents no_reval 0 two_times (Some (zeros 4)) small_volume blank_medium
    (empty_file <| size := 5 |>) 10 2) as [(out & v' & m' & Hr & Hl & Hb & _)|(e & v1 & He & Hr)].
  - apply small_volume_ok.
  - reflexivity.
  - reflexivity.
  - split; [vm_compute; congruence|split; reflexivity].
  - reflexivity.
  - discriminate.
  - reflexivity.
  - exists out, v'. split; [exact Hr|]. split; [exact Hl|exact Hb].
  - exfalso.
    assert (Hc : option_map (fun x => x.1.1.1) (ltfs_fsraw_read no_reval None 1 true two_times
      (Some (zeros 4)) (empty_file <| size := 5 |>) 10 2 small_volume) = Some 3) by reflexivity.
    rewrite Hr in Hc. destruct (NEED_REVAL e); [discriminate Hc|].
    injection Hc as Hz. rewrite Hz in He. discriminate He.
Defined.

(** An extent that splits the one of the file. *)
Definition one_extent : dentry :=
  empty_file <| extentlist := [mk_extent 5 0x62 0 10 0] |> <| size := 10 |> <| realsize := 10 |>.

Lemma one_extent_ok : extents_ok 4 (size one_extent) (realsize one_extent) (extentlist one_extent).
Proof. split; [|split; reflexivity]. vm_compute. intuition congruence. Qed.

Lemma fsraw_add_extent_atomic_witness :
  let res := ltfs_fsraw_add_extent all_allocs epoch one_extent (mk_extent 8 0x62 0 3 4) true small_volume in
  exists d' v', res = Some (0, d', v') /\
    locate 4 (extentlist d') 5 = Some (0x62, 8, 1) /\ locate 4 (extentlist d') 9 = Some (0x62, 7, 1).
Proof.
  cbv zeta.
  destruct (ltfs_fsraw_add_extent all_allocs epoch one_extent (mk_extent 8 0x62 0 3 4) true small_volume)
    as [[[r d'] v']|] eqn:Hrun; [|vm_compute in Hrun; discriminate Hrun].
  destruct (fsraw_add_extent_atomic all_allocs epoch one_extent (mk_extent 8 0x62 0 3 4) true small_volume
    r d' v') as [(Hr & _)|(-> & _ & _ & _ & Hloc)].
  - vm_compute. split; congruence.
  - apply one_extent_ok.
  - vm_compute. intuition congruence.
  - exact Hrun.
  - exfalso. vm_compute in Hrun. injection Hrun as Hz _ _. rewrite <- Hz in Hr. discriminate Hr.
  - exists d', v'. split; [done|]. split; rewrite (Hloc _); reflexivity.
Defined.

Lemma fsraw_truncate_contents_witness :
  exists d' v', ltfs_fsraw_truncate all_allocs epoch one_extent 6 small_volume = Some (0, d', v') /\
    locate 4 (extentlist d') 5 = Some (0x62, 6, 1) /\ locate 4 (extentlist d') 6 = None.
Proof.
  destruct (ltfs_fsraw_truncate all_allocs epoch one_extent 6 small_volume)
    as [[[r d'] v']|] eqn:Hrun; [|vm_compute in Hrun; discriminate Hrun].
  destruct (fsraw_truncate_contents all_allocs epoch one_extent 6 small_volume r d' v')
    as [(Hr & _)|(-> & _ & _ & _ & _ & Hloc)].
  - vm_compute. split; congruence.
  - apply one_extent_ok.
  - split; [lia|reflexivity].
  - exact Hrun.
  - exfalso. vm_compute in Hrun. injection Hrun as Hz _ _. rewrite <- Hz in Hr. discriminate Hr.
  - exists d', v'. split; [done|]. split; rewrite (Hloc _); reflexivity.
Defined.
