(* ===== verification/CrcTheory.v ===== *)
(** * Check registers

    A check register of four bytes takes the bytes of a message one at a time.
    Both codes of the drivers have the same shape: the byte is added (exclusive
    or) at one end of the register, which then advances by a linear bijection.
    The class [CheckRegister] states that shape; the properties of
    codewords are proved from it once, and CrcProps.v gives the two
    instances. *)

From S2P Require Import Prelude.

Notation "x ⊕ y" := (Z.lxor x y) (at level 50, left associativity) : Z_scope.

Definition is_byte (b : Z) : Prop := 0 <= b < 256.

Lemma xor_swap a b c d : a ⊕ b ⊕ (c ⊕ d) = a ⊕ c ⊕ (b ⊕ d).
Proof.
  rewrite !Z.lxor_assoc. f_equal. rewrite <- !Z.lxor_assoc. f_equal. apply Z.lxor_comm.
Qed.

Lemma xor_cancel_l a b c : a ⊕ b = a ⊕ c -> b = c.
Proof.
  intros H. apply (f_equal (Z.lxor a)) in H.
  by rewrite <- !Z.lxor_assoc, !Z.lxor_nilpotent, !Z.lxor_0_l in H.
Qed.

(** ** Linear maps *)

Definition linear (f : Z -> Z) : Prop := forall x y, f (x ⊕ y) = f x ⊕ f y.

Lemma linear_0 f : linear f -> f 0 = 0.
Proof. intros Hf. rewrite <- (Z.lxor_nilpotent 0) at 1. rewrite Hf. apply Z.lxor_nilpotent. Qed.

Lemma linear_comp f g : linear f -> linear g -> linear (fun x => f (g x)).
Proof. intros Hf Hg x y. by rewrite Hg, Hf. Qed.

Lemma linear_xor f g : linear f -> linear g -> linear (fun x => f x ⊕ g x).
Proof. intros Hf Hg x y. rewrite Hf, Hg. apply xor_swap. Qed.

Lemma linear_iter f n : linear f -> linear (Nat.iter n f).
Proof.
  intros Hf. induction n as [|n IH]; intros x y; [done|].
  change (f (Nat.iter n f (x ⊕ y)) = f (Nat.iter n f x) ⊕ f (Nat.iter n f y)).
  by rewrite IH, Hf.
Qed.

Lemma linear_id : linear (fun x => x).
Proof. by intros x y. Qed.

Lemma linear_shiftr n : linear (fun x => Z.shiftr x n).
Proof. intros x y. apply Z.shiftr_lxor. Qed.

Lemma linear_shiftl n : linear (fun x => Z.shiftl x n).
Proof. intros x y. apply Z.shiftl_lxor. Qed.

Lemma linear_land m : linear (fun x => Z.land x m).
Proof.
  intros x y. apply Z.bits_inj'. intros n Hn.
  rewrite ?Z.land_spec, ?Z.lxor_spec, ?Z.land_spec.
  by destruct (Z.testbit x n), (Z.testbit y n), (Z.testbit m n).
Qed.

Lemma linear_mod k : 0 <= k -> linear (fun x => x mod 2 ^ k).
Proof. intros Hk x y. rewrite <- !Z.land_ones by done. apply linear_land. Qed.

Lemma xor_pow2 m x y : 0 <= m -> 0 <= x < 2 ^ m -> 0 <= y < 2 ^ m -> 0 <= x ⊕ y < 2 ^ m.
Proof.
  intros Hm Hx Hy. assert (x ⊕ y = (x ⊕ y) mod 2 ^ m) as ->.
  { rewrite (linear_mod m) by lia. by rewrite !Z.mod_small. }
  apply Z.mod_pos_bound. lia.
Qed.

Lemma xor_u32 x y : in_u32 x -> in_u32 y -> in_u32 (x ⊕ y).
Proof. apply (xor_pow2 32). lia. Qed.

Lemma xor_byte x y : is_byte x -> is_byte y -> is_byte (x ⊕ y).
Proof. apply (xor_pow2 8). lia. Qed.

(** Joining disjoint bit fields. *)
Lemma lor_shiftl k x y : 0 <= k -> 0 <= x < 2 ^ k -> Z.lor x (Z.shiftl y k) = x ⊕ Z.shiftl y k.
Proof.
  intros Hk Hx. apply Z.bits_inj'. intros n Hn. rewrite Z.lor_spec, Z.lxor_spec.
  destruct (decide (n < k)).
  - rewrite (Z.shiftl_spec_low y k n) by lia. by destruct (Z.testbit x n).
  - rewrite <- (Z.mod_small x (2 ^ k)), Z.mod_pow2_bits_high by lia.
    by destruct (Z.testbit (Z.shiftl y k) n).
Qed.

Lemma linear_const : linear (fun _ => 0).
Proof. by intros x y. Qed.

(** A value selected by one bit of the argument. *)
Definition if_bit (i v x : Z) : Z := if Z.testbit x i then v else 0.

Lemma linear_if_bit i v : linear (if_bit i v).
Proof.
  intros x y. unfold if_bit. rewrite Z.lxor_spec.
  destruct (Z.testbit x i), (Z.testbit y i); cbn;
    by rewrite ?Z.lxor_nilpotent, ?Z.lxor_0_l, ?Z.lxor_0_r.
Qed.

Create HintDb linear.
#[export] Hint Resolve linear_comp linear_xor linear_iter linear_id linear_shiftr
  linear_shiftl linear_land linear_const linear_if_bit : linear.

Lemma split_top_bit w x : 0 <= w -> 0 <= x < 2 ^ (w + 1) ->
  x = if_bit w (2 ^ w) x ⊕ (x mod 2 ^ w).
Proof.
  intros Hw Hx. apply Z.bits_inj'. intros n Hn. rewrite Z.lxor_spec.
  unfold if_bit.
  destruct (Z.lt_trichotomy n w) as [Hlt|[->|Hgt]].
  - rewrite Z.mod_pow2_bits_low by lia.
    destruct (Z.testbit x w); rewrite ?Z.pow2_bits_false, ?Z.bits_0 by lia; by destruct (Z.testbit x n).
  - rewrite Z.mod_pow2_bits_high, xorb_false_r by lia.
    destruct (Z.testbit x w); by rewrite ?Z.pow2_bits_true, ?Z.bits_0 by lia.
  - rewrite Z.mod_pow2_bits_high, xorb_false_r by lia.
    rewrite (Z.bits_above_log2 x n).
    + destruct (Z.testbit x w); by rewrite ?Z.pow2_bits_false, ?Z.bits_0 by lia.
    + lia.
    + destruct (decide (x = 0)) as [->|]; [cbn; lia|].
      apply Z.lt_le_trans with (w + 1); [apply Z.log2_lt_pow2; lia|lia].
Qed.

(** Two linear maps that agree on the powers of two agree: checking an identity
    between linear maps is a computation. *)
Definition same_on_basis (w : nat) (f g : Z -> Z) : bool :=
  forallb (fun i => f (2 ^ Z.of_nat i) =? g (2 ^ Z.of_nat i)) (seq 0 w).

Lemma linear_ext w f g : linear f -> linear g -> same_on_basis w f g = true ->
  forall x, 0 <= x < 2 ^ Z.of_nat w -> f x = g x.
Proof.
  intros Hf Hg. induction w as [|w IH]; intros Hb x Hx.
  - assert (x = 0) as -> by (cbn in Hx; lia). by rewrite !linear_0.
  - unfold same_on_basis in *. rewrite seq_S, forallb_app in Hb.
    apply andb_prop in Hb as [Hb Hw]. cbn in Hw. rewrite andb_true_r in Hw.
    apply Z.eqb_eq in Hw. rewrite (split_top_bit (Z.of_nat w) x) by lia.
    rewrite Hf, Hg. f_equal.
    + unfold if_bit. destruct (Z.testbit x (Z.of_nat w)); [done|by rewrite !linear_0].
    + apply IH; [done|]. apply Z.mod_pos_bound. lia.
Qed.

(** ** Registers and codewords *)

Class CheckRegister := {
  step : Z -> Z -> Z;            (** feed a byte to the register *)
  advance : Z -> Z;
  unadvance : Z -> Z;
  place : nat -> Z -> Z;         (** where the [k]-th byte of four enters *)
  pick : nat -> Z -> Z;          (** and how it is read back *)
  accept_mask : Z                       (** a block is accepted when the register and
                                     its check bytes differ by this *)
}.

Class CheckRegisterLaws {R : CheckRegister} : Prop := {
  step_advance b r : is_byte b -> in_u32 r -> step b r = advance (r ⊕ place 0 b);
  advance_linear : linear advance;
  pick_linear k : linear (pick k);
  advance_u32 r : in_u32 r -> in_u32 (advance r);
  unadvance_advance r : in_u32 r -> unadvance (advance r) = r;
  place_u32 k b : (k < 4)%nat -> is_byte b -> in_u32 (place k b);
  advance_place k b : (k < 3)%nat -> is_byte b -> advance (place (S k) b) = place k b;
  pick_place k j b : (k < 4)%nat -> (j < 4)%nat -> is_byte b ->
    pick k (place j b) = if decide (k = j) then b else 0;
  pick_byte k x : is_byte (pick k x);
  place_pick x : in_u32 x ->
    place 0 (pick 0 x) ⊕ (place 1 (pick 1 x) ⊕ (place 2 (pick 2 x) ⊕ (place 3 (pick 3 x) ⊕ 0))) = x;
  accept_mask_u32 : in_u32 accept_mask
}.

Section Register.
Context {R : CheckRegister} {HR : CheckRegisterLaws}.

Definition run (r : Z) (w : list Z) : Z := fold_left (fun r b => step b r) w r.

(** The word a list of at most [4 - k] bytes makes from position [k] on. *)
Fixpoint word (k : nat) (w : list Z) : Z :=
  match w with
  | [] => 0
  | b :: w' => place k b ⊕ word (S k) w'
  end.

Lemma word_u32 w : forall k, (k + length w <= 4)%nat -> Forall is_byte w -> in_u32 (word k w).
Proof.
  induction w as [|b w IH]; intros k Hk Hw; cbn [word length] in *.
  - unfold in_u32. lia.
  - inversion Hw; subst. apply xor_u32; [apply place_u32; [lia|done]|apply IH; [lia|done]].
Qed.

Lemma advance_word w : forall k, (k + length w <= 3)%nat -> Forall is_byte w ->
  advance (word (S k) w) = word k w.
Proof.
  induction w as [|b w IH]; intros k Hk Hw; cbn [word length] in *.
  - apply linear_0, advance_linear.
  - inversion Hw; subst. rewrite advance_linear, advance_place by (done || lia).
    by rewrite IH by (done || lia).
Qed.

Lemma iter_advance_u32 n r : in_u32 r -> in_u32 (Nat.iter n advance r).
Proof. intros Hr. induction n as [|n IH]; [done|]. cbn. by apply advance_u32. Qed.

Lemma iter_advance_inj n r r' : in_u32 r -> in_u32 r' ->
  Nat.iter n advance r = Nat.iter n advance r' -> r = r'.
Proof.
  intros Hr Hr'. induction n as [|n IH]; intros H; [done|]. apply IH.
  apply (f_equal unadvance) in H.
  change (unadvance (advance (Nat.iter n advance r)) = unadvance (advance (Nat.iter n advance r'))) in H.
  by rewrite !unadvance_advance in H by (by apply iter_advance_u32).
Qed.

Lemma run_u32 w r : Forall is_byte w -> in_u32 r -> in_u32 (run r w).
Proof.
  revert r. induction w as [|b w IH]; intros r Hw Hr; [done|].
  inversion Hw; subst. apply IH; [done|]. rewrite step_advance by done.
  apply advance_u32, xor_u32; [done|]. apply place_u32; [lia|done].
Qed.

Lemma run_app r w w' : run r (w ++ w') = run (run r w) w'.
Proof. apply fold_left_app. Qed.

(** Up to four bytes act on the register as one word. *)
Lemma run_word w r : (length w <= 4)%nat -> Forall is_byte w -> in_u32 r ->
  run r w = Nat.iter (length w) advance (r ⊕ word 0 w).
Proof.
  revert r. induction w as [|b w IH]; intros r Hl Hw Hr; cbn [length word] in *.
  { cbn. by rewrite Z.lxor_0_r. }
  inversion Hw as [|?? Hb Hw']; subst.
  assert (in_u32 (r ⊕ place 0 b)) as Hin by (apply xor_u32; [done|apply place_u32; [lia|done]]).
  change (run (step b r) w = Nat.iter (S (length w)) advance (r ⊕ (place 0 b ⊕ word 1 w))).
  rewrite step_advance, IH by (done || lia || by apply advance_u32).
  rewrite <- (advance_word w 0) by (done || lia).
  rewrite <- advance_linear, Z.lxor_assoc.
  symmetry. apply Nat.iter_succ_r.
Qed.

Lemma run_inj_reg w r r' : Forall is_byte w -> in_u32 r -> in_u32 r' ->
  run r w = run r' w -> r = r'.
Proof.
  revert r r'. induction w as [|b w IH]; intros r r' Hw Hr Hr' H; [done|].
  inversion Hw as [|?? Hb Hw']; subst.
  assert (forall q, in_u32 q -> in_u32 (q ⊕ place 0 b)) as Hin.
  { intros q Hq. apply xor_u32; [done|]. apply place_u32; [lia|done]. }
  apply IH in H; [|done|rewrite step_advance by done; apply advance_u32; auto..].
  rewrite !step_advance in H by done. apply (iter_advance_inj 1) in H; auto.
  rewrite (Z.lxor_comm r), (Z.lxor_comm r') in H. by apply xor_cancel_l in H.
Qed.

Lemma pick_word w : forall j k, (j + length w <= 4)%nat -> Forall is_byte w -> (k < 4)%nat ->
  pick k (word j w) = if decide (j <= k)%nat then default 0 (w !! (k - j)%nat) else 0.
Proof.
  induction w as [|b w IH]; intros j k Hj Hw Hk; cbn [word length] in *.
  { rewrite linear_0 by apply pick_linear. by case_decide. }
  inversion Hw; subst. rewrite pick_linear, IH, pick_place by (done || lia).
  destruct (decide (k = j)) as [->|]; [|destruct (decide (j <= k)%nat)].
  - rewrite decide_False by lia. rewrite decide_True by lia.
    rewrite Nat.sub_diag. apply Z.lxor_0_r.
  - rewrite decide_True by lia. replace (k - j)%nat with (S (k - S j)) by lia. done.
  - by rewrite decide_False by lia.
Qed.

Lemma word_inj w w' : length w = length w' -> (length w <= 4)%nat ->
  Forall is_byte w -> Forall is_byte w' -> word 0 w = word 0 w' -> w = w'.
Proof.
  intros Hl H4 Hw Hw' H. apply list_eq_same_length with (length w); [done|done|].
  intros k x y Hk Hx Hy.
  assert (pick k (word 0 w) = pick k (word 0 w')) as Hp by by rewrite H.
  rewrite !pick_word in Hp by (done || lia).
  by rewrite !decide_True, Nat.sub_0_r, Hx, Hy in Hp by lia.
Qed.

(** The four check bytes of a word. *)
Definition check_bytes (x : Z) : list Z := [pick 0 x; pick 1 x; pick 2 x; pick 3 x].

Lemma word_check_bytes x : in_u32 x -> word 0 (check_bytes x) = x.
Proof. apply place_pick. Qed.

Lemma check_bytes_are_bytes x : Forall is_byte (check_bytes x).
Proof. repeat constructor; apply pick_byte. Qed.

(** ** Codewords

    A block with data [d] and check bytes [c] is accepted when
    [word 0 c = run r0 d ⊕ accept_mask]. *)
Lemma accepted_residue r0 d c : Forall is_byte d -> Forall is_byte c ->
  length c = 4%nat -> in_u32 r0 ->
  (word 0 c = run r0 d ⊕ accept_mask <-> run r0 (d ++ c) = Nat.iter 4 advance accept_mask).
Proof.
  intros Hd Hc Hl Hr.
  assert (in_u32 (run r0 d)) by by apply run_u32.
  assert (in_u32 (word 0 c)) by (apply word_u32; [lia|done]).
  rewrite run_app, (run_word c), Hl by (done || lia).
  split; intros H'.
  - rewrite H'. by rewrite <- Z.lxor_assoc, Z.lxor_nilpotent, Z.lxor_0_l.
  - apply iter_advance_inj in H'; [|by apply xor_u32|apply accept_mask_u32].
    by rewrite <- H', <- Z.lxor_assoc, Z.lxor_nilpotent, Z.lxor_0_l.
Qed.

(** Two accepted blocks that agree outside a window of at most four bytes are
    the same block. *)
Lemma burst_unique r0 d c d' c' p w w' s :
  Forall is_byte (d ++ c) -> Forall is_byte (d' ++ c') ->
  length c = 4%nat -> length c' = 4%nat -> in_u32 r0 ->
  d ++ c = p ++ w ++ s -> d' ++ c' = p ++ w' ++ s ->
  length w = length w' -> (length w <= 4)%nat ->
  word 0 c = run r0 d ⊕ accept_mask -> word 0 c' = run r0 d' ⊕ accept_mask -> w = w'.
Proof.
  intros Hb Hb' Hc Hc' Hr E E' Hl H4 A A'.
  apply Forall_app in Hb as Hdc. apply Forall_app in Hb' as Hdc'.
  destruct Hdc, Hdc'.
  apply accepted_residue in A, A'; [|done..]. rewrite <- A', E, E' in A.
  rewrite E in Hb. rewrite E' in Hb'.
  apply Forall_app in Hb as [Hp Hws]. apply Forall_app in Hws as [Hw Hs].
  apply Forall_app in Hb' as [_ Hws']. apply Forall_app in Hws' as [Hw' _].
  assert (in_u32 (run r0 p)) by by apply run_u32.
  rewrite !run_app in A.
  apply run_inj_reg in A; [|done|by apply run_u32..].
  rewrite (run_word w), (run_word w'), Hl in A by (done || lia).
  apply iter_advance_inj in A; [|apply xor_u32; [done|apply word_u32; [lia|done]]..].
  apply xor_cancel_l in A. by apply word_inj.
Qed.
End Register.
