(* ===== verification/CrcProps.v ===== *)
(** * What the block protection codes guarantee

    The two instances of the register interface, the reference definitions of
    the codes (a bitwise shift register for CRC32C, arithmetic in GF(256) for
    the Reed-Solomon code) and the properties of the eight functions. *)

From S2P Require Import Prelude Crc CrcTheory.

(** ** Lookup tables *)

Definition table_is (t : list Z) (f : Z -> Z) : bool :=
  forallb (fun i => nth i t 0 =? f (Z.of_nat i)) (seq 0 256).

Lemma table_is_spec t f i : table_is t f = true -> is_byte i ->
  nth (Z.to_nat i) t 0 = f i.
Proof.
  intros H Hi. unfold table_is in H. rewrite forallb_forall in H.
  specialize (H (Z.to_nat i)). rewrite Z.eqb_eq, Z2Nat.id in H by (unfold is_byte in Hi; lia).
  apply H, in_seq. unfold is_byte in Hi. lia.
Qed.

Lemma shiftl_bound b k m : 0 <= b < 2 ^ m -> 0 <= k -> 0 <= m -> 0 <= Z.shiftl b k < 2 ^ (m + k).
Proof. intros. rewrite Z.shiftl_mul_pow2, Z.pow_add_r by lia. nia. Qed.

Lemma shiftr_bound b k m : 0 <= b < 2 ^ (m + k) -> 0 <= k -> 0 <= m -> 0 <= Z.shiftr b k < 2 ^ m.
Proof.
  intros. rewrite Z.pow_add_r in H by lia. rewrite Z.shiftr_div_pow2 by lia.
  split; [apply Z.div_pos; lia|apply Z.div_lt_upper_bound; lia].
Qed.

Lemma land_byte x : is_byte (Z.land x 0xff).
Proof. change 0xff with (Z.ones 8). rewrite Z.land_ones by lia. apply Z.mod_pos_bound. lia. Qed.

(** ** CRC32C: the reflected shift register with polynomial 0x11EDC6F41 *)

Definition crc32c_bit (r : Z) : Z := Z.shiftr r 1 ⊕ if_bit 0 0x82F63B78 r.

Definition crc32c_unbit (r : Z) : Z :=
  Z.shiftl (r ⊕ if_bit 31 0x82F63B78 r) 1 ⊕ if_bit 31 1 r.

Lemma crc32c_bit_linear : linear crc32c_bit.
Proof. apply linear_xor; auto with linear. Qed.

Lemma crc32c_unbit_linear : linear crc32c_unbit.
Proof.
  apply linear_xor; [|auto with linear].
  apply (linear_comp (fun x => Z.shiftl x 1)); [auto with linear|].
  apply linear_xor; auto with linear.
Qed.
#[export] Hint Resolve crc32c_bit_linear crc32c_unbit_linear : linear.

Lemma crc32c_bit_u32 r : in_u32 r -> in_u32 (crc32c_bit r).
Proof.
  intros Hr. apply xor_u32.
  - apply (shiftr_bound r 1 32); unfold in_u32 in Hr; lia.
  - unfold if_bit, in_u32. destruct (Z.testbit r 0); lia.
Qed.

Lemma crc32c_table_ok : table_is crc32c_table (Nat.iter 8 crc32c_bit) = true.
Proof. vm_compute. reflexivity. Qed.

Definition crc32c_register : CheckRegister := {|
  step := crc32c_calc;
  advance := Nat.iter 8 crc32c_bit;
  unadvance := Nat.iter 8 crc32c_unbit;
  place := fun k b => Z.shiftl b (8 * Z.of_nat k);
  pick := fun k x => Z.land (Z.shiftr x (8 * Z.of_nat k)) 0xff;
  accept_mask := 0xffffffff
|}.

Lemma crc32c_calc_bits b r : is_byte b -> in_u32 r ->
  crc32c_calc b r = Nat.iter 8 crc32c_bit (r ⊕ b).
Proof.
  intros Hb Hr. unfold crc32c_calc.
  rewrite (table_is_spec _ _ _ crc32c_table_ok) by (apply xor_byte; [done|apply land_byte]).
  rewrite !(linear_iter _ 8 crc32c_bit_linear).
  rewrite (Z.lxor_comm (Nat.iter 8 crc32c_bit b)), <- Z.lxor_assoc. f_equal.
  revert r Hr. apply (linear_ext 32); [|auto with linear|vm_compute; reflexivity].
  apply linear_xor; [auto with linear|].
  apply (linear_comp (Nat.iter 8 crc32c_bit)); auto with linear.
Qed.

Ltac below4 k := destruct k as [|[|[|[|k]]]]; [..|exfalso; lia].

Lemma crc_place_pick_linear k :
  linear (fun x => place (CheckRegister := crc32c_register) k (pick (CheckRegister := crc32c_register) k x)).
Proof.
  apply (linear_comp (fun y => Z.shiftl y _)); [auto with linear|].
  apply (linear_comp (fun y => Z.land y _)); auto with linear.
Qed.

#[export] Instance crc32c_register_laws : CheckRegisterLaws (R := crc32c_register).
Proof.
  split.
  - intros b r Hb Hr.
    change (crc32c_calc b r = Nat.iter 8 crc32c_bit (r ⊕ Z.shiftl b 0)).
    rewrite Z.shiftl_0_r. by apply crc32c_calc_bits.
  - apply linear_iter, crc32c_bit_linear.
  - intros k. apply (linear_comp (fun x => Z.land x 0xff)); auto with linear.
  - intros r Hr. change (in_u32 (Nat.iter 8 crc32c_bit r)).
    generalize 8%nat. intros n. induction n as [|n IH]; [done|]. by apply crc32c_bit_u32.
  - apply (linear_ext 32); [|auto with linear|vm_compute; reflexivity].
    apply (linear_comp (Nat.iter 8 crc32c_unbit)); apply linear_iter; auto with linear.
  - intros k b Hk Hb.
    pose proof (shiftl_bound b (8 * Z.of_nat k) 8 Hb ltac:(lia) ltac:(lia)) as H.
    unfold in_u32. cbn [place crc32c_register].
    assert (2 ^ (8 + 8 * Z.of_nat k) <= 2 ^ 32) by (apply Z.pow_le_mono_r; lia). lia.
  - intros k b Hk. revert b. unfold is_byte. change 256 with (2 ^ Z.of_nat 8).
    apply linear_ext; [|cbn; auto with linear|below4 k; vm_compute; reflexivity].
    apply (linear_comp (Nat.iter 8 crc32c_bit)); [apply linear_iter|]; auto with linear.
    apply linear_shiftl.
  - intros k j b Hk Hj. revert b. unfold is_byte. change 256 with (2 ^ Z.of_nat 8).
    apply linear_ext.
    + apply (linear_comp (pick k) (place j)); [|apply linear_shiftl].
      apply (linear_comp (fun x => Z.land x 0xff)); auto with linear.
    + case_decide; auto with linear.
    + below4 k; below4 j; vm_compute; reflexivity.
  - intros k x. apply land_byte.
  - apply (linear_ext 32); [|auto with linear|vm_compute; reflexivity].
    repeat (apply linear_xor); [apply crc_place_pick_linear..|auto with linear].
  - unfold in_u32. cbn. lia.
Qed.

Abbreviation crc_run := (run (R := crc32c_register)).
Abbreviation crc_word := (word (R := crc32c_register)).

(** *** The accelerated path *)

(** What the CRC32 instruction computes: one step of the shift register for
    each bit of its operand. *)
Class CpuLaws {cpu : Cpu} : Prop := {
  crc32_u8_spec r b : in_u32 r -> is_byte b ->
    mm_crc32_u8 r b = Nat.iter 8 crc32c_bit (r ⊕ b);
  crc32_u64_spec r q : in_u32 r -> 0 <= q < 2 ^ 64 ->
    mm_crc32_u64 r q = Nat.iter 64 crc32c_bit (r ⊕ q)
}.

Lemma crc32c_bit_shift v : crc32c_bit (Z.shiftl v 1) = v.
Proof.
  unfold crc32c_bit, if_bit. rewrite Z.shiftl_spec_low by lia.
  rewrite Z.lxor_0_r, Z.shiftr_shiftl_l by lia. apply Z.shiftl_0_r.
Qed.

Lemma iter_bit_shift k v : Nat.iter k crc32c_bit (Z.shiftl v (Z.of_nat k)) = v.
Proof.
  revert v. induction k as [|k IH]; intros v; [apply Z.shiftl_0_r|].
  replace (Z.of_nat (S k)) with (1 + Z.of_nat k) by lia.
  rewrite <- Z.shiftl_shiftl by lia.
  change (crc32c_bit (Nat.iter k crc32c_bit (Z.shiftl (Z.shiftl v 1) (Z.of_nat k))) = v).
  by rewrite IH, crc32c_bit_shift.
Qed.

Lemma le_value_xor b bs : is_byte b -> le_value (b :: bs) = b ⊕ Z.shiftl (le_value bs) 8.
Proof. intros Hb. cbn. apply lor_shiftl; [lia|apply Hb]. Qed.

Lemma le_value_bound bs : Forall is_byte bs -> 0 <= le_value bs < 2 ^ (8 * zlength bs).
Proof.
  induction 1 as [|b bs Hb Hbs IH]; [by cbn|].
  rewrite le_value_xor by done. pose proof (zlength_nonneg bs).
  rewrite zlength_cons. apply xor_pow2; [lia| |].
  - unfold is_byte in Hb. assert (2 ^ 8 <= 2 ^ (8 * (zlength bs + 1))) by (apply Z.pow_le_mono_r; lia). lia.
  - replace (8 * (zlength bs + 1)) with (8 * zlength bs + 8) by lia. apply shiftl_bound; lia.
Qed.

(** The register after any number of bytes, as one shift of their little-endian
    value. *)
Lemma crc_run_value bs r : Forall is_byte bs -> in_u32 r ->
  crc_run r bs = Nat.iter (8 * length bs) crc32c_bit (r ⊕ le_value bs).
Proof.
  intros Hbs. revert r. induction Hbs as [|b bs Hb Hbs IH]; intros r Hr.
  { cbn. by rewrite Z.lxor_0_r. }
  change (crc_run (crc32c_calc b r) bs = Nat.iter (8 * length (b :: bs)) crc32c_bit (r ⊕ le_value (b :: bs))).
  assert (in_u32 (crc32c_calc b r)).
  { apply (run_u32 (R := crc32c_register) [b]); [by constructor|done]. }
  rewrite IH, crc32c_calc_bits, le_value_xor by done.
  replace (8 * length (b :: bs))%nat with (8 * length bs + 8)%nat by (cbn; lia).
  rewrite Nat.iter_add. f_equal. rewrite <- Z.lxor_assoc.
  rewrite (linear_iter _ 8 crc32c_bit_linear (r ⊕ b)). f_equal.
  symmetry. apply (iter_bit_shift 8).
Qed.

Section Sse.
Context {cpu : Cpu} {Hcpu : CpuLaws}.

Lemma sse_head_run bs : forall addr r, Forall is_byte bs -> in_u32 r ->
  exists p, bs = p ++ (sse_head addr bs r).2 /\ (sse_head addr bs r).1 = crc_run r p.
Proof.
  induction bs as [|b bs IH]; intros addr r Hbs Hr; cbn [sse_head].
  { by exists []. }
  destruct (0 <? addr mod CALC_SIZE); [|by exists []].
  inversion Hbs; subst. rewrite crc32_u8_spec, <- crc32c_calc_bits by done.
  destruct (IH (addr + 1) (crc32c_calc b r)) as (p & E & Hp); [done| |].
  { apply (run_u32 (R := crc32c_register) [b]); [by constructor|done]. }
  exists (b :: p). split; [cbn; by rewrite <- E|done].
Qed.

Lemma sse_words_run n : forall bs r, (length bs <= n)%nat -> Forall is_byte bs -> in_u32 r ->
  exists p, bs = p ++ (sse_words bs r).2 /\ (sse_words bs r).1 = crc_run r p.
Proof.
  induction n as [n IH] using lt_wf_ind. intros bs r Hn Hbs Hr.
  destruct bs as [|b0 [|b1 [|b2 [|b3 [|b4 [|b5 [|b6 [|b7 bs]]]]]]]]; try by exists [].
  set (w := [b0; b1; b2; b3; b4; b5; b6; b7]).
  change (b0 :: b1 :: b2 :: b3 :: b4 :: b5 :: b6 :: b7 :: bs) with (w ++ bs) in *.
  apply Forall_app in Hbs as [Hw Hbs].
  change (sse_words (w ++ bs) r) with (sse_words bs (mm_crc32_u64 r (le_value w))).
  pose proof (le_value_bound w Hw) as Hv.
  assert (mm_crc32_u64 r (le_value w) = crc_run r w) as ->.
  { rewrite crc32_u64_spec by done. symmetry. by apply (crc_run_value w). }
  destruct (IH (length bs)) with (bs := bs) (r := crc_run r w) as (p & E & Hp);
    [rewrite length_app in Hn; cbn in Hn; lia|lia|done|by apply run_u32|].
  exists (w ++ p). rewrite <- app_assoc, <- E. split; [done|].
  by rewrite run_app.
Qed.

Lemma sse_tail_run bs r : Forall is_byte bs -> in_u32 r -> sse_tail bs r = crc_run r bs.
Proof.
  intros Hbs. revert r. induction Hbs as [|b bs Hb Hbs IH]; intros r Hr; [done|].
  change (sse_tail bs (mm_crc32_u8 r b) = crc_run (crc32c_calc b r) bs).
  rewrite crc32_u8_spec, <- crc32c_calc_bits by done. apply IH.
  apply (run_u32 (R := crc32c_register) [b]); [by constructor|done].
Qed.

Lemma sse_crc_run addr bs r : Forall is_byte bs -> in_u32 r -> sse_crc addr bs r = crc_run r bs.
Proof.
  intros Hbs Hr. unfold sse_crc.
  destruct (sse_head_run bs addr r Hbs Hr) as (p & E & Hp).
  destruct (sse_head addr bs r) as [r1 bs1]. cbn in E, Hp. subst.
  apply Forall_app in Hbs as [Hp Hbs1].
  assert (in_u32 (crc_run r p)) by by apply run_u32.
  destruct (sse_words_run _ bs1 (crc_run r p) (le_n _)) as (q & E & Hq); [done|done|].
  destruct (sse_words bs1 (crc_run r p)) as [r2 bs2]. cbn in E, Hq. subst.
  apply Forall_app in Hbs1 as [Hq Hbs2].
  assert (in_u32 (crc_run (crc_run r p) q)) as H2 by by apply run_u32.
  rewrite u32_small, sse_tail_run by done. by rewrite !run_app.
Qed.
End Sse.

(** ** The Reed-Solomon code

    GF(256) is built with the polynomial 0x11D; the generator of the code is
    [x^4 + 0x38 x^3 + 0xCF x^2 + 0x38 x + 1], whose roots are the powers 126 to
    129 of the element 2. *)

Definition gf_double (x : Z) : Z := Z.shiftl x 1 ⊕ if_bit 7 0x11D x.

Fixpoint gf_mul_upto (n : nat) (a x : Z) : Z :=
  match n with
  | O => 0
  | S n' => (if Z.testbit a (Z.of_nat n') then Nat.iter n' gf_double x else 0) ⊕ gf_mul_upto n' a x
  end.
Definition gf_mul (a x : Z) : Z := gf_mul_upto 8 a x.

Lemma gf_double_linear : linear gf_double.
Proof. apply linear_xor; auto with linear. Qed.
#[export] Hint Resolve gf_double_linear : linear.

Lemma gf_mul_linear a : linear (gf_mul a).
Proof.
  unfold gf_mul. generalize 8%nat. intros n. induction n as [|n IH]; cbn [gf_mul_upto]; [auto with linear|].
  apply linear_xor; [|done]. destruct (Z.testbit a (Z.of_nat n)); auto with linear.
Qed.
#[export] Hint Resolve gf_mul_linear : linear.

(** The generator without its leading coefficient, times [x]. *)
Definition rs_row (x : Z) : Z :=
  Z.shiftl (gf_mul 0x38 x) 24 ⊕ Z.shiftl (gf_mul 0xCF x) 16 ⊕ Z.shiftl (gf_mul 0x38 x) 8 ⊕ x.

Lemma rs_row_linear : linear rs_row.
Proof.
  apply linear_xor; [|auto with linear]. apply linear_xor; [apply linear_xor|].
  - apply (linear_comp (fun y => Z.shiftl y 24)); auto with linear.
  - apply (linear_comp (fun y => Z.shiftl y 16)); auto with linear.
  - apply (linear_comp (fun y => Z.shiftl y 8)); auto with linear.
Qed.
#[export] Hint Resolve rs_row_linear : linear.

Lemma rs_gf256_table_ok : table_is rs_gf256_table rs_row = true.
Proof. vm_compute. reflexivity. Qed.

Definition rs_register : CheckRegister := {|
  step := enc4;
  advance := fun r => u32 (Z.shiftl r 8) ⊕ rs_row (Z.shiftr r 24);
  unadvance := fun r =>
    Z.shiftl (Z.land r 0xff) 24 ⊕ Z.shiftr (r ⊕ rs_row (Z.land r 0xff)) 8;
  place := fun k b => Z.shiftl b (24 - 8 * Z.of_nat k);
  pick := fun k x => Z.land (Z.shiftr x (24 - 8 * Z.of_nat k)) 0xff;
  accept_mask := 0
|}.

Lemma u32_linear : linear u32.
Proof. apply (linear_mod 32). lia. Qed.

Lemma rs_advance_linear : linear (advance (CheckRegister := rs_register)).
Proof.
  apply linear_xor.
  - apply (linear_comp u32); [apply u32_linear|auto with linear].
  - apply (linear_comp rs_row); auto with linear.
Qed.

Lemma rs_unadvance_linear : linear (unadvance (CheckRegister := rs_register)).
Proof.
  apply linear_xor.
  - apply (linear_comp (fun y => Z.shiftl y 24)); auto with linear.
  - apply (linear_comp (fun y => Z.shiftr y 8)); [auto with linear|].
    apply linear_xor; [auto with linear|]. apply (linear_comp rs_row); auto with linear.
Qed.

Lemma rs_row_u32 x : is_byte x -> in_u32 (rs_row x).
Proof.
  intros Hx. assert (rs_row x = u32 (rs_row x)) as ->; [|apply u32_range].
  revert x Hx. apply (linear_ext 8); [auto with linear| |vm_compute; reflexivity].
  apply (linear_comp u32); [apply u32_linear|auto with linear].
Qed.

Lemma top_byte r : in_u32 r -> is_byte (Z.shiftr r 24).
Proof. intros Hr. apply (shiftr_bound r 24 8); unfold in_u32 in Hr; lia. Qed.

Lemma enc4_advance b r : is_byte b -> in_u32 r ->
  enc4 b r = advance (CheckRegister := rs_register) (r ⊕ Z.shiftl b 24).
Proof.
  intros Hb Hr. unfold enc4. pose proof (top_byte r Hr) as Ht.
  rewrite (table_is_spec _ _ _ rs_gf256_table_ok) by by apply xor_byte.
  rewrite rs_advance_linear, rs_row_linear.
  rewrite (Z.lxor_comm (rs_row b)), <- Z.lxor_assoc. f_equal.
  revert b Hb. apply (linear_ext 8); [auto with linear| |vm_compute; reflexivity].
  apply (linear_comp (advance (CheckRegister := rs_register)) (fun x => Z.shiftl x 24)); [apply rs_advance_linear|auto with linear].
Qed.

Lemma rs_place_pick_linear k :
  linear (fun x => place (CheckRegister := rs_register) k (pick (CheckRegister := rs_register) k x)).
Proof.
  apply (linear_comp (fun y => Z.shiftl y _)); [auto with linear|].
  apply (linear_comp (fun y => Z.land y _)); auto with linear.
Qed.

#[export] Instance rs_register_laws : CheckRegisterLaws (R := rs_register).
Proof.
  split.
  - intros b r Hb Hr. by apply enc4_advance.
  - apply rs_advance_linear.
  - intros k. apply (linear_comp (fun x => Z.land x 0xff)); auto with linear.
  - intros r Hr. apply xor_u32; [apply u32_range|by apply rs_row_u32, top_byte].
  - apply (linear_ext 32); [|auto with linear|vm_compute; reflexivity].
    apply (linear_comp (unadvance (CheckRegister := rs_register)));
      [apply rs_unadvance_linear|apply rs_advance_linear].
  - intros k b Hk Hb.
    pose proof (shiftl_bound b (24 - 8 * Z.of_nat k) 8 Hb ltac:(lia) ltac:(lia)) as H.
    unfold in_u32. cbn [place rs_register].
    assert (2 ^ (8 + (24 - 8 * Z.of_nat k)) <= 2 ^ 32) by (apply Z.pow_le_mono_r; lia). lia.
  - intros k b Hk. revert b. unfold is_byte. change 256 with (2 ^ Z.of_nat 8).
    apply linear_ext; [|apply linear_shiftl|below4 k; first [exfalso; lia|vm_compute; reflexivity]].
    apply (linear_comp (advance (CheckRegister := rs_register)) (place (CheckRegister := rs_register) (S k)));
      [apply rs_advance_linear|apply linear_shiftl].
  - intros k j b Hk Hj. revert b. unfold is_byte. change 256 with (2 ^ Z.of_nat 8).
    apply linear_ext.
    + apply (linear_comp (pick (CheckRegister := rs_register) k) (place (CheckRegister := rs_register) j)); [|apply linear_shiftl].
      apply (linear_comp (fun x => Z.land x 0xff)); auto with linear.
    + case_decide; auto with linear.
    + below4 k; below4 j; vm_compute; reflexivity.
  - intros k x. apply land_byte.
  - apply (linear_ext 32); [|auto with linear|vm_compute; reflexivity].
    repeat (apply linear_xor); [apply rs_place_pick_linear..|auto with linear].
  - unfold in_u32. cbn. lia.
Qed.

Abbreviation rs_run := (run (R := rs_register)).
Abbreviation rs_word := (word (R := rs_register)).

(** ** From the functions to the registers

    A buffer is written [d ++ c ++ t]: the data, the four check bytes, the
    rest. *)

Lemma bytes_of_app (d t : list Z) : bytes_of (d ++ t) (length d) = Some d.
Proof.
  unfold bytes_of. rewrite (proj2 (Nat.leb_le _ _)) by (rewrite length_app; lia).
  by rewrite take_app_length.
Qed.

Lemma load4_app d b0 b1 b2 b3 t :
  load4 (d ++ [b0; b1; b2; b3] ++ t) (length d) = Some (b0, b1, b2, b3).
Proof. unfold load4. by rewrite drop_app_length. Qed.

Lemma store4_app d c t b0 b1 b2 b3 : length c = 4%nat ->
  store4 (d ++ c ++ t) (length d) b0 b1 b2 b3 = Some (d ++ [b0; b1; b2; b3] ++ t).
Proof.
  intros Hc. unfold store4. rewrite (proj2 (Nat.leb_le _ _)) by (rewrite !length_app; lia).
  rewrite take_app_length, <- Hc, <- length_app, (app_assoc d c t), drop_app_length. done.
Qed.

Lemma copy_calc_app calc d : forall dest t r, (length d <= length dest)%nat ->
  copy_calc calc (length d) dest (d ++ t) r =
  Some (d ++ drop (length d) dest, fold_left (fun r b => calc b r) d r).
Proof.
  induction d as [|b d IH]; intros dest t r Hd; [done|].
  destruct dest as [|e dest]; [cbn in Hd; lia|]. cbn in Hd |- *.
  by rewrite IH by lia.
Qed.

Lemma not_u32 x : in_u32 x -> u32 (Z.lnot x) = x ⊕ 0xffffffff.
Proof.
  intros Hx. rewrite <- Z.lxor_m1_r, u32_linear. by rewrite (u32_small x).
Qed.

Lemma fields4 b0 b1 b2 b3 : is_byte b0 -> is_byte b1 -> is_byte b2 ->
  Z.lor (Z.lor (Z.lor b0 (Z.shiftl b1 8)) (Z.shiftl b2 16)) (Z.shiftl b3 24) =
  b0 ⊕ Z.shiftl b1 8 ⊕ Z.shiftl b2 16 ⊕ Z.shiftl b3 24.
Proof.
  unfold is_byte. intros H0 H1 H2.
  pose proof (shiftl_bound b1 8 8) as S1. pose proof (shiftl_bound b2 16 8) as S2.
  assert (0 <= b0 ⊕ Z.shiftl b1 8 < 2 ^ 16) by (apply xor_pow2; lia).
  assert (0 <= b0 ⊕ Z.shiftl b1 8 ⊕ Z.shiftl b2 16 < 2 ^ 24) by (apply xor_pow2; lia).
  by rewrite (lor_shiftl 8), (lor_shiftl 16), (lor_shiftl 24) by lia.
Qed.

Lemma stored_le_word d c t : Forall is_byte c -> length c = 4%nat ->
  stored_le (d ++ c ++ t) (length d) = Some (crc_word 0 c).
Proof.
  intros Hc Hl. destruct c as [|b0 [|b1 [|b2 [|b3 [|]]]]]; try discriminate Hl.
  rewrite !Forall_cons in Hc. destruct Hc as (H0 & H1 & H2 & H3 & _).
  unfold stored_le. rewrite load4_app. cbn [mbind option_bind]. f_equal.
  rewrite u32_small by (apply (shiftl_bound b3 24 8); unfold is_byte in H3; lia).
  rewrite fields4 by done. cbn [word place crc32c_register].
  by rewrite Z.lxor_0_r, Z.shiftl_0_r, !Z.lxor_assoc.
Qed.

Lemma ltfs_betou32_word d c t : Forall is_byte c -> length c = 4%nat ->
  ltfs_betou32 (d ++ c ++ t) (length d) = Some (rs_word 0 c).
Proof.
  intros Hc Hl. destruct c as [|b0 [|b1 [|b2 [|b3 [|]]]]]; try discriminate Hl.
  rewrite !Forall_cons in Hc. destruct Hc as (H0 & H1 & H2 & H3 & _).
  unfold ltfs_betou32. rewrite load4_app. cbn [mbind option_bind]. f_equal.
  rewrite (Z.lor_comm _ b3), (Z.lor_comm _ (Z.shiftl b2 8)), (Z.lor_comm _ (Z.shiftl b1 16)).
  rewrite !Z.lor_assoc, fields4 by done. cbn [word place rs_register].
  rewrite Z.lxor_0_r, Z.shiftl_0_r.
  rewrite (Z.lxor_comm _ (Z.shiftl b0 24)). f_equal.
  rewrite (Z.lxor_comm _ (Z.shiftl b1 16)). f_equal. apply Z.lxor_comm.
Qed.

Section CrcFunctions.
Context {cpu : Cpu} {Hcpu : CpuLaws}.

Definition crc_of (d : list Z) : Z := crc_run 0xffffffff d ⊕ 0xffffffff.

Lemma all_ones_u32 : in_u32 0xffffffff.
Proof. unfold in_u32. lia. Qed.

Lemma crc_of_u32 d : Forall is_byte d -> in_u32 (crc_of d).
Proof. intros Hd. apply xor_u32; [apply run_u32; [done|]|]; apply all_ones_u32. Qed.

Lemma crc32c_value addr d t : Forall is_byte d ->
  crc32c addr (d ++ t) (length d) = Some (crc_of d).
Proof.
  intros Hd. unfold crc32c. rewrite bytes_of_app. cbn [mbind option_bind].
  assert (in_u32 (crc_run 0xffffffff d)) by (apply run_u32; [done|apply all_ones_u32]).
  rewrite sse_crc_run by (done || apply all_ones_u32).
  change (fold_left _ d _) with (crc_run 0xffffffff d).
  rewrite not_u32 by done. by destruct is_sse4_2_supported.
Qed.

Lemma memcpy_crc32c_value addr dest d t : Forall is_byte d -> (length d <= length dest)%nat ->
  memcpy_crc32c addr dest (d ++ t) (length d) = Some (d ++ drop (length d) dest, crc_of d).
Proof.
  intros Hd Hl. unfold memcpy_crc32c.
  assert (in_u32 (crc_run 0xffffffff d)) by (apply run_u32; [done|apply all_ones_u32]).
  destruct is_sse4_2_supported.
  - unfold memcpy. rewrite !(proj2 (Nat.leb_le _ _)) by (rewrite ?length_app; lia).
    cbn [andb mbind option_bind]. rewrite bytes_of_app, take_app_length. cbn [mbind option_bind].
    rewrite sse_crc_run by (done || apply all_ones_u32). by rewrite not_u32.
  - rewrite copy_calc_app by done. cbn [mbind option_bind].
    change (fold_left _ d _) with (crc_run 0xffffffff d). by rewrite not_u32.
Qed.

Lemma crc32c_enc_app addr d c t : Forall is_byte d -> length c = 4%nat ->
  crc32c_enc addr (d ++ c ++ t) (length d) =
  Some (d ++ check_bytes (R := crc32c_register) (crc_of d) ++ t).
Proof.
  intros Hd Hc. unfold crc32c_enc. rewrite crc32c_value by done. cbn [mbind option_bind].
  unfold inject_le. rewrite store4_app by done.
  reflexivity.
Qed.

Lemma crc32c_check_app addr d c t : Forall is_byte d -> Forall is_byte c -> length c = 4%nat ->
  crc32c_check addr (d ++ c ++ t) (length d) =
  Some (check_result (crc_word 0 c) (crc_of d) (length d)).
Proof.
  intros Hd Hc Hl. unfold crc32c_check. rewrite crc32c_value by done. cbn [mbind option_bind].
  by rewrite stored_le_word.
Qed.
End CrcFunctions.

Lemma rs_gf256_enc_app d c t : length c = 4%nat ->
  rs_gf256_enc (d ++ c ++ t) (length d) =
  Some (d ++ check_bytes (R := rs_register) (rs_run 0 d) ++ t).
Proof.
  intros Hc. unfold rs_gf256_enc. rewrite bytes_of_app. cbn [mbind option_bind].
  unfold ltfs_u32tobe. rewrite store4_app by done.
  reflexivity.
Qed.

Lemma rs_gf256_check_app d c t : Forall is_byte c -> length c = 4%nat ->
  rs_gf256_check (d ++ c ++ t) (length d) =
  Some (check_result (rs_word 0 c) (rs_run 0 d) (length d)).
Proof.
  intros Hc Hl. unfold rs_gf256_check. rewrite bytes_of_app. cbn [mbind option_bind].
  by rewrite ltfs_betou32_word.
Qed.

(** ** The pair of functions a driver installs *)

(** What encoding and checking do in terms of a register [R] started at [r0]. *)
Record implements (f : crc_functions) (R : CheckRegister) (r0 : Z) : Prop := {
  impl_r0 : in_u32 r0;
  impl_enc addr d c t : Forall is_byte d -> length c = 4%nat ->
    f_crc_enc f addr (d ++ c ++ t) (length d) =
    Some (d ++ check_bytes (run r0 d ⊕ accept_mask) ++ t);
  impl_check addr d c t : Forall is_byte d -> Forall is_byte c -> length c = 4%nat ->
    f_crc_check f addr (d ++ c ++ t) (length d) =
    Some (check_result (word 0 c) (run r0 d ⊕ accept_mask) (length d))
}.

Lemma lbp_functions_implement `{CpuLaws} enable m f : lbp_functions enable m = Some f ->
  exists R r0, CheckRegisterLaws (R := R) /\ implements f R r0.
Proof.
  unfold lbp_functions. intros E. destruct enable; [|done].
  destruct (m =? CRC32C_CRC); [|destruct (m =? REED_SOLOMON_CRC); [|done]]; injection E as <-.
  - exists crc32c_register, 0xffffffff. split; [apply crc32c_register_laws|split].
    + apply all_ones_u32.
    + intros. by apply crc32c_enc_app.
    + intros. by apply crc32c_check_app.
  - exists rs_register, 0. split; [apply rs_register_laws|split].
    + unfold in_u32. lia.
    + intros. cbn [f_crc_enc accept_mask rs_register]. rewrite Z.lxor_0_r. by apply rs_gf256_enc_app.
    + intros. cbn [f_crc_check accept_mask rs_register]. rewrite Z.lxor_0_r. by apply rs_gf256_check_app.
Qed.

Lemma split_block (buf : list Z) n : (n + 4 <= length buf)%nat -> Forall is_byte buf ->
  exists d c t, buf = d ++ c ++ t /\ length d = n /\ length c = 4%nat /\
    Forall is_byte d /\ Forall is_byte c.
Proof.
  intros Hn Hb. exists (take n buf), (take 4 (drop n buf)), (drop 4 (drop n buf)).
  rewrite take_drop, take_drop, !length_take, length_drop.
  repeat split; [lia|lia|by apply Forall_take|by apply Forall_take, Forall_drop].
Qed.

Lemma check_result_accepts crc reg n : Z.of_nat n < 2 ^ 31 ->
  check_result crc reg n = Z.of_nat n <-> crc = reg.
Proof.
  intros Hn. unfold check_result. rewrite i32_small by lia.
  destruct (Z.eqb_spec crc reg); [done|]. split; [lia|done].
Qed.

(** *** The bit-serial definition of CRC32C *)

Definition message_bits (bs : list Z) : list bool :=
  flat_map (fun b => map (fun i => Z.testbit b (Z.of_nat i)) (seq 0 8)) bs.

Definition serial (r : Z) (bits : list bool) : Z :=
  fold_left (fun r m => crc32c_bit (r ⊕ Z.b2z m)) bits r.

(** The register starts with all ones, takes the message low bit first and is
    complemented at the end. *)
Definition crc32c_reference (bs : list Z) : Z :=
  serial 0xffffffff (message_bits bs) ⊕ 0xffffffff.

Lemma serial_split bits : forall r,
  serial r bits = Nat.iter (length bits) crc32c_bit r ⊕ serial 0 bits.
Proof.
  induction bits as [|m bits IH]; intros r; [symmetry; apply Z.lxor_0_r|].
  change (serial (crc32c_bit (r ⊕ Z.b2z m)) bits =
    Nat.iter (S (length bits)) crc32c_bit r ⊕ serial (crc32c_bit (0 ⊕ Z.b2z m)) bits).
  rewrite IH, (IH (crc32c_bit (0 ⊕ _))), Nat.iter_succ_r, Z.lxor_0_l, crc32c_bit_linear.
  rewrite (linear_iter _ _ crc32c_bit_linear). by rewrite Z.lxor_assoc.
Qed.

Lemma serial_linear l g : linear g ->
  linear (fun b => serial (g b) (map (fun i => Z.testbit b (Z.of_nat i)) l)).
Proof.
  revert g. induction l as [|i l IH]; intros g Hg; [done|].
  apply (IH (fun b => crc32c_bit (g b ⊕ Z.b2z (Z.testbit b (Z.of_nat i))))).
  apply (linear_comp crc32c_bit); [auto with linear|]. apply linear_xor; [done|].
  apply (linear_if_bit (Z.of_nat i) 1).
Qed.

Lemma serial_byte b r : is_byte b ->
  serial r (map (fun i => Z.testbit b (Z.of_nat i)) (seq 0 8)) = Nat.iter 8 crc32c_bit (r ⊕ b).
Proof.
  intros Hb. rewrite serial_split, (linear_iter _ 8 crc32c_bit_linear).
  f_equal. revert b Hb.
  apply (linear_ext 8); [|auto with linear|vm_compute; reflexivity].
  apply (serial_linear (seq 0 8) (fun _ => 0)); auto with linear.
Qed.

Definition byte_bits (b : Z) : list bool := map (fun i => Z.testbit b (Z.of_nat i)) (seq 0 8).

Lemma serial_app r l l' : serial r (l ++ l') = serial (serial r l) l'.
Proof. apply fold_left_app. Qed.

Lemma message_bits_cons b bs : message_bits (b :: bs) = byte_bits b ++ message_bits bs.
Proof. reflexivity. Qed.

Lemma serial_message bs : forall r, Forall is_byte bs -> in_u32 r ->
  serial r (message_bits bs) = crc_run r bs.
Proof.
  induction bs as [|b bs IH]; intros r Hbs Hr; [done|].
  inversion Hbs; subst. rewrite message_bits_cons, serial_app.
  unfold byte_bits. rewrite serial_byte, <- crc32c_calc_bits by done. apply IH; [done|].
  apply (run_u32 (R := crc32c_register) [b]); [by constructor|done].
Qed.

Lemma crc_of_reference d : Forall is_byte d -> crc_of d = crc32c_reference d.
Proof.
  intros Hd. unfold crc_of, crc32c_reference. by rewrite serial_message by (done || apply all_ones_u32).
Qed.

(** *** Syndromes of the Reed-Solomon code *)

Definition rs_roots : list Z := [0x66; 0xCC; 0x85; 0x17].

(** The value at [rho] of the polynomial whose coefficients are the bytes. *)
Definition syndrome (rho : Z) (bs : list Z) : Z :=
  fold_left (fun s b => gf_mul rho s ⊕ b) bs 0.

(** One step of Horner's rule on linear maps, and the value of a register. *)
Definition horner (rho : Z) (f g : Z -> Z) (x : Z) : Z := gf_mul rho (f x) ⊕ g x.

Definition rs_pick : nat -> Z -> Z := pick (CheckRegister := rs_register).

Definition value_at (rho : Z) : Z -> Z :=
  horner rho (horner rho (horner rho (rs_pick 0) (rs_pick 1)) (rs_pick 2)) (rs_pick 3).

Lemma horner_linear rho f g : linear f -> linear g -> linear (horner rho f g).
Proof.
  intros Hf Hg x y. unfold horner. rewrite Hf, Hg, gf_mul_linear. apply xor_swap.
Qed.

Lemma value_at_linear rho : linear (value_at rho).
Proof. repeat apply horner_linear; apply (pick_linear (R := rs_register)). Qed.

(** Advancing the register multiplies its value at a root by that root: the
    generator vanishes there. *)
Lemma value_at_advance rho x : rho ∈ rs_roots -> in_u32 x ->
  value_at rho (advance (CheckRegister := rs_register) x) = gf_mul rho (value_at rho x).
Proof.
  intros Hrho. revert x.
  apply (linear_ext 32).
  - apply (linear_comp (value_at rho) (advance (CheckRegister := rs_register)));
      [apply value_at_linear|apply rs_advance_linear].
  - apply (linear_comp (gf_mul rho)); [auto with linear|apply value_at_linear].
  - unfold rs_roots in Hrho. rewrite !elem_of_cons in Hrho.
    destruct Hrho as [->|[->|[->|[->|Hnil]]]]; [vm_compute; reflexivity..|].
    by apply elem_of_nil in Hnil.
Qed.

Lemma value_at_run rho d : rho ∈ rs_roots -> Forall is_byte d -> forall r s, in_u32 r ->
  value_at rho r = Nat.iter 4 (gf_mul rho) s ->
  value_at rho (rs_run r d) =
  Nat.iter 4 (gf_mul rho) (fold_left (fun s b => gf_mul rho s ⊕ b) d s).
Proof.
  intros Hrho. induction 1 as [|b d Hb Hd IH]; intros r s Hr Hs; [done|].
  assert (in_u32 (Z.shiftl b 24)) as Hsh by (apply (shiftl_bound b 24 8); unfold is_byte in Hb; lia).
  change (value_at rho (rs_run (enc4 b r) d) =
    Nat.iter 4 (gf_mul rho) (fold_left (fun s b => gf_mul rho s ⊕ b) d (gf_mul rho s ⊕ b))).
  apply IH.
  { apply (run_u32 (R := rs_register) [b]); [by constructor|done]. }
  rewrite enc4_advance, value_at_advance, value_at_linear by (done || by apply xor_u32).
  rewrite gf_mul_linear, Hs, (linear_iter _ 4 (gf_mul_linear rho)).
  apply f_equal2; [reflexivity|].
  change (Nat.iter 4 (gf_mul rho) b) with (gf_mul rho (Nat.iter 3 (gf_mul rho) b)).
  apply (f_equal (gf_mul rho)).
  clear - Hb Hrho. revert b Hb. apply (linear_ext 8).
  - apply (linear_comp (value_at rho) (fun b => Z.shiftl b 24)); [apply value_at_linear|auto with linear].
  - auto with linear.
  - unfold rs_roots in Hrho. rewrite !elem_of_cons in Hrho.
    destruct Hrho as [->|[->|[->|[->|Hnil]]]]; [vm_compute; reflexivity..|].
    by apply elem_of_nil in Hnil.
Qed.

Lemma syndrome_codeword rho d c : rho ∈ rs_roots -> Forall is_byte d -> Forall is_byte c ->
  length c = 4%nat ->
  syndrome rho (d ++ c) = value_at rho (rs_run 0 d ⊕ rs_word 0 c).
Proof.
  intros Hrho Hd Hc Hl. unfold syndrome. rewrite fold_left_app, value_at_linear.
  assert (value_at rho 0 = Nat.iter 4 (gf_mul rho) 0) as H0.
  { rewrite (linear_0 _ (value_at_linear rho)). symmetry. apply linear_0. auto with linear. }
  rewrite (value_at_run rho d Hrho Hd 0 0) by (done || unfold in_u32; lia).
  set (h := fold_left _ d 0).
  assert (forall k, (k < 4)%nat -> rs_pick k (rs_word 0 c) = default 0 (c !! k)) as Hp.
  { intros k Hk. unfold rs_pick. rewrite pick_word by (done || lia).
    by rewrite decide_True, Nat.sub_0_r by lia. }
  unfold value_at, horner. rewrite !Hp by lia.
  destruct c as [|b0 [|b1 [|b2 [|b3 [|]]]]]; try discriminate Hl.
  cbn [fold_left lookup list_lookup default from_option Nat.iter nat_rect].
  rewrite !gf_mul_linear. by rewrite !Z.lxor_assoc.
Qed.

(** The register from its values at the four roots: the inverse of the
    Vandermonde matrix. *)
Definition interpolate (v0 v1 v2 v3 : Z) : Z :=
  let row a0 a1 a2 a3 := gf_mul a0 v0 ⊕ gf_mul a1 v1 ⊕ gf_mul a2 v2 ⊕ gf_mul a3 v3 in
  Z.shiftl (row 0xE1 0x60 0x30 0xB1) 24 ⊕ Z.shiftl (row 0x73 0x20 0x21 0x72) 16
  ⊕ Z.shiftl (row 0x9D 0xCD 0x5C 0x0C) 8 ⊕ row 0x2B 0xB7 0xE4 0x79.

Definition reinterpolate (x : Z) : Z :=
  interpolate (value_at 0x66 x) (value_at 0xCC x) (value_at 0x85 x) (value_at 0x17 x).

Lemma reinterpolate_linear : linear reinterpolate.
Proof.
  assert (forall a rho, linear (fun x => gf_mul a (value_at rho x))) as Hv.
  { intros. apply (linear_comp (gf_mul a)); [auto with linear|apply value_at_linear]. }
  assert (forall a b c d, linear (fun x => gf_mul a (value_at 0x66 x) ⊕ gf_mul b (value_at 0xCC x)
    ⊕ gf_mul c (value_at 0x85 x) ⊕ gf_mul d (value_at 0x17 x))) as Hrow.
  { intros. apply linear_xor; [apply linear_xor; [apply linear_xor|]|]; apply Hv. }
  apply linear_xor; [apply linear_xor; [apply linear_xor|]|]; [..|apply Hrow].
  - apply (linear_comp (fun y => Z.shiftl y 24)); [auto with linear|apply Hrow].
  - apply (linear_comp (fun y => Z.shiftl y 16)); [auto with linear|apply Hrow].
  - apply (linear_comp (fun y => Z.shiftl y 8)); [auto with linear|apply Hrow].
Qed.

Lemma reinterpolate_id x : in_u32 x -> reinterpolate x = x.
Proof.
  revert x. apply (linear_ext 32); [apply reinterpolate_linear|apply linear_id|].
  vm_compute. reflexivity.
Qed.

Lemma zero_at_roots x : in_u32 x -> (forall rho, rho ∈ rs_roots -> value_at rho x = 0) -> x = 0.
Proof.
  intros Hx H. rewrite <- (reinterpolate_id x Hx). unfold reinterpolate.
  rewrite !H by (unfold rs_roots; set_solver). vm_compute. reflexivity.
Qed.

(** ** The properties *)

(** C32: on every processor whose CRC32 instruction does what its manual says,
    whatever the CPUID bits and the alignment of the buffer, [crc32c] computes
    the bit-serial CRC32C of the first [n] bytes, and [memcpy_crc32c] computes
    it too and leaves those bytes at the start of the destination: the table,
    the byte-wise, the word-wise and the copying loops are the same function. *)
Theorem crc32c_is_reference `{CpuLaws} (addr : Z) (src dest : list Z) (n : nat)
    (Hsrc : Forall is_byte src) (Hn : (n <= length src)%nat) (Hd : (n <= length dest)%nat) :
  crc32c addr src n = Some (crc32c_reference (take n src)) /\
  memcpy_crc32c addr dest src n =
    Some (take n src ++ drop n dest, crc32c_reference (take n src)).
Proof.
  assert (length (take n src) = n) as Hl by (rewrite length_take; lia).
  assert (Forall is_byte (take n src)) as Hb by by apply Forall_take.
  rewrite <- crc_of_reference by done.
  pose proof (crc32c_value addr _ (drop n src) Hb) as E1.
  pose proof (memcpy_crc32c_value addr dest _ (drop n src) Hb) as E2.
  rewrite take_drop, Hl in E1, E2. auto.
Qed.

(** C33: a block encoded with either code passes its own check, at whatever
    address it is read back: the function [sg_set_lbp] installs for writing
    changes nothing but the four check bytes, and the one it installs for
    reading then returns the data size. *)
Theorem lbp_round_trip `{CpuLaws} (enable : bool) (m : Z) (f : crc_functions)
    (addr addr' : Z) (buf : list Z) (n : nat)
    (Hf : lbp_functions enable m = Some f) (Hb : Forall is_byte buf)
    (Hn : (n + 4 <= length buf)%nat) (Hint : Z.of_nat n < 2 ^ 31) :
  exists buf', f_crc_enc f addr buf n = Some buf' /\
    take n buf' = take n buf /\ drop (n + 4) buf' = drop (n + 4) buf /\
    length buf' = length buf /\ f_crc_check f addr' buf' n = Some (Z.of_nat n).
Proof.
  destruct (lbp_functions_implement enable m f Hf) as (R & r0 & HR & I).
  destruct (split_block buf n Hn Hb) as (d & c & t & -> & <- & Hc & Hd & _).
  pose proof (check_bytes_are_bytes (run r0 d ⊕ accept_mask)) as Hcb.
  assert (in_u32 (run r0 d ⊕ accept_mask)) as Hu.
  { apply xor_u32; [apply run_u32; [done|by apply I]|apply accept_mask_u32]. }
  eexists. split; [by apply I|]. rewrite !take_app_length. split; [done|].
  split; [|split].
  - rewrite (app_assoc d c), (app_assoc d (check_bytes _)).
    rewrite !drop_app_length' by (rewrite length_app; cbn; lia). done.
  - rewrite !length_app. cbn. lia.
  - rewrite (impl_check _ _ _ I) by done. f_equal. apply check_result_accepts; [done|].
    by apply word_check_bytes.
Qed.

(** C31: neither code accepts two blocks that differ in at most four consecutive
    bytes, the check bytes included: when a block passes the check, the same
    block with any such damage is refused with -1. *)
Theorem lbp_detects_bursts `{CpuLaws} (enable : bool) (m : Z) (f : crc_functions)
    (addr addr' : Z) (buf buf' p w w' s : list Z) (n : nat)
    (Hf : lbp_functions enable m = Some f)
    (Hb : Forall is_byte buf) (Hb' : Forall is_byte buf')
    (Hn : (n + 4 <= length buf)%nat) (Hn' : (n + 4 <= length buf')%nat)
    (Hint : Z.of_nat n < 2 ^ 31)
    (E : take (n + 4) buf = p ++ w ++ s) (E' : take (n + 4) buf' = p ++ w' ++ s)
    (Hlen : length w = length w') (H4 : (length w <= 4)%nat) (Hne : w <> w')
    (Hok : f_crc_check f addr buf n = Some (Z.of_nat n)) :
  f_crc_check f addr' buf' n = Some (-1).
Proof.
  destruct (lbp_functions_implement enable m f Hf) as (R & r0 & HR & I).
  destruct (split_block buf n Hn Hb) as (d & c & t & -> & <- & Hc & Hd & Hcb).
  destruct (split_block buf' _ Hn' Hb') as (d' & c' & t' & -> & Hl & Hc' & Hd' & Hcb').
  rewrite app_assoc, take_app_length' in E by (rewrite length_app; lia).
  rewrite app_assoc, take_app_length' in E' by (rewrite length_app; lia).
  rewrite (impl_check _ _ _ I) in Hok by done. injection Hok as Hok.
  apply check_result_accepts in Hok; [|done].
  rewrite <- Hl, (impl_check _ _ _ I) by done. f_equal. unfold check_result.
  destruct (Z.eqb_spec (word 0 c') (run r0 d' ⊕ accept_mask)) as [Hok'|]; [|done].
  exfalso. apply Hne.
  eapply (burst_unique r0 d c d' c'); eauto; [by apply Forall_app..|by apply I].
Qed.

(** Copying a block and encoding or checking it in one pass is the same as
    doing one after the other, for both codes. *)
Theorem memcpy_is_copy_then_code `{CpuLaws} (addr : Z) (src dest : list Z) (n : nat)
    (Hsrc : Forall is_byte src) (Hn : (n + 4 <= length src)%nat)
    (Hd : (n + 4 <= length dest)%nat) :
  memcpy_crc32c_enc addr dest src n = (memcpy dest src n ≫= fun b => crc32c_enc addr b n) /\
  memcpy_rs_gf256_enc dest src n = (memcpy dest src n ≫= fun b => rs_gf256_enc b n) /\
  memcpy_crc32c_check addr dest src n =
    (memcpy dest src n ≫= fun b => crc32c_check addr src n ≫= fun r => Some (b, r)) /\
  memcpy_rs_gf256_check dest src n =
    (memcpy dest src n ≫= fun b => rs_gf256_check src n ≫= fun r => Some (b, r)).
Proof.
  destruct (split_block src n Hn Hsrc) as (d & c & t & -> & <- & Hc & Hdb & Hcb).
  assert (memcpy dest (d ++ c ++ t) (length d) = Some (d ++ drop (length d) dest)) as ->.
  { unfold memcpy. rewrite !(proj2 (Nat.leb_le _ _)) by lia. by rewrite take_app_length. }
  cbn [mbind option_bind]. split; [|split; [|split]].
  - unfold memcpy_crc32c_enc, crc32c_enc.
    by rewrite memcpy_crc32c_value, crc32c_value by (done || lia).
  - unfold memcpy_rs_gf256_enc, rs_gf256_enc.
    by rewrite copy_calc_app, bytes_of_app by lia.
  - unfold memcpy_crc32c_check, crc32c_check.
    rewrite memcpy_crc32c_value, crc32c_value by (done || lia). cbn [mbind option_bind].
    by destruct (stored_le (d ++ c ++ t) (length d)).
  - unfold memcpy_rs_gf256_check, rs_gf256_check.
    rewrite copy_calc_app, bytes_of_app by lia. cbn [mbind option_bind].
    by destruct (ltfs_betou32 (d ++ c ++ t) (length d)).
Qed.

(** [rs_gf256_check] accepts exactly the codewords of a Reed-Solomon code
    over GF(256): the block with its check bytes, read as a polynomial, has the
    four powers 126 to 129 of the element 2 as roots. *)
Theorem rs_gf256_accepts_codewords (buf : list Z) (n : nat)
    (Hb : Forall is_byte buf) (Hn : (n + 4 <= length buf)%nat) (Hint : Z.of_nat n < 2 ^ 31) :
  rs_gf256_check buf n = Some (Z.of_nat n) <->
  (forall rho, rho ∈ rs_roots -> syndrome rho (take (n + 4) buf) = 0).
Proof.
  destruct (split_block buf n Hn Hb) as (d & c & t & -> & <- & Hc & Hd & Hcb).
  rewrite app_assoc, take_app_length' by (rewrite length_app; lia). rewrite <- app_assoc.
  rewrite rs_gf256_check_app by done.
  assert (in_u32 0) as H0 by (unfold in_u32; lia).
  assert (in_u32 (rs_run 0 d)) by by apply run_u32.
  assert (in_u32 (rs_word 0 c)) by (apply word_u32; [lia|done]).
  split.
  - intros [= Hok]. apply check_result_accepts in Hok; [|done]. intros rho Hrho.
    rewrite syndrome_codeword, Hok, Z.lxor_nilpotent by done. apply linear_0, value_at_linear.
  - intros Hs. f_equal. apply check_result_accepts; [done|].
    assert (rs_run 0 d ⊕ rs_word 0 c = 0) as Hz.
    { apply zero_at_roots; [by apply xor_u32|]. intros rho Hrho.
      rewrite <- syndrome_codeword by done. auto. }
    by apply Z.lxor_eq in Hz.
Qed.

(** ** Witnesses *)

(** A processor with the instruction, and the test vector of the CRC32C
    standard. *)
Definition model_cpu : Cpu := {|
  mm_crc32_u8 := fun r b => Nat.iter 8 crc32c_bit (r ⊕ b);
  mm_crc32_u64 := fun r q => Nat.iter 64 crc32c_bit (r ⊕ q);
  cpuid1_ecx := Some 0x00080000
|}.

Lemma model_cpu_laws : CpuLaws (cpu := model_cpu).
Proof. by split. Qed.

Definition nine_digits : list Z := [0x31; 0x32; 0x33; 0x34; 0x35; 0x36; 0x37; 0x38; 0x39].

Lemma all_bytes bs : forallb (fun b => (0 <=? b) && (b <? 256)) bs = true -> Forall is_byte bs.
Proof.
  induction bs as [|b bs IH]; intros H; [constructor|]. cbn in H.
  apply andb_prop in H as [Hb Hbs]. constructor; [unfold is_byte; lia|auto].
Qed.

Lemma crc32c_is_reference_witness :
  crc32c (cpu := model_cpu) 5 nine_digits 9 = Some 0xE3069283.
Proof.
  pose proof (crc32c_is_reference (H := model_cpu_laws) 5 nine_digits (zeros 12) 9
    ltac:(apply all_bytes; reflexivity) ltac:(apply Nat.leb_le; reflexivity) ltac:(apply Nat.leb_le; reflexivity)) as [E _].
  rewrite E. vm_compute. reflexivity.
Defined.

Definition block13 : list Z := nine_digits ++ [0; 0; 0; 0].

Lemma lbp_round_trip_witness :
  exists f buf', lbp_functions (cpu := model_cpu) true CRC32C_CRC = Some f /\
    f_crc_enc f 3 block13 9 = Some buf' /\ f_crc_check f 8 buf' 9 = Some 9.
Proof.
  eexists.
  destruct (lbp_round_trip (H := model_cpu_laws) true CRC32C_CRC _ 3 8 block13 9
    eq_refl ltac:(apply all_bytes; reflexivity) ltac:(apply Nat.leb_le; reflexivity) ltac:(lia))
    as (buf' & E & _ & _ & _ & C).
  exists buf'. split; [reflexivity|]. split; [exact E|exact C].
Defined.

(** The same nine bytes with the check bytes of the Reed-Solomon code, and with
    three of the thirteen bytes damaged. *)
Definition coded13 : list Z := nine_digits ++ [75; 79; 103; 58].
Definition damaged13 : list Z :=
  [0x31; 0x32; 0x33; 0x34; 0x35; 0x36; 0x37; 0; 0x39; 0; 0; 103; 58].

Lemma lbp_detects_bursts_witness :
  exists f, lbp_functions (cpu := model_cpu) true REED_SOLOMON_CRC = Some f /\
    f_crc_check f 0 coded13 9 = Some 9 /\ f_crc_check f 0 damaged13 9 = Some (-1).
Proof.
  eexists. split; [reflexivity|]. split; [vm_compute; reflexivity|].
  apply (lbp_detects_bursts (H := model_cpu_laws) true REED_SOLOMON_CRC _ 0 0 coded13 damaged13
    (take 7 coded13) [0x38; 0x39; 75; 79] [0; 0x39; 0; 0] [103; 58] 9).
  - reflexivity.
  - apply all_bytes. reflexivity.
  - apply all_bytes. reflexivity.
  - apply Nat.leb_le. reflexivity.
  - apply Nat.leb_le. reflexivity.
  - lia.
  - reflexivity.
  - reflexivity.
  - reflexivity.
  - apply Nat.leb_le. reflexivity.
  - discriminate.
  - vm_compute. reflexivity.
Defined.

Lemma memcpy_is_copy_then_code_witness :
  memcpy_rs_gf256_check (zeros 14) coded13 9 =
  (memcpy (zeros 14) coded13 9 ≫= fun b => rs_gf256_check coded13 9 ≫= fun r => Some (b, r)).
Proof.
  apply (memcpy_is_copy_then_code (H := model_cpu_laws) 1 coded13 (zeros 14) 9).
  - apply all_bytes. reflexivity.
  - apply Nat.leb_le. reflexivity.
  - apply Nat.leb_le. reflexivity.
Defined.

Lemma rs_gf256_accepts_codewords_witness : syndrome 0x66 (take 13 coded13) = 0.
Proof.
  apply (rs_gf256_accepts_codewords coded13 9).
  - apply all_bytes. reflexivity.
  - apply Nat.leb_le. reflexivity.
  - lia.
  - vm_compute. reflexivity.
  - unfold rs_roots. apply list_elem_of_here.
Defined.
