(* ===== verification/Time.v ===== *)
(** * Time stamps (src/libltfs/arch/time_internal.c, xml_writer.c, xml_reader.c)

    Indexes and labels hold time stamps as text.  This file models the
    conversion between seconds since 1970 and calendar fields ([ltfs_gmtime],
    [ltfs_timegm]), the clamping to the years 0 to 9999
    ([normalize_ltfs_time]) and the text form ([xml_format_time],
    [xml_parse_time]).  C division truncates: [Z.quot] and [Z.rem].  Text is
    the list of its character codes; of [snprintf] and [sscanf] the model has
    the directives the two functions use.  The build is one with 64-bit
    [time_t]; [int] overflow wraps around. *)

From Stdlib Require Ascii String.
From S2P Require Import Prelude TapeLayer.

Record tm := mk_tm {
  tm_sec : Z;
  tm_min : Z;
  tm_hour : Z;
  tm_mday : Z;
  tm_mon : Z;
  tm_year : Z;
  tm_wday : Z;
  tm_yday : Z;
  tm_isdst : Z
}.

(** The sums in parentheses are [int]. *)
Definition ltfs_timegm (t : tm) : Z :=
  let tmp := (tm_mon t - 13) ÷ 12 in
  86400 * i32 (i32 (1461 * i32 (tm_year t + 6700 + tmp)) ÷ 4
               + i32 (367 * i32 (tm_mon t - 1 - 12 * tmp)) ÷ 12
               - i32 (3 * (i32 (tm_year t + 6800 + tmp) ÷ 100)) ÷ 4
               + tm_mday t - 2472663)
  + i32 (3600 * tm_hour t) + i32 (60 * tm_min t) + tm_sec t.

Definition ltfs_get_days_of_year (nYear : Z) : Z :=
  if (Z.rem nYear 400 =? 0) || (negb (Z.rem nYear 100 =? 0) && (Z.rem nYear 4 =? 0))
  then 366 else 365.

(** The loop over the months: the month and the day of the month, both counted
    from 0; [None] when the day lies behind December. *)
Fixpoint month_loop (days : list Z) (i nMday : Z) : option (Z * Z) :=
  match days with
  | [] => None
  | d :: days' => if nMday <? d then Some (i, nMday) else month_loop days' (i + 1) (nMday - d)
  end.

Definition anDaysOfMonth (nYear : Z) : list Z :=
  [31; (if ltfs_get_days_of_year nYear =? 365 then 28 else 29);
   31; 30; 31; 30; 31; 31; 30; 31; 30; 31].

(** The result and [*pnMonth]. *)
Definition ltfs_get_mday_from_yday (nYear nYday : Z) : Z * Z :=
  match month_loop (anDaysOfMonth nYear) 0 nYday with
  | Some (nMonth, nMday) => if nMday <? 0 then (-1, nMonth) else (nMday + 1, nMonth)
  | None => (-1, -1)
  end.

(** One unit split off: [n = t % m; t /= m], borrowing when [n] is negative. *)
Definition split_unit (nSrcTime m : Z) : Z * Z :=
  let n := Z.rem nSrcTime m in
  let nSrcTime := nSrcTime ÷ m in
  if 0 <=? n then (n, nSrcTime) else (n + m, nSrcTime - 1).

(** Years since 2000 and the offset from March 1st of a number of days since
    2000-03-01. *)
Definition years_since_2000 (nSrcTime : Z) : Z * Z :=
  let n400Y := nSrcTime ÷ 146097 in
  let nYears := n400Y * 400 in
  let nSrcTime := Z.rem nSrcTime 146097 in
  let n100Y := nSrcTime ÷ 36524 in
  let nYears := nYears + n100Y * 100 in
  let nSrcTime := Z.rem nSrcTime 36524 in
  let nSrcTime := if n100Y =? 4 then nSrcTime - 1 else nSrcTime in
  let n4Y := nSrcTime ÷ 1461 in
  let nYears := nYears + n4Y * 4 in
  let nSrcTime := Z.rem nSrcTime 1461 in
  let nSrcTime := if (n100Y <? 0) && (n4Y =? 0) then nSrcTime + 1 else nSrcTime in
  let n1Y := nSrcTime ÷ 365 in
  let nYears := nYears + n1Y in
  let nSrcTime := Z.rem nSrcTime 365 in
  let nSrcTime := if n1Y =? 4 then nSrcTime - 1 else nSrcTime in
  let nSrcTime :=
    if (n1Y <? 0) && negb ((n100Y <? 0) && (n4Y =? 0)) then nSrcTime + 1 else nSrcTime in
  (nYears, nSrcTime).

(** From the offset from March 1st to the day of the calendar year. *)
Definition yday_of (nYears nSrcTime : Z) : Z * Z :=
  let nDaysOfYear := ltfs_get_days_of_year (nYears + 2000) in
  let nYday := nSrcTime + 31 + 28 + (nDaysOfYear - 365) in
  if nDaysOfYear <=? nYday then (nYears + 1, nYday - nDaysOfYear)
  else if nYday <? 0 then (nYears - 1, nYday + ltfs_get_days_of_year (nYears - 1 + 2000))
  else (nYears, nYday).

Definition ltfs_gmtime (timep : Z) : tm :=
  let '(sec, nSrcTime) := split_unit timep 60 in
  let '(min, nSrcTime) := split_unit nSrcTime 60 in
  let '(hour, nSrcTime) := split_unit nSrcTime 24 in
  let nSrcTime := nSrcTime - 11017 in
  let wday := Z.rem (nSrcTime + 3) 7 in
  let wday := if wday <? 0 then wday + 7 else wday in
  let '(nYears, nSrcTime) := years_since_2000 nSrcTime in
  let '(nYears, nYday) := yday_of nYears nSrcTime in
  let '(mday, mon) := ltfs_get_mday_from_yday (nYears + 2000) nYday in
  mk_tm sec min hour mday mon (i32 (nYears + 2000 - 1900)) wday nYday (-1).

Definition LTFS_TIME_T_MAX : Z := 253402300799.
Definition LTFS_TIME_T_MIN : Z := -62167219200.
Definition LTFS_TIME_OUT_OF_RANGE : Z := 1.
Definition LTFS_NSEC_MAX : Z := 999999999.
Definition LTFS_NSEC_MIN : Z := 0.

Definition normalize_ltfs_time (t : ltfs_timespec) : Z * ltfs_timespec :=
  if LTFS_TIME_T_MAX <? tv_sec t then
    (LTFS_TIME_OUT_OF_RANGE, mk_time LTFS_TIME_T_MAX LTFS_NSEC_MAX)
  else if tv_sec t <? LTFS_TIME_T_MIN then
    (LTFS_TIME_OUT_OF_RANGE, mk_time LTFS_TIME_T_MIN LTFS_NSEC_MIN)
  else (0, t).

(** ** The text form *)

Fixpoint str (s : String.string) : list Z :=
  match s with
  | String.EmptyString => []
  | String.String c s' => Z.of_nat (Ascii.nat_of_ascii c) :: str s'
  end.

Definition ch_0 : Z := 48.
Definition ch_minus : Z := 45.
Definition ch_plus : Z := 43.

Definition is_digit (c : Z) : bool := (ch_0 <=? c) && (c <=? ch_0 + 9).
Definition is_space (c : Z) : bool := (c =? 32) || ((9 <=? c) && (c <=? 13)).

(** Decimal digits; twenty are enough for 64 bits. *)
Fixpoint digits (fuel : nat) (n : Z) (acc : list Z) : list Z :=
  match fuel with
  | O => acc
  | S fuel' =>
    let acc := ch_0 + n mod 10 :: acc in
    if n <? 10 then acc else digits fuel' (n / 10) acc
  end.

(** [%0<w>d]. *)
Definition pad0 (w : nat) (ds : list Z) : list Z := replicate (w - length ds) ch_0 ++ ds.
Definition printf_0d (w : nat) (z : Z) : list Z :=
  if z <? 0 then ch_minus :: pad0 (w - 1) (digits 20 (- z) [])
  else pad0 w (digits 20 z []).

Definition format_tm (t : tm) (nsec : Z) : list Z :=
  printf_0d 4 (tm_year t + 1900) ++ [45] ++ printf_0d 2 (tm_mon t + 1) ++ [45] ++
  printf_0d 2 (tm_mday t) ++ [84] ++ printf_0d 2 (tm_hour t) ++ [58] ++
  printf_0d 2 (tm_min t) ++ [58] ++ printf_0d 2 (tm_sec t) ++ [46] ++
  printf_0d 9 nsec ++ [90].

(** [calloc_ok] is the outcome of the allocation; the text is absent when the
    function fails. *)
Definition xml_format_time (calloc_ok : bool) (t : ltfs_timespec) : Z * option (list Z) :=
  let '(normalized, t) := normalize_ltfs_time t in
  if negb calloc_ok then (-1, None)
  else (normalized, Some (take 63 (format_tm (ltfs_gmtime (tv_sec t)) (tv_nsec t)))).

(** [sscanf]: a directive is a decimal conversion with an optional field width
    or a literal character. *)
Inductive directive := DInt (width : option nat) | DChar (c : Z).

Fixpoint skip_spaces (s : list Z) : list Z :=
  match s with
  | c :: s' => if is_space c then skip_spaces s' else s
  | [] => []
  end.

(** The digits of a number: value so far, characters left in the field, and
    whether a digit was seen. *)
Fixpoint scan_digits (width : option nat) (s : list Z) (acc : Z) (seen : bool) :
    option (Z * list Z) :=
  let stop := if seen then Some (acc, s) else None in
  match s with
  | c :: s' =>
    if is_digit c then
      match width with
      | Some O => stop
      | Some (S w) => scan_digits (Some w) s' (10 * acc + (c - ch_0)) true
      | None => scan_digits None s' (10 * acc + (c - ch_0)) true
      end
    else stop
  | [] => stop
  end.

Definition scan_int (width : option nat) (s : list Z) : option (Z * list Z) :=
  let s := skip_spaces s in
  let rest w := match w with Some (S w') => Some w' | o => o end in
  match s with
  | c :: s' =>
    if (c =? ch_minus) && negb (bool_decide (width = Some O)) then
      '(n, s'') ← scan_digits (rest width) s' 0 false; Some (- n, s'')
    else if (c =? ch_plus) && negb (bool_decide (width = Some O)) then
      scan_digits (rest width) s' 0 false
    else scan_digits width s 0 false
  | [] => None
  end.

(** The values converted before the first failure. *)
Fixpoint sscanf (fmt : list directive) (s : list Z) : list Z :=
  match fmt with
  | [] => []
  | DChar c :: fmt' =>
    match s with
    | c' :: s' => if c =? c' then sscanf fmt' s' else []
    | [] => []
    end
  | DInt w :: fmt' =>
    match scan_int w s with
    | Some (n, s') => n :: sscanf fmt' s'
    | None => []
    end
  end.

(** ["%d-%2d-%2dT%2d:%2d:%2d.%9ldZ"] *)
Definition time_format : list directive :=
  [DInt None; DChar 45; DInt (Some 2%nat); DChar 45; DInt (Some 2%nat); DChar 84;
   DInt (Some 2%nat); DChar 58; DInt (Some 2%nat); DChar 58; DInt (Some 2%nat); DChar 46;
   DInt (Some 9%nat); DChar 90].

(** A number that [%d] has read: [strtol] saturates and the result is stored as
    an [int]. *)
Definition stored_int (z : Z) : Z := i32 (Z.max (- 2 ^ 63) (Z.min (2 ^ 63 - 1) z)).

(** [rawtime] keeps its value when the text does not parse. *)
Definition xml_parse_time (fmt_time : list Z) (rawtime : ltfs_timespec) : Z * ltfs_timespec :=
  match sscanf time_format fmt_time with
  | [year; mon; mday; hour; min; sec; nsec] =>
    let tm := mk_tm sec min hour mday (mon - 1) (i32 (stored_int year - 1900)) 0 0 0 in
    normalize_ltfs_time (mk_time (ltfs_timegm tm) nsec)
  | _ => (-1, rawtime)
  end.
