(* ===== verification/TimeProps.v ===== *)
(** * The calendar

    The proleptic Gregorian calendar as a reference: the length of each year
    and month, and the day number of a date.  [ltfs_gmtime] and [ltfs_timegm]
    are proved to agree with it, and the text form of a time stamp to keep it. *)

From S2P Require Import Prelude TapeLayer Time.

(** Linear arithmetic with division by constants. *)
Ltac dlia := Z.to_euclidean_division_equations; lia.

(** ** The reference *)

Definition leap (y : Z) : bool :=
  (y mod 4 =? 0) && (negb (y mod 100 =? 0) || (y mod 400 =? 0)).

Definition year_length (y : Z) : Z := if leap y then 366 else 365.

Definition month_lengths (y : Z) : list Z :=
  [31; (if leap y then 29 else 28); 31; 30; 31; 30; 31; 31; 30; 31; 30; 31].

(** Days from 1970-01-01 to January 1st of year [y]. *)
Definition days_before_year (y : Z) : Z :=
  365 * (y - 1970) + (y - 1) / 4 - (y - 1) / 100 + (y - 1) / 400 - 477.

Definition days_before_month (y m : Z) : Z := zsum (take (Z.to_nat m) (month_lengths y)).

(** Days from 1970-01-01 to a date; months count from 0 and days from 1. *)
Definition calendar_day (y m d : Z) : Z := days_before_year y + days_before_month y m + (d - 1).

Definition calendar_second (t : tm) : Z :=
  86400 * calendar_day (tm_year t + 1900) (tm_mon t) (tm_mday t)
  + 3600 * tm_hour t + 60 * tm_min t + tm_sec t.

Definition valid_tm (t : tm) : Prop :=
  0 <= tm_sec t < 60 /\ 0 <= tm_min t < 60 /\ 0 <= tm_hour t < 24 /\ 0 <= tm_mon t < 12 /\
  1 <= tm_mday t <= nth (Z.to_nat (tm_mon t)) (month_lengths (tm_year t + 1900)) 0.

Lemma leap_cases y : leap y = true <-> y mod 4 = 0 /\ (y mod 100 <> 0 \/ y mod 400 = 0).
Proof. unfold leap. rewrite andb_true_iff, orb_true_iff, negb_true_iff. lia. Qed.

Lemma year_length_cases y :
  (year_length y = 366 /\ leap y = true) \/ (year_length y = 365 /\ leap y = false).
Proof. unfold year_length. destruct (leap y); auto. Qed.

Lemma div_pred y m : 0 < m -> (y - 1) / m = y / m - Z.b2z (y mod m =? 0).
Proof.
  intros Hm. pose proof (Z.div_mod y m ltac:(lia)). pose proof (Z.mod_pos_bound y m Hm).
  destruct (Z.eqb_spec (y mod m) 0); cbn [Z.b2z]; symmetry.
  - apply Z.div_unique with (m - 1); lia.
  - apply Z.div_unique with (y mod m - 1); lia.
Qed.

(** The closed form adds up the lengths of the years. *)
Lemma days_before_year_succ y : days_before_year (y + 1) = days_before_year y + year_length y.
Proof.
  unfold days_before_year, year_length, leap. replace (y + 1 - 1) with y by lia.
  rewrite !(div_pred y) by lia.
  assert (y mod 400 = 0 -> y mod 100 = 0) by (rewrite !Z.mod_divide by lia; intros; by apply (Z.divide_trans _ 400); [exists 4|]).
  assert (y mod 100 = 0 -> y mod 4 = 0) by (rewrite !Z.mod_divide by lia; intros; by apply (Z.divide_trans _ 100); [exists 25|]).
  destruct (Z.eqb_spec (y mod 400) 0), (Z.eqb_spec (y mod 100) 0), (Z.eqb_spec (y mod 4) 0);
    cbn [negb andb orb Z.b2z]; lia.
Qed.

Lemma leap_shift y q : leap (y + 400 * q) = leap y.
Proof.
  unfold leap. replace ((y + 400 * q) mod 4) with (y mod 4) by dlia.
  replace ((y + 400 * q) mod 100) with (y mod 100) by dlia.
  by replace ((y + 400 * q) mod 400) with (y mod 400) by dlia.
Qed.

Lemma ltfs_get_days_of_year_length y : ltfs_get_days_of_year y = year_length y.
Proof.
  unfold ltfs_get_days_of_year, year_length, leap.
  assert (forall m, 0 < m -> (Z.rem y m =? 0) = (y mod m =? 0)) as H.
  { intros m Hm. apply eq_true_iff_eq. rewrite !Z.eqb_eq.
    rewrite Z.rem_divide, Z.mod_divide by lia. done. }
  rewrite !H by lia.
  destruct (Z.eqb_spec (y mod 400) 0), (Z.eqb_spec (y mod 100) 0), (Z.eqb_spec (y mod 4) 0); cbn; dlia.
Qed.

Lemma anDaysOfMonth_lengths y : anDaysOfMonth y = month_lengths y.
Proof.
  unfold anDaysOfMonth, month_lengths. rewrite ltfs_get_days_of_year_length.
  by destruct (year_length_cases y) as [[-> ->]|[-> ->]].
Qed.

(** ** [ltfs_gmtime] *)

Lemma split_unit_spec t m n q : 0 < m -> split_unit t m = (n, q) -> n = t mod m /\ q = t / m.
Proof.
  intros Hm. unfold split_unit.
  pose proof (Z.quot_rem' t m). pose proof (Z.rem_bound_abs t m ltac:(lia)) as Hb.
  destruct (Z.leb_spec 0 (Z.rem t m)); intros [= <- <-].
  - assert (t = m * (t ÷ m) + Z.rem t m) as E by lia.
    split; [eapply Z.mod_unique|eapply Z.div_unique]; eauto; lia.
  - assert (t = m * (t ÷ m - 1) + (Z.rem t m + m)) as E by lia.
    split; [eapply Z.mod_unique|eapply Z.div_unique]; eauto; lia.
Qed.

(** Truncated division, with the sign made explicit. *)
Lemma quot_rem_sign t m : 0 < m ->
  t = m * (t ÷ m) + Z.rem t m /\
  ((0 <= t /\ 0 <= t ÷ m /\ 0 <= Z.rem t m < m) \/ (t < 0 /\ t ÷ m <= 0 /\ - m < Z.rem t m <= 0)).
Proof.
  intros Hm. split; [apply Z.quot_rem'|].
  pose proof (Z.quot_rem' t m).
  destruct (Z.le_gt_cases 0 t) as [Ht|Ht].
  - left. pose proof (Z.rem_bound_pos t m Ht Hm). pose proof (Z.quot_pos t m Ht Hm). lia.
  - right. destruct (Z.rem_bound_pos_neg t m) as [? ?]; [lia..|].
    assert (t ÷ m < 1) by (apply (Z.mul_lt_mono_pos_l m); lia). lia.
Qed.

(** Days from 2000-03-01 to March 1st of year [2000 + Y]. *)
Definition march_days (Y : Z) : Z := 365 * Y + Y / 4 - Y / 100 + Y / 400.

Lemma march_days_shift Y q : march_days (400 * q + Y) = 146097 * q + march_days Y.
Proof. unfold march_days. dlia. Qed.


Ltac digit_cases H := repeat (destruct H as [->|H]); [..|subst].

(** Within one cycle of 400 years, before or after 2000-03-01. *)
Lemma years_in_cycle r : -146097 < r < 146097 ->
  r = march_days (years_since_2000 r).1 + (years_since_2000 r).2 /\
  -365 <= (years_since_2000 r).2 <= 365.
Proof.
  intros Hr. unfold years_since_2000.
  assert (r ÷ 146097 = 0) as -> by (apply Z.quot_small_iff; lia).
  assert (Z.rem r 146097 = r) as -> by (apply Z.rem_small_iff; lia).
  destruct (quot_rem_sign r 36524) as [E1 S1]; [lia|].
  set (a := r ÷ 36524) in *. set (r1 := Z.rem r 36524) in *.
  assert (a = -4 \/ a = -3 \/ a = -2 \/ a = -1 \/ a = 0 \/ a = 1 \/ a = 2 \/ a = 3 \/ a = 4) as Ha by lia.
  set (r1' := if a =? 4 then r1 - 1 else r1).
  assert (r1' = r1 - Z.b2z (a =? 4)) as R1 by (unfold r1'; destruct (a =? 4); cbn; lia).
  destruct (quot_rem_sign r1' 1461) as [E2 S2]; [lia|].
  set (b := r1' ÷ 1461) in *. set (r2 := Z.rem r1' 1461) in *.
  set (m := (a <? 0) && (b =? 0)).
  set (r2' := if m then r2 + 1 else r2).
  assert (r2' = r2 + Z.b2z m) as R2 by (unfold r2'; destruct m; cbn; lia).
  destruct (quot_rem_sign r2' 365) as [E3 S3]; [lia|].
  set (c := r2' ÷ 365) in *. set (r3 := Z.rem r2' 365) in *.
  assert (c = -4 \/ c = -3 \/ c = -2 \/ c = -1 \/ c = 0 \/ c = 1 \/ c = 2 \/ c = 3 \/ c = 4) as Hc
    by (destruct m; cbn [Z.b2z] in *; lia).
  cbv zeta. cbn [fst snd]. clearbody r1' r2' r3 c b a r1 r2.
  digit_cases Ha; digit_cases Hc; subst m;
    cbn [Z.ltb Z.compare Pos.compare Pos.compare_cont Pos.eqb Z.eqb andb negb Z.b2z] in *;
    destruct (Z.eqb_spec b 0); cbn [negb Z.b2z andb] in *; unfold march_days;
    (exfalso; lia) || dlia.
Qed.

Lemma years_since_2000_spec D Y r : years_since_2000 D = (Y, r) ->
  D = march_days Y + r /\ -365 <= r <= 365.
Proof.
  intros E. destruct (quot_rem_sign D 146097) as [E0 S0]; [lia|].
  destruct (years_in_cycle (Z.rem D 146097)) as [H1 H2]; [lia|].
  assert (years_since_2000 (Z.rem D 146097) = (Y - 400 * (D ÷ 146097), r)) as E'.
  { unfold years_since_2000 in E |- *. cbv zeta in E |- *.
    assert (Z.rem D 146097 ÷ 146097 = 0) as -> by (apply Z.quot_small_iff; lia).
    rewrite Z.rem_rem by lia. injection E as <- <-. f_equal. lia. }
  rewrite E' in H1, H2. cbn [fst snd] in *.
  replace Y with (400 * (D ÷ 146097) + (Y - 400 * (D ÷ 146097))) by lia.
  rewrite march_days_shift. lia.
Qed.

(** March 1st and January 1st of the same year. *)
Lemma march_january Y :
  march_days Y = days_before_year (Y + 2000) - 11017 + 59 + (year_length (Y + 2000) - 365).
Proof.
  pose proof (days_before_year_succ (Y + 2000)) as H. unfold days_before_year in *.
  unfold march_days. replace (Y + 2000 + 1 - 1) with (Y + 2000) in H by lia.
  assert ((Y + 2000) / 4 = Y / 4 + 500) by dlia.
  assert ((Y + 2000) / 100 = Y / 100 + 20) by dlia.
  assert ((Y + 2000) / 400 = Y / 400 + 5) by dlia. lia.
Qed.

Lemma yday_of_spec Y r Y' n : -365 <= r <= 365 -> yday_of Y r = (Y', n) ->
  march_days Y + r = days_before_year (Y' + 2000) - 11017 + n /\ 0 <= n < year_length (Y' + 2000).
Proof.
  intros Hr. unfold yday_of. rewrite !ltfs_get_days_of_year_length, march_january.
  pose proof (days_before_year_succ (Y + 2000)) as N.
  pose proof (days_before_year_succ (Y - 1 + 2000)) as P.
  replace (Y - 1 + 2000 + 1) with (Y + 2000) in P by lia.
  replace (Y + 2000 + 1) with (Y + 1 + 2000) in N by lia.
  pose proof (year_length_cases (Y + 2000)). pose proof (year_length_cases (Y + 1 + 2000)).
  pose proof (year_length_cases (Y - 1 + 2000)).
  destruct (Z.leb_spec (year_length (Y + 2000)) (r + 31 + 28 + (year_length (Y + 2000) - 365)));
    [|destruct (Z.ltb_spec (r + 31 + 28 + (year_length (Y + 2000) - 365)) 0)];
    intros [= <- <-]; lia.
Qed.

(** The month loop finds the month and day of a day of the year. *)
Lemma month_loop_spec ds : forall i n, 0 <= n < zsum ds ->
  exists j d, month_loop ds i n = Some (i + Z.of_nat j, d) /\ (j < length ds)%nat /\
    n = zsum (take j ds) + d /\ 0 <= d < nth j ds 0.
Proof.
  induction ds as [|x ds IH]; intros i n Hn; [cbn in Hn; lia|].
  cbn [month_loop]. destruct (Z.ltb_spec n x).
  - exists O, n. rewrite Z.add_0_r. cbn. repeat split; lia.
  - destruct (IH (i + 1) (n - x)) as (j & d & E & Hj & Hd & Hb); [rewrite zsum_cons in Hn; lia|].
    exists (S j), d. rewrite E. cbn [take length nth]. rewrite zsum_cons.
    repeat split; [do 2 f_equal; lia|lia..].
Qed.

Lemma zsum_month_lengths y : zsum (month_lengths y) = year_length y.
Proof. unfold month_lengths, year_length. by destruct (leap y). Qed.

Lemma ltfs_get_mday_from_yday_spec y n : 0 <= n < year_length y ->
  exists mon mday, ltfs_get_mday_from_yday y n = (mday, mon) /\ 0 <= mon < 12 /\
    1 <= mday <= nth (Z.to_nat mon) (month_lengths y) 0 /\
    n = days_before_month y mon + (mday - 1).
Proof.
  intros Hn. unfold ltfs_get_mday_from_yday. rewrite anDaysOfMonth_lengths.
  rewrite <- zsum_month_lengths in Hn.
  destruct (month_loop_spec _ 0 n Hn) as (j & d & -> & Hj & Hd & Hb).
  rewrite (proj2 (Z.ltb_ge d 0)) by lia. cbn in Hj.
  exists (0 + Z.of_nat j), (d + 1). unfold days_before_month.
  rewrite Z.add_0_l, Nat2Z.id. repeat split; lia.
Qed.

Lemma gmtime_fields t : - 2 ^ 40 <= t <= 2 ^ 40 ->
  valid_tm (ltfs_gmtime t) /\ calendar_second (ltfs_gmtime t) = t /\
  tm_wday (ltfs_gmtime t) = (t / 86400 + 4) mod 7 /\
  tm_yday (ltfs_gmtime t) = t / 86400 - days_before_year (tm_year (ltfs_gmtime t) + 1900).
Proof.
  intros Ht. unfold ltfs_gmtime.
  destruct (split_unit t 60) as [sec t1] eqn:E1.
  destruct (split_unit t1 60) as [min t2] eqn:E2.
  destruct (split_unit t2 24) as [hour t3] eqn:E3.
  apply split_unit_spec in E1 as [Es Et1], E2 as [Em Et2], E3 as [Eh Et3]; [|lia..].
  assert (t3 = t / 86400) as D by (subst; rewrite !Z.div_div by lia; f_equal).
  destruct (years_since_2000 (t3 - 11017)) as [Y r] eqn:EY.
  apply years_since_2000_spec in EY as [EY Hr].
  destruct (yday_of Y r) as [Y' n] eqn:En.
  apply yday_of_spec in En as [En Hn]; [|done].
  destruct (ltfs_get_mday_from_yday_spec (Y' + 2000) n Hn) as (mon & mday & -> & Hmon & Hmday & Hdays).
  assert (i32 (Y' + 2000 - 1900) = Y' + 100) as Hy.
  { pose proof (year_length_cases (Y' + 2000)). clear Hdays Hmday.
    rewrite i32_small; [lia|]. unfold days_before_year in En. dlia. }
  unfold valid_tm, calendar_second, calendar_day.
  cbn [tm_sec tm_min tm_hour tm_mday tm_mon tm_year tm_wday tm_yday]. rewrite Hy.
  replace (Y' + 100 + 1900) with (Y' + 2000) by lia.
  pose proof (Z.div_mod t 60). pose proof (Z.div_mod t1 60). pose proof (Z.div_mod t2 24).
  pose proof (Z.mod_pos_bound t 60). pose proof (Z.mod_pos_bound t1 60).
  pose proof (Z.mod_pos_bound t2 24).
  repeat split; try lia. clear - D. subst t3. cbv zeta.
  destruct (Z.ltb_spec (Z.rem (t / 86400 - 11017 + 3) 7) 0); dlia.
Qed.

(** ** [ltfs_timegm] *)

Lemma days_before_next y :
  days_before_year y + (if leap y then 1 else 0) =
  365 * (y - 1970) + y / 4 - y / 100 + y / 400 - 477.
Proof.
  pose proof (days_before_year_succ y) as H. unfold days_before_year, year_length in *.
  replace (y + 1 - 1) with y in H by lia. destruct (leap y); lia.
Qed.

(** Days before a month of a leap or a common year. *)
Lemma days_before_month_eq y m : 0 <= m < 12 ->
  days_before_month y m =
  nth (Z.to_nat m) [0; 31; 59; 90; 120; 151; 181; 212; 243; 273; 304; 334] 0
  + (if m <? 2 then 0 else if leap y then 1 else 0).
Proof.
  intros Hm. unfold days_before_month, month_lengths.
  assert (m = 0 \/ m = 1 \/ m = 2 \/ m = 3 \/ m = 4 \/ m = 5 \/ m = 6 \/ m = 7 \/ m = 8 \/
    m = 9 \/ m = 10 \/ m = 11) as C by lia.
  digit_cases C; destruct (leap y); reflexivity.
Qed.

(** The two terms of the formula of [ltfs_timegm], for the year [z] that begins
    in March. *)
Lemma timegm_years z : -1 <= z ->
  (1461 * (z + 4800)) ÷ 4 - (3 * ((z + 4900) ÷ 100)) ÷ 4 =
  365 * z + z / 4 - z / 100 + z / 400 + 1753164.
Proof.
  intros Hz. rewrite !Z.quot_div_nonneg by (try apply Z.mul_nonneg_nonneg; try apply Z.quot_pos; lia).
  dlia.
Qed.

Lemma timegm_months m : 0 <= m < 12 ->
  (m - 13) ÷ 12 = (if m <? 2 then -1 else 0) /\
  (367 * (m - 1 - 12 * ((m - 13) ÷ 12))) ÷ 12 =
  nth (Z.to_nat m) [0; 31; 59; 90; 120; 151; 181; 212; 243; 273; 304; 334] 0
  + (if m <? 2 then 336 else -29).
Proof.
  intros Hm.
  assert (m = 0 \/ m = 1 \/ m = 2 \/ m = 3 \/ m = 4 \/ m = 5 \/ m = 6 \/ m = 7 \/ m = 8 \/
    m = 9 \/ m = 10 \/ m = 11) as C by lia.
  digit_cases C; split; reflexivity.
Qed.

Lemma timegm_day y m d : 0 <= y -> 0 <= m < 12 ->
  let tmp := (m - 13) ÷ 12 in
  (1461 * (y - 1900 + 6700 + tmp)) ÷ 4 + (367 * (m - 1 - 12 * tmp)) ÷ 12
  - (3 * ((y - 1900 + 6800 + tmp) ÷ 100)) ÷ 4 + d - 2472663 = calendar_day y m d.
Proof.
  intros Hy Hm. destruct (timegm_months m Hm) as [T M]. cbv zeta. rewrite M, T.
  unfold calendar_day. rewrite days_before_month_eq by done.
  set (D := nth _ _ _). clearbody D.
  pose proof (days_before_next y) as N.
  destruct (Z.ltb_spec m 2).
  - pose proof (timegm_years (y - 1) ltac:(lia)) as Y. unfold days_before_year.
    replace (y - 1900 + 6700 + -1) with (y - 1 + 4800) by lia.
    replace (y - 1900 + 6800 + -1) with (y - 1 + 4900) by lia. lia.
  - pose proof (timegm_years y ltac:(lia)) as Y.
    replace (y - 1900 + 6700 + 0) with (y + 4800) by lia.
    replace (y - 1900 + 6800 + 0) with (y + 4900) by lia. lia.
Qed.

Lemma month_length_le y k : nth k (month_lengths y) 0 <= 31.
Proof.
  unfold month_lengths. destruct (leap y); do 12 (destruct k as [|k]; [cbn; lia|]);
    destruct k; cbn; lia.
Qed.

Lemma timegm_is_calendar t : valid_tm t -> 0 <= tm_year t + 1900 <= 9999 ->
  ltfs_timegm t = calendar_second t.
Proof.
  intros (Hs & Hm & Hh & Hmon & Hd) Hy. unfold ltfs_timegm, calendar_second.
  pose proof (timegm_day (tm_year t + 1900) (tm_mon t) (tm_mday t) ltac:(lia) Hmon) as E.
  destruct (timegm_months _ Hmon) as [T M]. cbv zeta in E.
  replace (tm_year t + 1900 - 1900) with (tm_year t) in E by lia.
  assert (1 <= tm_mday t <= 31) as Hd'.
  { pose proof (month_length_le (tm_year t + 1900) (Z.to_nat (tm_mon t))). lia. }
  assert (-1 <= (tm_mon t - 13) ÷ 12 <= 0) as Ht by (rewrite T; destruct (_ <? 2); lia).
  set (tmp := (tm_mon t - 13) ÷ 12) in *.
  rewrite (i32_small (tm_year t + 6700 + tmp)), (i32_small (tm_year t + 6800 + tmp)),
    (i32_small (tm_mon t - 1 - 12 * tmp)), (i32_small (3600 * _)), (i32_small (60 * _)) by lia.
  rewrite (i32_small (1461 * _)), (i32_small (367 * _)), (i32_small (3 * _)) by dlia.
  rewrite i32_small; [lia|]. clear M T. clearbody tmp. dlia.
Qed.

(** ** The text *)

Definition digits_value (acc : Z) (ds : list Z) : Z :=
  fold_left (fun a c => 10 * a + (c - ch_0)) ds acc.

Definition all_digits (ds : list Z) : Prop := Forall (fun c => is_digit c = true) ds.

Lemma digit_char n : 0 <= n -> is_digit (ch_0 + n mod 10) = true.
Proof. intros Hn. unfold is_digit, ch_0. pose proof (Z.mod_pos_bound n 10). lia. Qed.

Lemma digits_value_app acc ds es :
  digits_value acc (ds ++ es) = digits_value (digits_value acc ds) es.
Proof. apply fold_left_app. Qed.

(** What [digits] puts in front of its accumulator. *)
Lemma digits_spec fuel : forall n acc, 0 <= n < 10 ^ Z.of_nat fuel -> fuel <> O ->
  exists ds, digits fuel n acc = ds ++ acc /\ all_digits ds /\ digits_value 0 ds = n /\
    (forall k, (0 < k)%nat -> n < 10 ^ Z.of_nat k -> (0 < length ds <= k)%nat).
Proof.
  induction fuel as [|fuel IH]; intros n acc Hn Hf; [done|].
  cbn [digits]. pose proof (Z.div_mod n 10 ltac:(lia)) as E. pose proof (Z.mod_pos_bound n 10 ltac:(lia)).
  destruct (Z.ltb_spec n 10).
  - exists [ch_0 + n mod 10]. repeat split; [|unfold digits_value, ch_0; cbn [fold_left]; dlia|cbn; lia..].
    constructor; [apply digit_char; lia|constructor].
  - rewrite Nat2Z.inj_succ, Z.pow_succ_r in Hn by lia.
    destruct (IH (n / 10) (ch_0 + n mod 10 :: acc)) as (ds & -> & Hd & Hv & Hk).
    { dlia. } { intros ->. cbn in Hn. lia. }
    exists (ds ++ [ch_0 + n mod 10]). rewrite <- app_assoc. repeat split.
    + apply Forall_app; split; [done|constructor; [apply digit_char; lia|constructor]].
    + rewrite digits_value_app, Hv. unfold digits_value. cbn [fold_left]. unfold ch_0. lia.
    + rewrite length_app. cbn. lia.
    + rewrite length_app. cbn. destruct k as [|[|k]]; [lia|cbn in *; lia|].
      rewrite (Nat2Z.inj_succ (S k)), Z.pow_succ_r in H2 by lia.
      specialize (Hk (S k) ltac:(lia)). dlia.
Qed.

Lemma pad0_digits w ds : all_digits ds -> (length ds <= w)%nat ->
  all_digits (pad0 w ds) /\ digits_value 0 (pad0 w ds) = digits_value 0 ds /\ length (pad0 w ds) = w.
Proof.
  intros Hd Hl. unfold pad0. repeat split.
  - apply Forall_app. split; [by apply Forall_replicate|done].
  - rewrite digits_value_app. f_equal.
    generalize (w - length ds)%nat. intros n. induction n as [|n IH]; [done|exact IH].
  - rewrite length_app, length_replicate. lia.
Qed.

(** A number printed in a field it fits. *)
Lemma printf_0d_spec w z : (0 < w <= 20)%nat -> 0 <= z < 10 ^ Z.of_nat w ->
  all_digits (printf_0d w z) /\ digits_value 0 (printf_0d w z) = z /\ length (printf_0d w z) = w.
Proof.
  intros Hw Hz. unfold printf_0d. rewrite (proj2 (Z.ltb_ge z 0)) by lia.
  destruct (digits_spec 20 z []) as (ds & -> & Hd & Hv & Hk); [|done|].
  { assert (10 ^ Z.of_nat w <= 10 ^ Z.of_nat 20) by (apply Z.pow_le_mono_r; lia). lia. }
  rewrite app_nil_r. rewrite <- Hv. apply pad0_digits; [done|]. apply Hk; lia.
Qed.

Definition no_digit (s : list Z) : Prop :=
  match s with c :: _ => is_digit c = false | [] => True end.

Lemma scan_digits_stop width s acc : no_digit s \/ width = Some O ->
  scan_digits width s acc true = Some (acc, s).
Proof.
  intros H. destruct s as [|c s]; [done|]. cbn. destruct H as [H| ->]; [by rewrite H|].
  by destruct (is_digit c).
Qed.

Lemma scan_digits_spec ds : forall width s acc seen, all_digits ds ->
  (ds <> [] \/ seen = true) -> (width = None /\ no_digit s \/ width = Some (length ds)) ->
  scan_digits width (ds ++ s) acc seen = Some (digits_value acc ds, s).
Proof.
  induction ds as [|d ds IH]; intros width s acc seen Hd Hs Hw.
  - destruct Hs as [?| ->]; [done|]. apply scan_digits_stop. destruct Hw as [[_ ?]|?]; auto.
  - inversion Hd as [|?? H1 H2]; subst. cbn [app scan_digits]. rewrite H1.
    destruct Hw as [[-> Hn]| ->]; apply IH; auto.
Qed.

Lemma scan_int_spec width ds s : all_digits ds -> ds <> [] ->
  (width = None /\ no_digit s \/ width = Some (length ds)) ->
  scan_int width (ds ++ s) = Some (digits_value 0 ds, s).
Proof.
  intros Hd Hne Hw. rewrite <- (scan_digits_spec ds width s 0 false) by auto.
  destruct ds as [|d ds]; [done|]. inversion Hd as [|?? H1 H2]; subst.
  unfold is_digit, ch_0 in H1. unfold scan_int. cbn [app skip_spaces].
  assert (is_space d = false) as -> by (unfold is_space; lia).
  unfold ch_minus, ch_plus.
  rewrite (proj2 (Z.eqb_neq d 45)), (proj2 (Z.eqb_neq d 43)) by lia. done.
Qed.

(** One conversion of [sscanf] on a field written by [printf_0d]. *)
Lemma sscanf_field w z width fmt s : (0 < w <= 20)%nat -> 0 <= z < 10 ^ Z.of_nat w ->
  (width = None /\ no_digit s \/ width = Some w) ->
  sscanf (DInt width :: fmt) (printf_0d w z ++ s) = z :: sscanf fmt s.
Proof.
  intros Hw Hz Hs. destruct (printf_0d_spec w z Hw Hz) as (Hd & Hv & Hl).
  cbn [sscanf]. rewrite scan_int_spec, Hv; [done|done| |by rewrite Hl].
  intros E. rewrite E in Hl. cbn in Hl. lia.
Qed.

Lemma sscanf_char c fmt s : sscanf (DChar c :: fmt) ([c] ++ s) = sscanf fmt s.
Proof. cbn. by rewrite Z.eqb_refl. Qed.

Lemma sscanf_format_tm t nsec : valid_tm t -> 0 <= tm_year t + 1900 <= 9999 ->
  0 <= nsec <= LTFS_NSEC_MAX ->
  sscanf time_format (format_tm t nsec) =
  [tm_year t + 1900; tm_mon t + 1; tm_mday t; tm_hour t; tm_min t; tm_sec t; nsec].
Proof.
  intros (Hs & Hm & Hh & Hmon & Hd) Hy Hn. unfold LTFS_NSEC_MAX in Hn.
  pose proof (month_length_le (tm_year t + 1900) (Z.to_nat (tm_mon t))).
  unfold time_format, format_tm.
  rewrite sscanf_field, sscanf_char, sscanf_field, sscanf_char, sscanf_field, sscanf_char,
    sscanf_field, sscanf_char, sscanf_field, sscanf_char, sscanf_field, sscanf_char, sscanf_field
    by (first [lia|left; split; reflexivity|right; reflexivity]).
  cbn [sscanf]. reflexivity.
Qed.

Lemma format_tm_length t nsec : valid_tm t -> 0 <= tm_year t + 1900 <= 9999 ->
  0 <= nsec <= LTFS_NSEC_MAX -> length (format_tm t nsec) = 30%nat.
Proof.
  intros (Hs & Hm & Hh & Hmon & Hd) Hy Hn. unfold LTFS_NSEC_MAX in Hn.
  pose proof (month_length_le (tm_year t + 1900) (Z.to_nat (tm_mon t))).
  assert (forall w z, (0 < w <= 20)%nat -> 0 <= z < 10 ^ Z.of_nat w -> length (printf_0d w z) = w) as L.
  { intros w z Hw Hz. by apply printf_0d_spec. }
  unfold format_tm. rewrite !length_app, !L by lia. reflexivity.
Qed.

(** ** A date has one day number *)

Lemma days_before_year_mono y y' : y <= y' -> days_before_year y <= days_before_year y'.
Proof. intros H. unfold days_before_year. dlia. Qed.

Lemma month_loop_complete ds : forall i j d, Forall (fun x => 0 <= x) ds -> (j < length ds)%nat ->
  0 <= d < nth j ds 0 -> month_loop ds i (zsum (take j ds) + d) = Some (i + Z.of_nat j, d).
Proof.
  induction ds as [|x ds IH]; intros i j d Hp Hj Hd; [cbn in Hj; lia|].
  inversion Hp as [|?? Hx Hp']; subst. cbn [month_loop]. destruct j as [|j].
  - cbn [nth take] in *. change (zsum []) with 0. rewrite Z.add_0_l, Z.add_0_r.
    by rewrite (proj2 (Z.ltb_lt d x)) by lia.
  - cbn [take nth length] in *. rewrite zsum_cons.
    assert (0 <= zsum (take j ds)) as Hz by by apply zsum_nonneg, Forall_take.
    rewrite (proj2 (Z.ltb_ge _ x)) by lia.
    replace (x + zsum (take j ds) + d - x) with (zsum (take j ds) + d) by lia.
    rewrite IH by (done || lia). do 2 f_equal. lia.
Qed.

Lemma month_lengths_nonneg y : Forall (fun x => 0 <= x) (month_lengths y).
Proof. unfold month_lengths. destruct (leap y); repeat constructor; lia. Qed.

Definition date_ok (y m d : Z) : Prop :=
  0 <= m < 12 /\ 1 <= d <= nth (Z.to_nat m) (month_lengths y) 0.

Lemma date_month_loop y m d : date_ok y m d ->
  month_loop (month_lengths y) 0 (days_before_month y m + (d - 1)) = Some (m, d - 1).
Proof.
  intros [Hm Hd]. unfold days_before_month.
  rewrite month_loop_complete; [|apply month_lengths_nonneg|cbn; lia|lia].
  do 2 f_equal. lia.
Qed.

Lemma date_in_year y m d : date_ok y m d ->
  days_before_year y <= calendar_day y m d < days_before_year (y + 1).
Proof.
  intros [Hm Hd]. rewrite days_before_year_succ, <- zsum_month_lengths.
  unfold calendar_day, days_before_month.
  pose proof (month_lengths_nonneg y) as Hp.
  assert (Z.to_nat m < length (month_lengths y))%nat as Hl by (cbn; lia).
  revert Hd Hl. generalize (Z.to_nat m). intros j Hd Hl.
  enough (0 <= zsum (take j (month_lengths y)) /\
    zsum (take j (month_lengths y)) + nth j (month_lengths y) 0 <= zsum (month_lengths y)) by lia.
  clear Hd. revert j Hl. induction Hp as [|x ds Hx Hp IH]; intros j Hl; [cbn in Hl; lia|].
  pose proof (zsum_nonneg ds Hp).
  destruct j as [|j]; cbn [take nth length] in *; rewrite ?zsum_cons; [cbn; lia|].
  specialize (IH j). lia.
Qed.

Lemma calendar_day_inj y m d y' m' d' : date_ok y m d -> date_ok y' m' d' ->
  calendar_day y m d = calendar_day y' m' d' -> y = y' /\ m = m' /\ d = d'.
Proof.
  intros H H' E. pose proof (date_in_year _ _ _ H). pose proof (date_in_year _ _ _ H').
  assert (y = y') as <-.
  { pose proof (days_before_year_mono (y + 1) y'). pose proof (days_before_year_mono (y' + 1) y). lia. }
  pose proof (date_month_loop _ _ _ H) as L. unfold calendar_day in E.
  replace (days_before_month y m + (d - 1)) with (days_before_month y m' + (d' - 1)) in L by lia.
  rewrite date_month_loop in L by done. injection L as -> ?. lia.
Qed.

Lemma calendar_second_inj t t' : valid_tm t -> valid_tm t' ->
  calendar_second t = calendar_second t' ->
  tm_sec t = tm_sec t' /\ tm_min t = tm_min t' /\ tm_hour t = tm_hour t' /\
  tm_mday t = tm_mday t' /\ tm_mon t = tm_mon t' /\ tm_year t = tm_year t'.
Proof.
  intros (Hs & Hm & Hh & Hmon & Hd) (Hs' & Hm' & Hh' & Hmon' & Hd') E. unfold calendar_second in E.
  set (D := calendar_day (tm_year t + 1900) _ _) in E.
  set (D' := calendar_day (tm_year t' + 1900) _ _) in E.
  assert (D = D') as ED by lia.
  destruct (calendar_day_inj (tm_year t + 1900) (tm_mon t) (tm_mday t)
    (tm_year t' + 1900) (tm_mon t') (tm_mday t')) as (Y & M & DD); [by split..|exact ED|].
  lia.
Qed.

Lemma year_of_range t : LTFS_TIME_T_MIN <= t <= LTFS_TIME_T_MAX ->
  0 <= tm_year (ltfs_gmtime t) + 1900 <= 9999.
Proof.
  unfold LTFS_TIME_T_MIN, LTFS_TIME_T_MAX. intros Ht.
  destruct (gmtime_fields t) as (V & E & _); [lia|].
  generalize dependent (ltfs_gmtime t). intros g (Hs & Hm & Hh & Hmon & Hd) E.
  unfold calendar_second in E.
  destruct (date_in_year (tm_year g + 1900) (tm_mon g) (tm_mday g)) as [L U]; [by split|].
  set (y := tm_year g + 1900) in *.
  pose proof (days_before_year_mono (y + 1) 0) as A. pose proof (days_before_year_mono 10000 y) as B.
  change (days_before_year 0) with (-719528) in A. change (days_before_year 10000) with 2932897 in B.
  lia.
Qed.

(** ** The properties *)

(** C35: for every second from the year 0 to the year 9999 (and far beyond),
    [ltfs_gmtime] gives the date and time of the proleptic Gregorian calendar:
    the fields are in range, they denote the second that was asked for, and the
    week day and the day of the year are right.  This covers the seconds before
    1970 and before March 2000, where the C divisions round towards zero. *)
Theorem gmtime_is_calendar (t : Z) (Ht : - 2 ^ 40 <= t <= 2 ^ 40) :
  valid_tm (ltfs_gmtime t) /\ calendar_second (ltfs_gmtime t) = t /\
  tm_wday (ltfs_gmtime t) = (t / 86400 + 4) mod 7 /\
  tm_yday (ltfs_gmtime t) = t / 86400 - days_before_year (tm_year (ltfs_gmtime t) + 1900).
Proof. by apply gmtime_fields. Qed.

(** [ltfs_timegm] and [ltfs_gmtime] are inverse to each other on the years 0
    to 9999: no [int] of the formula overflows, every second is recovered from
    its fields, and every valid date and time from its second. *)
Theorem timegm_gmtime_inverse :
  (forall t, LTFS_TIME_T_MIN <= t <= LTFS_TIME_T_MAX -> ltfs_timegm (ltfs_gmtime t) = t) /\
  (forall f, valid_tm f -> 0 <= tm_year f + 1900 <= 9999 ->
    let g := ltfs_gmtime (ltfs_timegm f) in
    tm_sec g = tm_sec f /\ tm_min g = tm_min f /\ tm_hour g = tm_hour f /\
    tm_mday g = tm_mday f /\ tm_mon g = tm_mon f /\ tm_year g = tm_year f).
Proof.
  split.
  - intros t Ht. pose proof (year_of_range t Ht). unfold LTFS_TIME_T_MIN, LTFS_TIME_T_MAX in Ht.
    destruct (gmtime_fields t) as (V & E & _); [lia|]. by rewrite timegm_is_calendar.
  - intros f V Hy. cbv zeta. rewrite timegm_is_calendar by done.
    destruct (date_in_year (tm_year f + 1900) (tm_mon f) (tm_mday f)) as [L U]; [by split; apply V|].
    destruct (gmtime_fields (calendar_second f)) as (V' & E & _).
    { pose proof (days_before_year_mono 0 (tm_year f + 1900)) as A.
      pose proof (days_before_year_mono (tm_year f + 1900 + 1) 10000) as B.
      change (days_before_year 0) with (-719528) in A.
      change (days_before_year 10000) with 2932897 in B.
      destruct V as (? & ? & ? & _). unfold calendar_second. lia. }
    by apply calendar_second_inj.
Qed.

Lemma format_parse_time (t raw : ltfs_timespec)
    (Hn : LTFS_NSEC_MIN <= tv_nsec t <= LTFS_NSEC_MAX) :
  exists s, xml_format_time true t = (fst (normalize_ltfs_time t), Some s) /\
    length s = 30%nat /\
    xml_parse_time s raw = (0, snd (normalize_ltfs_time t)).
Proof.
  assert (exists r sec nsec, normalize_ltfs_time t = (r, mk_time sec nsec) /\
    LTFS_TIME_T_MIN <= sec <= LTFS_TIME_T_MAX /\ 0 <= nsec <= LTFS_NSEC_MAX) as
    (r & sec & nsec & E & Hs & Hns).
  { destruct t as [s n]. unfold normalize_ltfs_time, LTFS_NSEC_MIN in *. cbn [tv_sec tv_nsec] in *.
    destruct (Z.ltb_spec LTFS_TIME_T_MAX s); [|destruct (Z.ltb_spec s LTFS_TIME_T_MIN)];
      do 3 eexists; (split; [reflexivity|]);
      unfold LTFS_TIME_T_MIN, LTFS_TIME_T_MAX, LTFS_NSEC_MAX in *; lia. }
  unfold xml_format_time. rewrite E. cbn [negb fst snd tv_sec tv_nsec].
  pose proof (year_of_range sec Hs) as Hy.
  destruct (gmtime_fields sec) as (V & Ec & _);
    [unfold LTFS_TIME_T_MIN, LTFS_TIME_T_MAX in Hs; lia|].
  pose proof (format_tm_length _ nsec V Hy Hns) as Hl.
  clear E. generalize dependent (ltfs_gmtime sec). intros g Hy V Ec Hl.
  rewrite take_ge by lia. eexists. split; [reflexivity|]. split; [done|].
  unfold xml_parse_time. rewrite sscanf_format_tm by done.
  replace (mk_tm _ _ _ _ _ _ _ _ _) with
    (mk_tm (tm_sec g) (tm_min g) (tm_hour g) (tm_mday g) (tm_mon g) (tm_year g) 0 0 0).
  2:{ unfold stored_int. rewrite Z.min_r, Z.max_r by lia. rewrite !i32_small by (rewrite ?i32_small; lia).
      f_equal; lia. }
  rewrite timegm_is_calendar by done.
  change (calendar_second (mk_tm _ _ _ _ _ _ _ _ _)) with (calendar_second g).
  rewrite Ec. unfold normalize_ltfs_time. cbn [tv_sec].
  by rewrite (proj2 (Z.ltb_ge LTFS_TIME_T_MAX sec)), (proj2 (Z.ltb_ge sec LTFS_TIME_T_MIN)) by lia.
Qed.

(** C34: a time stamp survives the index: the text that [xml_format_time] writes
    has 30 characters, and [xml_parse_time] reads back from it, without error,
    the time stamp as [normalize_ltfs_time] clamps it to the years 0 to 9999.
    The result of [xml_format_time] tells whether it was clamped. *)
Theorem time_text_round_trip (t raw : ltfs_timespec)
    (Hn : LTFS_NSEC_MIN <= tv_nsec t <= LTFS_NSEC_MAX) :
  exists s, xml_format_time true t = (fst (normalize_ltfs_time t), Some s) /\
    length s = 30%nat /\
    xml_parse_time s raw = (0, snd (normalize_ltfs_time t)).
Proof. by apply format_parse_time. Qed.

(** ** Witnesses *)

(** 1900-02-28 23:59:59: the next day is March 1st. *)
Lemma gmtime_is_calendar_witness :
  valid_tm (ltfs_gmtime (-2203891201)) /\ tm_mday (ltfs_gmtime (-2203891201)) = 28 /\
  tm_mon (ltfs_gmtime (-2203891201)) = 1.
Proof.
  split; [apply (gmtime_is_calendar (-2203891201)); lia|]. split; vm_compute; reflexivity.
Defined.

Lemma time_text_round_trip_witness :
  exists s, xml_format_time true (mk_time 951782400 7) = (0, Some s) /\
    xml_parse_time s (mk_time 0 0) = (0, mk_time 951782400 7).
Proof.
  destruct (time_text_round_trip (mk_time 951782400 7) (mk_time 0 0)
    ltac:(unfold LTFS_NSEC_MIN, LTFS_NSEC_MAX; cbn; lia)) as (s & E & _ & P).
  exists s. split; [exact E|exact P].
Defined.

Lemma timegm_gmtime_inverse_witness : ltfs_timegm (ltfs_gmtime 1582934400) = 1582934400.
Proof.
  apply (proj1 timegm_gmtime_inverse). unfold LTFS_TIME_T_MIN, LTFS_TIME_T_MAX. lia.
Defined.
