(* ===== verification/Criteria.v ===== *)
(** * Data placement rules (src/libltfs/index_criteria.c)

    A volume may have a rule such as [size=1M/name=*.txt:*.pdf]: small files
    whose name matches go to the index partition.  This file models the parser
    of the rule string and the matcher.

    A C string is the list of its bytes without the terminator and a pointer
    into it the suffix it points to; a function that would read outside its
    buffer returns [None].  For the matcher a string is the list of its
    grapheme clusters, each the list of its UTF-16 code units, as the break
    iterators of ICU deliver them, and a position [cr_bnd] or [fi_bnd] is the
    list of the clusters from that position on.  Folding a name for caseless
    comparison, splitting it into clusters and validating a name are
    parameters: they are ICU's. *)

From S2P Require Import Prelude LtfsError Journal.

(** ** C strings *)

Definition ch_colon : Z := 0x3A.

Definition isalpha (c : Z) : bool :=
  ((0x41 <=? c) && (c <=? 0x5A)) || ((0x61 <=? c) && (c <=? 0x7A)).
Definition isdigit (c : Z) : bool := (0x30 <=? c) && (c <=? 0x39).
Definition tolower (c : Z) : Z := if (0x41 <=? c) && (c <=? 0x5A) then c + 32 else c.

(** [! strncasecmp(opt, s, strlen(opt))]. *)
Fixpoint has_prefix_ci (opt s : list Z) : bool :=
  match opt, s with
  | [], _ => true
  | a :: opt', b :: s' => (tolower a =? tolower b) && has_prefix_ci opt' s'
  | _ :: _, [] => false
  end.

(** [strtoull(s, NULL, 10)] on a string that begins with a digit. *)
Fixpoint digits_prefix (acc : Z) (s : list Z) : Z :=
  match s with
  | c :: s' => if isdigit c then digits_prefix (10 * acc + (c - 0x30)) s' else acc
  | [] => acc
  end.
Definition strtoull (s : list Z) : Z := Z.min (2 ^ 64 - 1) (digits_prefix 0 s).

(** ["name="] and ["size="]. *)
Definition opt_name : list Z := [0x6E; 0x61; 0x6D; 0x65; 0x3D].
Definition opt_size : list Z := [0x73; 0x69; 0x7A; 0x65; 0x3D].

(** ** Parsing *)

Definition valid_option (s : list Z) : bool := has_prefix_ci opt_name s || has_prefix_ci opt_size s.

(** Every separator is followed by an option. *)
Fixpoint options_after_separators (s : list Z) : bool :=
  match s with
  | [] => true
  | c :: s' => (if c =? char_slash then valid_option s' else true) && options_after_separators s'
  end.

Definition index_criteria_contains_invalid_options (str : option (list Z)) : bool :=
  match str with
  | None => false
  | Some str =>
    if (length str <? 5)%nat then true
    else if negb (valid_option str) then true
    else negb (options_after_separators (drop 1 str))
  end.

Inductive find_result :=
| Found (start : list Z) (len : nat)   (** [*start] and [*end - *start] *)
| NotFound (error : bool).             (** [error]: [*error] was set *)

(** The walk to the first match behind a separator. *)
Fixpoint find_behind_separator (substr : list Z) (prev : Z) (s : list Z) : option (list Z) :=
  if has_prefix_ci substr s && (prev =? char_slash) then Some s
  else match s with
       | [] => None
       | c :: s' => find_behind_separator substr c s'
       end.

Definition find_start (substr str : list Z) : option (list Z) :=
  if has_prefix_ci substr str then Some str
  else match str with
       | [] => None
       | c :: s' => find_behind_separator substr c s'
       end.

(** The length of the option: up to the next separator. *)
Fixpoint option_len (s : list Z) : nat :=
  match s with
  | [] => O
  | c :: s' => if c =? char_slash then O else S (option_len s')
  end.

(** [fuel] counts recursive calls; each works on a strictly shorter string. *)
Fixpoint index_criteria_find_option (fuel : nat) (str substr : list Z) : find_result :=
  match fuel with
  | O => NotFound false
  | S fuel' =>
    if (length str <? 5)%nat then NotFound false
    else match find_start substr str with
         | None => NotFound false
         | Some start =>
           let n := option_len start in
           match index_criteria_find_option fuel' (drop n start) substr with
           | Found _ _ => NotFound true
           | NotFound _ => Found start n
           end
         end
  end.

Definition find_option (str substr : list Z) : find_result :=
  index_criteria_find_option (S (length str)) str substr.

(** [struct index_criteria]. *)
Record index_criteria := mk_criteria {
  have_criteria : bool;
  max_filesize_criteria : Z;
  glob_patterns : option (list ltfs_name);
  glob_cache : option (list (list Z))
}.

#[export] Instance eta_criteria : Eta index_criteria := fun c =>
  mk_criteria (have_criteria c) (max_filesize_criteria c) (glob_patterns c) (glob_cache c).

Fixpoint adjacent_alphas (s : list Z) : bool :=
  match s with
  | c :: ((c' :: _) as s') => (isalpha c && isalpha c') || adjacent_alphas s'
  | _ => false
  end.

Definition size_multiplier (last : Z) : option Z :=
  if (last =? 0x6B) || (last =? 0x4B) then Some 1024
  else if (last =? 0x6D) || (last =? 0x4D) then Some (1024 * 1024)
  else if (last =? 0x67) || (last =? 0x47) then Some (1024 * 1024 * 1024)
  else None.

(** [rule] after the suffix letter has been dealt with. *)
Definition parse_number (rule : list Z) (multiplier : Z) (ic : index_criteria) : Z * index_criteria :=
  match rule with
  | [] => (- LTFS_POLICY_INVALID, ic)
  | c :: _ =>
    if negb (isdigit c) then (- LTFS_POLICY_INVALID, ic)
    else (0, ic <| max_filesize_criteria := u64 (strtoull rule * multiplier) |>)
  end.

(** [len] is one more than the length of the option.  An empty number makes the
    code read [rule[-1]]. *)
Definition index_criteria_parse_size (criteria : list Z) (len : nat) (ic : index_criteria) :
    option (Z * index_criteria) :=
  if (len <=? 5)%nat then Some (- LTFS_POLICY_INVALID, ic)
  else
    let rule := take (len - 6) (drop 5 criteria) in
    if adjacent_alphas rule then Some (- LTFS_POLICY_INVALID, ic)
    else match last rule with
         | None => None
         | Some l =>
           if isalpha l then
             match size_multiplier l with
             | None => Some (- LTFS_POLICY_INVALID, ic)
             | Some m => Some (parse_number (take (length rule - 1) rule) m ic)
             end
           else Some (parse_number rule 1 ic)
         end.

(** The loop that looks for empty names, behind the first character. *)
Fixpoint no_empty_rule (prev : Z) (s : list Z) : bool :=
  match s with
  | [] => true
  | c :: s' =>
    if (c =? ch_colon) && ((prev =? ch_colon) || bool_decide (s' = [])) then false
    else no_empty_rule c s'
  end.

(** The loop that assigns the names; [rule] is the text of the current one so
    far.  (A ['/'] does not occur: the option ends at the first one.) *)
Fixpoint assign_rules (rule s : list Z) : list (list Z) :=
  match s with
  | [] => []
  | c :: s' =>
    if c =? ch_colon then rule :: assign_rules [] s'
    else if bool_decide (s' = []) then [rule ++ [c]]
    else assign_rules (rule ++ [c]) s'
  end.

Section Criteria.
(** [pathname_validate_file] and [pathname_prepare_caseless] of [pathname.c],
    and the character break iterator of ICU. *)
Context (pathname_validate_file : list Z -> Z)
        (pathname_prepare_caseless : list Z -> Z + list Z)
        (graphemes : list Z -> list (list Z)).

(** The names stored up to the first one whose [strdup] fails. *)
Fixpoint store_names (dup_ok : nat -> bool) (i : nat) (l : list (list Z)) : list ltfs_name :=
  match l with
  | [] => []
  | n :: l' =>
    if dup_ok i then mk_name (fs_is_percent_encode_required n) n :: store_names dup_ok (S i) l'
    else []
  end.

Fixpoint validate_names (l : list ltfs_name) : Z :=
  match l with
  | [] => 0
  | n :: l' => let ret := pathname_validate_file (name n) in if ret =? 0 then validate_names l' else ret
  end.

(** An empty list of names makes the code read the byte behind the
    terminator, which is not set. *)
Definition index_criteria_parse_name (calloc_ok : bool) (dup_ok : nat -> bool)
    (criteria : list Z) (len : nat) (ic : index_criteria) : option (Z * index_criteria) :=
  let rule := take (len - 1) criteria in
  match drop 5 rule with
  | [] => None
  | c :: s =>
    if (c =? ch_colon) || negb (no_empty_rule c s) then Some (- LTFS_POLICY_EMPTY_RULE, ic)
    else if negb calloc_ok then Some (- LTFS_NO_MEMORY, ic <| glob_patterns := None |>)
    else
      let names := store_names dup_ok 0 (assign_rules [] (c :: s)) in
      Some (validate_names names, ic <| glob_patterns := Some names |>)
  end.

Definition index_criteria_free (ic : index_criteria) : index_criteria :=
  if have_criteria ic then mk_criteria false 0 None None else ic.

Definition index_criteria_parse (calloc_ok : bool) (dup_ok : nat -> bool)
    (filterrules : option (list Z)) (ic : index_criteria) : option (Z * index_criteria) :=
  match filterrules with
  | None => Some (0, ic <| have_criteria := false |>)
  | Some rules =>
    let ic := (index_criteria_free ic) <| have_criteria := true |> in
    if index_criteria_contains_invalid_options (Some rules) then Some (- LTFS_POLICY_INVALID, ic)
    else
      let parse_size has_name ic :=
        let ic := ic <| max_filesize_criteria := 0 |> in
        match find_option rules opt_size with
        | Found start len => index_criteria_parse_size start (len + 1) ic
        | NotFound error =>
          if error || has_name then Some (- LTFS_POLICY_INVALID, ic) else Some (0, ic)
        end in
      match find_option rules opt_name with
      | Found start len =>
        '(ret, ic) ← index_criteria_parse_name calloc_ok dup_ok start (len + 1) ic;
        if ret <? 0 then Some (ret, ic) else parse_size true ic
      | NotFound error =>
        if error then Some (- LTFS_POLICY_INVALID, ic) else parse_size false ic
      end
  end.

(** [struct index_criteria] of the medium and the active one; copying fails
    when an allocation does, which leaves the destination unusable: [None]. *)
Fixpoint dup_names (dup_ok : nat -> bool) (i : nat) (l : list ltfs_name) : option (list ltfs_name) :=
  match l with
  | [] => Some []
  | n :: l' => if dup_ok i then ns ← dup_names dup_ok (S i) l'; Some (n :: ns) else None
  end.

Definition index_criteria_dup_rules (calloc_ok : bool) (dup_ok : nat -> bool)
    (src_ic : index_criteria) : Z * option index_criteria :=
  let dest_ic := src_ic <| glob_cache := None |> in
  match have_criteria src_ic, glob_patterns src_ic with
  | true, Some l =>
    if negb calloc_ok then (- LTFS_NO_MEMORY, None)
    else match dup_names dup_ok 0 l with
         | None => (- LTFS_NO_MEMORY, None)
         | Some l' => (0, Some (dest_ic <| glob_patterns := Some l' |>))
         end
  | _, _ => (0, Some dest_ic)
  end.

Definition index_criteria_get_max_filesize (ic : index_criteria) : Z :=
  if have_criteria ic then max_filesize_criteria ic else 0.

(** ** Matching *)

Definition is_asterisk (c : list Z) : bool := bool_decide (c = [0x2a]).
Definition is_question (c : list Z) : bool := bool_decide (c = [0x3f]).

(** [! _char_compare]. *)
Fixpoint units_equal (a b : list Z) : bool :=
  match a, b with
  | [], _ => true
  | x :: a', y :: b' => (x =? y) && units_equal a' b'
  | _ :: _, [] => false
  end.
Definition same_char (a b : list Z) : bool := (length a =? length b)%nat && units_equal a b.

Definition accepts (c x : list Z) : bool := is_question c || same_char c x.

(** The stack of [_push_ustack], bottom first: pushing on a stack of one or
    more elements makes the new element the successor of the bottom one. *)
Definition _push_ustack {A} (stack : list A) (element : A) : list A :=
  match stack with
  | [] => [element]
  | bottom :: _ => [bottom; element]
  end.

Definition _pop_ustack {A} (stack : list A) : option (list A * A) :=
  match stack with
  | [] => None
  | [top] => Some ([], top)
  | bottom :: rest => match last rest with
                      | Some top => Some (bottom :: take (length rest - 1) rest, top)
                      | None => None
                      end
  end.

(** Consume sequential asterisks; [None] when the pattern ends with one. *)
Fixpoint eat_asterisks (cr : list (list Z)) (have_asterisk : bool) : option (list (list Z) * bool) :=
  match cr with
  | [] => Some ([], have_asterisk)
  | c :: cr' =>
    if is_asterisk c then
      match cr' with [] => None | _ => eat_asterisks cr' true end
    else Some (cr, have_asterisk)
  end.

Record glob_state := mk_glob {
  g_cr : list (list Z);
  g_fi : list (list Z);
  g_asterisk : bool;
  g_stack : list (list (list Z) * list (list Z))
}.

(** Go back to the last position an asterisk may still extend over. *)
Definition backtrack (stack : list (list (list Z) * list (list Z))) : glob_state + Z :=
  match _pop_ustack stack with
  | None => inr 0
  | Some (stack, (cr, fi)) => inl (mk_glob cr (drop 1 fi) true stack)
  end.

(** One turn of the inner loop, with the decision behind it when it ends;
    [alloc_ok] is the outcome of the allocation of a stack element. *)
Definition glob_step (alloc_ok : bool) (g : glob_state) : glob_state + Z :=
  match g_cr g with
  | [] => match g_fi g with [] => inr 1 | _ => backtrack (g_stack g) end
  | _ =>
    match eat_asterisks (g_cr g) (g_asterisk g) with
    | None => inr 1
    | Some (cr, have_asterisk) =>
      match cr, g_fi g with
      | c :: cr', x :: fi' =>
        if have_asterisk then
          if accepts c x then
            if negb alloc_ok then inr 0
            else inl (mk_glob cr' fi' false (_push_ustack (g_stack g) (cr, x :: fi')))
          else inl (mk_glob cr fi' true (g_stack g))
        else if accepts c x then inl (mk_glob cr' fi' false (g_stack g))
        else backtrack (g_stack g)
      | _, _ => backtrack (g_stack g)
      end
    end
  end.

(** [allocs n] is the outcome of the allocation in the turn with [n] turns
    left. *)
Fixpoint glob_run (fuel : nat) (allocs : nat -> bool) (g : glob_state) : option Z :=
  match fuel with
  | O => None
  | S fuel' =>
    match glob_step (allocs fuel') g with
    | inr r => Some r
    | inl g' => glob_run fuel' allocs g'
    end
  end.

Definition _matches_name_criteria_caseless (fuel : nat) (allocs : nat -> bool)
    (criteria filename : list (list Z)) : option Z :=
  match criteria, filename with
  | [], [] => Some 1
  | [], _ => Some 0
  | _, _ => glob_run fuel allocs (mk_glob criteria filename false [])
  end.

(** The prepared patterns up to the first failure, and its code. *)
Fixpoint prepare_patterns (l : list ltfs_name) : Z * list (list Z) :=
  match l with
  | [] => (0, [])
  | n :: l' =>
    match pathname_prepare_caseless (name n) with
    | inl ret => (ret, [])
    | inr u => let '(ret, us) := prepare_patterns l' in (ret, u :: us)
    end
  end.

Definition _prepare_glob_cache (calloc_ok : bool) (patterns : list ltfs_name)
    (ic : index_criteria) : Z * index_criteria :=
  if negb calloc_ok then (- LTFS_NO_MEMORY, ic <| glob_cache := None |>)
  else let '(ret, us) := prepare_patterns patterns in (ret, ic <| glob_cache := Some us |>).

(** The loop over the patterns. *)
Fixpoint any_match (fuel : nat) (allocs : nat -> bool) (globs : list (list Z))
    (dname : list (list Z)) : option bool :=
  match globs with
  | [] => Some false
  | g :: globs' =>
    m ← _matches_name_criteria_caseless fuel allocs (graphemes g) dname;
    if 0 <? m then Some true else any_match fuel allocs globs' dname
  end.

(** The match proper, with the prepared patterns at hand.  A negative error code
    returned as a [bool] is [true]. *)
Definition match_with_cache (fuel : nat) (allocs : nat -> bool) (dname : list Z)
    (cache : list (list Z)) : option bool :=
  match pathname_prepare_caseless dname with
  | inl _ => Some true
  | inr u => any_match fuel allocs cache (graphemes u)
  end.

Definition index_criteria_match (fuel : nat) (calloc_ok : bool) (allocs : nat -> bool)
    (dname : list Z) (ic : index_criteria) : option (bool * index_criteria) :=
  if negb (have_criteria ic) || (max_filesize_criteria ic =? 0) then Some (false, ic)
  else
    match glob_patterns ic with
    | None => Some (true, ic)
    | Some patterns =>
      match glob_cache ic with
      | Some cache => r ← match_with_cache fuel allocs dname cache; Some (r, ic)
      | None =>
        let '(ret, ic) := _prepare_glob_cache calloc_ok patterns ic in
        if ret <? 0 then Some (true, ic)
        else r ← match_with_cache fuel allocs dname (default [] (glob_cache ic)); Some (r, ic)
      end
    end.
End Criteria.
