(* ===== verification/CriteriaProps.v ===== *)
(** * The placement rules do what they say

    The matcher finds exactly the names that its pattern describes, always
    terminates, and needs no more than the two stack slots that
    [_push_ustack] really keeps; a well-formed rule string is parsed into the
    names and the size it lists. *)

From S2P Require Import Prelude LtfsError Journal Criteria.

(** ** What a pattern describes *)

Abbreviation cluster := (list Z).

Inductive glob : list cluster -> list cluster -> Prop :=
| glob_nil : glob [] []
| glob_char c x p s :
    is_asterisk c = false -> accepts c x = true -> glob p s -> glob (c :: p) (x :: s)
| glob_star c p s t :
    is_asterisk c = true -> t `suffix_of` s -> glob p t -> glob (c :: p) s.

Definition star : cluster := [0x2a].

Lemma star_is_asterisk : is_asterisk star = true.
Proof. reflexivity. Qed.

Lemma is_asterisk_true c : is_asterisk c = true -> c = star.
Proof. apply bool_decide_eq_true_1. Qed.

Lemma glob_nil_inv s : glob [] s <-> s = [].
Proof. split; [by inversion 1|intros ->; constructor]. Qed.

Lemma glob_char_inv c p s : is_asterisk c = false ->
  glob (c :: p) s <-> exists x s', s = x :: s' /\ accepts c x = true /\ glob p s'.
Proof.
  intros Hc. split.
  - inversion 1; subst; [eauto|congruence].
  - intros (x & s' & -> & H1 & H2). by constructor.
Qed.

Lemma glob_star_inv p s : glob (star :: p) s <-> exists t, t `suffix_of` s /\ glob p t.
Proof.
  split.
  - inversion 1; subst; [by rewrite star_is_asterisk in *|eauto].
  - intros (t & H1 & H2). by apply (glob_star _ _ _ t).
Qed.

Lemma suffix_cons_cases {A} (t s : list A) x :
  t `suffix_of` (x :: s) -> t = x :: s \/ t `suffix_of` s.
Proof. intros [[|y k] H]; [by left|]. injection H as -> ->. right. by exists k. Qed.

(** A leading asterisk absorbs more of a longer name. *)
Lemma glob_star_longer p s s' : s `suffix_of` s' -> glob (star :: p) s -> glob (star :: p) s'.
Proof.
  rewrite !glob_star_inv. intros Hs (t & Ht & H). exists t. split; [by etrans|done].
Qed.

Lemma glob_star_star p s : glob (star :: star :: p) s <-> glob (star :: p) s.
Proof.
  rewrite glob_star_inv. split.
  - intros (t & Ht & H). by eapply glob_star_longer.
  - intros H. by exists s.
Qed.

(** Behind an asterisk, a character and the rest of the pattern. *)
Lemma glob_star_char c p x s : is_asterisk c = false ->
  glob (star :: c :: p) (x :: s) -> glob (star :: p) s.
Proof.
  intros Hc. rewrite !glob_star_inv. intros (t & Ht & H).
  apply glob_char_inv in H as (y & t' & -> & _ & H); [|done].
  exists t'. split; [|done]. apply suffix_cons_cases in Ht as [[= -> ->]|Ht]; [done|].
  etrans; [|exact Ht]. by apply suffix_cons_r.
Qed.

Lemma glob_star_unfold c p x s : is_asterisk c = false ->
  glob (star :: c :: p) (x :: s) <->
  (accepts c x = true /\ glob p s) \/ glob (star :: c :: p) s.
Proof.
  intros Hc. split.
  - rewrite !glob_star_inv. intros (t & Ht & H). apply suffix_cons_cases in Ht as [->|Ht].
    + apply glob_char_inv in H as (y & t' & [= <- <-] & H); [|done]. by left.
    + right. by exists t.
  - intros [[H1 H2]|H].
    + apply glob_star_inv. exists (x :: s). split; [done|]. by constructor.
    + eapply glob_star_longer; [|exact H]. by apply suffix_cons_r.
Qed.

Lemma glob_star_empty c p : is_asterisk c = false -> ~ glob (star :: c :: p) [].
Proof.
  intros Hc. rewrite glob_star_inv. intros (t & Ht & H).
  apply suffix_nil_inv in Ht as ->. apply glob_char_inv in H as (? & ? & ? & _); done.
Qed.

(** ** The machine *)

(** What the current position still has to match, and what is left to try from
    a stack element: the asterisk before it takes at least one more character. *)
Definition cur (g : glob_state) : Prop :=
  if g_asterisk g then glob (star :: g_cr g) (g_fi g) else glob (g_cr g) (g_fi g).

Definition alt (e : list cluster * list cluster) : Prop := glob (star :: e.1) (drop 1 e.2).

(** A leading asterisk has been consumed only when a character follows it. *)
Definition asterisk_ok (cr : list cluster) (have_asterisk : bool) : Prop :=
  have_asterisk = true -> exists c cr', cr = c :: cr' /\ is_asterisk c = false.

Lemma eat_asterisks_none cr a fi : eat_asterisks cr a = None -> glob cr fi /\ glob (star :: cr) fi.
Proof.
  revert a. induction cr as [|c cr IH]; intros a H; [done|]. cbn in H.
  destruct (is_asterisk c) eqn:E; [|done]. apply is_asterisk_true in E as ->.
  rewrite glob_star_star. destruct cr as [|c' cr]; [|by split; eapply IH].
  split; apply glob_star_inv; exists []; (split; [apply suffix_nil|constructor]).
Qed.

Lemma eat_asterisks_some cr a cr' a' fi : asterisk_ok cr a -> cr <> [] ->
  eat_asterisks cr a = Some (cr', a') ->
  (exists c r, cr' = c :: r /\ is_asterisk c = false) /\
  (cur (mk_glob cr fi a []) <-> cur (mk_glob cr' fi a' [])) /\
  (glob (star :: cr) fi -> glob (star :: cr') fi).
Proof.
  revert a. induction cr as [|c cr IH]; intros a Ha Hne H; [done|]. cbn in H.
  destruct (is_asterisk c) eqn:E.
  - destruct a; [destruct (Ha eq_refl) as (? & ? & [= <- <-] & ?); congruence|].
    destruct cr as [|c' cr]; [done|]. apply is_asterisk_true in E as ->.
    destruct (is_asterisk c') eqn:E'.
    + destruct (IH false) as (H1 & H2 & H3); [done|done| |].
      { cbn in H |- *. rewrite E' in *. destruct cr; [done|exact H]. }
      split; [exact H1|]. apply is_asterisk_true in E' as ->.
      unfold cur in *. cbn [g_asterisk g_cr g_fi] in *. rewrite !glob_star_star. rewrite glob_star_star in H3. tauto.
    + cbn in H. rewrite E' in H. injection H as <- <-. split; [by eauto|].
      unfold cur. cbn. rewrite glob_star_star. tauto.
  - injection H as <- <-. split; [by eauto|]. split; tauto.
Qed.

Section Invariant.
Context (P S : list cluster).

(** The stack never holds more than its bottom and its top.  Only the top is
    needed: whatever could still be matched from an older position is also
    matched from a newer one. *)
Record glob_inv (g : glob_state) : Prop := {
  inv_asterisk : asterisk_ok (g_cr g) (g_asterisk g);
  inv_sound : cur g -> glob P S;
  inv_complete : glob P S -> cur g \/ exists e, last (g_stack g) = Some e /\ alt e;
  inv_alts : Forall (fun e => (alt e -> glob P S) /\
    exists c r, e.1 = c :: r /\ is_asterisk c = false) (g_stack g);
  inv_top e : last (g_stack g) = Some e -> alt e -> glob (star :: g_cr g) (g_fi g);
  inv_bottom b e : g_stack g = [b; e] -> alt b -> cur g \/ alt e;
  inv_small : (length (g_stack g) <= 2)%nat
}.

(** The result of a turn; a failed allocation may miss a match. *)
Definition turn_ok (alloc_ok : bool) (r : glob_state + Z) : Prop :=
  match r with
  | inl g => glob_inv g
  | inr r => (r = 1 /\ glob P S) \/ (r = 0 /\ (alloc_ok = true -> ~ glob P S))
  end.

Lemma small_stack {A} (l : list A) : (length l <= 2)%nat ->
  l = [] \/ (exists x, l = [x]) \/ (exists x y, l = [x; y]).
Proof. destruct l as [|x [|y [|]]]; cbn; [auto|eauto|eauto|lia]. Qed.

Lemma backtrack_ok a g : glob_inv g -> ~ cur g -> turn_ok a (backtrack (g_stack g)).
Proof.
  intros I Hc. pose proof (inv_complete g I) as C. pose proof (inv_alts g I) as A.
  pose proof (inv_bottom g I) as B.
  destruct (small_stack _ (inv_small g I)) as [E|[[e E]|(b & e & E)]]; rewrite E in *; cbn.
  - right. split; [done|]. intros _ H. destruct (C H) as [?|(? & [=] & _)]. done.
  - inversion A as [|?? [H1 (c & r & H2 & H3)] _]; subst. destruct e as [cr fi]. cbn in H2 |- *. subst.
    split; cbn; try done; [by eexists _, _| |lia].
    intros H. destruct (C H) as [?|(? & [= <-] & ?)]; [done|]. by left.
  - inversion A as [|?? [Hb (cb & rb & Hb2 & Hb3)] A']; subst.
    inversion A' as [|?? [H1 (c & r & H2 & H3)] _]; subst.
    destruct e as [cr fi]. cbn in H2 |- *. subst. cbn.
    split; cbn; try done; [by eexists _, _|..|lia].
    + intros H. destruct (C H) as [?|(? & [= <-] & ?)]; [done|]. by left.
    + constructor; [|constructor]. by eauto.
    + intros ? [= <-] H. destruct (B _ _ eq_refl H); [done|exact H0].
Qed.

(** One turn once the asterisks are consumed. *)
Lemma glob_char_turn alloc_ok c r fi a stack : is_asterisk c = false ->
  glob_inv (mk_glob (c :: r) fi a stack) ->
  turn_ok alloc_ok
    (match fi with
     | x :: fi' =>
       if a then
         if accepts c x then
           if negb alloc_ok then inr 0
           else inl (mk_glob r fi' false (_push_ustack stack (c :: r, x :: fi')))
         else inl (mk_glob (c :: r) fi' true stack)
       else if accepts c x then inl (mk_glob r fi' false stack)
       else backtrack stack
     | [] => backtrack stack
     end).
Proof.
  intros Hc I. destruct fi as [|x fi].
  { apply (backtrack_ok _ _ I). unfold cur. cbn. destruct a; [by apply glob_star_empty|].
    rewrite glob_char_inv by done. intros (? & ? & ? & _). done. }
  pose proof (inv_sound _ I) as Sd. pose proof (inv_complete _ I) as C. pose proof (inv_top _ I) as T.
  pose proof (inv_bottom _ I) as B. unfold cur in Sd, C, B. cbn in Sd, C, T, B.
  assert (forall s', glob (star :: c :: r) (x :: s') -> glob (star :: r) s') as Next
    by (intros s'; by apply glob_star_char).
  destruct a.
  - destruct (accepts c x) eqn:E; [destruct alloc_ok|]; cbn.
    + assert (glob (star :: c :: r) (x :: fi) <-> glob r fi \/ glob (star :: c :: r) fi) as U.
      { rewrite glob_star_unfold by done. tauto. }
      assert (glob P S -> glob (star :: c :: r) (x :: fi)) as C'.
      { intros H. destruct (C H) as [?|(e & Hl & He)]; [done|]. by apply (T e). }
      assert (forall b, head stack = Some b -> alt b -> glob (star :: c :: r) (x :: fi)) as Hd.
      { intros b Hb Ha. pose proof (inv_small _ I) as Hs. cbn in Hs.
        destruct (small_stack _ Hs) as [->|[[e ->]|(b' & e & ->)]]; [done| |].
        - injection Hb as <-. by apply (T e).
        - injection Hb as <-. destruct (B _ _ eq_refl Ha) as [?|He]; [done|]. by apply (T e). }
      split; cbn.
      * done.
      * intros H. apply Sd, U. by left.
      * intros H. apply C', U in H as [H|H]; [by left|]. right. exists (c :: r, x :: fi).
        split; [|exact H]. by destruct stack.
      * assert ((alt (c :: r, x :: fi) -> glob P S) /\
          exists c' r', (c :: r, x :: fi).1 = c' :: r' /\ is_asterisk c' = false) as New.
        { split; [|by eexists _, _]. intros H. apply Sd, U. by right. }
        pose proof (inv_alts _ I) as A. cbn in A.
        destruct stack as [|b stack]; cbn; [constructor; [done|constructor]|].
        inversion A; subst. constructor; [done|]. constructor; [done|constructor].
      * intros e He H. assert (e = (c :: r, x :: fi)) as -> by (destruct stack; cbn in He; congruence).
        unfold alt in H. cbn in H. apply Next.
        eapply glob_star_longer; [|exact H]. by apply suffix_cons_r.
      * intros b e He H. destruct stack as [|b' stack]; [done|]. injection He as <- <-.
        apply (Hd b' eq_refl), U in H. exact H.
      * destruct stack; cbn; lia.
    + right. split; [done|]. done.
    + assert (glob (star :: c :: r) (x :: fi) <-> glob (star :: c :: r) fi) as U.
      { rewrite glob_star_unfold by done. rewrite E. split; [intros [[? _]|?]; done|by right]. }
      split; unfold cur; cbn; rewrite <- ?U; [exact (inv_asterisk _ I)|exact Sd|exact C|
        exact (inv_alts _ I)|intros e He H; apply U; by apply (T e)|
        intros b e He H; rewrite <- U; by apply (B b e)|exact (inv_small _ I)].
  - destruct (accepts c x) eqn:E; cbn.
    + assert (glob (c :: r) (x :: fi) <-> glob r fi) as U.
      { rewrite glob_char_inv by done.
        split; [intros (? & ? & [= <- <-] & _ & ?); done|intros ?; by eexists _, _]. }
      split; unfold cur; cbn; rewrite <- ?U; [done|exact Sd|exact C|exact (inv_alts _ I)| |
        intros b e He H; rewrite <- U; by apply (B b e)|exact (inv_small _ I)].
      intros e He H. apply Next. by apply (T e).
    + apply (backtrack_ok _ _ I). unfold cur. cbn. rewrite glob_char_inv by done.
      intros (? & ? & [= <- <-] & ? & _). congruence.
Qed.

Lemma glob_step_ok alloc_ok g : glob_inv g -> turn_ok alloc_ok (glob_step alloc_ok g).
Proof.
  intros I. unfold glob_step. destruct g as [cr fi a stack]. cbn [g_cr g_fi g_asterisk g_stack].
  pose proof (inv_asterisk _ I) as Ha. cbn in Ha. destruct cr as [|c0 cr0].
  - destruct a; [destruct (Ha eq_refl) as (? & ? & ? & _); done|].
    destruct fi as [|x fi].
    + left. split; [done|]. apply (inv_sound _ I). constructor.
    + apply (backtrack_ok _ _ I). unfold cur. cbn. by rewrite glob_nil_inv.
  - destruct (eat_asterisks (c0 :: cr0) a) as [[cr a']|] eqn:E.
    + destruct (eat_asterisks_some _ _ _ _ fi Ha ltac:(done) E) as ((c & r & -> & Hc) & H1 & H2).
      apply glob_char_turn; [done|].
      assert (cur (mk_glob (c0 :: cr0) fi a stack) <-> cur (mk_glob (c :: r) fi a' stack)) as H1' by exact H1.
      split; rewrite <- ?H1'; [intros _; by eexists _, _|exact (inv_sound _ I)|
        exact (inv_complete _ I)|exact (inv_alts _ I)| | |exact (inv_small _ I)].
      * intros e He H. apply H2. by apply (inv_top _ I e).
      * intros b e. rewrite <- H1'. apply (inv_bottom _ I b e).
    + left. split; [done|]. apply (inv_sound _ I). unfold cur. cbn.
      destruct (eat_asterisks_none _ _ fi E). by destruct a.
Qed.
End Invariant.

(** ** Termination

    The turns left are bounded by the number of characters left at the current
    position and behind the positions on the stack. *)

Definition turns0 (k : nat) : nat := ((k + 1) * (k + 1) * (k + 1))%nat.
Definition turns1 (k1 k : nat) : nat := ((k + 1) * (k + 1) + turns0 k1)%nat.
Definition turns2 (k1 k2 k : nat) : nat := (k + 1 + turns1 k1 k2)%nat.

Definition left_behind (e : list cluster * list cluster) : nat := (length e.2 - 1)%nat.

Definition turns (g : glob_state) : nat :=
  match g_stack g with
  | [] => turns0 (length (g_fi g))
  | [b] => turns1 (left_behind b) (length (g_fi g))
  | b :: e :: _ => turns2 (left_behind b) (left_behind e) (length (g_fi g))
  end.

(** The current position is behind those on the stack, whose top is bottom or
    second. *)
Definition stack_small (g : glob_state) : Prop :=
  match g_stack g with
  | [] => True
  | [b] => (length (g_fi g) <= left_behind b)%nat
  | [b; e] => (length (g_fi g) <= left_behind e)%nat /\ (left_behind e <= left_behind b)%nat
  | _ => False
  end.

Lemma turns0_S k : (turns0 (S k) >= turns0 k + (k + 1) * (k + 1) + 1)%nat.
Proof. unfold turns0. nia. Qed.

Lemma backtrack_turns stack g' : (match stack with _ :: _ :: _ :: _ => False | _ => True end) ->
  (match stack with [b; e] => (left_behind e <= left_behind b)%nat | _ => True end) ->
  backtrack stack = inl g' ->
  stack_small g' /\
  (turns g' < match stack with
              | [] => 0 | [b] => turns1 (left_behind b) 0
              | b :: e :: _ => turns2 (left_behind b) (left_behind e) 0 end)%nat.
Proof.
  intros Hs Hle H. unfold backtrack in H.
  destruct stack as [|b [|e [|]]]; [done| | |done]; cbn in H.
  - destruct b as [cr fi]. injection H as <-. unfold stack_small, turns, left_behind, turns1. cbn.
    rewrite length_drop. split; [done|lia].
  - destruct e as [cr fi]. injection H as <-. unfold stack_small, turns, turns2. cbn.
    unfold left_behind in *. cbn in *. rewrite length_drop. split; [done|lia].
Qed.

Lemma turns_step alloc_ok g g' : stack_small g -> glob_step alloc_ok g = inl g' ->
  stack_small g' /\ (turns g' < turns g)%nat.
Proof.
  intros Hs H. destruct g as [cr fi a stack]. unfold glob_step in H.
  cbn [g_cr g_fi g_asterisk g_stack] in H.
  assert (backtrack stack = inl g' -> stack_small g' /\ (turns g' < turns (mk_glob cr fi a stack))%nat) as Back.
  { intros Hb. unfold stack_small in Hs. cbn in Hs.
    destruct (backtrack_turns stack g') as [H1 H2]; [..|done|].
    { by destruct stack as [|? [|? [|]]]. }
    { destruct stack as [|? [|? [|]]]; [done..| |done]. apply Hs. }
    split; [done|]. eapply Nat.lt_le_trans; [exact H2|].
    unfold turns. cbn. destruct stack as [|b [|e ?]]; unfold turns1, turns2; nia. }
  destruct cr as [|c0 cr0]; [destruct fi; [done|by apply Back]|].
  destruct (eat_asterisks (c0 :: cr0) a) as [[cr1 a']|]; [|done].
  destruct cr1 as [|c r]; [by apply Back|]. destruct fi as [|x fi]; [by apply Back|].
  assert (forall cr' a'', stack_small (mk_glob cr' fi a'' stack) /\
    (turns (mk_glob cr' fi a'' stack) < turns (mk_glob (c0 :: cr0) (x :: fi) a stack))%nat) as Fwd.
  { intros cr' a''. unfold stack_small, turns in *. cbn in *.
    pose proof (turns0_S (length fi)).
    destruct stack as [|b [|e [|]]]; unfold turns1, turns2; (split; [lia|nia]) || done. }
  destruct a'; [destruct (accepts c x); [destruct alloc_ok; [|done]|]|destruct (accepts c x)];
    cbn in H; [injection H as <-|injection H as <-; apply Fwd|injection H as <-; apply Fwd|by apply Back].
  clear Back Fwd. unfold stack_small, turns in *. cbn in *. pose proof (turns0_S (length fi)).
  destruct stack as [|b [|e [|]]]; cbn; [..|done].
  - unfold turns1, left_behind. cbn. rewrite Nat.sub_0_r. split; [lia|nia].
  - unfold turns2, turns1, left_behind in *. cbn. split; [lia|nia].
  - unfold turns2, turns1, left_behind in *. cbn. split; [lia|nia].
Qed.

Lemma glob_run_ok P S allocs fuel : forall g, glob_inv P S g -> stack_small g ->
  (turns g < fuel)%nat ->
  exists r, glob_run fuel allocs g = Some r /\ (r = 1 /\ glob P S \/ r = 0) /\
    ((forall n, allocs n = true) -> r = 0 -> ~ glob P S).
Proof.
  induction fuel as [|fuel IH]; intros g I Hs Hf; [lia|]. cbn [glob_run].
  pose proof (glob_step_ok P S (allocs fuel) g I) as T. pose proof (turns_step (allocs fuel) g) as D.
  destruct (glob_step (allocs fuel) g) as [g'|r].
  - destruct (D g' Hs eq_refl) as [Hs' Hlt]. apply IH; [exact T|exact Hs'|lia].
  - exists r. split; [done|]. destruct T as [[-> T]|[-> T]].
    + split; [by left|]. intros _ ?. done.
    + split; [by right|]. intros Ha _. apply T. apply Ha.
Qed.

Definition glob_fuel (filename : list cluster) : nat := S (turns0 (length filename)).

Lemma matches_ok fuel allocs p s : (glob_fuel s <= fuel)%nat ->
  exists r, _matches_name_criteria_caseless fuel allocs p s = Some r /\
    (r = 1 /\ glob p s \/ r = 0) /\ ((forall n, allocs n = true) -> r = 0 -> ~ glob p s).
Proof.
  intros Hf. unfold _matches_name_criteria_caseless.
  destruct p as [|c p].
  - destruct s; [exists 1|exists 0]; (split; [done|]).
    + split; [left; split; [done|constructor]|done].
    + split; [by right|]. intros _ _. by rewrite glob_nil_inv.
  - apply glob_run_ok; [|done|unfold turns, glob_fuel in *; cbn [g_stack g_fi]; lia].
    split; cbn; try done; [intros H; by left|lia].
Qed.

(** ** Parsing a well-formed rule *)

Definition no_slash (s : list Z) : Prop := Forall (fun c => c <> char_slash) s.

Fixpoint join (names : list (list Z)) : list Z :=
  match names with
  | [] => []
  | [n] => n
  | n :: names' => n ++ ch_colon :: join names'
  end.

(** A name in a rule: not empty, without separators. *)
Definition name_ok (n : list Z) : Prop := n <> [] /\ Forall (fun c => c <> ch_colon /\ c <> char_slash) n.

(** The text of a rule: [size=s], [size=s/name=n1:...:nk] or [name=n1:...:nk/size=s]. *)
Definition rule_text (size_first : bool) (names : list (list Z)) (size_text : list Z) : list Z :=
  match names with
  | [] => opt_size ++ size_text
  | _ => if size_first then (opt_size ++ size_text) ++ char_slash :: opt_name ++ join names
         else (opt_name ++ join names) ++ char_slash :: opt_size ++ size_text
  end.

(** A number with an optional unit. *)
Definition size_ok (size_text : list Z) (value : Z) : Prop :=
  exists ds unit m, size_text = ds ++ unit /\ ds <> [] /\ Forall (fun c => isdigit c = true) ds /\
    (unit = [] /\ m = 1 \/ exists u, unit = [u] /\ isalpha u = true /\ size_multiplier u = Some m) /\
    value = u64 (strtoull ds * m).

Lemma join_cons n names : names <> [] -> join (n :: names) = n ++ ch_colon :: join names.
Proof. by destruct names. Qed.

Lemma join_no_slash names : Forall name_ok names -> no_slash (join names).
Proof.
  induction 1 as [|n names [_ Hn] _ IH]; [constructor|].
  assert (no_slash n) by (eapply Forall_impl; [exact Hn|]; by intros ? [_ ?]).
  destruct names; [done|]. rewrite join_cons by done.
  apply Forall_app. split; [done|]. by constructor.
Qed.

Lemma options_after_no_slash s : no_slash s -> options_after_separators s = true.
Proof.
  induction 1 as [|c s Hc _ IH]; [done|]. cbn. by rewrite (proj2 (Z.eqb_neq c char_slash)), IH.
Qed.

Lemma options_after_app s s' : no_slash s -> options_after_separators (s ++ s') = options_after_separators s'.
Proof.
  induction 1 as [|c s Hc _ IH]; [done|]. cbn. by rewrite (proj2 (Z.eqb_neq c char_slash)), IH.
Qed.

Lemma find_behind_none substr s : forall prev, substr <> [] -> prev <> char_slash -> no_slash s ->
  find_behind_separator substr prev s = None.
Proof.
  intros prev Hs Hp H. revert prev Hp. induction H as [|c s Hc _ IH]; intros prev Hp; cbn.
  - destruct substr; [done|]. by rewrite (proj2 (Z.eqb_neq prev char_slash)).
  - rewrite (proj2 (Z.eqb_neq prev char_slash)), andb_false_r by done. by apply IH.
Qed.

Lemma find_behind_app substr s s' : forall prev, prev <> char_slash -> no_slash s ->
  find_behind_separator substr prev (s ++ char_slash :: s') =
  find_behind_separator substr char_slash s'.
Proof.
  intros prev Hp H. revert prev Hp. induction H as [|c s Hc _ IH]; intros prev Hp; cbn.
  - by rewrite (proj2 (Z.eqb_neq prev char_slash)), andb_false_r by done.
  - rewrite (proj2 (Z.eqb_neq prev char_slash)), andb_false_r by done. by apply IH.
Qed.

Lemma has_prefix_ci_app opt s : has_prefix_ci opt (opt ++ s) = true.
Proof. induction opt as [|c opt IH]; [done|]. cbn. by rewrite Z.eqb_refl, IH. Qed.

Lemma option_len_no_slash s s' : no_slash s -> (s' = [] \/ exists r, s' = char_slash :: r) ->
  option_len (s ++ s') = length s.
Proof.
  induction 1 as [|c s Hc _ IH]; intros Hs; cbn.
  - destruct Hs as [->|[r ->]]; [done|]. cbn. done.
  - rewrite (proj2 (Z.eqb_neq c char_slash)) by done. by rewrite IH.
Qed.

(** The names of the list are the ones that were joined. *)
Lemma assign_rules_name n : forall rule s, Forall (fun c => c <> ch_colon /\ c <> char_slash) n ->
  n <> [] -> s = [] \/ (exists r, s = ch_colon :: r) ->
  assign_rules rule (n ++ s) =
  match s with [] => [rule ++ n] | _ :: r => (rule ++ n) :: assign_rules [] r end.
Proof.
  induction n as [|c n IH]; intros rule s Hn Hne Hs; [done|].
  inversion Hn as [|?? [Hc _] Hn']; subst. cbn [app assign_rules].
  rewrite (proj2 (Z.eqb_neq c ch_colon)) by done.
  destruct n as [|c' n].
  - cbn [app]. destruct Hs as [->|[r ->]]; [done|]. cbn. done.
  - rewrite bool_decide_eq_false_2 by done. rewrite IH by done.
    replace (rule ++ c :: c' :: n) with ((rule ++ [c]) ++ c' :: n) by by rewrite <- app_assoc. done.
Qed.

Lemma assign_rules_join names : Forall name_ok names -> names <> [] ->
  assign_rules [] (join names) = names.
Proof.
  induction 1 as [|n names [Hn1 Hn2] Hns IH]; intros Hne; [done|].
  destruct names as [|n' names].
  - cbn. pose proof (assign_rules_name n [] [] Hn2 Hn1) as E. rewrite app_nil_r in E.
    rewrite E by by left. done.
  - rewrite join_cons by done. rewrite assign_rules_name by (done || right; by eexists).
    by rewrite IH.
Qed.

Lemma no_empty_rule_name n : Forall (fun c => c <> ch_colon /\ c <> char_slash) n ->
  forall prev, no_empty_rule prev n = true.
Proof.
  induction 1 as [|c n [Hc _] _ IH]; intros prev; [done|]. cbn.
  rewrite (proj2 (Z.eqb_neq c ch_colon)) by done. apply IH.
Qed.

Lemma no_empty_rule_next n r : Forall (fun c => c <> ch_colon /\ c <> char_slash) n -> r <> [] ->
  forall prev, n <> [] \/ prev <> ch_colon ->
  no_empty_rule prev (n ++ ch_colon :: r) = no_empty_rule ch_colon r.
Proof.
  intros Hn Hr. induction Hn as [|c n [Hc _] _ IH]; intros prev Hp; cbn.
  - destruct Hp as [?|Hp]; [done|].
    by rewrite (proj2 (Z.eqb_neq prev ch_colon)), bool_decide_eq_false_2 by done.
  - rewrite (proj2 (Z.eqb_neq c ch_colon)) by done. apply IH. by right.
Qed.

Lemma join_nonempty names : Forall name_ok names -> names <> [] ->
  exists c s, join names = c :: s /\ c <> ch_colon.
Proof.
  intros H Hne. destruct H as [|n names [Hn1 Hn2] H]; [done|].
  destruct n as [|c n]; [done|]. inversion Hn2 as [|?? [Hc _] _]; subst.
  destruct names; [by exists c, n|]. rewrite join_cons by done. by eexists c, _.
Qed.

Lemma no_empty_rule_join names : Forall name_ok names -> forall prev,
  no_empty_rule prev (join names) = true.
Proof.
  induction 1 as [|n names [Hn1 Hn2] Hns IH]; intros prev; [done|].
  destruct names as [|n' names]; [by apply no_empty_rule_name|].
  rewrite join_cons by done. destruct (join_nonempty (n' :: names)) as (c & s & E & _); [done|done|].
  rewrite no_empty_rule_next; [apply IH|done|by rewrite E|by left].
Qed.

(** One option of a rule, found where it stands. *)
Lemma find_option_single fuel str substr pre text : substr <> [] -> (2 <= fuel)%nat ->
  length substr = 5%nat -> find_start substr str = Some (substr ++ text) ->
  (5 <= length str)%nat -> no_slash (substr ++ text) -> str = pre ++ substr ++ text ->
  index_criteria_find_option fuel str substr = Found (substr ++ text) (length (substr ++ text)).
Proof.
  intros Hs Hf Hl E H5 Hn ->. destruct fuel as [|[|fuel]]; [lia..|].
  cbn [index_criteria_find_option]. rewrite (proj2 (Nat.ltb_ge _ _)) by lia. rewrite E.
  pose proof (option_len_no_slash _ [] Hn (or_introl eq_refl)) as L. rewrite app_nil_r in L.
  rewrite L, drop_all. done.
Qed.

Lemma digit_no_slash ds : Forall (fun c => isdigit c = true) ds -> no_slash ds.
Proof.
  intros H. eapply Forall_impl; [exact H|]. cbn. unfold isdigit, char_slash. lia.
Qed.

Lemma size_text_no_slash st v : size_ok st v -> no_slash st.
Proof.
  intros (ds & unit & m & -> & _ & Hd & Hu & _). apply Forall_app. split; [by apply digit_no_slash|].
  destruct Hu as [[-> _]|(u & -> & Hu & _)]; [constructor|]. constructor; [|constructor].
  unfold isalpha, char_slash in *. lia.
Qed.

Lemma adjacent_alphas_digits ds unit : Forall (fun c => isdigit c = true) ds ->
  (length unit <= 1)%nat -> adjacent_alphas (ds ++ unit) = false.
Proof.
  intros Hd Hu. induction Hd as [|d ds Hc Hd IH].
  - destruct unit as [|? [|]]; [done..|cbn in Hu; lia].
  - cbn [app]. assert (isalpha d = false) as Hda by (unfold isalpha, isdigit in *; lia).
    destruct (ds ++ unit) eqn:E; [done|]. cbn [adjacent_alphas]. by rewrite Hda.
Qed.

Lemma parse_size_ok st v tail ic : size_ok st v ->
  index_criteria_parse_size ((opt_size ++ st) ++ tail) (length (opt_size ++ st) + 1) ic =
  Some (0, ic <| max_filesize_criteria := v |>).
Proof.
  intros (ds & unit & m & -> & Hne & Hd & Hu & ->). unfold index_criteria_parse_size.
  rewrite (proj2 (Nat.leb_gt _ _)) by (rewrite length_app; cbn; lia).
  replace (length (opt_size ++ ds ++ unit) + 1 - 6)%nat with (length (ds ++ unit))
    by (rewrite (length_app opt_size); cbn; lia).
  change (drop 5 ((opt_size ++ ds ++ unit) ++ tail)) with ((ds ++ unit) ++ tail). rewrite take_app_length.
  rewrite adjacent_alphas_digits; [|done|destruct Hu as [[-> _]|(? & -> & _)]; cbn; lia].
  destruct ds as [|d ds]; [done|]. assert (isdigit d = true) as Hd0 by (by inversion Hd).
  destruct Hu as [[-> ->]|(u & -> & Ha & Hm)].
  - rewrite app_nil_r. destruct (last (d :: ds)) as [l|] eqn:E; [|by apply last_None in E].
    assert (isdigit l = true) as Hl.
    { apply last_Some in E as [l' E]. rewrite E in Hd. apply Forall_app in Hd as [_ Hd]. by inversion Hd. }
    assert (isalpha l = false) as -> by (unfold isalpha, isdigit in *; lia).
    cbn [parse_number]. by rewrite Hd0.
  - rewrite last_snoc, Ha, Hm.
    replace (length ((d :: ds) ++ [u]) - 1)%nat with (length (d :: ds)) by (rewrite length_app; cbn; lia).
    rewrite take_app_length. cbn [parse_number]. by rewrite Hd0.
Qed.

(** ** Finding the options of a rule *)

Lemma opt_name_no_slash : no_slash opt_name.
Proof. repeat constructor; discriminate. Qed.

Lemma opt_size_no_slash : no_slash opt_size.
Proof. repeat constructor; discriminate. Qed.

(** The two options, in either order. *)
Definition option_pair (a b : list Z) : Prop := a = opt_name /\ b = opt_size \/ a = opt_size /\ b = opt_name.

Lemma option_pair_no_slash a b x y : option_pair a b -> no_slash x -> no_slash y -> no_slash (a ++ x) /\ no_slash (b ++ y).
Proof.
  intros [[-> ->]|[-> ->]] Hx Hy; split; apply Forall_app; (split; [apply opt_name_no_slash || apply opt_size_no_slash|done]).
Qed.

Lemma option_valid a b x : option_pair a b -> valid_option (a ++ x) = true /\ valid_option (b ++ x) = true.
Proof.
  intros [[-> ->]|[-> ->]]; unfold valid_option; by rewrite !has_prefix_ci_app, ?orb_true_r.
Qed.

Lemma two_options_valid a b x y : option_pair a b -> no_slash x -> no_slash y ->
  index_criteria_contains_invalid_options (Some ((a ++ x) ++ char_slash :: b ++ y)) = false.
Proof.
  intros Hp Hx Hy. destruct (option_pair_no_slash a b x y Hp Hx Hy) as [Ha Hb]. unfold index_criteria_contains_invalid_options.
  assert (Hl : length a = 5%nat) by by destruct Hp as [[-> _]|[-> _]].
  rewrite (proj2 (Nat.ltb_ge _ _)) by (rewrite !length_app; lia). rewrite <- app_assoc. rewrite (proj1 (option_valid a b _ Hp)). cbn [negb].
  rewrite app_assoc, drop_app_le by (rewrite length_app; lia). rewrite options_after_app by by apply Forall_drop.
  cbn [options_after_separators]. rewrite Z.eqb_refl, (proj2 (option_valid a b y Hp)). cbn [andb]. by rewrite options_after_no_slash.
Qed.

(** The other option is not taken for the one that is looked for. *)
Lemma not_behind_separator a b y : option_pair a b -> no_slash y -> find_behind_separator a char_slash (b ++ y) = None.
Proof.
  intros Hp Hy.
  destruct Hp as [[-> ->]|[-> ->]];
    [change (find_behind_separator opt_name char_slash (opt_size ++ y)) with (find_behind_separator opt_name 0x73 ([0x69; 0x7A; 0x65; 0x3D] ++ y))
    |change (find_behind_separator opt_size char_slash (opt_name ++ y)) with (find_behind_separator opt_size 0x6E ([0x61; 0x6D; 0x65; 0x3D] ++ y))];
    (apply find_behind_none; [done|done|]); apply Forall_app; (split; [repeat constructor; discriminate|done]).
Qed.

Lemma find_first_option a b x y : option_pair a b -> no_slash x -> no_slash y ->
  find_option ((a ++ x) ++ char_slash :: b ++ y) a = Found ((a ++ x) ++ char_slash :: b ++ y) (length (a ++ x)).
Proof.
  intros Hp Hx Hy. destruct (option_pair_no_slash a b x y Hp Hx Hy) as [Ha Hb]. set (tail := char_slash :: b ++ y).
  assert (Hl : length a = 5%nat /\ length b = 5%nat) by by destruct Hp as [[-> ->]|[-> ->]].
  unfold find_option. set (fuel := length _).
  assert (exists f, fuel = S f) as [f ->] by (exists (fuel - 1)%nat; unfold fuel; rewrite !length_app; lia).
  cbn [index_criteria_find_option]. rewrite (proj2 (Nat.ltb_ge _ _)) by (rewrite !length_app; lia).
  assert (find_start a ((a ++ x) ++ tail) = Some ((a ++ x) ++ tail)) as ->.
  { unfold find_start. rewrite <- app_assoc. by rewrite has_prefix_ci_app. }
  rewrite option_len_no_slash, drop_app_length by (done || right; by eexists).
  rewrite (proj2 (Nat.ltb_ge _ _)) by (unfold tail; cbn; rewrite length_app; lia).
  assert (find_start a tail = None) as ->; [|done]. unfold find_start, tail.
  assert (has_prefix_ci a (char_slash :: b ++ y) = false) as -> by by destruct Hp as [[-> _]|[-> _]].
  by apply not_behind_separator.
Qed.

Lemma find_second_option a b x y : option_pair a b -> no_slash x -> no_slash y ->
  find_option ((a ++ x) ++ char_slash :: b ++ y) b = Found (b ++ y) (length (b ++ y)).
Proof.
  intros Hp Hx Hy. destruct (option_pair_no_slash a b x y Hp Hx Hy) as [Ha Hb].
  assert (Hl : length a = 5%nat /\ length b = 5%nat) by by destruct Hp as [[-> ->]|[-> ->]].
  apply find_option_single with ((a ++ x) ++ [char_slash]);
    [by destruct Hp as [[_ ->]|[_ ->]]|rewrite !length_app; lia|lia| |rewrite !length_app; lia|done|by rewrite <- !app_assoc].
  assert (Hfind : find_behind_separator b char_slash (b ++ y) = Some (b ++ y)).
  { unfold find_behind_separator. destruct (b ++ y) as [|c s] eqn:E; rewrite <- E, has_prefix_ci_app; done. }
  unfold find_start. destruct Hp as [[-> ->]|[-> ->]].
  - change (has_prefix_ci opt_size ((opt_name ++ x) ++ ?z)) with false.
    change ((opt_name ++ x) ++ ?z) with (0x6E :: ([0x61; 0x6D; 0x65; 0x3D] ++ x) ++ z). cbv iota.
    rewrite find_behind_app; [done|done|]. apply Forall_app. split; [repeat constructor; discriminate|done].
  - change (has_prefix_ci opt_name ((opt_size ++ x) ++ ?z)) with false.
    change ((opt_size ++ x) ++ ?z) with (0x73 :: ([0x69; 0x7A; 0x65; 0x3D] ++ x) ++ z). cbv iota.
    rewrite find_behind_app; [done|done|]. apply Forall_app. split; [repeat constructor; discriminate|done].
Qed.

(** A rule that is a size only. *)
Lemma one_option_valid st : no_slash st -> index_criteria_contains_invalid_options (Some (opt_size ++ st)) = false.
Proof.
  intros Hst. unfold index_criteria_contains_invalid_options. rewrite (proj2 (Nat.ltb_ge _ _)) by (rewrite length_app; cbn; lia).
  rewrite (proj2 (option_valid opt_name opt_size st (or_introl (conj eq_refl eq_refl)))). cbn [negb]. rewrite options_after_no_slash; [done|].
  apply Forall_drop, Forall_app. split; [apply opt_size_no_slash|done].
Qed.

Lemma find_only_size st : no_slash st ->
  find_option (opt_size ++ st) opt_size = Found (opt_size ++ st) (length (opt_size ++ st)) /\
  find_option (opt_size ++ st) opt_name = NotFound false.
Proof.
  intros Hst. assert (no_slash (opt_size ++ st)) as Hss by (apply Forall_app; split; [apply opt_size_no_slash|done]). split.
  - apply find_option_single with []; [done|rewrite length_app; cbn; lia|done| |rewrite length_app; cbn; lia|done|done].
    unfold find_start. by rewrite has_prefix_ci_app.
  - change (opt_size ++ st) with (0x73 :: [0x69; 0x7A; 0x65; 0x3D] ++ st).
    unfold find_option. cbn [length index_criteria_find_option].
    destruct (_ <? 5)%nat; [done|]. unfold find_start. cbn [has_prefix_ci opt_name app].
    change (tolower 110 =? tolower 115) with false. cbn [andb].
    rewrite (find_behind_none opt_name (105 :: 122 :: 101 :: 61 :: st)); [done|done|done|].
    apply (Forall_app _ [105; 122; 101; 61] st). split; [repeat constructor; discriminate|done].
Qed.

(** ** Rules and files together *)

Section Placement.
Context (validate : list Z -> Z) (prepare : list Z -> Z + list Z)
        (graphemes : list Z -> list (list Z)).

(** A freshly created or released structure holds no patterns. *)
Definition criteria_ok (ic : index_criteria) : Prop :=
  have_criteria ic = false -> glob_patterns ic = None /\ glob_cache ic = None.

Definition named (n : list Z) : ltfs_name := mk_name (fs_is_percent_encode_required n) n.

Lemma store_names_all dup_ok i l : (forall k, dup_ok k = true) ->
  store_names dup_ok i l = map named l.
Proof. intros H. revert i. induction l as [|n l IH]; intros i; [done|]. cbn. by rewrite H, IH. Qed.

Lemma validate_names_ok l : Forall (fun n => validate n = 0) l ->
  validate_names validate (map named l) = 0.
Proof. induction 1 as [|n l H _ IH]; [done|]. cbn. by rewrite H. Qed.

Lemma parse_name_ok dup_ok names tail ic : (forall k, dup_ok k = true) ->
  Forall name_ok names -> names <> [] -> Forall (fun n => validate n = 0) names ->
  index_criteria_parse_name validate true dup_ok ((opt_name ++ join names) ++ tail)
    (length (opt_name ++ join names) + 1) ic =
  Some (0, ic <| glob_patterns := Some (map named names) |>).
Proof.
  intros Hd Hn Hne Hv. unfold index_criteria_parse_name. rewrite Nat.add_sub, take_app_length.
  destruct (join_nonempty names Hn Hne) as (c & s & E & Hc).
  change (drop 5 (opt_name ++ join names)) with (join names). rewrite E.
  rewrite (proj2 (Z.eqb_neq c ch_colon)) by done.
  assert (no_empty_rule c s = true) as ->.
  { pose proof (no_empty_rule_join names Hn 0) as H. rewrite E in H. cbn in H.
    rewrite (proj2 (Z.eqb_neq c ch_colon)) in H by done. exact H. }
  cbn [orb negb]. rewrite <- E, assign_rules_join, store_names_all by done.
  by rewrite validate_names_ok.
Qed.

(** What a rule leaves behind. *)
Definition parsed (names : list (list Z)) (value : Z) : index_criteria :=
  mk_criteria true value (match names with [] => None | _ => Some (map named names) end) None.

Lemma parse_rule_ok dup_ok size_first names st v ic : (forall k, dup_ok k = true) -> criteria_ok ic ->
  Forall name_ok names -> Forall (fun n => validate n = 0) names -> size_ok st v ->
  index_criteria_parse validate true dup_ok (Some (rule_text size_first names st)) ic =
  Some (0, parsed names v).
Proof.
  intros Hd Hic Hn Hv Hs. pose proof (size_text_no_slash _ _ Hs) as Hst. pose proof (join_no_slash _ Hn) as Hj. unfold index_criteria_parse.
  assert ((index_criteria_free ic) <| have_criteria := true |> = mk_criteria true
    (if have_criteria ic then 0 else max_filesize_criteria ic) None None) as ->.
  { unfold index_criteria_free. destruct ic as [h m g c]. unfold criteria_ok in Hic. cbn in *.
    destruct h; [done|]. by destruct (Hic eq_refl) as [-> ->]. }
  pose proof (fun ic => parse_size_ok st v [] ic Hs) as Hsize. rewrite app_nil_r in Hsize.
  destruct names as [|n names]; cbn [rule_text].
  - destruct (find_only_size st Hst) as [-> ->]. rewrite one_option_valid by done. cbv iota. by rewrite Hsize.
  - pose proof (fun tail ic => parse_name_ok dup_ok (n :: names) tail ic Hd Hn ltac:(done) Hv) as Hname. destruct size_first.
    + rewrite two_options_valid, find_first_option, find_second_option by (done || by right). rewrite <- (app_nil_r (opt_name ++ _)) at 1.
      rewrite Hname. cbn [mbind option_bind]. change (0 <? 0) with false. cbv iota. by rewrite (parse_size_ok st v).
    + rewrite two_options_valid, find_first_option, find_second_option by (done || by left).
      rewrite Hname. cbn [mbind option_bind]. change (0 <? 0) with false. cbv iota. by rewrite Hsize.
Qed.

(** The loop over the patterns. *)
Lemma any_match_ok fuel allocs globs d : (glob_fuel d <= fuel)%nat -> (forall n, allocs n = true) ->
  exists b, any_match graphemes fuel allocs globs d = Some b /\
    (b = true <-> Exists (fun u => glob (graphemes u) d) globs).
Proof.
  intros Hf Ha. induction globs as [|u globs IH].
  - exists false. split; [done|]. by rewrite Exists_nil.
  - cbn. destruct (matches_ok fuel allocs (graphemes u) d Hf) as (r & -> & Hr & Hno). cbn.
    destruct Hr as [[-> H]| ->]; cbn.
    + exists true. split; [done|]. split; [by left|done].
    + destruct IH as (b & -> & Hb). exists b. split; [done|].
      rewrite Exists_cons, Hb. specialize (Hno Ha eq_refl). tauto.
Qed.

Lemma prepare_patterns_ok fold names : (forall n, n ∈ names -> prepare n = inr (fold n)) ->
  prepare_patterns prepare (map named names) = (0, map fold names).
Proof.
  induction names as [|n names IH]; intros H; [done|]. cbn [map prepare_patterns named name].
  rewrite H, IH; [done|intros; apply H; by right|by left].
Qed.

(** The files of a rule: with a size that is not zero, those whose name matches a pattern,
    or all of them when there are no patterns. *)
Definition selected (fold : list Z -> list Z) (names : list (list Z)) (v : Z) (d : list Z) : Prop :=
  v <> 0 /\ (names = [] \/ exists n, n ∈ names /\ glob (graphemes (fold n)) (graphemes (fold d))).

(** The criteria once a name was compared. *)
Definition prepared (fold : list Z -> list Z) (names : list (list Z)) (v : Z) : index_criteria :=
  if (v =? 0) || bool_decide (names = []) then parsed names v
  else (parsed names v) <| glob_cache := Some (map fold names) |>.

(** Matching with the patterns prepared now or before. *)
Lemma match_rule_ok fuel allocs fold names v d ic :
  (forall n, n ∈ names -> prepare n = inr (fold n)) ->
  prepare d = inr (fold d) -> (glob_fuel (graphemes (fold d)) <= fuel)%nat ->
  (forall n, allocs n = true) ->
  ic = parsed names v \/ ic = prepared fold names v ->
  exists b, index_criteria_match prepare graphemes fuel true allocs d ic = Some (b, prepared fold names v) /\
    (b = true <-> selected fold names v d).
Proof.
  intros Hp Hd Hf Ha Hic. unfold prepared, selected, index_criteria_match in *. destruct (Z.eqb_spec v 0) as [->|Hv].
  { assert (ic = parsed names 0) as -> by by destruct Hic. exists false. split; [done|]. split; [done|]. by intros [? _]. }
  destruct (bool_decide_reflect (names = [])) as [->|Hne]; cbn [orb] in *.
  { assert (ic = parsed [] v) as -> by by destruct Hic. exists true. cbn. rewrite (proj2 (Z.eqb_neq v 0)) by done. split; [done|].
    split; [|done]. intros _. split; [done|by left]. }
  destruct (any_match_ok fuel allocs (map fold names) (graphemes (fold d)) Hf Ha) as (b & E & Hb).
  exists b. split.
  - assert (match_with_cache prepare graphemes fuel allocs d (map fold names) = Some b) as M.
    { unfold match_with_cache. by rewrite Hd. }
    destruct names as [|n names]; [done|].
    destruct Hic as [-> | ->]; cbn -[map prepare_patterns match_with_cache any_match];
      rewrite (proj2 (Z.eqb_neq v 0)) by done; cbn -[map prepare_patterns match_with_cache any_match].
    + unfold _prepare_glob_cache. cbn -[map prepare_patterns match_with_cache any_match].
      rewrite (prepare_patterns_ok fold) by done. cbn -[map match_with_cache any_match].
      by rewrite M.
    + by rewrite M.
  - rewrite Hb, Exists_exists. split.
    + intros (u & Hu & H). apply list_elem_of_fmap in Hu as (n & -> & Hn). split; [done|]. right. by exists n.
    + intros (_ & [?|(n & Hn & H)]); [done|]. exists (fold n). split; [|done]. apply list_elem_of_fmap. by exists n.
Qed.
End Placement.

(** ** Repeated options *)

(** A rule that gives the size several times. *)
Fixpoint sizes_text (sts : list (list Z)) : list Z :=
  match sts with
  | [] => []
  | [st] => opt_size ++ st
  | st :: sts' => (opt_size ++ st) ++ char_slash :: sizes_text sts'
  end.

Lemma sizes_text_cons st sts : sts <> [] ->
  sizes_text (st :: sts) = (opt_size ++ st) ++ char_slash :: sizes_text sts.
Proof. by destruct sts. Qed.

Definition plain_sizes (sts : list (list Z)) : Prop := Forall no_slash sts.

Lemma sizes_text_head sts : sts <> [] -> exists r, sizes_text sts = opt_size ++ r.
Proof.
  destruct sts as [|st [|st' sts]]; [done| |]; intros _; [by exists st|].
  rewrite sizes_text_cons by done. rewrite <- app_assoc. by eexists.
Qed.

Lemma option_text_no_slash st : no_slash st -> no_slash (opt_size ++ st).
Proof. intros H. apply Forall_app. split; [apply opt_size_no_slash|done]. Qed.

(** The search that starts at a size option, or at the separator before it. *)
Lemma find_sizes fuel : forall st sts pre, plain_sizes (st :: sts) -> pre = [] \/ pre = [char_slash] ->
  (length sts + 1 < fuel)%nat ->
  index_criteria_find_option fuel (pre ++ sizes_text (st :: sts)) opt_size =
  if Nat.even (length sts) then Found (sizes_text (st :: sts)) (length (opt_size ++ st))
  else NotFound true.
Proof.
  induction fuel as [|fuel IH]; intros st sts pre Hp Hpre Hf; [lia|].
  inversion Hp as [|?? Hst Hsts]; subst.
  destruct (sizes_text_head (st :: sts)) as [r Er]; [done|].
  cbn [index_criteria_find_option].
  rewrite (proj2 (Nat.ltb_ge _ _)) by (rewrite length_app, Er, length_app; cbn; lia).
  assert (find_start opt_size (pre ++ sizes_text (st :: sts)) = Some (sizes_text (st :: sts))) as ->.
  { unfold find_start. rewrite Er. destruct Hpre as [-> | ->]; cbn [app]; [by rewrite has_prefix_ci_app|].
    destruct (opt_size ++ r) as [|c s] eqn:E; [done|]. cbn [find_behind_separator].
    rewrite <- E, has_prefix_ci_app. done. }
  destruct sts as [|st' sts].
  - cbn [sizes_text length Nat.even].
    pose proof (option_len_no_slash _ [] (option_text_no_slash _ Hst) (or_introl eq_refl)) as L.
    rewrite app_nil_r in L. rewrite L, drop_all. by destruct fuel.
  - rewrite sizes_text_cons by done.
    rewrite option_len_no_slash; [|by apply option_text_no_slash|right; by eexists].
    rewrite drop_app_length.
    change (char_slash :: sizes_text (st' :: sts)) with ([char_slash] ++ sizes_text (st' :: sts)).
    rewrite IH; [|done|by right|cbn in Hf; lia].
    change (length (st' :: sts)) with (S (length sts)). rewrite Nat.even_succ, <- Nat.negb_even.
    by destruct (Nat.even (length sts)).
Qed.

Lemma sizes_text_valid sts : plain_sizes sts -> sts <> [] ->
  index_criteria_contains_invalid_options (Some (sizes_text sts)) = false.
Proof.
  intros Hp Hne. unfold index_criteria_contains_invalid_options.
  assert (forall l, l <> [] -> valid_option (sizes_text l) = true) as V.
  { intros l Hl. destruct (sizes_text_head l Hl) as [r ->]. unfold valid_option.
    by rewrite has_prefix_ci_app, orb_true_r. }
  rewrite (V sts Hne). destruct (sizes_text_head sts Hne) as [r Er].
  rewrite (proj2 (Nat.ltb_ge _ _)) by (rewrite Er, length_app; cbn; lia). cbn [negb].
  assert (options_after_separators (drop 1 (sizes_text sts)) = true) as ->; [|done].
  clear r Er. induction Hp as [|st sts Hst Hsts IH]; [done|].
  pose proof (option_text_no_slash _ Hst) as Hn. destruct sts as [|st' sts].
  - apply options_after_no_slash. by apply Forall_drop.
  - rewrite sizes_text_cons by done. rewrite drop_app_le by (rewrite length_app; cbn; lia).
    rewrite options_after_app by by apply Forall_drop. cbn [options_after_separators].
    rewrite Z.eqb_refl, V by done. cbn [andb].
    destruct (sizes_text_head (st' :: sts)) as [r Er]; [done|].
    specialize (IH ltac:(done)). rewrite Er in *. exact IH.
Qed.

Lemma find_no_name sts : plain_sizes sts -> sts <> [] ->
  find_option (sizes_text sts) opt_name = NotFound false.
Proof.
  intros Hp Hne. unfold find_option.
  assert (find_start opt_name (sizes_text sts) = None) as E.
  { assert (forall l, plain_sizes l -> l <> [] ->
      find_behind_separator opt_name char_slash (sizes_text l) = None) as B.
    { induction 1 as [|st l Hst Hl IH]; intros _; [done|].
      assert (no_slash ([0x69; 0x7A; 0x65; 0x3D] ++ st)) as Hn.
      { apply Forall_app. split; [repeat constructor; discriminate|done]. }
      destruct l as [|st' l].
      - change (sizes_text [st]) with (0x73 :: [0x69; 0x7A; 0x65; 0x3D] ++ st).
        exact (find_behind_none opt_name _ 0x73 ltac:(done) ltac:(done) Hn).
      - rewrite sizes_text_cons by done.
        transitivity (find_behind_separator opt_name 0x73
          (([0x69; 0x7A; 0x65; 0x3D] ++ st) ++ char_slash :: sizes_text (st' :: l))); [done|].
        rewrite find_behind_app by done. by apply IH. }
    pose proof (B sts Hp Hne) as B0. destruct (sizes_text_head sts Hne) as [r Er].
    rewrite Er in *. exact B0. }
  cbn [index_criteria_find_option]. rewrite E. by destruct (_ <? 5)%nat.
Qed.

Lemma take_first_size st sts ic v : size_ok st v ->
  index_criteria_parse_size (sizes_text (st :: sts)) (length (opt_size ++ st) + 1) ic =
  Some (0, ic <| max_filesize_criteria := v |>).
Proof.
  intros Hs. destruct sts as [|st' sts]; [|rewrite sizes_text_cons by done; by apply parse_size_ok].
  cbn [sizes_text]. rewrite <- (app_nil_r (opt_size ++ st)) at 1. by apply parse_size_ok.
Qed.

(** ** The properties *)

(** C37: the matcher always returns, within a number of turns that is cubic in
    the length of the name, and it returns 1 exactly for the names that the
    pattern describes: an asterisk stands for any characters, a question mark
    for one.  The stack keeps only its bottom and its top element, which is
    enough.  When an allocation fails the matcher may miss a match, but it never
    invents one. *)
Theorem glob_match_correct (criteria filename : list (list Z)) (allocs : nat -> bool) (fuel : nat)
    (Hfuel : (glob_fuel filename <= fuel)%nat) :
  exists r, _matches_name_criteria_caseless fuel allocs criteria filename = Some r /\
    (r = 1 /\ glob criteria filename \/ r = 0) /\
    ((forall n, allocs n = true) -> r = 0 -> ~ glob criteria filename).
Proof. by apply matches_ok. Qed.

(** C36: a rule selects the files it describes.  Parsing a rule of one of the
    forms [size=s], [size=s/name=n1:...:nk] and [name=n1:...:nk/size=s] succeeds and
    records the names and the size, and from then on [index_criteria_match] is
    true exactly for the names that match one of the patterns after case folding,
    for all names when there are no patterns and for none when the size is zero, on the
    first call, which prepares the patterns, and on every later one, which finds
    them prepared.  No allocation fails, the names are valid, and
    [pathname_prepare_caseless] folds the patterns and the names compared. *)
Theorem placement_rule_selects (validate : list Z -> Z) (prepare : list Z -> Z + list Z)
    (graphemes : list Z -> list (list Z)) (fold : list Z -> list Z)
    (dup_ok allocs : nat -> bool) (size_first : bool) (names : list (list Z)) (st : list Z) (v : Z)
    (ic : index_criteria) (d1 d2 : list Z) (fuel : nat)
    (Hdup : forall k, dup_ok k = true) (Halloc : forall k, allocs k = true)
    (Hic : criteria_ok ic) (Hnames : Forall name_ok names)
    (Hvalid : Forall (fun n => validate n = 0) names) (Hst : size_ok st v)
    (Hfold : forall n, n ∈ names -> prepare n = inr (fold n))
    (Hd1 : prepare d1 = inr (fold d1)) (Hd2 : prepare d2 = inr (fold d2))
    (Hf1 : (glob_fuel (graphemes (fold d1)) <= fuel)%nat)
    (Hf2 : (glob_fuel (graphemes (fold d2)) <= fuel)%nat) :
  exists ic1 ic2 b1 b2,
    index_criteria_parse validate true dup_ok (Some (rule_text size_first names st)) ic = Some (0, ic1) /\
    index_criteria_get_max_filesize ic1 = v /\
    index_criteria_match prepare graphemes fuel true allocs d1 ic1 = Some (b1, ic2) /\
    (b1 = true <-> selected graphemes fold names v d1) /\
    index_criteria_match prepare graphemes fuel true allocs d2 ic2 = Some (b2, ic2) /\
    (b2 = true <-> selected graphemes fold names v d2).
Proof.
  destruct (match_rule_ok validate prepare graphemes fuel allocs fold names v d1 (parsed names v))
    as (b1 & E1 & H1); [done..|by left|].
  destruct (match_rule_ok validate prepare graphemes fuel allocs fold names v d2 (prepared fold names v)) as (b2 & E2 & H2); [done..|by right|].
  exists (parsed names v), (prepared fold names v), b1, b2.
  split; [by apply parse_rule_ok|]. split; [done|]. done.
Qed.

(** Giving an option more than once is meant to be an error, but the search
    for a second occurrence takes an error behind it for "not found": a rule
    with [k] sizes is refused when [k] is even and accepted, with the first
    size, when [k] is odd. *)
Theorem odd_repetitions_accepted (validate : list Z -> Z) (dup_ok : nat -> bool)
    (st : list Z) (sts : list (list Z)) (v : Z)
    (Hst : size_ok st v) (Hsts : Forall no_slash sts) :
  index_criteria_parse validate true dup_ok (Some (sizes_text (st :: sts)))
    (mk_criteria false 0 None None) =
  Some (if Nat.even (length sts) then (0, mk_criteria true v None None)
        else (- LTFS_POLICY_INVALID, mk_criteria true 0 None None)).
Proof.
  assert (plain_sizes (st :: sts)) as Hp.
  { constructor; [by eapply size_text_no_slash|done]. }
  unfold index_criteria_parse. rewrite sizes_text_valid, find_no_name by done.
  pose proof (find_sizes (S (length (sizes_text (st :: sts)))) st sts [] Hp (or_introl eq_refl)) as F.
  unfold find_option. cbn [app] in F. rewrite F.
  - destruct (Nat.even (length sts)); [|done]. by rewrite (take_first_size st sts _ v).
  - clear. generalize st. induction sts as [|s sts IH]; intros st0; [cbn; lia|].
    rewrite sizes_text_cons by done. specialize (IH s). rewrite !length_app. cbn [length] in *. lia.
Qed.

(** ** Witnesses *)

Definition letters (s : list Z) : list (list Z) := map (fun c => [c]) s.
Definition always (_ : nat) : bool := true.

(** [*a*b] and [xaxxb]. *)
Lemma glob_match_correct_witness :
  _matches_name_criteria_caseless 300 always [[0x2a]; [97]; [0x2a]; [98]] (letters [120; 97; 120; 120; 98])
    = Some 1 /\ glob [[0x2a]; [97]; [0x2a]; [98]] (letters [120; 97; 120; 120; 98]).
Proof.
  destruct (glob_match_correct [[0x2a]; [97]; [0x2a]; [98]] (letters [120; 97; 120; 120; 98]) always 300
    ltac:(apply Nat.leb_le; reflexivity)) as (r & E & H & _).
  vm_compute in E. injection E as <-. split; [vm_compute; reflexivity|].
  destruct H as [[_ H]|H]; [exact H|discriminate H].
Defined.

Lemma placement_rule_selects_witness :
  exists ic1 ic2 b1 b2,
    index_criteria_parse (fun _ => 0) true always (Some (rule_text true [[0x2a; 97]; [98]] [49; 75]))
      (mk_criteria false 0 None None) = Some (0, ic1) /\
    index_criteria_get_max_filesize ic1 = 1024 /\
    index_criteria_match inr letters 300 true always [120; 97] ic1 = Some (b1, ic2) /\ b1 = true /\
    index_criteria_match inr letters 300 true always [97; 98] ic2 = Some (b2, ic2) /\ b2 = false.
Proof.
  destruct (placement_rule_selects (fun _ => 0) inr letters (fun n => n) always always true
    [[0x2a; 97]; [98]] [49; 75] 1024 (mk_criteria false 0 None None) [120; 97] [97; 98] 300)
    as (ic1 & ic2 & b1 & b2 & P & M & E1 & _ & E2 & _).
  - reflexivity.
  - reflexivity.
  - intros _. split; reflexivity.
  - repeat constructor; discriminate.
  - repeat constructor.
  - exists [49], [75], 1024. split; [reflexivity|]. split; [discriminate|].
    split; [repeat constructor|]. split; [|vm_compute; reflexivity].
    right. exists 75. split; [reflexivity|]. split; reflexivity.
  - reflexivity.
  - reflexivity.
  - reflexivity.
  - apply Nat.leb_le. reflexivity.
  - apply Nat.leb_le. reflexivity.
  - exists ic1, ic2, b1, b2. split; [exact P|]. split; [exact M|]. split; [exact E1|].
    vm_compute in P. injection P as <-. vm_compute in E1. injection E1 as <- <-.
    split; [reflexivity|]. split; [exact E2|]. vm_compute in E2. by injection E2 as <-.
Defined.

Lemma odd_repetitions_accepted_witness :
  index_criteria_parse (fun _ => 0) true always (Some (sizes_text [[49]; [50]; [51]]))
    (mk_criteria false 0 None None) = Some (0, mk_criteria true 1 None None).
Proof.
  apply (odd_repetitions_accepted (fun _ => 0) always [49] [[50]; [51]] 1).
  - exists [49], [], 1. split; [reflexivity|]. split; [discriminate|]. split; [repeat constructor|].
    split; [left; split; reflexivity|vm_compute; reflexivity].
  - repeat constructor; discriminate.
Defined.
