(* ===== verification/Base64.v ===== *)
(** * Base64 ([base64.c])

    [base64_decode] with its two passes: the first checks the text and counts,
    the second fills a buffer of the size the first one found.  The buffer holds
    [None] where nothing has been stored; a store outside of it, or a read
    before the text, is the outcome [Undefined].  The second part has the
    encoding of RFC 4648 as the specification. *)

From S2P Require Import Prelude.

(** ** The code *)

(** ["ABCDEFGHIJKLMNOPQRSTUVWXYZabcdefghijklmnopqrstuvwxyz0123456789+/"]. *)
Definition base64_enc : list Z :=
  map Z.of_nat (seq 65 26 ++ seq 97 26 ++ seq 48 10 ++ [43; 47]%nat).

Definition UCHAR_MAX : Z := 255.

(** The decode map: the loop over the alphabet. *)
Definition base64_dec : list Z :=
  foldl (fun dec '(i, c) => <[Z.to_nat c := Z.of_nat i]> dec) (replicate 256 UCHAR_MAX)
    (zip (seq 0 64) base64_enc).

Definition dec_at (c : Z) : Z := default 0 (base64_dec !! Z.to_nat c).

Definition EQUALS : Z := 61.

Definition is_space (c : Z) : bool := (c =? 13) || (c =? 10) || (c =? 32) || (c =? 9).

Inductive scanned := Scanned (nequal nbytes_real : Z) | Invalid | BadRead.

(** The first pass, at the text [l] behind the character [prev]. *)
Fixpoint scan (prev : option Z) (l : list Z) (nequal nbytes_real : Z) : scanned :=
  match l with
  | [] => Scanned nequal nbytes_real
  | c :: l' =>
      if bool_decide (l' = [EQUALS]) && (c =? EQUALS) then scan (Some c) l' 2 nbytes_real
      else if bool_decide (l' = []) && (c =? EQUALS) then
        match prev with
        | None => BadRead
        | Some p => scan (Some c) l' (if negb (p =? EQUALS) then 1 else nequal) nbytes_real
        end
      else if is_space c then scan (Some c) l' nequal (nbytes_real - 1)
      else if dec_at c =? UCHAR_MAX then Invalid
      else scan (Some c) l' nequal nbytes_real
  end.

(** [dec[i] = x]. *)
Definition store (i : nat) (x : Z) (dec : list (option Z)) : option (list (option Z)) :=
  if (i <? length dec)%nat then Some (<[i := Some x]> dec) else None.

Definition quad_byte0 (q0 q1 : Z) : Z := Z.lor (u8 (Z.shiftl q0 2)) (Z.shiftr (Z.land q1 0x30) 4).
Definition quad_byte1 (q1 q2 : Z) : Z := Z.lor (u8 (Z.shiftl (Z.land q1 0xF) 4)) (Z.shiftr (Z.land q2 0x3C) 2).
Definition quad_byte2 (q2 q3 : Z) : Z := Z.lor (u8 (Z.shiftl (Z.land q2 0x3) 6)) q3.

Definition store_quad (q0 q1 q2 q3 : Z) (out_pos : nat) (dec : list (option Z)) : option (list (option Z)) :=
  dec ← store out_pos (quad_byte0 q0 q1) dec;
  if q2 =? UCHAR_MAX then Some dec
  else
    dec ← store (out_pos + 1) (quad_byte1 q1 q2) dec;
    if q3 =? UCHAR_MAX then Some dec else store (out_pos + 2) (quad_byte2 q2 q3) dec.

(** The second pass; [cur_quad] holds the values of a quad that is not yet
    complete. *)
Fixpoint generate (l : list Z) (cur_quad : list Z) (out_pos : nat) (dec : list (option Z))
    : option (list (option Z)) :=
  match l with
  | [] => Some dec
  | c :: l' =>
      if is_space c then generate l' cur_quad out_pos dec
      else
        match cur_quad with
        | [q0; q1; q2] =>
            dec ← store_quad q0 q1 q2 (dec_at c) out_pos dec;
            generate l' [] (out_pos + 3) dec
        | _ => generate l' (cur_quad ++ [dec_at c]) out_pos dec
        end
  end.

(** The function returns the size of the buffer, or 0. *)
Inductive decoded := DecError | Decoded (dec : list (option Z)) | Undefined.

Definition base64_decode (malloc_ok : bool) (enc : list Z) : decoded :=
  if bool_decide (enc = []) then DecError
  else
    match scan None enc 0 (zlength enc) with
    | BadRead => Undefined
    | Invalid => DecError
    | Scanned nequal nbytes_real =>
        if negb (nbytes_real mod 4 =? 0) then DecError
        else
          let nout := u64 (3 * (nbytes_real / 4) - nequal) in
          if negb malloc_ok then DecError
          else
            match generate enc [] 0 (replicate (Z.to_nat nout) None) with
            | None => Undefined
            | Some dec => Decoded dec
            end
    end.

(** ** The specification *)

Definition enc_char (v : Z) : Z := default 0 (base64_enc !! Z.to_nat v).

(** RFC 4648, section 4: three bytes to four characters; a rest of one or two
    bytes to two or three characters, and padding with [=]. *)
Fixpoint base64_digits (l : list Z) : list Z :=
  match l with
  | a :: b :: c :: l' =>
      enc_char (Z.shiftr a 2) :: enc_char (Z.lor (Z.shiftl (Z.land a 3) 4) (Z.shiftr b 4)) ::
      enc_char (Z.lor (Z.shiftl (Z.land b 15) 2) (Z.shiftr c 6)) :: enc_char (Z.land c 63) :: base64_digits l'
  | [a; b] =>
      [enc_char (Z.shiftr a 2); enc_char (Z.lor (Z.shiftl (Z.land a 3) 4) (Z.shiftr b 4));
       enc_char (Z.shiftl (Z.land b 15) 2)]
  | [a] => [enc_char (Z.shiftr a 2); enc_char (Z.shiftl (Z.land a 3) 4)]
  | [] => []
  end.

Fixpoint base64_padding (l : list Z) : list Z :=
  match l with
  | _ :: _ :: _ :: l' => base64_padding l'
  | [_; _] => [EQUALS]
  | [_] => [EQUALS; EQUALS]
  | [] => []
  end.

Definition base64_encode (l : list Z) : list Z := base64_digits l ++ base64_padding l.

Definition is_byte (x : Z) : Prop := 0 <= x < 256.

(** A character that stands for six bits. *)
Definition is_digit64 (c : Z) : bool := negb (is_space c) && negb (dec_at c =? UCHAR_MAX).

Example encodes : base64_encode [77; 97; 110; 77] = [84; 87; 70; 117; 84; 81; 61; 61].
Proof. reflexivity. Qed.

Example decodes : base64_decode true [84; 87; 70; 117; 10; 84; 81; 61; 61] = Decoded (map Some [77; 97; 110; 77]).
Proof. reflexivity. Qed.

(** ** The first pass *)

Definition skip_spaces (l : list Z) : list Z := filter (fun c => is_space c = false) l.

Definition is_text (c : Z) : Prop := is_space c = true \/ is_digit64 c = true.

Definition is_padding (l : list Z) : Prop := l = [] \/ l = [EQUALS] \/ l = [EQUALS; EQUALS].

Lemma equals_is_no_text : ~ is_text EQUALS.
Proof. intros [H|H]; vm_compute in H; done. Qed.

(** What the first pass accepts: whitespace and digits, then padding. *)
Lemma scan_shape : forall l prev nequal nreal,
  prev <> Some EQUALS ->
  match scan prev l nequal nreal with
  | Scanned nequal' nreal' => exists x pad, l = x ++ pad /\ Forall is_text x /\ is_padding pad /\
      nequal' = (if bool_decide (pad = []) then nequal else zlength pad) /\
      nreal' = nreal - (zlength x - zlength (skip_spaces x))
  | Invalid => True
  | BadRead => prev = None /\ l = [EQUALS]
  end.
Proof.
  induction l as [|c l IH]; intros prev nequal nreal Hp; cbn [scan].
  { exists [], []. split_and!; try done; [by left|unfold zlength; cbn; lia]. }
  destruct (bool_decide (l = [EQUALS]) && (c =? EQUALS)) eqn:E1.
  { bsplit. apply bool_decide_eq_true in H. subst. cbn. exists [], [EQUALS; EQUALS]. split_and!; try done; [by right; right|unfold zlength; cbn; lia]. }
  destruct (bool_decide (l = []) && (c =? EQUALS)) eqn:E2.
  { bsplit. apply bool_decide_eq_true in H. subst. destruct prev as [p|]; [|done]. cbn.
    exists [], [EQUALS]. split_and!; try done; [by right; left| |unfold zlength; cbn; lia].
    destruct (Z.eqb_spec p EQUALS) as [->|]; done. }
  assert (Hstep : forall nr, is_text c -> nr = nreal - (1 - if is_space c then 0 else 1) ->
    match scan (Some c) l nequal nr with
    | Scanned nequal' nreal' => exists x pad, c :: l = x ++ pad /\ Forall is_text x /\ is_padding pad /\
        nequal' = (if bool_decide (pad = []) then nequal else zlength pad) /\
        nreal' = nreal - (zlength x - zlength (skip_spaces x))
    | Invalid => True
    | BadRead => prev = None /\ c :: l = [EQUALS]
    end).
  { intros nr Ht ->. assert (Hc : Some c <> Some EQUALS) by (intros [= ->]; by destruct equals_is_no_text).
    specialize (IH (Some c) nequal (nreal - (1 - if is_space c then 0 else 1)) Hc). destruct (scan (Some c) l nequal _); [|done|by destruct IH].
    destruct IH as (x & pad & -> & Hx & Hpad & -> & ->). exists (c :: x), pad. split_and!; try done; [by constructor|].
    unfold skip_spaces. rewrite filter_cons, zlength_cons. destruct (is_space c) eqn:Hs.
    - rewrite decide_False by congruence. lia.
    - rewrite decide_True by done. rewrite zlength_cons. lia. }
  destruct (is_space c) eqn:Hs; [apply Hstep; [by left|lia]|].
  destruct (Z.eqb_spec (dec_at c) UCHAR_MAX) as [|Hd]; [done|]. apply Hstep; [|lia]. right. unfold is_digit64. rewrite Hs. cbn.
  apply negb_true_iff. by apply Z.eqb_neq.
Qed.

Lemma scan_accepts : forall x pad prev nequal nreal,
  Forall is_text x -> is_padding pad -> prev <> Some EQUALS -> (prev <> None \/ x <> []) ->
  scan prev (x ++ pad) nequal nreal =
  Scanned (if bool_decide (pad = []) then nequal else zlength pad) (nreal - (zlength x - zlength (skip_spaces x))).
Proof.
  induction x as [|c x IH]; intros pad prev nequal nreal Hx Hpad Hp Hne.
  - destruct Hne as [Hne|?]; [|done]. destruct prev as [p|]; [|done]. destruct Hpad as [->|[->| ->]]; cbn.
    + f_equal. unfold zlength. cbn. lia.
    + destruct (Z.eqb_spec p EQUALS) as [->|]; [done|]. f_equal. unfold zlength. cbn. lia.
    + f_equal. unfold zlength. cbn. lia.
  - apply Forall_cons in Hx as [Hc Hx]. assert (HcE : c <> EQUALS) by (intros ->; by destruct equals_is_no_text).
    cbn [app scan]. replace (c =? EQUALS) with false by (symmetry; by apply Z.eqb_neq). rewrite !andb_false_r.
    assert (Hn : Some c <> Some EQUALS) by congruence.
    unfold skip_spaces. rewrite filter_cons, zlength_cons. destruct (is_space c) eqn:Hs.
    + rewrite IH; try done; [|by left]. rewrite decide_False by congruence. f_equal. unfold skip_spaces. lia.
    + destruct Hc as [?|Hc]; [congruence|]. unfold is_digit64 in Hc. apply andb_true_iff in Hc as [_ Hc].
      apply negb_true_iff in Hc. rewrite Hc.
      rewrite IH; try done; [|by left]. rewrite decide_True by done. rewrite zlength_cons. f_equal. unfold skip_spaces. lia.
Qed.

(** ** The second pass *)

(** What a text without whitespace means, quad by quad. *)
Fixpoint decode_quads (l : list Z) : list Z :=
  match l with
  | c0 :: c1 :: c2 :: c3 :: l' =>
      (if c2 =? EQUALS then [quad_byte0 (dec_at c0) (dec_at c1)]
       else if c3 =? EQUALS then [quad_byte0 (dec_at c0) (dec_at c1); quad_byte1 (dec_at c1) (dec_at c2)]
       else [quad_byte0 (dec_at c0) (dec_at c1); quad_byte1 (dec_at c1) (dec_at c2);
             quad_byte2 (dec_at c2) (dec_at c3)]) ++ decode_quads l'
  | _ => []
  end.

Lemma generate_skip : forall l quad pos dec, generate l quad pos dec = generate (skip_spaces l) quad pos dec.
Proof.
  induction l as [|c l IH]; intros quad pos dec; [done|]. unfold skip_spaces. rewrite filter_cons. cbn [generate].
  destruct (is_space c) eqn:Hs; [rewrite decide_False by congruence; apply IH|].
  rewrite decide_True by done. cbn [generate]. rewrite Hs.
  assert (Hq : forall q p d, generate l q p d = generate (filter (fun c => is_space c = false) l) q p d) by (intros; apply IH).
  destruct quad as [|q0 [|q1 [|q2 [|q3 quad]]]]; try apply Hq.
  destruct (store_quad q0 q1 q2 (dec_at c) pos dec); [apply Hq|done].
Qed.

Lemma store_here done x r rest : store (length done) x (done ++ r :: rest) = Some (done ++ Some x :: rest).
Proof.
  unfold store. replace (length done <? length (done ++ r :: rest))%nat with true.
  - f_equal. rewrite <- (Nat.add_0_r (length done)). by rewrite insert_app_r.
  - symmetry. apply Nat.ltb_lt. rewrite length_app. cbn. lia.
Qed.

Lemma store_next done x y r rest : store (length done + 1) y (done ++ x :: r :: rest) = Some (done ++ x :: Some y :: rest).
Proof.
  pose proof (store_here (done ++ [x]) y r rest) as Hs. rewrite length_app, <- !app_assoc in Hs. exact Hs.
Qed.

Lemma store_third done x y z r rest :
  store (length done + 2) z (done ++ x :: y :: r :: rest) = Some (done ++ x :: y :: Some z :: rest).
Proof.
  pose proof (store_here (done ++ [x; y]) z r rest) as Hs. rewrite length_app, <- !app_assoc in Hs. exact Hs.
Qed.

Lemma dec_equals : dec_at EQUALS = UCHAR_MAX.
Proof. reflexivity. Qed.

Lemma digit_facts c : is_digit64 c = true -> is_space c = false /\ (dec_at c =? UCHAR_MAX) = false /\ (c =? EQUALS) = false.
Proof.
  unfold is_digit64. intros [Hs Hd]%andb_true_iff. apply negb_true_iff in Hs, Hd. split_and!; [done..|].
  apply Z.eqb_neq. intros ->. done.
Qed.

(** The second pass stores exactly the meaning of the text, and nothing outside
    a buffer of its size. *)
Lemma generate_quads : forall n x pad done rest,
  Forall (fun c => is_digit64 c = true) x -> is_padding pad -> (length x + length pad = 4 * n)%nat ->
  (length rest + length pad = 3 * n)%nat ->
  generate (x ++ pad) [] (length done) (done ++ rest) = Some (done ++ map Some (decode_quads (x ++ pad))).
Proof.
  induction n as [|n IH]; intros x pad done rest Hx Hpad Hl Hr.
  { destruct x, pad, rest; try (cbn in *; lia). done. }
  destruct x as [|c0 [|c1 x]]; try (destruct Hpad as [->|[->| ->]]; cbn in Hl; lia).
  apply Forall_cons in Hx as [(S0 & _ & _)%digit_facts Hx]. apply Forall_cons in Hx as [(S1 & _ & _)%digit_facts Hx].
  destruct x as [|c2 x].
  { destruct Hpad as [->|[->| ->]]; cbn in Hl, Hr; try lia. assert (n = 0%nat) as -> by lia.
    destruct rest as [|r0 [|? ?]]; cbn in Hr; try lia. cbn [app generate]. rewrite S0, S1. cbn [app generate is_space EQUALS Z.eqb].
    change (is_space 61) with false. cbn [generate app]. unfold store_quad. rewrite store_here. done. }
  apply Forall_cons in Hx as [(S2 & D2 & E2)%digit_facts Hx]. destruct x as [|c3 x].
  { destruct Hpad as [->|[->| ->]]; cbn in Hl, Hr; try lia. assert (n = 0%nat) as -> by lia.
    destruct rest as [|r0 [|r1 [|? ?]]]; cbn in Hr; try lia. cbn [app generate]. rewrite S0, S1, S2.
    change (is_space EQUALS) with false. cbn [app generate]. unfold store_quad. rewrite store_here. cbn [mbind option_bind]. rewrite D2, store_next.
    cbn [mbind option_bind]. change (dec_at EQUALS =? UCHAR_MAX) with true. cbn [decode_quads]. by rewrite E2. }
  apply Forall_cons in Hx as [(S3 & D3 & E3)%digit_facts Hx].
  destruct rest as [|r0 [|r1 [|r2 rest]]]; try (destruct Hpad as [->|[->| ->]]; cbn in Hl, Hr; lia).
  cbn [app generate]. rewrite S0, S1, S2, S3. cbn [app generate]. unfold store_quad. rewrite store_here. cbn [mbind option_bind].
  rewrite D2, store_next. cbn [mbind option_bind]. rewrite D3, store_third. cbn [mbind option_bind decode_quads].
  rewrite E2, E3. cbn in Hl, Hr.
  pose proof (IH x pad (done ++ [Some (quad_byte0 (dec_at c0) (dec_at c1)); Some (quad_byte1 (dec_at c1) (dec_at c2));
    Some (quad_byte2 (dec_at c2) (dec_at c3))]) rest Hx Hpad ltac:(lia) ltac:(lia)) as Hg.
  rewrite length_app, <- !app_assoc in Hg. cbn in Hg. by rewrite Hg.
Qed.

(** ** Encoding *)

(** Checks of all values below a bound. *)
Definition check1 (m : nat) (f : Z -> bool) : bool := forallb (fun i => f (Z.of_nat i)) (seq 0 m).
Definition check2 (m n : nat) (f : Z -> Z -> bool) : bool := check1 m (fun i => check1 n (f i)).

Lemma check1_spec m f v : check1 m f = true -> 0 <= v < Z.of_nat m -> f v = true.
Proof.
  unfold check1. rewrite forallb_forall. intros Hf Hv. rewrite <- (Z2Nat.id v) by lia. apply Hf, in_seq. lia.
Qed.

Lemma check2_spec m n f a b : check2 m n f = true -> 0 <= a < Z.of_nat m -> 0 <= b < Z.of_nat n -> f a b = true.
Proof.
  unfold check2. intros Hf Ha. pose proof (check1_spec m _ a Hf Ha) as H1. cbn beta in H1. by apply check1_spec.
Qed.

Definition q0_of (a : Z) : Z := Z.shiftr a 2.
Definition q1_of (a b : Z) : Z := Z.lor (Z.shiftl (Z.land a 3) 4) (Z.shiftr b 4).
Definition q2_of (b c : Z) : Z := Z.lor (Z.shiftl (Z.land b 15) 2) (Z.shiftr c 6).
Definition q3_of (c : Z) : Z := Z.land c 63.

Definition digit_range (v : Z) : bool := (0 <=? v) && (v <? 64).

Lemma parts a : is_byte a ->
  0 <= Z.shiftr a 2 < 64 /\ 0 <= Z.land a 3 < 4 /\ 0 <= Z.shiftr a 4 < 16 /\ 0 <= Z.land a 15 < 16 /\
  0 <= Z.shiftr a 6 < 4 /\ 0 <= Z.land a 63 < 64.
Proof.
  unfold is_byte. intros Ha. pose proof (check1_spec 256 (fun a =>
    digit_range (Z.shiftr a 2) && (0 <=? Z.land a 3) && (Z.land a 3 <? 4) && (0 <=? Z.shiftr a 4) && (Z.shiftr a 4 <? 16) &&
    (0 <=? Z.land a 15) && (Z.land a 15 <? 16) && (0 <=? Z.shiftr a 6) && (Z.shiftr a 6 <? 4) && digit_range (Z.land a 63)) a
    eq_refl Ha) as Hc. cbn beta in Hc. unfold digit_range in Hc. bsplit. lia.
Qed.

Lemma q_range a b : is_byte a -> is_byte b ->
  digit_range (q0_of a) = true /\ digit_range (q1_of a b) = true /\ digit_range (q2_of a b) = true /\ digit_range (q3_of a) = true.
Proof.
  intros Ha%parts Hb%parts. unfold q0_of, q3_of, q1_of, q2_of. split_and!; [unfold digit_range; lia| | |unfold digit_range; lia].
  - apply (check2_spec 4 16 (fun y z => digit_range (Z.lor (Z.shiftl y 4) z))); [done|lia|lia].
  - apply (check2_spec 16 4 (fun y z => digit_range (Z.lor (Z.shiftl y 2) z))); [done|lia|lia].
Qed.

Lemma enc_char_digit v : digit_range v = true -> is_digit64 (enc_char v) = true /\ dec_at (enc_char v) = v.
Proof.
  unfold digit_range. intros Hv. bsplit.
  pose proof (check1_spec 64 (fun v => is_digit64 (enc_char v) && (dec_at (enc_char v) =? v)) v eq_refl ltac:(lia)) as Hc.
  cbn beta in Hc. by apply andb_true_iff in Hc as [? ?%Z.eqb_eq].
Qed.

Lemma q1_split a b : is_byte a -> is_byte b ->
  Z.shiftr (Z.land (q1_of a b) 0x30) 4 = Z.land a 3 /\ Z.land (q1_of a b) 0xF = Z.shiftr b 4.
Proof.
  intros Ha%parts Hb%parts. unfold q1_of.
  pose proof (check2_spec 4 16 (fun y z => (Z.shiftr (Z.land (Z.lor (Z.shiftl y 4) z) 0x30) 4 =? y) &&
    (Z.land (Z.lor (Z.shiftl y 4) z) 0xF =? z)) (Z.land a 3) (Z.shiftr b 4) eq_refl ltac:(lia) ltac:(lia)) as Hc.
  cbn beta in Hc. apply andb_true_iff in Hc as [H1%Z.eqb_eq H2%Z.eqb_eq]. by split.
Qed.

Lemma q2_split b c : is_byte b -> is_byte c ->
  Z.shiftr (Z.land (q2_of b c) 0x3C) 2 = Z.land b 15 /\ Z.land (q2_of b c) 0x3 = Z.shiftr c 6.
Proof.
  intros Hb%parts Hc%parts. unfold q2_of.
  pose proof (check2_spec 16 4 (fun y z => (Z.shiftr (Z.land (Z.lor (Z.shiftl y 2) z) 0x3C) 2 =? y) &&
    (Z.land (Z.lor (Z.shiftl y 2) z) 0x3 =? z)) (Z.land b 15) (Z.shiftr c 6) eq_refl ltac:(lia) ltac:(lia)) as Hk.
  cbn beta in Hk. apply andb_true_iff in Hk as [H1%Z.eqb_eq H2%Z.eqb_eq]. by split.
Qed.

Lemma quad_byte0_eq a b : is_byte a -> is_byte b -> quad_byte0 (q0_of a) (q1_of a b) = a.
Proof.
  intros Ha Hb. unfold quad_byte0, q0_of. rewrite (proj1 (q1_split a b Ha Hb)). apply Z.eqb_eq.
  by apply (check1_spec 256 (fun a => Z.lor (u8 (Z.shiftl (Z.shiftr a 2) 2)) (Z.land a 3) =? a)).
Qed.

Lemma quad_byte1_eq a b c : is_byte a -> is_byte b -> is_byte c -> quad_byte1 (q1_of a b) (q2_of b c) = b.
Proof.
  intros Ha Hb Hc. unfold quad_byte1. rewrite (proj2 (q1_split a b Ha Hb)), (proj1 (q2_split b c Hb Hc)). apply Z.eqb_eq.
  by apply (check1_spec 256 (fun b => Z.lor (u8 (Z.shiftl (Z.shiftr b 4) 4)) (Z.land b 15) =? b)).
Qed.

Lemma quad_byte2_eq b c : is_byte b -> is_byte c -> quad_byte2 (q2_of b c) (q3_of c) = c.
Proof.
  intros Hb Hc. unfold quad_byte2, q3_of. rewrite (proj2 (q2_split b c Hb Hc)). apply Z.eqb_eq.
  by apply (check1_spec 256 (fun c => Z.lor (u8 (Z.shiftl (Z.shiftr c 6) 6)) (Z.land c 63) =? c)).
Qed.

(** Induction over the groups of three bytes. *)
Lemma three_ind (P : list Z -> Prop) :
  P [] -> (forall a, is_byte a -> P [a]) -> (forall a b, is_byte a -> is_byte b -> P [a; b]) ->
  (forall a b c l, is_byte a -> is_byte b -> is_byte c -> Forall is_byte l -> P l -> P (a :: b :: c :: l)) ->
  forall l, Forall is_byte l -> P l.
Proof.
  intros H0 H1 H2 H3 l. remember (length l) as n eqn:Hn. revert l Hn.
  induction n as [n IH] using lt_wf_ind. intros l -> Hl.
  destruct l as [|a [|b [|c l]]]; [done|..]; repeat (apply Forall_cons in Hl as [? Hl]); auto.
  apply H3; try done. eapply IH; [|done|done]. cbn. lia.
Qed.

Lemma last_q1 a : q1_of a 0 = Z.shiftl (Z.land a 3) 4.
Proof. unfold q1_of. apply Z.lor_0_r. Qed.

Lemma last_q2 b : q2_of b 0 = Z.shiftl (Z.land b 15) 2.
Proof. unfold q2_of. apply Z.lor_0_r. Qed.

Lemma zero_byte : is_byte 0.
Proof. unfold is_byte. lia. Qed.

(** The digits of one group and what they decode to. *)
Lemma group_digits a b c : is_byte a -> is_byte b -> is_byte c ->
  (is_digit64 (enc_char (q0_of a)) = true /\ dec_at (enc_char (q0_of a)) = q0_of a) /\
  (is_digit64 (enc_char (q1_of a b)) = true /\ dec_at (enc_char (q1_of a b)) = q1_of a b) /\
  (is_digit64 (enc_char (q2_of b c)) = true /\ dec_at (enc_char (q2_of b c)) = q2_of b c) /\
  (is_digit64 (enc_char (q3_of c)) = true /\ dec_at (enc_char (q3_of c)) = q3_of c).
Proof.
  intros Ha Hb Hc. pose proof (q_range a b Ha Hb). pose proof (q_range b c Hb Hc). pose proof (q_range c c Hc Hc).
  split_and!; apply enc_char_digit; tauto.
Qed.

Lemma digits_ok l : Forall is_byte l -> Forall (fun c => is_digit64 c = true) (base64_digits l).
Proof.
  revert l. apply three_ind; [constructor|intros a Ha|intros a b Ha Hb|intros a b c l Ha Hb Hc _ IH]; cbn [base64_digits].
  - rewrite <- last_q1. destruct (group_digits a 0 0 Ha zero_byte zero_byte) as ([? _] & [? _] & _). by repeat constructor.
  - rewrite <- last_q2. destruct (group_digits a b 0 Ha Hb zero_byte) as ([? _] & [? _] & [? _] & _). by repeat constructor.
  - destruct (group_digits a b c Ha Hb Hc) as ([? _] & [? _] & [? _] & [? _]). by repeat constructor.
Qed.

Lemma encode_inverse l : Forall is_byte l -> decode_quads (base64_encode l) = l.
Proof.
  unfold base64_encode. revert l.
  apply three_ind; [done|intros a Ha|intros a b Ha Hb|intros a b c l Ha Hb Hc _ IH]; cbn [base64_digits base64_padding app decode_quads].
  - rewrite <- last_q1. destruct (group_digits a 0 0 Ha zero_byte zero_byte) as ([_ E0] & [_ E1] & _).
    change (Z.shiftr a 2) with (q0_of a). rewrite E0, E1, quad_byte0_eq by (done || apply zero_byte). done.
  - rewrite <- last_q2. destruct (group_digits a b 0 Ha Hb zero_byte) as ([_ E0] & [_ E1] & [(_ & _ & N2)%digit_facts E2] & _).
    change (Z.shiftr a 2) with (q0_of a). fold (q1_of a b). rewrite N2, E0, E1, E2, quad_byte0_eq, quad_byte1_eq by (done || apply zero_byte).
    done.
  - destruct (group_digits a b c Ha Hb Hc) as ([_ E0] & [_ E1] & [(_ & _ & N2)%digit_facts E2] & [(_ & _ & N3)%digit_facts E3]).
    fold (q0_of a) (q1_of a b) (q2_of b c) (q3_of c).
    rewrite N2, N3, E0, E1, E2, E3, quad_byte0_eq, quad_byte1_eq, quad_byte2_eq by done. cbn. by rewrite IH.
Qed.

Lemma encode_lengths l : Forall is_byte l ->
  is_padding (base64_padding l) /\
  exists n, (length (base64_digits l) + length (base64_padding l) = 4 * n)%nat /\ (length l + length (base64_padding l) = 3 * n)%nat.
Proof.
  revert l. apply three_ind; [|intros a _|intros a b _ _|intros a b c l _ _ _ _ [Hp (n & H1 & H2)]]; cbn.
  - split; [by left|by exists 0%nat].
  - split; [by right; right|by exists 1%nat].
  - split; [by right; left|by exists 1%nat].
  - split; [done|]. exists (S n). lia.
Qed.

(** ** The function *)

Lemma skip_digits x : Forall is_text x -> Forall (fun c => is_digit64 c = true) (skip_spaces x).
Proof.
  intros Hx. unfold skip_spaces. apply Forall_forall. intros c [Hs Hc]%list_elem_of_filter.
  rewrite Forall_forall in Hx. destruct (Hx c Hc); congruence.
Qed.

Lemma skip_padding pad : is_padding pad -> skip_spaces pad = pad.
Proof. by intros [->|[->| ->]]. Qed.

Lemma skip_app a b : skip_spaces (a ++ b) = skip_spaces a ++ skip_spaces b.
Proof. apply filter_app. Qed.

Lemma padding_length pad : is_padding pad -> 0 <= zlength pad <= 2 /\ (if bool_decide (pad = []) then 0 else zlength pad) = zlength pad.
Proof. by intros [->|[->| ->]]. Qed.

(** What the function does with a text it accepts. *)
Lemma decode_accepted x pad n :
  Forall is_text x -> is_padding pad -> x ++ pad <> [] -> x ++ pad <> [EQUALS] -> zlength x < 2 ^ 62 ->
  zlength (skip_spaces x) + zlength pad = 4 * n ->
  base64_decode true (x ++ pad) = Decoded (map Some (decode_quads (skip_spaces x ++ pad))).
Proof.
  intros Hx Hpad Hne Hn1 Hb Hn. unfold base64_decode. rewrite bool_decide_eq_false_2 by done.
  destruct (padding_length pad Hpad) as [Hp0 Hp1].
  destruct (decide (x = [])) as [->|Hxne].
  { cbn in Hn. destruct Hpad as [->|[->| ->]]; [done|done|]. cbn in Hn. unfold zlength in Hn. cbn in Hn. lia. }
  rewrite scan_accepts by (done || by right). rewrite Hp1, zlength_app.
  replace (zlength x + zlength pad - (zlength x - zlength (skip_spaces x))) with (n * 4) by lia.
  rewrite Z_mod_mult, Z_div_mult by lia. cbn [negb Z.eqb].
  assert (Hsl : zlength (skip_spaces x) <= zlength x) by (unfold zlength, skip_spaces; pose proof (length_filter (fun c => is_space c = false) x); lia).
  pose proof (zlength_nonneg (skip_spaces x)). rewrite u64_small by (unfold zlength in *; lia).
  rewrite generate_skip, skip_app, (skip_padding pad) by done.
  pose proof (generate_quads (Z.to_nat n) (skip_spaces x) pad [] (replicate (Z.to_nat (3 * n - zlength pad)) None)
    (skip_digits x Hx) Hpad) as Hg. cbn [length app] in Hg. rewrite Hg; [done| |rewrite length_replicate]; unfold zlength in *; lia.
Qed.

(** C40: the decoder never leaves its buffers.  For every text, other than the
    single character [=], [base64_decode] reads inside the text and stores inside
    the buffer it has allocated, and when it accepts the text it has set every
    byte of that buffer. *)
Theorem base64_stays_in_bounds ok enc :
  zlength enc < 2 ^ 62 ->
  match base64_decode ok enc with
  | Undefined => enc = [EQUALS]
  | Decoded dec => exists bs, dec = map Some bs
  | DecError => True
  end.
Proof.
  intros Hb. destruct (decide (enc = [EQUALS])) as [->|Hn1]; [done|]. destruct ok; cycle 1.
  { unfold base64_decode. destruct (bool_decide _); [done|]. pose proof (scan_shape enc None 0 (zlength enc) ltac:(done)) as Hs.
    destruct (scan None enc 0 (zlength enc)); [|done|tauto]. by destruct (negb (_ =? 0)). }
  destruct (decide (enc = [])) as [->|Hne]; [done|].
  pose proof (scan_shape enc None 0 (zlength enc) ltac:(done)) as Hs. destruct (scan None enc 0 (zlength enc)) as [ne nr| |] eqn:Hsc.
  - destruct Hs as (x & pad & -> & Hx & Hpad & -> & Hnr). destruct (padding_length pad Hpad) as [Hp0 Hp1].
    rewrite zlength_app in Hb, Hnr.
    destruct (decide (nr mod 4 = 0)) as [Hm|Hm].
    + rewrite (decode_accepted x pad (nr / 4)); try done; [by eexists|lia|]. pose proof (Z_div_mod_eq_full nr 4). lia.
    + unfold base64_decode. rewrite bool_decide_eq_false_2, Hsc by done. by replace (nr mod 4 =? 0) with false by lia.
  - unfold base64_decode. by rewrite bool_decide_eq_false_2, Hsc.
  - by destruct Hs.
Qed.

Lemma base64_stays_in_bounds_witness :
  exists bs, base64_decode true [84; 81; 32; 61; 61] = Decoded (map Some bs).
Proof.
  pose proof (base64_stays_in_bounds true [84; 81; 32; 61; 61] eq_refl) as Hb.
  change (base64_decode true [84; 81; 32; 61; 61]) with (Decoded [Some 77]) in *. destruct Hb as [bs ->]. by exists bs.
Defined.

Lemma decode_encoded bs text :
  Forall is_byte bs -> bs <> [] -> zlength text < 2 ^ 62 -> skip_spaces text = base64_digits bs ->
  base64_decode true (text ++ base64_padding bs) = Decoded (map Some bs).
Proof.
  intros Hbs Hne Hb Ht. destruct (encode_lengths bs Hbs) as [Hpad (n & H1 & H2)].
  assert (Hd : 2 <= zlength (base64_digits bs)) by (unfold zlength; destruct bs as [|a [|b [|c bs]]]; [done|cbn..]; lia).
  assert (Htl : zlength (skip_spaces text) <= zlength text)
    by (unfold zlength, skip_spaces; pose proof (length_filter (fun c => is_space c = false) text); lia).
  rewrite (decode_accepted text (base64_padding bs) (Z.of_nat n)); try done.
  - rewrite Ht. fold (base64_encode bs). by rewrite encode_inverse.
  - apply Forall_forall. intros c Hc. destruct (is_space c) eqn:Hs; [by left|right].
    pose proof (digits_ok bs Hbs) as Hdg. rewrite Forall_forall in Hdg. apply Hdg. rewrite <- Ht. unfold skip_spaces.
    by apply list_elem_of_filter.
  - intros E. apply (f_equal length) in E. rewrite length_app in E. rewrite <- Ht in Hd. unfold zlength in *. cbn in E. lia.
  - intros E. apply (f_equal length) in E. rewrite length_app in E. rewrite <- Ht in Hd. unfold zlength in *. cbn in E. lia.
  - rewrite Ht. unfold zlength. lia.
Qed.

(** Base64 texts read back.  [base64_decode] maps the RFC 4648 encoding of
    any nonempty sequence of bytes to these bytes, with spaces, tabs and line
    ends anywhere before the padding. *)
Theorem base64_round_trip bs text :
  Forall is_byte bs -> bs <> [] -> zlength text < 2 ^ 62 -> skip_spaces text = base64_digits bs ->
  base64_decode true (text ++ base64_padding bs) = Decoded (map Some bs).
Proof. apply decode_encoded. Qed.

Lemma base64_round_trip_witness :
  base64_decode true ([84; 87; 10; 70; 117; 84; 81; 32] ++ base64_padding [77; 97; 110; 77]) = Decoded (map Some [77; 97; 110; 77]).
Proof.
  apply base64_round_trip; [|done|done|reflexivity]. repeat constructor; unfold is_byte; lia.
Defined.

(** Whitespace behind the padding is refused, although whitespace is said to be
    ignored; and the text [=] makes the function read the byte before it. *)
Lemma trailing_newline_refused : base64_decode true (base64_encode [77] ++ [10]) = DecError.
Proof. reflexivity. Qed.

Lemma lone_padding_reads_before_text : base64_decode true [EQUALS] = Undefined.
Proof. reflexivity. Qed.
