(* ===== verification/KeyFormat.v ===== *)
(** * Key managers ([kmi/key_format_ltfs.c], [kmi/simple.c], [kmi/flatfile.c])

    Data keys come as a text: pairs of a key in base64 and its identifier, three
    characters and nine bytes in hexadecimal, [key:identifier/key:identifier].
    [key_format_ltfs_get_key] checks and converts the text, looks an identifier
    up and wipes the converted keys.  The plug-in [simple] takes the text from
    the command line, [flatfile] from a file.

    A C string is the list of its characters.  [char_at] reads 0 from the
    terminator on; the checks read in order and stop there.  [convert_keyalias]
    does not stop, so it reads with [c_char], which fails behind the terminator.
    The outcomes of the host's allocations are arguments. *)

From S2P Require Import Prelude LtfsError Base64.

(** ** Constants and data *)

Definition DK_LENGTH : nat := 32.
Definition DKI_LENGTH : nat := 12.
Definition DKI_ASCII_LENGTH : nat := 3.
Definition SEPARATOR_LENGTH : nat := 1.

Definition key_digits : nat := ((DK_LENGTH * 8 + 5) / 6)%nat.
Definition key_length : nat := ((key_digits + 3) / 4 * 4)%nat.
Definition keyalias_length : nat := (DKI_ASCII_LENGTH + (DKI_LENGTH - DKI_ASCII_LENGTH) * 2)%nat.

Record key := mk_key { dk : list Z; dki : list Z }.

Inductive kfl_state := KFL_UNINITIALIZED | KFL_INITIALIZED | KFL_SET | KFL_CLEARED | KFL_DESTROYED.

#[export] Instance kfl_state_eq_dec : EqDecision kfl_state.
Proof. solve_decision. Defined.

(** The static variable [state] and the list of [struct key_format_ltfs]. *)
Record key_format_ltfs := mk_kfl { state : kfl_state; dk_list : list key }.

#[export] Instance eta_kfl : Eta key_format_ltfs := fun k => mk_kfl (state k) (dk_list k).

(** ** Characters *)

Definition in_range (a b c : Z) : bool := (a <=? c) && (c <=? b).
Definition isdigit (c : Z) : bool := in_range 48 57 c.
Definition isalnum (c : Z) : bool := isdigit c || in_range 65 90 c || in_range 97 122 c.
Definition isprint (c : Z) : bool := in_range 32 126 c.
Definition isxdigit (c : Z) : bool := isdigit c || in_range 65 70 c || in_range 97 102 c.

Definition char_at (s : list Z) (i : nat) : Z := default 0 (s !! i).

Definition c_char (s : list Z) (i : nat) : option Z :=
  if (i <? length s)%nat then s !! i else if (i =? length s)%nat then Some 0 else None.

(** The characters before the terminator. *)
Fixpoint until_nul (l : list Z) : list Z :=
  match l with c :: l' => if c =? 0 then [] else c :: until_nul l' | [] => [] end.

Definition hex_value (c : Z) : Z := if isdigit c then c - 48 else if in_range 65 70 c then c - 55 else c - 87.

(** [strtoul(s, NULL, 16)] of a string of at most two characters. *)
Fixpoint hex_digits (acc : Z) (l : list Z) : Z :=
  match l with
  | c :: l' => if isxdigit c then hex_digits (16 * acc + hex_value c) l' else acc
  | [] => acc
  end.

Fixpoint strtoul16 (l : list Z) : Z :=
  match l with
  | c :: l' =>
      if (c =? 32) || in_range 9 13 c then strtoul16 l'
      else if c =? 43 then hex_digits 0 l'
      else if c =? 45 then u64 (- hex_digits 0 l')
      else hex_digits 0 (c :: l')
  | [] => 0
  end.

(** ** Checking the text *)

Definition is_key (key : list Z) : Z :=
  if forallb (fun i => let c := char_at key i in isalnum c || (c =? 43) || (c =? 47)) (seq 0 key_digits) &&
     forallb (fun i => char_at key i =? 61) (seq key_digits (key_length - key_digits))
  then 0 else - LTFS_BAD_ARG.

Definition is_keyalias (keyalias : list Z) : Z :=
  if forallb (fun i => isprint (char_at keyalias i)) (seq 0 DKI_ASCII_LENGTH) &&
     forallb (fun i => isxdigit (char_at keyalias i)) (seq DKI_ASCII_LENGTH (keyalias_length - DKI_ASCII_LENGTH))
  then 0 else - LTFS_BAD_ARG.

(** The loop of [get_num_of_keys]; a turn moves on by more than one character. *)
Fixpoint count_keys (fuel : nat) (s : list Z) (i : nat) (num_of_keys : Z) : Z :=
  match fuel with
  | O => - LTFS_BAD_ARG
  | S fuel =>
      let i := if num_of_keys =? 0 then i else (i + SEPARATOR_LENGTH)%nat in
      if is_key (drop i s) <? 0 then - LTFS_BAD_ARG
      else
        let i := (i + key_length)%nat in
        if negb (char_at s i =? 58) then - LTFS_BAD_ARG
        else
          let i := (i + SEPARATOR_LENGTH)%nat in
          if is_keyalias (drop i s) <? 0 then - LTFS_BAD_ARG
          else
            let i := (i + keyalias_length)%nat in
            let num_of_keys := num_of_keys + 1 in
            if ((i + SEPARATOR_LENGTH + key_length + SEPARATOR_LENGTH + keyalias_length <=? length s)%nat &&
                (char_at s i =? 47))%bool
            then count_keys fuel s i num_of_keys
            else if (i =? length s)%nat then num_of_keys else - LTFS_BAD_ARG
  end.

Definition get_num_of_keys (s : list Z) : Z :=
  if (key_length + SEPARATOR_LENGTH + keyalias_length <=? length s)%nat
  then count_keys (length s) s 0 0 else 0.

(** ** Converting the text *)

(** The key stays zero when it cannot be decoded; the caller does not look at
    the result. *)
Definition convert_key (malloc_ok : bool) (enc : list Z) : list Z :=
  match base64_decode malloc_ok (take key_length enc) with
  | Decoded dec => if (length dec =? DK_LENGTH)%nat then map (default 0) dec else replicate DK_LENGTH 0
  | _ => replicate DK_LENGTH 0
  end.

Definition hex_byte (s : list Z) (i : nat) : option Z :=
  a ← c_char s (DKI_ASCII_LENGTH + i * 2);
  b ← c_char s (DKI_ASCII_LENGTH + i * 2 + 1);
  Some (u8 (strtoul16 (until_nul [a; b]))).

Definition convert_keyalias (s : list Z) : option (list Z) :=
  front ← mapM (c_char s) (seq 0 DKI_ASCII_LENGTH);
  rest ← mapM (hex_byte s) (seq 0 (DKI_LENGTH - DKI_ASCII_LENGTH));
  Some (front ++ rest).

(** The loop of [set_dk_list]; [offset] moves over the text.  [None] is a read
    behind its end. *)
Fixpoint convert_keys (malloc_ok : nat -> bool) (n : nat) (s : list Z) (offset : nat) : option (list key) :=
  match n with
  | O => Some []
  | S n =>
      let k := convert_key (malloc_ok n) (drop offset s) in
      let offset := (offset + (key_length + 1))%nat in
      a ← convert_keyalias (drop offset s);
      let offset := (offset + (keyalias_length + 1))%nat in
      l ← convert_keys malloc_ok n s offset;
      Some (mk_key k a :: l)
  end.

Record host_memory := mk_memory {
  list_ok : bool;
  alias_ok : bool;
  key_ok : bool;
  decode_ok : nat -> bool;
}.

(** ** The key manager *)

Definition key_format_ltfs_init (mem_ok : bool) (st : kfl_state) : option key_format_ltfs :=
  if bool_decide (st = KFL_UNINITIALIZED) && mem_ok then Some (mk_kfl KFL_INITIALIZED []) else None.

Definition key_format_ltfs_destroy (k : key_format_ltfs) : Z * kfl_state := (0, KFL_DESTROYED).

(** [None] is a read behind the end of a string. *)
Definition set_dk_list (mem : host_memory) (text : option (list Z)) (k : key_format_ltfs)
    : option (Z * key_format_ltfs) :=
  if negb (bool_decide (state k = KFL_INITIALIZED) || bool_decide (state k = KFL_CLEARED)) then
    Some (- LTFS_INVALID_SEQUENCE, k)
  else
    let num_of_keys := match text with Some s => get_num_of_keys s | None => 0 end in
    if num_of_keys <? 0 then Some (num_of_keys, k)
    else
      if num_of_keys =? 0 then Some (0, k <| state := KFL_SET |>)
      else if negb (list_ok mem) then Some (- LTFS_NO_MEMORY, k)
      else
        l ← convert_keys (decode_ok mem) (Z.to_nat num_of_keys) (default [] text) 0;
        Some (0, k <| dk_list := l |> <| state := KFL_SET |>).

Definition find_key (keyalias : list Z) (l : list key) : option key :=
  head (filter (fun e => keyalias = dki e) l).

(** The result is the code, the identifier the caller has afterwards and the
    key. *)
Definition get_key (mem : host_memory) (keyalias : option (list Z)) (dki_for_format : option (list Z)) (k : key_format_ltfs)
    : option (Z * option (list Z) * option (list Z)) :=
  match keyalias, dki_for_format with
  | None, None => Some (0, None, None)
  | _, _ =>
      alias ← (match keyalias with
        | Some a => Some (Some a)
        | None => if negb (alias_ok mem) then Some None
                  else a ← convert_keyalias (default [] dki_for_format); Some (Some a)
        end);
      match alias with
      | None => Some (- LTFS_NO_MEMORY, None, None)
      | Some a =>
          match find_key a (dk_list k) with
          | None => Some (- LTFS_KEY_NOT_FOUND, Some a, None)
          | Some e => if negb (key_ok mem) then Some (- LTFS_NO_MEMORY, Some a, None) else Some (0, Some a, Some (dk e))
          end
      end
  end.

Definition clear (k : key_format_ltfs) : Z * key_format_ltfs :=
  (0, k <| dk_list := [] |> <| state := if bool_decide (state k = KFL_SET) then KFL_CLEARED else state k |>).

Definition key_format_ltfs_get_key (mem : host_memory) (keyalias text dki_for_format : option (list Z)) (k : key_format_ltfs)
    : option (Z * option (list Z) * option (list Z) * key_format_ltfs) :=
  '(ret, k) ← set_dk_list mem text k;
  if ret <? 0 then Some (ret, keyalias, None, k)
  else
    '(ret, alias, key) ← get_key mem keyalias dki_for_format k;
    let '(ret', k) := clear k in
    if ret <? 0 then Some (ret, alias, key, k) else Some (ret', alias, key, k).

(** ** The plug-ins *)

(** The options after [fuse_opt_parse]. *)
Record kmi_simple_options_data := mk_simple {
  o_dk : option (list Z);
  o_dki : option (list Z);
  o_dk_for_format : option (list Z);
  o_dki_for_format : option (list Z);
  o_dk_list : option (list Z);
}.

Definition is_set (o : option (list Z)) : bool := match o with Some _ => true | None => false end.

Definition append_pair (mem_ok : bool) (k a : option (list Z)) (l : option (list Z)) : Z + option (list Z) :=
  match k with
  | None => inr l
  | Some k =>
      if negb mem_ok then inl (- LTFS_NO_MEMORY)
      else
        let old := default [] l in
        inr (Some (old ++ (if bool_decide (old = []) then [] else [47]) ++ k ++ [58] ++ default [] a))
  end.

(** The tests and the loop of [simple_parse_opts]; the result is the code and
    the text of the keys. *)
Definition simple_parse_opts (mem_ok : bool) (o : kmi_simple_options_data) : Z * option (list Z) :=
  if xorb (is_set (o_dk o)) (is_set (o_dki o)) || (is_set (o_dk_for_format o) && negb (is_set (o_dki_for_format o)))
  then (- 1, o_dk_list o)
  else if is_set (o_dk o) && is_set (o_dki o) && is_set (o_dk_for_format o) && is_set (o_dki_for_format o) &&
          xorb (bool_decide (o_dk o = o_dk_for_format o)) (bool_decide (o_dki o = o_dki_for_format o))
  then (- 1, o_dk_list o)
  else
    match append_pair mem_ok (o_dk o) (o_dki o) (o_dk_list o) with
    | inl ret => (ret, None)
    | inr l =>
        match append_pair mem_ok (o_dk_for_format o) (o_dki_for_format o) l with
        | inl ret => (ret, None)
        | inr l => (0, l)
        end
    end.

(** ["DK="] and ["DKi="]. *)
Definition tag (i : Z) : list Z := if i =? 0 then [68; 75; 61] else [68; 75; 105; 61].

Fixpoint strip_prefix (p s : list Z) : option (list Z) :=
  match p, s with
  | [], _ => Some s
  | a :: p', c :: s' => if a =? c then strip_prefix p' s' else None
  | _, [] => None
  end.

Definition chomp (s : list Z) : list Z := if bool_decide (last s = Some 10) then removelast s else s.

(** The loop of [convert_option] over what [fgets] delivers: nonempty strings of
    at most 1023 characters.  [realloc_ok] has one answer for each. *)
Fixpoint convert_lines (realloc_ok : nat -> bool) (t : nat) (lines : list (list Z)) (num_of_lines : Z) (dk_list : list Z)
    : Z * list Z :=
  match lines with
  | [] => (0, dk_list)
  | buf :: lines' =>
      let i := num_of_lines mod 2 in
      match strip_prefix (tag i) buf with
      | Some _ =>
          let value := drop (length (tag i)) (chomp buf) in
          if negb (realloc_ok t) then (- LTFS_NO_MEMORY, dk_list)
          else
            let sep := if num_of_lines =? 0 then [] else [if i =? 0 then 47 else 58] in
            convert_lines realloc_ok (S t) lines' (u32 (num_of_lines + 1)) (dk_list ++ sep ++ value)
      | None =>
          if bool_decide (head buf = Some 10) then
            convert_lines realloc_ok t lines' (u32 (u32 (num_of_lines - 1) + 1)) dk_list
          else (- 1, dk_list)
      end
  end.

(** ** The text of a list of keys *)

Definition hex_char (v : Z) : Z := if v <? 10 then 48 + v else 55 + v.

Definition print_alias (a : list Z) : list Z :=
  take DKI_ASCII_LENGTH a ++ (b ← drop DKI_ASCII_LENGTH a; [hex_char (Z.shiftr b 4); hex_char (Z.land b 15)]).

Definition print_key (k : key) : list Z := base64_encode (dk k) ++ [58] ++ print_alias (dki k).

Fixpoint print_keys (ks : list key) : list Z :=
  match ks with
  | [] => []
  | [k] => print_key k
  | k :: ks' => print_key k ++ [47] ++ print_keys ks'
  end.

(** A key of 32 bytes with an identifier of three printable characters and nine
    bytes. *)
Record key_ok_form (k : key) : Prop := {
  kf_dk : Forall is_byte (dk k) /\ length (dk k) = DK_LENGTH;
  kf_front : Forall (fun c => isprint c = true) (take DKI_ASCII_LENGTH (dki k));
  kf_back : Forall is_byte (drop DKI_ASCII_LENGTH (dki k));
  kf_dki : length (dki k) = DKI_LENGTH;
}.

Definition is_char64 (c : Z) : bool := isalnum c || (c =? 43) || (c =? 47).

Lemma enc_char64 v : digit_range v = true -> is_char64 (enc_char v) = true.
Proof.
  unfold digit_range. intros Hv. bsplit. apply (check1_spec 64 (fun v => is_char64 (enc_char v))); [done|lia].
Qed.

Lemma digits_char64 l : Forall is_byte l -> Forall (fun c => is_char64 c = true) (base64_digits l).
Proof.
  revert l. apply three_ind; [constructor|intros a Ha|intros a b Ha Hb|intros a b c l Ha Hb Hc _ IH]; cbn [base64_digits].
  - rewrite <- last_q1. destruct (q_range a 0 Ha zero_byte) as (? & ? & _). repeat constructor; by apply enc_char64.
  - rewrite <- last_q2. destruct (q_range a b Ha Hb) as (? & ? & _), (q_range b 0 Hb zero_byte) as (_ & _ & ? & _).
    repeat constructor; by apply enc_char64.
  - destruct (q_range a b Ha Hb) as (? & ? & _), (q_range b c Hb Hc) as (_ & _ & ? & _), (q_range c c Hc Hc) as (_ & _ & _ & ?).
    repeat constructor; try (by apply enc_char64). done.
Qed.

Lemma key_text_shape l : length l = DK_LENGTH ->
  length (base64_digits l) = key_digits /\ base64_padding l = [EQUALS].
Proof.
  intros Hl. do 32 (destruct l as [|? l]; [done|]). destruct l; [|done]. done.
Qed.

Lemma forallb_seq (f : nat -> bool) a n : (forall i, (a <= i < a + n)%nat -> f i = true) -> forallb f (seq a n) = true.
Proof. intros Hf. apply forallb_forall. intros i [? ?]%in_seq. by apply Hf. Qed.

Lemma is_key_printed k rest : key_ok_form k -> is_key (print_key k ++ rest) = 0.
Proof.
  intros [[Hb Hl] _ _ _]. destruct (key_text_shape _ Hl) as [Hd Hp]. unfold is_key, print_key, base64_encode. rewrite Hp.
  rewrite (forallb_seq _ 0), (forallb_seq _ key_digits); [done| |].
  - intros i Hi. change (key_length - key_digits)%nat with 1%nat in Hi. assert (i = key_digits) as -> by lia.
    unfold char_at. rewrite <- !app_assoc, lookup_app_r, Hd by lia. by rewrite Nat.sub_diag.
  - intros i Hi. unfold char_at. rewrite <- !app_assoc, lookup_app_l by lia.
    destruct (lookup_lt_is_Some_2 (base64_digits (dk k)) i) as [c Hc]; [lia|]. rewrite Hc. cbn.
    pose proof (digits_char64 _ Hb) as Hall. rewrite Forall_lookup in Hall. exact (Hall i c Hc).
Qed.

Lemma skip_digits_id l : Forall is_byte l -> skip_spaces (base64_digits l) = base64_digits l.
Proof.
  intros Hl%digits_ok. unfold skip_spaces. induction Hl as [|c r Hc _ IH]; [done|]. rewrite filter_cons.
  apply digit_facts in Hc as (Hs & _). rewrite decide_True by done. by rewrite IH.
Qed.

Lemma convert_key_printed k rest : key_ok_form k -> convert_key true (print_key k ++ rest) = dk k.
Proof.
  intros [[Hb Hl] _ _ _]. destruct (key_text_shape _ Hl) as [Hd Hp].
  unfold convert_key, print_key, base64_encode. rewrite <- app_assoc, take_app_length'.
  - rewrite (decode_encoded (dk k) (base64_digits (dk k))); [|done|by intros E; rewrite E in Hl| |by apply skip_digits_id].
    + rewrite length_map, Hl. cbn. rewrite map_map. apply map_id.
    + unfold zlength. rewrite Hd. cbn. lia.
  - rewrite length_app, Hd, Hp. done.
Qed.

(** ** Identifiers *)

Lemma hex_facts b : is_byte b ->
  isxdigit (hex_char (Z.shiftr b 4)) = true /\ isxdigit (hex_char (Z.land b 15)) = true /\
  u8 (strtoul16 (until_nul [hex_char (Z.shiftr b 4); hex_char (Z.land b 15)])) = b.
Proof.
  unfold is_byte. intros Hb. pose proof (check1_spec 256 (fun b => isxdigit (hex_char (Z.shiftr b 4)) && isxdigit (hex_char (Z.land b 15)) &&
    (u8 (strtoul16 (until_nul [hex_char (Z.shiftr b 4); hex_char (Z.land b 15)])) =? b)) b eq_refl Hb) as Hc.
  cbn beta in Hc. bsplit. done.
Qed.

Ltac split_alias :=
  match goal with H : length ?a = DKI_LENGTH |- _ =>
    do 12 (destruct a as [|? a]; [done|]); destruct a; [|done]
  end.

Lemma alias_printed a rest :
  Forall (fun c => isprint c = true) (take DKI_ASCII_LENGTH a) -> Forall is_byte (drop DKI_ASCII_LENGTH a) -> length a = DKI_LENGTH ->
  is_keyalias (print_alias a ++ rest) = 0 /\ convert_keyalias (print_alias a ++ rest) = Some a /\ length (print_alias a) = keyalias_length.
Proof.
  intros Hf Hb Hl. split_alias. cbn in Hf, Hb.
  repeat match goal with H : Forall _ (_ :: _) |- _ => apply Forall_cons in H as [? H] end.
  repeat match goal with H : is_byte ?b |- _ => destruct (hex_facts b H) as (? & ? & ?); clear H end.
  split_and!; [| |done].
  - unfold is_keyalias, char_at. cbn -[isprint isxdigit hex_char Z.shiftr Z.land].
    repeat match goal with H : _ = true |- _ => rewrite H; clear H end. done.
  - unfold convert_keyalias, hex_byte, c_char. cbn -[u8 strtoul16 until_nul hex_char Z.shiftr Z.land].
    repeat match goal with H : u8 _ = _ |- _ => rewrite H; clear H end. done.
Qed.

(** ** Lists of keys *)

Lemma print_key_length k : key_ok_form k -> length (print_key k) = (key_length + 1 + keyalias_length)%nat.
Proof.
  intros [[Hb Hl] Hf Hk Hd]. destruct (key_text_shape _ Hl) as [Hdl Hp], (alias_printed (dki k) [] Hf Hk Hd) as (_ & _ & Ha).
  unfold print_key, base64_encode. rewrite !length_app, Hdl, Hp, Ha. done.
Qed.

(** The text of a pair, and what follows it. *)
Definition tail_text (ks : list key) : list Z := match ks with [] => [] | _ => 47 :: print_keys ks end.

Lemma print_keys_cons k ks : print_keys (k :: ks) = print_key k ++ tail_text ks.
Proof. destruct ks; cbn; [by rewrite app_nil_r|done]. Qed.

Lemma print_keys_long k ks : Forall key_ok_form (k :: ks) -> (key_length + 1 + keyalias_length <= length (print_keys (k :: ks)))%nat.
Proof. intros [Hk _]%Forall_cons. rewrite print_keys_cons, length_app, print_key_length by done. lia. Qed.

(** The parts of the text of a pair at their places. *)
Lemma pair_parts pre k rest : key_ok_form k ->
  let s := pre ++ print_key k ++ rest in
  let j := (length pre + key_length)%nat in
  is_key (drop (length pre) s) = 0 /\ convert_key true (drop (length pre) s) = dk k /\ char_at s j = 58 /\
  is_keyalias (drop (j + 1) s) = 0 /\ convert_keyalias (drop (j + 1) s) = Some (dki k) /\
  drop (j + 1 + keyalias_length) s = rest.
Proof.
  intros Hk s j. pose proof Hk as [[Hb Hl] Hf Hbk Hd]. destruct (key_text_shape _ Hl) as [Hdl Hp].
  destruct (alias_printed (dki k) rest Hf Hbk Hd) as (A1 & A2 & A3).
  assert (He : length (base64_encode (dk k)) = key_length) by (unfold base64_encode; by rewrite length_app, Hdl, Hp).
  assert (E1 : drop (length pre) s = print_key k ++ rest) by apply drop_app_length.
  assert (E2 : s = (pre ++ base64_encode (dk k)) ++ 58 :: print_alias (dki k) ++ rest)
    by (unfold s, print_key; rewrite <- !app_assoc; done).
  assert (Hj : length (pre ++ base64_encode (dk k)) = j) by (rewrite length_app, He; done).
  assert (E3 : drop (j + 1) s = print_alias (dki k) ++ rest).
  { rewrite E2, <- Hj, <- drop_drop, drop_app_length. done. }
  rewrite E1, E3. split_and!; try done.
  - by apply is_key_printed.
  - by apply convert_key_printed.
  - unfold char_at. rewrite E2, <- Hj. by rewrite list_lookup_middle.
  - rewrite <- drop_drop, E3, <- A3. apply drop_app_length.
Qed.

Lemma count_keys_printed : forall ks fuel pre i n,
  ks <> [] -> Forall key_ok_form ks -> (length ks <= fuel)%nat -> 0 <= n ->
  (i + (if (n =? 0)%Z then 0 else 1) = length pre)%nat ->
  count_keys fuel (pre ++ print_keys ks) i n = n + zlength ks.
Proof.
  induction ks as [|k ks IH]; intros fuel pre i n Hne Hks Hfuel Hn Hi; [done|].
  destruct fuel as [|fuel]; [cbn in Hfuel; lia|]. apply Forall_cons in Hks as [Hk Hks]. cbn [count_keys].
  replace (if n =? 0 then i else (i + SEPARATOR_LENGTH)%nat) with (length pre) by (unfold SEPARATOR_LENGTH; case_bool; lia).
  rewrite print_keys_cons. destruct (pair_parts pre k (tail_text ks) Hk) as (P1 & _ & P3 & P4 & _ & P6).
  unfold SEPARATOR_LENGTH. rewrite P1, P3, P4. cbn [Z.ltb Z.compare negb Z.eqb].
  set (s := pre ++ print_key k ++ tail_text ks) in *. set (i' := (length pre + key_length + 1 + keyalias_length)%nat) in *.
  assert (Hlen : length s = (i' + length (tail_text ks))%nat).
  { unfold s. rewrite !length_app, print_key_length by done. unfold i'. lia. }
  destruct ks as [|k2 ks].
  - replace (_ <=? length s)%nat with false by (symmetry; apply Nat.leb_gt; rewrite Hlen; cbn; lia). cbn [andb].
    replace (i' =? length s)%nat with true by (symmetry; apply Nat.eqb_eq; rewrite Hlen; cbn; lia). done.
  - pose proof (print_keys_long k2 ks Hks) as Hlong.
    replace (_ <=? length s)%nat with true by (symmetry; apply Nat.leb_le; rewrite Hlen; cbn [tail_text length]; lia).
    assert (Hc : char_at s i' = 47).
    { unfold char_at. rewrite <- (Nat.add_0_r i'), <- lookup_drop. by rewrite P6. }
    rewrite Hc. cbn [andb Z.eqb Pos.eqb].
    replace s with ((pre ++ print_key k ++ [47]) ++ print_keys (k2 :: ks)) by (unfold s; rewrite <- !app_assoc; done).
    rewrite IH; try done; [cbn [negb]; rewrite !zlength_cons; lia|cbn in Hfuel |- *; lia|lia|].
    rewrite !length_app, print_key_length by done. replace (n + 1 =? 0) with false by lia. cbn [length]. unfold i'. lia.
Qed.

Lemma print_keys_fuel ks : Forall key_ok_form ks -> (length ks <= length (print_keys ks))%nat.
Proof.
  induction ks as [|k ks IH]; [done|]. intros [Hk Hks]%Forall_cons. rewrite print_keys_cons, length_app, print_key_length by done.
  destruct ks as [|k2 ks]; [cbn; lia|]. specialize (IH Hks). cbn [tail_text length] in *. lia.
Qed.

Lemma get_num_of_keys_printed ks : Forall key_ok_form ks -> get_num_of_keys (print_keys ks) = zlength ks.
Proof.
  intros Hks. unfold get_num_of_keys. destruct ks as [|k ks]; [done|]. pose proof (print_keys_long k ks Hks) as Hl.
  unfold SEPARATOR_LENGTH. replace (_ <=? _)%nat with true by (symmetry; by apply Nat.leb_le).
  rewrite (count_keys_printed (k :: ks) _ [] 0 0); try done. by apply print_keys_fuel.
Qed.

Lemma convert_keys_printed ok : (forall t, ok t = true) -> forall ks pre,
  Forall key_ok_form ks -> convert_keys ok (length ks) (pre ++ print_keys ks) (length pre) = Some ks.
Proof.
  intros Hmem. induction ks as [|k ks IH]; intros pre Hks; [done|]. apply Forall_cons in Hks as [Hk Hks].
  cbn [convert_keys length]. rewrite print_keys_cons, Hmem. destruct (pair_parts pre k (tail_text ks) Hk) as (_ & P2 & _ & _ & P5 & _).
  rewrite P2. replace (length pre + (key_length + 1))%nat with (length pre + key_length + 1)%nat by lia. rewrite P5. cbn [mbind option_bind].
  destruct ks as [|k2 ks]; [by destruct k|].
  replace (length pre + key_length + 1 + (keyalias_length + 1))%nat with (length (pre ++ print_key k ++ [47]))
    by (rewrite !length_app, print_key_length by done; cbn [length]; lia).
  replace (pre ++ print_key k ++ tail_text (k2 :: ks)) with ((pre ++ print_key k ++ [47]) ++ print_keys (k2 :: ks)) by (by rewrite <- !app_assoc).
  rewrite IH by done. by destruct k.
Qed.

(** ** Files of keys *)

Definition key_lines (k : key) : list (list Z) :=
  [tag 0 ++ base64_encode (dk k) ++ [10]; tag 1 ++ print_alias (dki k) ++ [10]].

Definition key_file (ks : list key) : list (list Z) := k ← ks; key_lines k.

Lemma tagged_value t v : strip_prefix t (t ++ v ++ [10]) = Some (v ++ [10]) /\ drop (length t) (chomp (t ++ v ++ [10])) = v.
Proof.
  split.
  - induction t as [|c t IH]; [done|]. cbn. by rewrite Z.eqb_refl.
  - unfold chomp. rewrite app_assoc, last_snoc, bool_decide_eq_true_2 by done.
    rewrite removelast_last. apply drop_app_length.
Qed.

Lemma convert_lines_printed ok : (forall t, ok t = true) -> forall ks t m acc,
  0 <= m -> 2 * m + 2 * zlength ks < 2 ^ 32 ->
  convert_lines ok t (key_file ks) (2 * m) acc = (0, acc ++ if m =? 0 then print_keys ks else tail_text ks).
Proof.
  intros Hok. induction ks as [|k ks IH]; intros t m acc Hm Hb.
  { cbn. by destruct (m =? 0); rewrite app_nil_r. }
  rewrite zlength_cons in Hb. pose proof (zlength_nonneg ks).
  change (key_file (k :: ks)) with (key_lines k ++ key_file ks). unfold key_lines. cbn [app convert_lines].
  assert (M0 : (2 * m) mod 2 = 0) by (rewrite Z.mul_comm; apply Z_mod_mult).
  assert (M1 : (2 * m + 1) mod 2 = 1) by (rewrite Z.add_comm, (Z.mul_comm 2), Z_mod_plus_full; done).
  rewrite M0. destruct (tagged_value (tag 0) (base64_encode (dk k))) as [-> ->]. rewrite Hok. cbn [negb Z.eqb].
  rewrite (u32_small (2 * m + 1)) by lia. rewrite M1.
  destruct (tagged_value (tag 1) (print_alias (dki k))) as [-> ->]. rewrite Hok. cbn [negb Z.eqb].
  rewrite (u32_small (2 * m + 1 + 1)) by lia. replace (2 * m + 1 =? 0) with false by lia.
  replace (2 * m + 1 + 1) with (2 * (m + 1)) by lia. rewrite IH by lia. replace (m + 1 =? 0) with false by lia.
  replace (2 * m =? 0) with (m =? 0) by lia. f_equal. destruct (m =? 0).
  - rewrite print_keys_cons. unfold print_key. by rewrite <- !app_assoc.
  - unfold tail_text at 2. rewrite print_keys_cons. unfold print_key. cbn [app]. by rewrite <- !app_assoc.
Qed.

Lemma get_key_printed mem ks alias st :
  list_ok mem = true -> key_ok mem = true -> (forall t, decode_ok mem t = true) -> Forall key_ok_form ks ->
  (st = KFL_INITIALIZED \/ st = KFL_CLEARED) ->
  key_format_ltfs_get_key mem (Some alias) (Some (print_keys ks)) None (mk_kfl st []) =
  Some (match find_key alias ks with
        | Some e => (0, Some alias, Some (dk e))
        | None => (- LTFS_KEY_NOT_FOUND, Some alias, None)
        end, mk_kfl KFL_CLEARED []).
Proof.
  intros Hl Hk Hd Hks Hst. unfold key_format_ltfs_get_key, set_dk_list. cbn [state].
  replace (bool_decide (st = KFL_INITIALIZED) || bool_decide (st = KFL_CLEARED)) with true by (by destruct Hst as [-> | ->]).
  cbn [negb]. rewrite get_num_of_keys_printed by done. pose proof (zlength_nonneg ks). replace (zlength ks <? 0) with false by lia.
  destruct ks as [|k ks]; [done|]. rewrite zlength_cons. pose proof (zlength_nonneg ks). replace (zlength ks + 1 =? 0) with false by lia. rewrite Hl.
  cbn [negb default]. replace (Z.to_nat (zlength ks + 1)) with (length (k :: ks)) by (unfold zlength; cbn; lia).
  pose proof (convert_keys_printed _ Hd (k :: ks) [] Hks) as Hc. cbn [app length] in Hc. cbn [length from_option id]. rewrite Hc. cbn [mbind option_bind Z.ltb Z.compare].
  change ((mk_kfl st []) <| dk_list := k :: ks |> <| state := KFL_SET |>) with (mk_kfl KFL_SET (k :: ks)).
  unfold get_key. cbn [mbind option_bind dk_list]. destruct (find_key alias (k :: ks)) as [e|]; [|done]. by rewrite Hk.
Qed.

(** C39: keys in a file are found by their identifiers.  When no allocation fails,
    the lines [DK=...] and [DKi=...] of any list of well-formed keys give the text from which the key
    manager, in the states that allow it, returns the data key of the first pair with the
    identifier asked for, byte for byte, or [-LTFS_KEY_NOT_FOUND] when there is
    none; afterwards it holds no key.  Without memory it can return a key of zeros
    ([zero_key_without_memory]). *)
Theorem key_file_round_trip mem realloc_ok ks alias st :
  list_ok mem = true -> key_ok mem = true -> (forall t, decode_ok mem t = true) -> (forall t, realloc_ok t = true) ->
  Forall key_ok_form ks -> 2 * zlength ks < 2 ^ 32 -> (st = KFL_INITIALIZED \/ st = KFL_CLEARED) ->
  exists text, convert_lines realloc_ok 0 (key_file ks) 0 [] = (0, text) /\
    key_format_ltfs_get_key mem (Some alias) (Some text) None (mk_kfl st []) =
    Some (match find_key alias ks with
          | Some e => (0, Some alias, Some (dk e))
          | None => (- LTFS_KEY_NOT_FOUND, Some alias, None)
          end, mk_kfl KFL_CLEARED []).
Proof.
  intros Hl Hk Hd Hr Hks Hb Hst. exists (print_keys ks). split; [|by apply get_key_printed].
  by apply (convert_lines_printed realloc_ok Hr ks 0 0 []).
Qed.

(** Two keys. *)
Definition memory : host_memory := mk_memory true true true (fun _ => true).
Definition key_a : key := mk_key (map Z.of_nat (seq 7 32)) [65; 66; 67; 0; 1; 2; 3; 4; 5; 6; 7; 255].
Definition key_b : key := mk_key (map Z.of_nat (seq 200 32)) [68; 69; 70; 0; 0; 0; 0; 0; 0; 0; 0; 1].

Lemma bytes_forall l : forallb (fun x => (0 <=? x) && (x <? 256)) l = true -> Forall is_byte l.
Proof. rewrite forallb_forall. intros Hl. apply Forall_forall. intros x Hx%list_elem_of_In%Hl. unfold is_byte. bsplit. lia. Qed.

Lemma key_form_check k :
  forallb (fun x => (0 <=? x) && (x <? 256)) (dk k) = true -> length (dk k) = DK_LENGTH ->
  forallb isprint (take DKI_ASCII_LENGTH (dki k)) = true ->
  forallb (fun x => (0 <=? x) && (x <? 256)) (drop DKI_ASCII_LENGTH (dki k)) = true -> length (dki k) = DKI_LENGTH -> key_ok_form k.
Proof.
  intros H1%bytes_forall H2 H3 H4%bytes_forall H5. split; try done. rewrite forallb_forall in H3. apply Forall_forall.
  by intros x Hx%list_elem_of_In%H3.
Qed.

Lemma key_file_round_trip_witness :
  exists text, convert_lines (fun _ => true) 0 (key_file [key_a; key_b]) 0 [] = (0, text) /\
    key_format_ltfs_get_key memory (Some (dki key_b)) (Some text) None (mk_kfl KFL_INITIALIZED []) =
    Some (0, Some (dki key_b), Some (dk key_b), mk_kfl KFL_CLEARED []).
Proof.
  apply (key_file_round_trip memory (fun _ => true) [key_a; key_b] (dki key_b) KFL_INITIALIZED); try done; [|by left].
  constructor; [|constructor; [|constructor]]; by apply key_form_check.
Defined.

(** When the decoder gets no memory, the key silently becomes 32 zero bytes and
    the call succeeds. *)
Lemma zero_key_without_memory :
  key_format_ltfs_get_key (mk_memory true true true (fun _ => false)) (Some (dki key_a)) (Some (print_keys [key_a])) None
    (mk_kfl KFL_INITIALIZED []) =
  Some (0, Some (dki key_a), Some (replicate 32 0), mk_kfl KFL_CLEARED []).
Proof. vm_compute. reflexivity. Qed.

(** The identifier for formatting is converted without a check of its length. *)
Lemma short_format_alias_overreads :
  key_format_ltfs_get_key memory None (Some (print_keys [key_a])) (Some [65; 66; 67]) (mk_kfl KFL_INITIALIZED []) = None.
Proof. vm_compute. reflexivity. Qed.
