(* ===== verification/CacheManager.v ===== *)
(** * The cache manager of the I/O schedulers ([cache_manager.c])

    A pool hands out blocks of memory, doubles when it runs dry until its high
    water mark, and shrinks again when blocks come back.  Which allocations of
    the host succeed is an input of each call: [ok i] is the outcome of the
    [i]-th creation of the call.  Capacities are [size_t]; the size of a block
    with its four bytes of protection is that of an object of the host, which
    does not reach 2^64. *)

From S2P Require Import Prelude.

Definition LTFS_CRC_SIZE : Z := 4.

(** [data] is the buffer of the object; [object->pool] is the only pool there
    is and is passed explicitly. *)
Record cache_object := mk_object {
  refcount : Z;
  data : list Z;
}.

Record cache_pool := mk_pool {
  object_size : Z;
  initial_capacity : Z;
  max_capacity : Z;
  current_capacity : Z;
  pool : list cache_object;
}.

#[export] Instance eta_object : Eta cache_object := fun o => mk_object (refcount o) (data o).
#[export] Instance eta_pool : Eta cache_pool := fun p =>
  mk_pool (object_size p) (initial_capacity p) (max_capacity p) (current_capacity p) (pool p).

(** ** Operations *)

Definition _cache_manager_create_object (ok : bool) (p : cache_pool) : option cache_object * cache_pool :=
  if negb ok then (None, p)
  else
    let object := mk_object 1 (zeros (object_size p + LTFS_CRC_SIZE)) in
    (Some object, p <| pool := pool p ++ [object] |>).

(** The loop of [cache_manager_init]; [None] is a failed creation. *)
Fixpoint create_objects (ok : nat -> bool) (i n : nat) (p : cache_pool) : option cache_pool :=
  match n with
  | O => Some p
  | S n' =>
      match _cache_manager_create_object (ok i) p with
      | (None, _) => None
      | (Some _, p) => create_objects ok (S i) n' p
      end
  end.

Definition cache_manager_init (pool_ok : bool) (ok : nat -> bool) (object_size initial_capacity max_capacity : Z)
    : option cache_pool :=
  if negb pool_ok then None
  else create_objects ok 0 (Z.to_nat initial_capacity)
         (mk_pool object_size initial_capacity max_capacity initial_capacity []).

Definition cache_manager_has_room (p : cache_pool) : bool :=
  negb (match pool p with [] => true | _ => false end && (current_capacity p =? max_capacity p)).

(** The size the pool may grow to when it is empty. *)
Definition new_capacity (p : cache_pool) : Z :=
  if u64 (current_capacity p * 2) <? max_capacity p then
    if negb (current_capacity p =? 0) then u64 (current_capacity p * 2) else max_capacity p / 2
  else max_capacity p.

(** The growing loop: it stops at the first failure and keeps what it made. *)
Fixpoint grow (ok : nat -> bool) (i n : nat) (last_object : option cache_object) (p : cache_pool)
    : option cache_object * cache_pool :=
  match n with
  | O => (last_object, p)
  | S n' =>
      match _cache_manager_create_object (ok i) p with
      | (None, p) => (last_object, p)
      | (Some object, p) =>
          grow ok (S i) n' (Some object) (p <| current_capacity := current_capacity p ⊞ 1 |>)
      end
  end.

Definition cache_manager_allocate_object (ok : nat -> bool) (p : cache_pool) : option cache_object * cache_pool :=
  match pool p with
  | object :: rest => (Some (object <| refcount := 1 |>), p <| pool := rest |>)
  | [] =>
      if current_capacity p =? max_capacity p then (None, p)
      else
        match grow ok 0 (Z.to_nat (new_capacity p - current_capacity p)) None p with
        | (None, p) => (None, p)
        | (Some last_object, p) => (Some last_object, p <| pool := removelast (pool p) |>)
        end
  end.

Definition cache_manager_get_object (object : cache_object) : cache_object :=
  object <| refcount := u32 (refcount object + 1) |>.

(** [memset(p, 0, n)] at the start of a buffer. *)
Definition clear_front (n : Z) (l : list Z) : list Z := zeros n ++ drop (Z.to_nat n) l.

(** What is left of the object for its other owners, and the pool. *)
Definition cache_manager_free_object (object : cache_object) (count : Z) (p : cache_pool)
    : option cache_object * cache_pool :=
  let object := object <| refcount := u32 (refcount object - 1) |> in
  if 0 <? refcount object then (Some object, p)
  else if initial_capacity p <? current_capacity p then
    (None, p <| current_capacity := current_capacity p ⊟ 1 |>)
  else
    let n := if negb (count =? 0) then count else object_size p in
    (None, p <| pool := pool p ++ [object <| data := clear_front n (data object) |>] |>).

Definition cache_manager_get_object_data (object : cache_object) : list Z := data object.

Definition cache_manager_get_object_size (p : cache_pool) : Z := object_size p.

(** ** The pool invariant

    [out] objects are in the hands of callers.  The others are in the pool,
    ready, and all that were ever created and not released are accounted for
    in [current_capacity]. *)

Definition object_ok (p : cache_pool) (o : cache_object) : Prop :=
  zlength (data o) = object_size p + LTFS_CRC_SIZE.

Record pool_ok (out : Z) (p : cache_pool) : Prop := {
  po_count : out + zlength (pool p) = current_capacity p;
  po_out : 0 <= out;
  po_range : 0 <= initial_capacity p <= current_capacity p;
  po_max : current_capacity p <= max_capacity p <= 2 ^ 63;
  po_size : 0 <= object_size p;
  po_objects : Forall (object_ok p) (pool p);
}.

(** The configuration: what [cache_manager_init] fixes once and for all. *)
Definition same_config (p q : cache_pool) : Prop :=
  object_size q = object_size p /\ initial_capacity q = initial_capacity p /\
  max_capacity q = max_capacity p.

Lemma same_config_trans p q r : same_config p q -> same_config q r -> same_config p r.
Proof. unfold same_config. intuition congruence. Qed.

Lemma object_ok_config p q o : same_config p q -> object_ok p o -> object_ok q o.
Proof. unfold same_config, object_ok. intros (-> & _). done. Qed.

(** A block as it is created. *)
Definition fresh_object (p : cache_pool) : cache_object :=
  mk_object 1 (zeros (object_size p + LTFS_CRC_SIZE)).

Lemma fresh_object_ok p : 0 <= object_size p -> object_ok p (fresh_object p).
Proof. intros. unfold object_ok. cbn. rewrite zlength_zeros; unfold LTFS_CRC_SIZE; lia. Qed.

Lemma fresh_objects_ok p n : 0 <= object_size p -> Forall (object_ok p) (replicate n (fresh_object p)).
Proof. intros. by apply Forall_replicate, fresh_object_ok. Qed.

Lemma create_objects_spec ok : forall n i p q,
  create_objects ok i n p = Some q -> q = p <| pool := pool p ++ replicate n (fresh_object p) |>.
Proof.
  induction n as [|n IH]; intros i p q; cbn.
  { intros [= <-]. destruct p. cbn. by rewrite app_nil_r. }
  unfold _cache_manager_create_object. destruct (ok i); cbn; [|done].
  intros ->%IH. destruct p. cbn. by rewrite <- app_assoc.
Qed.

Lemma init_ok b ok osz ini mx p :
  0 <= osz -> 0 <= ini <= mx -> mx <= 2 ^ 63 ->
  cache_manager_init b ok osz ini mx = Some p -> pool_ok 0 p /\ current_capacity p = ini.
Proof.
  intros Hs Hi Hm. unfold cache_manager_init. destruct b; cbn; [|done].
  intros ->%create_objects_spec. cbn. split; [|done].
  split; cbn; try lia; [unfold zlength; rewrite length_replicate; lia|].
  apply (fresh_objects_ok (mk_pool osz ini mx ini [])); done.
Qed.

(** Growing adds fresh objects at the end and counts them. *)
Lemma grow_spec ok : forall n i last p r q,
  grow ok i n last p = (r, q) ->
  exists k c, q = (p <| pool := pool p ++ replicate k (fresh_object p) |>) <| current_capacity := c |> /\
    (0 <= current_capacity p -> current_capacity p + Z.of_nat n < 2 ^ 64 -> c = current_capacity p + Z.of_nat k) /\
    (k <= n)%nat /\ r = match k with O => last | _ => Some (fresh_object p) end /\
    ((forall j, ok j = true) -> k = n).
Proof.
  induction n as [|n IH]; intros i last p r q; cbn.
  { intros [= <- <-]. exists O, (current_capacity p). split_and!; try done; [destruct p; cbn; by rewrite app_nil_r|lia]. }
  unfold _cache_manager_create_object. destruct (ok i) eqn:Hi; cbn.
  - intros (k & c & -> & Hc & Hk & -> & Hall)%IH. exists (S k), c. cbn in Hc. split_and!.
    + destruct p. cbn. by rewrite <- app_assoc.
    + intros H0 Hlt. rewrite u64_small in Hc by lia. lia.
    + lia.
    + by destruct k.
    + intros Ha. by rewrite (Hall Ha).
  - intros [= <- <-]. exists O, (current_capacity p). split_and!; try done.
    + destruct p. cbn. by rewrite app_nil_r.
    + lia.
    + lia.
    + intros Ha. by rewrite Ha in Hi.
Qed.

Lemma new_capacity_range p out :
  pool_ok out p -> current_capacity p <> max_capacity p ->
  new_capacity p <= max_capacity p /\
  (0 < initial_capacity p \/ 2 <= max_capacity p -> current_capacity p < new_capacity p).
Proof.
  intros [_ _ Hr Hm _ _] Hne. unfold new_capacity. rewrite u64_small by lia. case_bool.
  - split; lia.
  - assert (max_capacity p / 2 <= max_capacity p) by (apply Z.div_le_upper_bound; lia).
    split; [lia|]. intros [?|?]; [lia|].
    assert (1 <= max_capacity p / 2) by (apply Z.div_le_lower_bound; lia). lia.
  - split; lia.
Qed.

Lemma removelast_replicate {A} n (x : A) : removelast (replicate (S n) x) = replicate n x.
Proof. by rewrite replicate_S_end, removelast_last. Qed.

(** Allocation keeps the invariant and hands out an object as long as fewer
    than [max_capacity] are out and the host has memory. *)
Lemma allocate_spec ok p out r q :
  pool_ok out p -> cache_manager_allocate_object ok p = (r, q) ->
  same_config p q /\
  match r with
  | Some o => pool_ok (out + 1) q /\ object_ok q o /\ refcount o = 1
  | None => pool_ok out q /\ pool p = []
  end /\
  ((forall j, ok j = true) -> 0 < initial_capacity p \/ 2 <= max_capacity p ->
   out < max_capacity p -> r <> None).
Proof.
  intros Hp. pose proof Hp as [Hc Ho Hr Hm Hs Hob]. unfold cache_manager_allocate_object.
  destruct (pool p) as [|o rest] eqn:Hpool.
  2:{ intros [= <- <-]. apply Forall_cons in Hob as [Ho1 Hob]. rewrite zlength_cons in Hc.
      split_and!; [done| | |done|done]; [|exact Ho1]. split; cbn; try lia; done. }
  rewrite zlength_nil in Hc. destruct (Z.eqb_spec (current_capacity p) (max_capacity p)) as [He|He].
  { intros [= <- <-]. split_and!; try done. lia. }
  destruct (new_capacity_range p out Hp He) as [Hlim Hgrow].
  destruct (grow ok 0 _ None p) as [lo p'] eqn:Hg.
  destruct (grow_spec ok _ _ _ _ _ _ Hg) as (k & c & -> & Hcap & Hk & -> & Hall). specialize (Hcap ltac:(lia) ltac:(lia)). subst c.
  rewrite Hpool. cbn [app]. destruct k as [|k]; intros [= <- <-].
  - split_and!; try done.
    + split; cbn; try done; rewrite ?zlength_nil; lia.
    + intros Ha Hcfg _. specialize (Hall Ha). specialize (Hgrow Hcfg). lia.
  - pose proof (removelast_replicate k (fresh_object p)) as Hrl. cbn in Hrl. cbn. rewrite Hrl.
    split_and!; try done; [|by apply (fresh_object_ok p)].
    split; cbn; try done; try lia.
    + unfold zlength. rewrite length_replicate. lia.
    + by apply (fresh_objects_ok p).
Qed.

(** Returning an object keeps the invariant; the last reference makes room. *)
Lemma free_spec p out o count r q :
  pool_ok out p -> object_ok p o -> 0 < out -> refcount o = 1 -> 0 <= count <= object_size p ->
  cache_manager_free_object o count p = (r, q) ->
  r = None /\ same_config p q /\ pool_ok (out - 1) q.
Proof.
  intros [Hc Ho Hr Hm Hs Hob] Hobj Hout Hrc Hct. unfold cache_manager_free_object. cbn. rewrite Hrc.
  change (u32 (1 - 1)) with 0. cbn -[Z.sub].
  assert (returned_ok : forall n, initial_capacity p >= current_capacity p -> 0 <= n <= object_size p ->
    pool_ok (out - 1) (p <| pool := pool p ++ [mk_object 0 (clear_front n (data o))] |>)).
  { intros n Hfull Hn. split; cbn; try lia; [autorewrite with ltfs; lia|].
    apply Forall_app. split; [done|]. constructor; [|done]. unfold object_ok, clear_front, zeros, zlength in *. cbn.
    rewrite length_app, length_drop, length_replicate. unfold LTFS_CRC_SIZE in *. lia. }
  case_bool; intros [= <- <-]; (split_and!; [done..|]).
  - split; cbn; try done; rewrite ?u64_small by lia; lia.
  - apply returned_ok; lia.
  - apply returned_ok; lia.
Qed.

(** ** Runs *)

(** A client holds some objects and allocates and returns them one at a time;
    [count] bytes of a returned object were in use.  Each allocation has its own
    outcomes of the host's allocations. *)
Inductive pool_step : list cache_object * cache_pool -> list cache_object * cache_pool -> Prop :=
  | step_allocate ok held p o q :
      cache_manager_allocate_object ok p = (Some o, q) -> pool_step (held, p) (o :: held, q)
  | step_refused ok held p q :
      cache_manager_allocate_object ok p = (None, q) -> pool_step (held, p) (held, q)
  | step_free before o after p count q :
      0 <= count <= object_size p ->
      cache_manager_free_object o count p = (None, q) ->
      pool_step (before ++ o :: after, p) (before ++ after, q).

Definition held_ok (p : cache_pool) (o : cache_object) : Prop := object_ok p o /\ refcount o = 1.

Lemma held_config p q l : same_config p q -> Forall (held_ok p) l -> Forall (held_ok q) l.
Proof.
  intros Hc Hl. eapply Forall_impl; [done|]. intros o [Ho Hr]. split; [|done]. by apply (object_ok_config p).
Qed.

Lemma pool_step_ok held p held' p' :
  pool_step (held, p) (held', p') ->
  pool_ok (zlength held) p -> Forall (held_ok p) held ->
  pool_ok (zlength held') p' /\ Forall (held_ok p') held' /\ same_config p p'.
Proof.
  inversion 1 as [ok ? ? o ? Ha|ok ? ? ? Ha|before o after ? count ? Hct Hf]; subst; intros Hp Hh.
  - destruct (allocate_spec _ _ _ _ _ Hp Ha) as (Hc & (Hq & Ho & Hr) & _).
    rewrite zlength_cons. split_and!; [done| |done]. constructor; [done|]. by apply (held_config p).
  - destruct (allocate_spec _ _ _ _ _ Hp Ha) as (Hc & (Hq & _) & _).
    split_and!; [done| |done]. by apply (held_config p).
  - apply Forall_app in Hh as [Hb Hh]. apply Forall_cons in Hh as [[Ho Hr] Ha].
    rewrite zlength_app, zlength_cons in Hp. pose proof (zlength_nonneg before). pose proof (zlength_nonneg after).
    destruct (free_spec _ _ o count _ _ Hp Ho ltac:(lia) Hr Hct Hf) as (_ & Hc & Hq).
    split_and!; [|apply Forall_app; split; by apply (held_config p)|done].
    rewrite zlength_app. by replace (zlength before + zlength after)
      with (zlength before + (zlength after + 1) - 1) by lia.
Qed.

Lemma pool_run_ok st st' :
  rtc pool_step st st' ->
  pool_ok (zlength (fst st)) (snd st) -> Forall (held_ok (snd st)) (fst st) ->
  pool_ok (zlength (fst st')) (snd st') /\ Forall (held_ok (snd st')) (fst st') /\
  same_config (snd st) (snd st').
Proof.
  induction 1 as [[h p]|[h p] [h1 p1] [h2 p2] Hs _ IH]; intros Hp Hh; [done|].
  destruct (pool_step_ok _ _ _ _ Hs Hp Hh) as (Hp1 & Hh1 & Hc).
  destruct (IH Hp1 Hh1) as (? & ? & Hc'). split_and!; [done..|]. by apply (same_config_trans p p1).
Qed.

(** C38: the cache stays within its bounds and serves everyone it can.  After
    any sequence of allocations and returns on a pool set up by
    [cache_manager_init] for at most 2^63 blocks, whatever allocations of the host
    failed in each of the calls, the pool holds between its low and its high water mark of blocks, the
    blocks out and the blocks ready are exactly the blocks that exist, and
    every block out has room for a tape block and its protection code.  As
    long as fewer than [max_capacity] blocks are out and the host has memory,
    the next allocation succeeds, unless the pool was configured with no block
    at the start and at most one in total. *)
Theorem cache_stays_within_bounds b ok osz ini mx p held q :
  0 <= osz -> 0 <= ini <= mx -> mx <= 2 ^ 63 ->
  cache_manager_init b ok osz ini mx = Some p ->
  rtc pool_step ([], p) (held, q) ->
  ini <= current_capacity q <= mx /\
  zlength held + zlength (pool q) = current_capacity q /\
  Forall (fun o => zlength (cache_manager_get_object_data o) = osz + LTFS_CRC_SIZE) (held ++ pool q) /\
  (zlength held < mx -> 0 < ini \/ 2 <= mx ->
   exists o q', cache_manager_allocate_object (fun _ => true) q = (Some o, q')).
Proof.
  intros Hs Hi Hmax Hinit Hrun. destruct (init_ok _ _ _ _ _ _ Hs Hi Hmax Hinit) as [Hp _].
  assert (object_size p = osz /\ initial_capacity p = ini /\ max_capacity p = mx) as (<- & <- & <-).
  { revert Hinit. unfold cache_manager_init. destruct b; [|done]. by intros ->%create_objects_spec. }
  destruct (pool_run_ok _ _ Hrun Hp) as (Hq & Hh & Hos & Hin & Hmx); [constructor|]. cbn [fst snd] in *.
  pose proof Hq as [Hc _ Hr Hm _ Hob]. split_and!; [lia..| |].
  - apply Forall_app. rewrite <- Hos. split; [|done]. eapply Forall_impl; [done|]. by intros o [? _].
  - intros Hlt Hcfg. destruct (cache_manager_allocate_object (fun _ => true) q) as [r q'] eqn:Ha.
    destruct (allocate_spec _ _ _ _ _ Hq Ha) as (_ & _ & Hsome).
    destruct r as [o|]; [by eexists _, _|]. destruct Hsome; [done|lia|lia|done].
Qed.

Definition two_blocks : option cache_pool := cache_manager_init true (fun _ => true) 4 1 2.

Lemma cache_stays_within_bounds_witness :
  exists (held : list cache_object) q, length held = 2%nat /\ current_capacity q = 2 /\ zlength held + zlength (pool q) = current_capacity q.
Proof.
  destruct two_blocks as [p|] eqn:Hinit; [|discriminate Hinit].
  pose (o := fresh_object p).
  exists [o; o], (p <| pool := [] |> <| current_capacity := 2 |>).
  split; [reflexivity|]. split; [reflexivity|].
  refine (proj1 (proj2 (cache_stays_within_bounds true (fun _ => true) 4 1 2 p [o; o] _
            _ _ _ Hinit _))); [lia|lia|lia|].
  injection Hinit as <-.
  eapply rtc_l; [apply (step_allocate (fun _ => true)); reflexivity|].
  eapply rtc_l; [apply (step_allocate (Nat.eqb 0)); reflexivity|]. apply rtc_refl.
Defined.

(** An edge of the growth rule: with nothing at the start and a single block
    allowed, the pool never hands out a block although it claims to have room. *)
Lemma single_block_never_served ok :
  let p := mk_pool 4 0 1 0 [] in
  cache_manager_has_room p = true /\ cache_manager_allocate_object ok p = (None, p).
Proof. done. Qed.
