(* ===== verification/Unified.v ===== *)
(** * The unified I/O scheduler ([iosched/unified.c]): data and helpers

    The scheduler sits between the file system operations and the raw file
    operations.  [unified_write] stores the bytes in cache blocks, as a list of
    write requests kept by file and sorted by offset; a background thread and
    flushes send them to the data partition.  Files that the placement rule
    sends to the index partition keep their requests after that, in the state
    [REQUEST_IP], until they are written there too.

    A dentry is named by a number; [iosched_priv] maps it to its [dentry_priv].
    The queues hold dentry numbers in order.  A pointer to a request of a file
    is its position in the file's list.  What libltfs does below the scheduler
    is the class [RawVolume].  Outcomes of the host's allocations are read from
    the oracle [host] at the index [now], which every allocation advances.
    Offsets are nonnegative [off_t] and lengths are at most a cache block past
    them, so their sums stay below 2^64 and are plain; the 32-bit counters wrap. *)

From S2P Require Import Prelude LtfsError Extents CacheManager.

(** ** What the scheduler needs of libltfs

    Partition arguments are [true] for the index partition.  The read returns
    the code and the bytes put in the buffer; [ltfs_fsraw_write_data] the code
    or the block it wrote to. *)
Class RawVolume (V : Type) := {
  ltfs_get_volume_lock : V -> Z;
  ltfs_get_volume_readonly : V -> Z;
  ltfs_get_partition_readonly : bool -> V -> Z;
  index_criteria_get_max_filesize : V -> Z;
  ltfs_get_blocksize : V -> Z;
  ltfs_ip_id : V -> Z;
  d_size : V -> nat -> Z;
  d_matches_name_criteria : V -> nat -> bool;
  d_deleted : V -> nat -> bool;
  d_numhandles : V -> nat -> Z;
  d_touch : nat -> V -> V;
  ltfs_fsraw_read : nat -> Z -> Z -> V -> Z * list Z * V;
  ltfs_fsraw_write : nat -> list Z -> Z -> V -> Z * V;
  ltfs_fsraw_write_data : list Z -> V -> (Z + Z) * V;
  ltfs_fsraw_truncate : nat -> Z -> V -> Z * V;
  ltfs_fsraw_add_extent : nat -> extent_info -> V -> Z * V;
  ltfs_fsraw_get_dentry : nat -> V -> V;
  ltfs_fsraw_put_dentry : nat -> V -> V;
  ltfs_fsraw_close : nat -> V -> V;
  tape_set_cart_volume_lock_status : bool -> V -> Z * V;
  tape_get_first_untransfered_position : V -> Z * (bool * Z);
  coh_set_id : bool -> V -> Z;
  ltfs_fsraw_cleanup_extent : bool * Z -> Z -> V -> Z * V;
  ltfs_write_index_perm : V -> Z * V;
}.

(** ** Data *)

Inductive request_state := REQUEST_PARTIAL | REQUEST_DP | REQUEST_IP.

#[export] Instance request_state_eq_dec : EqDecision request_state.
Proof. solve_decision. Defined.

Definition state_eqb (a b : request_state) : bool := bool_decide (a = b).

Record write_request := mk_request {
  req_offset : Z;
  req_count : Z;
  write_cache : cache_object;
  req_state : request_state;
}.

#[export] Instance eta_request : Eta write_request := fun r =>
  mk_request (req_offset r) (req_count r) (write_cache r) (req_state r).

Definition req_end (r : write_request) : Z := req_offset r + req_count r.

(** The bytes of a request. *)
Definition req_bytes (r : write_request) : list Z :=
  take (Z.to_nat (req_count r)) (cache_manager_get_object_data (write_cache r)).

Record dentry_priv := mk_dpr {
  dentry : nat;
  file_size : Z;
  write_ip : bool;
  write_error : Z;
  in_working_set : Z;
  in_dp_queue : Z;
  in_ip_queue : Z;
  requests : list write_request;
  alt_extentlist : list extent_info;
}.

#[export] Instance eta_dpr : Eta dentry_priv := fun d =>
  mk_dpr (dentry d) (file_size d) (write_ip d) (write_error d) (in_working_set d) (in_dp_queue d)
    (in_ip_queue d) (requests d) (alt_extentlist d).

(** [iosched_priv] is the field of every dentry, [vol] the volume below. *)
Record unified_data (V : Type) := mk_priv {
  cache_requests : Z;
  cache_size : Z;
  cache_blocks : Z;
  working_set : list nat;
  dp_queue : list nat;
  ip_queue : list nat;
  ext_queue : list nat;
  ws_count : Z;
  dp_count : Z;
  ip_count : Z;
  ws_request_count : Z;
  dp_request_count : Z;
  ip_request_count : Z;
  writer_keepalive : bool;
  cpool : cache_pool;
  vol : V;
  iosched_priv : gmap nat dentry_priv;
  now : nat;
}.

Arguments mk_priv {V}. Arguments cache_requests {V}. Arguments cache_size {V}. Arguments cache_blocks {V}.
Arguments working_set {V}. Arguments dp_queue {V}. Arguments ip_queue {V}. Arguments ext_queue {V}.
Arguments ws_count {V}. Arguments dp_count {V}. Arguments ip_count {V}. Arguments ws_request_count {V}.
Arguments dp_request_count {V}. Arguments ip_request_count {V}. Arguments writer_keepalive {V}.
Arguments cpool {V}. Arguments vol {V}. Arguments iosched_priv {V}. Arguments now {V}.

#[export] Instance eta_priv {V} : Eta (unified_data V) := fun p =>
  mk_priv (cache_requests p) (cache_size p) (cache_blocks p) (working_set p) (dp_queue p) (ip_queue p)
    (ext_queue p) (ws_count p) (dp_count p) (ip_count p) (ws_request_count p) (dp_request_count p)
    (ip_request_count p) (writer_keepalive p) (cpool p) (vol p) (iosched_priv p) (now p).

(** The outcomes of the host: of the [i]-th block created in one pool
    allocation, of the allocation of a request, an extent or a read request,
    and the code with which a [dentry_priv] is set up. *)
Record host_oracle := mk_host {
  block_ok : nat -> nat -> bool;
  calloc_ok : nat -> bool;
  dpr_code : nat -> Z;
}.

(** ** Memory *)

(** [memcpy(dst + off, src, len src)]. *)
Definition memcpy_at (off : Z) (src dst : list Z) : list Z :=
  take (Z.to_nat off) dst ++ src ++ drop (Z.to_nat off + length src) dst.

(** [TAILQ_REMOVE]. *)
Fixpoint tailq_remove (id : nat) (l : list nat) : list nat :=
  match l with
  | [] => []
  | x :: l' => if bool_decide (x = id) then l' else x :: tailq_remove id l'
  end.

(** [TAILQ_INSERT_BEFORE] at position [i], [TAILQ_INSERT_TAIL] at the end. *)
Definition insert_at {A} (i : nat) (x : A) (l : list A) : list A := take i l ++ x :: drop i l.

Section unified.
Context {V : Type} `{RawVolume V}.
Context (host : host_oracle).
Implicit Types (priv : unified_data V) (dpr : dentry_priv).

Definition tick priv : unified_data V := priv <| now := S (now priv) |>.

(** ** Queues *)

Definition _unified_update_queue_membership (add all : bool) (queue : request_state) dpr priv
    : dentry_priv * unified_data V :=
  let id := dentry dpr in
  match queue with
  | REQUEST_PARTIAL =>
      let n := in_working_set dpr in
      if add then
        let priv := if n =? 0 then
            priv <| working_set := working_set priv ++ [id] |> <| ws_count := u32 (ws_count priv + 1) |>
          else priv in
        (dpr <| in_working_set := u32 (n + 1) |>,
         priv <| ws_request_count := u32 (ws_request_count priv + 1) |>)
      else
        let priv := if (all && negb (n =? 0)) || (n =? 1) then
            priv <| working_set := tailq_remove id (working_set priv) |>
                 <| ws_count := u32 (ws_count priv - 1) |>
          else priv in
        if all then
          (dpr <| in_working_set := 0 |>,
           priv <| ws_request_count := u32 (ws_request_count priv - n) |>)
        else if negb (n =? 0) then
          (dpr <| in_working_set := u32 (n - 1) |>,
           priv <| ws_request_count := u32 (ws_request_count priv - 1) |>)
        else (dpr, priv)
  | REQUEST_DP =>
      let n := in_dp_queue dpr in
      if add then
        let priv := if n =? 0 then
            priv <| dp_queue := dp_queue priv ++ [id] |> <| dp_count := u32 (dp_count priv + 1) |>
          else priv in
        let priv := if negb (write_ip dpr) then
            priv <| dp_request_count := u32 (dp_request_count priv + 1) |> else priv in
        (dpr <| in_dp_queue := u32 (n + 1) |>, priv)
      else
        let priv := if (all && negb (n =? 0)) || (n =? 1) then
            priv <| dp_queue := tailq_remove id (dp_queue priv) |> <| dp_count := u32 (dp_count priv - 1) |>
          else priv in
        if all then
          let priv := if negb (write_ip dpr) then
              priv <| dp_request_count := u32 (dp_request_count priv - n) |> else priv in
          (dpr <| in_dp_queue := 0 |>, priv)
        else if negb (n =? 0) then
          let priv := if negb (write_ip dpr) then
              priv <| dp_request_count := u32 (dp_request_count priv - 1) |> else priv in
          (dpr <| in_dp_queue := u32 (n - 1) |>, priv)
        else (dpr, priv)
  | REQUEST_IP =>
      let n := in_ip_queue dpr in
      if add then
        let priv := if n =? 0 then
            priv <| ip_queue := ip_queue priv ++ [id] |> <| ip_count := u32 (ip_count priv + 1) |>
          else priv in
        (dpr <| in_ip_queue := u32 (n + 1) |>,
         priv <| ip_request_count := u32 (ip_request_count priv + 1) |>)
      else
        let priv := if (all && negb (n =? 0)) || (n =? 1) then
            priv <| ip_queue := tailq_remove id (ip_queue priv) |> <| ip_count := u32 (ip_count priv - 1) |>
          else priv in
        if all then
          (dpr <| in_ip_queue := 0 |>,
           priv <| ip_request_count := u32 (ip_request_count priv - n) |>)
        else if negb (n =? 0) then
          (dpr <| in_ip_queue := u32 (n - 1) |>,
           priv <| ip_request_count := u32 (ip_request_count priv - 1) |>)
        else (dpr, priv)
  end.

(** ** Cache blocks *)

Definition _unified_cache_free (cache : cache_object) (count : Z) priv : unified_data V :=
  priv <| cpool := snd (cache_manager_free_object cache count (cpool priv)) |>.

Definition _unified_free_request (req : write_request) priv : unified_data V :=
  _unified_cache_free (write_cache req) (req_count req) priv.

(** One attempt of [_unified_cache_alloc]. *)
Definition cache_try_alloc priv : option cache_object * unified_data V :=
  let '(cache, p) := cache_manager_allocate_object (block_ok host (now priv)) (cpool priv) in
  (cache, (tick priv) <| cpool := p |>).

(** ** Requests *)

Definition max_size (r : write_request) dpr : dentry_priv :=
  if file_size dpr <? req_end r then dpr <| file_size := req_end r |> else dpr.

(** A file whose block is full is ready to be written, and with it all partial
    requests before it. *)
Fixpoint promote (offset : Z) (l : list write_request) dpr priv
    : list write_request * dentry_priv * unified_data V :=
  match l with
  | [] => ([], dpr, priv)
  | w :: l' =>
      if state_eqb (req_state w) REQUEST_PARTIAL && (req_offset w <=? offset) then
        let '(dpr, priv) := _unified_update_queue_membership false false REQUEST_PARTIAL dpr priv in
        let '(dpr, priv) := _unified_update_queue_membership true false REQUEST_DP dpr priv in
        let '(l', dpr, priv) := promote offset l' dpr priv in
        (w <| req_state := REQUEST_DP |> :: l', dpr, priv)
      else
        let '(l', dpr, priv) := promote offset l' dpr priv in
        (w :: l', dpr, priv)
  end.

(** Request [i] gets the bytes of [buf] from [offset] on; the result is the
    number of bytes taken. *)
Definition _unified_update_request (buf : list Z) (offset : Z) (i : nat) dpr priv
    : Z * dentry_priv * unified_data V :=
  let size := zlength buf in
  match requests dpr !! i with
  | None => (0, dpr, priv)
  | Some req =>
      if size =? 0 then (0, dpr, priv)
      else
        let copy_offset := offset - req_offset req in
        let room := req_offset req + cache_size priv - offset in
        let copy_count := if size <? room then size else room in
        let cache := write_cache req in
        let req := req <| write_cache := cache <| data :=
          memcpy_at copy_offset (take (Z.to_nat copy_count) buf) (data cache) |> |> in
        let req := if req_count req <? copy_offset + copy_count then
          req <| req_count := copy_offset + copy_count |> else req in
        let dpr := dpr <| requests := <[i := req]> (requests dpr) |> in
        let '(dpr, priv) :=
          if state_eqb (req_state req) REQUEST_PARTIAL && (req_count req =? cache_size priv) then
            let '(l, dpr, priv) := promote offset (requests dpr) dpr priv in
            (dpr <| requests := l |>, priv)
          else (dpr, priv) in
        (copy_count, max_size req dpr, priv)
  end.

(** Dropping the first [n] bytes of a request: the [memmove] of the source. *)
Definition drop_front (n : Z) (r : write_request) : write_request :=
  let d := data (write_cache r) in
  r <| write_cache := (write_cache r) <| data :=
         memcpy_at 0 (slice n (req_count r - n) d) d |> |>
    <| req_offset := req_offset r + n |>
    <| req_count := req_count r - n |>.

(** Merging request [src] into request [dest].  [spare] is the place for a
    cache block, [None] when the caller gave none. *)
Definition _unified_merge_requests (dest : option nat) (src : nat) (spare : option (option cache_object))
    dpr priv : Z * option (option cache_object) * dentry_priv * unified_data V :=
  match (match dest with Some i => requests dpr !! i | None => None end), requests dpr !! src with
  | Some de, Some sr =>
      if req_end de <? req_offset sr then (0, spare, dpr, priv)
      else
        let copy_offset := req_end de - req_offset sr in
        let '(copy_count, dpr, priv) :=
          if negb (state_eqb (req_state de) (req_state sr)) &&
             (state_eqb (req_state de) REQUEST_IP || state_eqb (req_state sr) REQUEST_IP) then (0, dpr, priv)
          else if (req_count de <? cache_size priv) && (copy_offset <? req_count sr) then
            _unified_update_request (slice copy_offset (req_count sr - copy_offset) (data (write_cache sr)))
              (req_offset sr + copy_offset) (default src dest) dpr priv
          else (0, dpr, priv) in
        let copy_offset := copy_offset + copy_count in
        if 0 <? copy_offset then
          match requests dpr !! src with
          | None => (0, spare, dpr, priv)
          | Some sr =>
              if copy_offset <? req_count sr then
                let sr' := drop_front copy_offset sr in
                let dpr := dpr <| requests := <[src := sr']> (requests dpr) |> in
                if state_eqb (req_state sr) REQUEST_DP then
                  let '(dpr, priv) := _unified_update_queue_membership false false REQUEST_DP dpr priv in
                  let dpr := dpr <| requests := <[src := sr' <| req_state := REQUEST_PARTIAL |>]> (requests dpr) |> in
                  let '(dpr, priv) := _unified_update_queue_membership true false REQUEST_PARTIAL dpr priv in
                  (1, spare, dpr, priv)
                else (1, spare, dpr, priv)
              else
                let dpr := dpr <| requests := delete src (requests dpr) |> in
                let '(dpr, priv) := _unified_update_queue_membership false false (req_state sr) dpr priv in
                match spare with
                | Some None => (2, Some (Some (write_cache sr)), dpr, priv)
                | _ => (2, spare, dpr, _unified_free_request sr priv)
                end
          end
        else (0, spare, dpr, priv)
  | _, _ => (0, spare, dpr, priv)
  end.

(** ** The scheduler's data of a file *)

Definition put_dpr dpr priv : unified_data V :=
  priv <| iosched_priv := <[dentry dpr := dpr]> (iosched_priv priv) |>.

Definition _unified_get_dentry_priv (d : nat) priv : (Z + dentry_priv) * unified_data V :=
  match iosched_priv priv !! d with
  | Some dpr => (inr dpr, priv)
  | None =>
      let code := dpr_code host (now priv) in
      let priv := tick priv in
      if code <? 0 then (inl code, priv)
      else
        let v := vol priv in
        let max_filesize := index_criteria_get_max_filesize v in
        let wip := d_matches_name_criteria v d in
        let wip := if (max_filesize =? 0) || (max_filesize <? d_size v d) then false else wip in
        let dpr := mk_dpr d (d_size v d) wip 0 0 0 0 [] [] in
        (inr dpr, (put_dpr dpr priv) <| vol := ltfs_fsraw_get_dentry d v |>)
  end.

Definition _unified_get_write_error dpr : Z * dentry_priv :=
  (write_error dpr, dpr <| write_error := 0 |>).

(** ** Extents on the index partition *)

(** The loop of [_unified_update_alt_extentlist] over the old entries; the
    result is the new list and whether the new extent went into it.  When it
    was appended to an entry it is gone. *)
Fixpoint alt_insert (bs : Z) (newext : extent_info) (newext_used : bool) (l : list extent_info)
    : list extent_info * bool :=
  match l with
  | [] => ([], newext_used)
  | entry :: l' =>
      let newend := fileoffset newext + bytecount newext in
      let entry_end := fileoffset entry + bytecount entry in
      let before := negb newext_used && (fileoffset newext <=? fileoffset entry) in
      let newext_used := newext_used || before in
      let front := if before then [newext] else [] in
      if entry_end <? fileoffset newext then
        let '(r, u) := alt_insert bs newext newext_used l' in (front ++ entry :: r, u)
      else if entry_end =? fileoffset newext then
        let byte_end := byteoffset entry + bytecount entry in
        if (byteoffset newext =? 0) && (byte_end mod bs =? 0) &&
           (start_block entry + byte_end / bs =? start_block newext) then
          let entry := entry <| bytecount := bytecount entry + bytecount newext |> in
          let '(r, u) := alt_insert bs newext true l' in (front ++ entry :: r, u)
        else
          let '(r, u) := alt_insert bs newext newext_used l' in (front ++ entry :: r, u)
      else if fileoffset entry <? fileoffset newext then
        let entry := if entry_end <=? newend
          then entry <| bytecount := fileoffset newext - fileoffset entry |> else entry in
        let '(r, u) := alt_insert bs newext newext_used l' in (front ++ entry :: r, u)
      else if entry_end <=? newend then
        let '(r, u) := alt_insert bs newext newext_used l' in (front ++ r, u)
      else if fileoffset entry <? newend then
        let diff := newend - fileoffset entry in
        let m := diff + byteoffset entry in
        let entry := entry <| start_block := start_block entry + m / bs |> <| byteoffset := m mod bs |>
          <| bytecount := bytecount entry - diff |> <| fileoffset := fileoffset entry + diff |> in
        let '(r, u) := alt_insert bs newext newext_used l' in (front ++ entry :: r, u)
      else (front ++ entry :: l', newext_used)
  end.

Definition _unified_update_alt_extentlist (newext : extent_info) dpr priv : dentry_priv * unified_data V :=
  match alt_extentlist dpr with
  | [] => (dpr <| alt_extentlist := [newext] |>, priv <| ext_queue := ext_queue priv ++ [dentry dpr] |>)
  | l =>
      let '(l, used) := alt_insert (ltfs_get_blocksize (vol priv)) newext false l in
      (dpr <| alt_extentlist := if used then l else l ++ [newext] |>, priv)
  end.

(** Handing the extents over to libltfs: failures are only logged. *)
Fixpoint push_extents (d : nat) (l : list extent_info) priv : unified_data V :=
  match l with
  | [] => priv
  | ext :: l' => push_extents d l' (priv <| vol := snd (ltfs_fsraw_add_extent d ext (vol priv)) |>)
  end.

Definition _unified_clear_alt_extentlist (save : bool) dpr priv : dentry_priv * unified_data V :=
  match alt_extentlist dpr with
  | [] => (dpr, priv)
  | l =>
      let priv := if save then push_extents (dentry dpr) l priv else priv in
      (dpr <| alt_extentlist := [] |>,
       priv <| ext_queue := tailq_remove (dentry dpr) (ext_queue priv) |>)
  end.

(** ** Placement *)

Definition _unified_set_write_ip dpr priv : dentry_priv * unified_data V :=
  (dpr <| write_ip := true |>,
   if negb (in_dp_queue dpr =? 0) then
     priv <| dp_request_count := u32 (dp_request_count priv - in_dp_queue dpr) |> else priv).

Definition is_ip (r : write_request) : bool := state_eqb (req_state r) REQUEST_IP.

(** Removing the requests that satisfy [f]. *)
Fixpoint drop_requests (f : write_request -> bool) (l : list write_request) priv
    : list write_request * unified_data V :=
  match l with
  | [] => ([], priv)
  | r :: l' =>
      if f r then drop_requests f l' (_unified_free_request r priv)
      else let '(l', priv) := drop_requests f l' priv in (r :: l', priv)
  end.

Definition _unified_unset_write_ip dpr priv : dentry_priv * unified_data V :=
  let dpr := dpr <| write_ip := false |> in
  let '(dpr, priv) :=
    if negb (in_ip_queue dpr =? 0) then
      let '(l, priv) := drop_requests is_ip (requests dpr) priv in
      _unified_update_queue_membership false true REQUEST_IP (dpr <| requests := l |>) priv
    else (dpr, priv) in
  let priv := if negb (in_dp_queue dpr =? 0) then
    priv <| dp_request_count := u32 (dp_request_count priv + in_dp_queue dpr) |> else priv in
  _unified_clear_alt_extentlist false dpr priv.

(** ** Errors *)

Definition about_space (ret : Z) : bool := (ret =? - LTFS_NO_SPACE) || (ret =? - LTFS_LESS_SPACE).

(** The last loop of the error handler: what is kept counts for the size. *)
Fixpoint clear_requests (clear_dp clear_ip : bool) (l : list write_request) dpr priv
    : list write_request * dentry_priv * unified_data V :=
  match l with
  | [] => ([], dpr, priv)
  | r :: l' =>
      if (is_ip r && clear_ip) || (negb (is_ip r) && clear_dp) then
        clear_requests clear_dp clear_ip l' dpr (_unified_free_request r priv)
      else
        let '(l', dpr, priv) := clear_requests clear_dp clear_ip l' (max_size r dpr) priv in
        (r :: l', dpr, priv)
  end.

(** [failed] is the state of the request that could not be written. *)
Definition _unified_handle_write_error (write_ret : Z) (failed : request_state) dpr priv
    : dentry_priv * unified_data V :=
  let ip := state_eqb failed REQUEST_IP in
  let dpr := if negb (ip && about_space write_ret) then
      (if write_error dpr =? 0 then dpr <| write_error := write_ret |> else dpr) else dpr in
  let other := negb (about_space write_ret) || (ltfs_get_partition_readonly (negb ip) (vol priv) <? 0) in
  let clear_ip := ip || other in
  let clear_dp := negb ip || other in
  let dpr := dpr <| file_size := d_size (vol priv) (dentry dpr) |> in
  match requests dpr with
  | [] => (dpr, priv)
  | l =>
      let '(dpr, priv) := if clear_dp then
          let '(dpr, priv) := _unified_update_queue_membership false true REQUEST_DP dpr priv in
          _unified_update_queue_membership false true REQUEST_PARTIAL dpr priv
        else (dpr, priv) in
      let '(dpr, priv) := if clear_ip then
          _unified_update_queue_membership false true REQUEST_IP dpr priv else (dpr, priv) in
      let '(l, dpr, priv) := clear_requests clear_dp clear_ip l dpr priv in
      (dpr <| requests := l |>, priv)
  end.

(** After a permanent write error on the data partition the index is written at
    once, without the extents the drive lost. *)
Definition _unified_write_index_after_perm (write_ret : Z) priv : Z * unified_data V :=
  if negb (IS_WRITE_PERM (- write_ret)) then (0, priv)
  else
    let v := snd (tape_set_cart_volume_lock_status false (vol priv)) in
    let '(ret, (part, block)) := tape_get_first_untransfered_position v in
    if ret <? 0 then (ret, priv <| vol := v |>)
    else
      let last_index_pos := coh_set_id part v in
      let block := if block <? last_index_pos then last_index_pos + 1 else block in
      let '(ret, v) := ltfs_fsraw_cleanup_extent (part, block) (ltfs_get_blocksize v) v in
      if ret <? 0 then (ret, priv <| vol := v |>)
      else let '(ret, v) := ltfs_write_index_perm v in (ret, priv <| vol := v |>).

(** ** Closing *)

Definition _unified_free_dentry_priv_conditional (d : nat) (target_handles : Z) priv : unified_data V :=
  match iosched_priv priv !! d with
  | Some dpr =>
      match requests dpr, alt_extentlist dpr with
      | [], [] =>
          if d_numhandles (vol priv) d <=? target_handles then
            priv <| iosched_priv := delete d (iosched_priv priv) |>
                 <| vol := ltfs_fsraw_put_dentry d (vol priv) |>
          else priv
      | _, _ => priv
      end
  | None => priv
  end.

Definition _unified_free_dentry_priv (d : nat) priv : unified_data V :=
  match iosched_priv priv !! d with
  | None => priv
  | Some dpr =>
      let priv := if write_ip dpr && negb (bool_decide (alt_extentlist dpr = [])) then
        snd (_unified_clear_alt_extentlist true dpr priv) else priv in
      priv <| iosched_priv := delete d (iosched_priv priv) |>
           <| vol := ltfs_fsraw_put_dentry d (vol priv) |>
  end.

(** ** Writing

    [unified_write] is written with labels and [goto]; its body from
    [write_start] on is the machine [write_step] over the labels [label], whose
    state [wstate] holds the local variables.  [size] is the length of the
    rest of the buffer. *)

Record wstate := mk_wstate {
  w_dpr : dentry_priv;
  w_priv : unified_data V;
  w_buf : list Z;
  w_offset : Z;
  spare_cache : option cache_object;
  prev_req : option nat;
  did_merge : bool;
}.

#[local] Instance eta_wstate : Eta wstate := fun s =>
  mk_wstate (w_dpr s) (w_priv s) (w_buf s) (w_offset s) (spare_cache s) (prev_req s) (did_merge s).

Definition w_size (s : wstate) : Z := zlength (w_buf s).
Definition w_requests (s : wstate) : list write_request := requests (w_dpr s).

(** [n] bytes of the buffer are done. *)
Definition advance (n : Z) (s : wstate) : wstate :=
  s <| w_buf := drop (Z.to_nat n) (w_buf s) |> <| w_offset := w_offset s + n |>.

(** How [_unified_insert_new_request] ends: with the number of bytes taken, at
    cache pressure, where the caller waits without the file's lock, or with
    its error path, which frees the block and releases the locks that its
    caller frees and releases again. *)
Inductive inserted :=
  | Inserted (copy_count : Z) (s : wstate)
  | Pressure (s : wstate)
  | DoubleFree.

(** Takes the spare block, or one from the pool. *)
Definition take_cache (s : wstate) : option cache_object * wstate :=
  match spare_cache s with
  | Some cache => (Some cache, s)
  | None =>
      let '(cache, priv) := cache_try_alloc (w_priv s) in
      (cache, s <| w_priv := priv |>)
  end.

Definition _unified_insert_new_request (buf : list Z) (offset : Z) (ip_state : bool) (pos : nat) (s : wstate)
    : inserted :=
  match take_cache s with
  | (None, s) =>
      let priv := w_priv s in
      Pressure (s <| w_priv := priv <| cache_requests := u32 (cache_requests priv + 1) |> |>)
  | (Some cache, s) =>
      let priv := w_priv s in
      let count := zlength buf in
      let copy_count := if cache_size priv <? count then cache_size priv else count in
      let cache := cache <| data := memcpy_at 0 (take (Z.to_nat copy_count) buf) (data cache) |> in
      if negb (calloc_ok host (now priv)) then DoubleFree
      else
        let st := if ip_state then REQUEST_IP
          else if copy_count =? cache_size priv then REQUEST_DP else REQUEST_PARTIAL in
        let new_req := mk_request offset copy_count cache st in
        let dpr := (w_dpr s) <| requests := insert_at pos new_req (w_requests s) |> in
        let '(dpr, priv) := _unified_update_queue_membership true false st dpr (tick priv) in
        Inserted copy_count (s <| w_dpr := max_size new_req dpr |> <| w_priv := priv |> <| spare_cache := None |>)
  end.

Inductive label := do_append | append_new | visit (i : nat) | do_insert_before (i : nat) | overlap (i : nat).

Inductive wresult := GotoOut (s : wstate) | Waits (s : wstate) | Undefined | OutOfFuel.

(** Inserting the front of the rest of the buffer before position [pos]. *)
Definition insert_front (pos : nat) (s : wstate) (k : wstate -> label * wstate) : wresult + label * wstate :=
  match _unified_insert_new_request (w_buf s) (w_offset s) false pos s with
  | DoubleFree => inl Undefined
  | Pressure s => inl (Waits s)
  | Inserted n s => inr (k (advance n s))
  end.

Definition merge_into_prev (i : nat) (s : wstate) : Z * wstate :=
  let '(ret, spare, dpr, priv) :=
    _unified_merge_requests (prev_req s) i (Some (spare_cache s)) (w_dpr s) (w_priv s) in
  (ret, s <| spare_cache := default None spare |> <| w_dpr := dpr |> <| w_priv := priv |>).

Definition set_request (i : nat) (r : write_request) (s : wstate) : wstate :=
  s <| w_dpr := (w_dpr s) <| requests := <[i := r]> (w_requests s) |> |>.

(** Updating request [i] with the rest of the buffer. *)
Definition update_with_rest (i : nat) (s : wstate) : wstate :=
  let '(copy_count, dpr, priv) :=
    _unified_update_request (w_buf s) (w_offset s) i (w_dpr s) (w_priv s) in
  advance copy_count (s <| w_dpr := dpr |> <| w_priv := priv |>).

(** The end of an iteration. *)
Definition next_request (i : nat) (s : wstate) : wresult + label * wstate :=
  let s := s <| prev_req := Some i |> in
  if (w_size s =? 0) && negb (did_merge s) then inl (GotoOut s) else inr (visit (S i), s).

(** The new write meets the request [req] at [i], which was written to the
    data partition already: truncate, split or remove it. *)
Definition cut_ip_request (i : nat) (req : write_request) (s : wstate) : wresult + label * wstate :=
  let offset := w_offset s in
  let size := w_size s in
  if (offset =? req_offset req) && (req_count req <=? size) then
    let dpr := (w_dpr s) <| requests := delete i (w_requests s) |> in
    let '(dpr, priv) := _unified_update_queue_membership false false REQUEST_IP dpr (w_priv s) in
    let s := s <| w_dpr := dpr |> <| w_priv := priv |> in
    match spare_cache s with
    | Some _ => inr (visit i, s <| w_priv := _unified_free_request req (w_priv s) |>)
    | None => inr (visit i, s <| spare_cache := Some (write_cache req) |>)
    end
  else if offset =? req_offset req then
    inr (do_insert_before i, set_request i (drop_front size req) s)
  else if req_end req <=? offset + size then
    next_request i (set_request i (req <| req_count := offset - req_offset req |>) s)
  else
    let copy_offset := offset - req_offset req + size in
    match _unified_insert_new_request (slice copy_offset (req_count req - copy_offset) (data (write_cache req)))
            (req_offset req + copy_offset) true (S i) s with
    | DoubleFree => inl Undefined
    | Pressure s => inl (Waits s)
    | Inserted _ s =>
        inr (do_insert_before (S i), set_request i (req <| req_count := offset - req_offset req |>) s)
    end.

(** What is left of the write meets the request [req] at [i]. *)
Definition meet_request (i : nat) (req : write_request) (s : wstate) : wresult + label * wstate :=
  if 0 <? w_size s then
    if w_offset s <? req_offset req then inr (do_insert_before i, s)
    else if negb (is_ip req) && ((w_offset s <? req_end req) ||
            ((w_offset s =? req_end req) && (req_count req <? cache_size (w_priv s)))) then
      next_request i (update_with_rest i (s <| did_merge := true |>))
    else if is_ip req && (w_offset s <? req_end req) then cut_ip_request i req s
    else next_request i s
  else next_request i s.

Definition write_step (l : label) (s : wstate) : wresult + label * wstate :=
  match l with
  | do_append =>
      let req := last (w_requests s) in
      let last_offset := match req with Some r => req_end r | None => 0 end in
      if last_offset <=? w_offset s then
        match req with
        | Some r =>
            if (req_count r <? cache_size (w_priv s)) && (w_offset s =? last_offset) &&
               negb (state_eqb (req_state r) REQUEST_IP) then
              inr (append_new, update_with_rest (length (w_requests s) - 1) s)
            else inr (append_new, s)
        | None => inr (append_new, s)
        end
      else inr (visit 0, s <| prev_req := None |>)
  | append_new =>
      if 0 <? w_size s then insert_front (length (w_requests s)) s (fun s => (append_new, s))
      else inl (GotoOut s)
  | visit i =>
      match w_requests s !! i with
      | None => if 0 <? w_size s then inr (do_append, s) else inl (GotoOut s)
      | Some req =>
          if req_end req <? w_offset s then
            let '(ret, s) := merge_into_prev i s in
            inr (visit (if ret =? 2 then i else S i), s)
          else inr (do_insert_before i, s)
      end
  | do_insert_before i =>
      match w_requests s !! i with
      | None => inl Undefined
      | Some req =>
          if (0 <? w_size s) && (w_offset s <? req_offset req) then
            insert_front i s (fun s => (do_insert_before (S i), s <| prev_req := Some i |>))
          else inr (overlap i, s)
      end
  | overlap i =>
      let '(ret, s) := merge_into_prev i s in
      let s := s <| did_merge := negb (ret =? 0) |> in
      if ret =? 2 then inr (visit i, s)
      else
        match w_requests s !! i with
        | None => inl Undefined
        | Some req => meet_request i req s
        end
  end.

Fixpoint write_run (fuel : nat) (l : label) (s : wstate) : wresult :=
  match fuel with
  | O => OutOfFuel
  | S fuel =>
      match write_step l s with
      | inl r => r
      | inr (l, s) => write_run fuel l s
      end
  end.

(** A bound on the steps between [write_start] and the end of the body. *)
Definition write_fuel (l : list write_request) (size : Z) : nat :=
  (8 + 8 * (length l + Z.to_nat size))%nat.

(** A write that waits for a cache block, or is about to enter the body for the
    first time. *)
Record pending_write := mk_pending {
  p_dentry : nat;
  p_buf : list Z;
  p_offset : Z;
  p_spare : option cache_object;
  checked_readonly : bool;
  original_size : Z;
  isupdatetime : bool;
}.

(** The call is over with a value, waits for a cache block, or has run into
    the double free; no write runs out of fuel. *)
Inductive write_result :=
  | WReturned (ret : Z) (priv : unified_data V)
  | WWaits (p : pending_write) (priv : unified_data V)
  | WUndefined.

(** The label [out] after a write without an error. *)
Definition write_out (p : pending_write) (s : wstate) : write_result :=
  let priv := put_dpr (w_dpr s) (w_priv s) in
  let priv := if (ltfs_get_volume_lock (vol priv) =? 0) && isupdatetime p then
    priv <| vol := d_touch (p_dentry p) (vol priv) |> else priv in
  let priv := match spare_cache s with Some cache => _unified_cache_free cache 0 priv | None => priv end in
  WReturned (original_size p) priv.

(** The placement test at [write_start]. *)
Definition update_placement (offset size : Z) dpr priv : dentry_priv * unified_data V :=
  let readonly := ltfs_get_partition_readonly true (vol priv) in
  if write_ip dpr && ((index_criteria_get_max_filesize (vol priv) <? offset + size) || about_space readonly) then
    _unified_unset_write_ip dpr priv
  else (dpr, priv).

(** The body from [write_start]. *)
Definition write_start (p : pending_write) priv : write_result :=
  match _unified_get_dentry_priv (p_dentry p) priv with
  | (inl ret, priv) =>
      WReturned ret (match p_spare p with Some cache => _unified_cache_free cache 0 priv | None => priv end)
  | (inr dpr, priv) =>
      let '(ret, dpr) := _unified_get_write_error dpr in
      if ret <? 0 then WReturned ret (put_dpr dpr priv)
      else
        let ret := if checked_readonly p then 0 else ltfs_get_volume_readonly (vol priv) in
        if ret <? 0 then WReturned ret (put_dpr dpr priv)
        else
          let '(dpr, priv) := update_placement (p_offset p) (zlength (p_buf p)) dpr priv in
          let s := mk_wstate dpr priv (p_buf p) (p_offset p) (p_spare p) None false in
          match write_run (write_fuel (requests dpr) (w_size s)) do_append s with
          | GotoOut s => write_out p s
          | Waits s =>
              WWaits (mk_pending (p_dentry p) (w_buf s) (w_offset s) None true (original_size p) (isupdatetime p))
                     (put_dpr (w_dpr s) (w_priv s))
          | _ => WUndefined
          end
  end.

Definition unified_write (d : nat) (buf : list Z) (offset : Z) (isupdatetime : bool) priv : write_result :=
  if zlength buf =? 0 then WReturned 0 priv
  else
    let ret := ltfs_get_volume_lock (vol priv) in
    if ret <? 0 then WReturned ret priv
    else write_start (mk_pending d buf offset None false (zlength buf) isupdatetime) priv.

(** The waiting writer tries again: the block it gets is its spare block, and
    it starts over.  [None] while the pool has no block. *)
Definition unified_write_retry (p : pending_write) priv : option write_result :=
  match cache_try_alloc priv with
  | (None, _) => None
  | (Some cache, priv) =>
      let priv := priv <| cache_requests := u32 (cache_requests priv - 1) |> in
      Some (write_start (mk_pending (p_dentry p) (p_buf p) (p_offset p) (Some cache) (checked_readonly p)
                           (original_size p) (isupdatetime p)) priv)
  end.

(** ** Reading *)

(** A part of the output: bytes that are known, or a read to be issued for
    [count] bytes at [offset]. *)
Inductive read_part := Cached (bytes : list Z) | Queued (offset count : Z).

(** The walk over the requests: the parts in the order of the buffer, and the
    offset and the size left.  [None] is a read request that could not be
    allocated; [t] counts those that could. *)
Fixpoint read_walk (t : nat) (offset size : Z) (l : list write_request) : option (list read_part * Z * Z) :=
  match l with
  | [] => Some ([], offset, size)
  | req :: l' =>
      let gap := offset <? req_offset req in
      if gap && negb (calloc_ok host t) then None
      else
        let n := if gap then Z.min (req_offset req - offset) size else 0 in
        let q := if gap then [Queued offset n] else [] in
        let offset := offset + n in
        let size := size - n in
        let t := if gap then S t else t in
        if gap && (size =? 0) then Some (q, offset, size)
        else if offset <? req_end req then
          let m := Z.min (req_end req - offset) size in
          let c := Cached (slice (offset - req_offset req) m (data (write_cache req))) in
          if size - m =? 0 then Some (q ++ [c], offset + m, 0)
          else
            match read_walk t (offset + m) (size - m) l' with
            | None => None
            | Some (ps, o, sz) => Some (q ++ c :: ps, o, sz)
            end
        else
          match read_walk t offset size l' with
          | None => None
          | Some (ps, o, sz) => Some (q ++ ps, o, sz)
          end
  end.

(** Issuing the queued reads: what libltfs does not deliver of one reads as
    zero, and once it delivered less than asked for it is not asked again. *)
Fixpoint read_issue (d : nat) (past_eof : bool) (ps : list read_part) (v : V) : (Z + list Z) * V :=
  match ps with
  | [] => (inr [], v)
  | Cached bytes :: ps' =>
      match read_issue d past_eof ps' v with
      | (inr out, v) => (inr (bytes ++ out), v)
      | e => e
      end
  | Queued offset count :: ps' =>
      let '(nread, got, v) := if past_eof then (0, [], v) else ltfs_fsraw_read d count offset v in
      if nread <? 0 then (inl nread, v)
      else
        match read_issue d (past_eof || (nread <? count)) ps' v with
        | (inr out, v) => (inr (got ++ zeros (count - nread) ++ out), v)
        | e => e
        end
  end.

Definition unified_read (d : nat) (size offset : Z) priv : Z * list Z * unified_data V :=
  if size =? 0 then (0, [], priv)
  else
    let ret := ltfs_get_volume_lock (vol priv) in
    if ret <? 0 then (ret, [], priv)
    else
      let raw size offset :=
        let '(r, out, v) := ltfs_fsraw_read d size offset (vol priv) in (r, out, priv <| vol := v |>) in
      match iosched_priv priv !! d with
      | None => raw size offset
      | Some dpr =>
          match requests dpr with
          | [] => raw size offset
          | l =>
              match read_walk (now priv) offset size l with
              | None => (- LTFS_NO_MEMORY, [], tick priv)
              | Some (ps, offset, size) =>
                  match read_issue d false ps (vol priv) with
                  | (inl r, v) => (r, [], (tick priv) <| vol := v |>)
                  | (inr out, v) =>
                      let priv := (tick priv) <| vol := v |> in
                      if 0 <? size then
                        let '(nread, got, v) := ltfs_fsraw_read d size offset v in
                        if nread <? 0 then (nread, out, priv <| vol := v |>)
                        else (zlength out + nread, out ++ got, priv <| vol := v |>)
                      else (zlength out, out, priv)
                  end
              end
          end
      end.

(** ** Flushing *)

(** The loop of [_unified_flush_unlocked]; a request that has been written
    leaves the list, or stays as an IP request. *)
Fixpoint flush_loop (fuel : nat) (i : nat) dpr priv : dentry_priv * unified_data V :=
  match fuel with
  | O => (dpr, priv)
  | S fuel =>
      match requests dpr !! i with
      | None => (dpr, priv)
      | Some req =>
          let prev := match i with O => None | S j => Some j end in
          let merge dpr priv :=
            let '(ret, _, dpr, priv) := _unified_merge_requests prev i None dpr priv in
            flush_loop fuel (if ret =? 2 then i else S i) dpr priv in
          if is_ip req then merge dpr priv
          else
            let '(ret, v) := ltfs_fsraw_write (dentry dpr) (req_bytes req) (req_offset req) (vol priv) in
            let priv := priv <| vol := v |> in
            if ret <? 0 then
              let priv := snd (_unified_write_index_after_perm ret priv) in
              _unified_handle_write_error ret (req_state req) dpr priv
            else if write_ip dpr then
              let dpr := dpr <| requests := <[i := req <| req_state := REQUEST_IP |>]> (requests dpr) |> in
              let '(dpr, priv) := _unified_update_queue_membership true false REQUEST_IP dpr priv in
              merge dpr priv
            else
              flush_loop fuel i (dpr <| requests := delete i (requests dpr) |>) (_unified_free_request req priv)
      end
  end.

Definition _unified_flush_unlocked (d : nat) priv : Z * unified_data V :=
  match iosched_priv priv !! d with
  | None => (0, priv)
  | Some dpr =>
      let '(ret, dpr) := _unified_get_write_error dpr in
      if ret <? 0 then (ret, put_dpr dpr priv)
      else
        match requests dpr with
        | [] => (0, put_dpr dpr priv)
        | l =>
            let '(dpr, priv) := _unified_update_queue_membership false true REQUEST_DP dpr priv in
            let '(dpr, priv) := _unified_update_queue_membership false true REQUEST_PARTIAL dpr priv in
            let '(dpr, priv) := flush_loop (length l) 0 dpr priv in
            let '(ret, dpr) := _unified_get_write_error dpr in
            (if ret <? 0 then ret else 0, put_dpr dpr priv)
        end
  end.

(** Flushing every file of a queue; the loop stops at the first error. *)
Fixpoint flush_each (l : list nat) priv : Z * unified_data V :=
  match l with
  | [] => (0, priv)
  | d :: l' =>
      let '(ret, priv) := _unified_flush_unlocked d priv in
      if ret <? 0 then (ret, priv) else flush_each l' priv
  end.

Definition _unified_flush_all priv : Z * unified_data V :=
  let '(ret, priv) := flush_each (dp_queue priv) priv in
  if ret <? 0 then (ret, priv) else flush_each (working_set priv) priv.

Definition unified_flush (d : option nat) priv : Z * unified_data V :=
  match d with
  | Some d => _unified_flush_unlocked d priv
  | None => _unified_flush_all priv
  end.

Definition unified_close (d : nat) (flush : bool) priv : Z * unified_data V :=
  let '(ret, priv) := if flush then _unified_flush_unlocked d priv else (0, priv) in
  let '(write_error, priv) := match iosched_priv priv !! d with
    | Some dpr => let '(e, dpr) := _unified_get_write_error dpr in (e, put_dpr dpr priv)
    | None => (0, priv)
    end in
  let priv := _unified_free_dentry_priv_conditional d 3 priv in
  let priv := priv <| vol := ltfs_fsraw_close d (vol priv) |> in
  (if negb (ret =? 0) then ret else if negb (write_error =? 0) then write_error else 0, priv).

(** ** Truncation, size and placement *)

(** The loop from the end of the list, on the reversed list. *)
Fixpoint truncate_requests (length : Z) (l : list write_request) dpr priv
    : list write_request * dentry_priv * unified_data V :=
  match l with
  | [] => ([], dpr, priv)
  | req :: l' =>
      if length <=? req_offset req then
        let '(dpr, priv) := _unified_update_queue_membership false false (req_state req) dpr priv in
        truncate_requests length l' dpr (_unified_free_request req priv)
      else if length <? req_end req then
        let '(l', dpr, priv) := truncate_requests length l' dpr priv in
        (req <| req_count := length - req_offset req |> :: l', dpr, priv)
      else (l, dpr, priv)
  end.

Definition truncate_alt (length : Z) (l : list extent_info) : list extent_info :=
  omap (fun ext =>
    if length <=? fileoffset ext then None
    else if length <? fileoffset ext + bytecount ext then
      Some (ext <| bytecount := length - fileoffset ext |>)
    else Some ext) l.

Definition unified_truncate (d : nat) (length : Z) priv : Z * unified_data V :=
  let ret := ltfs_get_volume_readonly (vol priv) in
  if ret <? 0 then (ret, priv)
  else
    let raw priv := let '(r, v) := ltfs_fsraw_truncate d length (vol priv) in (r, priv <| vol := v |>) in
    match iosched_priv priv !! d with
    | None => raw priv
    | Some dpr =>
        let '(dpr, priv) :=
          if length <? file_size dpr then
            let '(l, dpr, priv) := truncate_requests length (reverse (requests dpr)) dpr priv in
            (dpr <| requests := reverse l |>
                 <| alt_extentlist := truncate_alt length (alt_extentlist dpr) |>, priv)
          else (dpr, priv) in
        let dpr := dpr <| file_size := length |> in
        let v := vol priv in
        let max_filesize := index_criteria_get_max_filesize v in
        let matches_name_criteria := d_matches_name_criteria v d in
        let deleted := d_deleted v d in
        let '(dpr, priv) :=
          if negb (write_ip dpr) && (0 <? max_filesize) && (length =? 0) && matches_name_criteria && negb deleted
          then _unified_set_write_ip dpr priv
          else if write_ip dpr && ((max_filesize <? file_size dpr) || negb matches_name_criteria || deleted)
          then _unified_unset_write_ip dpr priv
          else (dpr, priv) in
        raw (put_dpr dpr priv)
    end.

Definition unified_get_filesize (d : nat) priv : Z :=
  match iosched_priv priv !! d with
  | Some dpr => file_size dpr
  | None => d_size (vol priv) d
  end.

Definition unified_update_data_placement (d : nat) priv : Z * unified_data V :=
  match iosched_priv priv !! d with
  | None => (0, priv)
  | Some dpr =>
      let v := vol priv in
      let filesize := file_size dpr in
      let max_filesize := index_criteria_get_max_filesize v in
      let matches_name_criteria := d_matches_name_criteria v d in
      let deleted := d_deleted v d in
      let '(dpr, priv) :=
        if negb (write_ip dpr) && (0 <? max_filesize) && (filesize <=? max_filesize) &&
           matches_name_criteria && negb deleted then _unified_set_write_ip dpr priv
        else if write_ip dpr && ((max_filesize <? filesize) || negb matches_name_criteria || deleted)
        then _unified_unset_write_ip dpr priv
        else (dpr, priv) in
      (0, put_dpr dpr priv)
  end.

(** ** The background writer

    Its work on one file has two parts: under the lock of the file it detaches
    the requests to write ([writer_detach]); then, with the file open to other
    calls, it writes them one at a time ([writer_send]).  The detached
    requests, or what is left of them after a failed write, are the value of
    type [inflight]. *)

Inductive inflight :=
  | Idle
  | Sending (d : nat) (local_req_list : list write_request)
  | Failed (d : nat) (ret : Z) (failed : request_state) (local_req_list : list write_request).

(** The loop that moves the requests of a file to the private list. *)
Fixpoint detach_loop (fuel : nat) (queue : request_state) (i : nat) (local : list write_request) dpr priv
    : list write_request * dentry_priv * unified_data V :=
  match fuel with
  | O => (local, dpr, priv)
  | S fuel =>
      match requests dpr !! i with
      | None => (local, dpr, priv)
      | Some req =>
          let prev := match i with O => None | S j => Some j end in
          let merge dpr priv :=
            let '(ret, _, dpr, priv) := _unified_merge_requests prev i None dpr priv in
            detach_loop fuel queue (if ret =? 2 then i else S i) local dpr priv in
          if is_ip req then merge dpr priv
          else if state_eqb (req_state req) REQUEST_DP || state_eqb queue REQUEST_PARTIAL then
            if write_ip dpr then
              let '(ret, v) := ltfs_fsraw_write (dentry dpr) (req_bytes req) (req_offset req) (vol priv) in
              let priv := priv <| vol := v |> in
              if ret <? 0 then
                let priv := snd (_unified_write_index_after_perm ret priv) in
                let '(dpr, priv) := _unified_handle_write_error ret (req_state req) dpr priv in
                (local, dpr, priv)
              else
                let dpr := dpr <| requests := <[i := req <| req_state := REQUEST_IP |>]> (requests dpr) |> in
                let '(dpr, priv) := _unified_update_queue_membership true false REQUEST_IP dpr priv in
                merge dpr priv
            else
              detach_loop fuel queue i (local ++ [req]) (dpr <| requests := delete i (requests dpr) |>) priv
          else detach_loop fuel queue (S i) local dpr priv
      end
  end.

(** The first file of the queues; [None] when there is nothing to do. *)
Definition writer_next (queue : request_state) priv : option nat :=
  match dp_queue priv with
  | d :: _ => Some d
  | [] => if state_eqb queue REQUEST_PARTIAL then head (working_set priv) else None
  end.

Definition writer_detach (queue : request_state) (d : nat) priv : inflight * unified_data V :=
  match iosched_priv priv !! d with
  | None => (Idle, priv)
  | Some dpr =>
      let '(dpr, priv) := _unified_update_queue_membership false true queue dpr priv in
      let '(dpr, priv) := if state_eqb queue REQUEST_PARTIAL then
        _unified_update_queue_membership false true REQUEST_DP dpr priv else (dpr, priv) in
      let '(local, dpr, priv) := detach_loop (length (requests dpr)) queue 0 [] dpr priv in
      (match local with [] => Idle | _ => Sending d local end, put_dpr dpr priv)
  end.

(** One write of the private list, or the clean-up after a failed one. *)
Definition writer_send (f : inflight) priv : inflight * unified_data V :=
  match f with
  | Idle => (Idle, priv)
  | Sending d [] => (Idle, priv)
  | Sending d (req :: rest) =>
      let '(ret, v) := ltfs_fsraw_write d (req_bytes req) (req_offset req) (vol priv) in
      let priv := priv <| vol := v |> in
      if ret <? 0 then
        (Failed d ret (req_state req) (req :: rest), snd (_unified_write_index_after_perm ret priv))
      else (match rest with [] => Idle | _ => Sending d rest end, _unified_free_request req priv)
  | Failed d ret st local =>
      let priv := match iosched_priv priv !! d with
        | Some dpr => let '(dpr, priv) := _unified_handle_write_error ret st dpr priv in put_dpr dpr priv
        | None => priv
        end in
      (Idle, snd (drop_requests (fun _ => true) local priv))
  end.

Fixpoint send_all (fuel : nat) (f : inflight) priv : unified_data V :=
  match fuel, f with
  | S fuel, Sending _ _ | S fuel, Failed _ _ _ _ => let '(f, priv) := writer_send f priv in send_all fuel f priv
  | _, _ => priv
  end.

Fixpoint process_files (count : nat) (queue : request_state) priv : unified_data V :=
  match count with
  | O => priv
  | S count =>
      match writer_next queue priv with
      | None => priv
      | Some d =>
          let '(f, priv) := writer_detach queue d priv in
          let n := match f with Sending _ l => (2 + length l)%nat | _ => O end in
          process_files count queue (send_all n f priv)
      end
  end.

Definition _unified_process_data_queue (queue : request_state) priv : unified_data V :=
  let count := if state_eqb queue REQUEST_DP then dp_count priv else u32 (dp_count priv + ws_count priv) in
  process_files (Z.to_nat count) queue priv.

(** Writing the IP requests of a file to the index partition; [rest] are the
    requests still to be looked at, [done] those that stay. *)
Fixpoint index_loop (rest done : list write_request) dpr priv : dentry_priv * unified_data V :=
  match rest with
  | [] => (dpr <| requests := done |>, priv)
  | req :: rest =>
      if is_ip req then
        let ok := calloc_ok host (now priv) in
        let priv := tick priv in
        if negb ok then
          _unified_handle_write_error (- 12) REQUEST_IP (dpr <| requests := done ++ req :: rest |>) priv
        else
          match ltfs_fsraw_write_data (req_bytes req) (vol priv) with
          | (inl ret, v) =>
              let '(ret, v) := if IS_WRITE_PERM (- ret) then tape_set_cart_volume_lock_status true v else (ret, v) in
              _unified_handle_write_error ret REQUEST_IP (dpr <| requests := done ++ req :: rest |>)
                (priv <| vol := v |>)
          | (inr block, v) =>
              let ext := mk_extent block (ltfs_ip_id v) 0 (req_count req) (req_offset req) in
              let '(dpr, priv) := _unified_update_alt_extentlist ext dpr (priv <| vol := v |>) in
              index_loop rest done dpr (_unified_free_request req priv)
          end
      else index_loop rest (done ++ [req]) dpr priv
  end.

Definition process_index_file (d : nat) priv : unified_data V :=
  match iosched_priv priv !! d with
  | None => priv
  | Some dpr =>
      let '(dpr, priv) := _unified_update_queue_membership false true REQUEST_IP dpr priv in
      let '(dpr, priv) := index_loop (requests dpr) [] dpr priv in
      _unified_free_dentry_priv_conditional d 2 (put_dpr dpr priv)
  end.

Definition _unified_process_index_queue priv : unified_data V :=
  foldl (fun priv d => process_index_file d priv) priv (ip_queue priv).

Definition _unified_process_queue (queue : request_state) priv : unified_data V :=
  if state_eqb queue REQUEST_IP then _unified_process_index_queue priv
  else _unified_process_data_queue queue priv.

(** [(uint32_t)(0.6 * cache_blocks)]: the product in double precision rounds to
    the integer whenever the exact product is one, below 2^50. *)
Definition ip_high_watermark priv : Z := u32 (6 * cache_blocks priv / 10).

(** One turn of [_unified_writer_thread] after it woke up; the boolean says
    whether it goes on. *)
Definition _unified_writer_thread priv : bool * unified_data V :=
  if negb (writer_keepalive priv) then
    (false, _unified_process_queue REQUEST_IP (snd (_unified_flush_all priv)))
  else if 0 <? cache_requests priv then
    (true,
     if u32 (2 * cache_requests priv) <? dp_request_count priv then _unified_process_queue REQUEST_DP priv
     else if ip_request_count priv <? ip_high_watermark priv then _unified_process_queue REQUEST_PARTIAL priv
     else _unified_process_queue REQUEST_IP priv)
  else (true, _unified_process_queue REQUEST_DP priv).

(** ** Setting up and tearing down *)

(** [min_cache] and [max_cache] are the configured sizes in MB. *)
Definition unified_init (pool_mem : bool) (min_cache max_cache : Z) (v : V) : option (unified_data V) :=
  let cache_size := ltfs_get_blocksize v in
  let pool_size := min_cache * 1024 * 1024 / cache_size in
  let max_pool_size := max_cache * 1024 * 1024 / cache_size in
  match cache_manager_init pool_mem (block_ok host 0) cache_size pool_size max_pool_size with
  | None => None
  | Some p => Some (mk_priv 0 cache_size max_pool_size [] [] [] [] 0 0 0 0 0 0 true p v ∅ 1)
  end.

Definition unified_destroy priv : V :=
  let priv := snd (_unified_writer_thread (priv <| writer_keepalive := false |>)) in
  vol (foldl (fun priv d => _unified_free_dentry_priv d priv) priv (ext_queue priv)).
End unified.

Arguments wstate V : clear implicits.
Arguments wresult V : clear implicits.
Arguments write_result V : clear implicits.
#[export] Existing Instance eta_wstate.
#[global] Arguments _unified_update_queue_membership : simpl never.
#[global] Arguments _unified_update_request : simpl never.
#[global] Arguments _unified_merge_requests : simpl never.
#[global] Arguments _unified_handle_write_error : simpl never.
#[global] Arguments _unified_write_index_after_perm : simpl never.
#[global] Arguments _unified_insert_new_request : simpl never.
