(* ===== verification/UnifiedReqs.v ===== *)
(** * The unified scheduler: what a list of requests holds

    A file read through the scheduler is the raw file seen through the list of
    its requests: byte [o] is the byte of the first request that covers it
    ([view]).  This file has the layout of such lists ([chain]), and what the
    helpers of [Unified] do to layout and contents. *)

From S2P Require Import Prelude Bytes LtfsError Extents CacheManager Unified.

(** ** Bytes of a request *)

Definition covers (r : write_request) (o : Z) : bool := (req_offset r <=? o) && (o <? req_end r).

Definition req_byte (r : write_request) (o : Z) : option Z :=
  data (write_cache r) !! Z.to_nat (o - req_offset r).

Fixpoint view (raw : Z -> option Z) (l : list write_request) (o : Z) : option Z :=
  match l with
  | [] => raw o
  | r :: l' => if covers r o then req_byte r o else view raw l' o
  end.

(** Requests that differ at most in a state other than [REQUEST_IP]. *)
Definition same_req (a b : write_request) : Prop :=
  req_offset b = req_offset a /\ req_count b = req_count a /\ write_cache b = write_cache a /\
  is_ip b = is_ip a.

Abbreviation same_reqs := (Forall2 same_req).

#[export] Instance same_req_equivalence : Equivalence same_req.
Proof. unfold same_req. split; red; intuition congruence. Qed.

#[export] Instance same_reqs_equivalence : Equivalence same_reqs.
Proof.
  split; red.
  - intros l. by induction l; constructor.
  - intros l k Hlk. by induction Hlk; constructor.
  - intros a b c Hab. revert c. induction Hab as [|x y a b Hxy _ IH]; intros c Hbc; [done|].
    apply Forall2_cons_inv_l in Hbc as (z & c' & Hyz & Hbc & ->). constructor; [by transitivity y|by apply IH].
Qed.

Lemma same_req_refl r : same_req r r.
Proof. done. Qed.

Lemma same_reqs_refl l : same_reqs l l.
Proof. done. Qed.

Lemma same_req_end a b : same_req a b -> req_end b = req_end a.
Proof. unfold req_end. by intros (-> & -> & _). Qed.

Lemma same_req_covers a b o : same_req a b -> covers b o = covers a o.
Proof. unfold covers, req_end. by intros (-> & -> & _). Qed.

Lemma same_req_byte a b o : same_req a b -> req_byte b o = req_byte a o.
Proof. unfold req_byte. by intros (-> & _ & -> & _). Qed.

#[export] Instance view_proper raw : Proper (same_reqs ==> eq ==> eq) (view raw).
Proof.
  intros l k Hlk o ? <-. induction Hlk as [|a b l k Hab _ IH]; [done|]. cbn.
  by rewrite (same_req_covers a b), (same_req_byte a b), IH.
Qed.

Lemma view_app raw a b o : view raw (a ++ b) o = view (view raw b) a o.
Proof. induction a as [|r a IH]; [done|]. cbn. by rewrite IH. Qed.

Lemma view_ext raw raw' l o : raw o = raw' o -> view raw l o = view raw' l o.
Proof. intros E. induction l as [|r l IH]; [done|]. cbn. by rewrite IH. Qed.

Lemma view_skip raw l o : Forall (fun r => covers r o = false) l -> view raw l o = raw o.
Proof. induction 1 as [|r l Hr _ IH]; [done|]. cbn. by rewrite Hr. Qed.

(** ** Layout

    A list in order: every request is nonempty, fits its block and begins
    where the one before it ends, or later. *)

Section layout.
Context (cs : Z).

Record req_ok (r : write_request) : Prop := {
  ro_offset : 0 <= req_offset r;
  ro_count : 0 < req_count r <= cs;
  ro_block : zlength (data (write_cache r)) = cs + LTFS_CRC_SIZE;
}.

Fixpoint chain (lo : Z) (l : list write_request) : Prop :=
  match l with
  | [] => True
  | r :: l' => lo <= req_offset r /\ req_ok r /\ chain (req_end r) l'
  end.

Fixpoint chain_end (lo : Z) (l : list write_request) : Z :=
  match l with [] => lo | r :: l' => chain_end (req_end r) l' end.

Lemma same_req_ok a b : same_req a b -> req_ok a -> req_ok b.
Proof. intros (Ho & Hc & Hw & _) [? ? ?]. split; congruence. Qed.

Lemma chain_same lo l k : same_reqs l k -> chain lo l -> chain lo k.
Proof.
  intros Hlk. revert lo. induction Hlk as [|a b l k Hab _ IH]; intros lo; [done|]. cbn.
  intros (Hlo & Hok & Hc). rewrite (same_req_end a b) by done. split_and!.
  - by destruct Hab as (-> & _).
  - by apply (same_req_ok a).
  - by apply IH.
Qed.

Lemma chain_end_same lo l k : same_reqs l k -> chain_end lo k = chain_end lo l.
Proof.
  intros Hlk. revert lo. induction Hlk as [|a b l k Hab _ IH]; intros lo; [done|]. cbn.
  rewrite (same_req_end a b) by done. apply IH.
Qed.

Lemma req_chain_app lo a b : chain lo (a ++ b) <-> chain lo a /\ chain (chain_end lo a) b.
Proof. revert lo. induction a as [|r a IH]; intros lo; cbn; [tauto|]. rewrite IH. tauto. Qed.

Lemma chain_end_app lo a b : chain_end lo (a ++ b) = chain_end (chain_end lo a) b.
Proof. revert lo. induction a as [|r a IH]; intros lo; cbn; [done|]. apply IH. Qed.

Lemma req_chain_weaken lo lo' l : lo' <= lo -> chain lo l -> chain lo' l.
Proof. destruct l; [done|]. cbn. intros ? (? & ? & ?). split_and!; [lia|done..]. Qed.

Lemma chain_end_ge lo l : chain lo l -> lo <= chain_end lo l.
Proof.
  revert lo. induction l as [|r l IH]; intros lo; cbn; [lia|]. intros (? & [? ? ?] & Hc%IH).
  unfold req_end in *. lia.
Qed.

Lemma chain_ok lo l : chain lo l -> Forall req_ok l.
Proof. revert lo. induction l as [|r l IH]; intros lo; cbn; [by constructor|]. intros (_ & ? & ?%IH). by constructor. Qed.

(** Nothing of a chain lies before its bound. *)
Lemma chain_covers lo l o : chain lo l -> o < lo -> Forall (fun r => covers r o = false) l.
Proof.
  revert lo. induction l as [|r l IH]; intros lo; [by constructor|]. cbn. intros (Hlo & [? ? ?] & Hc) Ho. constructor.
  - unfold covers. lia.
  - eapply IH; [done|]. unfold req_end. lia.
Qed.

(** Nothing of a chain lies at or after its end. *)
Lemma chain_covers_end lo l o : chain lo l -> chain_end lo l <= o -> Forall (fun r => covers r o = false) l.
Proof.
  revert lo. induction l as [|r l IH]; intros lo; [by constructor|]. cbn. intros (Hlo & [? ? ?] & Hc) Ho. constructor.
  - apply chain_end_ge in Hc. unfold covers. lia.
  - by eapply IH.
Qed.

Lemma chain_ends lo l r : chain lo l -> r ∈ l -> req_end r <= chain_end lo l.
Proof.
  revert lo. induction l as [|x l IH]; intros lo; cbn; [by intros _ ?%not_elem_of_nil|].
  intros (_ & _ & Hc) [->|Hr]%elem_of_cons; [by apply chain_end_ge|by eapply IH].
Qed.

(** A byte below the bound of a chain is seen through it. *)
Lemma view_chain_before raw lo l o : chain lo l -> o < lo -> view raw l o = raw o.
Proof. intros Hc Ho. by apply view_skip, (chain_covers lo). Qed.

Lemma view_chain_after raw lo l o : chain lo l -> chain_end lo l <= o -> view raw l o = raw o.
Proof. intros Hc Ho. by eapply view_skip, chain_covers_end. Qed.

(** ** Memory operations on a block *)

Lemma lookup_memcpy_at off src dst (i : nat) :
  0 <= off -> off + zlength src <= zlength dst ->
  memcpy_at off src dst !! i =
  if (off <=? Z.of_nat i) && (Z.of_nat i <? off + zlength src) then src !! Z.to_nat (Z.of_nat i - off)
  else dst !! i.
Proof.
  intros Ho Hl. unfold memcpy_at, zlength in *. destruct (_ && _) eqn:E; bsplit.
  - rewrite lookup_app_r, length_take by (rewrite length_take; lia).
    rewrite lookup_app_l by lia. f_equal. lia.
  - destruct (decide (Z.of_nat i < off)).
    + rewrite lookup_app_l by (rewrite length_take; lia). apply lookup_take_lt. lia.
    + apply andb_false_iff in E as [E|E]; bsplit; [lia|].
      rewrite lookup_app_r by (rewrite length_take; lia).
      rewrite length_take, lookup_app_r, lookup_drop by lia. f_equal. lia.
Qed.

Lemma zlength_memcpy_at off src dst :
  0 <= off -> off + zlength src <= zlength dst -> zlength (memcpy_at off src dst) = zlength dst.
Proof. unfold memcpy_at, zlength. intros. rewrite !length_app, length_take, length_drop. lia. Qed.

(** Dropping the front of a request keeps the bytes of the rest. *)
Lemma drop_front_byte n r o :
  req_ok r -> 0 <= n -> req_offset r + n <= o < req_end r -> req_byte (drop_front n r) o = req_byte r o.
Proof.
  intros [? Hc Hb] Hn Ho. unfold req_byte, drop_front. cbn. unfold req_end, LTFS_CRC_SIZE in *.
  assert (Hs : zlength (slice n (req_count r - n) (data (write_cache r))) = req_count r - n)
    by (apply zlength_slice; lia).
  rewrite lookup_memcpy_at by lia. rewrite Hs, Z2Nat.id by lia.
  case_bool; [|lia]. unfold slice. rewrite lookup_take_lt, lookup_drop by lia. f_equal. lia.
Qed.

Lemma drop_front_ok n r : req_ok r -> 0 <= n < req_count r -> req_ok (drop_front n r).
Proof.
  intros [? ? Hb] Hn. unfold drop_front. split; cbn; [lia..|].
  unfold LTFS_CRC_SIZE in *. rewrite zlength_memcpy_at; [done|lia|]. rewrite zlength_slice; lia.
Qed.

Lemma drop_front_end n r : req_end (drop_front n r) = req_end r.
Proof. unfold req_end. cbn. lia. Qed.
End layout.

(** ** What the helpers leave alone *)

Definition same_file (a b : dentry_priv) : Prop :=
  dentry b = dentry a /\ write_ip b = write_ip a /\ write_error b = write_error a /\
  alt_extentlist b = alt_extentlist a.

Lemma same_file_trans a b c : same_file a b -> same_file b c -> same_file a c.
Proof. unfold same_file. intuition congruence. Qed.

Section helpers.
Context {V : Type} `{RawVolume V}.
Context (host : host_oracle).
Implicit Types (priv : unified_data V) (dpr : dentry_priv).

(** Everything but the queues, the pool and the clock. *)
Definition same_sched (a b : unified_data V) : Prop :=
  cache_size b = cache_size a /\ cache_blocks b = cache_blocks a /\ vol b = vol a /\
  iosched_priv b = iosched_priv a /\ ext_queue b = ext_queue a /\ writer_keepalive b = writer_keepalive a.

Lemma same_sched_refl priv : same_sched priv priv.
Proof. done. Qed.

Lemma same_sched_trans a b c : same_sched a b -> same_sched b c -> same_sched a c.
Proof. unfold same_sched. intuition congruence. Qed.

(** All blocks of the pool have the size of the cache blocks. *)
Definition sized priv : Prop :=
  0 < cache_size priv /\ object_size (cpool priv) = cache_size priv /\
  Forall (object_ok (cpool priv)) (pool (cpool priv)).

Definition block_sized priv (o : cache_object) : Prop := zlength (data o) = cache_size priv + LTFS_CRC_SIZE.

Lemma membership_frame add all q dpr priv dpr' priv' :
  _unified_update_queue_membership add all q dpr priv = (dpr', priv') ->
  same_file dpr dpr' /\ requests dpr' = requests dpr /\ file_size dpr' = file_size dpr /\
  same_sched priv priv' /\ cpool priv' = cpool priv /\ now priv' = now priv /\
  cache_requests priv' = cache_requests priv.
Proof.
  unfold _unified_update_queue_membership. intros Hm.
  destruct q, add, all; repeat case_match; by simplify_eq.
Qed.

Lemma sized_same priv priv' :
  cache_size priv' = cache_size priv -> cpool priv' = cpool priv -> sized priv -> sized priv'.
Proof. unfold sized. by intros -> ->. Qed.

(** The state a helper may change: queue counters and requests of the file. *)
Record helper_frame dpr priv dpr' priv' : Prop := {
  hf_file : same_file dpr dpr';
  hf_sched : same_sched priv priv';
  hf_pool : cpool priv' = cpool priv;
  hf_now : now priv' = now priv;
}.

Lemma helper_frame_refl dpr priv : helper_frame dpr priv dpr priv.
Proof. done. Qed.

Lemma helper_frame_trans d1 p1 d2 p2 d3 p3 :
  helper_frame d1 p1 d2 p2 -> helper_frame d2 p2 d3 p3 -> helper_frame d1 p1 d3 p3.
Proof.
  intros [? ? E1 E2] [? ? E3 E4].
  split; [by eapply same_file_trans|by eapply same_sched_trans|congruence..].
Qed.

Lemma membership_helper add all q dpr priv dpr' priv' :
  _unified_update_queue_membership add all q dpr priv = (dpr', priv') ->
  helper_frame dpr priv dpr' priv' /\ requests dpr' = requests dpr /\ file_size dpr' = file_size dpr.
Proof. intros (? & ? & ? & ? & ? & ? & _)%membership_frame. done. Qed.

Lemma promote_spec offset : forall l dpr priv l' dpr' priv',
  promote offset l dpr priv = (l', dpr', priv') ->
  same_reqs l l' /\ helper_frame dpr priv dpr' priv' /\
  requests dpr' = requests dpr /\ file_size dpr' = file_size dpr.
Proof.
  induction l as [|w l IH]; intros dpr priv l' dpr' priv'; cbn.
  { intros [= <- <- <-]. split_and!; [constructor|apply helper_frame_refl|done..]. }
  destruct (state_eqb (req_state w) REQUEST_PARTIAL && (req_offset w <=? offset)) eqn:E.
  - destruct (_unified_update_queue_membership false false REQUEST_PARTIAL dpr priv) as [d1 p1] eqn:M1.
    destruct (_unified_update_queue_membership true false REQUEST_DP d1 p1) as [d2 p2] eqn:M2.
    destruct (promote offset l d2 p2) as [[l2 d3] p3] eqn:P. intros [= <- <- <-].
    apply membership_helper in M1 as (F1 & R1 & S1). apply membership_helper in M2 as (F2 & R2 & S2).
    apply IH in P as (Hl & F3 & R3 & S3). split_and!.
    + constructor; [|done]. bsplit. unfold same_req, is_ip, state_eqb in *.
      apply bool_decide_eq_true in H0. split_and!; [done..|]. by rewrite H0.
    + eapply helper_frame_trans; [done|]. by eapply helper_frame_trans.
    + congruence.
    + congruence.
  - destruct (promote offset l dpr priv) as [[l2 d3] p3] eqn:P. intros [= <- <- <-].
    apply IH in P as (Hl & F3 & R3 & S3). split_and!; [constructor|..]; done.
Qed.

(** ** Updating a request *)

Lemma max_size_spec r dpr :
  file_size (max_size r dpr) = Z.max (file_size dpr) (req_end r) /\
  requests (max_size r dpr) = requests dpr /\ same_file dpr (max_size r dpr).
Proof. unfold max_size. case_bool; cbn; split_and!; try done; lia. Qed.

Lemma insert_middle {A} (a b : list A) x y : <[length a := y]> (a ++ x :: b) = a ++ y :: b.
Proof. rewrite <- (Nat.add_0_r (length a)). by rewrite insert_app_r. Qed.

Lemma lookup_middle {A} (a b : list A) x : (a ++ x :: b) !! length a = Some x.
Proof. by apply list_lookup_middle. Qed.

(** The request after bytes were copied into its block. *)
Definition copied (buf : list Z) (off n : Z) (req : write_request) : write_request :=
  let req' := req <| write_cache := (write_cache req) <| data :=
    memcpy_at (off - req_offset req) (take (Z.to_nat n) buf) (data (write_cache req)) |> |> in
  if req_count req' <? off - req_offset req + n then req' <| req_count := off - req_offset req + n |> else req'.

Lemma zlength_take {A} n (l : list A) : 0 <= n <= zlength l -> zlength (take (Z.to_nat n) l) = n.
Proof. unfold zlength. intros. rewrite length_take. lia. Qed.

Lemma copied_spec cs buf off n req :
  req_ok cs req -> req_offset req <= off <= req_end req -> 0 < n <= zlength buf ->
  off + n <= req_offset req + cs ->
  let req' := copied buf off n req in
  req_ok cs req' /\ req_offset req' = req_offset req /\ req_end req' = Z.max (req_end req) (off + n) /\
  is_ip req' = is_ip req /\ req_state req' = req_state req /\
  forall o, req_offset req <= o < req_offset req + cs ->
    req_byte req' o = patched (req_byte req) (take (Z.to_nat n) buf) off o.
Proof.
  intros [Ho Hc Hb] Hoff Hn Hroom req'. unfold req_end in *.
  pose proof (zlength_take n buf ltac:(lia)) as Ht. unfold LTFS_CRC_SIZE in *.
  assert (Hlen : zlength (memcpy_at (off - req_offset req) (take (Z.to_nat n) buf) (data (write_cache req))) = cs + 4)
    by (rewrite zlength_memcpy_at; [done|lia|rewrite Ht; lia]).
  subst req'. unfold copied. cbn [req_count]. split_and!.
  - case_bool; (split; cbn; [lia|lia|]); exact Hlen.
  - by case_bool.
  - case_bool; cbn in *; lia.
  - by case_bool.
  - by case_bool.
  - intros o Hin. transitivity (memcpy_at (off - req_offset req) (take (Z.to_nat n) buf) (data (write_cache req))
      !! Z.to_nat (o - req_offset req)); [by case_bool|].
    rewrite lookup_memcpy_at by (rewrite ?Ht; lia). rewrite Z2Nat.id, Ht by lia.
    destruct (decide (off <= o < off + n)).
    + rewrite patched_in by (rewrite Ht; lia). case_bool; [f_equal; lia|lia].
    + rewrite patched_out by (rewrite Ht; lia). case_bool; [lia|done].
Qed.

Lemma update_request_spec A req B buf off dpr priv n dpr' priv' :
  requests dpr = A ++ req :: B -> req_ok (cache_size priv) req ->
  req_offset req <= off <= req_end req -> off < req_offset req + cache_size priv -> 0 < zlength buf ->
  _unified_update_request buf off (length A) dpr priv = (n, dpr', priv') ->
  n = Z.min (zlength buf) (req_offset req + cache_size priv - off) /\
  helper_frame dpr priv dpr' priv' /\
  exists A' req' B', requests dpr' = A' ++ req' :: B' /\ same_reqs A A' /\ same_reqs B B' /\
    same_req (copied buf off n req) req' /\
    file_size dpr' = Z.max (file_size dpr) (Z.max (req_end req) (off + n)).
Proof.
  intros Hr Hok Hoff Hroom Hbuf. unfold _unified_update_request. rewrite Hr, lookup_middle.
  replace (zlength buf =? 0) with false by lia. cbv zeta.
  set (n0 := if zlength buf <? req_offset req + cache_size priv - off then zlength buf
             else req_offset req + cache_size priv - off).
  assert (Hn0 : n0 = Z.min (zlength buf) (req_offset req + cache_size priv - off)) by (unfold n0; case_bool; lia).
  clearbody n0. fold (copied buf off n0 req).
  destruct (copied_spec (cache_size priv) buf off n0 req) as (Hok' & Ho' & He' & Hip' & _); [done|lia..|].
  set (req1 := copied buf off n0 req) in *.
  set (d1 := dpr <| requests := <[length A := req1]> (A ++ req :: B) |>).
  assert (Hd1 : requests d1 = A ++ req1 :: B) by (unfold d1; cbn; apply insert_middle).
  destruct (if state_eqb (req_state req1) REQUEST_PARTIAL && _ then _ else (d1, priv)) as [d2 p2] eqn:Hp.
  assert (exists A' req' B', requests d2 = A' ++ req' :: B' /\ same_reqs A A' /\ same_reqs B B' /\
            same_req req1 req' /\ helper_frame d1 priv d2 p2 /\ file_size d2 = file_size dpr) as
    (A' & req' & B' & Hr2 & HA & HB & Hreq & HF & HS).
  { destruct (_ && _) in Hp.
    - destruct (promote off (requests d1) d1 priv) as [[l dx] px] eqn:P. injection Hp as <- <-.
      apply promote_spec in P as (Hl & HF & HR & HS). rewrite Hd1 in Hl.
      apply Forall2_app_inv_l in Hl as (A' & l2 & HA & Hl & ->).
      apply Forall2_cons_inv_l in Hl as (r' & B' & Hrr & HB & ->).
      exists A', r', B'. split_and!; try done. destruct HF. by split.
    - injection Hp as <- <-. exists A, req1, B. split_and!; try done; apply same_reqs_refl. }
  intros [= <- <- <-].
  destruct (max_size_spec req1 d2) as (Hms & Hmr & Hmf).
  split; [done|]. split.
  - destruct HF as [? ? ? ?]. split; [|done..]. eapply same_file_trans; [|done]. by eapply same_file_trans; [|done].
  - exists A', req', B'. rewrite Hms, Hmr, HS, He'. by split_and!.
Qed.

(** ** Cache blocks *)

Lemma pool_free_sized p o n r q :
  object_ok p o -> 0 <= n <= object_size p -> Forall (object_ok p) (pool p) ->
  cache_manager_free_object o n p = (r, q) ->
  object_size q = object_size p /\ Forall (object_ok q) (pool q).
Proof.
  intros Ho Hn Hp. unfold cache_manager_free_object. case_bool; intros [= _ <-]; (split; [done|]); cbn; [done..| |];
    (apply Forall_app; split; [done|]; constructor; [|done]; unfold object_ok, clear_front in *; cbn;
     rewrite zlength_app, zlength_zeros by lia; unfold zlength in *; rewrite length_drop;
     unfold LTFS_CRC_SIZE in *; lia).
Qed.

Lemma cache_free_sized cache n priv :
  sized priv -> block_sized priv cache -> 0 <= n <= cache_size priv ->
  sized (_unified_cache_free cache n priv) /\ same_sched priv (_unified_cache_free cache n priv).
Proof.
  intros (Hc & Hs & Hp) Hb Hn. unfold _unified_cache_free. split; [|done].
  destruct (cache_manager_free_object cache n (cpool priv)) as [r q] eqn:F.
  apply pool_free_sized in F as [Hq Hq']; [|by unfold object_ok; rewrite Hs|by rewrite Hs|done].
  unfold sized. cbn. by rewrite Hq.
Qed.

Lemma free_request_sized r priv :
  sized priv -> req_ok (cache_size priv) r ->
  sized (_unified_free_request r priv) /\ same_sched priv (_unified_free_request r priv).
Proof. intros Hs [? ? ?]. apply cache_free_sized; [done..|lia]. Qed.

(** ** Merging *)

(** [de'] is [de] with the bytes of [sr] that follow it, as far as they fit. *)
Record merged (cs : Z) (de sr de' : write_request) : Prop := {
  mg_ok : req_ok cs de';
  mg_offset : req_offset de' = req_offset de;
  mg_ip : is_ip de' = is_ip de;
  mg_end : req_end de <= req_end de';
  mg_byte o : covers de' o = true ->
    req_byte de' o = if covers de o then req_byte de o else req_byte sr o;
  mg_grown : req_end de < req_end de' ->
    req_end de' <= req_end sr /\ req_count de < cs /\ is_ip de = is_ip sr;
}.

(** [sr'] is the part of [sr] from [from] on. *)
Record tail_of (cs : Z) (sr sr' : write_request) (from : Z) : Prop := {
  tl_ok : req_ok cs sr';
  tl_offset : req_offset sr' = from;
  tl_end : req_end sr' = req_end sr;
  tl_ip : is_ip sr' = is_ip sr;
  tl_byte o : covers sr' o = true -> req_byte sr' o = req_byte sr o;
}.

Lemma merged_refl cs de sr : req_ok cs de -> merged cs de sr de.
Proof. intros. split; try done; [|lia]. intros o ->. done. Qed.

Lemma merged_same cs de sr a b : merged cs de sr a -> same_req a b -> merged cs de sr b.
Proof.
  intros [? ? ? ? Hb ?] Hs. pose proof Hs as (? & ? & ? & ?). pose proof (same_req_end _ _ Hs).
  split; try congruence; [by apply (same_req_ok cs a)| |].
  - intros o. rewrite (same_req_covers a b), (same_req_byte a b) by done. apply Hb.
  - replace (req_end b) with (req_end a) by done. auto.
Qed.

Lemma tail_of_drop cs sr n :
  req_ok cs sr -> 0 <= n < req_count sr -> tail_of cs sr (drop_front n sr) (req_offset sr + n).
Proof.
  intros Hok Hn. split; try done; [by apply drop_front_ok|by rewrite drop_front_end|].
  unfold covers. rewrite drop_front_end. intros o Ho. cbn in Ho. bsplit. apply (drop_front_byte cs); [done|lia..].
Qed.

Lemma tail_of_same cs a b from sr : same_req a b -> tail_of cs b sr from -> tail_of cs a sr from.
Proof.
  intros Hs [? ? ? ? Hb]. pose proof Hs as (? & ? & ? & ?). pose proof (same_req_end _ _ Hs).
  split; try congruence; [done..|]. intros o Ho. rewrite Hb by done. by apply same_req_byte.
Qed.

(** The copying half of [_unified_merge_requests]. *)
Lemma merge_copy_spec A de sr B dpr priv n dpr' priv' :
  requests dpr = A ++ de :: sr :: B -> req_ok (cache_size priv) de -> req_ok (cache_size priv) sr ->
  req_offset de <= req_offset sr <= req_end de ->
  (if negb (state_eqb (req_state de) (req_state sr)) &&
      (state_eqb (req_state de) REQUEST_IP || state_eqb (req_state sr) REQUEST_IP) then (0, dpr, priv)
   else if (req_count de <? cache_size priv) && (req_end de - req_offset sr <? req_count sr) then
     _unified_update_request (slice (req_end de - req_offset sr) (req_count sr - (req_end de - req_offset sr))
         (data (write_cache sr)))
       (req_offset sr + (req_end de - req_offset sr)) (length A) dpr priv
   else (0, dpr, priv)) = (n, dpr', priv') ->
  0 <= n /\ (n = 0 -> dpr' = dpr /\ priv' = priv) /\ helper_frame dpr priv dpr' priv' /\
  exists A' de' sr' B', requests dpr' = A' ++ de' :: sr' :: B' /\ same_reqs A A' /\ same_reqs B B' /\
    same_req sr sr' /\ merged (cache_size priv) de sr de' /\ req_end de' = req_end de + n /\
    file_size dpr' = if n =? 0 then file_size dpr else Z.max (file_size dpr) (req_end de').
Proof.
  intros Hr Hde Hsr Ho.
  assert (Hnone : (0, dpr, priv) = (n, dpr', priv') ->
    0 <= n /\ (n = 0 -> dpr' = dpr /\ priv' = priv) /\ helper_frame dpr priv dpr' priv' /\
    exists A' de' sr' B', requests dpr' = A' ++ de' :: sr' :: B' /\ same_reqs A A' /\ same_reqs B B' /\
      same_req sr sr' /\ merged (cache_size priv) de sr de' /\ req_end de' = req_end de + n /\
      file_size dpr' = if n =? 0 then file_size dpr else Z.max (file_size dpr) (req_end de')).
  { intros [= <- <- <-]. split; [lia|]. split; [done|]. split; [apply helper_frame_refl|].
    exists A, de, sr, B. split_and!; auto using same_reqs_refl, same_req_refl, merged_refl; lia. }
  destruct (_ && _) eqn:Hst; [exact Hnone|]. destruct (_ && _) eqn:Hfit in |- *; [|exact Hnone].
  bsplit. clear Hnone. set (k := req_end de - req_offset sr) in *.
  set (buf := slice k (req_count sr - k) (data (write_cache sr))).
  pose proof Hsr as [? Hcs Hbs]. pose proof Hde as [? Hcd Hbd]. unfold LTFS_CRC_SIZE in *.
  assert (Hbuf : zlength buf = req_count sr - k) by (apply zlength_slice; lia).
  replace (req_offset sr + k) with (req_end de) by lia. intros Hup.
  eapply update_request_spec in Hup as (Hn & HF & A' & de' & l' & Hr' & HA & Hl & Hc & Hfs); try done;
    try (unfold req_end in *; lia).
  apply Forall2_cons_inv_l in Hl as (sr' & B' & Hs & HB & ->).
  destruct (copied_spec (cache_size priv) buf (req_end de) n de) as (Hok' & Ho' & He' & Hip' & _ & Hby);
    try done; try (unfold req_end in *; lia).
  assert (0 < n) by (unfold req_end in *; lia).
  split; [lia|]. split; [lia|]. split; [done|]. exists A', de', sr', B'. split_and!; try done.
  - apply (merged_same _ _ _ (copied buf (req_end de) n de)); [|done]. split; try done.
    + unfold req_end in *. lia.
    + intros o Hcov. unfold covers in Hcov. rewrite Ho', He' in Hcov. bsplit. unfold req_end in *.
      rewrite Hby by lia. pose proof (zlength_take n buf ltac:(lia)) as Ht.
      unfold covers, req_end. case_bool.
      * apply patched_out. lia.
      * apply andb_false_iff in Heqb as [?|?]; bsplit; [lia|].
        rewrite patched_in by lia. rewrite lookup_take_lt by lia. unfold buf, slice, req_byte.
        rewrite lookup_take_lt, lookup_drop by lia. f_equal. lia.
    + intros _. rewrite He'. split_and!; [unfold req_end in *; lia|done|].
      unfold is_ip. revert Hst. by destruct (req_state de), (req_state sr).
  - rewrite (same_req_end _ _ Hc), He'. lia.
  - rewrite (same_req_end _ _ Hc), He', Hfs. case_bool; lia.
Qed.

Definition spare_sized priv (spare : option cache_object) : Prop :=
  match spare with Some o => block_sized priv o | None => True end.

(** How a merge of the adjacent requests [de] and [sr] ends. *)
Inductive merge_result (cs : Z) (A : list write_request) (de sr : write_request) (B : list write_request)
    : Z -> list write_request -> Prop :=
  | merge_nothing :
      req_end de <= req_offset sr -> merge_result cs A de sr B 0 (A ++ de :: sr :: B)
  | merge_shortened A' de' sr' B' :
      same_reqs A A' -> same_reqs B B' -> req_offset sr <= req_end de ->
      merged cs de sr de' -> tail_of cs sr sr' (req_end de') ->
      merge_result cs A de sr B 1 (A' ++ de' :: sr' :: B')
  | merge_removed A' de' B' :
      same_reqs A A' -> same_reqs B B' -> req_offset sr <= req_end de ->
      merged cs de sr de' -> req_end sr <= req_end de' ->
      merge_result cs A de sr B 2 (A' ++ de' :: B').

Lemma merge_spec A de sr B spare dpr priv ret spare' dpr' priv' :
  requests dpr = A ++ de :: sr :: B -> sized priv -> spare_sized priv (default None spare) ->
  req_ok (cache_size priv) de -> req_ok (cache_size priv) sr -> req_offset de <= req_offset sr ->
  req_end sr <= file_size dpr ->
  _unified_merge_requests (Some (length A)) (S (length A)) spare dpr priv = (ret, spare', dpr', priv') ->
  merge_result (cache_size priv) A de sr B ret (requests dpr') /\
  same_file dpr dpr' /\ file_size dpr' = file_size dpr /\ same_sched priv priv' /\ now priv' = now priv /\
  sized priv' /\ spare_sized priv' (default None spare').
Proof.
  intros Hr Hsz Hsp Hde Hsr Ho Hfs. unfold _unified_merge_requests.
  assert (Hsrc : forall (A : list write_request) x y B, (A ++ x :: y :: B) !! S (length A) = Some y).
  { intros A0 x y B0. change (x :: y :: B0) with ([x] ++ y :: B0). rewrite app_assoc.
    apply list_lookup_middle. rewrite length_app. cbn. lia. }
  rewrite Hr, lookup_middle, Hsrc. change (default (S (length A)) (Some (length A))) with (length A).
  destruct (Z.ltb_spec (req_end de) (req_offset sr)) as [Hgap|Hgap].
  { intros [= <- <- <- <-]. rewrite Hr. split_and!; try done. constructor. lia. }
  destruct (if negb _ && _ then _ else _) as [[n d1] p1] eqn:Hcopy.
  eapply merge_copy_spec in Hcopy as (Hn & Hn0 & HF & A' & de' & sr1 & B' & Hr1 & HA & HB & Hs1 & Hmg & Hend & Hfs1);
    [|done..|lia].
  assert (Hfs' : file_size d1 = file_size dpr).
  { rewrite Hfs1. case_bool; [done|]. pose proof (mg_grown _ _ _ _ Hmg ltac:(lia)). lia. }
  destruct HF as [HFf HFs HFp HFn]. pose proof HFs as (Hcsz & _).
  assert (Hsz1 : sized p1) by (by apply (sized_same priv)).
  assert (HlA : length A' = length A) by (symmetry; by eapply Forall2_length).
  replace (req_end de - req_offset sr + n) with (req_end de' - req_offset sr) by lia.
  destruct (Z.ltb_spec 0 (req_end de' - req_offset sr)) as [Hpos|Hpos].
  2:{ assert (n = 0 /\ req_end de = req_offset sr) as [-> He] by lia. destruct Hn0 as [-> ->]; [done|].
      intros [= <- <- <- <-]. rewrite Hr. split_and!; try done. constructor. lia. }
  rewrite Hr1, <- HlA, Hsrc. pose proof (same_req_ok _ _ _ Hs1 Hsr) as Hsr1.
  pose proof Hs1 as (Eo & Ec & _ & Eip). rewrite Ec.
  assert (Hput : forall y x, <[S (length A') := x]> (A' ++ de' :: y :: B') = A' ++ de' :: x :: B').
  { intros y x. change (de' :: y :: B') with ([de'] ++ y :: B'). rewrite app_assoc.
    replace (S (length A')) with (length (A' ++ [de'])) by (rewrite length_app; cbn; lia).
    rewrite insert_middle, <- app_assoc. done. }
  destruct (Z.ltb_spec (req_end de' - req_offset sr) (req_count sr)) as [Hlt|Hlt].
  - assert (Htail : tail_of (cache_size priv) sr (drop_front (req_end de' - req_offset sr) sr1) (req_end de')).
    { apply (tail_of_same _ sr sr1); [done|].
      replace (req_end de') with (req_offset sr1 + (req_end de' - req_offset sr)) at 2 by lia.
      apply tail_of_drop; [done|lia]. }
    destruct (state_eqb (req_state sr1) REQUEST_DP) eqn:Hdp.
    + set (d2 := d1 <| requests := _ |>).
      destruct (_unified_update_queue_membership false false REQUEST_DP d2 p1) as [d3 p3] eqn:M3.
      destruct (_unified_update_queue_membership true false REQUEST_PARTIAL _ p3) as [d4 p4] eqn:M4.
      intros [= <- <- <- <-].
      apply membership_helper in M3 as ([F3 S3 P3 N3] & R3 & Z3), M4 as ([F4 S4 P4 N4] & R4 & Z4).
      assert (Hp4 : cpool p4 = cpool priv) by congruence.
      assert (Hs4 : same_sched priv p4) by (eapply same_sched_trans; [|done]; by eapply same_sched_trans).
      split_and!; [| |rewrite Z4; cbn; rewrite Z3; exact Hfs'|done|congruence| |].
      * rewrite R4. cbn. rewrite R3. unfold d2. cbn. rewrite !Hput.
        eapply (merge_shortened _ _ _ _ _ A' de' _ B'); try done.
        destruct Htail as [? ? ? ? ?]. split; try done; [by destruct tl_ok0|].
        cbn. unfold is_ip in *. rewrite <- tl_ip0. cbn.
        apply bool_decide_eq_true in Hdp. by rewrite Hdp.
      * eapply same_file_trans; [|done]. by eapply same_file_trans; [done|].
      * apply (sized_same priv); [apply Hs4|done..].
      * destruct Hs4 as (Hc4 & _). unfold spare_sized, block_sized in *. by rewrite Hc4.
    + intros [= <- <- <- <-]. cbn. rewrite Hput. split_and!; try done.
      * by eapply (merge_shortened _ _ _ _ _ A' de' _ B').
      * unfold spare_sized, block_sized in *. by rewrite Hcsz.
  - set (d2 := d1 <| requests := _ |>).
    assert (Hd2 : requests d2 = A' ++ de' :: B').
    { unfold d2. cbn. change (de' :: sr1 :: B') with ([de'] ++ sr1 :: B'). rewrite app_assoc.
      replace (S (length A')) with (length (A' ++ [de'])) by (rewrite length_app; cbn; lia).
      by rewrite delete_middle, <- app_assoc. }
    destruct (_unified_update_queue_membership false false (req_state sr1) d2 p1) as [d3 p3] eqn:M3.
    apply membership_helper in M3 as ([F3 S3 P3 N3] & R3 & Z3).
    assert (Hs3 : same_sched priv p3) by (by eapply same_sched_trans). pose proof Hs3 as (Hc3 & _).
    assert (Hsz3 : sized p3) by (apply (sized_same p1); [by rewrite Hc3|congruence|done]).
    assert (Hres : merge_result (cache_size priv) A de sr B 2 (requests d3)).
    { rewrite R3, Hd2. eapply (merge_removed _ _ _ _ _ A' de' B'); try done. unfold req_end at 1. lia. }
    assert (Hff : same_file dpr d3) by (eapply same_file_trans; [|done]; by eapply same_file_trans).
    assert (Hbl : block_sized p3 (write_cache sr1)) by (unfold block_sized; rewrite Hc3; apply Hsr1).
    assert (Hsp3 : spare_sized p3 (default None spare)) by (unfold spare_sized, block_sized in *; by rewrite Hc3).
    destruct (free_request_sized sr1 p3) as [Hsz4 Hs4]; [done|by rewrite Hc3|].
    assert (Hs5 : same_sched priv (_unified_free_request sr1 p3)) by (by eapply same_sched_trans).
    pose proof (eq_trans Z3 Hfs') as Hz. pose proof (eq_trans N3 HFn) as Hnow.
    destruct spare as [[o|]|]; intros [= <- <- <- <-]; by split_and!.
Qed.

(** ** New requests *)

Lemma pool_allocate_sized ok p r q :
  0 <= object_size p -> Forall (object_ok p) (pool p) ->
  cache_manager_allocate_object ok p = (r, q) ->
  object_size q = object_size p /\ Forall (object_ok q) (pool q) /\
  match r with Some o => object_ok q o | None => True end.
Proof.
  intros Hs Hp. unfold cache_manager_allocate_object. destruct (pool p) as [|o rest] eqn:Hpool.
  2:{ intros [= <- <-]. apply Forall_cons in Hp as [Ho Hp]. by split_and!. }
  destruct (_ =? _).
  { intros [= <- <-]. split_and!; try done. by rewrite Hpool. }
  destruct (grow ok 0 _ None p) as [lo p'] eqn:Hg.
  apply grow_spec in Hg as (k & c & -> & _ & _ & -> & _). rewrite Hpool. cbn [app].
  destruct k as [|k]; intros [= <- <-]; [by split_and!|].
  pose proof (removelast_replicate k (fresh_object p)) as Hrl. cbn in Hrl. cbn. rewrite Hrl.
  split_and!; [done|by apply (fresh_objects_ok p)|by apply (fresh_object_ok p)].
Qed.

Lemma cache_try_alloc_spec priv r priv' :
  sized priv -> cache_try_alloc host priv = (r, priv') ->
  sized priv' /\ same_sched priv priv' /\ spare_sized priv' r.
Proof.
  intros (Hc & Hs & Hp). unfold cache_try_alloc.
  destruct (cache_manager_allocate_object _ (cpool priv)) as [o q] eqn:Ha. intros [= <- <-].
  apply pool_allocate_sized in Ha as (Hq & Hq' & Ho); [|lia|done]. split_and!; [|done|].
  - unfold sized. cbn. by rewrite Hq.
  - destruct o; [|done]. unfold spare_sized, block_sized. cbn. rewrite <- Hs, <- Hq. exact Ho.
Qed.

Lemma insert_at_middle {A} (a b : list A) x : insert_at (length a) x (a ++ b) = a ++ x :: b.
Proof. unfold insert_at. by rewrite take_app_length, drop_app_length. Qed.

(** What a wait or an insertion leaves of the variables of the walk. *)
Definition same_walk (s s' : wstate V) : Prop :=
  w_buf s' = w_buf s /\ w_offset s' = w_offset s /\ prev_req s' = prev_req s /\ did_merge s' = did_merge s.

(** A request with the bytes [bytes] at [off]. *)
Record fresh_request (cs : Z) (bytes : list Z) (off : Z) (ip : bool) (r : write_request) : Prop := {
  fr_ok : req_ok cs r;
  fr_offset : req_offset r = off;
  fr_count : req_count r = zlength bytes;
  fr_ip : is_ip r = ip;
  fr_byte o : covers r o = true -> req_byte r o = bytes !! Z.to_nat (o - off);
}.

Lemma insert_request_spec buf off ip pos (s : wstate V) :
  (forall t, calloc_ok host t = true) -> sized (w_priv s) -> spare_sized (w_priv s) (spare_cache s) ->
  0 < zlength buf -> 0 <= off ->
  match _unified_insert_new_request host buf off ip pos s with
  | DoubleFree => False
  | Pressure s' => spare_cache s' = None /\ w_dpr s' = w_dpr s /\ same_walk s s' /\
      sized (w_priv s') /\ same_sched (w_priv s) (w_priv s')
  | Inserted n s' => n = Z.min (zlength buf) (cache_size (w_priv s)) /\ exists new,
      w_requests s' = insert_at pos new (w_requests s) /\
      fresh_request (cache_size (w_priv s)) (take (Z.to_nat n) buf) off ip new /\
      spare_cache s' = None /\ same_walk s s' /\ sized (w_priv s') /\ same_sched (w_priv s) (w_priv s') /\
      same_file (w_dpr s) (w_dpr s') /\ file_size (w_dpr s') = Z.max (file_size (w_dpr s)) (off + n)
  end.
Proof.
  intros Hcal Hsz Hsp Hbuf Hoff. unfold _unified_insert_new_request.
  destruct (take_cache host s) as [c s1] eqn:Ht.
  assert (H1 : sized (w_priv s1) /\ same_sched (w_priv s) (w_priv s1) /\ spare_sized (w_priv s1) c /\
    w_dpr s1 = w_dpr s /\ same_walk s s1 /\ (c = None -> spare_cache s1 = None)).
  { unfold take_cache in Ht. destruct (spare_cache s) as [o|] eqn:Hso.
    - injection Ht as <- <-. by split_and!.
    - destruct (cache_try_alloc host (w_priv s)) as [c' p'] eqn:Ha. injection Ht as <- <-.
      apply cache_try_alloc_spec in Ha as (? & ? & ?); [|done]. by split_and!. }
  clear Ht. destruct H1 as (Hsz1 & Hs1 & Hc1 & Hd1 & Hw1 & Hn1). pose proof Hs1 as (Hcs1 & _).
  destruct c as [cache|]; [|split_and!; try done; by apply Hn1].
  rewrite Hcal. cbn [negb]. rewrite Hcs1.
  set (n := if cache_size (w_priv s) <? zlength buf then _ else _).
  assert (Hn : n = Z.min (zlength buf) (cache_size (w_priv s))) by (unfold n; case_bool; lia). clearbody n.
  pose proof (proj1 Hsz) as Hpos.
  assert (Htk : zlength (take (Z.to_nat n) buf) = n) by (apply zlength_take; lia).
  set (st := if ip then REQUEST_IP else _).
  set (new := mk_request off n _ st).
  set (d1 := (w_dpr s1) <| requests := _ |>).
  destruct (_unified_update_queue_membership true false st d1 _) as [d2 p2] eqn:M.
  apply membership_helper in M as ([F2 S2 P2 N2] & R2 & Z2). split; [done|].
  destruct (max_size_spec new d2) as (Hms & Hmr & Hmf).
  assert (Hs2 : same_sched (w_priv s) p2) by (eapply same_sched_trans; [exact Hs1|]; exact S2).
  pose proof Hs2 as (Hcs2 & _). unfold spare_sized, block_sized, LTFS_CRC_SIZE in *. cbn in Hc1. rewrite Hcs1 in Hc1.
  exists new. split_and!; try done.
  - unfold w_requests. cbn. rewrite Hmr, R2. unfold d1. cbn. unfold w_requests. by rewrite Hd1.
  - split; try done.
    + split; cbn; [lia|lia|]. unfold LTFS_CRC_SIZE. rewrite zlength_memcpy_at; [done|lia|rewrite Htk; lia].
    + unfold is_ip, new, st. cbn. destruct ip; [done|]. by case_bool.
    + intros o Hc. unfold covers, req_end, new in Hc. cbn in Hc. bsplit. unfold req_byte, new. cbn.
      rewrite lookup_memcpy_at by (rewrite ?Htk; lia). rewrite Htk, Z2Nat.id by lia.
      case_bool; [f_equal; lia|lia].
  - apply (sized_same (w_priv s1)); [cbn; congruence|cbn; by rewrite P2|done].
  - eapply same_file_trans; [|exact Hmf]. eapply same_file_trans; [|exact F2]. unfold d1. by rewrite Hd1.
  - cbn. rewrite Hms, Z2. unfold d1, new, req_end. cbn. by rewrite Hd1.
Qed.
End helpers.
