(* ===== verification/UnifiedWrite.v ===== *)
(** * The unified scheduler: a write changes exactly the bytes written

    The body of [unified_write], a machine over its labels, is followed step by
    step: [winv] is what holds at each label, [phi] decreases with every step. *)

From S2P Require Import Prelude Bytes LtfsError Extents CacheManager Unified UnifiedReqs.

(** ** Views after a change of the list *)

(** The bytes of an IP request are in the raw file already, [rawsz] bytes long. *)
Definition in_raw (raw : Z -> option Z) (rawsz : Z) (r : write_request) : Prop :=
  req_end r <= rawsz /\ forall o, covers r o = true -> raw o = req_byte r o.

Definition ip_agree (raw : Z -> option Z) (rawsz : Z) (l : list write_request) : Prop :=
  Forall (fun r => is_ip r = true -> in_raw raw rawsz r) l.

Lemma ip_agree_same raw rawsz l k : same_reqs l k -> ip_agree raw rawsz l -> ip_agree raw rawsz k.
Proof.
  induction 1 as [|a b l k Hab _ IH]; [done|]. intros [Ha Hl]%Forall_cons. apply Forall_cons. split; [|by apply IH].
  intros Hb. assert (Hip : is_ip a = true) by (destruct Hab as (_ & _ & _ & <-); done).
  destruct (Ha Hip) as [He Hby]. split; [by rewrite (same_req_end a b)|].
  intros o. rewrite (same_req_covers a b), (same_req_byte a b) by done. apply Hby.
Qed.

(** Where the last request ends. *)
Definition last_end (l : list write_request) : Z := foldr (fun r m => Z.max (req_end r) m) 0 l.

Lemma last_end_nonneg l : 0 <= last_end l.
Proof. induction l as [|r l IH]; cbn; [done|]. unfold last_end in IH. lia. Qed.

Lemma last_end_cons r l : last_end (r :: l) = Z.max (req_end r) (last_end l).
Proof. done. Qed.

Lemma last_end_app a b : last_end (a ++ b) = Z.max (last_end a) (last_end b).
Proof.
  induction a as [|r a IH]; [pose proof (last_end_nonneg b); cbn; unfold last_end in *; lia|].
  cbn [app]. rewrite !last_end_cons, IH. lia.
Qed.

Lemma last_end_same l k : same_reqs l k -> last_end k = last_end l.
Proof.
  induction 1 as [|a b l k Hab _ IH]; [done|]. rewrite !last_end_cons, IH. by rewrite (same_req_end a b).
Qed.

Lemma last_end_in r l : r ∈ l -> req_end r <= last_end l.
Proof.
  induction l as [|x l IH]; [by intros ?%not_elem_of_nil|]. rewrite last_end_cons.
  intros [->|Hr%IH]%elem_of_cons; lia.
Qed.

Create Rewrite HintDb ends.
#[export] Hint Rewrite last_end_app last_end_cons : ends.

Section views.
Context (cs : Z) (raw : Z -> option Z) (rawsz : Z).

Lemma view_app_ext A A' B B' o :
  same_reqs A A' -> view raw B' o = view raw B o -> view raw (A' ++ B') o = view raw (A ++ B) o.
Proof. intros HA HB. rewrite !view_app, <- HA. by apply view_ext. Qed.

(** A merge moves bytes, it changes none. *)
Lemma merge_view A de sr B ret l o :
  req_offset de <= req_offset sr ->
  merge_result cs A de sr B ret l -> view raw l o = view raw (A ++ de :: sr :: B) o.
Proof.
  intros Ho [|A' de' sr' B' HA HB Hle Hm Ht|A' de' B' HA HB Hle Hm He]; [done|..]; apply view_app_ext; try done; cbn.
  - destruct Hm as [_ Hmo _ Hme Hmb Hmg], Ht as [_ Hto Hte _ Htb]. rewrite <- HB.
    destruct (covers de' o) eqn:Hc'; [rewrite Hmb by done|].
    + destruct (covers de o) eqn:Hc; [done|]. replace (covers sr o) with true; [done|].
      unfold covers in *. bsplit. assert (req_end de <= o) by lia. specialize (Hmg ltac:(lia)). lia.
    + replace (covers de o) with false by (unfold covers in *; lia).
      destruct (covers sr' o) eqn:Hs'.
      * rewrite Htb by done. by replace (covers sr o) with true by (unfold covers in *; lia).
      * by replace (covers sr o) with false by (unfold covers in *; lia).
  - destruct Hm as [_ Hmo _ Hme Hmb Hmg]. rewrite <- HB.
    destruct (covers de' o) eqn:Hc'; [rewrite Hmb by done|].
    + destruct (covers de o) eqn:Hc; [done|]. replace (covers sr o) with true; [done|].
      unfold covers in *. bsplit. assert (req_end de <= o) by lia. specialize (Hmg ltac:(lia)). lia.
    + replace (covers de o) with false by (unfold covers in *; lia).
      by replace (covers sr o) with false by (unfold covers in *; lia).
Qed.

Lemma merge_agree A de sr B ret l :
  req_offset de <= req_offset sr ->
  merge_result cs A de sr B ret l -> ip_agree raw rawsz (A ++ de :: sr :: B) -> ip_agree raw rawsz l.
Proof.
  intros Ho Hm Hag. apply Forall_app in Hag as Hag'. destruct Hag' as [HA' Hag'].
  apply Forall_cons in Hag' as [Hde Hag']. apply Forall_cons in Hag' as [Hsr HB'].
  assert (Hdest : forall de', merged cs de sr de' -> req_offset sr <= req_end de ->
    is_ip de' = true -> in_raw raw rawsz de').
  { intros de' [_ Hmo Hmi Hme Hmb Hmg] Hle Hip. rewrite Hmi in Hip. destruct (Hde Hip) as [Hde1 Hde2]. split.
    - destruct (decide (req_end de < req_end de')) as [Hlt|?]; [|lia].
      destruct (Hmg Hlt) as (? & _ & Hi). destruct (Hsr ltac:(congruence)). lia.
    - intros o Hc. rewrite Hmb by done. destruct (covers de o) eqn:Hcd; [by apply Hde2|].
      unfold covers in *. bsplit. assert (req_end de <= o) by lia. destruct (Hmg ltac:(lia)) as (? & _ & Hi).
      apply (Hsr ltac:(congruence)). unfold covers. lia. }
  destruct Hm as [|A' de' sr' B' HA HB Hle Hm Ht|A' de' B' HA HB Hle Hm He]; [done|..].
  - apply Forall_app. split; [by apply (ip_agree_same raw rawsz A)|]. apply Forall_cons. split; [by apply Hdest|].
    apply Forall_cons. split; [|by apply (ip_agree_same raw rawsz B)].
    destruct Ht as [_ Hto Hte Hti Htb]. intros Hip. destruct (Hsr ltac:(congruence)) as [Hs1 Hs2].
    split; [lia|]. intros o Hc. rewrite Htb by done. apply Hs2.
    unfold covers in *. rewrite Hto, Hte in Hc. pose proof (mg_end _ _ _ _ Hm). bsplit. lia.
  - apply Forall_app. split; [by apply (ip_agree_same raw rawsz A)|]. apply Forall_cons. split; [by apply Hdest|].
    by apply (ip_agree_same raw rawsz B).
Qed.

(** Nor does it move the end. *)
Lemma merge_last_end A de sr B ret l :
  merge_result cs A de sr B ret l -> last_end l = last_end (A ++ de :: sr :: B).
Proof.
  intros [|A' de' sr' B' HA HB Hle Hm Ht|A' de' B' HA HB Hle Hm He]; [done|..];
    autorewrite with ends; rewrite (last_end_same A A'), (last_end_same B B') by done;
    pose proof (mg_end _ _ _ _ Hm); destruct (decide (req_end de < req_end de')) as [Hlt|?];
    try (pose proof (mg_grown _ _ _ _ Hm Hlt)); try (rewrite (tl_end _ _ _ _ Ht)); lia.
Qed.

(** A request with the bytes [buf] is put after [A], which ends before it. *)
Lemma view_insert A new C buf o :
  chain cs 0 A -> chain_end 0 A <= req_offset new -> req_count new = zlength buf ->
  (forall o, covers new o = true -> req_byte new o = buf !! Z.to_nat (o - req_offset new)) ->
  view raw (A ++ new :: C) o = patched (view raw (A ++ C)) buf (req_offset new) o.
Proof.
  intros HA Hend Hcnt Hby. rewrite !view_app.
  destruct (decide (req_offset new <= o < req_offset new + zlength buf)) as [Hin|Hout].
  - rewrite patched_in by done. rewrite (view_chain_after cs _ 0) by (done || lia). cbn.
    assert (covers new o = true) as Hc by (unfold covers, req_end; lia). rewrite Hc. by apply Hby.
  - rewrite patched_out by lia. rewrite view_app. apply view_ext. cbn.
    by replace (covers new o) with false by (unfold covers, req_end; lia).
Qed.

(** A request gets new bytes over its own. *)
Lemma view_update A A' req req' B B' bytes off o :
  chain cs 0 A -> chain_end 0 A <= off -> same_reqs A A' -> same_reqs B B' ->
  req_offset req' = req_offset req -> req_end req' = Z.max (req_end req) (off + zlength bytes) ->
  req_offset req <= off <= req_end req -> 
  (forall o, covers req' o = true -> req_byte req' o = patched (req_byte req) bytes off o) ->
  view raw (A' ++ req' :: B') o = patched (view raw (A ++ req :: B)) bytes off o.
Proof.
  intros HA Hend HAA HBB Ho He Hoff Hby. pose proof (zlength_nonneg bytes).
  rewrite !view_app, <- HAA.
  destruct (decide (off <= o < off + zlength bytes)) as [Hin|Hout].
  - rewrite patched_in by done. rewrite (view_chain_after cs _ 0) by (done || lia). cbn.
    assert (covers req' o = true) as Hc by (unfold covers; lia). rewrite Hc, Hby, patched_in by done. done.
  - rewrite patched_out by lia. rewrite view_app. apply view_ext. cbn. rewrite <- HBB.
    replace (covers req' o) with (covers req o) by (unfold covers; lia).
    destruct (covers req o) eqn:Hc; [|done]. rewrite Hby by (unfold covers in *; lia). by rewrite patched_out by lia.
Qed.

(** Dropping the cached copy of bytes the raw file has as well. *)
Lemma view_drop_ip A req l B o :
  chain cs 0 A -> chain cs (req_end req) B -> is_ip req = true ->
  (forall o, covers req o = true -> raw o = req_byte req o) ->
  (forall o, covers req o = false -> Forall (fun r => covers r o = false) l) ->
  Forall (fun r => forall o, covers r o = true -> req_byte r o = req_byte req o) l ->
  view raw (A ++ l ++ B) o = view raw (A ++ req :: B) o.
Proof.
  intros HA HB Hip Hag Hout Hsame. rewrite !(view_app _ A). apply view_ext. cbn.
  destruct (covers req o) eqn:Hc.
  - rewrite view_app. assert (HBo : view raw B o = req_byte req o).
    { rewrite (view_chain_before cs _ (req_end req)); [by apply Hag|done|]. unfold covers in Hc. lia. }
    clear Hout. induction Hsame as [|r l Hr _ IH]; [done|]. cbn. destruct (covers r o) eqn:Hcr; [by apply Hr|done].
  - rewrite view_app. by apply view_skip, Hout.
Qed.
End views.

(** ** The invariant of the body *)

(** Two adjacent IP requests that meet at a place the write will reach: the
    first one is full.  (Where it is not, the code loses bytes of the write;
    see [UnifiedFindings].) *)
Fixpoint packed (cs off lim : Z) (l : list write_request) : Prop :=
  match l with
  | x :: ((y :: _) as l') =>
      (is_ip x = true -> is_ip y = true -> req_end x = req_offset y -> off <= req_end x < lim ->
       req_count x = cs) /\ packed cs off lim l'
  | _ => True
  end.

Lemma packed_cons cs off lim x l : packed cs off lim (x :: l) -> packed cs off lim l.
Proof. destruct l; [done|]. by intros [_ ?]. Qed.

Lemma packed_same cs off lim l k : same_reqs l k -> packed cs off lim l -> packed cs off lim k.
Proof.
  induction 1 as [|a b l k Hab Hlk IH]; [done|]. destruct Hlk as [|c d l k Hcd Hlk]; [done|].
  intros [Hp Hl]. split; [|by apply IH]. rewrite (same_req_end a b) by done.
  destruct Hab as (_ & -> & _ & ->), Hcd as (-> & _ & _ & ->). done.
Qed.

Lemma packed_later cs off off' lim l : off <= off' -> packed cs off lim l -> packed cs off' lim l.
Proof.
  intros Ho. induction l as [|x l IH]; [done|]. destruct l as [|y l]; [done|].
  intros [Hp Hl]. split; [|by apply IH]. intros. apply Hp; auto. lia.
Qed.

(** Nothing to show for requests past the end of the write. *)
Lemma packed_past cs off lim lo l : chain cs lo l -> lim <= lo -> packed cs off lim l.
Proof.
  revert lo. induction l as [|x l IH]; intros lo; [done|]. destruct l as [|y l]; [done|].
  intros (Hlo & [? ? ?] & Hc) Hlim. split; [unfold req_end in *; lia|]. apply (IH (req_end x)); [done|].
  unfold req_end. lia.
Qed.

(** Nor for requests before its beginning. *)
Lemma packed_before cs off lim lo A B :
  chain cs lo A -> chain_end lo A <= off ->
  (chain_end lo A < off \/ match B with r :: _ => off < req_offset r | [] => True end) ->
  packed cs off lim B -> packed cs off lim (A ++ B).
Proof.
  revert lo. induction A as [|x A IH]; intros lo; [done|]. cbn [chain chain_end app].
  intros (Hlo & Hok & Hc) He HB HpB. specialize (IH (req_end x) Hc He HB HpB).
  destruct (A ++ B) as [|y l] eqn:E; [done|]. split; [|exact IH].
  destruct A as [|a A]; cbn in E.
  - subst B. cbn in He. destruct HB; cbn in *; lia.
  - injection E as -> _. cbn in Hc. destruct Hc as (? & [? ? ?] & Hc). apply chain_end_ge in Hc.
    cbn in He. unfold req_end in *. lia.
Qed.

Section write.
Context {V : Type} `{RawVolume V}.
Context (host : host_oracle) (Hcalloc : forall t, calloc_ok host t = true).
Context (dpr0 : dentry_priv) (priv0 : unified_data V) (buf0 : list Z) (off0 : Z) (raw : Z -> option Z) (rawsz : Z).
Implicit Types s : wstate V.

Abbreviation cs := (cache_size priv0).
Abbreviation lim := (off0 + zlength buf0).
Abbreviation view0 := (view raw (requests dpr0)).

(** [k] bytes are done: they are in the requests, nothing else has changed. *)
Record wdone s (k : Z) : Prop := {
  wd_k : 0 <= k <= zlength buf0;
  wd_buf : w_buf s = drop (Z.to_nat k) buf0;
  wd_offset : w_offset s = off0 + k;
  wd_view o : view raw (w_requests s) o = patched view0 (take (Z.to_nat k) buf0) off0 o;
  wd_agree : ip_agree raw rawsz (w_requests s);
  wd_sized : sized (w_priv s);
  wd_spare : spare_sized (w_priv s) (spare_cache s);
  wd_file : same_file dpr0 (w_dpr s);
  wd_sched : same_sched priv0 (w_priv s);
  wd_size : file_size (w_dpr s) = if k =? 0 then file_size dpr0 else Z.max (file_size dpr0) (off0 + k);
  wd_ends : Z.max rawsz (last_end (w_requests s)) = file_size (w_dpr s);
}.

Lemma wd_left s k : wdone s k -> w_size s = zlength buf0 - k.
Proof.
  intros [Hk Hb _ _ _ _ _ _ _ _ _]. unfold w_size, zlength in *. rewrite Hb, length_drop. lia.
Qed.

Lemma wd_cs s k : wdone s k -> cache_size (w_priv s) = cs.
Proof. intros Hd. apply (wd_sched _ _ Hd). Qed.

(** The list is [A ++ B] and the walk is about to look at [B]; [prev_req] is
    the last request of [A], which may reach into [B]. *)
Definition at_req (A B : list write_request) (prev : option nat) (off size : Z) : Prop :=
  chain cs 0 A /\
  match prev with
  | None => chain cs (chain_end 0 A) B /\ (A = [] \/ chain_end 0 A < off) /\ 0 < size
  | Some p => exists A0 de, A = A0 ++ [de] /\ p = length A0 /\ chain cs (req_offset de) B /\ off <= req_end de /\
      (0 < size -> req_end de = off /\
        (req_count de = cs \/
         is_ip de = true /\ chain cs (req_end de) B /\
         match B with r :: _ => is_ip r = true -> off < req_offset r | [] => True end))
  end.

(** The state at the label [do_insert_before] when an IP request was cut and
    the rest of the buffer goes in front of what is left of it. *)
Definition in_gap (A : list write_request) (req : write_request) (B : list write_request) (off size : Z) : Prop :=
  0 < size <= cs /\ req_offset req = off + size /\ chain cs 0 A /\ chain_end 0 A <= off /\ chain cs off (req :: B).

Definition layout (l : label) s : Prop :=
  let off := w_offset s in
  let size := w_size s in
  match l with
  | do_append => chain cs 0 (w_requests s) /\ 0 < size /\
      (chain_end 0 (w_requests s) <= off \/ packed cs off lim (w_requests s))
  | append_new => chain cs 0 (w_requests s) /\ (0 < size -> chain_end 0 (w_requests s) <= off)
  | visit i => exists A B, w_requests s = A ++ B /\ i = length A /\ at_req A B (prev_req s) off size /\
      packed cs off lim B
  | do_insert_before i => exists A req B, w_requests s = A ++ req :: B /\ i = length A /\
      (at_req A (req :: B) (prev_req s) off size /\ packed cs off lim (req :: B) /\
       (prev_req s = None -> off <= req_end req) \/
       in_gap A req B off size)
  | overlap i => exists A req B, w_requests s = A ++ req :: B /\ i = length A /\
      at_req A (req :: B) (prev_req s) off size /\ packed cs off lim (req :: B) /\
      (prev_req s = None -> off <= req_end req) /\ (0 < size -> req_offset req <= off)
  end.

Definition winv (l : label) s : Prop := 0 <= off0 /\ (exists k, wdone s k) /\ layout l s.

(** ** The measure *)

Definition left_over (i : nat) s : Z := zlength (w_requests s) - Z.of_nat i + w_size s.

Definition phi (l : label) s : Z :=
  match l with
  | append_new => 8 * w_size s + 2
  | do_append => if chain_end 0 (w_requests s) <=? w_offset s then 8 * w_size s + 3
                 else 8 * left_over 0 s + 5
  | visit i => 8 * left_over i s + 4
  | do_insert_before i =>
      8 * left_over i s + match w_requests s !! i with
        | Some req => if (0 <? w_size s) && (w_offset s <? req_offset req) then 1 else 3
        | None => 3
        end
  | overlap i => 8 * left_over i s + 2
  end.

(** What a step has to establish; the measure ends up below [bound]. *)
Definition step_lt (bound : Z) (r : wresult V + label * wstate V) : Prop :=
  match r with
  | inl (GotoOut s') => wdone s' (zlength buf0) /\ chain cs 0 (w_requests s')
  | inl (Waits s') => exists k, wdone s' k /\ k < zlength buf0 /\ chain cs 0 (w_requests s') /\
      packed cs (off0 + k) lim (w_requests s') /\ spare_cache s' = None
  | inl _ => False
  | inr (l', s') => winv l' s' /\ phi l' s' < bound
  end.

Abbreviation step_ok l s := (step_lt (phi l s)).

(** ** Progress *)

(** [n] more bytes are done. *)
Lemma wdone_more s k s' n :
  wdone s k -> 0 <= n <= w_size s ->
  w_buf s' = drop (Z.to_nat n) (w_buf s) -> w_offset s' = w_offset s + n ->
  (forall o, view raw (w_requests s') o =
     patched (view raw (w_requests s)) (take (Z.to_nat n) (w_buf s)) (w_offset s) o) ->
  ip_agree raw rawsz (w_requests s') -> sized (w_priv s') -> spare_sized (w_priv s') (spare_cache s') ->
  same_file (w_dpr s) (w_dpr s') -> same_sched (w_priv s) (w_priv s') ->
  file_size (w_dpr s') = (if n =? 0 then file_size (w_dpr s) else Z.max (file_size (w_dpr s)) (w_offset s + n)) ->
  Z.max rawsz (last_end (w_requests s')) = file_size (w_dpr s') ->
  wdone s' (k + n).
Proof.
  intros Hd Hn Hb Ho Hv Ha Hz Hsp Hf Hs Hfs He. pose proof (wd_left _ _ Hd) as Hl.
  pose proof Hd as [Hk Hb0 Ho0 Hv0 _ _ _ Hf0 Hs0 Hfs0 _]. split; try done.
  - lia.
  - rewrite Hb, Hb0, drop_drop. f_equal. lia.
  - lia.
  - intros o. rewrite Hv.
    replace (Z.to_nat (k + n)) with (Z.to_nat k + Z.to_nat n)%nat by lia.
    rewrite <- take_take_drop, patched_app, zlength_take by lia. rewrite <- Ho0, <- Hb0. by apply patched_ext.
  - by eapply same_file_trans.
  - by eapply same_sched_trans.
  - rewrite Hfs, Hfs0, Ho0. case_bool; lia.
Qed.

(** The bytes have moved, none have changed. *)
Lemma wdone_same s k s' :
  wdone s k -> w_buf s' = w_buf s -> w_offset s' = w_offset s ->
  (forall o, view raw (w_requests s') o = view raw (w_requests s) o) ->
  ip_agree raw rawsz (w_requests s') -> sized (w_priv s') -> spare_sized (w_priv s') (spare_cache s') ->
  same_file (w_dpr s) (w_dpr s') -> same_sched (w_priv s) (w_priv s') ->
  file_size (w_dpr s') = file_size (w_dpr s) ->
  Z.max rawsz (last_end (w_requests s')) = file_size (w_dpr s') ->
  wdone s' k.
Proof.
  intros Hd Hb Ho Hv Ha Hz Hsp Hf Hs Hfs He. rewrite <- (Z.add_0_r k).
  apply (wdone_more s k s' 0); try done.
  - pose proof (zlength_nonneg (w_buf s)). unfold w_size. lia.
  - by rewrite Z.add_0_r.
  - intros o. by rewrite Hv, patched_nil.
Qed.

Lemma w_size_advance n s : 0 <= n <= w_size s -> w_size (advance n s) = w_size s - n.
Proof. unfold w_size, advance, zlength. cbn. rewrite length_drop. lia. Qed.

(** The front of the rest goes into a new request behind [A]. *)
Lemma insert_front_spec s k A C kont :
  wdone s k -> 0 <= off0 -> w_requests s = A ++ C -> chain cs 0 A -> chain_end 0 A <= w_offset s -> 0 < w_size s ->
  match insert_front host (length A) s kont with
  | inr r => exists n new s', r = kont s' /\ n = Z.min (w_size s) cs /\ wdone s' (k + n) /\
      w_requests s' = A ++ new :: C /\ fresh_request cs (take (Z.to_nat n) (w_buf s)) (w_offset s) false new /\
      w_size s' = w_size s - n /\ w_offset s' = w_offset s + n
  | inl (Waits s') => wdone s' k /\ w_requests s' = A ++ C /\ spare_cache s' = None
  | inl _ => False
  end.
Proof.
  intros Hd Hoff Hr HA Hend Hsz. pose proof Hd as [Hk Hb0 Ho0 Hv0 Ha0 Hz0 Hsp0 Hf0 Hs0 Hfs0 He0].
  unfold insert_front. pose proof (wd_cs _ _ Hd) as Hcs.
  pose proof (insert_request_spec host (w_buf s) (w_offset s) false (length A) s Hcalloc Hz0 Hsp0 Hsz ltac:(lia)) as Hi.
  destruct (_unified_insert_new_request host _ _ _ _ _) as [n s'|s'|]; [| |done].
  - destruct Hi as (Hn & new & Hr' & Hnew & Hsp & (Wb & Wo & Wp & Wm) & Hz & Hsc & Hf & Hfs).
    rewrite Hcs in *. rewrite Hr, insert_at_middle in Hr'. pose proof (proj1 Hz0) as Hpos. rewrite Hcs in Hpos.
    exists n, new, (advance n s'). fold (w_size s) in Hn.
    assert (Hsize : w_size s' = w_size s) by (unfold w_size; by rewrite Wb).
    pose proof Hnew as [Nok No Nc Ni Nb]. rewrite zlength_take in Nc by (unfold w_size in *; lia).
    split_and!; try done.
    + apply (wdone_more s k _ n); try done; try lia; cbn.
      * by rewrite Wb.
      * by rewrite Wo.
      * intros o. rewrite Hr, <- No. unfold w_requests in *. cbn. rewrite Hr'. apply (view_insert cs); try done; [lia| |].
        -- rewrite Nc. symmetry. apply zlength_take. unfold w_size in *. lia.
        -- intros o' Hc. rewrite No. by apply Nb.
      * unfold w_requests in *. cbn. rewrite Hr'. rewrite Hr in Ha0. apply Forall_app in Ha0 as [HaA HaC].
        apply Forall_app. split; [done|]. apply Forall_cons. split; [congruence|done].
      * by rewrite Hsp.
      * rewrite Hfs. case_bool; lia.
      * unfold w_requests in *. cbn. rewrite Hr', Hfs. rewrite Hr in He0. autorewrite with ends in *. unfold req_end. lia.
    + rewrite w_size_advance; lia.
    + cbn. by rewrite Wo.
  - destruct Hi as (Hsp & Hdp & (Wb & Wo & Wp & Wm) & Hz & Hsc). split_and!; try done.
    + apply (wdone_same s); try done; unfold w_requests; rewrite ?Hdp; try done. by rewrite Hsp.
    + unfold w_requests. by rewrite Hdp.
Qed.

(** The front of the rest goes into the request behind [A]. *)
Lemma update_rest_spec s k A req B :
  wdone s k -> w_requests s = A ++ req :: B -> chain cs 0 A -> chain_end 0 A <= req_offset req ->
  req_ok cs req -> is_ip req = false -> req_offset req <= w_offset s <= req_end req ->
  w_offset s < req_offset req + cs -> 0 < w_size s ->
  let s' := update_with_rest (length A) s in
  exists n A' req' B', n = Z.min (w_size s) (req_offset req + cs - w_offset s) /\ wdone s' (k + n) /\
    w_requests s' = A' ++ req' :: B' /\ same_reqs A A' /\ same_reqs B B' /\ req_ok cs req' /\
    req_offset req' = req_offset req /\ req_end req' = Z.max (req_end req) (w_offset s + n) /\
    w_size s' = w_size s - n /\ w_offset s' = w_offset s + n /\
    prev_req s' = prev_req s /\ did_merge s' = did_merge s.
Proof.
  intros Hd Hr HA Hend Hok Hip Hoff Hroom Hsz s'. pose proof Hd as [Hk Hb0 Ho0 Hv0 Ha0 Hz0 Hsp0 Hf0 Hs0 Hfs0 He0].
  pose proof (wd_cs _ _ Hd) as Hcs. subst s'. unfold update_with_rest.
  destruct (_unified_update_request _ _ _ _ _) as [[n d1] p1] eqn:Hu.
  eapply (update_request_spec A req B) in Hu as (Hn & HF & A' & req' & B' & Hr' & HAA & HBB & Hc & Hfs); try done;
    try (by rewrite Hcs).
  fold (w_size s) in Hn. rewrite Hcs in Hn. destruct HF as [HFf HFs HFp HFn].
  destruct (copied_spec cs (w_buf s) (w_offset s) n req) as (Hok' & Ho' & He' & Hip' & _ & Hby); try done;
    try (unfold w_size, req_end in *; lia).
  pose proof (same_req_end _ _ Hc) as Hce. pose proof Hc as (Hco & _ & _ & Hci).
  assert (Hr1 : w_requests (advance n (s <| w_dpr := d1 |> <| w_priv := p1 |>)) = A' ++ req' :: B') by done.
  exists n, A', req', B'. split_and!; try done; try congruence.
  - rewrite Hr in Ha0, He0. apply Forall_app in Ha0 as [HaA HaB]. apply Forall_cons in HaB as [_ HaB].
    autorewrite with ends in He0. apply (wdone_more s k _ n); try done; try (unfold req_end in *; lia).
    + intros o. rewrite Hr, Hr1. apply (view_update cs); try done; try lia.
      * rewrite Hce, He', zlength_take; [done|]. unfold w_size, req_end in *. lia.
      * intros o' Hcov. rewrite (same_req_byte _ _ _ Hc). apply Hby.
        rewrite (same_req_covers _ _ _ Hc) in Hcov. unfold covers in Hcov. rewrite Ho' in Hcov. bsplit.
        pose proof Hok' as [? ? ?]. unfold req_end in *. lia.
    + rewrite Hr1. apply Forall_app. split; [by apply (ip_agree_same raw rawsz A)|]. apply Forall_cons.
      split; [|by apply (ip_agree_same raw rawsz B)]. intros Hx. congruence.
    + apply (sized_same (w_priv s)); [apply HFs|done..].
    + cbn. destruct HFs as (Hc1 & _). unfold spare_sized, block_sized in *. by rewrite Hc1.
    + cbn. rewrite Hfs. case_bool; unfold req_end in *; lia.
    + rewrite Hr1. cbn [w_dpr advance set_field]. change (file_size (w_dpr _)) with (file_size d1). rewrite Hfs.
      autorewrite with ends. rewrite (last_end_same A A'), (last_end_same B B'), Hce, He' by done. lia.
  - by apply (same_req_ok cs (copied (w_buf s) (w_offset s) n req)).
  - rewrite w_size_advance; [done|]. unfold w_size in *. cbn. unfold req_end in *. lia.
Qed.

(** Merging the request behind [A0 ++ [de]] into [de]. *)
Lemma merge_prev_spec s k A0 de sr B :
  wdone s k -> w_requests s = A0 ++ de :: sr :: B -> prev_req s = Some (length A0) ->
  req_ok cs de -> req_ok cs sr -> req_offset de <= req_offset sr ->
  let '(ret, s') := merge_into_prev (S (length A0)) s in
  merge_result cs A0 de sr B ret (w_requests s') /\ wdone s' k /\
  w_size s' = w_size s /\ w_offset s' = w_offset s /\ prev_req s' = prev_req s.
Proof.
  intros Hd Hr Hp Hde Hsr Ho. pose proof Hd as [Hk Hb0 Ho0 Hv0 Ha0 Hz0 Hsp0 Hf0 Hs0 Hfs0 He0].
  pose proof (wd_cs _ _ Hd) as Hcs. unfold merge_into_prev. rewrite Hp.
  destruct (_unified_merge_requests _ _ _ _ _) as [[[ret sp] d1] p1] eqn:Hm.
  assert (Hes : req_end sr <= file_size (w_dpr s)) by (rewrite Hr in He0; autorewrite with ends in He0; lia).
  eapply merge_spec in Hm as (Hres & Hf & Hfs & Hs & Hnow & Hz & Hsp); try done; try (by rewrite Hcs).
  rewrite Hcs in Hres. split; [done|]. split; [|by split_and!].
  rewrite Hr in Ha0. apply (wdone_same s); try done.
  - intros o. rewrite Hr. by apply (merge_view cs _ _ _ _ _ ret).
  - by eapply merge_agree.
  - unfold w_requests in *. cbn in Hres |- *. rewrite Hfs, <- He0. by rewrite (merge_last_end cs _ _ _ _ _ _ Hres), Hr.
Qed.

Lemma merge_none_spec i s : prev_req s = None ->
  merge_into_prev i s = (0, s).
Proof.
  intros Hp. unfold merge_into_prev. rewrite Hp. unfold _unified_merge_requests. by destruct s.
Qed.

(** ** The steps *)

Lemma chain_single lo r : chain cs lo [r] <-> lo <= req_offset r /\ req_ok cs r.
Proof. cbn. tauto. Qed.

Lemma chain_end_single lo r : chain_end lo [r] = req_end r.
Proof. done. Qed.

Lemma step_do_append s : winv do_append s -> step_ok do_append s (write_step host do_append s).
Proof.
  intros (Hoff & (k & Hd) & Hch & Hsz & Hwhere). unfold step_lt. cbn [write_step].
  pose proof (wd_cs _ _ Hd) as Hcs. pose proof (zlength_nonneg (w_requests s)) as Hlen.
  assert (Hlast : match last (w_requests s) with Some r => req_end r | None => 0 end = chain_end 0 (w_requests s)).
  { destruct (last (w_requests s)) as [r|] eqn:El.
    - apply last_Some in El as [l' ->]. by rewrite chain_end_app.
    - by apply last_None in El as ->. }
  rewrite Hlast. destruct (Z.leb_spec (chain_end 0 (w_requests s)) (w_offset s)) as [Hle|Hgt].
  - assert (Hstay : winv append_new s /\ phi append_new s < phi do_append s).
    { split; [|unfold phi; case_bool; lia]. split; [done|]. split; [by exists k|]. by split. }
    destruct (last (w_requests s)) as [r|] eqn:El; [|done].
    destruct (_ && _) eqn:Hcond; [|done]. bsplit.
    apply last_Some in El as [A Hr].
    assert (Hch' := Hch). rewrite Hr in Hch'. apply req_chain_app in Hch' as [HA Hrk%chain_single].
    destruct Hrk as [HAr Hok].
    replace (length (w_requests s) - 1)%nat with (length A) by (rewrite Hr, length_app; cbn; lia).
    destruct (update_rest_spec s k A r [] Hd Hr HA HAr Hok) as
      (n & A' & r' & B' & Hn & Hd' & Hr' & HAA & HBB & Hok' & Ho' & He' & Hs' & Hf' & _);
      try done; try (destruct Hok; unfold req_end in *; lia).
    apply Forall2_nil_inv_l in HBB as ->.
    set (s' := update_with_rest (length A) s) in *.
    assert (Hend' : chain_end 0 (w_requests s') = req_end r') by (by rewrite Hr', chain_end_app).
    split.
    + split; [done|]. split; [by eexists|]. split.
      * rewrite Hr'. apply req_chain_app. rewrite (chain_end_same 0 A A' HAA).
        split; [by apply (chain_same _ _ A)|]. apply chain_single. split; [lia|done].
      * intros _. rewrite Hend', He', Hf'. destruct Hok. unfold req_end in *. lia.
    + unfold phi. case_bool; unfold req_end in *; lia.
  - split.
    + split; [done|]. split; [exists k; by apply (wdone_same s); destruct Hd|].
      exists [], (w_requests s). split_and!; [done..| |].
      * split; [done|]. cbn. split_and!; [done|by left|done].
      * destruct Hwhere; [cbn in *; lia|done].
    + assert (phi (visit 0) (s <| prev_req := None |>) = 8 * left_over 0 s + 4) as -> by done.
      unfold phi. case_bool; lia.
Qed.

Lemma step_append_new s : winv append_new s -> step_ok append_new s (write_step host append_new s).
Proof.
  intros (Hoff & (k & Hd) & Hch & Hend). unfold step_lt. cbn [write_step]. pose proof (wd_left _ _ Hd) as Hleft.
  destruct (Z.ltb_spec 0 (w_size s)) as [Hsz|Hsz].
  2:{ pose proof (zlength_nonneg (w_buf s)). unfold w_size in *.
      replace (zlength buf0) with k by lia. done. }
  specialize (Hend Hsz). pose proof (insert_front_spec s k (w_requests s) [] (fun s => (append_new, s)) Hd Hoff) as Hi.
  rewrite app_nil_r in Hi. specialize (Hi eq_refl Hch Hend Hsz). pose proof (proj1 (wd_sized _ _ Hd)) as Hpos.
  rewrite (wd_cs _ _ Hd) in Hpos.
  destruct (insert_front host _ s _) as [[]|[l' s1]] eqn:E; try done.
  - destruct Hi as (Hd' & Hr' & Hsp). exists k. rewrite Hr'. split_and!; try done; [lia|].
    rewrite <- (app_nil_r (w_requests s)).
    apply (packed_before cs _ _ 0); try done; [|by right]. rewrite <- (wd_offset _ _ Hd). done.
  - destruct Hi as (n & new & s' & [= -> ->] & Hn & Hd' & Hr' & Hnew & Hs' & Hf'). split.
    + split; [done|]. split; [by eexists|]. cbn [layout]. rewrite Hr'. destruct Hnew as [Nok No Nc _ _]. split.
      * apply req_chain_app. split; [done|]. apply chain_single. split; [lia|done].
      * intros _. rewrite chain_end_app, chain_end_single, Hf'. unfold req_end.
        rewrite Nc, zlength_take; [lia|]. unfold w_size in *. lia.
    + unfold phi. lia.
Qed.

(** Facts about the requests before the walk. *)
Lemma at_req_end A B prev off size :
  0 <= off -> at_req A B prev off size -> 0 < size -> chain_end 0 A <= off.
Proof.
  intros Hoff [_ Hp] Hsz. destruct prev as [p|].
  - destruct Hp as (A0 & de & -> & _ & _ & _ & He). rewrite chain_end_app, chain_end_single. by rewrite (proj1 (He Hsz)).
  - destruct Hp as (_ & [->|?] & _); cbn; lia.
Qed.

Lemma wdone_prev s k p m : wdone s k -> wdone (s <| prev_req := p |> <| did_merge := m |>) k.
Proof. intros Hd. by apply (wdone_same s); destruct Hd. Qed.

Lemma step_visit i s : winv (visit i) s -> step_ok (visit i) s (write_step host (visit i) s).
Proof.
  intros (Hoff & (k & Hd) & A & B & Hr & -> & Hat & Hpk). unfold step_lt. cbn [write_step].
  pose proof (wd_left _ _ Hd) as Hleft. pose proof (wd_offset _ _ Hd) as Ho. pose proof (zlength_nonneg (w_buf s)) as Hnn.
  fold (w_size s) in Hnn. pose proof (wd_k _ _ Hd) as Hk.
  assert (Hlo : left_over (length A) s = zlength B + w_size s).
  { unfold left_over. rewrite Hr, zlength_app. unfold zlength. lia. }
  destruct B as [|req B].
  { rewrite app_nil_r in Hr. rewrite Hr, lookup_ge_None_2 by lia.
    destruct (Z.ltb_spec 0 (w_size s)) as [Hsz|Hsz].
    - assert (He := at_req_end A [] (prev_req s) (w_offset s) (w_size s) ltac:(lia) Hat Hsz). split.
      + split; [done|]. split; [by exists k|]. cbn [layout]. rewrite Hr. split_and!; [apply Hat|done|by left].
      + change (zlength []) with 0 in Hlo. unfold phi. rewrite Hlo, Hr.
        replace (chain_end 0 A <=? w_offset s) with true by lia. lia.
    - rewrite Hr. replace (zlength buf0) with k by lia. split; [done|apply Hat]. }
  rewrite Hr, lookup_middle. destruct (Z.ltb_spec (req_end req) (w_offset s)) as [Hskip|Hhere].
  2:{ split.
      - split; [done|]. split; [by exists k|]. exists A, req, B. split_and!; try done. left. by split_and!.
      - unfold phi. destruct (w_requests s !! length A); case_bool; lia. }
  destruct Hat as [HA Hp]. destruct (prev_req s) as [p|] eqn:Hprev.
  - destruct Hp as (A0 & de & -> & -> & HB & Hde & Hfull).
    assert (HB' := HB). cbn [chain] in HB'. destruct HB' as (Hdo & Hrok & HBc).
    apply req_chain_app in HA as HA'. destruct HA' as [HA0 Hdk%chain_single]. destruct Hdk as [HAd Hdok].
    rewrite <- app_assoc in Hr. cbn [app] in Hr.
    replace (length (A0 ++ [de])) with (S (length A0)) in * by (rewrite length_app; cbn; lia).
    pose proof (merge_prev_spec s k A0 de req B Hd Hr Hprev Hdok Hrok Hdo) as Hm.
    destruct (merge_into_prev (S (length A0)) s) as [ret s'] eqn:Em. destruct Hm as (Hres & Hd' & Hs' & Ho' & Hp').
    remember (w_requests s') as l1 eqn:Hl1.
    destruct Hres as [Hle|A' de' sr' B' HAA HBB Hle Hmg Ht|A' de' B' HAA HBB Hle Hmg Hsr].
    + destruct Hrok. unfold req_end in *. lia.
    + destruct Ht as [[? ? ?] Hto Hte _ _]. pose proof (mg_end _ _ _ _ Hmg). unfold req_end in *. lia.
    + assert (Hee : req_end de' = req_end de).
      { pose proof (mg_end _ _ _ _ Hmg). destruct (decide (req_end de < req_end de')) as [Hlt|Hlt]; [|lia].
        pose proof (mg_grown _ _ _ _ Hmg Hlt). lia. }
      pose proof (mg_offset _ _ _ _ Hmg) as Hmo. change (2 =? 2) with true. cbv iota.
      assert (HlA : length A' = length A0) by (symmetry; by eapply Forall2_length). split.
      * split; [done|]. split; [by exists k|]. exists (A' ++ [de']), B'. rewrite <- Hl1.
        split_and!; [by rewrite <- app_assoc|rewrite length_app; cbn; lia| |].
        -- split; [apply req_chain_app; rewrite (chain_end_same 0 A0 A') by done; split;
             [by apply (chain_same _ _ A0)|apply chain_single; split; [lia|apply Hmg]]|].
           rewrite Hp', Hprev. exists A', de'. split_and!; [done|lia| |lia|].
           ++ apply (chain_same _ _ B); [done|]. apply (req_chain_weaken _ (req_end req)); [|done].
              destruct Hrok. unfold req_end. lia.
           ++ rewrite Hs'. intros Hsz. destruct (Hfull Hsz) as [He Hcase]. split; [lia|].
              destruct Hcase as [Hcs|(_ & (? & [? ? ?] & _) & _)]; [left|unfold req_end in *; lia].
              unfold req_end in Hee. lia.
        -- rewrite Ho'. apply (packed_same _ _ _ B); [done|]. by eapply packed_cons.
      * unfold phi, left_over. rewrite <- Hl1, Hr, Hs'. autorewrite with ltfs.
        assert (zlength A' = zlength A0 /\ zlength B' = zlength B) as [-> ->]; [|lia].
        unfold zlength. split; f_equal; [done|]. symmetry. by eapply Forall2_length.
  - rewrite (merge_none_spec _ _ Hprev). change (0 =? 2) with false. cbv iota.
    destruct Hp as (HB & HAoff & Hsz). cbn [chain] in HB. destruct HB as (Hdo & Hrok & HBc). split.
    + split; [done|]. split; [by exists k|]. exists (A ++ [req]), B.
      split_and!; [by rewrite <- app_assoc|rewrite length_app; cbn; lia| |by eapply packed_cons].
      split; [apply req_chain_app; split; [done|apply chain_single; done]|]. rewrite Hprev.
      rewrite chain_end_app, chain_end_single. split_and!; [done|by right|done].
    + unfold phi, left_over. lia.
Qed.

(** A full block, or all that was left, behind [A]. *)
Lemma at_req_fresh A C n bytes off size new :
  chain cs 0 A -> chain_end 0 A <= off -> fresh_request cs bytes off false new -> zlength bytes = n ->
  n = Z.min size cs -> chain cs off C ->
  at_req (A ++ [new]) C (Some (length A)) (off + n) (size - n).
Proof.
  intros HA Hend [Nok No Nc _ _] Hlen Hn HC. split.
  - apply req_chain_app. split; [done|]. apply chain_single. split; [lia|done].
  - exists A, new. unfold req_end. rewrite No, Nc. split_and!; try done; [lia|].
    intros Hsz. split; [lia|]. left. lia.
Qed.

Lemma dib_before A req B s k :
  0 <= off0 -> wdone s k ->
  at_req A (req :: B) (prev_req s) (w_offset s) (w_size s) /\ packed cs (w_offset s) lim (req :: B) /\
    (prev_req s = None -> w_offset s <= req_end req) \/
  in_gap A req B (w_offset s) (w_size s) ->
  0 < w_size s -> w_offset s < req_offset req ->
  chain cs 0 A /\ chain_end 0 A <= w_offset s /\ chain cs (w_offset s) (req :: B) /\
  packed cs (w_offset s) lim (req :: B).
Proof.
  intros Hoff Hd Hor Hsz Hlt. pose proof (wd_offset _ _ Hd) as Ho. pose proof (wd_k _ _ Hd) as Hk.
  pose proof (wd_left _ _ Hd) as Hleft. destruct Hor as [(Hat & Hpk & _)|(_ & Hro & HA & Hend & HB)].
  - pose proof (at_req_end A (req :: B) (prev_req s) (w_offset s) (w_size s) ltac:(lia) Hat Hsz) as Hend.
    destruct Hat as [HA Hp]. split_and!; try done.
    assert (exists lo, chain cs lo (req :: B)) as (lo & _ & Hok & HB).
    { destruct (prev_req s); [destruct Hp as (? & ? & _ & _ & ? & _)|destruct Hp as (? & _)]; by eexists. }
    cbn. split_and!; try done. lia.
  - split_and!; try done. apply (packed_past cs _ _ (req_offset req)); [|lia].
    destruct HB as (_ & ? & ?). cbn. split_and!; done || lia.
Qed.

Lemma step_do_insert_before i s :
  winv (do_insert_before i) s -> step_ok (do_insert_before i) s (write_step host (do_insert_before i) s).
Proof.
  intros (Hoff & (k & Hd) & A & req & B & Hr & -> & Hor). unfold step_lt. cbn [write_step].
  rewrite Hr, lookup_middle. pose proof (wd_left _ _ Hd) as Hleft. pose proof (wd_offset _ _ Hd) as Ho.
  destruct ((0 <? w_size s) && (w_offset s <? req_offset req)) eqn:Hc.
  - assert (Hphi : phi (do_insert_before (length A)) s = 8 * left_over (length A) s + 1)
      by (unfold phi; by rewrite Hr, lookup_middle, Hc).
    bsplit. destruct (dib_before A req B s k Hoff Hd Hor) as (HA & Hend & HB & Hpk); try done.
    pose proof (proj1 (wd_sized _ _ Hd)) as Hpos. rewrite (wd_cs _ _ Hd) in Hpos.
    pose proof (insert_front_spec s k A (req :: B)
      (fun s => (do_insert_before (S (length A)), s <| prev_req := Some (length A) |>)) Hd Hoff Hr HA Hend ltac:(done)) as Hi.
    destruct (insert_front host _ s _) as [[]|[l' s1]]; try done.
    + destruct Hi as (Hd' & Hr' & Hsp). exists k. rewrite Hr', <- Ho. split_and!; try done; [lia| |].
      * apply req_chain_app. split; [done|]. by apply (req_chain_weaken _ (w_offset s)).
      * apply (packed_before cs _ _ 0); try done. by right.
    + destruct Hi as (n & new & s' & [= -> ->] & Hn & Hd' & Hr' & Hnew & Hs' & Hf').
      assert (Hlen : zlength (take (Z.to_nat n) (w_buf s)) = n) by (apply zlength_take; unfold w_size in *; lia).
      split.
      * split; [done|]. split; [eexists; by apply (wdone_same s'); destruct Hd'|].
        exists (A ++ [new]), req, B. split_and!; [by rewrite <- app_assoc|rewrite length_app; cbn; lia|].
        left. cbn [prev_req set_field]. change (w_size (s' <| prev_req := Some (length A) |>)) with (w_size s').
        change (w_offset (s' <| prev_req := Some (length A) |>)) with (w_offset s'). rewrite Hs', Hf'. split_and!; try done.
        -- by eapply at_req_fresh.
        -- eapply packed_later; [|done]. lia.
      * rewrite Hphi. assert (phi (do_insert_before (S (length A))) (s' <| prev_req := Some (length A) |>)
          <= 8 * left_over (S (length A)) s' + 3).
        { unfold phi. change (w_requests (s' <| prev_req := Some (length A) |>)) with (w_requests s').
          change (left_over _ (s' <| prev_req := Some (length A) |>)) with (left_over (S (length A)) s').
          destruct (w_requests s' !! S (length A)); case_bool; lia. }
        unfold left_over in *. rewrite Hr', Hs', Hr in *. autorewrite with ltfs in *. lia.
  - assert (Hphi : phi (do_insert_before (length A)) s = 8 * left_over (length A) s + 3)
      by (unfold phi; by rewrite Hr, lookup_middle, Hc).
    destruct Hor as [(Hat & Hpk & Hnone)|((? & ?) & Hro & _)]; [|lia].
    rewrite Hphi. split; [|unfold phi; lia]. split; [done|]. split; [by exists k|]. exists A, req, B.
    split_and!; try done. intros Hsz. lia.
Qed.

(** The end of an iteration with bytes left, or after a merge. *)
Lemma next_request_spec s k A req B bound :
  0 <= off0 -> wdone s k -> w_requests s = A ++ req :: B ->
  0 < w_size s \/ did_merge s = true ->
  at_req (A ++ [req]) B (Some (length A)) (w_offset s) (w_size s) -> packed cs (w_offset s) lim B ->
  8 * (zlength B + w_size s) + 4 < bound ->
  step_lt bound (next_request (length A) s).
Proof.
  intros Hoff Hd Hr Hgo Hat Hpk Hb. unfold next_request, step_lt.
  change (w_size (s <| prev_req := Some (length A) |>)) with (w_size s).
  change (did_merge (s <| prev_req := Some (length A) |>)) with (did_merge s).
  replace ((w_size s =? 0) && negb (did_merge s)) with false
    by (destruct Hgo as [?| ->]; [|by rewrite andb_false_r]; symmetry; apply andb_false_iff; left; lia).
  split.
  - split; [done|]. split; [exists k; by apply (wdone_same s); destruct Hd|]. exists (A ++ [req]), B.
    split_and!; try done; [by rewrite <- app_assoc|rewrite length_app; cbn; lia].
  - assert (phi (visit (S (length A))) (s <| prev_req := Some (length A) |>) = 8 * left_over (S (length A)) s + 4)
      as -> by done. unfold left_over. rewrite Hr, zlength_app, zlength_cons. unfold zlength at 1. lia.
Qed.

(** The walk meets [req] with bytes left to write at one of its offsets. *)
Record meets s (k : Z) (A : list write_request) (req : write_request) (B : list write_request) : Prop := {
  mt_done : wdone s k;
  mt_reqs : w_requests s = A ++ req :: B;
  mt_before : chain cs 0 A;
  mt_lo : chain_end 0 A <= req_offset req;
  mt_ok : req_ok cs req;
  mt_after : chain cs (req_end req) B;
  mt_size : 0 < w_size s;
  mt_offset : req_offset req <= w_offset s <= req_end req;
  mt_end : w_offset s = req_end req -> is_ip req = true ->
    req_count req = cs \/ match B with r :: _ => is_ip r = true -> w_offset s < req_offset r | [] => True end;
  mt_packed : packed cs (w_offset s) lim B;
  mt_without : w_offset s < req_end req -> w_offset s = req_offset req -> at_req A B (prev_req s) (w_offset s) (w_size s);
}.

Lemma meets_update s k A req B :
  0 <= off0 -> meets s k A req B -> is_ip req = false -> w_offset s < req_offset req + cs -> did_merge s = true ->
  step_lt (8 * (zlength B + 1 + w_size s) + 2) (next_request (length A) (update_with_rest (length A) s)).
Proof.
  intros Hoff [Hd Hr HA Hlo Hok HB Hsz Ho _ Hpk _] Hip Hroom Hm.
  destruct (update_rest_spec s k A req B Hd Hr HA Hlo Hok Hip Ho Hroom Hsz) as
    (n & A' & req' & B' & Hn & Hd' & Hr' & HAA & HBB & Hok' & Ho' & He' & Hs' & Hf' & _ & Hm').
  assert (HlA : length A' = length A) by (symmetry; by eapply Forall2_length). rewrite <- HlA in *.
  assert (zlength B' = zlength B) by (unfold zlength; f_equal; symmetry; by eapply Forall2_length).
  apply (next_request_spec _ (k + n) A' req' B'); try done; [by right; rewrite Hm'| | |lia].
  - rewrite Hs', Hf'. split.
    + apply req_chain_app. rewrite (chain_end_same 0 A A') by done. split; [by apply (chain_same _ _ A)|].
      apply chain_single. split; [lia|done].
    + exists A', req'. split_and!; try done; [| lia|].
      * apply (chain_same _ _ B); [done|]. apply (req_chain_weaken _ (req_end req)); [|done].
        destruct Hok. unfold req_end. lia.
      * intros Hleft. destruct Hok. unfold req_end in *. split; [lia|left; lia].
  - rewrite Hf'. apply (packed_same _ _ _ B); [done|]. eapply packed_later; [|done]. lia.
Qed.

(** A piece of an IP request. *)
Definition piece_of (req r : write_request) : Prop :=
  is_ip r = true /\ req_offset req <= req_offset r /\ req_end r <= req_end req /\
  forall o, covers r o = true -> req_byte r o = req_byte req o.

(** Cutting an IP request loses nothing: the raw file has its bytes. *)
Lemma wdone_cut s k A req l B s' :
  wdone s k -> w_requests s = A ++ req :: B -> chain cs 0 A -> chain cs (req_end req) B -> is_ip req = true ->
  Forall (piece_of req) l -> w_requests s' = A ++ l ++ B ->
  w_buf s' = w_buf s -> w_offset s' = w_offset s -> sized (w_priv s') -> spare_sized (w_priv s') (spare_cache s') ->
  same_file (w_dpr s) (w_dpr s') -> same_sched (w_priv s) (w_priv s') -> file_size (w_dpr s') = file_size (w_dpr s) ->
  wdone s' k.
Proof.
  intros Hd Hr HA HB Hip Hl Hr' Hb Ho Hz Hsp Hf Hs Hfs. pose proof (wd_agree _ _ Hd) as Hag. pose proof (wd_ends _ _ Hd) as He.
  rewrite Hr in Hag, He. apply Forall_app in Hag as [HagA HagB]. apply Forall_cons in HagB as [Hagr HagB].
  destruct (Hagr Hip) as [Her Hby]. autorewrite with ends in He.
  assert (Hcov : forall r o, piece_of req r -> covers r o = true -> covers req o = true)
    by (intros r o (_ & ? & ? & _); unfold covers; lia).
  apply (wdone_same s); try done.
  - intros o. rewrite Hr, Hr'. apply (view_drop_ip cs); try done.
    + intros o' Ho'. eapply Forall_impl; [exact Hl|]. intros r Hp. destruct (covers r o') eqn:E; [|done].
      by rewrite (Hcov r o' Hp E) in Ho'.
    + eapply Forall_impl; [exact Hl|]. by intros r (_ & _ & _ & ?).
  - rewrite Hr'. apply Forall_app. split; [done|]. apply Forall_app. split; [|done].
    eapply Forall_impl; [exact Hl|]. intros r Hp _. split; [destruct Hp as (_ & _ & ? & _); lia|].
    intros o Hc. pose proof Hp as (_ & _ & _ & ->); [|done]. by apply Hby, (Hcov r).
  - rewrite Hr', Hfs. autorewrite with ends.
    assert (last_end l <= Z.max 0 (req_end req)); [|pose proof (last_end_nonneg A); lia].
    clear - Hl. induction Hl as [|r l (_ & _ & ? & _) _ IH]; [cbn; lia|]. rewrite last_end_cons. lia.
Qed.

Lemma piece_front n req : req_ok cs req -> is_ip req = true -> 0 <= n < req_count req -> piece_of req (drop_front n req).
Proof.
  intros Hok Hip Hn. destruct (tail_of_drop cs req n Hok Hn) as [? Hto Hte Hti Htb].
  split_and!; [congruence|lia|lia|done].
Qed.

Lemma piece_back req n : is_ip req = true -> n <= req_count req -> piece_of req (req <| req_count := n |>).
Proof. intros Hip Hn. unfold piece_of, req_end. split_and!; try done; cbn; try lia. Qed.

Lemma req_ok_back req n : req_ok cs req -> 0 < n <= req_count req -> req_ok cs (req <| req_count := n |>).
Proof. intros [? ? ?] Hn. split; cbn; [lia|lia|done]. Qed.

Lemma meets_remove s k A req B :
  0 <= off0 -> meets s k A req B -> is_ip req = true -> w_offset s = req_offset req ->
  w_offset s < req_end req ->
  let '(d1, p1) := _unified_update_queue_membership false false REQUEST_IP
                     ((w_dpr s) <| requests := delete (length A) (w_requests s) |>) (w_priv s) in
  let s1 := s <| w_dpr := d1 |> <| w_priv := p1 |> in
  step_lt (8 * (zlength B + 1 + w_size s) + 2)
    match spare_cache s1 with
    | Some _ => inr (visit (length A), s1 <| w_priv := _unified_free_request req (w_priv s1) |>)
    | None => inr (visit (length A), s1 <| spare_cache := Some (write_cache req) |>)
    end.
Proof.
  intros Hoff [Hd Hr HA Hlo Hok HB Hsz Ho _ Hpk Hw] Hip Heq Hlt.
  destruct (_unified_update_queue_membership _ _ _ _ _) as [d1 p1] eqn:M.
  apply membership_helper in M as ([F1 S1 P1 N1] & R1 & Z1).
  cbn in R1. rewrite Hr, delete_middle in R1. pose proof (wd_cs _ _ Hd) as Hcs. pose proof S1 as (Hc1 & _).
  assert (Hz1 : sized p1) by (apply (sized_same (w_priv s)); [done|done|apply Hd]).
  assert (Hgoal : forall s', w_requests s' = A ++ B -> w_buf s' = w_buf s -> w_offset s' = w_offset s ->
    prev_req s' = prev_req s -> w_dpr s' = d1 -> same_sched (w_priv s) (w_priv s') -> sized (w_priv s') ->
    spare_sized (w_priv s') (spare_cache s') ->
    step_lt (8 * (zlength B + 1 + w_size s) + 2) (inr (visit (length A), s'))).
  { intros s' Hr' Hb' Ho' Hp' Hd' Hs' Hz' Hsp'.
    assert (w_size s' = w_size s) as Hsz' by (unfold w_size; by rewrite Hb'). split.
    - split; [done|]. split.
      + exists k. apply (wdone_cut s k A req [] B); try done; rewrite Hd'; done.
      + exists A, B. rewrite Hp', Ho', Hsz'. split_and!; try done. by apply Hw.
    - unfold phi, left_over. rewrite Hr', Hsz', zlength_app. unfold zlength at 1. lia. }
  cbv zeta. change (spare_cache (s <| w_dpr := d1 |> <| w_priv := p1 |>)) with (spare_cache s).
  pose proof (wd_spare _ _ Hd) as Hsp. destruct (spare_cache s) as [c|] eqn:Ec.
  - destruct (free_request_sized req p1 Hz1) as [Hz2 Hs2]; [by rewrite Hc1, Hcs|].
    apply Hgoal; try done; cbn. rewrite Ec. unfold spare_sized, block_sized in *.
    destruct Hs2 as (-> & _). by rewrite Hc1.
  - apply Hgoal; try done. cbn. unfold block_sized. rewrite Hc1, Hcs. apply Hok.
Qed.

Lemma set_request_reqs (A B : list write_request) r r' s :
  w_requests s = A ++ r :: B -> w_requests (set_request (length A) r' s) = A ++ r' :: B.
Proof. intros Hr. unfold set_request, w_requests in *. cbn. by rewrite Hr, insert_middle. Qed.

Lemma wdone_set_request s k A req r B :
  meets s k A req B -> is_ip req = true -> piece_of req r -> wdone (set_request (length A) r s) k.
Proof.
  intros [Hd Hr HA _ _ HB _ _ _ _ _] Hip Hp. pose proof Hd as [_ _ _ _ _ ? ? _ _ _ _].
  apply (wdone_cut s k A req [r] B); try done; [by constructor|by apply (set_request_reqs A B req)].
Qed.

(** The rest of the write goes into the gap left by a cut. *)
Lemma gap_step s k A req B bound :
  0 <= off0 -> wdone s k -> w_requests s = A ++ req :: B -> in_gap A req B (w_offset s) (w_size s) ->
  8 * (zlength B + 1 + w_size s) + 1 < bound ->
  step_lt bound (inr (do_insert_before (length A), s)).
Proof.
  intros Hoff Hd Hr Hg Hb. split.
  - split; [done|]. split; [by exists k|]. exists A, req, B. split_and!; try done. by right.
  - unfold phi. rewrite Hr, lookup_middle. destruct Hg as (Hsz & Hro & _).
    replace ((0 <? w_size s) && (w_offset s <? req_offset req)) with true by lia.
    unfold left_over. rewrite Hr, zlength_app, zlength_cons. unfold zlength at 1. lia.
Qed.

Lemma meets_split s k A req B :
  0 <= off0 -> meets s k A req B -> is_ip req = true -> req_offset req < w_offset s ->
  w_offset s + w_size s < req_end req ->
  let copy_offset := w_offset s - req_offset req + w_size s in
  step_lt (8 * (zlength B + 1 + w_size s) + 2)
    match _unified_insert_new_request host
            (slice copy_offset (req_count req - copy_offset) (data (write_cache req)))
            (req_offset req + copy_offset) true (S (length A)) s with
    | DoubleFree => inl Undefined
    | Pressure s => inl (Waits s)
    | Inserted _ s1 => inr (do_insert_before (S (length A)),
        set_request (length A) (req <| req_count := w_offset s - req_offset req |>) s1)
    end.
Proof.
  intros Hoff Hm Hip Hgt Hin copy_offset. pose proof Hm as [Hd Hr HA Hlo Hok HB Hsz Ho _ Hpk _].
  pose proof Hd as [_ _ _ _ _ Hz Hsp _ _ _ Hends]. pose proof (wd_cs _ _ Hd) as Hcs.
  pose proof (wd_left _ _ Hd) as Hleft. pose proof (wd_offset _ _ Hd) as Hoffs.
  pose proof Hok as [? Hc Hbl]. unfold LTFS_CRC_SIZE in Hbl.
  set (tail := slice copy_offset (req_count req - copy_offset) (data (write_cache req))).
  assert (Hlen : zlength tail = req_count req - copy_offset)
    by (apply zlength_slice; unfold copy_offset, req_end in *; lia).
  pose proof (insert_request_spec host tail (req_offset req + copy_offset) true (S (length A)) s Hcalloc Hz Hsp) as Hi.
  specialize (Hi ltac:(unfold copy_offset, req_end in *; lia) ltac:(unfold copy_offset; lia)).
  destruct (_unified_insert_new_request host _ _ _ _ _) as [n s'|s'|]; [| |done].
  - destruct Hi as (Hn & new & Hr' & [Nok No Nc Ni Nb] & Hsp' & (Wb & Wo & Wp & Wm) & Hz' & Hs' & Hf' & Hfs').
    assert (n = zlength tail) as -> by (unfold copy_offset, req_end in *; lia).
    assert (Htk : take (Z.to_nat (zlength tail)) tail = tail) by (apply take_ge; unfold zlength; lia).
    rewrite Htk in *. rewrite Hcs in Nok. set (req' := req <| req_count := _ |>).
    rewrite Hr in Hr'. change (req :: B) with ([req] ++ B) in Hr'.
    rewrite app_assoc in Hr'. replace (S (length A)) with (length (A ++ [req])) in Hr' by (rewrite length_app; cbn; lia).
    rewrite insert_at_middle, <- app_assoc in Hr'. cbn [app] in Hr'.
    assert (Hsize : w_size s' = w_size s) by (unfold w_size; by rewrite Wb).
    assert (Hr1 := set_request_reqs A (new :: B) req req' s' Hr').
    assert (Hnend : req_end new = req_end req) by (unfold copy_offset, req_end in *; lia).
    assert (Hpc : piece_of req new).
    { split_and!; [done|unfold copy_offset in *; lia|lia|]. intros o Hcov. rewrite Nb by done. unfold covers in Hcov. bsplit.
      unfold tail, slice. rewrite lookup_take_lt, lookup_drop by (unfold copy_offset, req_end in *; lia).
      unfold req_byte. f_equal. unfold copy_offset, req_end in *. lia. }
    replace (S (length A)) with (length (A ++ [req'])) by (rewrite length_app; cbn; lia).
    assert (Hd1 : wdone (set_request (length A) req' s') k).
    { apply (wdone_cut s k A req [req'; new] B); try done.
      - constructor; [apply piece_back; [done|unfold req_end in *; lia]|by constructor].
      - cbn. by rewrite Hsp'.
      - cbn. rewrite Hfs'. rewrite Hr in Hends. autorewrite with ends in Hends. unfold copy_offset, req_end in *. lia. }
    apply (gap_step _ k (A ++ [req']) new B); try done.
    + by rewrite <- app_assoc.
    + change (w_offset (set_request (length A) req' s')) with (w_offset s').
      change (w_size (set_request (length A) req' s')) with (w_size s'). rewrite Wo, Hsize. split_and!.
      * unfold req_end in *. lia.
      * unfold req_end in *. lia.
      * unfold copy_offset in *. lia.
      * apply req_chain_app. split; [done|]. apply chain_single. split; [done|]. apply req_ok_back; [done|]. unfold req_end in *. lia.
      * rewrite chain_end_app, chain_end_single. unfold req_end, req'. cbn. lia.
      * cbn. rewrite Hnend. split_and!; [unfold copy_offset in *; lia|done..].
    + change (w_size (set_request (length A) req' s')) with (w_size s'). lia.
  - destruct Hi as (Hsp' & Hdp & (Wb & Wo & Wp & Wm) & Hz' & Hs').
    assert (Hr' : w_requests s' = A ++ req :: B) by (unfold w_requests; by rewrite Hdp).
    exists k. rewrite Hr'. split_and!; try done; [|lia|..].
    + apply (wdone_same s); try done; unfold w_requests; rewrite ?Hdp; try (by destruct Hd). by rewrite Hsp'.
    + apply req_chain_app. split; [done|]. cbn. by split_and!.
    + rewrite <- Hoffs. apply (packed_before cs _ _ 0); try done; [lia|left; lia|].
      destruct B as [|b B]; [done|]. split; [|done]. intros. lia.
Qed.

Lemma cut_ip_spec s k A req B :
  0 <= off0 -> meets s k A req B -> is_ip req = true -> w_offset s < req_end req ->
  step_lt (8 * (zlength B + 1 + w_size s) + 2) (cut_ip_request host (length A) req s).
Proof.
  intros Hoff Hm Hip Hlt. pose proof Hm as [Hd Hr HA Hlo Hok HB Hsz Ho _ Hpk _]. pose proof Hok as [? Hc _].
  unfold cut_ip_request. destruct ((w_offset s =? req_offset req) && (req_count req <=? w_size s)) eqn:Hrm.
  { bsplit. pose proof (meets_remove s k A req B Hoff Hm Hip ltac:(done) Hlt) as Hres.
    by destruct (_unified_update_queue_membership _ _ _ _ _). }
  destruct (Z.eqb_spec (w_offset s) (req_offset req)) as [Heq|Hne].
  - assert (w_size s < req_count req) by (apply andb_false_iff in Hrm as [?|?]; bsplit; lia).
    pose proof (piece_front (w_size s) req Hok Hip ltac:(lia)) as Hp.
    apply (gap_step _ k A (drop_front (w_size s) req) B); try done.
    + by eapply wdone_set_request.
    + by apply (set_request_reqs A B req).
    + change (w_offset (set_request _ _ s)) with (w_offset s). change (w_size (set_request _ _ s)) with (w_size s).
      split_and!; try done; [lia|cbn; lia|lia|]. cbn [chain]. rewrite drop_front_end.
      split_and!; [cbn; lia|apply drop_front_ok; [done|lia]|done].
    + change (w_size (set_request _ _ s)) with (w_size s). lia.
  - destruct (Z.leb_spec (req_end req) (w_offset s + w_size s)) as [Hend|Hin].
    + set (req' := req <| req_count := _ |>).
      assert (Hok' : req_ok cs req') by (apply req_ok_back; [done|unfold req_end in *; lia]).
      assert (He' : req_end req' = w_offset s) by (unfold req_end, req'; cbn; lia).
      apply (next_request_spec _ k A req' B); try done.
      * eapply wdone_set_request; [done..|]. apply piece_back; [done|unfold req_end in *; lia].
      * by apply (set_request_reqs A B req).
      * by left.
      * change (w_offset (set_request _ _ s)) with (w_offset s). change (w_size (set_request _ _ s)) with (w_size s). split.
        -- apply req_chain_app. split; [done|]. by apply chain_single.
        -- exists A, req'. assert (Hch : chain cs (w_offset s) B) by (apply (req_chain_weaken _ (req_end req)); [lia|done]).
           split_and!; try done; [apply (req_chain_weaken _ (w_offset s)); [cbn; lia|done]|lia|]. intros _. split; [done|].
           right. rewrite He'. split_and!; try done. destruct B as [|b B]; [done|]. intros _. cbn in HB. lia.
      * change (w_size (set_request _ _ s)) with (w_size s). lia.
    + exact (meets_split s k A req B Hoff Hm Hip ltac:(lia) Hin).
Qed.

Lemma meet_spec s k A req B :
  0 <= off0 -> meets s k A req B ->
  step_lt (8 * (zlength B + 1 + w_size s) + 2) (meet_request host (length A) req s).
Proof.
  intros Hoff Hm. pose proof Hm as [Hd Hr HA Hlo Hok HB Hsz Ho Hme Hpk Hw]. pose proof Hok as [? Hc _].
  pose proof (wd_cs _ _ Hd) as Hcs. unfold meet_request.
  replace (0 <? w_size s) with true by lia. replace (w_offset s <? req_offset req) with false by lia.
  destruct (negb (is_ip req) && _) eqn:Hupd.
  - apply andb_true_iff in Hupd as [Hip Hin].
    assert (w_offset s < req_offset req + cs)
      by (apply orb_true_iff in Hin as [?|?]; bsplit; unfold req_end in *; lia).
    bsplit. change (w_size s) with (w_size (s <| did_merge := true |>)).
    apply (meets_update _ k A req B); try done. split; try done. by apply (wdone_same s); destruct Hd.
  - destruct (is_ip req && (w_offset s <? req_end req)) eqn:Hcut.
    + bsplit. by apply (cut_ip_spec s k).
    + apply (next_request_spec s k A req B); try done; [by left| |lia]. split.
      * apply req_chain_app. split; [done|]. by apply chain_single.
      * assert (w_offset s = req_end req /\ (req_count req = cs \/ is_ip req = true)) as [Heq Hfull].
        { destruct (is_ip req); cbn in Hupd, Hcut; [split; [bsplit; lia|by right]|].
          apply orb_false_iff in Hupd as [? Hx]. bsplit.
          apply andb_false_iff in Hx as [?|?]; bsplit; split; try lia; left; lia. }
        exists A, req. split_and!; try done; [|lia|].
        -- apply (req_chain_weaken _ (req_end req)); [unfold req_end in *; lia|done].
        -- intros _. split; [done|]. destruct Hfull as [?|Hip]; [by left|].
           destruct (Hme Heq Hip) as [?|?]; [by left|]. right. by split_and!.
Qed.

Lemma packed_head_end off req B :
  packed cs off lim (req :: B) -> chain cs (req_end req) B -> off = req_end req -> off < lim -> is_ip req = true ->
  req_count req = cs \/ match B with r :: _ => is_ip r = true -> off < req_offset r | [] => True end.
Proof.
  destruct B as [|b B]; [by right|]. intros [Hp _] (Hlo & _) -> Hlim Hip.
  destruct (decide (req_end req = req_offset b)) as [Heq|Hne]; [|right; lia].
  destruct (is_ip b) eqn:Hb; [left; apply Hp; [done..|lia]|by right].
Qed.

Lemma meet_done s k A req B :
  wdone s k -> w_requests s = A ++ req :: B -> w_size s = 0 -> did_merge s = false ->
  chain cs 0 (A ++ req :: B) -> forall bound, step_lt bound (meet_request host (length A) req s).
Proof.
  intros Hd Hr Hsz Hm Hch bound. unfold meet_request. rewrite Hsz. change (0 <? 0) with false. cbv iota.
  unfold next_request. change (w_size (s <| prev_req := Some (length A) |>)) with (w_size s).
  change (did_merge (s <| prev_req := Some (length A) |>)) with (did_merge s). rewrite Hsz, Hm. cbn.
  pose proof (wd_left _ _ Hd). replace (zlength buf0) with k by lia. split.
  - by apply (wdone_same s); destruct Hd.
  - unfold w_requests in *. cbn. by rewrite Hr.
Qed.

(** Between bytes to write, the request before the walk does not grow. *)
Lemma merge_no_growth de sr de' B off :
  merged cs de sr de' -> req_end de = off ->
  (req_count de = cs \/ is_ip de = true /\ chain cs (req_end de) (sr :: B) /\ (is_ip sr = true -> off < req_offset sr)) ->
  req_offset sr <= off -> req_end de' = off /\ req_count de' = req_count de /\ is_ip de' = is_ip de.
Proof.
  intros [_ Hmo Hmi Hme _ Hmg] He Hcase Ho.
  assert (req_end de' = req_end de).
  { destruct (decide (req_end de < req_end de')) as [Hlt|?]; [|lia]. destruct (Hmg Hlt) as (_ & Hlt' & Hii).
    destruct Hcase as [?|(Hip & _ & Hx)]; [lia|]. rewrite Hip in Hii. specialize (Hx (eq_sym Hii)). lia. }
  split_and!; [lia|unfold req_end in *; lia|done].
Qed.

Lemma step_overlap_none s A req B k :
  0 <= off0 -> wdone s k -> w_requests s = A ++ req :: B -> prev_req s = None ->
  at_req A (req :: B) None (w_offset s) (w_size s) -> packed cs (w_offset s) lim (req :: B) ->
  w_offset s <= req_end req -> (0 < w_size s -> req_offset req <= w_offset s) ->
  step_ok (overlap (length A)) s (write_step host (overlap (length A)) s).
Proof.
  intros Hoff Hd Hr Hprev [HA (HB & HAo & Hsz)] Hpk Hend Hle. cbn [write_step].
  rewrite (merge_none_spec _ _ Hprev). change (0 =? 2) with false. cbv iota.
  change (w_requests (s <| did_merge := negb (0 =? 0) |>)) with (w_requests s). rewrite Hr, lookup_middle.
  destruct HB as (Hlo & Hok & HB). pose proof (wd_left _ _ Hd). pose proof (wd_offset _ _ Hd).
  replace (phi (overlap (length A)) s) with (8 * (zlength B + 1 + w_size s) + 2).
  2:{ unfold phi, left_over. rewrite Hr, zlength_app, zlength_cons. unfold zlength at 2. lia. }
  change (w_size s) with (w_size (s <| did_merge := negb (0 =? 0) |>)). apply (meet_spec _ k); [done|].
  split; try done.
  - by apply (wdone_same s); destruct Hd.
  - split; [by apply Hle|done].
  - intros Heq Hip. apply packed_head_end; try done. cbn in *. lia.
  - by eapply packed_cons.
  - intros Hlt Heq. cbn. rewrite Hprev. split; [done|]. split_and!; try done.
    apply (req_chain_weaken _ (req_end req)); [|done]. destruct Hok. unfold req_end. lia.
Qed.

(** What the walk knows of [prev_req] and the request behind it. *)
Record behind (A0 : list write_request) (de req : write_request) (B : list write_request) (off size : Z) : Prop := {
  bh_before : chain cs 0 A0;
  bh_lo : chain_end 0 A0 <= req_offset de;
  bh_de : req_ok cs de;
  bh_offset : req_offset de <= req_offset req;
  bh_req : req_ok cs req;
  bh_after : chain cs (req_end req) B;
  bh_reach : off <= req_end de;
  bh_left : 0 < size -> req_end de = off /\ req_offset req <= off /\
    (req_count de = cs \/
     is_ip de = true /\ chain cs (req_end de) (req :: B) /\ (is_ip req = true -> off < req_offset req));
}.

(** A chain that ends in [de']. *)
Lemma chain_snoc A A' de de' :
  chain cs 0 A -> same_reqs A A' -> chain_end 0 A <= req_offset de -> req_offset de' = req_offset de -> req_ok cs de' ->
  chain cs 0 (A' ++ [de']).
Proof.
  intros HA HAA Hlo Ho Hok. apply req_chain_app. rewrite (chain_end_same 0 A A') by done.
  split; [by apply (chain_same _ _ A)|]. apply chain_single. split; [lia|done].
Qed.

(** [prev_req] after the request behind it was cut off or is gone. *)
Lemma at_req_behind A0 A' de de' req B B' off size :
  behind A0 de req B off size -> same_reqs A0 A' -> same_reqs B B' -> merged cs de req de' ->
  (0 < size -> req_count de = cs \/ off < req_end req) ->
  at_req (A' ++ [de']) B' (Some (length A')) off size.
Proof.
  intros [HA Hlo Hde Ho Hreq HB Hr Hleft] HAA HBB Hm Hrest. pose proof (mg_offset _ _ _ _ Hm) as Hmo. split.
  - eapply (chain_snoc A0); try done. apply Hm.
  - exists A', de'. pose proof (mg_end _ _ _ _ Hm).
    split_and!; try done; [|lia|].
    + apply (chain_same _ _ B); [done|]. apply (req_chain_weaken _ (req_end req)); [|done].
      destruct Hreq. unfold req_end. lia.
    + intros Hsz. destruct (Hleft Hsz) as (He & Hro & Hcase).
      destruct (merge_no_growth de req de' B off Hm He Hcase Hro) as (He' & Hc' & Hi').
      split; [done|]. destruct Hcase as [?|(Hip & Hch & _)]; [left; lia|].
      destruct (Hrest Hsz) as [?|Hpast]; [left; lia|]. right.
      assert (HB' : chain cs (req_end req) B') by (by apply (chain_same _ _ B)).
      split_and!; [congruence|apply (req_chain_weaken _ (req_end req)); [lia|done]|].
      destruct B' as [|b B']; [done|]. destruct HB' as (? & _). lia.
Qed.

Lemma overlap_nothing s k A0 de req B :
  0 <= off0 -> wdone s k -> w_requests s = A0 ++ de :: req :: B -> prev_req s = Some (length A0) -> did_merge s = false ->
  behind A0 de req B (w_offset s) (w_size s) -> packed cs (w_offset s) lim B -> req_end de <= req_offset req ->
  step_lt (8 * (zlength B + 1 + w_size s) + 2) (meet_request host (S (length A0)) req s).
Proof.
  intros Hoff Hd Hr Hprev Hm Hb Hpk Hgap. pose proof Hb as [HA Hlo Hde Ho Hreq HB Hreach Hleft].
  replace (S (length A0)) with (length (A0 ++ [de])) by (rewrite length_app; cbn; lia).
  change (de :: req :: B) with ([de] ++ req :: B) in Hr. rewrite app_assoc in Hr.
  assert (HAd : chain cs 0 (A0 ++ [de])) by (by eapply (chain_snoc A0)).
  assert (He : chain_end 0 (A0 ++ [de]) = req_end de) by (by rewrite chain_end_app).
  destruct (decide (0 < w_size s)) as [Hsz|Hsz].
  - destruct (Hleft Hsz) as (Hde' & Hro & Hcase). apply (meet_spec s k); [done|].
    assert (w_offset s < req_end req) by (destruct Hreq; unfold req_end in *; lia).
    split; try done; [lia|lia|intros; lia|]. intros _ _. rewrite Hprev.
    eapply (at_req_behind A0 A0); try done; [by apply merged_refl|by right].
  - eapply (meet_done s k (A0 ++ [de])); try done; [pose proof (zlength_nonneg (w_buf s)); unfold w_size in *; lia|].
    apply req_chain_app. split; [done|]. rewrite He. cbn. by split_and!.
Qed.

Lemma overlap_shortened s k A0 A' de de' req sr' B B' :
  0 <= off0 -> wdone s k -> w_requests s = A' ++ de' :: sr' :: B' -> prev_req s = Some (length A0) -> did_merge s = true ->
  behind A0 de req B (w_offset s) (w_size s) -> packed cs (w_offset s) lim B ->
  same_reqs A0 A' -> same_reqs B B' -> merged cs de req de' -> tail_of cs req sr' (req_end de') ->
  step_lt (8 * (zlength B + 1 + w_size s) + 2) (meet_request host (S (length A')) sr' s).
Proof.
  intros Hoff Hd Hr Hprev Hdm Hb Hpk HAA HBB Hm Ht. pose proof Hb as [HA Hlo Hde Ho Hreq HB Hreach Hleft].
  pose proof (mg_end _ _ _ _ Hm) as Hme. pose proof Ht as [Tok To Te Ti _].
  assert (HlA : length A' = length A0) by (symmetry; by eapply Forall2_length).
  assert (HlB : zlength B' = zlength B) by (unfold zlength; f_equal; symmetry; by eapply Forall2_length).
  replace (S (length A')) with (length (A' ++ [de'])) by (rewrite length_app; cbn; lia).
  change (de' :: sr' :: B') with ([de'] ++ sr' :: B') in Hr. rewrite app_assoc in Hr.
  assert (HAd : chain cs 0 (A' ++ [de'])) by (eapply (chain_snoc A0); try done; apply Hm).
  assert (He : chain_end 0 (A' ++ [de']) = req_end de') by (by rewrite chain_end_app).
  assert (HB' : chain cs (req_end sr') B') by (rewrite Te; by apply (chain_same _ _ B)).
  assert (Hpk' : packed cs (w_offset s) lim B') by (by apply (packed_same _ _ _ B)).
  destruct (decide (0 < w_size s)) as [Hsz|Hsz].
  - destruct (Hleft Hsz) as (Hde' & Hro & Hcase).
    destruct (merge_no_growth de req de' B _ Hm Hde' Hcase Hro) as (He' & _). rewrite <- HlB.
    apply (meet_spec s k); [done|]. assert (w_offset s < req_end sr') by (destruct Tok; unfold req_end in *; lia).
    split; try done; [lia|lia|intros; lia|]. intros _ _. rewrite Hprev, <- HlA.
    eapply (at_req_behind A0 A'); try done. right. lia.
  - unfold meet_request. replace (0 <? w_size s) with false by lia.
    assert (Hz : w_size s = 0) by (pose proof (zlength_nonneg (w_buf s)); unfold w_size in *; lia).
    apply (next_request_spec s k (A' ++ [de']) sr' B'); try done; [by right| |lia]. split.
    + apply req_chain_app. split; [done|]. apply chain_single. split; [lia|done].
    + exists (A' ++ [de']), sr'. split_and!; try done; [|destruct Tok; unfold req_end in *; lia].
      apply (req_chain_weaken _ (req_end sr')); [destruct Tok; unfold req_end; lia|done].
Qed.

Lemma step_overlap_some s A0 de req B k :
  0 <= off0 -> wdone s k -> w_requests s = A0 ++ de :: req :: B -> prev_req s = Some (length A0) ->
  behind A0 de req B (w_offset s) (w_size s) -> packed cs (w_offset s) lim B ->
  step_ok (overlap (S (length A0))) s (write_step host (overlap (S (length A0))) s).
Proof.
  intros Hoff Hd Hr Hprev Hb Hpk. pose proof Hb as [HA Hlo Hde Ho Hreq HB Hreach Hleft]. cbn [write_step].
  replace (phi (overlap (S (length A0))) s) with (8 * (zlength B + 1 + w_size s) + 2).
  2:{ unfold phi, left_over. rewrite Hr, zlength_app, !zlength_cons. unfold zlength at 2. lia. }
  pose proof (merge_prev_spec s k A0 de req B Hd Hr Hprev Hde Hreq Ho) as Hm.
  destruct (merge_into_prev (S (length A0)) s) as [ret s1]. destruct Hm as (Hres & Hd1 & Hs1 & Ho1 & Hp1).
  set (s2 := s1 <| did_merge := negb (ret =? 0) |>).
  assert (Hd2 : wdone s2 k) by (by apply (wdone_same s1); destruct Hd1).
  change (w_requests s2) with (w_requests s1). remember (w_requests s1) as l1 eqn:Hl1.
  assert (Hw2 : w_size s2 = w_size s) by exact Hs1. assert (Ho2 : w_offset s2 = w_offset s) by exact Ho1.
  assert (Hb2 : behind A0 de req B (w_offset s2) (w_size s2)) by (by rewrite Ho2, Hw2).
  assert (Hpk2 : packed cs (w_offset s2) lim B) by (by rewrite Ho2).
  assert (Hp2 : prev_req s2 = Some (length A0)) by exact (eq_trans Hp1 Hprev).
  assert (Hidx : forall (A : list write_request) x y C, (A ++ x :: y :: C) !! S (length A) = Some y).
  { intros A x y C. change (x :: y :: C) with ([x] ++ y :: C). rewrite app_assoc.
    apply list_lookup_middle. rewrite length_app. cbn. lia. }
  rewrite <- Hw2. destruct Hres as [Hgap|A' de' sr' B' HAA HBB Hle Hm Ht|A' de' B' HAA HBB Hle Hm Hsr].
  - change (0 =? 2) with false. cbv iota. rewrite Hidx. by apply (overlap_nothing s2 k A0 de).
  - change (1 =? 2) with false. cbv iota. assert (length A' = length A0) as <- by (symmetry; by eapply Forall2_length).
    rewrite Hidx. apply (overlap_shortened s2 k A0 A' de de' req sr' B B'); try done.
  - change (2 =? 2) with true. cbv iota.
    assert (HlA : length A' = length A0) by (symmetry; by eapply Forall2_length).
    assert (HlB : zlength B' = zlength B) by (unfold zlength; f_equal; symmetry; by eapply Forall2_length). split.
    + split; [done|]. split; [by exists k|]. exists (A' ++ [de']), B'. rewrite Hp2, <- HlA.
      split_and!; [by rewrite <- app_assoc|rewrite length_app; cbn; lia| |by apply (packed_same _ _ _ B)].
      eapply (at_req_behind A0 A'); try done. intros Hsz. destruct Hb2 as [_ _ _ _ [? ? ?] _ _ Hl2].
      destruct (Hl2 Hsz) as (He2 & Hro2 & Hc2).
      destruct (merge_no_growth de req de' B _ Hm He2 Hc2 Hro2) as (He' & _).
      destruct Hc2 as [?|(_ & (? & _) & _)]; [by left|]. unfold req_end in *. lia.
    + unfold phi, left_over. change (w_requests s2) with (w_requests s1). rewrite <- Hl1. autorewrite with ltfs.
      rewrite <- HlA, HlB. unfold zlength at 1. lia.
Qed.

Lemma step_overlap i s : winv (overlap i) s -> step_ok (overlap i) s (write_step host (overlap i) s).
Proof.
  intros (Hoff & (k & Hd) & A & req & B & Hr & -> & Hat & Hpk & Hnone & Hle).
  destruct (prev_req s) as [p|] eqn:Hprev.
  - destruct Hat as [HA (A0 & de & -> & -> & HB & Hde & Hleft)].
    apply req_chain_app in HA as [HA0 [Hlo Hok]%chain_single]. destruct HB as (Ho & Hreq & HB).
    replace (length (A0 ++ [de])) with (S (length A0)) by (rewrite length_app; cbn; lia).
    apply (step_overlap_some s A0 de req B k); try done; [by rewrite <- app_assoc in Hr| |by eapply packed_cons].
    split; try done. intros Hsz. destruct (Hleft Hsz) as [He Hc]. split_and!; [done|by apply Hle|]. done.
  - apply (step_overlap_none s A req B k); try done. by apply Hnone.
Qed.

Lemma write_step_ok l s : winv l s -> step_ok l s (write_step host l s).
Proof.
  destruct l; [apply step_do_append|apply step_append_new|apply step_visit|apply step_do_insert_before|apply step_overlap].
Qed.

Lemma phi_nonneg l s : winv l s -> 0 <= phi l s.
Proof.
  intros (_ & _ & Hl). pose proof (zlength_nonneg (w_requests s)). pose proof (zlength_nonneg (w_buf s)).
  unfold phi, left_over, w_size in *. destruct l as [| |i|i|i]; cbn [layout] in Hl.
  - case_bool; lia.
  - lia.
  - destruct Hl as (A & B & Hr & -> & _). rewrite Hr, zlength_app. pose proof (zlength_nonneg B). unfold zlength in *. lia.
  - destruct Hl as (A & req & B & Hr & -> & _). rewrite Hr, zlength_app. pose proof (zlength_nonneg (req :: B)).
    destruct ((A ++ req :: B) !! length A); case_bool; unfold zlength in *; lia.
  - destruct Hl as (A & req & B & Hr & -> & _). rewrite Hr, zlength_app. pose proof (zlength_nonneg (req :: B)).
    unfold zlength in *. lia.
Qed.

Lemma write_run_ok : forall fuel l s, winv l s -> phi l s < Z.of_nat fuel -> step_lt 0 (inl (write_run host fuel l s)).
Proof.
  induction fuel as [|fuel IH]; intros l s Hw Hphi; [pose proof (phi_nonneg _ _ Hw); lia|].
  cbn [write_run]. pose proof (write_step_ok l s Hw) as Hs.
  destruct (write_step host l s) as [r|[l' s']]; [exact Hs|]. destruct Hs as [Hw' Hlt]. apply IH; [done|lia].
Qed.
End write.
