(* ===== verification/UnifiedProps.v ===== *)
(** * The unified scheduler: calls and the background writer

    The content of a file is the raw file seen through the requests in flight
    and then through the requests in its list.  [sched_ok] is the invariant of
    the scheduler between two calls.  The theorems say what each call does to
    the content of every file. *)

From S2P Require Import Prelude Bytes LtfsError Extents CacheManager Unified UnifiedReqs UnifiedWrite.

(** ** What the raw file operations promise

    [raw_byte v d] is the content of the file [d], zero from its end on. *)

Class RawLaws (V : Type) `{RawVolume V} := {
  raw_byte : V -> nat -> Z -> option Z;
  raw_size_nonneg v d : 0 <= d_size v d;
  raw_past_end v d o : d_size v d <= o -> raw_byte v d o = Some 0;
  raw_dentry d v v' d' :
    v' = ltfs_fsraw_get_dentry d v \/ v' = ltfs_fsraw_put_dentry d v \/ v' = ltfs_fsraw_close d v \/ v' = d_touch d v ->
    d_size v' d' = d_size v d' /\ forall o, raw_byte v' d' o = raw_byte v d' o;
  raw_read d n off v r out v' :
    0 < n -> 0 <= off -> ltfs_fsraw_read d n off v = (r, out, v') ->
    (forall d', d_size v' d' = d_size v d' /\ forall o, raw_byte v' d' o = raw_byte v d' o) /\
    (0 <= r -> r = zlength out /\ r = Z.max 0 (Z.min n (d_size v d - off)) /\ bytes_are (raw_byte v d) off out);
  raw_write d buf off v r v' :
    0 < zlength buf -> 0 <= off -> ltfs_fsraw_write d buf off v = (r, v') ->
    (forall d', (r < 0 \/ d' <> d) -> d_size v' d' = d_size v d' /\ forall o, raw_byte v' d' o = raw_byte v d' o) /\
    (0 <= r -> d_size v' d = Z.max (d_size v d) (off + zlength buf) /\
               forall o, raw_byte v' d o = patched (raw_byte v d) buf off o);
  raw_truncate d len v r v' :
    0 <= len -> ltfs_fsraw_truncate d len v = (r, v') ->
    (forall d', (r < 0 \/ d' <> d) -> d_size v' d' = d_size v d' /\ forall o, raw_byte v' d' o = raw_byte v d' o) /\
    (0 <= r -> d_size v' d = len /\
               forall o, raw_byte v' d o = if o <? len then raw_byte v d o else Some 0);
}.

Section props.
Context {V : Type} `{RawLaws V}.
Context (host : host_oracle).
Implicit Types (priv : unified_data V) (dpr : dentry_priv).

(** ** The invariant *)

Definition files_same (v v' : V) : Prop :=
  forall d, d_size v' d = d_size v d /\ forall o, raw_byte v' d o = raw_byte v d o.

(** The requests of [d] that the writer has taken and not yet written. *)
Definition inflight_reqs (f : inflight) (d : nat) : list write_request :=
  match f with
  | Sending d' l => if bool_decide (d' = d) then l else []
  | _ => []
  end.

Definition under (f : inflight) (v : V) (d : nat) : Z -> option Z := view (raw_byte v d) (inflight_reqs f d).
Definition under_size (f : inflight) (v : V) (d : nat) : Z := Z.max (d_size v d) (last_end (inflight_reqs f d)).

Record file_ok (cs : Z) (f : inflight) (v : V) dpr : Prop := {
  fo_chain : chain cs 0 (requests dpr);
  fo_agree : ip_agree (under f v (dentry dpr)) (under_size f v (dentry dpr)) (requests dpr);
  fo_size : Z.max (under_size f v (dentry dpr)) (last_end (requests dpr)) = file_size dpr;
}.

(** The file of the requests in flight is known to the scheduler. *)
Definition busy_ok (f : inflight) (m : gmap nat dentry_priv) : Prop :=
  match f with Idle => True | Sending d l => l <> [] /\ is_Some (m !! d) | Failed _ _ _ _ => False end.

Lemma busy_insert f m d dpr : busy_ok f m -> busy_ok f (<[d := dpr]> m).
Proof.
  destruct f as [|d1 l|]; try done. intros [? ?]. split; [done|].
  destruct (decide (d1 = d)) as [->|Hne]; [rewrite lookup_insert_eq; by eexists|by rewrite lookup_insert_ne].
Qed.

Record sched_ok (f : inflight) priv : Prop := {
  so_sized : sized priv;
  so_flight d : chain (cache_size priv) 0 (inflight_reqs f d);
  so_busy : busy_ok f (iosched_priv priv);
  so_files d dpr : iosched_priv priv !! d = Some dpr -> dentry dpr = d /\ file_ok (cache_size priv) f (vol priv) dpr;
}.

Definition requests_of priv (d : nat) : list write_request :=
  match iosched_priv priv !! d with Some dpr => requests dpr | None => [] end.

(** What a reader of [d] sees, and how long the file is. *)
Definition content (f : inflight) priv (d : nat) : Z -> option Z :=
  view (under f (vol priv) d) (requests_of priv d).

Definition length_of (f : inflight) priv (d : nat) : Z :=
  match iosched_priv priv !! d with Some dpr => file_size dpr | None => under_size f (vol priv) d end.

Lemma files_same_refl v : files_same v v.
Proof. done. Qed.

Lemma files_same_trans v1 v2 v3 : files_same v1 v2 -> files_same v2 v3 -> files_same v1 v3.
Proof. intros H1 H2 d. destruct (H1 d) as [? H1'], (H2 d) as [? H2']. split; [congruence|]. intros o. by rewrite H2'. Qed.

Lemma view_raw_ext raw raw' l : (forall o, raw o = raw' o) -> forall o, view raw l o = view raw' l o.
Proof. intros E o. by apply view_ext. Qed.

Lemma under_same f v v' d o : files_same v v' -> under f v' d o = under f v d o.
Proof. intros Hs. apply view_ext, Hs. Qed.

Lemma under_size_same f v v' d : files_same v v' -> under_size f v' d = under_size f v d.
Proof. intros Hs. unfold under_size. by rewrite (proj1 (Hs d)). Qed.

Lemma ip_agree_ext raw raw' n l : (forall o, raw' o = raw o) -> ip_agree raw n l -> ip_agree raw' n l.
Proof.
  intros E Hl. eapply Forall_impl; [exact Hl|]. intros r Hr Hip. destruct (Hr Hip) as [He Hby].
  split; [done|]. intros o Ho. rewrite E. by apply Hby.
Qed.

Lemma file_ok_same cs f v v' dpr : files_same v v' -> file_ok cs f v dpr -> file_ok cs f v' dpr.
Proof.
  intros Hs [Hc Ha Hz]. split; [done|..]; rewrite (under_size_same f v v') by done; [|done].
  eapply ip_agree_ext; [|done]. intros o. by apply under_same.
Qed.

Lemma chain_last_end cs lo l : 0 <= lo -> chain cs lo l -> l <> [] -> last_end l = chain_end lo l.
Proof.
  revert lo. induction l as [|r l IH]; intros lo Hlo; [done|]. intros (Hr & [? ? ?] & Hc) _. rewrite last_end_cons. cbn.
  destruct l as [|x l]; [cbn; unfold req_end; lia|].
  rewrite (IH (req_end r)); [|unfold req_end; lia|done|done]. apply chain_end_ge in Hc. lia.
Qed.

(** ** A file's data is found or set up *)

Lemma no_flight f priv d : sched_ok f priv -> iosched_priv priv !! d = None -> inflight_reqs f d = [].
Proof.
  intros Hok Hd. pose proof (so_busy _ _ Hok) as Hb. destruct f as [|d' l|]; [done| |done]. cbn.
  case_bool_decide; [subst; destruct Hb as [_ [? ?]]; congruence|done].
Qed.

Lemma under_idle f v d :
  inflight_reqs f d = [] -> under_size f v d = d_size v d /\ forall o, under f v d o = raw_byte v d o.
Proof.
  intros Hnf. unfold under_size, under. rewrite Hnf. cbn. pose proof (raw_size_nonneg v d). split; [lia|done].
Qed.

(** Nothing a reader could see has changed. *)
Definition same_contents (f f' : inflight) priv priv' : Prop :=
  forall d, length_of f' priv' d = length_of f priv d /\ forall o, content f' priv' d o = content f priv d o.

Lemma same_contents_trans f1 f2 f3 p1 p2 p3 :
  same_contents f1 f2 p1 p2 -> same_contents f2 f3 p2 p3 -> same_contents f1 f3 p1 p3.
Proof.
  intros H1 H2 d. destruct (H1 d) as [? H1'], (H2 d) as [? H2']. split; [congruence|]. intros o. by rewrite H2'.
Qed.

(** Changes to the volume that keep the files, and to parts of the scheduler
    that no reader sees. *)
Lemma sched_ok_frame f priv priv' :
  sched_ok f priv -> cache_size priv' = cache_size priv -> iosched_priv priv' = iosched_priv priv ->
  files_same (vol priv) (vol priv') -> sized priv' -> sched_ok f priv' /\ same_contents f f priv priv'.
Proof.
  intros [Hz Hfl Hb Hf] Hcs Hp Hv Hz'. split.
  - split; rewrite ?Hp, ?Hcs; try done. intros d dpr Hd. destruct (Hf d dpr Hd) as [Hdd Hfo].
    split; [done|]. by apply (file_ok_same _ _ (vol priv)).
  - intros d. unfold length_of, content, requests_of. rewrite Hp. split.
    + destruct (iosched_priv priv !! d); [done|]. by apply under_size_same.
    + intros o. apply view_ext. by apply under_same.
Qed.

(** Writing back the data of one file. *)
Lemma sched_ok_put f priv d dpr dpr' :
  sched_ok f priv -> iosched_priv priv !! d = Some dpr -> dentry dpr' = d ->
  file_ok (cache_size priv) f (vol priv) dpr' -> sched_ok f (put_dpr dpr' priv) /\
  (forall d', d' <> d -> length_of f (put_dpr dpr' priv) d' = length_of f priv d' /\
                         forall o, content f (put_dpr dpr' priv) d' o = content f priv d' o) /\
  length_of f (put_dpr dpr' priv) d = file_size dpr' /\
  (forall o, content f (put_dpr dpr' priv) d o = view (under f (vol priv) d) (requests dpr') o).
Proof.
  intros [Hz Hfl Hb Hf] Hd Hdd Hok. unfold length_of, content, requests_of, put_dpr. cbn. rewrite Hdd. split_and!.
  - split; try done; cbn.
    + by apply busy_insert.
    + intros d1 dpr1. destruct (decide (d1 = d)) as [->|Hne].
      * rewrite lookup_insert_eq. intros [= <-]. done.
      * rewrite lookup_insert_ne by done. apply Hf.
  - intros d' Hne. by rewrite lookup_insert_ne by done.
  - by rewrite lookup_insert_eq.
  - by rewrite lookup_insert_eq.
Qed.

Lemma get_dentry_priv_spec f d priv r priv' :
  sched_ok f priv -> _unified_get_dentry_priv host d priv = (r, priv') ->
  sched_ok f priv' /\ same_contents f f priv priv' /\ cache_size priv' = cache_size priv /\
  (forall d', requests_of priv' d' = requests_of priv d') /\
  match r with
  | inl code => code < 0
  | inr dpr => iosched_priv priv' !! d = Some dpr
  end.
Proof.
  intros Hok. unfold _unified_get_dentry_priv. destruct (iosched_priv priv !! d) as [dpr|] eqn:Hd.
  { intros [= <- <-]. by split_and!. }
  destruct (Z.ltb_spec (dpr_code host (now priv)) 0) as [Hlt|Hge]; intros [= <- <-].
  { split_and!; try done; destruct Hok; by split. }
  pose proof (no_flight _ _ _ Hok Hd) as Hnf. destruct Hok as [Hz Hfl Hb Hf]. set (dpr := mk_dpr _ _ _ _ _ _ _ _ _).
  assert (Hv : files_same (vol priv) (ltfs_fsraw_get_dentry d (vol priv))) by (intros d'; apply (raw_dentry d); eauto).
  assert (Hus : under_size f (vol priv) d = d_size (vol priv) d).
  { unfold under_size. rewrite Hnf. cbn. pose proof (raw_size_nonneg (vol priv) d). lia. }
  split_and!; try done; cbn.
  - split; try done; cbn.
    + by apply busy_insert.
    + intros d1 dpr1. destruct (decide (d1 = d)) as [->|Hne].
      * rewrite lookup_insert_eq. intros [= <-]. split; [done|]. apply (file_ok_same _ _ (vol priv)); [done|].
        split; cbn; [done|by constructor|]. rewrite Hus. pose proof (raw_size_nonneg (vol priv) d). lia.
      * rewrite lookup_insert_ne by done. intros Hd1. destruct (Hf d1 dpr1 Hd1). split; [done|].
        by apply (file_ok_same _ _ (vol priv)).
  - intros d1. unfold length_of, content, requests_of. cbn. destruct (decide (d1 = d)) as [->|Hne].
    + rewrite lookup_insert_eq, Hd. cbn. split; [done|]. intros o. by apply under_same.
    + rewrite lookup_insert_ne by done. split.
      * destruct (iosched_priv priv !! d1); [done|]. by apply under_size_same.
      * intros o. apply view_ext. by apply under_same.
  - intros d1. unfold requests_of. cbn. destruct (decide (d1 = d)) as [->|Hne];
      [by rewrite lookup_insert_eq, Hd|by rewrite lookup_insert_ne].
  - by rewrite lookup_insert_eq.
Qed.

(** ** Leaving the index partition *)

(** Dropping the IP requests changes nothing: the raw file has their bytes. *)
Lemma drop_ip_spec cs raw n : forall l lo priv l' priv',
  0 <= lo -> chain cs lo l -> ip_agree raw n l -> sized priv -> cache_size priv = cs ->
  drop_requests is_ip l priv = (l', priv') ->
  chain cs lo l' /\ ip_agree raw n l' /\ (forall o, view raw l' o = view raw l o) /\
  Z.max n (last_end l') = Z.max n (last_end l) /\ Forall (fun r => is_ip r = false) l' /\
  sized priv' /\ same_sched priv priv'.
Proof.
  induction l as [|r l IH]; intros lo priv l' priv' Hlo Hch Hag Hz Hcs; cbn [drop_requests].
  { intros [= <- <-]. by split_and!. }
  destruct Hch as (Hr & Hok & Hch). apply Forall_cons in Hag as [Har Hag]. pose proof Hok as [? ? ?].
  destruct (is_ip r) eqn:Hip.
  - destruct (free_request_sized r priv Hz) as [Hz1 Hs1]; [by rewrite Hcs|].
    intros Hd. eapply (IH (req_end r)) in Hd as (Hch' & Hag' & Hv & Hle & Hno & Hz' & Hs'); try done;
      try (unfold req_end; lia).
    destruct (Har eq_refl) as [He Hby]. split_and!; try done.
    + apply (req_chain_weaken _ (req_end r)); [unfold req_end; lia|done].
    + intros o. cbn [view]. rewrite Hv. destruct (covers r o) eqn:Hc; [|done]. rewrite <- Hby by done.
      apply (view_chain_before cs _ (req_end r)); [done|]. unfold covers in Hc. lia.
    + rewrite Hle, last_end_cons. lia.
  - destruct (drop_requests is_ip l priv) as [l1 p1] eqn:Hd. intros [= <- <-].
    eapply (IH (req_end r)) in Hd as (Hch' & Hag' & Hv & Hle & Hno & Hz' & Hs'); try done; try (unfold req_end; lia).
    split_and!; try done.
    + constructor; [congruence|done].
    + intros o. cbn. by rewrite Hv.
    + rewrite !last_end_cons. lia.
    + by constructor.
Qed.

(** What a call may change of the scheduler apart from the files. *)
Definition quiet priv priv' : Prop :=
  cache_size priv' = cache_size priv /\ iosched_priv priv' = iosched_priv priv /\ vol priv' = vol priv.

Lemma quiet_trans p1 p2 p3 : quiet p1 p2 -> quiet p2 p3 -> quiet p1 p3.
Proof. unfold quiet. intuition congruence. Qed.

Lemma same_sched_quiet p1 p2 : same_sched p1 p2 -> quiet p1 p2.
Proof. by intros (? & _ & ? & ? & _). Qed.

Lemma clear_alt_false dpr priv dpr' priv' :
  _unified_clear_alt_extentlist false dpr priv = (dpr', priv') ->
  dentry dpr' = dentry dpr /\ requests dpr' = requests dpr /\ file_size dpr' = file_size dpr /\
  quiet priv priv' /\ cpool priv' = cpool priv.
Proof. unfold _unified_clear_alt_extentlist. destruct (alt_extentlist dpr); by intros [= <- <-]. Qed.

Lemma unset_write_ip_spec f v dpr priv dpr' priv' :
  sized priv -> file_ok (cache_size priv) f v dpr -> _unified_unset_write_ip dpr priv = (dpr', priv') ->
  dentry dpr' = dentry dpr /\ file_size dpr' = file_size dpr /\ file_ok (cache_size priv) f v dpr' /\
  (forall o, view (under f v (dentry dpr)) (requests dpr') o = view (under f v (dentry dpr)) (requests dpr) o) /\
  (requests dpr' = requests dpr \/ Forall (fun r => is_ip r = false) (requests dpr')) /\
  quiet priv priv' /\ sized priv'.
Proof.
  intros Hz [Hch Hag Hsz]. unfold _unified_unset_write_ip. set (d0 := dpr <| write_ip := false |>).
  destruct (if negb (in_ip_queue d0 =? 0) then _ else (d0, priv)) as [d1 p1] eqn:H1.
  assert (Hd1 : dentry d1 = dentry dpr /\ file_size d1 = file_size dpr /\ file_ok (cache_size priv) f v d1 /\
    (forall o, view (under f v (dentry dpr)) (requests d1) o = view (under f v (dentry dpr)) (requests dpr) o) /\
    (requests d1 = requests dpr \/ Forall (fun r => is_ip r = false) (requests d1)) /\ quiet priv p1 /\ sized p1).
  { destruct (negb (in_ip_queue d0 =? 0)) in H1.
    - destruct (drop_requests is_ip (requests d0) priv) as [l p] eqn:Hd.
      eapply drop_ip_spec in Hd as (Hch' & Hag' & Hv & Hle & Hno & Hz' & Hs'); try done.
      apply membership_helper in H1 as ([(F1 & _) S1 P1 _] & R1 & Z1). cbn in F1, R1, Z1.
      split_and!; try done.
      + split; rewrite ?F1, R1, ?Z1; try done. by rewrite Hle.
      + intros o. rewrite R1. apply Hv.
      + right. by rewrite R1.
      + eapply quiet_trans; by apply same_sched_quiet.
      + apply (sized_same p); [apply S1|done..].
    - injection H1 as <- <-. split_and!; try done. by left. }
  destruct Hd1 as (Hde & Hfs & Hfo & Hv & Hip & Hq & Hz1).
  set (p2 := if negb (in_dp_queue d1 =? 0) then _ else p1).
  assert (Hp2 : quiet p1 p2 /\ cpool p2 = cpool p1) by (unfold p2; by case_bool). clearbody p2.
  intros (Ed & Er & Ez & Eq & Ep)%clear_alt_false. destruct Hfo as [F1 F2 F3]. split_and!; try congruence.
  - split; by rewrite ?Ed, ?Er, ?Ez.
  - eapply quiet_trans; [done|]. by eapply quiet_trans; [apply Hp2|].
  - destruct Hp2 as [(Hc2 & _) Hpl]. apply (sized_same p1); [destruct Eq as (-> & _); done|congruence|done].
Qed.

(** ** Writing *)

(** A write about to enter the body, or to enter it again after a wait. *)
Record pending_ok priv (p : pending_write) : Prop := {
  pk_offset : 0 <= p_offset p;
  pk_buf : 0 < zlength (p_buf p);
  pk_spare : spare_sized priv (p_spare p);
  pk_packed : packed (cache_size priv) (p_offset p) (p_offset p + zlength (p_buf p)) (requests_of priv (p_dentry p));
}.

(** The first [k] bytes of [buf] have been written to [d] at [off], and nothing
    else has changed. *)
Definition wrote_bytes (f : inflight) priv priv' (d : nat) (buf : list Z) (off k : Z) : Prop :=
  (forall d', d' <> d -> length_of f priv' d' = length_of f priv d' /\ forall o, content f priv' d' o = content f priv d' o) /\
  length_of f priv' d = (if k =? 0 then length_of f priv d else Z.max (length_of f priv d) (off + k)) /\
  forall o, content f priv' d o = patched (content f priv d) (take (Z.to_nat k) buf) off o.

Lemma packed_no_ip cs off lim l : Forall (fun r => is_ip r = false) l -> packed cs off lim l.
Proof.
  induction 1 as [|x l Hx Hl IH]; [done|]. destruct Hl as [|y l Hy Hl]; [done|]. split; [congruence|done].
Qed.

Lemma update_placement_spec f off size dpr priv dpr' priv' lim :
  sized priv -> file_ok (cache_size priv) f (vol priv) dpr -> packed (cache_size priv) off lim (requests dpr) ->
  update_placement off size dpr priv = (dpr', priv') ->
  dentry dpr' = dentry dpr /\ file_size dpr' = file_size dpr /\ file_ok (cache_size priv) f (vol priv) dpr' /\
  (forall o, view (under f (vol priv) (dentry dpr)) (requests dpr') o = view (under f (vol priv) (dentry dpr)) (requests dpr) o) /\
  packed (cache_size priv) off lim (requests dpr') /\ quiet priv priv' /\ sized priv'.
Proof.
  intros Hz Hf Hp. unfold update_placement. destruct (write_ip dpr && _); [|by intros [= <- <-]].
  intros (? & ? & ? & ? & Hip & ? & ?)%(unset_write_ip_spec f (vol priv)); [|done..]. split_and!; try done.
  destruct Hip as [->|Hip]; [done|by apply packed_no_ip].
Qed.

(** The state of the walk becomes the state of the scheduler. *)
Lemma store_walk f priv d dpr dpr1 priv1 s buf off k :
  sched_ok f priv -> iosched_priv priv !! d = Some dpr -> dentry dpr1 = d -> file_size dpr1 = file_size dpr ->
  (forall o, view (under f (vol priv) d) (requests dpr1) o = view (under f (vol priv) d) (requests dpr) o) ->
  quiet priv priv1 -> wdone dpr1 priv1 buf off (under f (vol priv) d) (under_size f (vol priv) d) s k ->
  chain (cache_size priv1) 0 (w_requests s) ->
  let priv2 := put_dpr (w_dpr s) (w_priv s) in
  sched_ok f priv2 /\ cache_size priv2 = cache_size priv /\ wrote_bytes f priv priv2 d buf off k.
Proof.
  intros Hok Hd Hdd Hfs Hv (Qc & Qi & Qv) [_ _ _ Wv Wa Wz _ (Wd & _) (Sc & _ & Sv & Si & _) Wf We] Hch priv2.
  assert (Ec : cache_size (w_priv s) = cache_size priv) by congruence.
  assert (Ei : iosched_priv (w_priv s) = iosched_priv priv) by congruence.
  assert (Ev : vol (w_priv s) = vol priv) by congruence.
  assert (Hok1 : sched_ok f (w_priv s) /\ same_contents f f priv (w_priv s))
    by (apply sched_ok_frame; try done; by rewrite Ev).
  destruct Hok1 as [Hok1 Hsame]. assert (Hde : dentry (w_dpr s) = d) by congruence.
  destruct (sched_ok_put f (w_priv s) d dpr (w_dpr s)) as (Hok2 & Hoth & Hlen & Hcon); [done|by rewrite Ei|done| |].
  { split; rewrite ?Ec, ?Ev, ?Hde; try done. by rewrite <- Qc. }
  split_and!; [done|done|]. split_and!.
  - intros d' Hne. destruct (Hoth d' Hne) as [Hl Hc], (Hsame d') as [Hl' Hc']. exact (conj (eq_trans Hl Hl') (fun o => eq_trans (Hc o) (Hc' o))).
  - unfold priv2. rewrite Hlen, Wf. unfold length_of. rewrite Hd. by rewrite Hfs.
  - intros o. unfold priv2. rewrite Hcon, Ev. unfold w_requests in Wv. rewrite Wv. apply patched_ext. rewrite Hv.
    unfold content, requests_of. by rewrite Hd.
Qed.

Lemma wrote_frame f priv priv1 priv2 d buf off k :
  wrote_bytes f priv priv1 d buf off k -> same_contents f f priv1 priv2 -> wrote_bytes f priv priv2 d buf off k.
Proof.
  intros (Ho & Hl & Hc) Hs. split_and!.
  - intros d' Hne. destruct (Ho d' Hne) as [? Hc1], (Hs d') as [? Hc2]. split; [congruence|]. intros o. by rewrite Hc2.
  - destruct (Hs d) as [-> _]. done.
  - intros o. destruct (Hs d) as [_ ->]. apply Hc.
Qed.

Lemma wrote_frame_l f priv priv1 priv2 d buf off k :
  same_contents f f priv priv1 -> wrote_bytes f priv1 priv2 d buf off k -> wrote_bytes f priv priv2 d buf off k.
Proof.
  intros Hs (Ho & Hl & Hc). split_and!.
  - intros d' Hne. destruct (Ho d' Hne) as [? Hc1], (Hs d') as [? Hc2]. split; [congruence|]. intros o. by rewrite Hc1.
  - rewrite Hl. by destruct (Hs d) as [-> _].
  - intros o. rewrite Hc. apply patched_ext. by destruct (Hs d) as [_ ->].
Qed.

Lemma touch_same d v : files_same v (d_touch d v).
Proof. intros d'. apply (raw_dentry d). eauto. Qed.

Lemma write_out_spec f p s :
  sched_ok f (put_dpr (w_dpr s) (w_priv s)) -> spare_sized (w_priv s) (spare_cache s) ->
  exists priv', write_out p s = WReturned (original_size p) priv' /\ sched_ok f priv' /\
    cache_size priv' = cache_size (w_priv s) /\ same_contents f f (put_dpr (w_dpr s) (w_priv s)) priv'.
Proof.
  intros Hok Hsp. unfold write_out. set (p0 := put_dpr (w_dpr s) (w_priv s)).
  set (p1 := if _ && _ then _ else p0).
  assert (H1 : sched_ok f p1 /\ same_contents f f p0 p1 /\ cache_size p1 = cache_size p0).
  { unfold p1. destruct (_ && _); [|by split_and!].
    destruct (sched_ok_frame f p0 (p0 <| vol := d_touch (p_dentry p) (vol p0) |>)); try done; [apply touch_same|apply Hok]. }
  destruct H1 as (Hok1 & Hs1 & Hc1). destruct (spare_cache s) as [c|]; [|by eexists].
  destruct (cache_free_sized c 0 p1) as [Hz2 Hs2]; [apply Hok1|unfold block_sized; rewrite Hc1; exact Hsp| |].
  { pose proof (proj1 (so_sized _ _ Hok1)). lia. }
  pose proof Hs2 as (Hc2 & _ & Hv2 & Hi2 & _).
  destruct (sched_ok_frame f p1 (_unified_cache_free c 0 p1)) as [Hok2 Hsame2]; try done.
  eexists. split_and!; try done.
Qed.

(** How a write, or the rest of one, may end. *)
Definition write_ends (f : inflight) priv (d : nat) (buf : list Z) (off original : Z) (r : write_result V) : Prop :=
  match r with
  | WReturned r priv' => sched_ok f priv' /\ cache_size priv' = cache_size priv /\
      (r < 0 /\ same_contents f f priv priv' \/
       r = original /\ wrote_bytes f priv priv' d buf off (zlength buf))
  | WWaits p priv' => sched_ok f priv' /\ cache_size priv' = cache_size priv /\ pending_ok priv' p /\
      exists k, 0 <= k < zlength buf /\ wrote_bytes f priv priv' d buf off k /\
        p_dentry p = d /\ p_buf p = drop (Z.to_nat k) buf /\ p_offset p = off + k /\ original_size p = original
  | WUndefined => False
  end.

Lemma write_ends_frame_l f priv p1 d buf off original r :
  same_contents f f priv p1 -> cache_size p1 = cache_size priv ->
  write_ends f p1 d buf off original r -> write_ends f priv d buf off original r.
Proof.
  intros Hs Hc. destruct r as [r p2|q p2|]; [| |done]; cbn.
  - intros (? & ? & Hor). split_and!; [done|congruence|].
    destruct Hor as [[? ?]|[? ?]]; [left|right]; (split; [done|]); [by apply (same_contents_trans f f f priv p1)|by apply (wrote_frame_l f priv p1)].
  - intros (? & ? & ? & k & ? & ? & ?). split_and!; [done|congruence|done|]. exists k. split; [done|].
    split; [by apply (wrote_frame_l f priv p1)|done].
Qed.

Lemma write_body_spec f p priv dpr :
  (forall t, calloc_ok host t = true) -> sched_ok f priv -> pending_ok priv p ->
  iosched_priv priv !! p_dentry p = Some dpr ->
  write_ends f priv (p_dentry p) (p_buf p) (p_offset p) (original_size p)
    (let dpr := dpr <| write_error := 0 |> in
     let '(dpr, priv) := update_placement (p_offset p) (zlength (p_buf p)) dpr priv in
     let s := mk_wstate dpr priv (p_buf p) (p_offset p) (p_spare p) None false in
     match write_run host (write_fuel (requests dpr) (w_size s)) do_append s with
     | GotoOut s => write_out p s
     | Waits s =>
         WWaits (mk_pending (p_dentry p) (w_buf s) (w_offset s) None true (original_size p) (isupdatetime p))
                (put_dpr (w_dpr s) (w_priv s))
     | _ => WUndefined
     end).
Proof.
  intros Hcal Hok [Po Pb Ps Pp] Hd. unfold requests_of in Pp. rewrite Hd in Pp. cbv zeta.
  destruct (so_files _ _ Hok _ _ Hd) as [Hdd Hfo]. pose proof (so_sized _ _ Hok) as Hz.
  set (d0 := dpr <| write_error := 0 |>).
  assert (Hfo0 : file_ok (cache_size priv) f (vol priv) d0) by (destruct Hfo; by split).
  destruct (update_placement _ _ d0 priv) as [d1 p1] eqn:Hpl.
  eapply update_placement_spec in Hpl as (E1 & E2 & [Fc Fa Fs] & Ev & Ep & Eq & Ez); [|done..].
  pose proof Eq as (Qc & Qi & Qv). assert (Hd1 : dentry d1 = p_dentry p) by (rewrite E1; exact Hdd).
  assert (Hd0 : dentry d0 = p_dentry p) by exact Hdd. rewrite Hd0 in Ev. rewrite Hd1 in Fa, Fs.
  set (s := mk_wstate d1 p1 (p_buf p) (p_offset p) (p_spare p) None false).
  set (raw := under f (vol priv) (p_dentry p)) in *. set (rawsz := under_size f (vol priv) (p_dentry p)) in *.
  assert (Hdone : wdone d1 p1 (p_buf p) (p_offset p) raw rawsz s 0).
  { split; cbn; try done; [lia|by rewrite Z.add_0_r|intros o; by rewrite patched_nil|].
    unfold spare_sized, block_sized in *. by rewrite Qc. }
  assert (Hinv : winv d1 p1 (p_buf p) (p_offset p) raw rawsz do_append s).
  { split; [done|]. split; [by exists 0|]. cbn. rewrite Qc. split_and!; [done|exact Pb|by right]. }
  pose proof (zlength_nonneg (requests d1)) as Hrl.
  pose proof (write_run_ok host Hcal d1 p1 (p_buf p) (p_offset p) raw rawsz
    (write_fuel (requests d1) (w_size s)) do_append s Hinv) as Hrun.
  specialize (Hrun ltac:(unfold phi, write_fuel, left_over, w_requests, w_size, zlength in *; cbn [w_dpr w_buf s] in *; case_bool; lia)).
  destruct (write_run host _ do_append s) as [s'|s'| |]; try done.
  - destruct Hrun as [Hd' Hch'].
    destruct (store_walk f priv (p_dentry p) dpr d1 p1 s' (p_buf p) (p_offset p) (zlength (p_buf p))) as (Hok2 & Hc2 & Hw2);
      try done.
    destruct (write_out_spec f p s') as (priv' & -> & Hok3 & Hc3 & Hs3); [done|apply Hd'|].
    cbn. split_and!; [done|cbn in Hc2; congruence|]. right. split; [done|]. by eapply wrote_frame.
  - destruct Hrun as (k & Hd' & Hk & Hch' & Hpk' & Hsp').
    destruct (store_walk f priv (p_dentry p) dpr d1 p1 s' (p_buf p) (p_offset p) k) as (Hok2 & Hc2 & Hw2); try done.
    cbn. split_and!; try done.
    + pose proof (wd_left _ _ _ _ _ _ _ _ Hd') as Hleft. unfold w_size in Hleft.
      destruct Hd' as [Wk Wb Wo _ _ _ _ (Wd & _) _ _ _]. split; cbn; try done; [lia|lia|].
      unfold requests_of, put_dpr. cbn. rewrite Wd, Hd1, lookup_insert_eq, Hleft, Wo.
      replace (p_offset p + k + (zlength (p_buf p) - k)) with (p_offset p + zlength (p_buf p)) by lia.
      cbn in Hc2. rewrite Hc2, <- Qc. exact Hpk'.
    + exists k. pose proof Hd' as [Wk Wb Wo _ _ _ _ _ _ _ _]. split_and!; try done; lia.
Qed.

Lemma write_start_spec f p priv :
  (forall t, calloc_ok host t = true) -> sched_ok f priv -> pending_ok priv p ->
  write_ends f priv (p_dentry p) (p_buf p) (p_offset p) (original_size p) (write_start host p priv).
Proof.
  intros Hcal Hok Hp. unfold write_start.
  destruct (_unified_get_dentry_priv host (p_dentry p) priv) as [[code|dpr] p1] eqn:Hg;
    apply (get_dentry_priv_spec f) in Hg as (Hok1 & Hs1 & Hc1 & Hreq & Hr); try done.
  - assert (Hfree : forall c, p_spare p = Some c ->
      sched_ok f (_unified_cache_free c 0 p1) /\ same_contents f f p1 (_unified_cache_free c 0 p1)).
    { intros c Hc. destruct Hp as [_ _ Ps _]. rewrite Hc in Ps. pose proof (so_sized _ _ Hok1) as Hz1.
      destruct (cache_free_sized c 0 p1) as [Hz2 Hs2]; [done|unfold block_sized; by rewrite Hc1|destruct Hz1; lia|].
      pose proof Hs2 as (Hc2 & _ & Hv2 & Hi2 & _). by apply sched_ok_frame; rewrite ?Hv2. }
    cbn. destruct (p_spare p) as [c|]; [destruct (Hfree c eq_refl)|]; split_and!; try done; left; split; done.
  - cbn [_unified_get_write_error].
    assert (Hput : sched_ok f (put_dpr (dpr <| write_error := 0 |>) p1) /\
                   same_contents f f priv (put_dpr (dpr <| write_error := 0 |>) p1)).
    { destruct (so_files _ _ Hok1 _ _ Hr) as [Hdd [F1 F2 F3]].
      destruct (sched_ok_put f p1 (p_dentry p) dpr (dpr <| write_error := 0 |>)) as (Ha & Hb & Hl & Hv); try done.
      split; [done|]. eapply same_contents_trans; [done|]. intros d'. destruct (decide (d' = p_dentry p)) as [->|Hne]; [|by apply Hb].
      unfold length_of at 2, content at 2, requests_of. rewrite Hr. by split. }
    destruct Hput as [Hok2 Hs2].
    assert (Hpend : pending_ok p1 p).
    { destruct Hp as [Po Pb Ps Pp]. unfold spare_sized, block_sized in *. split; [done|done|unfold spare_sized, block_sized; by rewrite Hc1|].
      by rewrite Hc1, Hreq. }
    destruct (_ <? 0) eqn:He1; [bsplit; cbn; split_and!; try done; by left|].
    destruct (_ <? 0) eqn:He2 in |- *; [bsplit; cbn; split_and!; try done; by left|].
    apply (write_ends_frame_l f priv p1); [done..|]. exact (write_body_spec f p p1 dpr Hcal Hok1 Hpend Hr).
Qed.
End props.
