(* ===== verification/UnifiedRead.v ===== *)
(** * The unified scheduler: a read returns the content of the file

    The walk over the requests cuts the read into parts that are cached and
    parts that the raw file has to supply. *)

From S2P Require Import Prelude Bytes LtfsError Extents CacheManager Unified UnifiedReqs UnifiedWrite UnifiedProps.

(** Parts that begin at [off] and agree with [g]; what has to be read is the
    same in [raw]. *)
Fixpoint parts_ok (raw g : Z -> option Z) (off : Z) (ps : list read_part) : Prop :=
  match ps with
  | [] => True
  | Cached b :: ps' => bytes_are g off b /\ parts_ok raw g (off + zlength b) ps'
  | Queued o n :: ps' =>
      o = off /\ 0 < n /\ (forall x, off <= x < off + n -> g x = raw x) /\ parts_ok raw g (off + n) ps'
  end.

Fixpoint parts_len (ps : list read_part) : Z :=
  match ps with
  | [] => 0
  | Cached b :: ps' => zlength b + parts_len ps'
  | Queued _ n :: ps' => n + parts_len ps'
  end.

Lemma parts_ok_ext raw g g' off ps :
  (forall x, off <= x -> g' x = g x) -> parts_ok raw g off ps -> parts_ok raw g' off ps.
Proof.
  revert off. induction ps as [|[b|o n] ps IH]; intros off E; cbn; [done|..].
  - intros [Hb Hp]. pose proof (zlength_nonneg b). split; [|apply IH; [|done]; intros; apply E; lia].
    intros i Hi. rewrite E by lia. by apply Hb.
  - intros (-> & Hn & Hx & Hp). split_and!; try done; [|apply IH; [|done]; intros; apply E; lia].
    intros x Hx'. rewrite E by lia. by apply Hx.
Qed.

Section walk.
Context (host : host_oracle) (Hcalloc : forall t, calloc_ok host t = true).
Context (cs : Z) (raw : Z -> option Z).

Lemma slice_view r l off n :
  req_ok cs r -> req_offset r <= off -> 0 <= n -> off + n <= req_end r ->
  bytes_are (view raw (r :: l)) off (slice (off - req_offset r) n (data (write_cache r))) /\
  zlength (slice (off - req_offset r) n (data (write_cache r))) = n.
Proof.
  intros [Ho Hc Hb] Hoff Hn Hend. unfold LTFS_CRC_SIZE, req_end in *. split; [|apply zlength_slice; lia].
  rewrite <- (app_nil_r (data _)). apply bytes_are_slice; [lia..|]. intros i Hi. cbn [view].
  replace (covers r (off + i)) with true by (unfold covers, req_end; lia). unfold req_byte. f_equal. lia.
Qed.

Lemma read_walk_spec : forall l lo t off size,
  0 <= lo -> chain cs lo l -> 0 <= off -> 0 < size ->
  exists ps off' size', read_walk host t off size l = Some (ps, off', size') /\
    parts_ok raw (view raw l) off ps /\ parts_len ps = size - size' /\ off' = off + (size - size') /\
    (size' = 0 /\ off' <= last_end l \/ 0 < size' /\ off' = Z.max off (last_end l)).
Proof.
  induction l as [|r l IH]; intros lo t off size Hlo Hch Hoff Hsz.
  { exists [], off, size. cbn. split_and!; try done; [lia..|]. right. lia. }
  destruct Hch as (Hr & Hok & Hch). pose proof Hok as [? Hcnt _]. cbn [read_walk]. rewrite Hcalloc, andb_false_r.
  pose proof (last_end_nonneg l) as Hln. assert (Hre : req_offset r < req_end r) by (unfold req_end; lia).
  destruct (Z.ltb_spec off (req_offset r)) as [Hgap|Hgap]; cbn [andb].
  - set (n := Z.min (req_offset r - off) size).
    assert (Hq : forall ps, parts_ok raw (view raw (r :: l)) (off + n) ps ->
      parts_ok raw (view raw (r :: l)) off (Queued off n :: ps)).
    { intros ps Hps. cbn [parts_ok]. split_and!; try done; [lia|]. intros x Hx. cbn [view].
      replace (covers r x) with false by (unfold covers; lia). apply (view_chain_before cs _ (req_end r)); [done|].
      unfold req_end. lia. }
    destruct (Z.eqb_spec (size - n) 0) as [Hz|Hz].
    { exists [Queued off n], (off + n), (size - n). split_and!; [done|by apply Hq|cbn [parts_len app]; lia|lia|].
      left. split; [done|]. rewrite last_end_cons. unfold req_end. lia. }
    assert (Hn : off + n = req_offset r) by lia. rewrite Hn.
    replace (req_offset r <? req_end r) with true by (unfold req_end; lia).
    set (m := Z.min (req_end r - req_offset r) (size - n)).
    destruct (slice_view r l (req_offset r) m) as [Hby Hlen]; [done|lia|unfold req_end in *; lia|lia|].
    set (c := slice (req_offset r - req_offset r) m (data (write_cache r))) in *.
    destruct (Z.eqb_spec (size - n - m) 0) as [Hz2|Hz2].
    { exists ([Queued off n] ++ [Cached c]), (req_offset r + m), 0. split_and!; [done| |cbn [parts_len app]; lia|lia|].
      - apply Hq. rewrite Hn. cbn. by split.
      - left. split; [done|]. rewrite last_end_cons. lia. }
    assert (Hm : req_offset r + m = req_end r) by lia. rewrite Hm.
    destruct (IH (req_end r) (S t) (req_end r) (size - n - m)) as (ps & o & sz & -> & Hps & Hpl & -> & Hend);
      [unfold req_end; lia|done|unfold req_end; lia|unfold req_end in *; lia|].
    eexists _, _, sz. split; [done|]. split_and!; [|cbn [parts_len app]; lia|lia|].
    + apply Hq. rewrite Hn. cbn [parts_ok app]. split; [done|]. rewrite Hlen, Hm.
      eapply parts_ok_ext; [|done]. intros x Hx. cbn [view]. by replace (covers r x) with false by (unfold covers; lia).
    + rewrite last_end_cons. destruct Hend as [[? ?]|[? ?]]; [left|right]; split; lia.
  - rewrite Z.add_0_r, Z.sub_0_r. cbn [app].
    destruct (Z.ltb_spec off (req_end r)) as [Hin|Hpast].
    + set (m := Z.min (req_end r - off) size).
      destruct (slice_view r l off m) as [Hby Hlen]; [done|lia..|].
      set (c := slice (off - req_offset r) m (data (write_cache r))) in *.
      destruct (Z.eqb_spec (size - m) 0) as [Hz2|Hz2].
      { exists [Cached c], (off + m), 0. split_and!; [done|by cbn|cbn [parts_len app]; lia|lia|].
        left. split; [done|]. rewrite last_end_cons. lia. }
      assert (Hm : off + m = req_end r) by lia. rewrite Hm.
      destruct (IH (req_end r) t (req_end r) (size - m)) as (ps & o & sz & -> & Hps & Hpl & -> & Hend);
        [unfold req_end; lia|done|unfold req_end; lia|lia|].
      eexists _, _, sz. split; [done|]. split_and!; [|cbn [parts_len app]; lia|lia|].
      * cbn [parts_ok]. split; [done|]. rewrite Hlen, Hm. eapply parts_ok_ext; [|done]. intros x Hx. cbn [view].
        by replace (covers r x) with false by (unfold covers; lia).
      * rewrite last_end_cons. destruct Hend as [[? ?]|[? ?]]; [left|right]; split; lia.
    + destruct (IH (req_end r) t off size) as (ps & o & sz & -> & Hps & Hpl & -> & Hend);
        [unfold req_end; lia|done|done|done|].
      eexists _, _, sz. split; [done|]. split_and!; [|done|done|].
      * eapply parts_ok_ext; [|done]. intros x Hx. cbn [view]. by replace (covers r x) with false by (unfold covers; lia).
      * rewrite last_end_cons. destruct Hend as [[? ?]|[? ?]]; [left|right]; split; lia.
Qed.
End walk.

Section read.
Context {V : Type} `{RawLaws V}.
Context (host : host_oracle).
Implicit Types priv : unified_data V.

Lemma parts_ok_raw raw raw' g off ps :
  (forall x, raw' x = raw x) -> parts_ok raw g off ps -> parts_ok raw' g off ps.
Proof.
  intros E. revert off. induction ps as [|[b|o n] ps IH]; intros off; cbn; [done|intros []; auto|].
  intros (? & ? & Hx & ?). split_and!; auto. intros x Hx'. rewrite E. by apply Hx.
Qed.

Lemma read_issue_spec d g : forall ps off past v res v',
  parts_ok (raw_byte v d) g off ps -> 0 <= off -> (past = true -> d_size v d <= off) ->
  read_issue d past ps v = (res, v') ->
  files_same v v' /\ match res with inr out => bytes_are g off out /\ zlength out = parts_len ps | inl r => r < 0 end.
Proof.
  induction ps as [|[b|o n] ps IH]; intros off past v res v' Hp Hoff Hpast; cbn [read_issue parts_len].
  - intros [= <- <-]. split_and!; try done. apply bytes_are_nil.
  - destruct Hp as [Hb Hp]. pose proof (zlength_nonneg b).
    destruct (read_issue d past ps v) as [r1 v1] eqn:Hi.
    eapply IH in Hi as [Hs Hr]; [|done|lia|intros ?; specialize (Hpast ltac:(done)); lia].
    destruct r1 as [r1|out]; intros [= <- <-]; [done|]. destruct Hr as [Hby Hl]. split_and!; [done| |].
    + by apply bytes_are_app.
    + rewrite zlength_app. lia.
  - destruct Hp as (-> & Hn & Hx & Hp).
    destruct (if past then (0, [], v) else ltfs_fsraw_read d n off v) as [[nread got] v1] eqn:Hrd.
    assert (H1 : files_same v v1 /\ (0 <= nread -> zlength got = nread /\
      nread = (if past then 0 else Z.max 0 (Z.min n (d_size v d - off))) /\ bytes_are (raw_byte v d) off got)).
    { destruct past.
      - injection Hrd as <- <- <-. split; [done|]. intros _. split_and!; try done. apply bytes_are_nil.
      - apply raw_read in Hrd as [Hs Hr]; [|done..]. split; [done|]. intros Hge. destruct (Hr Hge) as (-> & ? & ?). done. }
    destruct H1 as [Hs1 H1]. destruct (Z.ltb_spec nread 0) as [Hneg|Hge]; [intros [= <- <-]; done|].
    destruct (H1 Hge) as (Hgl & Hnr & Hgot).
    destruct (read_issue d (past || (nread <? n)) ps v1) as [r1 v2] eqn:Hi.
    eapply (IH (off + n)) in Hi as [Hs Hr]; [|eapply parts_ok_raw; [|exact Hp]; intros x; apply Hs1|lia|].
    2:{ rewrite (proj1 (Hs1 d)). destruct past; [intros _; specialize (Hpast eq_refl); lia|]. cbn. intros ?. bsplit. lia. }
    assert (Hs2 : files_same v v2) by (by eapply files_same_trans).
    destruct r1 as [r1|out]; intros [= <- <-]; [done|]. destruct Hr as [Hby Hl]. split; [done|].
    assert (Hnn : nread <= n) by (destruct past; lia).
    assert (Hlen : zlength (got ++ zeros (n - nread)) = n) by (rewrite zlength_app, zlength_zeros; lia).
    rewrite app_assoc. split; [|rewrite zlength_app, Hlen; lia]. apply bytes_are_app; [|by rewrite Hlen].
    apply bytes_are_app.
    + intros i Hi. rewrite Hx by (unfold zlength in *; lia). by apply Hgot.
    + rewrite Hgl. apply bytes_are_zeros. intros x Hx'. rewrite Hx by lia. apply raw_past_end.
      destruct past; [specialize (Hpast eq_refl); lia|lia].
Qed.

(** What a read of [n] bytes at [off] has to deliver. *)
Definition read_ok (f : inflight) (d : nat) (n off : Z) priv (r : Z) (out : list Z) priv' : Prop :=
  sched_ok f priv' /\ same_contents f f priv priv' /\
  (0 <= r -> r = zlength out /\ r = Z.max 0 (Z.min n (length_of f priv d - off)) /\
             bytes_are (content f priv d) off out).

Lemma vol_frame f priv v t :
  sched_ok f priv -> files_same (vol priv) v ->
  sched_ok f (priv <| now := t |> <| vol := v |>) /\ same_contents f f priv (priv <| now := t |> <| vol := v |>).
Proof. intros Hok Hv. by apply sched_ok_frame; try done; apply Hok. Qed.

Lemma raw_read_ok f d n off priv r out v :
  sched_ok f priv -> inflight_reqs f d = [] -> requests_of priv d = [] -> 0 < n -> 0 <= off ->
  ltfs_fsraw_read d n off (vol priv) = (r, out, v) -> read_ok f d n off priv r out (priv <| vol := v |>).
Proof.
  intros Hok Hnf Hreq Hn Hoff Hrd. apply raw_read in Hrd as [Hs Hr]; [|done..].
  destruct (under_idle f (vol priv) d Hnf) as [Hsz Hraw].
  assert (Hlen : length_of f priv d = d_size (vol priv) d).
  { unfold length_of, requests_of in *. destruct (iosched_priv priv !! d) as [dpr|] eqn:Hd; [|done].
    destruct (so_files _ _ Hok _ _ Hd) as [Hdd [_ _ Hfs]]. rewrite Hdd, Hreq, Hsz in Hfs. rewrite <- Hfs. cbn. pose proof (raw_size_nonneg (vol priv) d). lia. }
  destruct (vol_frame f priv v (now priv) Hok Hs) as [H1 H2]. split_and!; [exact H1|exact H2|].
  intros Hge. destruct (Hr Hge) as (-> & -> & Hby). rewrite Hlen. split_and!; try done.
  intros i Hi. rewrite Hby by done. unfold content. rewrite Hreq. by rewrite <- Hraw.
Qed.

Lemma cached_read_ok f d n off priv dpr r out priv' :
  (forall t, calloc_ok host t = true) ->
  sched_ok f priv -> inflight_reqs f d = [] -> iosched_priv priv !! d = Some dpr -> 0 < n -> 0 <= off ->
  match read_walk host (now priv) off n (requests dpr) with
  | None => (- LTFS_NO_MEMORY, [], tick priv)
  | Some (ps, offset, size) =>
      match read_issue d false ps (vol priv) with
      | (inl r, v) => (r, [], (tick priv) <| vol := v |>)
      | (inr out, v) =>
          let priv := (tick priv) <| vol := v |> in
          if 0 <? size then
            let '(nread, got, v) := ltfs_fsraw_read d size offset v in
            if nread <? 0 then (nread, out, priv <| vol := v |>)
            else (zlength out + nread, out ++ got, priv <| vol := v |>)
          else (zlength out, out, priv)
      end
  end = (r, out, priv') -> read_ok f d n off priv r out priv'.
Proof.
  intros Hcal Hok Hnf Hd Hn Hoff. destruct (so_files _ _ Hok _ _ Hd) as [Hdd [Hch _ Hfs]].
  destruct (under_idle f (vol priv) d Hnf) as [Hsz Hraw]. rewrite Hdd, Hsz in Hfs.
  assert (Hcon : forall x, content f priv d x = view (raw_byte (vol priv) d) (requests dpr) x).
  { intros x. unfold content, requests_of. rewrite Hd. apply view_ext, Hraw. }
  assert (Hlen : length_of f priv d = file_size dpr) by (unfold length_of; by rewrite Hd).
  destruct (read_walk_spec host Hcal (cache_size priv) (raw_byte (vol priv) d) (requests dpr) 0 (now priv) off n) as
    (ps & off' & size' & -> & Hps & Hpl & Hoff' & Hend); [lia|done..|].
  destruct (read_issue d false ps (vol priv)) as [res v1] eqn:Hi.
  eapply read_issue_spec in Hi as [Hs1 Hres]; [|exact Hps|done|done].
  pose proof (raw_size_nonneg (vol priv) d) as Hnn. pose proof (last_end_nonneg (requests dpr)) as Hln.
  destruct res as [e|out1].
  { intros [= <- <- <-]. destruct (vol_frame f priv v1 (S (now priv)) Hok Hs1). split_and!; try done. lia. }
  destruct Hres as [Hby Hl1]. destruct (Z.ltb_spec 0 size') as [Hpos|Hzero].
  - destruct Hend as [[? ?]|[_ Hend]]; [lia|].
    destruct (ltfs_fsraw_read d size' off' v1) as [[nread got] v2] eqn:Hrd.
    apply raw_read in Hrd as [Hs2 Hr2]; [|lia..].
    assert (Hs : files_same (vol priv) v2) by (by eapply files_same_trans).
    destruct (vol_frame f priv v2 (S (now priv)) Hok Hs) as [Hok2 Hsame2].
    destruct (Z.ltb_spec nread 0) as [Hneg|Hge]; intros [= <- <- <-]; (split_and!; [exact Hok2|exact Hsame2|]); [lia|].
    intros _. destruct (Hr2 Hge) as (Hgl & Hgn & Hgb). rewrite (proj1 (Hs1 d)) in Hgn. split_and!.
    + rewrite zlength_app. lia.
    + rewrite Hlen, <- Hfs. lia.
    + apply bytes_are_app; [intros i Hi; rewrite Hcon; by apply Hby|].
      intros i Hi. rewrite Hgb by done. replace (off + zlength out1) with off' by lia.
      rewrite Hcon, (view_chain_after (cache_size priv) _ 0); [apply Hs1|done|].
      destruct (requests dpr) as [|q l] eqn:Hq; [cbn; lia|].
      rewrite <- (chain_last_end (cache_size priv)); [lia|lia|done|done].
  - destruct Hend as [[-> Hle]|[? ?]]; [|lia]. intros [= <- <- <-].
    destruct (vol_frame f priv v1 (S (now priv)) Hok Hs1). split_and!; try done. intros _. split_and!; [done| |].
    + rewrite Hlen, <- Hfs. lia.
    + intros i Hi. rewrite Hcon. by apply Hby.
Qed.

Lemma read_spec f d n off priv r out priv' :
  (forall t, calloc_ok host t = true) ->
  sched_ok f priv -> inflight_reqs f d = [] -> 0 <= n -> 0 <= off ->
  unified_read host d n off priv = (r, out, priv') -> read_ok f d n off priv r out priv'.
Proof.
  intros Hcal Hok Hnf Hn Hoff. unfold unified_read.
  destruct (Z.eqb_spec n 0) as [->|Hn0].
  { intros [= <- <- <-]. split_and!; try done. intros _. split_and!; [done|lia|apply bytes_are_nil]. }
  destruct (_ <? 0) eqn:Hl; [intros [= <- <- <-]; split_and!; try done; bsplit; lia|]. clear Hl.
  assert (Hraw : requests_of priv d = [] ->
    (let '(r, out, v) := ltfs_fsraw_read d n off (vol priv) in (r, out, priv <| vol := v |>)) = (r, out, priv') ->
    read_ok f d n off priv r out priv').
  { intros Hreq. destruct (ltfs_fsraw_read d n off (vol priv)) as [[r1 o1] v1] eqn:Hrd. intros [= <- <- <-].
    apply raw_read_ok; try done. lia. }
  unfold requests_of in Hraw. destruct (iosched_priv priv !! d) as [dpr|] eqn:Hd; [|by apply Hraw].
  destruct (requests dpr) as [|q l] eqn:Hq; [by apply Hraw|]. rewrite <- Hq.
  apply (cached_read_ok f d n off priv dpr); try done. lia.
Qed.

(** C21: a read returns the content of the file.  Whatever mixture of cached
    requests and raw bytes the range consists of, [unified_read] returns exactly
    the bytes that the last writes left there, zeros in gaps the raw file does
    not reach, and as many of them as the file is long; or an error of the
    layers below.  It changes no file, and it leaves the scheduler as it was. *)
Theorem unified_read_returns_content f d n off priv r out priv' :
  (forall t, calloc_ok host t = true) ->
  sched_ok f priv -> inflight_reqs f d = [] -> 0 <= n -> 0 <= off ->
  unified_read host d n off priv = (r, out, priv') ->
  sched_ok f priv' /\ same_contents f f priv priv' /\
  (0 <= r -> r = zlength out /\ r = Z.max 0 (Z.min n (length_of f priv d - off)) /\
             bytes_are (content f priv d) off out).
Proof. apply read_spec. Qed.
End read.
