(* ===== verification/UnifiedFlush.v ===== *)
(** * The unified scheduler: writing requests down loses nothing

    Flushes and the background writer move bytes from the requests to the raw
    file.  They leave the content of every file as it is; when a raw write
    fails, the error is kept for the next call on that file. *)

From S2P Require Import Prelude Bytes LtfsError Extents CacheManager Unified UnifiedReqs UnifiedWrite UnifiedProps.

(** ** Lists of requests *)

Section lists.
Context (cs : Z).

Definition covered (l : list write_request) (o : Z) : Prop := exists r, r ∈ l /\ covers r o = true.

Lemma covered_nil o : ~ covered [] o.
Proof. intros (r & Hr & _). by apply not_elem_of_nil in Hr. Qed.

Lemma covered_cons r l o : covered (r :: l) o <-> covers r o = true \/ covered l o.
Proof.
  split.
  - intros (x & [->|Hx]%elem_of_cons & Hc); [by left|right; by exists x].
  - intros [Hc|(x & Hx & Hc)]; [exists r|exists x]; by rewrite elem_of_cons; auto.
Qed.

Lemma covered_app a b o : covered (a ++ b) o <-> covered a o \/ covered b o.
Proof.
  induction a as [|r a IH]; cbn [app].
  - split; [by right|intros [?%covered_nil|?]; done].
  - rewrite !covered_cons, IH. tauto.
Qed.

Lemma covered_same l k o : same_reqs l k -> covered k o <-> covered l o.
Proof.
  induction 1 as [|a b l k Hab _ IH]; [done|]. by rewrite !covered_cons, IH, (same_req_covers a b).
Qed.

Lemma view_uncovered raw l o : ~ covered l o -> view raw l o = raw o.
Proof.
  induction l as [|r l IH]; [done|]. rewrite covered_cons. intros Hn. cbn.
  destruct (covers r o); [destruct Hn; by left|]. apply IH. tauto.
Qed.

Lemma chain_covered lo l o : chain cs lo l -> covered l o -> lo <= o < chain_end lo l.
Proof.
  intros Hc Hcov. split.
  - destruct (decide (lo <= o)) as [|Hlt]; [done|]. destruct Hcov as (r & Hr & Hro).
    pose proof (chain_covers cs lo l o Hc ltac:(lia)) as Hf. rewrite Forall_forall in Hf.
    rewrite (Hf r Hr) in Hro. done.
  - destruct (decide (o < chain_end lo l)) as [|Hlt]; [done|]. destruct Hcov as (r & Hr & Hro).
    pose proof (chain_covers_end cs lo l o Hc ltac:(lia)) as Hf. rewrite Forall_forall in Hf.
    rewrite (Hf r Hr) in Hro. done.
Qed.

(** In a chain every byte belongs to one request. *)
Lemma chain_middle A req B o :
  chain cs 0 (A ++ req :: B) -> covers req o = true -> ~ covered A o /\ ~ covered B o.
Proof.
  intros [HA (Hlo & Hok & HB)]%req_chain_app Hc. unfold covers in Hc. bsplit. split; intros Hcov.
  - pose proof (chain_covered 0 A o HA Hcov). lia.
  - pose proof (chain_covered (req_end req) B o HB Hcov). lia.
Qed.

Lemma chain_drop A req B : chain cs 0 (A ++ req :: B) -> chain cs 0 (A ++ B).
Proof.
  intros [HA (Hlo & [? ? ?] & HB)]%req_chain_app. apply req_chain_app. split; [done|].
  apply (req_chain_weaken _ (req_end req)); [unfold req_end; lia|done].
Qed.

(** A merge inside a chain gives a chain over the same bytes. *)
Lemma chain_merge A de sr B ret l :
  chain cs 0 (A ++ de :: sr :: B) -> merge_result cs A de sr B ret l ->
  chain cs 0 l /\ (forall o, covered l o -> covered (A ++ de :: sr :: B) o).
Proof.
  intros Hch Hm. pose proof Hch as [HA (Hlo & Hok & Hso & Hsok & HB)]%req_chain_app.
  assert (Hcov : forall de', merged cs de sr de' -> req_offset sr <= req_end de -> forall o,
    covers de' o = true -> covers de o = true \/ covers sr o = true).
  { intros de' [_ Ho _ He _ Hg] Hle o Hc. unfold covers in *. bsplit.
    destruct (decide (o < req_end de)); [left; lia|]. right. destruct (Hg ltac:(lia)). lia. }
  destruct Hm as [|A' de' sr' B' HAA HBB Hle Hm Ht|A' de' B' HAA HBB Hle Hm He]; [done|..].
  - split.
    + apply req_chain_app. rewrite (chain_end_same 0 A A') by done. split; [by apply (chain_same _ _ A)|].
      cbn. destruct Hm as [? -> _ _ _ _], Ht as [? -> -> _ _]. split_and!; try done. by apply (chain_same _ _ B).
    + intros o. rewrite !covered_app, !covered_cons, (covered_same A A'), (covered_same B B') by done.
      intros [?|[Hc|[Hc|?]]]; [tauto| | |tauto].
      * destruct (Hcov de' Hm Hle o Hc); tauto.
      * right. right. left. destruct Ht as [_ Hto Hte _ _]. pose proof (mg_end _ _ _ _ Hm). unfold covers in *. lia.
  - split.
    + apply req_chain_app. rewrite (chain_end_same 0 A A') by done. split; [by apply (chain_same _ _ A)|].
      cbn. pose proof (mg_offset _ _ _ _ Hm). split_and!; [lia|apply Hm|]. apply (chain_same _ _ B); [done|].
      apply (req_chain_weaken _ (req_end sr)); [|done].
      pose proof (mg_end _ _ _ _ Hm). destruct (decide (req_end de < req_end de')) as [Hlt|?].
      * pose proof (mg_grown _ _ _ _ Hm Hlt). lia.
      * destruct Hsok. unfold req_end in *. lia.
    + intros o. rewrite !covered_app, !covered_cons, (covered_same A A'), (covered_same B B') by done.
      intros [?|[Hc|?]]; [tauto| |tauto]. destruct (Hcov de' Hm Hle o Hc); tauto.
Qed.

Lemma req_bytes_length r : req_ok cs r -> zlength (req_bytes r) = req_count r.
Proof.
  intros [? ? Hb]. unfold req_bytes, cache_manager_get_object_data, zlength, LTFS_CRC_SIZE in *.
  rewrite length_take. lia.
Qed.

(** The raw file after a request was written to it. *)
Lemma patched_req raw r o :
  req_ok cs r -> patched raw (req_bytes r) (req_offset r) o = if covers r o then req_byte r o else raw o.
Proof.
  intros Hok. pose proof (req_bytes_length r Hok) as Hl. destruct (covers r o) eqn:Hc.
  - unfold covers, req_end in Hc. bsplit. rewrite patched_in by lia. unfold req_bytes, req_byte, cache_manager_get_object_data.
    rewrite lookup_take_lt by lia. done.
  - apply patched_out. unfold covers, req_end in Hc. apply andb_false_iff in Hc as [?|?]; bsplit; lia.
Qed.
End lists.

(** ** Bytes on their way down

    [L] holds the requests taken out of the list, [R] the list.  [down] relates
    the volume, [L] and [R] to the content [f0] and the length [n0] of the file
    at the start. *)

Section down.
Context {V : Type} `{RawLaws V}.
Context (cs : Z) (d : nat) (v0 : V) (f0 : Z -> option Z) (n0 : Z).

Record down (v : V) (L R : list write_request) : Prop := {
  dn_others d' : d' <> d -> d_size v d' = d_size v0 d' /\ forall o, raw_byte v d' o = raw_byte v0 d' o;
  dn_list : chain cs 0 R;
  dn_taken : chain cs 0 L;
  dn_apart o : covered L o -> ~ covered R o;
  dn_agree : ip_agree (raw_byte v d) (d_size v d) R;
  dn_view o : view (view (raw_byte v d) L) R o = f0 o;
  dn_size : Z.max (Z.max (d_size v d) (last_end L)) (last_end R) = n0;
}.

Lemma down_merge v L A de sr B ret l :
  down v L (A ++ de :: sr :: B) -> merge_result cs A de sr B ret l -> down v L l.
Proof.
  intros [H1 H2 H3 H4 H5 H6 H7] Hm. pose proof H2 as [_ (_ & [_ ? _] & Hso & _)]%req_chain_app.
  assert (Ho : req_offset de <= req_offset sr) by (unfold req_end in *; lia).
  destruct (chain_merge cs _ _ _ _ _ _ H2 Hm) as [Hch Hcov]. split; try done.
  - intros o Hl Hc. apply (H4 o Hl). by apply Hcov.
  - by eapply merge_agree.
  - intros o. by rewrite (merge_view cs _ A de sr B ret).
  - by rewrite (merge_last_end cs _ _ _ _ _ _ Hm).
Qed.

(** A request is taken out of the list. *)
Lemma down_take v L A req B :
  down v L (A ++ req :: B) -> chain_end 0 L <= req_offset req -> down v (L ++ [req]) (A ++ B).
Proof.
  intros [H1 H2 H3 H4 H5 H6 H7] Hle. pose proof H2 as [_ (_ & Hok & _)]%req_chain_app. split; try done.
  - by eapply chain_drop.
  - apply req_chain_app. split; [done|]. cbn. by split_and!.
  - intros o [Hl|[Hc|?%covered_nil]%covered_cons]%covered_app; [|destruct (chain_middle cs A req B o H2 Hc)|done];
      rewrite covered_app; [|tauto]. specialize (H4 o Hl). rewrite covered_app, covered_cons in H4. tauto.
  - apply Forall_app in H5 as [? ?]. apply Forall_app. split; [done|]. by eapply Forall_cons_1.
  - intros o. rewrite <- H6. rewrite !view_app. apply view_ext. cbn [view].
    destruct (covers req o) eqn:Hc.
    + destruct (chain_middle cs A req B o H2 Hc) as [_ HB]. rewrite (view_uncovered _ B) by done.
      rewrite view_app. cbn. rewrite view_uncovered, Hc; [done|].
      intros Hcl. pose proof (chain_covered cs 0 L o H3 Hcl). unfold covers in Hc. lia.
    + apply view_ext. rewrite view_app. apply view_ext. cbn. by rewrite Hc.
  - rewrite <- H7. autorewrite with ends. change (last_end []) with 0. pose proof (raw_size_nonneg v d). lia.
Qed.

(** A request is written to the raw file. *)
Lemma down_send v v' req L R r :
  down v (req :: L) R -> ltfs_fsraw_write d (req_bytes req) (req_offset req) v = (r, v') -> 0 <= r -> down v' L R.
Proof.
  intros [H1 H2 H3 H4 H5 H6 H7] Hw Hr. destruct H3 as (Hlo & Hok & H3).
  pose proof (req_bytes_length cs req Hok) as Hl. pose proof Hok as [? ? _].
  apply raw_write in Hw as [Hoth Hsame]; [|lia..]. destruct (Hsame Hr) as [Hsz Hby]. clear Hsame.
  assert (Hp : forall o, raw_byte v' d o = if covers req o then req_byte req o else raw_byte v d o)
    by (intros o; rewrite Hby; by apply (patched_req cs)).
  split; try done.
  - intros d' Hne. destruct (Hoth d' (or_intror Hne)) as [-> Ho]. destruct (H1 d' Hne) as [? Ho1]. split; [done|].
    intros o. by rewrite Ho.
  - apply (req_chain_weaken _ (req_end req)); [unfold req_end; lia|done].
  - intros o Hc. apply H4. rewrite covered_cons. by right.
  - apply Forall_forall. intros x Hx Hip. pose proof H5 as H5'. unfold ip_agree in H5'. rewrite Forall_forall in H5'.
    destruct (H5' x Hx Hip) as [He Hb]. split; [lia|]. intros o Ho. rewrite Hp.
    destruct (covers req o) eqn:Hc; [|by apply Hb]. exfalso. apply (H4 o); [rewrite covered_cons; by left|by exists x].
  - intros o. rewrite <- H6. apply view_ext. cbn [view].
    destruct (covers req o) eqn:Hc.
    + rewrite view_uncovered, Hp, Hc; [done|]. intros Hcl. pose proof (chain_covered cs (req_end req) L o H3 Hcl).
      unfold covers in Hc. lia.
    + apply view_ext. by rewrite Hp, Hc.
  - rewrite <- H7, Hsz, Hl, last_end_cons. unfold req_end. lia.
Qed.

(** A request is written to the raw file and stays for the index partition. *)
Lemma down_keep v v' A req B r :
  down v [] (A ++ req :: B) -> ltfs_fsraw_write d (req_bytes req) (req_offset req) v = (r, v') -> 0 <= r ->
  down v' [] (A ++ req <| req_state := REQUEST_IP |> :: B).
Proof.
  intros [H1 H2 H3 H4 H5 H6 H7] Hw Hr. set (req' := req <| req_state := REQUEST_IP |>).
  pose proof H2 as [HA (Hlo & Hok & HB)]%req_chain_app.
  pose proof (req_bytes_length cs req Hok) as Hl. pose proof Hok as [? ? _].
  apply raw_write in Hw as [Hoth Hsame]; [|lia..]. destruct (Hsame Hr) as [Hsz Hby]. clear Hsame.
  assert (Hp : forall o, raw_byte v' d o = if covers req o then req_byte req o else raw_byte v d o)
    by (intros o; rewrite Hby; by apply (patched_req cs)).
  assert (Hkeep : forall l, (forall x, x ∈ l -> forall o, covers x o = true -> covers req o = false) ->
    ip_agree (raw_byte v d) (d_size v d) l -> ip_agree (raw_byte v' d) (d_size v' d) l).
  { intros l Hl' Hag. apply Forall_forall. intros x Hx Hip. unfold ip_agree in Hag. rewrite Forall_forall in Hag.
    destruct (Hag x Hx Hip) as [He Hb]. split; [lia|]. intros o Ho. rewrite Hp, (Hl' x Hx o Ho). by apply Hb. }
  apply Forall_app in H5 as [HagA HagB]. apply Forall_cons in HagB as [_ HagB].
  assert (Hsep : forall x o, x ∈ A \/ x ∈ B -> covers x o = true -> covers req o = false).
  { intros x o Hx Hc. destruct (covers req o) eqn:Hcr; [|done].
    destruct (chain_middle cs A req B o H2 Hcr) as [HnA HnB]. destruct Hx; [destruct HnA|destruct HnB]; by exists x. }
  split; try done.
  - intros d' Hne. destruct (Hoth d' (or_intror Hne)) as [-> Ho]. destruct (H1 d' Hne) as [? Ho1]. split; [done|].
    intros o. by rewrite Ho.
  - apply req_chain_app. split; [done|]. cbn. split_and!; [done|by destruct Hok|done].
  - intros o Hc. by apply covered_nil in Hc.
  - apply Forall_app. split; [apply Hkeep; [intros x Hx o; apply Hsep; by left|done]|].
    apply Forall_cons. split; [|apply Hkeep; [intros x Hx o; apply Hsep; by right|done]].
    intros _. split; [rewrite Hsz, Hl; unfold req_end; cbn; lia|]. intros o Hc. change (covers req' o) with (covers req o) in Hc.
    rewrite Hp, Hc. done.
  - intros o. rewrite <- H6. cbn [view]. rewrite !view_app. apply view_ext. cbn [view].
    change (covers req' o) with (covers req o). change (req_byte req' o) with (req_byte req o). destruct (covers req o) eqn:Hc; [done|]. apply view_ext. by rewrite Hp, Hc.
  - rewrite <- H7, Hsz, Hl. autorewrite with ends. change (req_end req') with (req_end req). unfold req_end. lia.
Qed.
End down.

(** ** The loops *)

Section loops.
Context {V : Type} `{RawLaws V}.
Context (cs : Z) (d : nat) (v0 : V) (f0 : Z -> option Z) (n0 : Z).
Implicit Types (priv : unified_data V) (dpr : dentry_priv).
Abbreviation down := (down cs d v0 f0 n0).

(** What the loops keep of the file and of the scheduler. *)
Record loop_frame dpr priv : Prop := {
  lf_dentry : dentry dpr = d;
  lf_sized : sized priv;
  lf_cs : cache_size priv = cs;
}.

Definition prev_of (i : nat) : option nat := match i with O => None | S j => Some j end.

Definition ip (r : write_request) : Prop := is_ip r = true.

Lemma ip_same l k : same_reqs l k -> Forall ip l -> Forall ip k.
Proof.
  induction 1 as [|a b l k (_ & _ & _ & E) _ IH]; [done|]. intros [? ?]%Forall_cons. constructor; [by red; rewrite E|by apply IH].
Qed.

(** The merge with the request before, as the loops do it. *)
Lemma merge_step L A req B dpr priv ret sp dpr' priv' :
  loop_frame dpr priv -> requests dpr = A ++ req :: B -> down (vol priv) L (A ++ req :: B) -> file_size dpr = n0 ->
  _unified_merge_requests (prev_of (length A)) (length A) None dpr priv = (ret, sp, dpr', priv') ->
  loop_frame dpr' priv' /\ vol priv' = vol priv /\ iosched_priv priv' = iosched_priv priv /\
  same_file dpr dpr' /\ file_size dpr' = n0 /\
  exists A' B', requests dpr' = A' ++ B' /\ length A' = (if ret =? 2 then length A else S (length A)) /\
    same_reqs B B' /\ (Forall ip (A ++ [req]) -> Forall ip A') /\ down (vol priv') L (A' ++ B').
Proof.
  intros [Fd Fz Fc] Hr Hdn Hfs Hm. destruct (decide (A = [])) as [->|Hne].
  - cbn in Hm. unfold _unified_merge_requests in Hm. injection Hm as <- <- <- <-.
    split_and!; try done. exists [req], B. by split_and!.
  - destruct (exists_last Hne) as (A0 & de & ->). rewrite length_app in Hm. cbn in Hm.
    rewrite Nat.add_1_r in Hm. cbn in Hm. rewrite <- app_assoc in *. cbn in Hr, Hdn.
    pose proof (dn_list _ _ _ _ _ _ _ _ Hdn) as [HA (Hlo & Hde & Hso & Hsr & HB)]%req_chain_app.
    eapply merge_spec in Hm as (Hres & Hf & Hsz & Hs & _ & Hz & _); try done; try (by rewrite Fc).
    2:{ destruct Hde. unfold req_end in *. lia. }
    2:{ rewrite Hfs, <- (dn_size _ _ _ _ _ _ _ _ Hdn). autorewrite with ends. lia. }
    pose proof Hs as (Hc & _ & Hv & Hi & _). pose proof Hf as (Hfd & _).
    rewrite Fc in Hres. pose proof (down_merge _ _ _ _ _ _ _ _ _ _ _ _ _ Hdn Hres) as Hdn'.
    split_and!; try done; [split; congruence|congruence|]. rewrite Hv.
    remember (requests dpr') as l eqn:El. rewrite length_app, Nat.add_1_r.
    destruct Hres as [Hgap|A' de' sr' B' HAA HBB Hle Hmg Ht|A' de' B' HAA HBB Hle Hmg He].
    + exists (A0 ++ [de; req]), B. rewrite <- app_assoc. split_and!; try done; [rewrite length_app; cbn; lia|..].
      all: by rewrite <- app_assoc.
    + exists (A' ++ [de'; sr']), B'. rewrite <- app_assoc. split_and!; try done.
      * rewrite length_app. cbn. rewrite <- (Forall2_length _ _ _ HAA). lia.
      * intros [HA1 [Hd1 [Hq _]%Forall_cons]%Forall_cons]%Forall_app. apply Forall_app. split; [by apply (ip_same A0)|].
        unfold ip in *. repeat constructor; [by rewrite (mg_ip _ _ _ _ Hmg)|by rewrite (tl_ip _ _ _ _ Ht)].
    + exists (A' ++ [de']), B'. rewrite <- app_assoc. split_and!; try done.
      * rewrite length_app. cbn. rewrite <- (Forall2_length _ _ _ HAA). lia.
      * intros [HA1 [Hd1 _]%Forall_cons]%Forall_app. apply Forall_app. split; [by apply (ip_same A0)|].
        unfold ip in *. constructor; [by rewrite (mg_ip _ _ _ _ Hmg)|done].
Qed.

(** An error is kept until a caller hears of it. *)
Lemma handle_write_error_latches ret st dpr priv dpr' priv' :
  ret < 0 -> st <> REQUEST_IP -> _unified_handle_write_error ret st dpr priv = (dpr', priv') ->
  write_error dpr' = (if write_error dpr =? 0 then ret else write_error dpr) /\
  dentry dpr' = dentry dpr /\ iosched_priv priv' = iosched_priv priv /\ cache_size priv' = cache_size priv.
Proof.
  intros Hret Hst. unfold _unified_handle_write_error.
  replace (state_eqb st REQUEST_IP) with false by (unfold state_eqb; by rewrite bool_decide_eq_false_2).
  cbn [andb negb orb]. set (other := negb (about_space ret) || _). set (we := if write_error dpr =? 0 then ret else _).
  set (d1 := (if write_error dpr =? 0 then _ else dpr) <| file_size := _ |>).
  assert (Hd1 : write_error d1 = we /\ dentry d1 = dentry dpr) by (unfold d1, we; case_bool; done).
  destruct (requests d1) as [|r l]; [intros [= <- <-]; destruct Hd1; by split_and!|]. generalize (r :: l). clear r l. intros l.
  destruct (_unified_update_queue_membership false true REQUEST_DP d1 priv) as [d2 p2] eqn:M2.
  destruct (_unified_update_queue_membership false true REQUEST_PARTIAL d2 p2) as [d3 p3] eqn:M3.
  destruct (if other then _unified_update_queue_membership false true REQUEST_IP d3 p3 else (d3, p3)) as [d4 p4] eqn:M4.
  assert (H4 : write_error d4 = we /\ dentry d4 = dentry dpr /\ iosched_priv p4 = iosched_priv priv /\
    cache_size p4 = cache_size priv).
  { apply membership_helper in M2 as ([(E1 & _ & E2 & _) (S1 & _ & S2 & S3 & _) _ _] & _ & _).
    apply membership_helper in M3 as ([(E3 & _ & E4 & _) (S4 & _ & S5 & S6 & _) _ _] & _ & _).
    destruct other; [apply membership_helper in M4 as ([(E5 & _ & E6 & _) (S7 & _ & S8 & S9 & _) _ _] & _ & _)
      |injection M4 as <- <-]; split_and!; destruct Hd1; congruence. }
  clear M2 M3 M4 Hd1. clearbody other. destruct (clear_requests true other l d4 p4) as [[l5 d5] p5] eqn:Hcl. intros [= <- <-]. cbn.
  revert d4 p4 l5 d5 p5 H4 Hcl. induction l as [|x l IH]; intros d4 p4 l5 d5 p5 H4; cbn; [by intros [= <- <- <-]|].
  destruct (_ || _).
  - intros Hcl. eapply IH; [|exact Hcl]. exact H4.
  - destruct (clear_requests true other l (max_size x d4) p4) as [[l6 d6] p6] eqn:Hcl. intros [= <- <- <-].
    eapply IH; [|exact Hcl]. unfold max_size. by case_bool.
Qed.

Lemma after_perm_frame ret priv :
  let p := snd (_unified_write_index_after_perm ret priv) in
  iosched_priv p = iosched_priv priv /\ cache_size p = cache_size priv.
Proof. unfold _unified_write_index_after_perm. repeat case_match; done. Qed.

(** How a loop over the requests ends: with an error kept for the caller, or
    with every byte still where a reader finds it. *)
Record loop_ok L dpr dpr' priv' : Prop := {
  lo_frame : loop_frame dpr' priv';
  lo_file : same_file dpr dpr';
  lo_size : file_size dpr' = n0;
  lo_down : down (vol priv') L (requests dpr');
}.

Definition loop_failed dpr dpr' : Prop :=
  dentry dpr' = d /\ write_error dpr' <> 0 /\ (write_error dpr = 0 -> write_error dpr' < 0).

Lemma failed_ends ret st dpr priv dpr' priv' v :
  ret < 0 -> st <> REQUEST_IP -> dentry dpr = d ->
  _unified_handle_write_error ret st dpr (snd (_unified_write_index_after_perm ret (priv <| vol := v |>))) = (dpr', priv') ->
  loop_failed dpr dpr' /\ iosched_priv priv' = iosched_priv priv /\ cache_size priv' = cache_size priv.
Proof.
  intros Hret Hst Hd (Hw & Hdd & Hi & Hc)%handle_write_error_latches; [|done..].
  destruct (after_perm_frame ret (priv <| vol := v |>)) as [Hi' Hc']. rewrite Hi in *. rewrite Hc in *. split_and!; [|done..].
  split_and!; [congruence|rewrite Hw; case_bool; lia|intros E; rewrite Hw, E; done].
Qed.

Lemma not_ip_state r : is_ip r = false -> req_state r <> REQUEST_IP.
Proof. unfold is_ip, state_eqb. by intros ?%bool_decide_eq_false. Qed.

Lemma flush_loop_spec : forall fuel A B dpr priv dpr' priv',
  loop_frame dpr priv -> requests dpr = A ++ B -> (length B <= fuel)%nat -> Forall ip A ->
  down (vol priv) [] (A ++ B) -> file_size dpr = n0 ->
  flush_loop fuel (length A) dpr priv = (dpr', priv') ->
  iosched_priv priv' = iosched_priv priv /\ cache_size priv' = cs /\
  (loop_failed dpr dpr' \/ loop_ok [] dpr dpr' priv' /\ Forall ip (requests dpr')).
Proof.
  induction fuel as [|fuel IH]; intros A B dpr priv dpr' priv' Hf Hr Hl HA Hdn Hfs.
  { destruct B; [|cbn in Hl; lia]. rewrite app_nil_r in *. intros [= <- <-]. split_and!; try done; [apply Hf|].
    right. rewrite Hr. split; [split; try done; by rewrite Hr|done]. }
  cbn [flush_loop]. destruct B as [|req B].
  { rewrite app_nil_r in *. rewrite Hr, lookup_ge_None_2 by done. intros [= <- <-]. split_and!; try done; [apply Hf|].
    right. rewrite Hr. split; [split; try done; by rewrite Hr|done]. }
  rewrite Hr, lookup_middle. cbn in Hl. fold (prev_of (length A)).
  assert (Hmerge : forall dp pr req', loop_frame dp pr -> requests dp = A ++ req' :: B -> ip req' ->
    down (vol pr) [] (A ++ req' :: B) -> file_size dp = n0 -> same_file dpr dp -> iosched_priv pr = iosched_priv priv ->
    (let '(ret, _, dpr, priv) := _unified_merge_requests (prev_of (length A)) (length A) None dp pr in
     flush_loop fuel (if ret =? 2 then length A else S (length A)) dpr priv) = (dpr', priv') ->
    iosched_priv priv' = iosched_priv priv /\ cache_size priv' = cs /\
    (loop_failed dpr dpr' \/ loop_ok [] dpr dpr' priv' /\ Forall ip (requests dpr'))).
  { intros dp pr req' Hf1 Hr1 Hip1 Hdn1 Hfs1 Hsf Hpi.
    destruct (_unified_merge_requests _ _ None dp pr) as [[[ret sp] dp2] pr2] eqn:Hm.
    eapply merge_step in Hm as (Hf2 & Hv2 & Hi2 & Hs2 & Hfs2 & A2 & B2 & Hr2 & Hl2 & HB2 & Hip2 & Hdn2); try done.
    rewrite <- Hl2. intros Hfl. eapply IH in Hfl as (Hi & Hc & Hend); try done.
    - split_and!; [congruence|done|]. pose proof (same_file_trans _ _ _ Hsf Hs2) as Hs. destruct Hend as [(? & ? & He)|[[? ? ? ?] ?]];
        [left|right; split; [split; try done; by eapply same_file_trans|done]].
      split_and!; try done. intros E. apply He. destruct Hs as (_ & _ & -> & _). done.
    - rewrite <- (Forall2_length _ _ _ HB2). lia.
    - apply Hip2, Forall_app. split; [done|]. by constructor. }
  destruct (is_ip req) eqn:Hip; [by eapply Hmerge|].
  destruct (ltfs_fsraw_write (dentry dpr) (req_bytes req) (req_offset req) (vol priv)) as [ret v] eqn:Hw.
  rewrite (lf_dentry _ _ Hf) in Hw. destruct (Z.ltb_spec ret 0) as [Hneg|Hpos].
  { intros (Hfail & Hi & Hc)%failed_ends; [|done|by apply not_ip_state|apply Hf].
    split_and!; [done| |by left]. rewrite Hc. apply Hf. }
  destruct (write_ip dpr) eqn:Hwip.
  - set (req' := req <| req_state := REQUEST_IP |>).
    destruct (_unified_update_queue_membership true false REQUEST_IP _ _) as [dp pr] eqn:M.
    apply membership_helper in M as ([Fs Ss Ps _] & Rs & Zs). cbn in Rs, Zs, Ps.
    rewrite insert_middle in Rs. pose proof Ss as (Sc & _ & Sv & Si & _). cbn in Sc, Sv, Si.
    apply (Hmerge dp pr req'); try done.
    + destruct Hf as [F1 F2 F3]. split; [destruct Fs as (-> & _); done|by apply (sized_same priv)|congruence].
    + rewrite Sv. by eapply down_keep.
    + congruence.
  - pose proof (dn_list _ _ _ _ _ _ _ _ Hdn) as [_ (_ & Hok & _)]%req_chain_app.
    destruct (free_request_sized req (priv <| vol := v |>)) as [Hz Hs]; [apply Hf|cbn; by rewrite (lf_cs _ _ Hf)|].
    pose proof Hs as (Sc & _ & Sv & Si & _).
    intros Hfl. eapply (IH A B) in Hfl as (Hi & Hc & Hend); try done.
    + split_and!; [exact (eq_trans Hi Si)|done|]. destruct Hend as [?|[[? ? ? ?] ?]]; [by left|right]. by split.
    + destruct Hf as [F1 F2 F3]. split; [done|done|exact (eq_trans Sc F3)].
    + cbn. by apply delete_middle.
    + lia.
    + change (down v [] (A ++ B)). pose proof (down_take cs d v0 f0 n0 _ [] A req B Hdn) as Hdt. cbn in Hdt.
      eapply down_send; [apply Hdt; apply Hok|exact Hw|done].
Qed.

Lemma taken_ok L B dpr priv : loop_frame dpr priv -> file_size dpr = n0 -> requests dpr = B ->
  down (vol priv) L B -> loop_ok L dpr dpr priv.
Proof. intros ? ? <- ?. by split. Qed.

(** The writer's loop: what it takes is in flight.  A file for the index
    partition has nothing taken from it. *)
Lemma detach_loop_spec queue : forall fuel A B L dpr priv L' dpr' priv',
  loop_frame dpr priv -> requests dpr = A ++ B -> (length B <= fuel)%nat ->
  down (vol priv) L (A ++ B) -> chain cs (chain_end 0 L) B -> (write_ip dpr = true -> L = []) -> file_size dpr = n0 ->
  detach_loop fuel queue (length A) L dpr priv = (L', dpr', priv') ->
  iosched_priv priv' = iosched_priv priv /\ cache_size priv' = cs /\
  (loop_failed dpr dpr' /\ L' = L /\ L = [] \/ loop_ok L' dpr dpr' priv').
Proof.
  induction fuel as [|fuel IH]; intros A B L dpr priv L' dpr' priv' Hf Hr Hl Hdn Hch Hwl Hfs.
  { destruct B; [|cbn in Hl; lia]. intros [= <- <- <-]. split_and!; try done; [apply Hf|]. right. by eapply taken_ok. }
  cbn [detach_loop]. destruct B as [|req B].
  { rewrite Hr, lookup_ge_None_2 by (rewrite app_nil_r; done). intros [= <- <- <-].
    split_and!; try done; [apply Hf|]. right. by eapply taken_ok. }
  rewrite Hr, lookup_middle. cbn in Hl. fold (prev_of (length A)). pose proof Hch as (Hlo & Hok & HB).
  assert (HB' : chain cs (chain_end 0 L) B) by (apply (req_chain_weaken _ (req_end req)); [destruct Hok; unfold req_end; lia|done]).
  assert (Hmerge : forall dp pr req', loop_frame dp pr -> requests dp = A ++ req' :: B ->
    down (vol pr) L (A ++ req' :: B) -> file_size dp = n0 -> same_file dpr dp -> iosched_priv pr = iosched_priv priv ->
    (let '(ret, _, dpr, priv) := _unified_merge_requests (prev_of (length A)) (length A) None dp pr in
     detach_loop fuel queue (if ret =? 2 then length A else S (length A)) L dpr priv) = (L', dpr', priv') ->
    iosched_priv priv' = iosched_priv priv /\ cache_size priv' = cs /\
    (loop_failed dpr dpr' /\ L' = L /\ L = [] \/ loop_ok L' dpr dpr' priv')).
  { intros dp pr req' Hf1 Hr1 Hdn1 Hfs1 Hsf Hpi.
    destruct (_unified_merge_requests _ _ None dp pr) as [[[ret sp] dp2] pr2] eqn:Hm.
    eapply merge_step in Hm as (Hf2 & Hv2 & Hi2 & Hs2 & Hfs2 & A2 & B2 & Hr2 & Hl2 & HB2 & _ & Hdn2); try done.
    rewrite <- Hl2. pose proof (same_file_trans _ _ _ Hsf Hs2) as Hs.
    intros Hfl. eapply IH in Hfl as (Hi & Hc & Hend); try done.
    - split_and!; [congruence|done|]. destruct Hend as [((? & ? & He) & ? & ?)|[? ? ? ?]];
        [left|right; split; try done; by eapply same_file_trans].
      split; [|done]. split_and!; [done..|]. intros E. apply He. destruct Hs as (_ & _ & -> & _). done.
    - rewrite <- (Forall2_length _ _ _ HB2). lia.
    - by apply (chain_same _ _ B).
    - destruct Hs as (_ & -> & _). done. }
  destruct (is_ip req) eqn:Hip; [by eapply Hmerge|].
  destruct (_ || _); cycle 1.
  { replace (S (length A)) with (length (A ++ [req])) by (rewrite length_app; cbn; lia).
    apply (IH (A ++ [req]) B); try done; [by rewrite <- app_assoc|lia|by rewrite <- app_assoc]. }
  destruct (write_ip dpr) eqn:Hwip.
  - rewrite (Hwl eq_refl) in *.
    destruct (ltfs_fsraw_write (dentry dpr) (req_bytes req) (req_offset req) (vol priv)) as [ret v] eqn:Hw.
    rewrite (lf_dentry _ _ Hf) in Hw. destruct (Z.ltb_spec ret 0) as [Hneg|Hpos].
    + destruct (_unified_handle_write_error _ _ dpr _) as [d3 p3] eqn:He. intros [= <- <- <-].
      apply failed_ends in He as (Hfail & Hi & Hc); [|done|by apply not_ip_state|apply Hf].
      split_and!; [done| |by left]. rewrite Hc. apply Hf.
    + set (req' := req <| req_state := REQUEST_IP |>).
      destruct (_unified_update_queue_membership true false REQUEST_IP _ _) as [dp pr] eqn:M.
      apply membership_helper in M as ([Fs Ss Ps _] & Rs & Zs). cbn in Rs, Zs, Ps.
      rewrite insert_middle in Rs. pose proof Ss as (Sc & _ & Sv & Si & _). cbn in Sc, Sv, Si.
      apply (Hmerge dp pr req'); try done.
      * destruct Hf as [F1 F2 F3]. split; [destruct Fs as (-> & _); done|by apply (sized_same priv)|congruence].
      * rewrite Sv. by eapply down_keep.
      * congruence.
  - intros Hfl. eapply (IH A B) in Hfl as (Hi & Hc & Hend); try done.
    + split_and!; try done. destruct Hend as [(_ & _ & []%app_nil)|[? ? ? ?]]; [done|right; by split].
    + by split; destruct Hf.
    + cbn. apply delete_middle.
    + lia.
    + by apply down_take.
    + by rewrite chain_end_app.
    + cbn. congruence.
Qed.
End loops.

(** ** The calls *)

Section calls.
Context {V : Type} `{RawLaws V}.
Implicit Types (priv : unified_data V) (dpr : dentry_priv).

Lemma down_start f d priv dpr :
  sched_ok f priv -> inflight_reqs f d = [] -> iosched_priv priv !! d = Some dpr ->
  loop_frame (cache_size priv) d dpr priv /\
  down (cache_size priv) d (vol priv) (content f priv d) (length_of f priv d) (vol priv) [] (requests dpr) /\
  file_size dpr = length_of f priv d.
Proof.
  intros Hok Hnf Hd. destruct (so_files _ _ Hok _ _ Hd) as [Hdd [Fc Fa Fs]]. rewrite Hdd in *.
  destruct (under_idle f (vol priv) d Hnf) as [Hsz Hraw].
  assert (Hlen : length_of f priv d = file_size dpr) by (unfold length_of; by rewrite Hd).
  split_and!; [split; try done; apply Hok| |done]. split; try done.
  - intros o Hc. by apply covered_nil in Hc.
  - rewrite <- Hsz. eapply ip_agree_ext; [|exact Fa]. intros o. by rewrite Hraw.
  - intros o. unfold content, requests_of. rewrite Hd. apply view_ext. by rewrite Hraw.
  - rewrite Hlen, <- Fs, Hsz. change (last_end []) with 0. pose proof (raw_size_nonneg (vol priv) d). lia.
Qed.

(** The state after a loop without an error, with the requests [L] in flight. *)
Lemma down_closes f f' d priv dpr dpr0 L dpr' priv' :
  sched_ok f priv -> inflight_reqs f d = [] -> iosched_priv priv !! d = Some dpr ->
  (L = [] /\ f' = f \/ L <> [] /\ f = Idle /\ f' = Sending d L) ->
  iosched_priv priv' = iosched_priv priv ->
  loop_ok (cache_size priv) d (vol priv) (content f priv d) (length_of f priv d) L dpr0 dpr' priv' ->
  sched_ok f' (put_dpr dpr' priv') /\ same_contents f f' priv (put_dpr dpr' priv').
Proof.
  intros Hok Hnf Hd Hf' Hi [[Ld Lz Lc] Lf Ls [D1 D2 D3 D4 D5 D6 D7]].
  assert (Hfl : inflight_reqs f' d = L) by (destruct Hf' as [[-> ->]|(? & -> & ->)]; [done|]; cbn; by rewrite bool_decide_eq_true_2).
  assert (Hfo : forall d', d' <> d -> inflight_reqs f' d' = inflight_reqs f d').
  { intros d' Hne. destruct Hf' as [[-> ->]|(? & -> & ->)]; [done|]. cbn. by rewrite bool_decide_eq_false_2. }
  assert (Hu : forall d', d' <> d -> under_size f' (vol priv') d' = under_size f (vol priv) d' /\
                                     forall o, under f' (vol priv') d' o = under f (vol priv) d' o).
  { intros d' Hne. unfold under_size, under. rewrite (Hfo d' Hne). destruct (D1 d' Hne) as [-> Hby]. split; [done|].
    intros o. by apply view_ext. }
  destruct Hok as [Hz Hfc Hb Hfs]. split.
  - split; cbn; [done| | |].
    + intros d'. rewrite Lc. destruct (decide (d' = d)) as [->|Hne]; [by rewrite Hfl|by rewrite Hfo].
    + rewrite Ld, Hi. destruct Hf' as [[-> ->]|(? & -> & ->)].
      * by apply busy_insert.
      * split; [done|]. rewrite lookup_insert_eq. by eexists.
    + intros d1 dpr1. rewrite Ld, Hi. destruct (decide (d1 = d)) as [->|Hne].
      * rewrite lookup_insert_eq. intros [= <-]. split; [done|]. rewrite Lc. split; [done|..]; rewrite Ld.
        -- unfold under, under_size. rewrite Hfl. unfold ip_agree in *. rewrite Forall_forall in *. intros r Hr Hip.
           destruct (D5 r Hr Hip) as [He Hby]. split; [lia|]. intros o Ho. rewrite view_uncovered; [by apply Hby|].
           intros Hc. apply (D4 o Hc). by exists r.
        -- rewrite Ls. unfold under_size. by rewrite Hfl.
      * rewrite lookup_insert_ne by done. intros Hd1. destruct (Hfs d1 dpr1 Hd1) as [Hdd [F1 F2 F3]].
        destruct (Hu d1 Hne) as [Hus Hub]. split; [done|]. rewrite Lc. rewrite Hdd in *. split; [done|..]; rewrite Hdd, ?Hus; try done.
        eapply ip_agree_ext; [|done]. done.
  - intros d1. unfold length_of, content, requests_of, put_dpr. cbn. rewrite Ld, Hi. destruct (decide (d1 = d)) as [->|Hne].
    + rewrite lookup_insert_eq. unfold under. rewrite Hfl. split; [|done]. by rewrite Ls.
    + rewrite lookup_insert_ne by done. destruct (Hu d1 Hne) as [Hus Hub]. rewrite Hus. split; [done|].
      intros o. by apply view_ext.
Qed.

(** The requests that stay hold nothing the raw file lacks. *)
Lemma all_ip_raw f d priv :
  sched_ok f priv -> inflight_reqs f d = [] -> Forall ip (requests_of priv d) ->
  d_size (vol priv) d = length_of f priv d /\ forall o, raw_byte (vol priv) d o = content f priv d o.
Proof.
  intros Hok Hnf Hip. destruct (under_idle f (vol priv) d Hnf) as [Hsz Hraw].
  unfold length_of, content, requests_of in *. destruct (iosched_priv priv !! d) as [dpr|] eqn:Hd.
  - destruct (so_files _ _ Hok _ _ Hd) as [Hdd [_ Fa Fs]]. rewrite Hdd in *. rewrite <- Fs, <- Hsz.
    unfold ip_agree in Fa. clear Fs. induction (requests dpr) as [|r l IH].
    { change (last_end []) with 0. pose proof (raw_size_nonneg (vol priv) d). split; [lia|]. intros o. symmetry. apply Hraw. }
    apply Forall_cons in Hip as [Hr Hl]. apply Forall_cons in Fa as [Ha Fa]. destruct (IH Hl Fa) as [IHs IHb].
    destruct (Ha Hr) as [He Hby]. rewrite last_end_cons. split; [lia|]. intros o. cbn [view].
    destruct (covers r o) eqn:Hc; [|apply IHb]. by rewrite <- Hraw, Hby.
  - split; [done|]. intros o. by rewrite <- Hraw.
Qed.

Lemma loop_frame_helper cs d dpr priv dpr' priv' :
  loop_frame cs d dpr priv -> helper_frame dpr priv dpr' priv' -> loop_frame cs d dpr' priv'.
Proof.
  intros [F1 F2 F3] [(E1 & _) (S1 & _) P _]. split; [congruence|by apply (sized_same priv)|congruence].
Qed.

(** What a flush of [d] does. *)
Definition flushes f d priv (r : Z) priv' : Prop :=
  cache_size priv' = cache_size priv /\ r <= 0 /\
  (r = 0 -> sched_ok f priv' /\ same_contents f f priv priv' /\ Forall ip (requests_of priv' d)).

Lemma flush_unlocked_spec f d priv r priv' :
  sched_ok f priv -> inflight_reqs f d = [] -> _unified_flush_unlocked d priv = (r, priv') -> flushes f d priv r priv'.
Proof.
  intros Hok Hnf. unfold _unified_flush_unlocked. destruct (iosched_priv priv !! d) as [dpr|] eqn:Hd; cycle 1.
  { intros [= <- <-]. split_and!; try done. intros _. split_and!; try done. unfold requests_of. by rewrite Hd. }
  cbn [_unified_get_write_error]. set (d0 := dpr <| write_error := 0 |>).
  destruct (Z.ltb_spec (write_error dpr) 0) as [Hneg|Hnn]; [intros [= <- <-]; split_and!; try done; lia|].
  change (requests d0) with (requests dpr). destruct (requests dpr) as [|q l] eqn:Hq.
  - intros [= <- <-]. split_and!; try done. intros _. destruct (so_files _ _ Hok _ _ Hd) as [Hdd [F1 F2 F3]].
    destruct (sched_ok_put f priv d dpr d0) as (Hok' & Hoth & Hlen & Hcon); try done. split_and!; try done.
    + intros d'. destruct (decide (d' = d)) as [->|Hne]; [|by apply Hoth]. rewrite Hlen. split; [unfold length_of; by rewrite Hd|].
      intros o. rewrite Hcon. unfold content, requests_of. by rewrite Hd.
    + unfold requests_of, put_dpr. cbn. rewrite Hdd, lookup_insert_eq. cbn. by rewrite Hq.
  - destruct (_unified_update_queue_membership false true REQUEST_DP d0 priv) as [d1 p1] eqn:M1.
    destruct (_unified_update_queue_membership false true REQUEST_PARTIAL d1 p1) as [d2 p2] eqn:M2.
    apply membership_helper in M1 as (F1 & R1 & Z1). apply membership_helper in M2 as (F2 & R2 & Z2).
    pose proof (helper_frame_trans _ _ _ _ _ _ F1 F2) as F. pose proof F as [_ (Sc & _ & Sv & Si & _) _ _].
    destruct (down_start f d priv dpr Hok Hnf Hd) as (Hlf & Hdn & Hfs).
    destruct (flush_loop (length (q :: l)) 0 d2 p2) as [d3 p3] eqn:Hfl.
    assert (HR : requests d2 = q :: l) by (rewrite R2, R1; exact Hq).
    eapply (flush_loop_spec (cache_size priv) d (vol priv) (content f priv d) (length_of f priv d) _ [] (q :: l)) in Hfl
      as (Hi & Hc & Hend); try done.
    + intros [= <- <-]. unfold flushes. cbn. split_and!; [done|destruct (Z.ltb_spec (write_error d3) 0); lia|].
      destruct Hend as [(_ & _ & Herr)|[Hlo Hip]].
      { assert (write_error d3 < 0) by (apply Herr; destruct F as [(_ & _ & -> & _) _ _ _]; done). case_bool; lia. }
      intros _. destruct Hlo as [L1 L2 L3 L4].
      set (d4 := d3 <| write_error := 0 |>).
      destruct (down_closes f f d priv dpr d4 [] d4 p3) as [Hok' Hs']; try done;
        [by left|congruence|split; try done; by split; destruct L1|].
      split_and!; try done. unfold requests_of. cbn. rewrite (lf_dentry _ _ _ _ L1), lookup_insert_eq. done.
    + eapply loop_frame_helper; [|exact F]. destruct Hlf. by split.
    + rewrite Sv. cbn. by rewrite <- Hq.
    + rewrite Z2, Z1. exact Hfs.
Qed.

(** C22: a flush that reports success has stored what readers saw.  When
    [_unified_flush_unlocked] returns 0 for a file of which nothing is in flight, the raw file has
    exactly the length and the bytes that a reader would have been given before the call, whatever
    was in the requests; readers of every file see what they saw before; and the
    requests that stay wait for the index partition only.  The call never returns a
    positive number.  (What an earlier error had already taken from the readers' view is not brought
    back: [index_write_error_loses_data].) *)
Theorem flush_makes_durable f d priv r priv' :
  sched_ok f priv -> inflight_reqs f d = [] -> _unified_flush_unlocked d priv = (r, priv') ->
  r <= 0 /\
  (r = 0 -> sched_ok f priv' /\ same_contents f f priv priv' /\
            Forall (fun q => is_ip q = true) (requests_of priv' d) /\
            d_size (vol priv') d = length_of f priv d /\
            forall o, raw_byte (vol priv') d o = content f priv d o).
Proof.
  intros Hok Hnf (_ & Hr & Hz)%(flush_unlocked_spec f); [|done..]. split; [done|]. intros E. destruct (Hz E) as (Hok' & Hs & Hip).
  destruct (all_ip_raw f d priv' Hok' Hnf Hip) as [Hlen Hby]. destruct (Hs d) as [Hl Hc]. split_and!; try done; [congruence|].
  intros o. by rewrite Hby.
Qed.
End calls.
