(* ===== verification/UnifiedWriter.v ===== *)
(** * The unified scheduler: the background writer, truncation, placement, close

    One step of the background writer leaves every content as it is, or the
    error is kept with the file.  [unified_truncate] cuts the content,
    [unified_update_data_placement] and [unified_close] leave it. *)

From S2P Require Import Prelude Bytes LtfsError Extents CacheManager Unified UnifiedReqs UnifiedWrite UnifiedProps UnifiedFlush.

Section writer.
Context {V : Type} `{RawLaws V}.
Implicit Types (priv : unified_data V) (dpr : dentry_priv).

(** The next call on the file hears of an error. *)
Definition latched (d : nat) priv : Prop :=
  exists dpr, iosched_priv priv !! d = Some dpr /\ write_error dpr <> 0.

(** ** The writer *)

Lemma writer_detach_spec queue d priv f' priv' :
  sched_ok Idle priv -> writer_detach queue d priv = (f', priv') ->
  sched_ok f' priv' /\ same_contents Idle f' priv priv' \/ f' = Idle /\ latched d priv'.
Proof.
  intros Hok. unfold writer_detach. destruct (iosched_priv priv !! d) as [dpr|] eqn:Hd; [|intros [= <- <-]; by left].
  destruct (_unified_update_queue_membership false true queue dpr priv) as [d1 p1] eqn:M1.
  destruct (if state_eqb queue REQUEST_PARTIAL then _ else (d1, p1)) as [d2 p2] eqn:M2.
  assert (F : helper_frame dpr priv d2 p2 /\ requests d2 = requests dpr /\ file_size d2 = file_size dpr).
  { apply membership_helper in M1 as (F1 & R1 & Z1). destruct (state_eqb queue REQUEST_PARTIAL); [|by injection M2 as <- <-].
    apply membership_helper in M2 as (F2 & R2 & Z2). split_and!; [by eapply helper_frame_trans|congruence..]. }
  clear M1 M2. destruct F as (F & R2 & Z2). pose proof F as [Ff (Sc & _ & Sv & Si & _) _ _].
  destruct (down_start Idle d priv dpr Hok eq_refl Hd) as (Hlf & Hdn & Hfs).
  destruct (detach_loop _ queue 0 [] d2 p2) as [[L d3] p3] eqn:Hfl. intros [= <- <-].
  eapply (detach_loop_spec (cache_size priv) d (vol priv) (content Idle priv d) (length_of Idle priv d) queue _ [] (requests dpr) [])
    in Hfl as (Hi & Hc & Hend); try done.
  - destruct Hend as [((Hdd & Hwe & _) & -> & _)|Hlo].
    + right. split; [done|]. exists d3. split; [cbn; by rewrite Hdd, lookup_insert_eq|done].
    + left. eapply down_closes; try done; [|congruence]. destruct L; [by left|by right].
  - by eapply loop_frame_helper.
  - by rewrite R2.
  - by rewrite Sv.
  - cbn. by apply Hdn.
  - by rewrite Z2.
Qed.

(** What is under the requests may move between the raw file and the flight. *)
Lemma sched_ok_under f f' priv priv' :
  sched_ok f priv -> cache_size priv' = cache_size priv -> iosched_priv priv' = iosched_priv priv -> sized priv' ->
  (forall d, chain (cache_size priv) 0 (inflight_reqs f' d)) ->
  busy_ok f' (iosched_priv priv) ->
  (forall d, under_size f' (vol priv') d = under_size f (vol priv) d /\
             forall o, under f' (vol priv') d o = under f (vol priv) d o) ->
  sched_ok f' priv' /\ same_contents f f' priv priv'.
Proof.
  intros [Hz Hfl Hb Hf] Hcs Hp Hz' Hfl' Hb' Hu. split.
  - split; rewrite ?Hp, ?Hcs; try done. intros d dpr Hd. destruct (Hf d dpr Hd) as [Hdd [F1 F2 F3]]. rewrite Hdd in *.
    destruct (Hu d) as [Hus Hub]. split; [done|]. split; rewrite ?Hdd, ?Hus; try done. by eapply ip_agree_ext.
  - intros d. destruct (Hu d) as [Hus Hub]. unfold length_of, content, requests_of. rewrite Hp, Hus. split; [done|].
    intros o. by apply view_ext.
Qed.

(** Sending one request: the raw file gets its bytes. *)
Lemma writer_send_spec d req rest priv f' priv' :
  sched_ok (Sending d (req :: rest)) priv -> writer_send (Sending d (req :: rest)) priv = (f', priv') ->
  sched_ok f' priv' /\ same_contents (Sending d (req :: rest)) f' priv priv' \/
  exists ret, ret < 0 /\ f' = Failed d ret (req_state req) (req :: rest) /\ iosched_priv priv' = iosched_priv priv.
Proof.
  intros Hok. cbn. destruct (ltfs_fsraw_write d (req_bytes req) (req_offset req) (vol priv)) as [ret v] eqn:Hw.
  destruct (Z.ltb_spec ret 0) as [Hneg|Hpos].
  { intros [= <- <-]. right. exists ret. split_and!; try done. destruct (after_perm_frame ret (priv <| vol := v |>)) as [E _]. rewrite E. done. }
  intros [= <- <-]. left. set (f := Sending d (req :: rest)). set (f' := match rest with [] => Idle | _ => Sending d rest end).
  pose proof (so_busy _ _ Hok) as [_ [dpr Hd]]. pose proof (so_flight _ _ Hok d) as Hch.
  assert (Hfd : inflight_reqs f d = req :: rest) by (cbn; by rewrite bool_decide_eq_true_2).
  assert (Hfd' : inflight_reqs f' d = rest) by (unfold f'; destruct rest; [done|]; cbn; by rewrite bool_decide_eq_true_2).
  assert (Hfo : forall d', d' <> d -> inflight_reqs f' d' = [] /\ inflight_reqs f d' = []).
  { intros d' Hne. unfold f'. split; [destruct rest; [done|]|]; cbn; by rewrite bool_decide_eq_false_2. }
  fold f in Hch. rewrite Hfd in Hch. destruct Hch as (Hlo & Hq & Hch). pose proof Hq as [? ? _].
  pose proof (req_bytes_length _ req Hq) as Hl.
  apply raw_write in Hw as [Hoth Hsame]; [|lia..]. destruct (Hsame Hpos) as [Hsz Hby]. clear Hsame.
  destruct (free_request_sized req (priv <| vol := v |>)) as [Hz Hs]; [apply Hok|done|].
  apply sched_ok_under; try done.
  - intros d'. destruct (decide (d' = d)) as [->|Hne]; [|by rewrite (proj1 (Hfo d' Hne))].
    rewrite Hfd'. apply (req_chain_weaken _ (req_end req)); [unfold req_end; lia|done].
  - unfold f'. destruct rest; [done|]. split; [done|by eexists].
  - intros d'. change (vol (_unified_free_request req (priv <| vol := v |>))) with v. unfold under_size, under.
    destruct (decide (d' = d)) as [->|Hne].
    + rewrite Hfd, Hfd', Hsz, Hl, last_end_cons. split; [unfold req_end; lia|]. intros o. cbn [view].
      destruct (covers req o) eqn:Hc.
      * rewrite (view_chain_before (cache_size priv) _ (req_end req)); [|done|unfold covers in Hc; lia].
        by rewrite Hby, (patched_req (cache_size priv)), Hc.
      * apply view_ext. by rewrite Hby, (patched_req (cache_size priv)), Hc.
    + destruct (Hfo d' Hne) as [-> ->]. destruct (Hoth d' (or_intror Hne)) as [-> Hb]. split; [done|]. intros o. apply Hb.
Qed.

Lemma drop_requests_quiet g : forall l priv l' priv',
  drop_requests g l priv = (l', priv') -> quiet priv priv'.
Proof.
  induction l as [|r l IH]; intros priv l' priv'; cbn [drop_requests]; [by intros [= <- <-]|].
  destruct (g r); [intros Hd; by apply IH in Hd|].
  destruct (drop_requests g l priv) as [l1 p1] eqn:Hd. intros [= <- <-]. by apply IH in Hd.
Qed.

Lemma unset_write_ip_quiet dpr priv dpr' priv' : _unified_unset_write_ip dpr priv = (dpr', priv') -> quiet priv priv'.
Proof.
  unfold _unified_unset_write_ip. destruct (if negb _ then _ else _) as [d1 p1] eqn:H1.
  assert (Hq : quiet priv p1).
  { destruct (negb _); [|by injection H1 as <- <-]. destruct (drop_requests _ _ priv) as [l p] eqn:Hd.
    apply drop_requests_quiet in Hd. apply membership_helper in H1 as ([_ S _ _] & _). eapply quiet_trans; [done|].
    by apply same_sched_quiet. }
  intros (_ & _ & _ & Q & _)%clear_alt_false. eapply quiet_trans; [done|]. eapply quiet_trans; [|done]. by case_match.
Qed.

(** The clean-up after a failed write keeps the error, as long as the file is
    still known to the scheduler. *)
Lemma writer_failure_spec d ret st local priv f' priv' :
  ret < 0 -> st <> REQUEST_IP -> (forall dpr, iosched_priv priv !! d = Some dpr -> dentry dpr = d) ->
  is_Some (iosched_priv priv !! d) -> writer_send (Failed d ret st local) priv = (f', priv') ->
  f' = Idle /\ latched d priv'.
Proof.
  intros Hret Hst Hkey [dpr Hd]. cbn. rewrite Hd.
  destruct (_unified_handle_write_error ret st dpr priv) as [d1 p1] eqn:He.
  apply handle_write_error_latches in He as (Hw & Hdd & Hi & _); [|done..].
  destruct (drop_requests _ local (put_dpr d1 p1)) as [l2 p2] eqn:Hdr. apply drop_requests_quiet in Hdr as (_ & Hdr & _).
  intros [= <- <-]. split; [done|]. exists d1. cbn. rewrite Hdr. cbn. rewrite Hdd, (Hkey _ Hd), lookup_insert_eq. split; [done|].
  rewrite Hw. case_bool; lia.
Qed.

(** The writer never takes a request that only waits for the index partition. *)
Lemma detach_not_ip queue : forall fuel i L dpr priv L' dpr' priv',
  Forall (fun r => is_ip r = false) L -> detach_loop fuel queue i L dpr priv = (L', dpr', priv') ->
  Forall (fun r => is_ip r = false) L'.
Proof.
  induction fuel as [|fuel IH]; intros i L dpr priv L' dpr' priv' HL; cbn [detach_loop]; [by intros [= <- <- <-]|].
  destruct (requests dpr !! i) as [req|]; [|by intros [= <- <- <-]].
  assert (Hm : forall dp pr,
    (let '(ret, _, dpr, priv) := _unified_merge_requests (match i with O => None | S j => Some j end) i None dp pr in
     detach_loop fuel queue (if ret =? 2 then i else S i) L dpr priv) = (L', dpr', priv') -> Forall (fun r => is_ip r = false) L').
  { intros dp pr. destruct (_unified_merge_requests _ _ None dp pr) as [[[? ?] ?] ?]. by apply IH. }
  destruct (is_ip req) eqn:Hip; [apply Hm|]. destruct (_ || _); [|by apply IH].
  destruct (write_ip dpr); [|apply IH; apply Forall_app; split; [done|by constructor]].
  destruct (ltfs_fsraw_write _ _ _ _) as [ret v]. destruct (ret <? 0).
  - destruct (_unified_handle_write_error _ _ _ _). by intros [= <- <- <-].
  - destruct (_unified_update_queue_membership _ _ _ _ _). apply Hm.
Qed.

Lemma send_all_spec d : forall l fuel priv,
  sched_ok (Sending d l) priv -> Forall (fun r => is_ip r = false) l -> (length l < fuel)%nat ->
  let priv' := send_all fuel (Sending d l) priv in
  sched_ok Idle priv' /\ same_contents (Sending d l) Idle priv priv' \/ latched d priv'.
Proof.
  induction l as [|req rest IH]; intros fuel priv Hok Hnip Hfuel; [by destruct (so_busy _ _ Hok)|].
  destruct fuel as [|fuel]; [lia|]. cbn in Hfuel. cbn [send_all].
  destruct (writer_send (Sending d (req :: rest)) priv) as [f1 p1] eqn:Hs. pose proof Hs as Hs'.
  apply Forall_cons in Hnip as [Hr Hnip]. pose proof (so_busy _ _ Hok) as [_ [dpr Hd]].
  apply writer_send_spec in Hs as [[Hok1 Hc1]|(ret & Hret & -> & Hi)]; [| |done].
  - cbn in Hs'. destruct (ltfs_fsraw_write _ _ _ _) as [ret v]. destruct (ret <? 0); [injection Hs' as <- _; by destruct (so_busy _ _ Hok1)|].
    injection Hs' as Hf1 _. destruct rest as [|r2 rest]; rewrite <- Hf1 in *.
    + left. destruct fuel; done.
    + destruct (IH fuel p1 Hok1 Hnip ltac:(lia)) as [[? ?]|?]; [left|by right]. split; [done|].
      by eapply same_contents_trans.
  - destruct fuel as [|fuel]; [lia|]. cbn [send_all].
    destruct (writer_send (Failed d ret (req_state req) (req :: rest)) p1) as [f2 p2] eqn:Hs2.
    apply writer_failure_spec in Hs2 as [-> Hl]; [|done|by apply not_ip_state| |rewrite Hi; by eexists].
    + right. by destruct fuel.
    + rewrite Hi. intros dpr' Hd'. by apply (so_files _ _ Hok).
Qed.

(** C23: the background writer loses nothing silently when it is not interrupted.  After it has
    taken the requests of a file and sent them to the tape, with no other call between
    these steps, every file reads as before and
    the scheduler is in order; or a write failed, and then the error is kept
    with the file, where the next write, flush or close of it finds it.  (A close
    between the failed write and the clean-up misses the error:
    [close_misses_write_error].) *)
Theorem writer_loses_nothing_silently queue d priv f priv1 :
  sched_ok Idle priv -> writer_detach queue d priv = (f, priv1) ->
  let priv' := send_all (match f with Sending _ l => 2 + length l | _ => 0 end)%nat f priv1 in
  sched_ok Idle priv' /\ same_contents Idle Idle priv priv' \/
  exists dpr, iosched_priv priv' !! d = Some dpr /\ write_error dpr <> 0.
Proof.
  intros Hok Hdt. pose proof Hdt as [[Hok1 Hc1]|[-> Hl]]%writer_detach_spec; [|by right|done]. unfold writer_detach in Hdt.
  destruct f as [|d' l|]; [by left| |by destruct (so_busy _ _ Hok1)].
  destruct (iosched_priv priv !! d) as [dpr|]; [|done]. repeat destruct (_unified_update_queue_membership _ _ _ _ _).
  destruct (if state_eqb queue REQUEST_PARTIAL then _ else _) as [d2 p2].
  destruct (detach_loop _ queue 0 [] d2 p2) as [[L d3] p3] eqn:Hfl. injection Hdt as Hf Hp. apply detach_not_ip in Hfl; [|done].
  destruct L as [|x L]; [done|]. injection Hf as <- <-.
  destruct (send_all_spec d (x :: L) (2 + length (x :: L)) priv1 Hok1 Hfl ltac:(lia)) as [[? ?]|?]; [left|by right].
  split; [done|]. by eapply same_contents_trans.
Qed.

(** ** Truncation *)

(** The requests below [n], the last of them cut there. *)
Record cut_at (cs n : Z) (l k : list write_request) : Prop := {
  ct_chain : chain cs 0 k;
  ct_below : last_end k <= n;
  ct_view raw o : o < n -> view raw k o = view raw l o;
  ct_from : Forall (fun x => exists y, y ∈ l /\ is_ip x = is_ip y /\ req_end x <= n /\
    req_offset x = req_offset y /\ req_end x <= req_end y /\ write_cache x = write_cache y) k;
}.

Lemma req_chain_snoc cs lo l r :
  chain cs lo (l ++ [r]) <-> chain cs lo l /\ chain_end lo l <= req_offset r /\ req_ok cs r.
Proof. rewrite req_chain_app. cbn. tauto. Qed.

Lemma last_end_chain cs l : chain cs 0 l -> last_end l = chain_end 0 l.
Proof. intros Hc. destruct l; [done|]. by apply (chain_last_end cs). Qed.

Lemma cut_at_whole cs n l : chain cs 0 l -> chain_end 0 l <= n -> 0 <= n -> cut_at cs n l l.
Proof.
  intros Hc He Hn. split; try done; [by rewrite (last_end_chain cs)|].
  apply Forall_forall. intros x Hx. exists x. pose proof (chain_ends cs 0 l x Hc Hx). split_and!; try done; lia.
Qed.

Lemma truncate_requests_spec cs n : 0 <= n -> forall l dpr priv l' dpr' priv',
  chain cs 0 l -> sized priv -> cache_size priv = cs ->
  truncate_requests n (reverse l) dpr priv = (l', dpr', priv') ->
  cut_at cs n l (reverse l') /\ same_file dpr dpr' /\ file_size dpr' = file_size dpr /\
  sized priv' /\ same_sched priv priv'.
Proof.
  intros Hn l. induction l as [|req l IH] using rev_ind; intros dpr priv l' dpr' priv' Hch Hz Hcs.
  { intros [= <- <- <-]. split_and!; try done; by apply cut_at_whole. }
  rewrite reverse_snoc. cbn [truncate_requests]. pose proof Hch as (Hl & Ho & Hok)%req_chain_snoc. pose proof Hok as [? ? _].
  destruct (Z.leb_spec n (req_offset req)) as [Hle|Hgt]; [|destruct (Z.ltb_spec n (req_end req)) as [Hlt|Hge]].
  - destruct (_unified_update_queue_membership false false (req_state req) dpr priv) as [d1 p1] eqn:M.
    apply membership_helper in M as ([F1 S1 P1 _] & R1 & Z1). pose proof S1 as (Sc & _).
    destruct (free_request_sized req p1) as [Hz2 Hs2]; [by apply (sized_same priv)|by rewrite Sc, Hcs|].
    intros ([C1 C2 C3 C4] & F2 & Z2 & Hz3 & S3)%IH; [|done|done|destruct Hs2 as (-> & _); congruence].
    split_and!; [|by eapply same_file_trans|congruence|done|].
    + split; try done.
      * intros raw o Hlo. rewrite C3 by done. rewrite view_app. apply view_ext. cbn. replace (covers req o) with false; [done|].
        unfold covers. lia.
      * eapply Forall_impl; [exact C4|]. intros x (y & Hy & Hrest). exists y. split; [|done]. apply elem_of_app. by left.
    + eapply same_sched_trans; [done|]. by eapply same_sched_trans.
  - destruct (truncate_requests n (reverse l) dpr priv) as [[l1 d1] p1] eqn:Ht. intros [= <- <- <-].
    set (req' := req <| req_count := n - req_offset req |>).
    assert (Hl1 : l1 = reverse l /\ d1 = dpr /\ p1 = priv).
    { destruct l as [|x0 l0] using rev_ind; [by injection Ht as <- <- <-|]. rewrite reverse_snoc in *. cbn [truncate_requests] in Ht.
      apply req_chain_snoc in Hl as (_ & _ & [? ? _]). rewrite chain_end_app in Ho. cbn [chain_end] in Ho. unfold req_end in *.
      replace (n <=? req_offset x0) with false in Ht by lia.
      replace (n <? req_offset x0 + req_count x0) with false in Ht by lia. by injection Ht as <- <- <-. }
    destruct Hl1 as (-> & -> & ->). rewrite reverse_cons, reverse_involutive.
    assert (He : req_end req' = n) by (unfold req_end, req'; cbn; lia). unfold req_end in Hlt.
    split_and!; try done. split.
    + apply req_chain_snoc. split_and!; try done. destruct Hok. split; cbn; lia.
    + autorewrite with ends. rewrite He, (last_end_chain cs) by done. change (last_end []) with 0. lia.
    + intros raw o Hlo. rewrite !view_app. apply view_ext. cbn [view]. unfold covers, req_byte. rewrite He. cbn.
      unfold req_end. replace (o <? n) with true by lia. by replace (o <? req_offset req + req_count req) with true by lia.
    + apply Forall_app. split.
      * apply Forall_forall. intros x Hx. exists x. pose proof (chain_ends cs 0 l x Hl Hx). split_and!; try done; try lia.
        apply elem_of_app. by left.
      * constructor; [|done]. exists req. split_and!; try done; [apply elem_of_app; right; by apply list_elem_of_singleton|lia|].
        rewrite He. unfold req_end. lia.
  - intros [= <- <- <-]. rewrite <- reverse_snoc, reverse_involutive. split_and!; try done.
    apply cut_at_whole; try done. rewrite chain_end_app. cbn. lia.
Qed.

(** One file and its part of the volume are replaced. *)
Lemma sched_ok_replace f d priv dpr dpr' priv' :
  sched_ok f priv -> iosched_priv priv !! d = Some dpr -> iosched_priv priv' = <[d := dpr']> (iosched_priv priv) ->
  cache_size priv' = cache_size priv -> sized priv' -> dentry dpr' = d ->
  (forall d', d' <> d -> d_size (vol priv') d' = d_size (vol priv) d' /\
                         forall o, raw_byte (vol priv') d' o = raw_byte (vol priv) d' o) ->
  file_ok (cache_size priv) f (vol priv') dpr' ->
  sched_ok f priv' /\
  (forall d', d' <> d -> length_of f priv' d' = length_of f priv d' /\ forall o, content f priv' d' o = content f priv d' o) /\
  length_of f priv' d = file_size dpr' /\
  (forall o, content f priv' d o = view (under f (vol priv') d) (requests dpr') o).
Proof.
  intros [Hz Hfl Hb Hf] Hd Hi Hc Hz' Hdd Ho Hfo.
  assert (Hu : forall d', d' <> d -> under_size f (vol priv') d' = under_size f (vol priv) d' /\
                                     forall o, under f (vol priv') d' o = under f (vol priv) d' o).
  { intros d' Hne. unfold under_size, under. destruct (Ho d' Hne) as [-> Hby]. split; [done|]. intros o. by apply view_ext. }
  split_and!.
  - split; rewrite ?Hc, ?Hi; try done.
    + by apply busy_insert.
    + intros d1 dpr1. destruct (decide (d1 = d)) as [->|Hne]; [rewrite lookup_insert_eq; by intros [= <-]|].
      rewrite lookup_insert_ne by done. intros Hd1. destruct (Hf d1 dpr1 Hd1) as [E [F1 F2 F3]]. rewrite E in *.
      destruct (Hu d1 Hne) as [Hus Hub]. split; [done|]. split; rewrite ?E, ?Hus; try done. by eapply ip_agree_ext.
  - intros d' Hne. destruct (Hu d' Hne) as [Hus Hub]. unfold length_of, content, requests_of.
    rewrite Hi, lookup_insert_ne, Hus by done. split; [done|]. intros o. by apply view_ext.
  - unfold length_of. by rewrite Hi, lookup_insert_eq.
  - unfold content, requests_of. by rewrite Hi, lookup_insert_eq.
Qed.

(** Without requests the raw file is the content. *)
Lemma sched_ok_raw f d priv v' :
  sched_ok f priv -> iosched_priv priv !! d = None ->
  (forall d', d' <> d -> d_size v' d' = d_size (vol priv) d' /\ forall o, raw_byte v' d' o = raw_byte (vol priv) d' o) ->
  let priv' := priv <| vol := v' |> in
  sched_ok f priv' /\
  (forall d', d' <> d -> length_of f priv' d' = length_of f priv d' /\ forall o, content f priv' d' o = content f priv d' o) /\
  length_of f priv' d = d_size v' d /\ (forall o, content f priv' d o = raw_byte v' d o).
Proof.
  intros Hok Hd Ho priv'. pose proof (no_flight f priv d Hok Hd) as Hnf. destruct Hok as [Hz Hfl Hb Hf].
  assert (Hu : forall d', d' <> d -> under_size f v' d' = under_size f (vol priv) d' /\
                                     forall o, under f v' d' o = under f (vol priv) d' o).
  { intros d' Hne. unfold under_size, under. destruct (Ho d' Hne) as [-> Hby]. split; [done|]. intros o. by apply view_ext. }
  destruct (under_idle f v' d Hnf) as [Hsz Hraw]. split_and!.
  - split; try done. cbn. intros d1 dpr1 Hd1. destruct (Hf d1 dpr1 Hd1) as [E [F1 F2 F3]]. rewrite E in *.
    assert (Hne : d1 <> d) by (intros ->; congruence). destruct (Hu d1 Hne) as [Hus Hub].
    split; [done|]. split; rewrite ?E, ?Hus; try done. by eapply ip_agree_ext.
  - intros d' Hne. destruct (Hu d' Hne) as [Hus Hub]. unfold length_of, content, requests_of. cbn. rewrite Hus.
    split; [done|]. intros o. by apply view_ext.
  - unfold length_of. cbn. by rewrite Hd, Hsz.
  - unfold content, requests_of. cbn. by rewrite Hd.
Qed.

(** The placement changes nothing a reader sees. *)
Lemma set_write_ip_spec dpr priv dpr' priv' :
  _unified_set_write_ip dpr priv = (dpr', priv') ->
  dentry dpr' = dentry dpr /\ requests dpr' = requests dpr /\ file_size dpr' = file_size dpr /\
  quiet priv priv' /\ cpool priv' = cpool priv.
Proof. unfold _unified_set_write_ip. intros [= <- <-]. by case_bool. Qed.

Lemma placement_spec f v dpr priv (to_ip from_ip : bool) dpr' priv' :
  sized priv -> file_ok (cache_size priv) f v dpr ->
  (if to_ip then _unified_set_write_ip dpr priv
   else if from_ip then _unified_unset_write_ip dpr priv else (dpr, priv)) = (dpr', priv') ->
  dentry dpr' = dentry dpr /\ file_size dpr' = file_size dpr /\ file_ok (cache_size priv) f v dpr' /\
  (forall o, view (under f v (dentry dpr)) (requests dpr') o = view (under f v (dentry dpr)) (requests dpr) o) /\
  quiet priv priv' /\ sized priv'.
Proof.
  intros Hz Hfo. destruct to_ip.
  { intros (E1 & E2 & E3 & Q & P)%set_write_ip_spec. destruct Hfo as [F1 F2 F3].
    split_and!; try done; [split; by rewrite ?E1, ?E2, ?E3|by rewrite E2|apply (sized_same priv); try done; apply Q]. }
  destruct from_ip; [|by intros [= <- <-]].
  intros (? & ? & ? & ? & _ & ? & ?)%(unset_write_ip_spec f v); done.
Qed.

Lemma update_data_placement_spec f d priv r priv' :
  sched_ok f priv -> unified_update_data_placement d priv = (r, priv') ->
  r = 0 /\ sched_ok f priv' /\ same_contents f f priv priv'.
Proof.
  intros Hok. unfold unified_update_data_placement. destruct (iosched_priv priv !! d) as [dpr|] eqn:Hd; [|by intros [= <- <-]].
  cbv zeta. match goal with |- context [if ?a then _ else if ?b then _ else _] => destruct (if a then _ else if b then _ else (dpr, priv)) as [d1 p1] eqn:Hp end.
  intros [= <- <-]. split; [done|]. destruct (so_files _ _ Hok _ _ Hd) as [Hdd Hfo].
  apply (placement_spec f (vol priv)) in Hp as (E1 & E2 & Hfo1 & Hv & (Qc & Qi & Qv) & Hz); [|apply Hok|done].
  destruct (sched_ok_replace f d priv dpr d1 (put_dpr d1 p1)) as (Hok' & Ho & Hl & Hc); try done.
  - cbn. by rewrite E1, Hdd, Qi.
  - congruence.
  - cbn. by rewrite Qv.
  - cbn. by rewrite Qv.
  - split; [done|]. intros d'. destruct (decide (d' = d)) as [->|Hne]; [|by apply Ho]. rewrite Hl. split; [unfold length_of; by rewrite Hd|].
    intros o. rewrite Hc. cbn. rewrite Qv. rewrite Hdd in Hv. rewrite Hv. unfold content, requests_of. by rewrite Hd.
Qed.

(** The requests of the file that are left by a truncation. *)
Lemma cut_file_ok f d len priv dpr l v' :
  sched_ok f priv -> inflight_reqs f d = [] -> iosched_priv priv !! d = Some dpr ->
  cut_at (cache_size priv) len (requests dpr) l -> d_size v' d = len ->
  (forall o, raw_byte v' d o = if o <? len then raw_byte (vol priv) d o else Some 0) ->
  ip_agree (under f v' d) (under_size f v' d) l /\ Z.max (under_size f v' d) (last_end l) = len /\
  (forall o, view (under f v' d) l o = if o <? len then content f priv d o else Some 0).
Proof.
  intros Hok Hnf Hd [C1 C2 C3 C4] Hsz Hby. destruct (so_files _ _ Hok _ _ Hd) as [Hdd [F1 F2 F3]]. rewrite Hdd in *.
  destruct (under_idle f (vol priv) d Hnf) as [Hs0 Hr0]. destruct (under_idle f v' d Hnf) as [Hs1 Hr1]. rewrite Hs1, Hsz.
  split_and!; [|lia|].
  - unfold ip_agree in *. rewrite Forall_forall in *. intros x Hx Hip. destruct (C4 x Hx) as (y & Hy & Ei & Hn & Eo & He & Ec).
    destruct (F2 y Hy ltac:(congruence)) as [_ Hag]. split; [lia|]. intros o Ho. unfold covers in Ho. bsplit.
    rewrite Hr1, Hby. replace (o <? len) with true by lia. rewrite <- Hr0, Hag by (unfold covers; lia).
    unfold req_byte. by rewrite Eo, Ec.
  - intros o. destruct (Z.ltb_spec o len) as [Hlt|Hge].
    + rewrite C3 by done. unfold content, requests_of. rewrite Hd. apply view_ext. rewrite Hr0, Hr1, Hby.
      by replace (o <? len) with true by lia.
    + rewrite (view_chain_after (cache_size priv) _ 0); [|done|rewrite <- (last_end_chain (cache_size priv)) by done; lia].
      rewrite Hr1, Hby. by replace (o <? len) with false by lia.
Qed.

Definition truncated f d len priv priv' : Prop :=
  sched_ok f priv' /\
  (forall d', d' <> d -> length_of f priv' d' = length_of f priv d' /\ forall o, content f priv' d' o = content f priv d' o) /\
  length_of f priv' d = len /\
  (forall o, content f priv' d o = if o <? len then content f priv d o else Some 0).

Lemma truncate_spec f d len priv r priv' :
  sched_ok f priv -> inflight_reqs f d = [] -> 0 <= len -> unified_truncate d len priv = (r, priv') -> 0 <= r ->
  truncated f d len priv priv'.
Proof.
  intros Hok Hnf Hlen. unfold unified_truncate. destruct (_ <? 0) eqn:Hro; [intros [= <- <-]; bsplit; lia|]. clear Hro.
  destruct (iosched_priv priv !! d) as [dpr|] eqn:Hd; cycle 1.
  { destruct (ltfs_fsraw_truncate d len (vol priv)) as [r1 v'] eqn:Ht. intros [= <- <-] Hr.
    apply raw_truncate in Ht as [Ho Hs]; [|done]. destruct (Hs Hr) as [Hsz Hby].
    destruct (sched_ok_raw f d priv v' Hok Hd) as (A1 & A2 & A3 & A4); [intros; apply Ho; by right|].
    split_and!; try done; [by rewrite A3|]. intros o. rewrite A4, Hby. destruct (under_idle f (vol priv) d Hnf) as [_ Hr0].
    unfold content, requests_of. rewrite Hd. cbn. by rewrite Hr0. }
  destruct (so_files _ _ Hok _ _ Hd) as [Hdd [F1 F2 F3]]. pose proof (so_sized _ _ Hok) as Hz.
  destruct (if len <? file_size dpr then _ else (dpr, priv)) as [d1 p1] eqn:Hcut.
  assert (Hd1 : cut_at (cache_size priv) len (requests dpr) (requests d1) /\ dentry d1 = d /\ sized p1 /\ quiet priv p1).
  { destruct (Z.ltb_spec len (file_size dpr)).
    - destruct (truncate_requests len (reverse (requests dpr)) dpr priv) as [[l2 d2] p2] eqn:Ht. injection Hcut as <- <-.
      eapply truncate_requests_spec in Ht as (Hc & (E & _) & _ & Hz2 & Hs2); try done.
      split_and!; try done; [cbn; congruence|by apply same_sched_quiet].
    - injection Hcut as <- <-. split_and!; try done. apply cut_at_whole; try done.
      rewrite <- (last_end_chain (cache_size priv)) by done. lia. }
  clear Hcut. destruct Hd1 as (Hc1 & Hdd1 & Hz1 & Q1c & Q1i & Q1v). set (d2 := d1 <| file_size := len |>). cbv zeta.
  match goal with |- context [if ?a then _unified_set_write_ip d2 p1 else if ?b then _ else _] =>
    destruct (if a then _unified_set_write_ip d2 p1 else if b then _ else (d2, p1)) as [d3 p3] eqn:Hp end.
  destruct (ltfs_fsraw_truncate d len (vol (put_dpr d3 p3))) as [r1 v'] eqn:Ht. intros [= <- <-] Hr.
  assert (Hq3 : quiet p1 p3).
  { destruct (_ && negb (d_deleted _ _)) in Hp; [by apply set_write_ip_spec in Hp as (_ & _ & _ & ? & _)|].
    destruct (_ && _) in Hp; [by apply unset_write_ip_quiet in Hp|by injection Hp as <- <-]. }
  destruct Hq3 as (Q3c & Q3i & Q3v). cbn in Ht. rewrite Q3v, Q1v in Ht. apply raw_truncate in Ht as [Ho Hs]; [|done].
  destruct (Hs Hr) as [Hsz Hby]. destruct (cut_file_ok f d len priv dpr (requests d1) v' Hok Hnf Hd Hc1 Hsz Hby) as (G1 & G2 & G3).
  apply (placement_spec f v') in Hp as (E1 & E2 & Hfo3 & Hv3 & _ & Hz3); [|done|split; cbn; rewrite ?Q1c, ?Hdd1; try done; apply Hc1].
  cbn in E1, E2, Hv3. rewrite Hdd1 in Hv3.
  destruct (sched_ok_replace f d priv dpr d3 ((put_dpr d3 p3) <| vol := v' |>)) as (Hok' & Ho' & Hl' & Hc'); try done.
  - cbn. by rewrite E1, Hdd1, Q3i, Q1i.
  - cbn. congruence.
  - congruence.
  - cbn. intros d' Hne. apply Ho. by right.
  - cbn. by rewrite <- Q1c.
  - split_and!; try done; [congruence|]. intros o. rewrite Hc'. cbn. rewrite Hv3. apply G3.
Qed.

(** C24: truncation through the scheduler.  A [unified_truncate] that succeeds
    leaves the file with exactly [len] bytes: the old ones below [len], zeros
    from the old end on, although part of the old bytes were in requests that
    had not reached the raw file.  No other file changes. *)
Theorem unified_truncate_cuts_content f d len priv r priv' :
  sched_ok f priv -> inflight_reqs f d = [] -> 0 <= len -> unified_truncate d len priv = (r, priv') -> 0 <= r ->
  sched_ok f priv' /\
  (forall d', d' <> d -> length_of f priv' d' = length_of f priv d' /\ forall o, content f priv' d' o = content f priv d' o) /\
  length_of f priv' d = len /\
  (forall o, content f priv' d o = if o <? len then content f priv d o else Some 0).
Proof. apply truncate_spec. Qed.

(** ** Closing *)

Lemma raw_calls_same d v v' :
  v' = ltfs_fsraw_put_dentry d v \/ v' = ltfs_fsraw_close d v -> files_same v v'.
Proof. intros Hv d'. apply (raw_dentry d). tauto. Qed.

(** A file without requests may be forgotten. *)
Lemma free_conditional_spec f d n priv :
  sched_ok f priv -> inflight_reqs f d = [] ->
  let priv' := _unified_free_dentry_priv_conditional d n priv in sched_ok f priv' /\ same_contents f f priv priv'.
Proof.
  intros Hok Hnf. cbv zeta. unfold _unified_free_dentry_priv_conditional.
  destruct (iosched_priv priv !! d) as [dpr|] eqn:Hd; [|done]. destruct (requests dpr) eqn:Hq; [|done].
  destruct (alt_extentlist dpr); [|done]. destruct (_ <=? n); [|done].
  set (v := ltfs_fsraw_put_dentry d (vol priv)). assert (Hv : files_same (vol priv) v) by (apply (raw_calls_same d); by left).
  destruct Hok as [Hz Hfl Hb Hf]. destruct (Hf _ _ Hd) as [Hdd [F1 F2 F3]]. rewrite Hdd, Hq in *.
  change (last_end []) with 0 in F3. split.
  - split; try done; cbn.
    + destruct f as [|d1 l|]; try done. destruct Hb as [Hl Hb]. split; [done|].
      rewrite lookup_delete_ne; [done|]. intros <-. cbn in Hnf. by rewrite bool_decide_eq_true_2 in Hnf.
    + intros d1 dpr1 [Hne Hd1]%lookup_delete_Some. destruct (Hf d1 dpr1 Hd1). split; [done|]. by apply (file_ok_same _ _ (vol priv)).
  - intros d1. unfold length_of, content, requests_of. cbn. destruct (decide (d1 = d)) as [->|Hne].
    + rewrite lookup_delete_eq, Hd, Hq. cbn. rewrite (under_size_same f (vol priv) v) by done.
      split; [|intros o; by apply under_same]. rewrite <- F3. unfold under_size in *. pose proof (raw_size_nonneg (vol priv) d). lia.
    + rewrite lookup_delete_ne by done. rewrite (under_size_same f (vol priv) v) by done. split; [done|]. intros o. apply view_ext. by apply under_same.
Qed.

Lemma close_spec f d flush priv r priv' :
  sched_ok f priv -> inflight_reqs f d = [] -> unified_close d flush priv = (r, priv') -> r = 0 ->
  sched_ok f priv' /\ same_contents f f priv priv'.
Proof.
  intros Hok Hnf. unfold unified_close.
  destruct (if flush then _ else (0, priv)) as [r1 p1] eqn:Hfl.
  assert (H1 : r1 = 0 -> sched_ok f p1 /\ same_contents f f priv p1).
  { destruct flush; [|injection Hfl as <- <-; by split]. apply (flush_unlocked_spec f) in Hfl as (_ & _ & Hz); [|done..].
    intros E. by destruct (Hz E) as (? & ? & _). }
  destruct (match iosched_priv p1 !! d with Some _ => _ | None => _ end) as [e p2] eqn:He. intros [= <- <-] Hr.
  assert (r1 = 0) as -> by (destruct (Z.eqb_spec r1 0); cbn in Hr; lia). destruct (H1 eq_refl) as [Hok1 Hs1].
  assert (H2 : sched_ok f p2 /\ same_contents f f p1 p2).
  { destruct (iosched_priv p1 !! d) as [dpr|] eqn:Hd; [|by injection He as <- <-]. injection He as <- <-.
    destruct (so_files _ _ Hok1 _ _ Hd) as [Hdd [F1 F2 F3]].
    destruct (sched_ok_put f p1 d dpr (dpr <| write_error := 0 |>)) as (Ha & Hb & Hl & Hv); try done.
    split; [done|]. intros d'. destruct (decide (d' = d)) as [->|Hne]; [|by apply Hb].
    unfold length_of at 2, content at 2, requests_of. rewrite Hd. by split. }
  destruct H2 as [Hok2 Hs2]. destruct (free_conditional_spec f d 3 p2 Hok2 Hnf) as [Hok3 Hs3].
  set (p3 := _unified_free_dentry_priv_conditional d 3 p2) in *.
  destruct (sched_ok_frame f p3 (p3 <| vol := ltfs_fsraw_close d (vol p3) |>)) as [Hok4 Hs4]; try done;
    [apply (raw_calls_same d); by right|apply Hok3|]. split; [done|].
  eapply same_contents_trans; [done|]. eapply same_contents_trans; [done|]. by eapply same_contents_trans.
Qed.
End writer.
