(* ===== verification/UnifiedIndex.v ===== *)
(** * The unified scheduler: the queue of the index partition

    The background writer takes the requests that wait for the index partition,
    writes their bytes there and notes the new extents.  Readers do not notice: the
    raw file has the same bytes on the data partition. *)

From S2P Require Import Prelude Bytes LtfsError Extents CacheManager Unified UnifiedReqs UnifiedWrite UnifiedProps UnifiedFlush UnifiedWriter.

(** [ltfs_fsraw_write_data] appends blocks to a partition; files are extents, and it
    changes none of them. *)
Class RawDataLaws (V : Type) `{RawLaws V} := {
  raw_write_data buf v r v' : ltfs_fsraw_write_data buf v = (r, v') -> files_same v v';
}.

Section index_queue.
Context {V : Type} `{RawDataLaws V}.
Context (host : host_oracle).
Implicit Types (priv : unified_data V) (dpr : dentry_priv).

(** No write to the index partition fails, and no allocation of an extent. *)
Fixpoint index_clean (rest : list write_request) dpr priv : bool :=
  match rest with
  | [] => true
  | req :: rest =>
      if is_ip req then
        calloc_ok host (now priv) &&
        match ltfs_fsraw_write_data (req_bytes req) (vol priv) with
        | (inl _, _) => false
        | (inr block, v) =>
            let ext := mk_extent block (ltfs_ip_id v) 0 (req_count req) (req_offset req) in
            let '(dpr, priv) := _unified_update_alt_extentlist ext dpr ((tick priv) <| vol := v |>) in
            index_clean rest dpr (_unified_free_request req priv)
        end
      else index_clean rest dpr priv
  end.

Definition index_file_clean (d : nat) priv : bool :=
  match iosched_priv priv !! d with
  | None => true
  | Some dpr =>
      let '(dpr, priv) := _unified_update_queue_membership false true REQUEST_IP dpr priv in
      index_clean (requests dpr) dpr priv
  end.

Fixpoint index_queue_clean (queue : list nat) priv : bool :=
  match queue with
  | [] => true
  | d :: queue => index_file_clean d priv && index_queue_clean queue (process_index_file host d priv)
  end.

Lemma drop_requests_list : forall l priv, fst (drop_requests is_ip l priv) = List.filter (fun r => negb (is_ip r)) l.
Proof.
  induction l as [|r l IH]; intros priv; cbn; [done|]. destruct (is_ip r); cbn; [apply IH|].
  specialize (IH priv). destruct (drop_requests is_ip l priv). cbn in *. by rewrite IH.
Qed.

Lemma update_alt_frame ext dpr priv dpr' priv' : _unified_update_alt_extentlist ext dpr priv = (dpr', priv') ->
  dentry dpr' = dentry dpr /\ requests dpr' = requests dpr /\ file_size dpr' = file_size dpr /\ quiet priv priv' /\ cpool priv' = cpool priv.
Proof.
  unfold _unified_update_alt_extentlist. destruct (alt_extentlist dpr); [by intros [= <- <-]|].
  destruct (alt_insert _ _ _ _) as [l1 used]. by intros [= <- <-].
Qed.

(** The loop takes exactly the requests for the index partition. *)
Lemma index_loop_spec : forall rest done dpr priv dpr' priv',
  Forall (req_ok (cache_size priv)) rest -> sized priv -> index_clean rest dpr priv = true ->
  index_loop host rest done dpr priv = (dpr', priv') ->
  requests dpr' = done ++ List.filter (fun r => negb (is_ip r)) rest /\ dentry dpr' = dentry dpr /\ file_size dpr' = file_size dpr /\
  sized priv' /\ cache_size priv' = cache_size priv /\ iosched_priv priv' = iosched_priv priv /\ files_same (vol priv) (vol priv').
Proof.
  induction rest as [|req rest IH]; intros done dpr priv dpr' priv' Hok Hz Hcl; cbn [index_loop].
  { intros [= <- <-]. cbn. by rewrite app_nil_r. }
  apply Forall_cons in Hok as [Hr Hok]. cbn [index_clean] in Hcl. cbn [List.filter]. destruct (is_ip req); cbn [negb].
  - apply andb_true_iff in Hcl as [-> Hcl]. cbn [negb]. change (vol (tick priv)) with (vol priv).
    destruct (ltfs_fsraw_write_data (req_bytes req) (vol priv)) as [[ret|blk] v] eqn:Hw; [done|]. apply raw_write_data in Hw.
    destruct (_unified_update_alt_extentlist _ dpr _) as [d1 p1] eqn:Ha.
    apply update_alt_frame in Ha as (Ed & _ & Ez & (Qc & Qi & Qv) & Qp). cbn in Qc, Qi, Qv, Qp.
    assert (Hz1 : sized p1) by by apply (sized_same priv).
    destruct (free_request_sized req p1 Hz1) as [Hz2 Hs2]; [by rewrite Qc|]. pose proof Hs2 as (Sc & _ & Sv & Si & _).
    intros (R & D & F & Z' & C' & I' & V')%IH; [|rewrite Sc, Qc; done|done|done].
    split_and!; [done|congruence|congruence|done|congruence|congruence|].
    eapply files_same_trans; [exact Hw|]. by rewrite Sv, Qv in V'.
  - intros (R & ? & ? & ? & ? & ? & ?)%IH; [|done..]. split_and!; try done. by rewrite R, <- app_assoc.
Qed.

Lemma process_index_file_spec f d priv :
  sched_ok f priv -> inflight_reqs f d = [] -> index_file_clean d priv = true ->
  let priv' := process_index_file host d priv in sched_ok f priv' /\ same_contents f f priv priv'.
Proof.
  intros Hok Hnf Hcl. cbv zeta. unfold index_file_clean, process_index_file in *. destruct (iosched_priv priv !! d) as [dpr|] eqn:Hd; [|done].
  destruct (so_files _ _ Hok _ _ Hd) as [Hdd [F1 F2 F3]].
  destruct (_unified_update_queue_membership false true REQUEST_IP dpr priv) as [d1 p1] eqn:M.
  apply membership_helper in M as ([(E1 & _) S1 P1 _] & R1 & Z1). pose proof S1 as (Sc & _ & Sv & Si & _). cbn in E1.
  assert (Hz1 : sized p1) by (apply (sized_same priv); [apply S1|done|apply Hok]).
  destruct (index_loop host (requests d1) [] d1 p1) as [d2 p2] eqn:Hl.
  apply index_loop_spec in Hl as (R2 & D2 & Z2 & Hz2 & C2 & I2 & V2); [|rewrite R1, Sc; by eapply chain_ok|done|done].
  rewrite R1 in R2. cbn [app] in R2. rewrite <- (drop_requests_list (requests dpr) priv) in R2.
  destruct (drop_requests is_ip (requests dpr) priv) as [l p] eqn:Hdr. cbn in R2.
  eapply drop_ip_spec in Hdr as (Hch & Hag & Hv & Hle & _); [|done|done|done|apply Hok|done].
  rewrite Sv in V2. assert (Hdd2 : dentry d2 = d) by congruence.
  assert (Hfo : file_ok (cache_size priv) f (vol p2) d2).
  { apply (file_ok_same _ _ (vol priv)); [done|]. rewrite Hdd in *. split; rewrite ?Hdd2, ?R2; try done. congruence. }
  destruct (sched_ok_replace f d priv dpr d2 (put_dpr d2 p2)) as (Hok' & Ho & Hlen & Hcont);
    [done|done|cbn; by rewrite Hdd2, I2, Si|cbn; congruence|done|done|intros d' _; apply V2|done|].
  assert (Hsame : same_contents f f priv (put_dpr d2 p2)).
  { intros d'. destruct (decide (d' = d)) as [->|Hne]; [|by apply Ho]. rewrite Hlen. unfold length_of at 1, content at 2, requests_of. rewrite Hd.
      split; [congruence|]. intros o. rewrite Hcont, R2. change (vol (put_dpr d2 p2)) with (vol p2).
      rewrite (view_raw_ext (under f (vol p2) d) (under f (vol priv) d)) by (intros ?; by apply under_same). rewrite <- Hdd. apply Hv. }
  destruct (free_conditional_spec f d 2 (put_dpr d2 p2) Hok' Hnf) as [Hok3 Hs3]. split; [done|]. by eapply same_contents_trans.
Qed.

Lemma index_queue_spec : forall queue priv, sched_ok Idle priv -> index_queue_clean queue priv = true ->
  let priv' := foldl (fun priv d => process_index_file host d priv) priv queue in
  sched_ok Idle priv' /\ same_contents Idle Idle priv priv'.
Proof.
  induction queue as [|d queue IH]; intros priv Hok Hcl; cbv zeta; cbn [foldl]; [by split|].
  cbn in Hcl. apply andb_true_iff in Hcl as [Hd Hq].
  destruct (process_index_file_spec Idle d priv Hok eq_refl Hd) as [Hok1 Hs1]. destruct (IH _ Hok1 Hq) as [Hok2 Hs2].
  split; [done|]. by eapply same_contents_trans.
Qed.
End index_queue.
