(* ===== verification/UnifiedRefine.v ===== *)
(** * The unified scheduler implements plain files

    The abstract specification is a set of files, each with a length and bytes;
    writes and truncations change one file at once, reads return its bytes.
    [sched_step] is one step of the scheduler as the program takes it: a call, a
    writer that goes on after it waited for a cache block, or a step of the
    background writer between two calls.  The steps are those without an error;
    [UnifiedFlush] and [UnifiedWriter] have what errors do.  The refinement says
    that the cache, the order in which requests reach the tape and the second
    copy for the index partition are invisible. *)

From S2P Require Import Prelude Bytes LtfsError Extents CacheManager Unified UnifiedReqs UnifiedWrite UnifiedProps UnifiedRead UnifiedFlush UnifiedWriter UnifiedIndex.

(** ** The specification *)

(** Length and bytes of every file. *)
Definition files_spec : Type := nat -> Z * (Z -> option Z).

Inductive event :=
  | EWrite (d : nat) (buf : list Z) (off : Z)
  | ERead (d : nat) (n off : Z) (out : list Z)
  | ETruncate (d : nat) (len : Z)
  | ESize (d : nat) (n : Z)
  | ESilent.

Definition on_file (d : nat) (x : Z * (Z -> option Z)) (a : files_spec) : files_spec :=
  fun d' => if decide (d' = d) then x else a d'.

Definition spec_write (d : nat) (buf : list Z) (off : Z) (a : files_spec) : files_spec :=
  on_file d (if zlength buf =? 0 then fst (a d) else Z.max (fst (a d)) (off + zlength buf),
             patched (snd (a d)) buf off) a.

Definition spec_truncate (d : nat) (len : Z) (a : files_spec) : files_spec :=
  on_file d (len, fun o => if o <? len then snd (a d) o else Some 0) a.

Inductive spec_step : files_spec -> event -> files_spec -> Prop :=
  | spec_writes a d buf off : spec_step a (EWrite d buf off) (spec_write d buf off a)
  | spec_reads a d n off out :
      zlength out = Z.max 0 (Z.min n (fst (a d) - off)) -> bytes_are (snd (a d)) off out ->
      spec_step a (ERead d n off out) a
  | spec_truncates a d len : spec_step a (ETruncate d len) (spec_truncate d len a)
  | spec_size a d : spec_step a (ESize d (fst (a d))) a
  | spec_silent a : spec_step a ESilent a.

(** ** The scheduler *)

Section refine.
Context {V : Type} `{RawDataLaws V}.
Context (host : host_oracle).
Implicit Types (priv : unified_data V) (dpr : dentry_priv).

(** What is in flight, the writes that wait for a cache block, the scheduler. *)
Record sched_state := mk_sched {
  flight : inflight;
  waiting : list pending_write;
  sched : unified_data V;
}.

(** The part of [buf] that is not left in [rest]. *)
Definition accepted (buf rest : list Z) : list Z := take (length buf - length rest) buf.

(** A read, flush, truncation or close holds the lock [io_lock] of the file at
    some time, which the background writer has while requests are in flight.  The
    writer takes the requests of one file for the data partition and sends them, or
    holds the lock of the scheduler and serves the whole queue of the index
    partition. *)
Inductive sched_step : sched_state -> event -> sched_state -> Prop :=
  | step_write f ws priv d buf off tm priv' :
      0 <= off -> packed (cache_size priv) off (off + zlength buf) (requests_of priv d) ->
      unified_write host d buf off tm priv = WReturned (zlength buf) priv' ->
      sched_step (mk_sched f ws priv) (EWrite d buf off) (mk_sched f ws priv')
  | step_write_waits f ws priv d buf off tm p priv' :
      0 <= off -> packed (cache_size priv) off (off + zlength buf) (requests_of priv d) ->
      unified_write host d buf off tm priv = WWaits p priv' ->
      sched_step (mk_sched f ws priv) (EWrite d (accepted buf (p_buf p)) off) (mk_sched f (p :: ws) priv')
  | step_retry f ws1 p ws2 priv priv' :
      packed (cache_size priv) (p_offset p) (p_offset p + zlength (p_buf p)) (requests_of priv (p_dentry p)) ->
      unified_write_retry host p priv = Some (WReturned (original_size p) priv') ->
      sched_step (mk_sched f (ws1 ++ p :: ws2) priv) (EWrite (p_dentry p) (p_buf p) (p_offset p))
        (mk_sched f (ws1 ++ ws2) priv')
  | step_retry_waits f ws1 p ws2 priv q priv' :
      packed (cache_size priv) (p_offset p) (p_offset p + zlength (p_buf p)) (requests_of priv (p_dentry p)) ->
      unified_write_retry host p priv = Some (WWaits q priv') ->
      sched_step (mk_sched f (ws1 ++ p :: ws2) priv) (EWrite (p_dentry p) (accepted (p_buf p) (p_buf q)) (p_offset p))
        (mk_sched f (ws1 ++ q :: ws2) priv')
  | step_read f ws priv d n off r out priv' :
      inflight_reqs f d = [] -> 0 <= n -> 0 <= off ->
      unified_read host d n off priv = (r, out, priv') -> 0 <= r ->
      sched_step (mk_sched f ws priv) (ERead d n off out) (mk_sched f ws priv')
  | step_flush f ws priv d priv' :
      inflight_reqs f d = [] -> unified_flush (Some d) priv = (0, priv') ->
      sched_step (mk_sched f ws priv) ESilent (mk_sched f ws priv')
  | step_close f ws priv d fl priv' :
      inflight_reqs f d = [] -> unified_close d fl priv = (0, priv') ->
      sched_step (mk_sched f ws priv) ESilent (mk_sched f ws priv')
  | step_truncate f ws priv d len r priv' :
      inflight_reqs f d = [] -> 0 <= len -> unified_truncate d len priv = (r, priv') -> 0 <= r ->
      sched_step (mk_sched f ws priv) (ETruncate d len) (mk_sched f ws priv')
  | step_placement f ws priv d r priv' :
      unified_update_data_placement d priv = (r, priv') ->
      sched_step (mk_sched f ws priv) ESilent (mk_sched f ws priv')
  | step_size f ws priv d :
      sched_step (mk_sched f ws priv) (ESize d (unified_get_filesize d priv)) (mk_sched f ws priv)
  | step_detach ws priv queue d f' priv' :
      writer_detach queue d priv = (f', priv') -> ~ latched d priv' ->
      sched_step (mk_sched Idle ws priv) ESilent (mk_sched f' ws priv')
  | step_send ws priv d l f' priv' :
      writer_send (Sending d l) priv = (f', priv') -> (forall d' r st k, f' <> Failed d' r st k) ->
      sched_step (mk_sched (Sending d l) ws priv) ESilent (mk_sched f' ws priv')
  | step_index ws priv :
      index_queue_clean host (ip_queue priv) priv = true ->
      sched_step (mk_sched Idle ws priv) ESilent (mk_sched Idle ws (_unified_process_index_queue host priv)).

(** A step of either, any number of times, with the events in order. *)
Inductive steps {S} (step : S -> event -> S -> Prop) : S -> list event -> S -> Prop :=
  | steps_nil s : steps step s [] s
  | steps_cons s e s1 es s2 : step s e s1 -> steps step s1 es s2 -> steps step s (e :: es) s2.

(** A write that waits still has bytes to write. *)
Definition waiting_ok (p : pending_write) : Prop := 0 <= p_offset p /\ 0 < zlength (p_buf p) /\ 0 <= original_size p.

Definition shows (s : sched_state) (a : files_spec) : Prop :=
  forall d, length_of (flight s) (sched s) d = fst (a d) /\ forall o, content (flight s) (sched s) d o = snd (a d) o.

Definition implements (s : sched_state) (a : files_spec) : Prop :=
  sched_ok (flight s) (sched s) /\ Forall waiting_ok (waiting s) /\ shows s a.

(** ** Writes *)

Lemma write_spec f d buf off tm priv :
  (forall t, calloc_ok host t = true) -> sched_ok f priv -> 0 <= off ->
  packed (cache_size priv) off (off + zlength buf) (requests_of priv d) ->
  write_ends f priv d buf off (zlength buf) (unified_write host d buf off tm priv).
Proof.
  intros Hcal Hok Hoff Hp. unfold unified_write. destruct (Z.eqb_spec (zlength buf) 0) as [Hz|Hnz].
  { cbn. split_and!; try done. right. split; [done|]. rewrite Hz. split_and!; try done. intros o. by rewrite patched_nil. }
  destruct (_ <? 0) eqn:Hl; [cbn; bsplit; split_and!; try done; by left|].
  apply (write_start_spec host f (mk_pending d buf off None false (zlength buf) tm)); [done..|].
  split; cbn; try done. pose proof (zlength_nonneg buf). lia.
Qed.

(** C20: a write through the scheduler.  Where the write meets two adjacent requests
    for the index partition let the first of them be full ([packed]), and let the
    small allocations of the scheduler succeed.  Then
    [unified_write] ends, and without an error it has put its bytes, and nothing
    else, into the content of the file: all of them, or, when the cache is
    exhausted, a front part, and then the call waits with exactly the rest of
    the buffer.  On an error no content has changed.  Without [packed] the bytes can be
    lost ([rewrite_of_index_copy_is_lost]). *)
Theorem unified_write_changes_bytes f d buf off tm priv :
  (forall t, calloc_ok host t = true) -> sched_ok f priv -> 0 <= off ->
  packed (cache_size priv) off (off + zlength buf) (requests_of priv d) ->
  match unified_write host d buf off tm priv with
  | WReturned r priv' => sched_ok f priv' /\ cache_size priv' = cache_size priv /\
      (r < 0 /\ same_contents f f priv priv' \/
       r = zlength buf /\ wrote_bytes f priv priv' d buf off (zlength buf))
  | WWaits p priv' => sched_ok f priv' /\ cache_size priv' = cache_size priv /\ pending_ok priv' p /\
      exists k, 0 <= k < zlength buf /\ wrote_bytes f priv priv' d buf off k /\
        p_dentry p = d /\ p_buf p = drop (Z.to_nat k) buf /\ p_offset p = off + k /\ original_size p = zlength buf
  | WUndefined => False
  end.
Proof. apply write_spec. Qed.

Lemma retry_spec f p priv r :
  (forall t, calloc_ok host t = true) -> sched_ok f priv -> waiting_ok p ->
  packed (cache_size priv) (p_offset p) (p_offset p + zlength (p_buf p)) (requests_of priv (p_dentry p)) ->
  unified_write_retry host p priv = Some r ->
  write_ends f priv (p_dentry p) (p_buf p) (p_offset p) (original_size p) r.
Proof.
  intros Hcal Hok (Ho & Hb & _) Hp. unfold unified_write_retry.
  destruct (cache_try_alloc host priv) as [[c|] p1] eqn:Ha; [|done]. intros [= <-].
  apply cache_try_alloc_spec in Ha as (Hz1 & Hs1 & Hsp); [|apply Hok]. pose proof Hs1 as (Hc & _ & Hv & Hi & _).
  set (p2 := p1 <| cache_requests := _ |>).
  destruct (sched_ok_frame f priv p2) as [Hok2 Hs2]; try done; [cbn; by rewrite Hv|].
  pose proof (write_start_spec host f (mk_pending (p_dentry p) (p_buf p) (p_offset p) (Some c) (checked_readonly p)
    (original_size p) (isupdatetime p)) p2 Hcal Hok2) as Hw. cbn in Hw.
  assert (Hreq : requests_of p2 (p_dentry p) = requests_of priv (p_dentry p)) by (unfold requests_of; cbn; by rewrite Hi).
  apply (write_ends_frame_l f priv p2); [done..|]. apply Hw. split; cbn; rewrite ?Hreq; try done. by rewrite Hc.
Qed.

Lemma accepted_drop buf k : 0 <= k <= zlength buf -> accepted buf (drop (Z.to_nat k) buf) = take (Z.to_nat k) buf.
Proof. intros Hk. unfold accepted, zlength in *. rewrite length_drop. f_equal. lia. Qed.

(** ** Simulation *)

Lemma shows_same f f' ws ws' priv priv' a :
  shows (mk_sched f ws priv) a -> same_contents f f' priv priv' -> shows (mk_sched f' ws' priv') a.
Proof.
  intros Ha Hs d. destruct (Ha d) as [Hl Hc], (Hs d) as [Hl' Hc']. cbn in *. split; [congruence|]. intros o. by rewrite Hc'.
Qed.

Lemma shows_write f ws ws' priv priv' a d buf off k :
  shows (mk_sched f ws priv) a -> 0 <= k <= zlength buf -> wrote_bytes f priv priv' d buf off k ->
  shows (mk_sched f ws' priv') (spec_write d (take (Z.to_nat k) buf) off a).
Proof.
  intros Ha Hk (Ho & Hl & Hc) d'. cbn. unfold spec_write, on_file. rewrite zlength_take by done. destruct (Ha d) as [Al Ac]. cbn in Al, Ac.
  destruct (decide (d' = d)) as [->|Hne]; cbn.
  - rewrite Hl, Al. split; [done|]. intros o. rewrite Hc. by apply patched_ext.
  - destruct (Ho d' Hne) as [Hl' Hc'], (Ha d') as [Al' Ac']. cbn in *. split; [congruence|]. intros o. by rewrite Hc'.
Qed.

(** How a write, in the end or at a wait, shows in the specification. *)
Lemma write_simulates f ws priv a d buf off n r :
  shows (mk_sched f ws priv) a -> 0 <= n -> write_ends f priv d buf off n r ->
  match r with
  | WReturned m priv' => m = n -> implements (mk_sched f [] priv') (spec_write d buf off a)
  | WWaits p priv' => implements (mk_sched f [p] priv') (spec_write d (accepted buf (p_buf p)) off a)
  | WUndefined => False
  end.
Proof.
  intros Ha Hn. destruct r as [m priv'|p priv'|]; cbn; [| |done].
  - intros (Hok & _ & [[? _]|[-> Hw]]) E; [lia|]. split_and!; try done.
    rewrite <- (take_ge buf (Z.to_nat (zlength buf))) by (unfold zlength; lia). eapply shows_write; [done| |done].
    pose proof (zlength_nonneg buf). lia.
  - intros (Hok & _ & [? ? _ _] & k & Hk & Hw & _ & Hbuf & _ & Horig).
    split_and!; try done; [constructor; [split_and!; [done..|lia]|done]|].
    rewrite Hbuf, accepted_drop by lia. eapply shows_write; [done|lia|done].
Qed.

Lemma step_simulates s e s' a :
  (forall t, calloc_ok host t = true) -> implements s a -> sched_step s e s' ->
  exists a', spec_step a e a' /\ implements s' a'.
Proof.
  intros Hcal (Hok & Hws & Ha) Hst.
  destruct Hst as [f ws priv d buf off tm priv' Ho Hpk E|f ws priv d buf off tm p priv' Ho Hpk E|f ws1 p ws2 priv priv' Hpk E|f ws1 p ws2 priv q priv' Hpk E
    |f ws priv d n off r out priv' Hnf Hn Ho E Hr|f ws priv d priv' Hnf E|f ws priv d fl priv' Hnf E|f ws priv d len r priv' Hnf Hn E Hr
    |f ws priv d r priv' E|f ws priv d|ws priv queue d f' priv' E Hnl|ws priv d l f' priv' E Hnf|ws priv Hcl]; cbn in *.
  - pose proof (write_simulates f ws priv a d buf off (zlength buf) _ Ha (zlength_nonneg _)
      (write_spec f d buf off tm priv Hcal Hok ltac:(done) ltac:(done))) as Hw.
    rewrite E in Hw. destruct (Hw eq_refl) as (? & _ & ?). eexists. split; [constructor|]. by split_and!.
  - pose proof (write_simulates f ws priv a d buf off (zlength buf) _ Ha (zlength_nonneg _)
      (write_spec f d buf off tm priv Hcal Hok ltac:(done) ltac:(done))) as Hw.
    rewrite E in Hw. destruct Hw as (? & Hp & ?). eexists. split; [constructor|]. split_and!; try done.
    cbn in *. apply Forall_cons in Hp as [? _]. by constructor.
  - apply Forall_app in Hws as [Hw1 [Hp Hw2]%Forall_cons].
    pose proof (write_simulates f _ priv a _ _ _ (original_size p) _ Ha ltac:(apply Hp)
      (retry_spec f p priv _ Hcal Hok Hp ltac:(done) ltac:(done))) as (? & _ & ?); [done|].
    eexists. split; [constructor|]. split_and!; try done. by apply Forall_app.
  - apply Forall_app in Hws as [Hw1 [Hp Hw2]%Forall_cons].
    pose proof (write_simulates f _ priv a _ _ _ (original_size p) _ Ha ltac:(apply Hp)
      (retry_spec f p priv _ Hcal Hok Hp ltac:(done) ltac:(done))) as (? & Hq & ?).
    eexists. split; [constructor|]. split_and!; try done. apply Forall_app. split; [done|].
    apply Forall_cons in Hq as [? _]. by constructor.
  - destruct (read_spec host f d n off priv r out priv') as (Hok' & Hs & Hrd); try done.
    destruct (Hrd ltac:(done)) as (Hl & Hrn & Hb), (Ha d) as [Al Ac]. exists a. split.
    + constructor; [cbn in Al; rewrite <- Al; lia|]. intros i Hi. cbn in Ac. rewrite <- Ac. by apply Hb.
    + split_and!; try done. by eapply shows_same.
  - destruct (flush_unlocked_spec f d priv 0 priv') as (_ & _ & Hz); try done. destruct (Hz eq_refl) as (? & ? & _).
    exists a. split; [constructor|]. split_and!; try done. by eapply shows_same.
  - destruct (close_spec f d fl priv 0 priv') as (? & ?); try done.
    exists a. split; [constructor|]. split_and!; try done. by eapply shows_same.
  - destruct (truncate_spec f d len priv r priv') as (Hok' & Ho & Hl & Hc); try done.
    eexists. split; [constructor|]. split_and!; try done. intros d'. cbn. unfold spec_truncate, on_file.
    destruct (decide (d' = d)) as [->|Hne]; cbn.
    + split; [done|]. intros o. rewrite Hc. case_bool; [apply Ha|done].
    + destruct (Ho d' Hne) as [Hl' Hc'], (Ha d') as [Al Ac]. cbn in *. split; [congruence|]. intros o. by rewrite Hc'.
  - apply (update_data_placement_spec f) in E as (_ & ? & ?); [|done].
    exists a. split; [constructor|]. split_and!; try done. by eapply shows_same.
  - exists a. split; [|by split_and!].
    replace (unified_get_filesize d priv) with (fst (a d)); [constructor|]. destruct (Ha d) as [<- _].
    unfold length_of, unified_get_filesize. cbn. destruct (iosched_priv priv !! d) eqn:Hd; [done|].
    apply under_idle. by apply (no_flight f priv).
  - apply writer_detach_spec in E as [[? ?]|[_ ?]]; [|done|done].
    exists a. split; [constructor|]. split_and!; try done. by eapply shows_same.
  - destruct l as [|req rest].
    + by destruct (so_busy _ _ Hok).
    + apply writer_send_spec in E as [[? ?]|(ret & _ & -> & _)]; [|by destruct (Hnf d ret (req_state req) (req :: rest))|done].
      exists a. split; [constructor|]. split_and!; try done. by eapply shows_same.
  - destruct (index_queue_spec host (ip_queue priv) priv Hok Hcl) as [? ?].
    exists a. split; [constructor|]. split_and!; try done. by eapply shows_same.
Qed.

(** C4: the scheduler implements plain files.  Take a run without errors in which
    every write is [packed] (where it meets two adjacent requests for the index
    partition, the first is full): writes, with their waits for cache blocks,
    reads, truncations, size queries, flushes, closes, changes of placement, and at any
    point between them steps of the background writer, for the data partition and for
    the queue of the index partition.  The same events, in the same order, are a run
    of the plain files that started with the same contents: every read returned
    exactly the bytes the files have at that point, every size query their
    length, and at the end the contents agree.  A write that is not packed can be lost
    ([rewrite_of_index_copy_is_lost]). *)
Theorem scheduler_refines_files s es s' a :
  (forall t, calloc_ok host t = true) -> implements s a -> steps sched_step s es s' ->
  exists a', steps spec_step a es a' /\ implements s' a'.
Proof.
  intros Hcal Ha Hst. revert a Ha. induction Hst as [s|s e s1 es s2 Hs _ IH]; intros a Ha.
  - exists a. split; [constructor|done].
  - destruct (step_simulates s e s1 a Hcal Ha Hs) as (a1 & Hs1 & Ha1). destruct (IH a1 Ha1) as (a2 & Hs2 & Ha2).
    exists a2. split; [by econstructor|done].
Qed.
End refine.
