(* ===== verification/UnifiedMem.v ===== *)
(** * The unified scheduler over files in memory

    A volume that keeps its files in memory and satisfies [RawLaws]: the
    theorems about the scheduler apply to it, and runs of the scheduler can be
    evaluated.  The fields besides [files] fix what the layers below answer:
    the placement rule, the codes of the writes to the two partitions and of
    the volume lock. *)

From S2P Require Import Prelude Bytes LtfsError Extents CacheManager Unified UnifiedReqs UnifiedWrite UnifiedProps UnifiedRead UnifiedFlush UnifiedWriter UnifiedRefine UnifiedIndex.

Record mem_volume := mk_mem {
  files : gmap nat (list Z);
  max_filesize : Z;
  handles : Z;
  dp_write_code : Z;
  ip_write_code : Z;
  lock_status_code : Z;
}.

#[export] Instance eta_mem : Eta mem_volume := fun v =>
  mk_mem (files v) (max_filesize v) (handles v) (dp_write_code v) (ip_write_code v) (lock_status_code v).

Definition file (v : mem_volume) (d : nat) : list Z := default [] (files v !! d).
Definition pad (n : Z) (l : list Z) : list Z := l ++ zeros (n - zlength l).
Definition set_file (d : nat) (l : list Z) (v : mem_volume) : mem_volume := v <| files := <[d := l]> (files v) |>.

#[export] Instance mem_raw : RawVolume mem_volume := {|
  ltfs_get_volume_lock v := 0;
  ltfs_get_volume_readonly v := 0;
  ltfs_get_partition_readonly _ v := 0;
  index_criteria_get_max_filesize v := max_filesize v;
  ltfs_get_blocksize v := 4;
  ltfs_ip_id v := 97;
  d_size v d := zlength (file v d);
  d_matches_name_criteria v d := true;
  d_deleted v d := false;
  d_numhandles v d := handles v;
  d_touch d v := v;
  ltfs_fsraw_read d n o v := let out := slice o n (file v d) in (zlength out, out, v);
  ltfs_fsraw_write d b o v :=
    if dp_write_code v <? 0 then (dp_write_code v, v)
    else (zlength b, set_file d (memcpy_at o b (pad (o + zlength b) (file v d))) v);
  ltfs_fsraw_write_data b v := (if ip_write_code v <? 0 then inl (ip_write_code v) else inr 5, v);
  ltfs_fsraw_truncate d n v := (0, set_file d (take (Z.to_nat n) (pad n (file v d))) v);
  ltfs_fsraw_add_extent d e v := (0, v);
  ltfs_fsraw_get_dentry d v := v;
  ltfs_fsraw_put_dentry d v := v;
  ltfs_fsraw_close d v := v;
  tape_set_cart_volume_lock_status b v := (lock_status_code v, v);
  tape_get_first_untransfered_position v := (0, (true, 0));
  coh_set_id b v := 0;
  ltfs_fsraw_cleanup_extent p b v := (0, v);
  ltfs_write_index_perm v := (0, v);
|}.

Definition mem_byte (l : list Z) (o : Z) : option Z :=
  if o <? 0 then None else if zlength l <=? o then Some 0 else l !! Z.to_nat o.

Lemma mem_byte_pad n l o : mem_byte (pad n l) o = mem_byte l o.
Proof.
  unfold mem_byte, pad. rewrite zlength_app. pose proof (zlength_nonneg l). destruct (Z.ltb_spec o 0); [done|].
  assert (Hz : zlength (zeros (n - zlength l)) = Z.max 0 (n - zlength l))
    by (unfold zlength, zeros; rewrite length_replicate; lia).
  destruct (Z.leb_spec (zlength l) o); unfold zlength in *.
  - case_bool; [done|]. rewrite lookup_app_r by lia. unfold zeros. apply lookup_replicate_2. lia.
  - case_bool; [lia|]. apply lookup_app_l. lia.
Qed.

Lemma pad_length n l : 0 <= n -> zlength (pad n l) = Z.max (zlength l) n.
Proof. intros Hn. unfold pad. rewrite zlength_app. unfold zlength at 2, zeros. rewrite length_replicate. lia. Qed.

Lemma mem_write_bytes b off l o :
  0 <= off -> mem_byte (memcpy_at off b (pad (off + zlength b) l)) o = patched (mem_byte l) b off o.
Proof.
  intros Hoff. pose proof (zlength_nonneg b). pose proof (pad_length (off + zlength b) l ltac:(lia)) as Hp.
  transitivity (patched (mem_byte (pad (off + zlength b) l)) b off o); [|apply patched_ext, mem_byte_pad].
  unfold mem_byte at 1. rewrite zlength_memcpy_at by lia. destruct (decide (off <= o < off + zlength b)).
  - rewrite patched_in by done. case_bool; [lia..|]. rewrite lookup_memcpy_at by lia. rewrite Z2Nat.id by lia. by case_bool; [|lia].
  - rewrite patched_out by lia. unfold mem_byte. case_bool; [done..|]. rewrite lookup_memcpy_at by lia.
    rewrite Z2Nat.id by lia. case_bool; [lia|done].
Qed.

Lemma mem_cut_bytes n l o :
  0 <= n -> mem_byte (take (Z.to_nat n) (pad n l)) o = if o <? n then mem_byte l o else Some 0.
Proof.
  intros Hn. replace (mem_byte l o) with (mem_byte (pad n l) o) by apply mem_byte_pad. unfold mem_byte. pose proof (pad_length n l Hn) as Hp.
  rewrite zlength_take by lia. destruct (Z.ltb_spec o 0); [by case_bool; [|lia]|].
  destruct (Z.ltb_spec o n); case_bool; try lia; [|done]. apply lookup_take_lt. lia.
Qed.

Lemma file_set_eq d l v : file (set_file d l v) d = l.
Proof. unfold file, set_file. cbn. by rewrite lookup_insert_eq. Qed.

Lemma file_set_ne d d' l v : d' <> d -> file (set_file d l v) d' = file v d'.
Proof. intros. unfold file, set_file. cbn. by rewrite lookup_insert_ne. Qed.

#[export, refine] Instance mem_laws : RawLaws mem_volume := {| raw_byte v d := mem_byte (file v d) |}.
Proof.
  - intros v d. apply zlength_nonneg.
  - intros v d o Ho. cbn in Ho. unfold mem_byte. pose proof (zlength_nonneg (file v d)).
    replace (o <? 0) with false by lia. by replace (zlength (file v d) <=? o) with true by lia.
  - intros d v v' d' [-> | [-> | [-> | ->]]]; done.
  - intros d n off v r out v' Hn Hoff [= <- <- <-]. split; [done|]. intros _.
    assert (Hl : zlength (slice off n (file v d)) = Z.max 0 (Z.min n (zlength (file v d) - off))).
    { unfold slice, zlength. rewrite length_take, length_drop. lia. }
    split_and!; [done|exact Hl|]. intros i Hi. unfold zlength in Hl. unfold slice, mem_byte in *.
    pose proof (length_drop (file v d) (Z.to_nat off)). rewrite length_take in Hi.
    rewrite lookup_take_lt, lookup_drop by lia. unfold zlength. case_bool; [lia..|]. f_equal. lia.
  - intros d buf off v r v' Hb Hoff. cbn. destruct (dp_write_code v <? 0) eqn:Hc; intros [= <- <-].
    { split; [done|]. bsplit. lia. }
    split.
    + intros d' [?|Hne]; [lia|]. by rewrite file_set_ne.
    + intros _. rewrite file_set_eq. split; [|intros o; by apply mem_write_bytes].
      rewrite zlength_memcpy_at; rewrite ?pad_length; lia.
  - intros d len v r v' Hlen [= <- <-]. split.
    + intros d' [?|Hne]; [lia|]. cbn. by rewrite file_set_ne.
    + intros _. cbn. rewrite file_set_eq. split; [|intros o; by apply mem_cut_bytes].
      apply zlength_take. rewrite pad_length; lia.
Defined.

#[export] Instance mem_data_laws : RawDataLaws mem_volume.
Proof. split. by intros buf v r v' [= <- <-]. Qed.
