(* ===== verification/UnifiedFindings.v ===== *)
(** * The unified scheduler: runs

    Runs of the scheduler over files in memory, with cache blocks of four bytes.
    The first part applies the theorems to such runs.  The second part has runs
    in which the code does not do what it means to. *)

From S2P Require Import Prelude Bytes LtfsError Extents CacheManager Unified UnifiedReqs UnifiedWrite UnifiedProps UnifiedRead UnifiedFlush UnifiedWriter UnifiedIndex UnifiedRefine UnifiedMem.

(** A host with enough memory. *)
Definition host : host_oracle := mk_host (fun _ _ => true) (fun _ => true) (fun _ => 0).

Definition block : cache_object := mk_object 1 (zeros 8).

Definition start (v : mem_volume) : unified_data mem_volume :=
  mk_priv 0 4 20 [] [] [] [] 0 0 0 0 0 0 true (mk_pool 4 2 20 2 [block; block]) v ∅ 1.

(** A volume without a placement rule, and one that places files of up to 1000
    bytes on the index partition too. *)
Definition plain_volume : mem_volume := mk_mem ∅ 0 3 0 0 0.
Definition ip_volume : mem_volume := mk_mem ∅ 1000 3 0 0 0.

Definition after_write (r : write_result mem_volume) (priv : unified_data mem_volume) : unified_data mem_volume :=
  match r with WReturned _ p | WWaits _ p => p | WUndefined => priv end.

Definition write (d : nat) (buf : list Z) (off : Z) (priv : unified_data mem_volume) : unified_data mem_volume :=
  after_write (unified_write host d buf off false priv) priv.

Definition flush (d : nat) (priv : unified_data mem_volume) : unified_data mem_volume :=
  snd (unified_flush (Some d) priv).

(** What the requests of a file are. *)
Definition summary (d : nat) (priv : unified_data mem_volume) : list (Z * list Z * request_state) :=
  map (fun r => (req_offset r, req_bytes r, req_state r)) (requests_of priv d).

Definition reads (d : nat) (n off : Z) (priv : unified_data mem_volume) : Z * list Z :=
  fst (unified_read host d n off priv).

Definition extents_of (d : nat) (priv : unified_data mem_volume) : list extent_info :=
  match iosched_priv priv !! d with Some dpr => alt_extentlist dpr | None => [] end.

(** ** The theorems on a run *)

Lemma start_ok v : sched_ok Idle (start v).
Proof. split; try done. split_and!; [done|done|by repeat constructor]. Qed.

Lemma no_ip_packed cs off lim l : forallb (fun r => negb (is_ip r)) l = true -> packed cs off lim l.
Proof.
  intros Hl. apply packed_no_ip, Forall_forall. intros r Hr. rewrite forallb_forall in Hl. apply negb_true_iff, Hl. by apply list_elem_of_In.
Qed.

Definition all_works : forall t, calloc_ok host t = true := fun _ => eq_refl.

(** Eight bytes, and one more over them that has not reached the tape. *)
Definition run1 : unified_data mem_volume := write 0 [1; 2; 3; 4; 5; 6; 7; 8] 0 (start plain_volume).

Lemma write_ok priv d buf off :
  sched_ok Idle priv -> 0 <= off -> forallb (fun r => negb (is_ip r)) (requests_of priv d) = true ->
  sched_ok Idle (write d buf off priv).
Proof.
  intros Hok Hoff Hip. pose proof (write_spec host Idle d buf off false priv all_works Hok Hoff (no_ip_packed _ _ _ _ Hip)) as Hw.
  unfold write. destruct (unified_write host d buf off false priv); cbn in *; [apply Hw|apply Hw|done].
Qed.

Lemma run1_ok : sched_ok Idle run1.
Proof. apply write_ok; [apply start_ok|done|done]. Qed.

Lemma run1_packed off lim : packed (cache_size run1) off lim (requests_of run1 0%nat).
Proof. apply no_ip_packed. vm_compute. reflexivity. Qed.

Lemma unified_write_changes_bytes_witness :
  match unified_write host 0%nat [9; 9] 3 false run1 with
  | WReturned r priv' => r = 2 /\ wrote_bytes Idle run1 priv' 0%nat [9; 9] 3 2
  | _ => False
  end.
Proof.
  pose proof (unified_write_changes_bytes host Idle 0%nat [9; 9] 3 false run1 all_works run1_ok ltac:(done)
    (run1_packed _ _)) as Hw.
  assert (Hr : exists p, unified_write host 0%nat [9; 9] 3 false run1 = WReturned 2 p) by (eexists; vm_compute; reflexivity).
  destruct Hr as [p Hr]. rewrite Hr in *. destruct Hw as (_ & _ & [[? _]|?]); [lia|done].
Defined.

Lemma unified_read_returns_content_witness :
  fst (unified_read host 0%nat 9 2 run1) = (6, [3; 4; 5; 6; 7; 8]) /\
  bytes_are (content Idle run1 0%nat) 2 [3; 4; 5; 6; 7; 8].
Proof.
  destruct (unified_read host 0%nat 9 2 run1) as [[r out] p] eqn:Hr.
  assert (E : (r, out) = (6, [3; 4; 5; 6; 7; 8])).
  { transitivity (fst (unified_read host 0%nat 9 2 run1)); [by rewrite Hr|vm_compute; reflexivity]. }
  injection E as -> ->. split; [done|].
  destruct (unified_read_returns_content host Idle 0%nat 9 2 run1 6 [3; 4; 5; 6; 7; 8] p all_works run1_ok eq_refl
    ltac:(lia) ltac:(lia) Hr) as (_ & _ & Hb). apply Hb. lia.
Defined.

Lemma flush_makes_durable_witness :
  file (vol (snd (_unified_flush_unlocked 0%nat run1))) 0 = [1; 2; 3; 4; 5; 6; 7; 8] /\
  forall o, raw_byte (vol (snd (_unified_flush_unlocked 0%nat run1))) 0%nat o = content Idle run1 0%nat o.
Proof.
  split; [vm_compute; reflexivity|].
  destruct (_unified_flush_unlocked 0%nat run1) as [r p] eqn:Hr.
  assert (E : r = 0) by (transitivity (fst (_unified_flush_unlocked 0%nat run1)); [by rewrite Hr|vm_compute; reflexivity]).
  destruct (flush_makes_durable Idle 0%nat run1 r p run1_ok eq_refl Hr) as [_ Hz]. by apply Hz.
Defined.

Lemma unified_truncate_cuts_content_witness :
  length_of Idle (snd (unified_truncate 0%nat 6 run1)) 0%nat = 6 /\ reads 0 9 0 (snd (unified_truncate 0%nat 6 run1)) = (6, [1; 2; 3; 4; 5; 6]).
Proof.
  split; [|vm_compute; reflexivity]. destruct (unified_truncate 0%nat 6 run1) as [r p] eqn:Hr.
  assert (E : r = 0) by (transitivity (fst (unified_truncate 0%nat 6 run1)); [by rewrite Hr|vm_compute; reflexivity]).
  destruct (unified_truncate_cuts_content Idle 0%nat 6 run1 r p run1_ok eq_refl ltac:(lia) Hr ltac:(lia)) as (_ & _ & Hl & _).
  exact Hl.
Defined.

(** The background writer takes the requests of [run1] and sends them. *)
Definition taken : inflight * unified_data mem_volume := writer_detach REQUEST_DP 0%nat run1.
Definition sent : unified_data mem_volume := send_all 4 (fst taken) (snd taken).

Lemma writer_loses_nothing_silently_witness :
  same_contents Idle Idle run1 sent /\ file (vol sent) 0 = [1; 2; 3; 4; 5; 6; 7; 8].
Proof.
  split; [|vm_compute; reflexivity]. destruct taken as [f p] eqn:Ht.
  assert (Hf : exists a b, f = Sending 0%nat [a; b]) by (change f with (fst (f, p)); rewrite <- Ht; do 2 eexists; vm_compute; reflexivity).
  destruct Hf as (a & b & ->). destruct (writer_loses_nothing_silently REQUEST_DP 0%nat run1 _ p run1_ok Ht) as [[_ Hs]|(dpr & Hd & He)].
  - unfold sent. rewrite Ht. exact Hs.
  - exfalso. apply He. transitivity (from_option write_error 1 (iosched_priv sent !! 0%nat)); [|vm_compute; reflexivity].
    unfold sent. rewrite Ht. cbn [fst snd]. change 4%nat with (2 + length [a; b])%nat. by rewrite Hd.
Defined.

(** A write while the two requests of [run1] are in flight; then both reach the
    tape, and a read sees the new byte over the old ones. *)
Definition flying : list write_request := inflight_reqs (fst taken) 0%nat.
Definition run2 : unified_data mem_volume := write 0 [9] 2 (snd taken).
Definition sent1 : inflight * unified_data mem_volume := writer_send (Sending 0%nat flying) run2.
Definition flying1 : list write_request := inflight_reqs (fst sent1) 0%nat.
Definition sent2 : inflight * unified_data mem_volume := writer_send (Sending 0%nat flying1) (snd sent1).
Definition run3 : unified_data mem_volume := snd (unified_read host 0%nat 9 0 (snd sent2)).

Definition run_events : list event :=
  [EWrite 0%nat [1; 2; 3; 4; 5; 6; 7; 8] 0; ESilent; EWrite 0%nat [9] 2; ESilent; ESilent;
   ERead 0%nat 9 0 [1; 2; 9; 4; 5; 6; 7; 8]].

Lemma run_steps :
  steps (sched_step host) (mk_sched Idle [] (start plain_volume)) run_events (mk_sched Idle [] run3).
Proof.
  eapply steps_cons; [apply (step_write host _ _ _ _ _ _ false run1); [lia|done|vm_compute; reflexivity]|].
  eapply steps_cons.
  { apply (step_detach host _ _ REQUEST_DP 0%nat (Sending 0%nat flying) (snd taken)); [vm_compute; reflexivity|].
    intros (dpr & Hd & He). apply He.
    transitivity (from_option write_error 1 (iosched_priv (snd taken) !! 0%nat)); [by rewrite Hd|vm_compute; reflexivity]. }
  eapply steps_cons; [apply (step_write host _ _ _ _ _ _ false run2);
    [lia|apply no_ip_packed; vm_compute; reflexivity|vm_compute; reflexivity]|].
  eapply steps_cons; [apply (step_send host _ _ _ _ (Sending 0%nat flying1) (snd sent1)); [vm_compute; reflexivity|done]|].
  eapply steps_cons; [apply (step_send host _ _ _ _ Idle (snd sent2)); [vm_compute; reflexivity|done]|].
  eapply steps_cons; [apply (step_read host _ _ _ _ _ _ 8 _ run3); [done|lia|lia|vm_compute; reflexivity|lia]|].
  constructor.
Qed.

Lemma scheduler_refines_files_witness :
  exists a, steps spec_step (fun d => (length_of Idle (start plain_volume) d, content Idle (start plain_volume) d)) run_events a /\
    implements (mk_sched Idle [] run3) a.
Proof.
  apply (scheduler_refines_files host (mk_sched Idle [] (start plain_volume)) run_events (mk_sched Idle [] run3));
    [exact all_works| |exact run_steps].
  split; [apply start_ok|]. split; [constructor|]. intros d. by split.
Defined.

(** A file on both partitions: the requests that wait for the index partition are
    written, and the file reads as before. *)
Definition both : unified_data mem_volume := flush 0 (write 0 [1; 2; 3; 4; 5; 6; 7; 8] 0 (start ip_volume)).

Lemma index_queue_served :
  summary 0 both = [(0, [1; 2; 3; 4], REQUEST_IP); (4, [5; 6; 7; 8], REQUEST_IP)] /\
  index_queue_clean host (ip_queue both) both = true /\
  summary 0 (_unified_process_index_queue host both) = [] /\
  reads 0 9 0 (_unified_process_index_queue host both) = (8, [1; 2; 3; 4; 5; 6; 7; 8]).
Proof. split_and!; vm_compute; reflexivity. Qed.

(** ** A write that is lost

    A file is also to go to the index partition; eight bytes are written and
    flushed, and the first two are written again.  The copy for the index
    partition is then in two adjacent requests, the first of which is not full. *)

Definition shrunk : unified_data mem_volume := write 0 [11; 12] 0 (flush 0 (write 0 [1; 2; 3; 4; 5; 6; 7; 8] 0 (start ip_volume))).
Definition rewritten : unified_data mem_volume := write 0 [99] 4 shrunk.

(** A write that succeeds and is not there.  [unified_write] merges the two
    adjacent requests of the copy before it looks at the place of the new byte,
    so the byte goes behind a request that covers its place: the call returns
    1, a read still returns the old byte 5, and after a flush the tape has the
    new byte while the cached copy, which readers see and which goes to the
    index partition, has the old one. *)
Theorem rewrite_of_index_copy_is_lost :
  summary 0 shrunk = [(0, [11; 12], REQUEST_PARTIAL); (2, [3; 4], REQUEST_IP); (4, [5; 6; 7; 8], REQUEST_IP)] /\
  unified_write host 0%nat [99] 4 false shrunk = WReturned 1 rewritten /\
  reads 0 1 4 rewritten = (1, [5]) /\
  file (vol (flush 0 rewritten)) 0 = [11; 12; 3; 4; 99; 6; 7; 8] /\
  reads 0 8 0 (flush 0 rewritten) = (8, [11; 12; 3; 4; 5; 6; 7; 8]).
Proof. split_and!; vm_compute; reflexivity. Qed.

(** ** Errors that nobody hears of *)

(** The index partition has a permanent write error; [lock_status_code] is the
    code of the call that then sets the volume lock, which succeeds. *)
Definition bad_ip_volume : mem_volume := mk_mem ∅ 1000 3 0 (- 20309) 0.

Definition half_flushed : unified_data mem_volume := write 0 [7] 4 (flush 0 (write 0 [1; 2; 3; 4] 0 (start bad_ip_volume))).
Definition index_processed : unified_data mem_volume := _unified_process_queue host REQUEST_IP half_flushed.

(** The code of the lock call replaces the code of the write, so the error
    handler discards a byte on its way to the data partition and keeps the code
    0: flush and close report success. *)
Theorem index_write_error_loses_data :
  reads 0 8 0 half_flushed = (5, [1; 2; 3; 4; 7]) /\
  reads 0 8 0 index_processed = (4, [1; 2; 3; 4]) /\
  fst (unified_flush (Some 0%nat) index_processed) = 0 /\
  fst (unified_close 0%nat true index_processed) = 0.
Proof. split_and!; vm_compute; reflexivity. Qed.

(** The data partition cannot be written. *)
Definition bad_dp_volume : mem_volume := mk_mem ∅ 0 3 (- 20309) 0 0.

Definition closing : inflight * unified_data mem_volume :=
  let '(f, priv) := writer_detach REQUEST_DP 0%nat (write 0 [1; 2; 3; 4] 0 (start bad_dp_volume)) in writer_send f priv.
Definition closed : Z * unified_data mem_volume := unified_close 0%nat true (snd closing).
Definition cleaned : inflight * unified_data mem_volume := writer_send (fst closing) (snd closed).

(** A close between a failed write of the background writer and its clean-up
    finds no requests and no error, forgets the file and reports success; the
    clean-up then has no place to keep the error. *)
Theorem close_misses_write_error :
  fst closed = 0 /\ fst cleaned = Idle /\ iosched_priv (snd cleaned) !! 0%nat = None /\
  file (vol (snd cleaned)) 0 = [].
Proof. split_and!; vm_compute; reflexivity. Qed.

(** ** A file that stays in a queue *)

Definition on_index : unified_data mem_volume :=
  _unified_process_queue host REQUEST_IP (flush 0 (write 0 [1; 2; 3; 4; 5; 6; 7; 8] 0 (start ip_volume))).
Definition emptied : unified_data mem_volume := snd (unified_truncate 0%nat 0 on_index).

(** Truncation takes the extents of the index partition out of the file's list
    but not the file out of the queue of the files that have some: a close then
    frees a structure that is in the queue, and new extents put it into the
    queue twice. *)
Theorem truncate_leaves_file_queued :
  ext_queue emptied = [0%nat] /\ extents_of 0 emptied = [] /\
  (let p := snd (unified_close 0%nat true emptied) in ext_queue p = [0%nat] /\ iosched_priv p !! 0%nat = None) /\
  ext_queue (_unified_process_queue host REQUEST_IP (flush 0 (write 0 [1; 2; 3; 4] 0 emptied))) = [0%nat; 0%nat].
Proof. cbv zeta. split_and!; vm_compute; reflexivity. Qed.
