(* ===== verification/Dentry.v ===== *)
(** * The dentry tree (src/libltfs/fs.c)

    The tree of directories and files that libltfs keeps in memory: allocating,
    referencing and disposing dentries, looking up a name in a directory and a
    path from the root, building the path of a dentry.

    Dentries are objects on a heap, linked by pointers in both directions and
    counted by [numhandles], so the model has a heap: a map from addresses to
    dentries, and every access goes through an address.  A run of a function
    ends in a value, or
    - it would wait for ever for a lock that it holds itself ([Blocked]), or
    - it reaches an object that was freed, or releases a lock that is not
      held, or frees an object whose lock is held ([Fault]).
    The theorems of [DentryTree] and [FsOpsProps] show that neither happens.

    The locks that a run holds are part of the state; other threads are not in
    this model (the lock itself is the subject of [Mrsw]).  Allocation may
    fail: the outcomes of the coming allocations are a list in the state.
    Argument checks for [NULL], log messages and the dentry cache (off) are
    left out.  [pathname_strlen] counts characters with ICU and is a parameter. *)

From S2P Require Import Prelude LtfsError Extents TapeOps TapeLayer Journal.

(** ** Dentries *)

(** A [struct name_list]: an entry of a directory's hash table. *)
Record name_list := mk_name_list { nl_name : path; nl_d : Z; nl_uid : Z }.

(** [struct dentry]; pointers are addresses, [NULL] is [None].  The hash table
    [child_list] is the list of its entries in the order in which [HASH_ITER]
    visits them. *)
Record dentry := mk_dentry {
  ino : Z;
  uid : Z;
  isdir : bool;
  isslink : bool;
  target : option path;
  out_of_sync : bool;
  extentlist : list extent_info;
  realsize : Z;
  size : Z;
  used_blocks : Z;
  dirty : bool;
  dname : option path;
  name_percent_encode : bool;
  platform_safe_name : option path;
  parent : option Z;
  readonly : bool;
  creation_time : ltfs_timespec;
  modify_time : ltfs_timespec;
  access_time : ltfs_timespec;
  change_time : ltfs_timespec;
  backup_time : ltfs_timespec;
  numhandles : Z;
  link_count : Z;
  deleted : bool;
  matches_name_criteria : bool;
  need_update_time : bool;
  is_immutable : bool;
  is_appendonly : bool;
  child_list : list name_list;
}.

#[export] Instance eta_fs_dentry : Eta dentry := fun d =>
  mk_dentry (ino d) (uid d) (isdir d) (isslink d) (target d) (out_of_sync d) (extentlist d)
    (realsize d) (size d) (used_blocks d) (dirty d) (dname d) (name_percent_encode d)
    (platform_safe_name d) (parent d) (readonly d) (creation_time d) (modify_time d)
    (access_time d) (change_time d) (backup_time d) (numhandles d) (link_count d) (deleted d)
    (matches_name_criteria d) (need_update_time d) (is_immutable d) (is_appendonly d)
    (child_list d).

(** [memset(d, 0, sizeof(struct dentry))]. *)
Definition zero_time : ltfs_timespec := mk_time 0 0.

Definition zero_dentry : dentry :=
  mk_dentry 0 0 false false None false [] 0 0 0 false None false None None false
    zero_time zero_time zero_time zero_time zero_time 0 0 false false false false false [].

(** ** Locks that the running thread holds *)

(** A lock is named by its kind and the dentry it belongs to. *)
Abbreviation lock_id := (Z * Z)%type.

Definition contents_lock (d : Z) : lock_id := (0, d).
Definition meta_lock (d : Z) : lock_id := (1, d).
Definition vol_lock : lock_id := (2, 0).
Definition rename_lock : lock_id := (3, 0).
Definition dirty_lock : lock_id := (4, 0).
Definition inode_mutex : lock_id := (5, 0).

(** Held for reading [n + 1] times, or for writing. *)
Inductive lock_state := Rd (n : nat) | Wr.

#[export] Instance lock_state_eq_dec : EqDecision lock_state.
Proof. solve_decision. Defined.

(** ** State *)

(** The heap with the fields of [struct ltfs_index] and [struct ltfs_volume]
    that these functions and those of ltfs_fsops.c use.  [next_address] is the
    address of the next allocation; [mem] are the outcomes of the coming
    allocations (all succeed when the list is exhausted); [clock] are the coming
    readings of the clock; [placement_rule] is what [index_criteria_match]
    answers for a name and [max_filesize] the size limit of the rule;
    [placement_updates] are the dentries of which the I/O scheduler was told, the
    last first. *)
Record fs_state := mk_fs {
  heap : gmap Z dentry;
  next_address : Z;
  mem : list bool;
  clock : list ltfs_timespec;
  locks : gmap lock_id lock_state;
  inode_number : Z;
  root : Z;
  uid_number : Z;
  file_count : Z;
  valid_blocks : Z;
  idx_dirty : bool;
  inc_dirty : bool;
  atime_dirty : bool;
  use_atime : bool;
  version : Z;
  write_version : Z;
  file_open_count : Z;
  vol_journal : jvolume;
  placement_rule : path -> bool;
  max_filesize : Z;
  placement_updates : list Z;
}.

#[export] Instance eta_fs : Eta fs_state := fun s =>
  mk_fs (heap s) (next_address s) (mem s) (clock s) (locks s) (inode_number s) (root s)
    (uid_number s) (file_count s) (valid_blocks s) (idx_dirty s) (inc_dirty s) (atime_dirty s)
    (use_atime s) (version s) (write_version s) (file_open_count s) (vol_journal s)
    (placement_rule s) (max_filesize s) (placement_updates s).

(** ** Runs *)

Inductive outcome (A : Type) := Done (a : A) (s : fs_state) | Blocked | Fault.
Arguments Done {A}. Arguments Blocked {A}. Arguments Fault {A}.

Definition fs (A : Type) : Type := fs_state -> outcome A.

Definition fret {A} (a : A) : fs A := fun s => Done a s.
Definition ffault {A} : fs A := fun _ => Fault.
Definition fbind {A B} (c : fs A) (k : A -> fs B) : fs B := fun s =>
  match c s with
  | Done a s' => k a s'
  | Blocked => Blocked
  | Fault => Fault
  end.
Definition fget {A} (f : fs_state -> A) : fs A := fun s => Done (f s) s.
Definition fmodify (f : fs_state -> fs_state) : fs unit := fun s => Done tt (f s).

Declare Scope fs_scope.
Delimit Scope fs_scope with fs.
Notation "x <- c ;; k" := (fbind c (fun x => k))
  (at level 100, c at next level, right associativity) : fs_scope.
Notation "'let*' p := c ;; k" := (fbind c (fun x => match x with p => k end))
  (at level 100, p strict pattern, c at next level, right associativity) : fs_scope.
Notation "c ;;; k" := (fbind c (fun _ : unit => k)) (at level 100, right associativity) : fs_scope.
#[global] Open Scope fs_scope.

Definition fwhen (b : bool) (c : fs unit) : fs unit := if b then c else fret tt.

(** [*p], and an assignment through [p]. *)
Definition deref (p : Z) : fs dentry := fun s =>
  match heap s !! p with Some d => Done d s | None => Fault end.

Definition assign (p : Z) (f : dentry -> dentry) : fs unit := fun s =>
  match heap s !! p with
  | Some d => Done tt (s <| heap := <[p := f d]> (heap s) |>)
  | None => Fault
  end.

(** A pointer that must not be [NULL]. *)
Definition non_null (o : option Z) : fs Z := match o with Some p => fret p | None => ffault end.

(** The outcome of the next allocation. *)
Definition malloc_ok : fs bool := fun s =>
  match mem s with
  | [] => Done true s
  | b :: m => Done b (s <| mem := m |>)
  end.

(** [malloc(sizeof(struct dentry))] and [free]. *)
Definition malloc_dentry : fs (option Z) :=
  ok <- malloc_ok;;
  if ok : bool then
    p <- fget next_address;;
    fmodify (fun s => s <| heap := <[p := zero_dentry]> (heap s) |> <| next_address := p + 1 |>);;;
    fret (Some p)
  else fret None.

Definition free_dentry (p : Z) : fs unit := fun s =>
  match heap s !! p with
  | Some _ => Done tt (s <| heap := delete p (heap s) |>)
  | None => Fault
  end.

Definition get_current_timespec : fs ltfs_timespec := fun s =>
  match clock s with
  | [] => Done zero_time s
  | t :: c => Done t (s <| clock := c |>)
  end.

(** ** Taking and releasing locks *)

Definition acquireread_mrsw (l : lock_id) : fs unit := fun s =>
  match locks s !! l with
  | None => Done tt (s <| locks := <[l := Rd 0]> (locks s) |>)
  | Some (Rd n) => Done tt (s <| locks := <[l := Rd (S n)]> (locks s) |>)
  | Some Wr => Blocked
  end.

Definition releaseread_mrsw (l : lock_id) : fs unit := fun s =>
  match locks s !! l with
  | Some (Rd 0) => Done tt (s <| locks := delete l (locks s) |>)
  | Some (Rd (S n)) => Done tt (s <| locks := <[l := Rd n]> (locks s) |>)
  | _ => Fault
  end.

Definition acquirewrite_mrsw (l : lock_id) : fs unit := fun s =>
  match locks s !! l with
  | None => Done tt (s <| locks := <[l := Wr]> (locks s) |>)
  | Some _ => Blocked
  end.

Definition releasewrite_mrsw (l : lock_id) : fs unit := fun s =>
  match locks s !! l with
  | Some Wr => Done tt (s <| locks := delete l (locks s) |>)
  | _ => Fault
  end.

(** [ltfs_mutex_lock], [ltfs_mutex_unlock]: a second lock by the same thread waits for ever. *)
Definition ltfs_mutex_lock := acquirewrite_mrsw.
Definition ltfs_mutex_unlock := releasewrite_mrsw.

(** [destroy_mrsw] of both locks of a dentry: they must not be held. *)
Definition destroy_locks (d : Z) : fs unit := fun s =>
  match locks s !! contents_lock d, locks s !! meta_lock d with
  | None, None => Done tt s
  | _, _ => Fault
  end.

(** ** The hash table of a directory *)

(** [fs_hash_sort_by_uid]: the difference of two 64-bit numbers as an [int]. *)
Definition fs_hash_sort_by_uid (a b : name_list) : Z := i32 (u64 (nl_uid a - nl_uid b)).

(** [HASH_FIND_STR] looks at the newest entry with the name first. *)
Definition hash_find (name : path) (l : list name_list) : option name_list :=
  List.find (fun e => bool_decide (nl_name e = name)) (reverse l).

(** [HASH_DEL] of the entry that was found: the newest with the name. *)
Fixpoint del_named (name : path) (l : list name_list) : list name_list :=
  match l with
  | [] => []
  | e :: l' => if bool_decide (nl_name e = name) then l' else e :: del_named name l'
  end.
Definition hash_del (name : path) (l : list name_list) : list name_list :=
  reverse (del_named name (reverse l)).

(** [generate_hash_key_name]: a copy of the name; [None] when there is no memory,
    with the return code 0. *)
Definition generate_hash_key_name (src : path) : fs (option path) :=
  ok <- malloc_ok;; fret (if ok : bool then Some src else None).

(** [fs_add_key_to_hash_table]: the new list and the return code.  [HASH_ADD_KEYPTR]
    ends the process when it gets no memory ([uthash_fatal]), so the branch for
    [ENOMEM] behind it is never taken. *)
Definition fs_add_key_to_hash_table (l : list name_list) (add_entry : Z)
    : fs (list name_list * Z) :=
  ok <- malloc_ok;;
  if negb ok then fret (l, - LTFS_NO_MEMORY)
  else
    d <- deref add_entry;;
    match platform_safe_name d with
    | None => ffault
    | Some psn =>
        key <- generate_hash_key_name psn;;
        match key with
        | None => fret (l, 0)
        | Some key => fret (l ++ [mk_name_list key add_entry (uid d)], 0)
        end
    end.

Definition fs_find_key_from_hash_table (l : list name_list) (name : path) : fs (option name_list) :=
  key <- generate_hash_key_name name;;
  fret (match key with Some k => hash_find k l | None => None end).

(** ** Counters of the index *)

Definition locked (l : lock_id) (c : fs unit) : fs unit :=
  ltfs_mutex_lock l;;; c;;; ltfs_mutex_unlock l.

Definition fs_increment_file_count : fs unit :=
  locked dirty_lock (fmodify (fun s => s <| file_count := u64 (file_count s + 1) |>)).

Definition fs_decrement_file_count : fs unit :=
  locked dirty_lock (fmodify (fun s => s <| file_count := u64 (file_count s - 1) |>)).

(** 0 once the numbers are used up. *)
Definition fs_allocate_uid : fs Z :=
  ltfs_mutex_lock dirty_lock;;;
  n <- fget uid_number;;
  let uid := if n =? 0 then 0 else u64 (n + 1) in
  fmodify (fun s => s <| uid_number := uid |>);;;
  ltfs_mutex_unlock dirty_lock;;;
  fret uid.

(** ** Allocating a dentry *)

(** A string that is duplicated: [None] without memory. *)
Definition strdup (p : path) : fs (option path) := generate_hash_key_name p.

(** [update_platform_safe_name] on every platform but Windows: a copy of the
    name, which must not be [NULL]. *)
Definition update_platform_safe_name (name : option path) : fs (option path) :=
  match name with Some n => strdup n | None => ffault end.

(** [d->name.name] and [d->platform_safe_name] for the arguments; [None] when
    one of the copies fails. *)
Definition allocate_names (name psn : option path) : fs (option (option path * option path)) :=
  match name, psn with
  | None, None => fret (Some (None, None))
  | Some n, None =>
      a <- strdup n;;
      b <- update_platform_safe_name a;;
      fret (match a, b with Some a, Some b => Some (Some a, Some b) | _, _ => None end)
  | n, Some p =>
      a <- strdup (default p n);;
      b <- strdup p;;
      fret (match a, b with Some a, Some b => Some (Some a, Some b) | _, _ => None end)
  end.

(** Fail: free what was allocated and return [NULL]. *)
Definition drop_dentry (d : Z) : fs (option Z) := free_dentry d;;; fret None.

(** [locks_ok]: the locks of the dentry could be initialised. *)
Definition fs_allocate_dentry (locks_ok : bool) (parent_d : option Z) (name psn : option path)
    (dir ro allocate_uid : bool) : fs (option Z) :=
  m <- malloc_dentry;;
  match m with
  | None => fret None
  | Some d =>
      assign d (fun x => x <| parent := parent_d |>);;;
      names <- allocate_names name psn;;
      match names with
      | None => drop_dentry d
      | Some (n, p) =>
          assign d (fun x => x <| dname := n |> <| platform_safe_name := p |> <| isdir := dir |>
            <| readonly := ro |> <| numhandles := 1 |> <| link_count := if dir then 1 else 0 |>
            <| name_percent_encode :=
                 match n with Some n => fs_is_percent_encode_required n | None => false end |>);;;
          ltfs_mutex_lock inode_mutex;;;
          fmodify (fun s => s <| inode_number := u64 (inode_number s + 1) |>);;;
          i <- fget inode_number;;
          assign d (fun x => x <| ino := i |>);;;
          ltfs_mutex_unlock inode_mutex;;;
          u <- (if allocate_uid then fs_allocate_uid else fret 1);;
          assign d (fun x => x <| uid := u |>);;;
          if u =? 0 then drop_dentry d
          else if negb locks_ok then drop_dentry d
          else
            match parent_d with
            | None => fret (Some d)
            | Some pa =>
                acquirewrite_mrsw (contents_lock pa);;;
                acquirewrite_mrsw (meta_lock pa);;;
                rc <- match p with
                      | None => fret 0
                      | Some _ =>
                          pd <- deref pa;;
                          let* (l, rc) := fs_add_key_to_hash_table (child_list pd) d;;
                          assign pa (fun x => x <| child_list := l |>);;;
                          fret rc
                      end;;
                if negb (rc =? 0) then
                  releasewrite_mrsw (meta_lock pa);;;
                  releasewrite_mrsw (contents_lock pa);;;
                  drop_dentry d
                else
                  assign d (fun x => x <| link_count := u32 (link_count x + 1) |>);;;
                  fwhen dir (assign pa (fun x => x <| link_count := u32 (link_count x + 1) |>));;;
                  releasewrite_mrsw (meta_lock pa);;;
                  releasewrite_mrsw (contents_lock pa);;;
                  fwhen (negb dir) fs_increment_file_count;;;
                  fret (Some d)
            end
      end
  end.

(** ** Looking up a name in a directory *)

Definition LTFS_FILENAME_MAX : Z := 255.

Section lookup.
(** The number of characters of a UTF-8 string, by ICU. *)
Variable pathname_strlen : path -> Z.

(** The return code and [*dentry]; a dentry that is found gets a handle. *)
Definition fs_directory_lookup (basedir : Z) (name : path) : fs (Z * option Z) :=
  if LTFS_FILENAME_MAX <? pathname_strlen name then fret (- LTFS_NAMETOOLONG, None)
  else
    b <- deref basedir;;
    if zlength (child_list b) =? 0 then fret (0, None)
    else
      namelist <- fs_find_key_from_hash_table (child_list b) name;;
      match namelist with
      | None => fret (0, None)
      | Some e =>
          acquirewrite_mrsw (meta_lock (nl_d e));;;
          assign (nl_d e) (fun x => x <| numhandles := u32 (numhandles x + 1) |>);;;
          releasewrite_mrsw (meta_lock (nl_d e));;;
          fret (0, Some (nl_d e))
      end.
End lookup.

(** ** Disposing of a dentry *)

(** The links of a dentry that is freed, to its children and from its parent. *)
Definition unlink_from_parent (d : Z) : fs unit :=
  x <- deref d;;
  match parent x, platform_safe_name x with
  | None, _ => fret tt
  | Some _, None => ffault
  | Some pa, Some psn =>
      pd <- deref pa;;
      namelist <- fs_find_key_from_hash_table (child_list pd) psn;;
      match namelist with
      | Some e => assign pa (fun y => y <| child_list := hash_del (nl_name e) (child_list y) |>)
      | None => fret tt
      end;;;
      assign d (fun y => y <| parent := None |>)
  end.

Definition detach_child (d : Z) (e : name_list) : fs unit :=
  assign d (fun y => y <| child_list := hash_del (nl_name e) (child_list y) |>);;;
  assign (nl_d e) (fun y => y <| parent := None |>).

Fixpoint fseq {A} (f : A -> fs unit) (l : list A) : fs unit :=
  match l with [] => fret tt | x :: l' => f x;;; fseq f l' end.

(** [_fs_dispose_dentry_contents]: the recursion follows the children; [fuel]
    bounds its depth. *)
Fixpoint _fs_dispose_dentry_contents (fuel : nat) (d : Z) (unlock gc : bool) : fs unit :=
  match fuel with
  | O => ffault
  | S fuel' =>
      x <- deref d;;
      fseq (fun e =>
        detach_child d e;;;
        c <- deref (nl_d e);;
        if negb gc then
          if negb (numhandles c =? 1) then fret tt
          else
            assign (nl_d e) (fun y => y <| numhandles := u32 (numhandles y - 1) |>);;;
            _fs_dispose_dentry_contents fuel' (nl_d e) false gc
        else if negb (numhandles c =? 0) then fret tt
        else _fs_dispose_dentry_contents fuel' (nl_d e) false gc) (child_list x);;;
      unlink_from_parent d;;;
      fwhen unlock (releasewrite_mrsw (meta_lock d));;;
      destroy_locks d;;;
      free_dentry d
  end.

(** One level of recursion per live dentry, and one more. *)
Definition dispose (d : Z) (unlock gc : bool) : fs unit := fun s =>
  _fs_dispose_dentry_contents (S (S (base.size (heap s)))) d unlock gc s.

Definition fs_release_dentry_unlocked (d : Z) : fs unit :=
  assign d (fun x => x <| numhandles := u32 (numhandles x - 1) |>);;;
  x <- deref d;;
  if negb (numhandles x =? 0) || out_of_sync x then releasewrite_mrsw (meta_lock d)
  else dispose d true false.

Definition fs_release_dentry (d : Z) : fs unit :=
  acquirewrite_mrsw (meta_lock d);;; fs_release_dentry_unlocked d.

Fixpoint fs_gc_dentry (fuel : nat) (d : Z) : fs unit :=
  match fuel with
  | O => ffault
  | S fuel' =>
      acquirewrite_mrsw (meta_lock d);;;
      x <- deref d;;
      if (numhandles x =? 0) && negb (out_of_sync x) then dispose d true true
      else
        releasewrite_mrsw (meta_lock d);;;
        fseq (fun e => fs_gc_dentry fuel' (nl_d e)) (child_list x)
  end.

(** ** Looking up a path *)

Definition LOCK_PARENT_CONTENTS_R : Z := 1.
Definition LOCK_PARENT_CONTENTS_W : Z := 2.
Definition LOCK_PARENT_META_R : Z := 4.
Definition LOCK_PARENT_META_W : Z := 8.
Definition LOCK_DENTRY_CONTENTS_R : Z := 16.
Definition LOCK_DENTRY_CONTENTS_W : Z := 32.
Definition LOCK_DENTRY_META_R : Z := 64.
Definition LOCK_DENTRY_META_W : Z := 128.

Definition flag (flags mask : Z) : bool := negb (Z.land flags mask =? 0).

(** The names that [strstr(start, "/")] cuts a path into. *)
Fixpoint split_path (acc : path) (p : path) : list path :=
  match p with
  | [] => [rev acc]
  | c :: p' => if c =? char_slash then rev acc :: split_path [] p' else split_path (c :: acc) p'
  end.

Section path_lookup.
Variable pathname_strlen : path -> Z.

(** The [while (end)] loop of [fs_path_lookup]; [d] is the directory to search
    and [prev] the one before it.  The last name is the one without an [end]. *)
Fixpoint path_lookup_loop (flags : Z) (d : Z) (prev : option Z) (names : list path)
    : fs (Z * option Z * option Z) :=
  match names with
  | [] => ffault
  | n :: rest =>
      let last := match rest with [] => true | _ => false end in
      let for_write := last && flag flags LOCK_PARENT_CONTENTS_W in
      (if for_write then acquirewrite_mrsw (contents_lock d)
       else acquireread_mrsw (contents_lock d));;;
      match prev with
      | Some p => releaseread_mrsw (contents_lock p)
      | None => fret tt
      end;;;
      let* (ret, found) := fs_directory_lookup pathname_strlen d n;;
      match (if ret <? 0 then None else found) with
      | None =>
          (if for_write then releasewrite_mrsw (contents_lock d)
           else releaseread_mrsw (contents_lock d));;;
          fs_release_dentry d;;;
          fret (if ret =? 0 then - LTFS_NO_DENTRY else ret, None, None)
      | Some c =>
          fwhen (negb last ||
                 negb (flag flags (Z.lor (Z.lor (Z.lor LOCK_PARENT_CONTENTS_W LOCK_PARENT_CONTENTS_R)
                                    LOCK_PARENT_META_W) LOCK_PARENT_META_R)))
            (acquirewrite_mrsw (meta_lock d);;;
             assign d (fun x => x <| numhandles := u32 (numhandles x - 1) |>);;;
             releasewrite_mrsw (meta_lock d));;;
          if last then
            fwhen (negb (flag flags (Z.lor LOCK_PARENT_CONTENTS_W LOCK_PARENT_CONTENTS_R)))
              (releaseread_mrsw (contents_lock d));;;
            fret (0, Some c, Some d)
          else path_lookup_loop flags c (Some d) rest
      end
  end.

Definition is_root_path (p : path) : bool := bool_decide (p = []) || bool_decide (p = [char_slash]).

Definition lock_by_flags (flags w r : Z) (l : lock_id) : fs unit :=
  if flag flags w then acquirewrite_mrsw l
  else if flag flags r then acquireread_mrsw l else fret tt.

(** The return code and [*dentry], which is set on success only. *)
Definition fs_path_lookup (p : path) (flags : Z) : fs (Z * option Z) :=
  ok <- malloc_ok;;
  if negb ok then fret (- LTFS_NO_MEMORY, None)
  else
    r <- fget root;;
    acquirewrite_mrsw (meta_lock r);;;
    assign r (fun x => x <| numhandles := u32 (numhandles x + 1) |>);;;
    releasewrite_mrsw (meta_lock r);;;
    let* (ret, d, pa) := (if is_root_path p then fret (0, Some r, None)
                      else path_lookup_loop flags r None (split_path [] (tail p)));;
    if ret =? 0 then
      match pa with
      | Some pa => lock_by_flags flags LOCK_PARENT_META_W LOCK_PARENT_META_R (meta_lock pa)
      | None => fret tt
      end;;;
      d <- non_null d;;
      lock_by_flags flags LOCK_DENTRY_CONTENTS_W LOCK_DENTRY_CONTENTS_R (contents_lock d);;;
      lock_by_flags flags LOCK_DENTRY_META_W LOCK_DENTRY_META_R (meta_lock d);;;
      fret (0, Some d)
    else fret (ret, None).

(** [fs_path_clean]: the same walk, clearing [dirty] on the way. *)
Fixpoint path_clean_loop (d : Z) (prev : option Z) (names : list path) : fs Z :=
  match names with
  | [] => ffault
  | n :: rest =>
      acquireread_mrsw (contents_lock d);;;
      match prev with
      | Some p => releaseread_mrsw (contents_lock p)
      | None => fret tt
      end;;;
      let* (ret, found) := fs_directory_lookup pathname_strlen d n;;
      match (if ret <? 0 then None else found) with
      | None =>
          releaseread_mrsw (contents_lock d);;;
          fs_release_dentry d;;;
          fret (if ret =? 0 then - LTFS_NO_DENTRY else ret)
      | Some c =>
          acquirewrite_mrsw (meta_lock d);;;
          assign d (fun x => x <| numhandles := u32 (numhandles x - 1) |>);;;
          releasewrite_mrsw (meta_lock d);;;
          assign c (fun x => x <| dirty := false |>);;;
          match rest with
          | [] => releaseread_mrsw (contents_lock d);;; fret 0
          | _ => path_clean_loop c (Some d) rest
          end
      end
  end.

Definition fs_path_clean (p : path) : fs Z :=
  ok <- malloc_ok;;
  if negb ok then fret (- LTFS_NO_MEMORY)
  else
    r <- fget root;;
    acquirewrite_mrsw (meta_lock r);;;
    assign r (fun x => x <| numhandles := u32 (numhandles x + 1) |>);;;
    releasewrite_mrsw (meta_lock r);;;
    assign r (fun x => x <| dirty := false |>);;;
    if is_root_path p then fret 0 else path_clean_loop r None (split_path [] (tail p)).
End path_lookup.

Fixpoint fs_dir_clean (fuel : nat) (d : Z) : fs Z :=
  match fuel with
  | O => ffault
  | S fuel' =>
      x <- deref d;;
      if isdir x then
        fseq (fun e => _ <- fs_dir_clean fuel' (nl_d e);; fret tt) (child_list x);;;
        fret 0
      else assign d (fun y => y <| dirty := false |>);;; fret 0
  end.

(** [fs_split_path]: the directory part and the file name, cut at the last
    separator; [None] when there is none. *)
Fixpoint cut_last_slash (p : path) : option (path * path) :=
  match p with
  | [] => None
  | c :: p' =>
      match cut_last_slash p' with
      | Some (a, b) => Some (c :: a, b)
      | None => if c =? char_slash then Some ([], p') else None
      end
  end.

Definition fs_split_path (p : path) : option (path * path) := cut_last_slash p.

(** ** The path of a dentry *)

(** The dentry and its ancestors, innermost first: the loop over [parent]. *)
Fixpoint ancestors (fuel : nat) (d : Z) : fs (list Z) :=
  match fuel with
  | O => ffault
  | S fuel' =>
      x <- deref d;;
      match parent x with
      | None => fret [d]
      | Some p => l <- ancestors fuel' p;; fret (d :: l)
      end
  end.

(** No chain of parents is longer than the number of live dentries. *)
Definition chain (d : Z) : fs (list Z) := fun s => ancestors (S (base.size (heap s))) d s.

(** The names of the chain, each read under the lock of the parent: an error
    leaves the loop with the lock held. *)
Fixpoint collect_names (l : list Z) : fs (Z * list path) :=
  match l with
  | [] => fret (0, [])
  | d :: up =>
      x <- deref d;;
      match parent x with
      | Some p => acquireread_mrsw (contents_lock p)
      | None => fret tt
      end;;;
      match platform_safe_name x with
      | None =>
          if deleted x || bool_decide (parent x <> None) then fret (- LTFS_NO_DENTRY, [])
          else
            ok <- malloc_ok;;
            if negb ok then fret (1, []) else
            let* (ret, ns) := collect_names up;; fret (ret, ns ++ [[char_slash]])
      | Some n =>
          ok <- malloc_ok;;
          if negb ok then fret (1, []) else
          match parent x with
          | Some p => releaseread_mrsw (contents_lock p)
          | None => fret tt
          end;;;
          let* (ret, ns) := collect_names up;; fret (ret, ns ++ [n])
      end
  end.

(** [strcat] with a separator after all but the first and the last name. *)
Fixpoint join_names (i : nat) (l : list path) : path :=
  match l with
  | [] => []
  | n :: rest =>
      n ++ (match i, rest with O, _ => [] | _, [] => [] | _, _ => [char_slash] end) ++
      join_names (S i) rest
  end.

(** The return code and [*name].  When a copy of a name fails ([1] above), the
    code returned is 0 and the name is [NULL]. *)
Definition fs_dentry_lookup (d : Z) : fs (Z * option path) :=
  l <- chain d;;
  ok <- malloc_ok;;
  if negb ok then fret (- LTFS_NO_MEMORY, None)
  else
    let* (ret, names) := collect_names l;;
    if ret =? 1 then fret (0, None)
    else if negb (ret =? 0) then fret (ret, None)
    else
      ok <- malloc_ok;;
      if negb ok then fret (- LTFS_NO_MEMORY, None) else fret (0, Some (join_names 0 names)).

(** ** Ancestors and space *)

Definition fs_is_predecessor (d1 d2 : Z) : fs bool :=
  l <- chain d2;; fret (existsb (Z.eqb d1) l).

Definition fs_get_used_blocks (blocksize : Z) (d : dentry) : Z :=
  fold_left (fun used e =>
    let n := u64 (byteoffset e + bytecount e) in
    let used := u64 (used + n / blocksize) in
    if n mod blocksize =? 0 then used else u64 (used + 1)) (extentlist d) 0.
