(* ===== verification/DentryRun.v ===== *)
(** * Reasoning about runs on the dentry heap

    A run [c s] of [Dentry] that ends without waiting for itself and without a
    fault, in a result that satisfies [Q], is [wp c s Q].  The rules below
    follow a run step by step; states are written [st s h L], the state [s] with
    the heap [h] and the held locks [L], so that the steps of a run only change
    [h] and [L]. *)

From S2P Require Import Prelude LtfsError Extents TapeOps TapeLayer Journal Dentry.

Definition wp {A} (c : fs A) (s : fs_state) (Q : A -> fs_state -> Prop) : Prop :=
  match c s with Done a s' => Q a s' | _ => False end.

Definition st (s : fs_state) (h : gmap Z dentry) (L : gmap lock_id lock_state) : fs_state :=
  s <| heap := h |> <| locks := L |>.

Lemma st_eta s : s = st s (heap s) (locks s).
Proof. by destruct s. Qed.

Lemma st_st s h L h' L' : st (st s h L) h' L' = st s h' L'.
Proof. done. Qed.

Lemma wp_done {A} (c : fs A) s Q : wp c s Q -> exists a s', c s = Done a s' /\ Q a s'.
Proof. unfold wp. destruct (c s); naive_solver. Qed.

Lemma wp_mono {A} (c : fs A) s (P Q : A -> fs_state -> Prop) :
  wp c s P -> (forall a s', P a s' -> Q a s') -> wp c s Q.
Proof. unfold wp. destruct (c s); naive_solver. Qed.

Lemma wp_bind {A B} (c : fs A) (k : A -> fs B) s Q :
  wp c s (fun a s' => wp (k a) s' Q) -> wp (fbind c k) s Q.
Proof. unfold wp, fbind. destruct (c s); auto. Qed.

(** From a rule about [st] to the run itself. *)
Lemma wp_at {A} (c : fs A) s Q :
  wp c (st s (heap s) (locks s)) Q -> exists a s', c s = Done a s' /\ Q a s'.
Proof. rewrite <- st_eta. apply wp_done. Qed.

Lemma wp_eq {A} (c : fs A) s X :
  wp c (st s (heap s) (locks s)) (fun a s' => Done a s' = X) -> c s = X.
Proof. intros (a & s' & -> & H)%wp_at. done. Qed.

Section rules.
Context (s : fs_state) (h : gmap Z dentry) (L : gmap lock_id lock_state).

Lemma wp_ret {A} (a : A) Q : Q a (st s h L) -> wp (fret a) (st s h L) Q.
Proof. done. Qed.

Lemma wp_get {A} (f : fs_state -> A) Q : Q (f (st s h L)) (st s h L) -> wp (fget f) (st s h L) Q.
Proof. done. Qed.

(** An update of fields other than the heap and the locks. *)
Lemma wp_modify f Q :
  (forall s0, heap (f s0) = heap s0 /\ locks (f s0) = locks s0) ->
  Q tt (st (f (st s h L)) h L) -> wp (fmodify f) (st s h L) Q.
Proof.
  intros Hf HQ. unfold wp, fmodify. rewrite (st_eta (f (st s h L))).
  destruct (Hf (st s h L)) as [-> ->]. exact HQ.
Qed.

Lemma wp_when (b : bool) c Q :
  (b = true -> wp c (st s h L) Q) -> (b = false -> Q tt (st s h L)) -> wp (fwhen b c) (st s h L) Q.
Proof. destruct b; cbn; auto. Qed.

Lemma wp_deref p d Q : h !! p = Some d -> Q d (st s h L) -> wp (deref p) (st s h L) Q.
Proof. intros H HQ. unfold wp, deref. cbn. by rewrite H. Qed.

Lemma wp_assign p f d Q :
  h !! p = Some d -> Q tt (st s (alter f p h) L) -> wp (assign p f) (st s h L) Q.
Proof.
  intros H HQ. unfold wp, assign. cbn. rewrite H.
  replace (<[p := f d]> h) with (alter f p h); [done|].
  apply map_eq. intros i. destruct (decide (i = p)) as [->|]; by simplify_map_eq.
Qed.

Lemma wp_malloc_ok Q : mem s = [] -> Q true (st s h L) -> wp malloc_ok (st s h L) Q.
Proof. intros H HQ. unfold wp, malloc_ok. cbn. by rewrite H. Qed.

Lemma wp_strdup p Q : mem s = [] -> Q (Some p) (st s h L) -> wp (strdup p) (st s h L) Q.
Proof. intros H HQ. apply wp_bind, wp_malloc_ok; [done|]. by apply wp_ret. Qed.

Lemma wp_acquireread_free l Q :
  L !! l = None -> Q tt (st s h (<[l := Rd 0]> L)) -> wp (acquireread_mrsw l) (st s h L) Q.
Proof. intros H HQ. unfold wp, acquireread_mrsw. cbn. by rewrite H. Qed.

Lemma wp_acquireread l n Q :
  L !! l = Some (Rd n) -> Q tt (st s h (<[l := Rd (S n)]> L)) ->
  wp (acquireread_mrsw l) (st s h L) Q.
Proof. intros H HQ. unfold wp, acquireread_mrsw. cbn. by rewrite H. Qed.

Lemma wp_acquirewrite l Q :
  L !! l = None -> Q tt (st s h (<[l := Wr]> L)) -> wp (acquirewrite_mrsw l) (st s h L) Q.
Proof. intros H HQ. unfold wp, acquirewrite_mrsw. cbn. by rewrite H. Qed.

Lemma wp_releaseread l Q :
  L !! l = Some (Rd 0) -> Q tt (st s h (delete l L)) -> wp (releaseread_mrsw l) (st s h L) Q.
Proof. intros H HQ. unfold wp, releaseread_mrsw. cbn. by rewrite H. Qed.

Lemma wp_releasewrite l Q :
  L !! l = Some Wr -> Q tt (st s h (delete l L)) -> wp (releasewrite_mrsw l) (st s h L) Q.
Proof. intros H HQ. unfold wp, releasewrite_mrsw. cbn. by rewrite H. Qed.

Lemma wp_destroy_locks d Q :
  L !! contents_lock d = None -> L !! meta_lock d = None -> Q tt (st s h L) ->
  wp (destroy_locks d) (st s h L) Q.
Proof. intros H1 H2 HQ. unfold wp, destroy_locks. cbn. by rewrite H1, H2. Qed.

Lemma wp_free p d Q : h !! p = Some d -> Q tt (st s (delete p h) L) -> wp (free_dentry p) (st s h L) Q.
Proof. intros H HQ. unfold wp, free_dentry. cbn. by rewrite H. Qed.

Lemma wp_timespec Q :
  (forall t c, Q t (st (s <| clock := c |>) h L)) -> wp get_current_timespec (st s h L) Q.
Proof.
  intros HQ. unfold wp, get_current_timespec. cbn. destruct (clock s) as [|t c] eqn:E.
  - specialize (HQ zero_time []). rewrite <- E in HQ. by destruct s.
  - exact (HQ t c).
Qed.

(** A section under a mutex that was free. *)
Lemma wp_locked l f Q :
  L !! l = None -> (forall s0, heap (f s0) = heap s0 /\ locks (f s0) = locks s0) ->
  Q tt (st (f (st s h (<[l := Wr]> L))) h L) -> wp (locked l (fmodify f)) (st s h L) Q.
Proof.
  intros Hl Hf HQ. apply wp_bind, wp_acquirewrite; [done|]. apply wp_bind.
  unfold wp at 1, fmodify. rewrite (st_eta (f _)). destruct (Hf (st s h (<[l := Wr]> L))) as [-> ->].
  cbn. unfold wp, ltfs_mutex_unlock, releasewrite_mrsw. cbn. rewrite lookup_insert_eq.
  by rewrite delete_insert_id.
Qed.
End rules.

(** [map_side] proves what a lookup in an updated map gives. *)
Ltac key_ne := first [congruence | intros [=]; congruence | done].
Ltac map_side :=
  first [ eassumption
        | done
        | repeat first [ rewrite lookup_insert_eq | rewrite lookup_insert_ne by key_ne
                       | rewrite lookup_delete_eq | rewrite lookup_delete_ne by key_ne
                       | rewrite lookup_alter_eq | rewrite lookup_alter_ne by key_ne ];
          first [ done | eassumption
                | match goal with H : ?m !! ?k = _ |- context [?m !! ?k] => rewrite H; reflexivity end ] ].

(** [wp_step] takes one step of a run. *)
Ltac wp_step :=
  lazymatch goal with
  | |- wp (fbind _ _) _ _ => apply wp_bind
  | |- wp (fret _) _ _ => apply wp_ret
  | |- wp (fget ?f) (st ?s ?h ?L) _ => apply wp_get; try change (f (st s h L)) with (f s)
  | |- wp (deref _) _ _ => eapply wp_deref; [map_side|]
  | |- wp (assign _ _) _ _ => eapply wp_assign; [map_side|]
  | |- wp malloc_ok _ _ => apply wp_malloc_ok; [map_side|]
  | |- wp (strdup _) _ _ => apply wp_strdup; [map_side|]
  | |- wp (generate_hash_key_name _) _ _ => apply wp_strdup; [map_side|]
  | |- wp (acquirewrite_mrsw _) _ _ => apply wp_acquirewrite; [map_side|]
  | |- wp (ltfs_mutex_lock _) _ _ => apply wp_acquirewrite; [map_side|]
  | |- wp (releasewrite_mrsw _) _ _ => apply wp_releasewrite; [map_side|]
  | |- wp (ltfs_mutex_unlock _) _ _ => apply wp_releasewrite; [map_side|]
  | |- wp (releaseread_mrsw _) _ _ => apply wp_releaseread; [map_side|]
  | |- wp (acquireread_mrsw _) _ _ => apply wp_acquireread_free; [map_side|]
  | |- wp (free_dentry _) _ _ => eapply wp_free; [map_side|]
  | |- wp (destroy_locks _) _ _ => apply wp_destroy_locks; [map_side|map_side|]
  | |- wp (fmodify _) _ _ => apply wp_modify; [by intros []|]
  | |- wp (non_null (Some _)) _ _ => apply wp_ret
  | |- wp (let '(_, _) := (_, _) in _) _ _ => cbv beta iota
  end.
Ltac wp_run := repeat (wp_step; cbn beta iota delta [negb]).
