(* ===== verification/DentryTree.v ===== *)
(** * The tree that the dentries form

    The invariant of the dentry heap ([tree_ok]): child and parent pointers
    agree, the names of a directory are distinct, the parent pointers have no
    cycle.  A name below a directory is then a function, [child], and a path
    from a directory another, [resolve], and every dentry has one path. *)

From stdpp Require Import relations.
From S2P Require Import Prelude LtfsError Extents TapeOps TapeLayer Journal Dentry DentryRun.

(** ** The invariant *)

(** A name in a directory: not empty, no separator. *)
Definition file_name (n : path) : Prop := n <> [] /\ char_slash ∉ n.

Definition parent_of (h : gmap Z dentry) (p d : Z) : Prop :=
  exists x, h !! d = Some x /\ parent x = Some p.

Record tree_ok (h : gmap Z dentry) (r : Z) : Prop := {
  t_root : exists x, h !! r = Some x /\ parent x = None /\ platform_safe_name x = None /\
                     isdir x = true /\ deleted x = false;
  t_up : forall d x p, h !! d = Some x -> parent x = Some p ->
    exists y n, h !! p = Some y /\ isdir y = true /\ platform_safe_name x = Some n /\
                dname x = Some n /\ deleted x = false /\
                file_name n /\ mk_name_list n d (uid x) ∈ child_list y;
  t_down : forall p y e, h !! p = Some y -> e ∈ child_list y ->
    exists x, h !! nl_d e = Some x /\ parent x = Some p /\
              platform_safe_name x = Some (nl_name e) /\ uid x = nl_uid e;
  t_names : forall p y, h !! p = Some y -> NoDup (nl_name <$> child_list y);
  t_acyclic : forall d, Acc (parent_of h) d;
}.

(** ** Finding an entry by its name *)

Lemma nodup_key_inj {A B} (f : A -> B) (l : list A) x y :
  NoDup (f <$> l) -> x ∈ l -> y ∈ l -> f x = f y -> x = y.
Proof.
  induction l as [|z l IH]; cbn; intros Hn Hx Hy E; [by apply not_elem_of_nil in Hx|].
  apply NoDup_cons in Hn as [Hz Hn].
  apply elem_of_cons in Hx as [->|Hx], Hy as [->|Hy]; [done| | |by apply IH].
  - destruct Hz. apply list_elem_of_fmap. eauto.
  - destruct Hz. apply list_elem_of_fmap. eauto.
Qed.

Lemma hash_find_some n l e : hash_find n l = Some e -> e ∈ l /\ nl_name e = n.
Proof.
  intros H. apply List.find_some in H as [H1 H2]. apply bool_decide_eq_true in H2.
  by rewrite <- list_elem_of_In, elem_of_reverse in H1.
Qed.

Lemma hash_find_none n l e : hash_find n l = None -> e ∈ l -> nl_name e <> n.
Proof.
  intros H He. rewrite <- elem_of_reverse, list_elem_of_In in He.
  pose proof (List.find_none _ _ H e He) as E. by apply bool_decide_eq_false in E.
Qed.

Lemma hash_find_in n l e :
  NoDup (nl_name <$> l) -> e ∈ l -> nl_name e = n -> hash_find n l = Some e.
Proof.
  intros Hn He En. destruct (hash_find n l) as [e'|] eqn:E.
  - apply hash_find_some in E as [He' En']. f_equal. apply (nodup_key_inj nl_name l); congruence.
  - by apply (hash_find_none _ _ e) in E.
Qed.

(** The table after an entry is added or deleted, by name. *)
Lemma hash_find_add n l e : hash_find n (l ++ [e]) = if bool_decide (nl_name e = n) then Some e else hash_find n l.
Proof. unfold hash_find. by rewrite reverse_app. Qed.

Lemma filter_all {A} (P : A -> Prop) `{forall x, Decision (P x)} l : Forall P l -> filter P l = l.
Proof. induction 1; [done|]. rewrite filter_cons_True by done. by f_equal. Qed.

Lemma del_named_filter n l :
  NoDup (nl_name <$> l) -> del_named n l = filter (fun e => nl_name e <> n) l.
Proof.
  induction l as [|e l IH]; intros Hn; [done|]. rewrite fmap_cons in Hn.
  apply NoDup_cons in Hn as [He Hn]. cbn [del_named]. rewrite filter_cons. destruct (decide (nl_name e = n)) as [E|E].
  - rewrite bool_decide_true, decide_False by naive_solver. symmetry. apply filter_all.
    apply Forall_forall. intros e' He' E'. destruct He. apply list_elem_of_fmap. exists e'. split; congruence.
  - rewrite bool_decide_false, decide_True by done. by rewrite IH.
Qed.

Lemma hash_del_filter n l :
  NoDup (nl_name <$> l) -> hash_del n l = filter (fun e => nl_name e <> n) l.
Proof.
  intros Hn. unfold hash_del. rewrite del_named_filter.
  - rewrite <- filter_reverse. by rewrite reverse_involutive.
  - by rewrite fmap_reverse, reverse_Permutation.
Qed.

(** ** Names and paths *)

(** The child of the directory [d] with the name [n]. *)
Definition child (h : gmap Z dentry) (d : Z) (n : path) : option Z :=
  x ← h !! d; e ← hash_find n (child_list x); Some (nl_d e).

Fixpoint resolve (h : gmap Z dentry) (d : Z) (names : list path) : option Z :=
  match names with
  | [] => Some d
  | n :: rest => c ← child h d n; resolve h c rest
  end.

Lemma resolve_app h d p q : resolve h d (p ++ q) = c ← resolve h d p; resolve h c q.
Proof. revert d. induction p as [|n p IH]; intros d; [done|]. cbn. destruct (child h d n); cbn; auto. Qed.

Lemma resolve_snoc h d p n : resolve h d (p ++ [n]) = c ← resolve h d p; child h c n.
Proof. rewrite resolve_app. destruct (resolve h d p) as [c|]; [|done]. cbn. by destruct (child h c n). Qed.

(** Two heaps whose edges agree along a path resolve it alike. *)
Lemma resolve_agree h h' d q :
  (forall q1 n q2 c, q = q1 ++ n :: q2 -> resolve h d q1 = Some c -> child h' c n = child h c n) ->
  resolve h' d q = resolve h d q.
Proof.
  revert d. induction q as [|n q IH]; intros d H; [done|]. cbn.
  rewrite (H [] n q d) by done. destruct (child h d n) as [c|] eqn:E; [|done]. cbn.
  apply IH. intros q1 m q2 c' -> Hr. apply (H (n :: q1) m q2 c'); [done|]. cbn. by rewrite E.
Qed.

(** ** Chains of parents *)

Lemma acc_no_cycle {A} (R : A -> A -> Prop) x : Acc R x -> ~ tc R x x.
Proof.
  induction 1 as [x _ IH]. intros H.
  assert (exists y, rtc R x y /\ R y x) as (y & H1 & H2).
  { clear IH. revert H. generalize x at 2 4 as z. intros z H.
    induction H as [x y H|x y z H _ (w & IH1 & IH2)]; eauto using rtc_refl, rtc_l. }
  apply (IH y H2). eapply tc_rtc_r; [by apply tc_once|done].
Qed.

(** The dentry and its ancestors, innermost first. *)
Inductive up (h : gmap Z dentry) : Z -> list Z -> Prop :=
  | up_root d x : h !! d = Some x -> parent x = None -> up h d [d]
  | up_step d x p l : h !! d = Some x -> parent x = Some p -> up h p l -> up h d (d :: l).

Lemma up_ancestors h d l : up h d l -> forall e, e ∈ l <-> rtc (parent_of h) e d.
Proof.
  induction 1 as [d x Hd Hp|d x p l Hd Hp Hl IH]; intros e.
  - rewrite list_elem_of_singleton. split; [by intros ->|]. intros H.
    apply rtc_inv_r in H as [->|(y & _ & z & Hz & Hy)]; [done|]. congruence.
  - rewrite elem_of_cons, IH. split.
    + intros [->|He]; [done|]. eapply rtc_r; [done|]. by exists x.
    + intros H. apply rtc_inv_r in H as [->|(y & H & z & Hz & Hy)]; [by left|right].
      by assert (y = p) as -> by congruence.
Qed.

Lemma up_live h d l e : up h d l -> e ∈ l -> is_Some (h !! e).
Proof.
  induction 1 as [d x Hd Hp|d x p l Hd Hp Hl IH]; intros He.
  - apply list_elem_of_singleton in He as ->. eauto.
  - apply elem_of_cons in He as [->|He]; eauto.
Qed.

Section tree.
Context (h : gmap Z dentry) (r : Z) (T : tree_ok h r).

Lemma parent_live d p : parent_of h p d -> is_Some (h !! p).
Proof. intros (x & Hx & Hp). destruct (t_up _ _ T _ _ _ Hx Hp) as (y & n & Hy & _). eauto. Qed.

Lemma no_cycle d : ~ tc (parent_of h) d d.
Proof. apply acc_no_cycle, (t_acyclic _ _ T). Qed.

Lemma up_total d : is_Some (h !! d) -> exists l, up h d l.
Proof.
  induction (t_acyclic _ _ T d) as [d _ IH]. intros [x Hx].
  destruct (parent x) as [p|] eqn:Hp; [|eauto using up_root].
  assert (parent_of h p d) as Hpd by (by exists x).
  destruct (IH p Hpd (parent_live _ _ Hpd)) as [l Hl]. eauto using up_step.
Qed.

Lemma up_nodup d l : up h d l -> NoDup l.
Proof.
  induction 1 as [d x Hd Hp|d x p l Hd Hp Hl IH]; [apply NoDup_singleton|].
  apply NoDup_cons. split; [|done]. intros Hin. apply (up_ancestors _ _ _ Hl) in Hin.
  apply (no_cycle d). eapply tc_rtc_l; [done|]. apply tc_once. by exists x.
Qed.

Lemma up_length d l : up h d l -> (length l <= base.size h)%nat.
Proof.
  intros H. rewrite <- (size_list_to_set (C := gset Z)) by by eapply up_nodup.
  rewrite <- (size_dom (D := gset Z)). apply subseteq_size. intros e He.
  apply elem_of_list_to_set in He. apply elem_of_dom. by eapply up_live.
Qed.

(** A name below a directory. *)
Lemma child_iff d n c :
  child h d n = Some c <->
  exists x, h !! c = Some x /\ parent x = Some d /\ platform_safe_name x = Some n.
Proof.
  unfold child. split.
  - intros (y & Hy & H)%bind_Some. apply bind_Some in H as (e & He & [= <-]).
    apply hash_find_some in He as [He <-].
    destruct (t_down _ _ T _ _ _ Hy He) as (x & ? & ? & ? & _). eauto.
  - intros (x & Hx & Hp & Hn). destruct (t_up _ _ T _ _ _ Hx Hp) as (y & n' & Hy & _ & Hn' & _ & _ & _ & He).
    assert (n' = n) as -> by congruence. rewrite Hy. cbn.
    by rewrite (hash_find_in n _ _ (t_names _ _ T _ _ Hy) He).
Qed.

Lemma child_parent d n c : child h d n = Some c -> parent_of h d c.
Proof. intros (x & Hx & Hp & _)%child_iff. by exists x. Qed.

Lemma resolve_ancestor d q c : resolve h d q = Some c -> rtc (parent_of h) d c.
Proof.
  revert d. induction q as [|n q IH]; cbn; intros d H; [by injection H as ->|].
  apply bind_Some in H as (e & He & H). eapply rtc_l; [by eapply child_parent|by apply IH].
Qed.

Lemma resolve_down d n q c : resolve h d (n :: q) = Some c -> tc (parent_of h) d c.
Proof.
  cbn. intros (e & He & H)%bind_Some. eapply tc_rtc_r; [apply tc_once; by eapply child_parent|].
  by eapply resolve_ancestor.
Qed.

Lemma root_no_parent p : ~ parent_of h p r.
Proof. intros (x & Hx & Hp). destruct (t_root _ _ T) as (y & Hy & Hn & _). congruence. Qed.

(** Every dentry has one path. *)
Lemma resolve_inj p q d : resolve h r p = Some d -> resolve h r q = Some d -> p = q.
Proof.
  revert q d. induction p as [|n p IH] using rev_ind; intros q d.
  - cbn. intros [= <-]. destruct q as [|m q _] using rev_ind; [done|].
    rewrite resolve_snoc. intros (c & _ & Hc)%bind_Some. by apply child_parent, root_no_parent in Hc.
  - rewrite resolve_snoc. intros (c & Hp & Hc)%bind_Some.
    destruct q as [|m q _] using rev_ind; [cbn; intros [= <-]|].
    { by apply child_parent, root_no_parent in Hc. }
    rewrite resolve_snoc. intros (c' & Hq & Hc')%bind_Some.
    apply child_iff in Hc as (x & Hx & Hp1 & Hn), Hc' as (x' & Hx' & Hp2 & Hn').
    assert (c' = c) as -> by congruence. assert (m = n) as -> by congruence.
    by rewrite (IH q c).
Qed.

Lemma resolve_live q d : resolve h r q = Some d -> is_Some (h !! d).
Proof.
  destruct q as [|n q _] using rev_ind; cbn.
  - intros [= <-]. destruct (t_root _ _ T) as (x & Hx & _). eauto.
  - rewrite resolve_snoc. intros (c & _ & (x & Hx & _)%child_iff)%bind_Some. eauto.
Qed.
End tree.
