(* ===== verification/DentryLookup.v ===== *)
(** * What the lookups of fs.c return

    On a tree of dentries ([tree_ok]) with memory to spare, [fs_directory_lookup]
    finds exactly the child of that name, [fs_path_lookup] exactly the dentry
    that the path names, and [fs_is_predecessor] decides ancestry.  The lemmas
    give the final heap and the final set of held locks. *)

From stdpp Require Import relations.
From S2P Require Import Prelude LtfsError Extents TapeOps TapeLayer Journal Dentry DentryRun DentryTree.

(** ** Handles *)

Definition ref_d (x : dentry) : dentry := x <| numhandles := u32 (numhandles x + 1) |>.
Definition unref_d (x : dentry) : dentry := x <| numhandles := u32 (numhandles x - 1) |>.

Abbreviation ref_h d := (alter ref_d d).
Abbreviation unref_h d := (alter unref_d d).

Lemma u32_add_sub n : in_u32 n -> u32 (u32 (n + 1) - 1) = n.
Proof.
  unfold in_u32, u32. intros H. rewrite Zminus_mod_idemp_l.
  replace (n + 1 - 1) with n by lia. by apply Z.mod_small.
Qed.

Lemma unref_ref x : in_u32 (numhandles x) -> unref_d (ref_d x) = x.
Proof. intros H. unfold unref_d, ref_d. cbn. rewrite u32_add_sub by done. by destruct x. Qed.

(** What every live dentry's counter allows: a handle more does not wrap, and a
    dentry that is linked in the tree keeps at least the handle of its link. *)
Definition linked (r d : Z) (x : dentry) : Prop := parent x <> None \/ d = r.

Definition handles_ok (h : gmap Z dentry) (r : Z) : Prop :=
  forall d x, h !! d = Some x ->
    0 <= numhandles x < 2 ^ 32 - 8 /\ (linked r d x -> 1 <= numhandles x).

Lemma unref_ref_at (h : gmap Z dentry) (d : Z) :
  (forall x, h !! d = Some x -> in_u32 (numhandles x)) -> unref_h d (ref_h d h) = h.
Proof. intros H. rewrite alter_alter_eq. apply alter_id. intros x Hx. by apply unref_ref, H. Qed.

Lemma unref_ref_h h r d : handles_ok h r -> unref_h d (ref_h d h) = h.
Proof.
  intros H. rewrite alter_alter_eq. apply alter_id. intros x Hx.
  apply unref_ref. destruct (H d x Hx). unfold in_u32. lia.
Qed.

(** Changes that keep the links do not change what names mean. *)
Lemma child_alter f d h b n :
  (forall x, child_list (f x) = child_list x) -> child (alter f d h) b n = child h b n.
Proof.
  intros Hf. unfold child. destruct (decide (d = b)) as [->|].
  - rewrite lookup_alter_eq. destruct (h !! b); cbn; [|done]. by rewrite Hf.
  - by rewrite lookup_alter_ne.
Qed.

Lemma resolve_ext h h' d q : (forall b n, child h' b n = child h b n) -> resolve h' d q = resolve h d q.
Proof. intros H. apply resolve_agree. auto. Qed.

(** No lock of a dentry is held. *)
Definition no_dentry_locks (L : gmap lock_id lock_state) : Prop :=
  forall d, L !! contents_lock d = None /\ L !! meta_lock d = None.

Section runs.
Context (s : fs_state) (pathname_strlen : path -> Z).
Context (mem_ok : mem s = []).

Lemma wp_chain h r L d l Q :
  tree_ok h r -> up h d l -> Q l (st s h L) -> wp (chain d) (st s h L) Q.
Proof.
  intros T Hl HQ. assert (H : forall fuel, (length l <= fuel)%nat ->
    ancestors fuel d (st s h L) = Done l (st s h L)).
  { clear HQ. induction Hl as [d x Hd Hp|d x p l Hd Hp Hl IH]; intros [|fuel] Hf; cbn in Hf; try lia;
      cbn; unfold fbind, deref; cbn; rewrite Hd, Hp; [done|]. rewrite IH by lia. done. }
  unfold wp, chain. rewrite H; [done|]. pose proof (up_length _ _ T _ _ Hl). cbn. lia.
Qed.

Lemma wp_is_predecessor h r L d1 d2 Q :
  tree_ok h r -> is_Some (h !! d2) ->
  (forall b : bool, (b = true <-> rtc (parent_of h) d1 d2) -> Q b (st s h L)) ->
  wp (fs_is_predecessor d1 d2) (st s h L) Q.
Proof.
  intros T H2 HQ. destruct (up_total _ _ T _ H2) as [l Hl].
  apply wp_bind. eapply wp_chain; [done..|]. apply wp_ret, HQ.
  rewrite <- (up_ancestors _ _ _ Hl), existsb_exists. setoid_rewrite <- list_elem_of_In.
  split; [|naive_solver lia]. intros (e & He & E). by apply Z.eqb_eq in E as ->.
Qed.

Lemma wp_find_key h L l n Q :
  Q (hash_find n l) (st s h L) -> wp (fs_find_key_from_hash_table l n) (st s h L) Q.
Proof. intros HQ. unfold fs_find_key_from_hash_table. wp_run. done. Qed.

Definition too_long (n : path) : bool := LTFS_FILENAME_MAX <? pathname_strlen n.

Lemma wp_directory_lookup h L b y n Q :
  h !! b = Some y ->
  (forall c, child h b n = Some c -> is_Some (h !! c) /\ L !! meta_lock c = None) ->
  (if too_long n then Q (- LTFS_NAMETOOLONG, None) (st s h L)
   else match child h b n with
        | None => Q (0, None) (st s h L)
        | Some c => Q (0, Some c) (st s (ref_h c h) L)
        end) ->
  wp (fs_directory_lookup pathname_strlen b n) (st s h L) Q.
Proof.
  intros Hy Hc HQ. unfold fs_directory_lookup. fold (too_long n). destruct (too_long n); [by apply wp_ret|].
  wp_run. unfold child in *. rewrite Hy in *. cbn in *.
  destruct (zlength (child_list y) =? 0) eqn:E.
  { bsplit. destruct (child_list y); [by apply wp_ret|]. rewrite zlength_cons in E.
    pose proof (zlength_nonneg l). lia. }
  wp_step. apply wp_find_key. destruct (hash_find n (child_list y)) as [e|]; [|by apply wp_ret].
  cbn in *. destruct (Hc (nl_d e) eq_refl) as [[x Hx] HL]. wp_run.
  rewrite delete_insert_id; done.
Qed.

(** Giving a handle back: the dentry stays, or it was the last handle of a
    dentry that is no longer linked, and it is freed. *)
Lemma wp_release_unlocked h L d x Q :
  h !! d = Some x -> L !! meta_lock d = Some Wr ->
  u32 (numhandles x - 1) <> 0 \/ out_of_sync x = true ->
  Q tt (st s (unref_h d h) (delete (meta_lock d) L)) ->
  wp (fs_release_dentry_unlocked d) (st s h L) Q.
Proof.
  intros Hx HL Hn HQ. unfold fs_release_dentry_unlocked. wp_run.
  cbn. replace (_ || _) with true; [by wp_run|]. destruct (out_of_sync x); [by rewrite orb_true_r|].
  destruct Hn as [Hn|]; [|done]. apply Z.eqb_neq in Hn. by rewrite Hn.
Qed.

Lemma wp_dispose_leaf h L d x gc Q :
  h !! d = Some x -> L !! meta_lock d = Some Wr -> L !! contents_lock d = None ->
  child_list x = [] -> parent x = None ->
  Q tt (st s (delete d h) (delete (meta_lock d) L)) -> wp (dispose d true gc) (st s h L) Q.
Proof.
  intros Hx HL HC Hc Hp HQ.
  change (wp (_fs_dispose_dentry_contents (S (S (base.size h))) d true gc) (st s h L) Q).
  generalize (S (base.size h)) as fuel. intros fuel. cbn [_fs_dispose_dentry_contents].
  wp_run. rewrite Hc. cbn [fseq]. wp_run. unfold unlink_from_parent. wp_run. rewrite Hp. wp_run.
  apply wp_when; [intros _|done]. by wp_run.
Qed.

Lemma wp_release_last h L d x Q :
  h !! d = Some x -> L !! meta_lock d = Some Wr -> L !! contents_lock d = None ->
  numhandles x = 1 -> out_of_sync x = false -> child_list x = [] -> parent x = None ->
  Q tt (st s (delete d h) (delete (meta_lock d) L)) ->
  wp (fs_release_dentry_unlocked d) (st s h L) Q.
Proof.
  intros Hx HL HC Hn Ho Hc Hp HQ. unfold fs_release_dentry_unlocked. wp_run.
  cbn -[dispose]. rewrite Hn, Ho. cbn -[dispose].
  eapply wp_dispose_leaf; [by rewrite lookup_alter_eq, Hx|done..|]. by rewrite delete_alter_eq.
Qed.

Lemma wp_release h L d x Q :
  h !! d = Some x -> L !! meta_lock d = None ->
  u32 (numhandles x - 1) <> 0 \/ out_of_sync x = true ->
  Q tt (st s (unref_h d h) L) -> wp (fs_release_dentry d) (st s h L) Q.
Proof.
  intros Hx HL Hn HQ. unfold fs_release_dentry. wp_run.
  eapply wp_release_unlocked; [done|by rewrite lookup_insert_eq|done|]. by rewrite delete_insert_id.
Qed.

(** ** The walk along a path *)

(** What [fs_path_lookup] returns: the dentry and its parent, or an error. *)
Fixpoint walk (h : gmap Z dentry) (d : Z) (names : list path) : Z + (Z * Z) :=
  match names with
  | [] => inl (- LTFS_NO_DENTRY)
  | n :: rest =>
      if too_long n then inl (- LTFS_NAMETOOLONG)
      else match child h d n with
           | None => inl (- LTFS_NO_DENTRY)
           | Some c => match rest with [] => inr (c, d) | _ => walk h c rest end
           end
  end.

(** The lock that a pair of flags asks for. *)
Definition take_lock (flags w r : Z) (l : lock_id) (L : gmap lock_id lock_state) :=
  if flag flags w then <[l := Wr]> L else if flag flags r then <[l := Rd 0]> L else L.

Definition keeps_parent (flags : Z) : bool :=
  flag flags (Z.lor (Z.lor (Z.lor LOCK_PARENT_CONTENTS_W LOCK_PARENT_CONTENTS_R)
                LOCK_PARENT_META_W) LOCK_PARENT_META_R).

(** The heap after a lookup that found [c] in [d]. *)
Definition found_heap (flags : Z) (c d : Z) (h : gmap Z dentry) : gmap Z dentry :=
  ref_h c (if keeps_parent flags then ref_h d h else h).

Lemma flag_or flags a b : flag flags (Z.lor a b) = flag flags a || flag flags b.
Proof.
  unfold flag. rewrite Z.land_lor_distr_r. pose proof (Z.lor_eq_0_iff (Z.land flags a) (Z.land flags b)).
  destruct (Z.eqb_spec (Z.land flags a) 0), (Z.eqb_spec (Z.land flags b) 0),
    (Z.eqb_spec (Z.lor (Z.land flags a) (Z.land flags b)) 0); try reflexivity; exfalso; tauto.
Qed.

Definition lock_mode (w : bool) : lock_state := if w then Wr else Rd 0.

(** Into the next directory: its lock is taken before the last one's is released. *)
Lemma wp_enter h L (w : bool) d prev k (Q : Z * option Z * option Z -> fs_state -> Prop) :
  no_dentry_locks L -> (forall p, prev = Some p -> p <> d) ->
  wp k (st s h (<[contents_lock d := lock_mode w]> L)) Q ->
  wp ((if w then acquirewrite_mrsw (contents_lock d) else acquireread_mrsw (contents_lock d));;;
      match prev with Some p => releaseread_mrsw (contents_lock p) | None => fret tt end;;; k)
     (st s h (match prev with Some p => <[contents_lock p := Rd 0]> L | None => L end)) Q.
Proof.
  intros HL Hp HQ. destruct (HL d) as [Hd _].
  destruct prev as [p|].
  - assert (contents_lock p <> contents_lock d) as Hpd.
    { intros [= E]. by apply (Hp p). }
    assert (E : delete (contents_lock p) (<[contents_lock d := lock_mode w]>
      (<[contents_lock p := Rd 0]> L)) = <[contents_lock d := lock_mode w]> L).
    { rewrite delete_insert_ne by done. rewrite delete_insert_id by apply HL. done. }
    wp_step. destruct w; cbn [lock_mode] in *; [apply wp_acquirewrite|apply wp_acquireread_free];
      try by rewrite lookup_insert_ne by done.
    all: cbn beta; wp_step; apply wp_releaseread;
      [by rewrite lookup_insert_ne, lookup_insert_eq by done|]; by rewrite E.
  - wp_step. destruct w; [apply wp_acquirewrite|apply wp_acquireread_free]; try done; by wp_run.
Qed.

Lemma wp_leave h L (w : bool) d Q :
  no_dentry_locks L -> Q tt (st s h L) ->
  wp (if w then releasewrite_mrsw (contents_lock d) else releaseread_mrsw (contents_lock d))
     (st s h (<[contents_lock d := lock_mode w]> L)) Q.
Proof.
  intros HL HQ. destruct (HL d) as [Hd _].
  destruct w; [apply wp_releasewrite|apply wp_releaseread]; rewrite ?lookup_insert_eq; try done;
    by rewrite delete_insert_id.
Qed.

(** A handle given back under the lock, without looking at the count. *)
Lemma wp_drop_handle h L d x Q :
  h !! d = Some x -> L !! meta_lock d = None -> Q tt (st s (unref_h d h) L) ->
  wp (acquirewrite_mrsw (meta_lock d);;;
      assign d (fun x => x <| numhandles := u32 (numhandles x - 1) |>);;;
      releasewrite_mrsw (meta_lock d)) (st s h L) Q.
Proof. intros Hx HL HQ. wp_run. by rewrite delete_insert_id. Qed.

Lemma unref_ref_below h r c d : handles_ok h r -> c <> d -> unref_h d (ref_h c (ref_h d h)) = ref_h c h.
Proof. intros Hn Hcd. rewrite alter_alter_ne by done. by rewrite (unref_ref_h h r). Qed.

Lemma path_lookup_loop_wp h r L flags :
  tree_ok h r -> handles_ok h r -> no_dentry_locks L ->
  forall names d x prev Q, names <> [] -> h !! d = Some x -> linked r d x ->
  (forall p, prev = Some p -> parent_of h p d) ->
  match walk h d names with
  | inl e => Q (e, None, None) (st s h L)
  | inr (c, b) => Q (0, Some c, Some b) (st s (found_heap flags c b h)
      (take_lock flags LOCK_PARENT_CONTENTS_W LOCK_PARENT_CONTENTS_R (contents_lock b) L))
  end ->
  wp (path_lookup_loop pathname_strlen flags d prev names)
     (st s (ref_h d h) (match prev with Some p => <[contents_lock p := Rd 0]> L | None => L end)) Q.
Proof.
  intros T Hn HL. induction names as [|n rest IH]; intros d x prev Q Hne Hx Hlk Hprev HQ; [done|].
  destruct (Hn d x Hx) as [Hr Hone]. specialize (Hone Hlk).
  assert (Hfail : forall w e, Q (e, None, None) (st s h L) ->
    wp ((if w : bool then releasewrite_mrsw (contents_lock d) else releaseread_mrsw (contents_lock d));;;
        fs_release_dentry d;;; fret (e, None, None))
       (st s (ref_h d h) (<[contents_lock d := lock_mode w]> L)) Q).
  { intros w e He. wp_step. apply wp_leave; [done|]. wp_step.
    eapply wp_release; [by rewrite lookup_alter_eq, Hx|apply HL| |].
    - left. cbn. rewrite u32_add_sub by (unfold in_u32; lia). lia.
    - wp_step. by rewrite unref_ref_h with (r := r). }
  cbn [path_lookup_loop]. set (last := match rest with [] => true | _ => false end).
  apply wp_enter; [done| |].
  { intros p Hp ->. specialize (Hprev d Hp). eapply (no_cycle _ _ T d), tc_once, Hprev. }
  wp_step. eapply wp_directory_lookup; [by rewrite lookup_alter_eq, Hx| |].
  { intros c Hc. rewrite child_alter in Hc by done. apply (child_iff _ _ T) in Hc as (y & Hy & Hp & _).
    split; [|rewrite lookup_insert_ne by done; apply HL]. apply lookup_alter_is_Some. eauto. }
  cbn [walk] in HQ. rewrite child_alter by done. destruct (too_long n); [by apply Hfail|].
  destruct (child h d n) as [c|] eqn:Hc; [|by apply Hfail].
  cbn [Z.ltb Z.compare].
  assert (parent_of h d c) as Hpc by by eapply child_parent.
  assert (c <> d) as Hcd. { intros ->. eapply (no_cycle _ _ T d), tc_once, Hpc. }
  assert (forall w Q', Q' tt (st s (ref_h c h) (<[contents_lock d := lock_mode w]> L)) ->
    wp (acquirewrite_mrsw (meta_lock d);;;
        assign d (fun x => x <| numhandles := u32 (numhandles x - 1) |>);;;
        releasewrite_mrsw (meta_lock d))
       (st s (ref_h c (ref_h d h)) (<[contents_lock d := lock_mode w]> L)) Q') as Hdrop.
  { intros w Q' HQ'. eapply wp_drop_handle; [by rewrite lookup_alter_ne, lookup_alter_eq, Hx| |].
    - rewrite lookup_insert_ne by done. apply HL.
    - by rewrite (unref_ref_below h r). }
  unfold last in *. clear last. destruct rest as [|n' rest].
  - assert (Hk : keeps_parent flags = false ->
      flag flags LOCK_PARENT_CONTENTS_W = false /\ flag flags LOCK_PARENT_CONTENTS_R = false).
    { unfold keeps_parent. rewrite !flag_or. intros. bsplit. done. }
    wp_step. fold (keeps_parent flags). cbn [negb orb andb]. rewrite flag_or.
    unfold found_heap, take_lock in HQ. destruct (keeps_parent flags); cbn [fwhen negb].
    + wp_run. destruct (flag flags LOCK_PARENT_CONTENTS_W); cbn [orb negb fwhen andb] in *; [by wp_run|].
      destruct (flag flags LOCK_PARENT_CONTENTS_R); cbn [negb fwhen]; [by wp_run|].
      apply (wp_leave _ _ false); [done|]. by wp_run.
    + destruct (Hk eq_refl) as [Hw Hr0]. rewrite Hw, Hr0 in *. apply Hdrop. wp_step.
      apply (wp_leave _ _ false); [done|]. by wp_run.
  - wp_step. cbn [negb orb andb fwhen]. apply Hdrop. cbn [lock_mode].
    destruct Hpc as (y & Hy & Hpy).
    apply (IH c y (Some d)); [done|done|left; by rewrite Hpy| |done].
    intros p [= <-]. by exists y.
Qed.

(** ** The whole lookup *)

Definition lookup_result (h : gmap Z dentry) (r : Z) (p : path) : Z + (Z * option Z) :=
  if is_root_path p then inr (r, None)
  else match walk h r (split_path [] (tail p)) with
       | inl e => inl e
       | inr (c, b) => inr (c, Some b)
       end.

Definition lookup_heap (flags c : Z) (pa : option Z) (h : gmap Z dentry) : gmap Z dentry :=
  match pa with Some b => found_heap flags c b h | None => ref_h c h end.

(** The locks that [flags] ask for, on the parent and on the dentry. *)
Definition lookup_locks (flags c : Z) (pa : option Z) (L : gmap lock_id lock_state) :=
  take_lock flags LOCK_DENTRY_META_W LOCK_DENTRY_META_R (meta_lock c)
    (take_lock flags LOCK_DENTRY_CONTENTS_W LOCK_DENTRY_CONTENTS_R (contents_lock c)
      (match pa with
       | Some b => take_lock flags LOCK_PARENT_META_W LOCK_PARENT_META_R (meta_lock b)
           (take_lock flags LOCK_PARENT_CONTENTS_W LOCK_PARENT_CONTENTS_R (contents_lock b) L)
       | None => L
       end)).

Lemma wp_lock_by_flags h L flags w r l Q :
  L !! l = None -> Q tt (st s h (take_lock flags w r l L)) ->
  wp (lock_by_flags flags w r l) (st s h L) Q.
Proof.
  intros Hl HQ. unfold lock_by_flags, take_lock in *.
  destruct (flag flags w); [by wp_run|]. destruct (flag flags r); by wp_run.
Qed.

Lemma take_lock_ne flags w r l l' L : l <> l' -> take_lock flags w r l L !! l' = L !! l'.
Proof. intros. unfold take_lock. by repeat case_match; rewrite ?lookup_insert_ne. Qed.

Lemma walk_parent h r d names c b : tree_ok h r -> walk h d names = inr (c, b) -> parent_of h b c.
Proof.
  intros T. revert d. induction names as [|n [|n' rest] IH]; intros d; [done|..]; cbn [walk];
    (destruct (too_long n); [done|]); destruct (child h d n) eqn:E; try done.
  - intros [= <- <-]. by eapply child_parent.
  - apply IH.
Qed.

Lemma walk_error h d names e : walk h d names = inl e -> e < 0.
Proof.
  revert d. induction names as [|n [|n' rest] IH]; intros d; cbn [walk]; [by intros [= <-]|..];
    (destruct (too_long n); [by intros [= <-]|]); destruct (child h d n); try done;
    [by intros [= <-]|apply IH|by intros [= <-]].
Qed.

Lemma split_path_not_nil p acc : split_path acc p <> [].
Proof. revert acc. induction p as [|c p IH]; intros acc; cbn; [done|]. by destruct (c =? char_slash). Qed.

Lemma fs_path_lookup_wp h L p flags Q :
  tree_ok h (root s) -> handles_ok h (root s) -> no_dentry_locks L ->
  match lookup_result h (root s) p with
  | inl e => e < 0 -> Q (e, None) (st s h L)
  | inr (c, pa) => Q (0, Some c) (st s (lookup_heap flags c pa h) (lookup_locks flags c pa L))
  end ->
  wp (fs_path_lookup pathname_strlen p flags) (st s h L) Q.
Proof.
  intros T Hn HL HQ. destruct (t_root _ _ T) as (x & Hx & Hp & _).
  destruct (HL (root s)) as [_ Hm]. unfold fs_path_lookup. wp_run.
  rewrite delete_insert_id by done.
  change (alter _ (root s) h) with (ref_h (root s) h). unfold lookup_result in HQ.
  destruct (is_root_path p).
  - wp_run. cbn [Z.eqb]. wp_run. apply wp_lock_by_flags; [apply HL|]. wp_run.
    apply wp_lock_by_flags; [by rewrite take_lock_ne|]. by wp_run.
  - apply (path_lookup_loop_wp h (root s) L flags T Hn HL _ _ x None); try done.
    { apply split_path_not_nil. } { by right. }
    destruct (walk h (root s) (split_path [] (tail p))) as [e|[c b]] eqn:E.
    + apply walk_error in E. replace (e =? 0) with false by lia. wp_step. by apply HQ.
    + cbn [Z.eqb]. apply (walk_parent _ (root s)) in E; [|done].
      assert (b <> c) as Hbc. { intros ->. eapply (no_cycle _ _ T c), tc_once, E. }
      wp_step. apply wp_lock_by_flags; [rewrite take_lock_ne by done; apply HL|].
      wp_run. apply wp_lock_by_flags. { rewrite !take_lock_ne; [apply HL|intros [=]; done..]. }
      wp_step. apply wp_lock_by_flags. { rewrite !take_lock_ne; [apply HL|intros [=]; done..]. } by wp_run.
Qed.
End runs.
