(* ===== verification/DentryProps.v ===== *)
(** * Path lookup and its inverse

    [fs_path_lookup] finds exactly the dentry that a path names, with one handle
    more and the locks its flags ask for; [fs_dentry_lookup] builds the path of
    a dentry, and looking that path up leads back to the dentry. *)

From stdpp Require Import relations.
From S2P Require Import Prelude LtfsError Extents TapeOps TapeLayer Journal Dentry DentryRun DentryTree DentryLookup.

(** ** The walk and the meaning of paths *)

Section walks.
Context (pathname_strlen : path -> Z).

Definition short_names (q : list path) : Prop :=
  Forall (fun n => pathname_strlen n <= LTFS_FILENAME_MAX) q.

Lemma short_not_too_long n : pathname_strlen n <= LTFS_FILENAME_MAX -> too_long pathname_strlen n = false.
Proof. unfold too_long. lia. Qed.

Lemma walk_found h d q c b : walk pathname_strlen h d q = inr (c, b) -> resolve h d q = Some c.
Proof.
  revert d. induction q as [|n [|n' q] IH]; intros d; [done|..]; cbn [walk resolve];
    (destruct (too_long _ n); [done|]); destruct (child h d n) as [e|]; try done.
  - by intros [= -> ->].
  - apply IH.
Qed.

Lemma walk_short h d q : q <> [] -> short_names q ->
  match walk pathname_strlen h d q with
  | inr (c, _) => resolve h d q = Some c
  | inl e => e = - LTFS_NO_DENTRY /\ resolve h d q = None
  end.
Proof.
  intros Hq Hs. revert d Hq. induction Hs as [|n q Hn Hs IH]; intros d Hq; [done|].
  cbn [walk resolve]. rewrite short_not_too_long by done.
  destruct (child h d n) as [c|]; [|done]. cbn. destruct q; [done|]. by apply IH.
Qed.
End walks.

(** ** Building a path *)

(** The names of a path from the root, joined by separators. *)
Fixpoint slashed (q : list path) : path :=
  match q with
  | [] => []
  | n :: q' => char_slash :: n ++ slashed q'
  end.

Definition path_of (q : list path) : path := match q with [] => [char_slash] | _ => slashed q end.

Lemma join_names_slashed i n q : char_slash :: join_names (S i) (n :: q) = slashed (n :: q).
Proof.
  revert i n. induction q as [|m q IH]; intros i n.
  - cbn. by rewrite !app_nil_r.
  - cbn [join_names slashed] in *. f_equal. f_equal. rewrite <- IH with (i := S i). done.
Qed.

Lemma join_names_path_of q : join_names 0 ([char_slash] :: q) = path_of q.
Proof.
  destruct q as [|n q]; [done|]. change (path_of (n :: q)) with (slashed (n :: q)).
  by rewrite <- (join_names_slashed 0 n q).
Qed.

Lemma split_path_app acc n p :
  char_slash ∉ n -> split_path acc (n ++ char_slash :: p) = (rev acc ++ n) :: split_path [] p.
Proof.
  revert acc. induction n as [|c n IH]; intros acc Hn; cbn.
  - by rewrite app_nil_r.
  - apply not_elem_of_cons in Hn as [Hc Hn]. replace (c =? char_slash) with false by lia.
    rewrite IH by done. cbn. by rewrite <- app_assoc.
Qed.

Lemma split_path_last acc n : char_slash ∉ n -> split_path acc n = [rev acc ++ n].
Proof.
  revert acc. induction n as [|c n IH]; intros acc Hn; cbn; [by rewrite app_nil_r|].
  apply not_elem_of_cons in Hn as [Hc Hn]. replace (c =? char_slash) with false by lia.
  rewrite IH by done. cbn. by rewrite <- app_assoc.
Qed.

(** Splitting a built path gives its names back. *)
Lemma split_slashed n q : Forall file_name (n :: q) -> split_path [] (tail (slashed (n :: q))) = n :: q.
Proof.
  revert n. induction q as [|m q IH]; intros n H; apply Forall_cons in H as [[_ Hn] H]; cbn [tail slashed].
  - rewrite app_nil_r. by rewrite split_path_last.
  - rewrite split_path_app by done. cbn. f_equal. by apply IH.
Qed.

Lemma path_of_not_root n q : file_name n -> is_root_path (path_of (n :: q)) = false.
Proof.
  intros [Hn _]. unfold is_root_path. cbn.
  rewrite bool_decide_false; [done|]. intros [= E]. by destruct n.
Qed.

(** ** The names of a dentry *)

Section names.
Context (s : fs_state) (h : gmap Z dentry) (L : gmap lock_id lock_state) (r : Z).
Context (mem_ok : mem s = []) (T : tree_ok h r) (HL : no_dentry_locks L).

Lemma resolve_file_names q d : resolve h r q = Some d -> Forall file_name q.
Proof.
  revert d. induction q as [|n q IH] using rev_ind; intros d H; [constructor|].
  rewrite resolve_snoc in H. apply bind_Some in H as (b & Hb & Hd).
  apply Forall_app. split; [by eapply IH|]. apply Forall_singleton.
  apply (child_iff _ _ T) in Hd as (x & Hx & Hp & Hn).
  destruct (t_up _ _ T _ _ _ Hx Hp) as (y & n' & _ & _ & Hn' & _ & _ & Hf & _). congruence.
Qed.

Lemma wp_collect_names d l q Q :
  up h d l -> resolve h r q = Some d -> Q (0, [char_slash] :: q) (st s h L) ->
  wp (collect_names l) (st s h L) Q.
Proof.
  intros Hl. revert q Q. induction Hl as [d x Hx Hp|d x p l Hx Hp Hl IH]; intros q Q Hq HQ.
  - destruct q as [|n q _] using rev_ind.
    + injection Hq as <-. destruct (t_root _ _ T) as (y & Hy & _ & Hn & _ & Hdel).
      assert (y = x) as -> by congruence. cbn [collect_names]. wp_run. rewrite Hp, Hn, Hdel.
      wp_run. rewrite bool_decide_false by (intros E; by destruct E). cbn [orb]. by wp_run.
    + rewrite resolve_snoc in Hq. apply bind_Some in Hq as (b & _ & (y & Hy & Hpy)%(child_parent _ _ T)).
      congruence.
  - destruct q as [|n q _] using rev_ind.
    { injection Hq as <-. destruct (root_no_parent _ _ T p). by exists x. }
    rewrite resolve_snoc in Hq. apply bind_Some in Hq as (b & Hb & Hd).
    apply (child_iff _ _ T) in Hd as (y & Hy & Hpy & Hn).
    assert (y = x) as -> by congruence. assert (b = p) as -> by congruence.
    cbn [collect_names]. wp_run. rewrite Hp, Hn. apply wp_acquireread_free; [apply HL|].
    wp_run. rewrite delete_insert_id by apply HL. apply (IH q); [done|]. apply wp_ret, HQ.
Qed.

Lemma fs_dentry_lookup_wp d q Q :
  resolve h r q = Some d -> Q (0, Some (path_of q)) (st s h L) ->
  wp (fs_dentry_lookup d) (st s h L) Q.
Proof.
  intros Hq HQ. destruct (up_total _ _ T d) as [l Hl]; [by eapply resolve_live|].
  unfold fs_dentry_lookup. wp_step. eapply wp_chain; [done..|]. wp_run.
  eapply wp_collect_names; [done..|]. cbn [Z.eqb negb].
  wp_run. by rewrite join_names_path_of.
Qed.
End names.

(** ** The properties *)

(** A state between two operations: the dentries form a tree, the handle
    counters have room, the running thread holds no lock of a dentry, and
    allocations will succeed. *)
Record quiet (s : fs_state) : Prop := {
  q_tree : tree_ok (heap s) (root s);
  q_handles : handles_ok (heap s) (root s);
  q_locks : no_dentry_locks (locks s);
  q_mem : mem s = [];
}.

Definition names_of (p : path) : list path := if is_root_path p then [] else split_path [] (tail p).

Lemma path_lookup_run strlen s p flags :
  quiet s ->
  fs_path_lookup strlen p flags s =
  match lookup_result strlen (heap s) (root s) p with
  | inl e => Done (e, None) s
  | inr (c, pa) => Done (0, Some c) (st s (lookup_heap flags c pa (heap s)) (lookup_locks flags c pa (locks s)))
  end.
Proof.
  intros [T H HL M]. apply wp_eq, fs_path_lookup_wp; [done..|].
  destruct (lookup_result _ _ _ _) as [e|[c pa]]; [|done]. by rewrite <- st_eta.
Qed.

(** C14: Looking up a path returns exactly the dentry that the names of the path
    lead to from the root, or LTFS_NO_DENTRY when there is none.  The run never
    waits for itself and never touches a freed dentry.  On success the dentry
    has one handle more (and its parent too, when the flags keep the parent
    locked), and exactly the locks that the flags ask for are held in addition;
    on failure nothing has changed. *)
Theorem fs_path_lookup_resolves (strlen : path -> Z) (s : fs_state) (p : path) (flags : Z) :
  quiet s -> short_names strlen (names_of p) ->
  match resolve (heap s) (root s) (names_of p) with
  | None => fs_path_lookup strlen p flags s = Done (- LTFS_NO_DENTRY, None) s
  | Some d => exists pa s', fs_path_lookup strlen p flags s = Done (0, Some d) s' /\
      (forall b, pa = Some b <-> parent_of (heap s) b d) /\
      heap s' = lookup_heap flags d pa (heap s) /\
      locks s' = lookup_locks flags d pa (locks s)
  end.
Proof.
  intros Hq Hs. rewrite path_lookup_run by done. destruct Hq as [T _ _ _].
  unfold names_of, lookup_result in *. destruct (is_root_path p).
  { cbn. exists None. eexists. split; [done|]. split; [|done]. intros b. split; [done|].
    by intros ?%(root_no_parent _ _ T). }
  pose proof (walk_short strlen (heap s) (root s) _ (split_path_not_nil (tail p) []) Hs) as Hw.
  destruct (walk _ _ _ _) as [e|[c b]] eqn:E; [by destruct Hw as [-> ->]|]. rewrite Hw.
  apply (walk_parent strlen _ (root s)) in E as (x & Hx & Hp); [|done].
  exists (Some b). eexists. split; [done|]. split; [|done].
  intros b'. split; [intros [= <-]; by exists x|]. intros (y & Hy & Hp'). congruence.
Qed.

(** C18: Building the path of any dentry of the tree and looking that path up
    again leads back to the dentry: [fs_dentry_lookup] succeeds and changes
    nothing, and [fs_path_lookup] of its result returns the same dentry with one
    handle more and no lock held. *)
Theorem dentry_path_round_trip (strlen : path -> Z) (s : fs_state) (q : list path) (d : Z) :
  quiet s -> resolve (heap s) (root s) q = Some d -> short_names strlen q ->
  exists p, fs_dentry_lookup d s = Done (0, Some p) s /\
            fs_path_lookup strlen p 0 s = Done (0, Some d) (s <| heap := ref_h d (heap s) |>).
Proof.
  intros Hq Hr Hs. exists (path_of q). split.
  - destruct Hq as [T H HL M]. apply wp_eq. eapply fs_dentry_lookup_wp; [done..|]. by rewrite <- st_eta.
  - rewrite path_lookup_run by done. destruct Hq as [T _ _ _].
    pose proof (resolve_file_names _ _ T _ _ Hr) as Hf. unfold lookup_result. destruct q as [|n q].
    + injection Hr as <-. cbn. by destruct s.
    + rewrite path_of_not_root by by apply Forall_cons in Hf as [? _].
      change (path_of (n :: q)) with (slashed (n :: q)). rewrite split_slashed by done.
      pose proof (walk_short strlen (heap s) (root s) (n :: q) ltac:(done) Hs) as Hw.
      destruct (walk _ _ _ _) as [e|[c b]]; [destruct Hw; congruence|].
      rewrite Hr in Hw. injection Hw as <-. by destruct s.
Qed.
