(* ===== verification/DentryEdit.v ===== *)
(** * Editing the tree

    The changes that the file system operations make to the dentry heap, as
    functions on the heap: a fresh dentry, a dentry taken out of its directory
    ([detach]), one put into a directory ([attach]), one freed.  Each keeps the
    tree invariant and the counters; the operations of [FsOps] are shown to be
    compositions of these edits, up to fields that the invariant does not read
    ([heq]). *)

From stdpp Require Import relations.
From S2P Require Import Prelude LtfsError Extents TapeOps TapeLayer Journal Dentry DentryRun DentryTree DentryLookup.

(** ** Heaps that differ in times, flags and sizes only *)

Definition dcore (x : dentry) :=
  (parent x, platform_safe_name x, dname x, isdir x, deleted x, uid x, child_list x,
   numhandles x, link_count x, out_of_sync x, is_immutable x, is_appendonly x).

Definition heq (h h' : gmap Z dentry) : Prop := forall d, dcore <$> h !! d = dcore <$> h' !! d.

#[export] Instance heq_equivalence : Equivalence heq.
Proof. split; unfold heq; [done|by intros h h' H d|]. intros a b c H1 H2 d. by rewrite H1. Qed.

Lemma heq_some h h' d x : heq h h' -> h !! d = Some x -> exists y, h' !! d = Some y /\ dcore x = dcore y.
Proof.
  intros H Hx. specialize (H d). rewrite Hx in H. destruct (h' !! d) as [y|]; cbn in H; [|done].
  injection H as H. exists y. split; [done|]. unfold dcore in *. congruence.
Qed.

Lemma heq_alter f g d h h' :
  (forall x y, h !! d = Some x -> h' !! d = Some y -> dcore x = dcore y -> dcore (f x) = dcore (g y)) ->
  heq h h' -> heq (alter f d h) (alter g d h').
Proof.
  intros Hf H e. destruct (decide (d = e)) as [->|Hde].
  - rewrite !lookup_alter_eq. pose proof (H e) as He.
    destruct (h !! e) as [x|] eqn:Ex, (h' !! e) as [y|] eqn:Ey; try done. cbn.
    injection He as He. f_equal. apply Hf; [done..|]. unfold dcore. congruence.
  - rewrite !lookup_alter_ne by done. apply H.
Qed.

(** A change of other fields. *)
Lemma heq_cosmetic f d h h' : (forall x, dcore (f x) = dcore x) -> heq h h' -> heq (alter f d h) h'.
Proof.
  intros Hf H e. rewrite <- (H e). destruct (decide (d = e)) as [->|].
  - rewrite lookup_alter_eq. destruct (h !! e) as [x|]; cbn; [|done]. by rewrite Hf.
  - by rewrite lookup_alter_ne.
Qed.

Lemma heq_insert d x y h h' : dcore x = dcore y -> heq h h' -> heq (<[d := x]> h) (<[d := y]> h').
Proof.
  intros Hxy H e. destruct (decide (d = e)) as [->|]; [rewrite !lookup_insert_eq; cbn; by rewrite Hxy|].
  by rewrite !lookup_insert_ne.
Qed.

Lemma heq_delete d h h' : heq h h' -> heq (delete d h) (delete d h').
Proof.
  intros H e. destruct (decide (d = e)) as [->|]; [by rewrite !lookup_delete_eq|].
  by rewrite !lookup_delete_ne.
Qed.

Lemma heq_child h h' d n : heq h h' -> child h' d n = child h d n.
Proof.
  intros H. unfold child. specialize (H d).
  destruct (h !! d), (h' !! d); cbn in *; try done. injection H as ? ? ? ? ? ? Hc ? ? ? ? ?. by rewrite Hc.
Qed.

Lemma heq_parent_of h h' p d : heq h h' -> parent_of h p d <-> parent_of h' p d.
Proof.
  intros H. unfold parent_of. specialize (H d).
  destruct (h !! d) as [x|], (h' !! d) as [y|]; cbn in *; try done.
  injection H as Hp ? ? ? ? ? ? ? ? ? ? ?. split; intros (z & [= <-] & Hz); eexists; split; try done; congruence.
Qed.

(** The tree invariant reads only the links. *)
Definition tcore (x : dentry) :=
  (parent x, platform_safe_name x, dname x, isdir x, deleted x, uid x, child_list x).

Definition teq (h h' : gmap Z dentry) : Prop := forall d, tcore <$> h !! d = tcore <$> h' !! d.

#[export] Instance teq_equivalence : Equivalence teq.
Proof. split; unfold teq; [done|by intros h h' H d|]. intros a b c H1 H2 d. by rewrite H1. Qed.

#[export] Instance heq_teq : subrelation heq teq.
Proof.
  intros h h' H d. specialize (H d). destruct (h !! d), (h' !! d); cbn in *; try done.
  injection H as ? ? ? ? ? ? ? ? ? ? ? ?. unfold tcore. congruence.
Qed.

Lemma teq_alter f d h h' : (forall x, tcore (f x) = tcore x) -> teq h h' -> teq (alter f d h) h'.
Proof.
  intros Hf H e. rewrite <- (H e). destruct (decide (d = e)) as [->|].
  - rewrite lookup_alter_eq. destruct (h !! e) as [x|]; cbn; [|done]. by rewrite Hf.
  - by rewrite lookup_alter_ne.
Qed.

Lemma teq_some h h' d x : teq h h' -> h !! d = Some x -> exists y, h' !! d = Some y /\ tcore x = tcore y.
Proof.
  intros H Hx. specialize (H d). rewrite Hx in H. destruct (h' !! d) as [y|]; cbn in H; [|done].
  injection H as H. exists y. split; [done|]. unfold tcore in *. congruence.
Qed.

Lemma teq_parent_of h h' p d : teq h h' -> parent_of h p d <-> parent_of h' p d.
Proof.
  intros H. unfold parent_of. specialize (H d).
  destruct (h !! d) as [x|], (h' !! d) as [y|]; cbn in *; try done.
  injection H as Hp ? ? ? ? ? ?. split; intros (z & [= <-] & Hz); eexists; split; try done; congruence.
Qed.

#[export] Instance tree_ok_teq : Proper (teq ==> eq ==> iff) tree_ok.
Proof.
  assert (forall h h' r, teq h h' -> tree_ok h r -> tree_ok h' r) as Himp.
  { intros h h' r H T. assert (teq h' h) as H' by done. split.
    - destruct (t_root _ _ T) as (x & Hx & ? & ? & ? & ?).
      destruct (teq_some _ _ _ _ H Hx) as (y & Hy & [= ? ? ? ? ? ? ?]). exists y. split_and!; try done; congruence.
    - intros d y p Hy Hp. destruct (teq_some _ _ _ _ H' Hy) as (x & Hx & [= ? ? ? ? ? ? ?]).
      destruct (t_up _ _ T d x p) as (z & n & Hz & ? & ? & ? & ? & ? & ?); [done|congruence|].
      destruct (teq_some _ _ _ _ H Hz) as (w & Hw & [= ? ? ? ? ? ? ?]).
      exists w, n. split_and!; try done; congruence.
    - intros p y e Hy He. destruct (teq_some _ _ _ _ H' Hy) as (x & Hx & [= ? ? ? ? ? ? ?]).
      destruct (t_down _ _ T p x e) as (z & Hz & ? & ? & ?); [done|congruence|].
      destruct (teq_some _ _ _ _ H Hz) as (w & Hw & [= ? ? ? ? ? ? ?]).
      exists w. split_and!; try done; congruence.
    - intros p y Hy. destruct (teq_some _ _ _ _ H' Hy) as (x & Hx & [= ? ? ? ? ? ? ?]).
      assert (child_list y = child_list x) as -> by congruence. by eapply t_names.
    - intros d. induction (t_acyclic _ _ T d) as [d _ IH]. constructor.
      intros p Hp. apply IH. by apply (teq_parent_of h h'). }
  intros h h' H r ? <-. split; [by apply Himp|]. apply Himp. by symmetry.
Qed.

#[export] Instance tree_ok_proper : Proper (heq ==> eq ==> iff) tree_ok.
Proof. intros h h' H r ? <-. by rewrite (heq_teq _ _ H). Qed.

Lemma tree_alter f d h r : (forall x, tcore (f x) = tcore x) -> tree_ok h r -> tree_ok (alter f d h) r.
Proof. intros Hf T. by rewrite (teq_alter f d h h). Qed.

(** ** The edits *)

Definition dir_n (x : dentry) : Z := if isdir x then 1 else 0.

Definition cut_child (n : path) (k : Z) (y : dentry) : dentry :=
  y <| child_list := hash_del n (child_list y) |> <| link_count := u32 (link_count y - k) |>.
Definition cut_link (x : dentry) : dentry :=
  x <| parent := None |> <| link_count := u32 (link_count x - 1) |>
    <| numhandles := u32 (numhandles x - 1) |>.

(** Take [f], a directory when [k] is 1, out of the directory [p], where it has the name [n]. *)
Definition detach (p : Z) (n : path) (f k : Z) (h : gmap Z dentry) : gmap Z dentry :=
  alter cut_link f (alter (cut_child n k) p h).

Definition add_child (n : path) (f u k : Z) (y : dentry) : dentry :=
  y <| child_list := child_list y ++ [mk_name_list n f u] |> <| link_count := u32 (link_count y + k) |>.
Definition make_link (p : Z) (n : path) (x : dentry) : dentry :=
  x <| parent := Some p |> <| dname := Some n |> <| platform_safe_name := Some n |>
    <| link_count := u32 (link_count x + 1) |> <| numhandles := u32 (numhandles x + 1) |>.

(** Put [f], whose uid is [u], into the directory [p] with the name [n]. *)
Definition attach (p : Z) (n : path) (f u k : Z) (h : gmap Z dentry) : gmap Z dentry :=
  alter (make_link p n) f (alter (add_child n f u k) p h).

(** What an edit of two dentries leaves at an address. *)
Lemma lookup_edit (g1 g2 : dentry -> dentry) (f p : Z) (h : gmap Z dentry) (d : Z) :
  f <> p ->
  alter g1 f (alter g2 p h) !! d =
  if decide (d = f) then g1 <$> h !! d else if decide (d = p) then g2 <$> h !! d else h !! d.
Proof.
  intros Hfp. destruct (decide (d = f)) as [->|]; [by rewrite lookup_alter_eq, lookup_alter_ne|].
  rewrite lookup_alter_ne by done. destruct (decide (d = p)) as [->|]; [by rewrite lookup_alter_eq|].
  by rewrite lookup_alter_ne.
Qed.

Section detach.
Context (h : gmap Z dentry) (r : Z) (T : tree_ok h r).
Context (f p k : Z) (n : path) (x : dentry).
Context (Hf : h !! f = Some x) (Hp : parent x = Some p) (Hn : platform_safe_name x = Some n).

Lemma detach_ne : f <> p.
Proof. intros ->. apply (no_cycle _ _ T p), tc_once. by exists x. Qed.

Lemma detach_parent_of a b : parent_of (detach p n f k h) a b <-> parent_of h a b /\ b <> f.
Proof.
  unfold parent_of, detach. setoid_rewrite (lookup_edit _ _ f p h b detach_ne).
  destruct (decide (b = f)) as [->|Hb].
  - rewrite Hf. cbn. split; [intros (y & [= <-] & Hy); done|]. by intros [_ ?].
  - destruct (decide (b = p)) as [->|]; [|tauto].
    destruct (h !! p) as [y|]; cbn; [|tauto]. split.
    + intros (z & [= <-] & Hz). split; [by exists y|done].
    + intros ((z & [= <-] & Hz) & _). by eexists.
Qed.

Lemma detach_entry y e : h !! p = Some y -> e ∈ hash_del n (child_list y) <-> e ∈ child_list y /\ nl_d e <> f.
Proof.
  intros Hy. pose proof (t_names _ _ T _ _ Hy) as Hd. rewrite hash_del_filter by done.
  rewrite list_elem_of_filter. split.
  - intros [Hne He]. split; [done|]. intros E. destruct (t_down _ _ T _ _ _ Hy He) as (z & Hz & _ & Hzn & _).
    rewrite E in Hz. congruence.
  - intros [He Hne]. split; [|done]. intros E. apply Hne.
    destruct (t_up _ _ T _ _ _ Hf Hp) as (y' & n' & Hy' & _ & Hn' & _ & _ & _ & He').
    assert (y' = y) as -> by congruence. assert (n' = n) as -> by congruence.
    by rewrite (nodup_key_inj nl_name _ _ _ Hd He He').
Qed.

Lemma tree_detach : tree_ok (detach p n f k h) r.
Proof.
  pose proof detach_ne as Hfp. unfold detach. split.
  - destruct (t_root _ _ T) as (y & Hy & ? & ? & ? & ?). rewrite lookup_edit by done.
    destruct (decide (r = f)) as [->|]; [congruence|]. rewrite Hy.
    destruct (decide (r = p)); eexists; split_and!; try done.
  - intros d z q Hz Hq. rewrite lookup_edit in Hz by done. destruct (decide (d = f)) as [->|Hdf].
    { rewrite Hf in Hz. injection Hz as <-. done. }
    assert (exists z0, h !! d = Some z0 /\ parent z0 = Some q /\ dname z = dname z0 /\
      platform_safe_name z = platform_safe_name z0 /\ uid z = uid z0 /\ deleted z = deleted z0)
      as (z0 & Hz0 & Hq0 & E1 & E2 & E3 & E4).
    { destruct (decide (d = p)) as [->|]; [|by exists z].
      destruct (h !! p) as [y|]; cbn in Hz; [|done]. injection Hz as <-. by exists y. }
    destruct (t_up _ _ T _ _ _ Hz0 Hq0) as (y & m & Hy & ? & ? & ? & ? & ? & He).
    rewrite E1, E2, E3, E4. setoid_rewrite lookup_edit; [|done].
    destruct (decide (q = f)) as [->|].
    { rewrite Hy. eexists _, m. split_and!; [done|cbn; congruence|done..|]. cbn. congruence. }
    destruct (decide (q = p)) as [->|]; [|by exists y, m].
    rewrite Hy. eexists _, m. split_and!; [done|done..|]. by apply detach_entry.
  - intros q y e Hy He. rewrite lookup_edit in Hy by done.
    assert (exists y0, h !! q = Some y0 /\ e ∈ child_list y0 /\ nl_d e <> f) as (y0 & Hy0 & He0 & Hne).
    { destruct (decide (q = f)) as [->|].
      - rewrite Hf in Hy. injection Hy as <-. exists x. split_and!; [done..|]. intros E.
        destruct (t_down _ _ T _ _ _ Hf He) as (z & Hz & Hpz & _). rewrite E, Hf in Hz.
        injection Hz as <-. apply detach_ne. congruence.
      - destruct (decide (q = p)) as [->|].
        + destruct (h !! p) as [y0|] eqn:E; cbn in Hy; [|done]. injection Hy as <-. exists y0.
          cbn in He. apply detach_entry in He as [? ?]; done.
        + exists y. split_and!; [done..|]. intros E.
          destruct (t_down _ _ T _ _ _ Hy He) as (z & Hz & Hpz & _). rewrite E in Hz. congruence. }
    destruct (t_down _ _ T _ _ _ Hy0 He0) as (z & Hz & ? & ? & ?). rewrite lookup_edit by done.
    rewrite decide_False by done. destruct (decide (nl_d e = p)) as [E|]; [|by exists z].
    rewrite Hz. by eexists.
  - intros q y Hy. rewrite lookup_edit in Hy by done.
    destruct (decide (q = f)) as [->|]; [|destruct (decide (q = p)) as [->|]].
    + rewrite Hf in Hy. injection Hy as <-. by apply (t_names _ _ T f x).
    + destruct (h !! p) as [y0|] eqn:E; cbn in Hy; [|done]. injection Hy as <-. cbn.
      pose proof (t_names _ _ T _ _ E) as Hd. rewrite hash_del_filter by done.
      apply (sublist_NoDup _ (nl_name <$> child_list y0)); [done|]. apply fmap_sublist, sublist_filter.
    + by apply (t_names _ _ T q).
  - intros d. induction (t_acyclic _ _ T d) as [d _ IH]. constructor. intros a Ha. apply IH.
    by apply detach_parent_of in Ha as [? _].
Qed.
End detach.

Section attach.
Context (h : gmap Z dentry) (r : Z) (T : tree_ok h r).
Context (f p k : Z) (n : path) (x y : dentry).
Context (Hf : h !! f = Some x) (Hp : parent x = None) (Hdel : deleted x = false) (Hr : f <> r).
Context (Hy : h !! p = Some y) (Hdir : isdir y = true) (Hc : child h p n = None) (Hn : file_name n).
Context (Hloop : ~ rtc (parent_of h) f p).

Lemma attach_ne : f <> p.
Proof. intros ->. by apply Hloop. Qed.

Let h' := attach p n f (uid x) k h.

Lemma attach_lookup d :
  h' !! d = if decide (d = f) then Some (make_link p n x)
            else if decide (d = p) then Some (add_child n f (uid x) k y) else h !! d.
Proof.
  unfold h', attach. rewrite lookup_edit by apply attach_ne.
  destruct (decide (d = f)) as [->|]; [by rewrite Hf|]. destruct (decide (d = p)) as [->|]; [by rewrite Hy|done].
Qed.

Lemma attach_parent_of a b : parent_of h' a b <-> parent_of h a b \/ (a = p /\ b = f).
Proof.
  unfold parent_of. setoid_rewrite attach_lookup. destruct (decide (b = f)) as [->|Hb].
  - rewrite Hf. split; [intros (z & [= <-] & [= <-]); auto|].
    intros [(z & [= <-] & Hz)|[-> _]]; [congruence|by eexists].
  - destruct (decide (b = p)) as [->|]; [|split; [by left|by intros [?|[_ ?]]]].
    rewrite Hy. split; [intros (z & [= <-] & Hz); left; by exists y|].
    intros [(z & [= <-] & Hz)|[_ ?]]; [by eexists|done].
Qed.

(** A dentry that stays where it is. *)
Lemma attach_old d z :
  h' !! d = Some z -> d <> f ->
  exists z0, h !! d = Some z0 /\ parent z = parent z0 /\ platform_safe_name z = platform_safe_name z0 /\
    dname z = dname z0 /\ isdir z = isdir z0 /\ deleted z = deleted z0 /\ uid z = uid z0 /\
    (forall e, e ∈ child_list z0 -> e ∈ child_list z) /\
    (forall e, e ∈ child_list z -> e ∈ child_list z0 \/ (d = p /\ e = mk_name_list n f (uid x))).
Proof.
  rewrite attach_lookup. intros Hz Hd. rewrite decide_False in Hz by done.
  destruct (decide (d = p)) as [->|]; [injection Hz as <-; exists y|exists z; split_and!; auto].
  split_and!; try done; cbn; intros e; rewrite elem_of_app, list_elem_of_singleton; auto.
  intros [?| ->]; auto.
Qed.

Lemma attach_new z : h' !! f = Some z -> child_list z = child_list x /\ parent z = Some p /\
  platform_safe_name z = Some n /\ dname z = Some n /\ isdir z = isdir x /\ deleted z = false /\ uid z = uid x.
Proof. rewrite attach_lookup, decide_True by done. intros [= <-]. by split_and!. Qed.

Lemma attach_acyclic d : Acc (parent_of h') d.
Proof.
  assert (H1 : forall d, ~ rtc (parent_of h) f d -> Acc (parent_of h') d).
  { clear d. intros d. induction (t_acyclic _ _ T d) as [d _ IH]. intros Hd. constructor. intros a Ha.
    apply attach_parent_of in Ha as [Ha|[-> ->]]; [|by destruct Hd].
    apply IH; [done|]. intros Hfa. apply Hd. by eapply rtc_r. }
  assert (H2 : Acc (parent_of h') f).
  { constructor. intros a Ha. apply attach_parent_of in Ha as [(z & Hz & Hpz)|[-> _]]; [congruence|auto]. }
  induction (t_acyclic _ _ T d) as [d _ IH]. constructor. intros a Ha.
  apply attach_parent_of in Ha as [Ha|[-> ->]]; [auto|]. by apply H1.
Qed.

Lemma attach_live d : is_Some (h' !! d) <-> is_Some (h !! d).
Proof. unfold h', attach. by rewrite !lookup_alter_is_Some. Qed.

Lemma tree_attach : tree_ok h' r.
Proof.
  split.
  - destruct (t_root _ _ T) as (z & Hz & ? & ? & ? & ?). rewrite attach_lookup.
    rewrite decide_False by done. destruct (decide (r = p)) as [->|]; [|by exists z].
    assert (y = z) as -> by congruence. by eexists.
  - intros d z q Hz Hq. destruct (decide (d = f)) as [->|Hdf].
    + apply attach_new in Hz as (_ & Hq' & E1 & E2 & _ & E3 & E4). assert (q = p) as -> by congruence.
      rewrite attach_lookup, decide_False, decide_True by (pose proof attach_ne; congruence).
      eexists _, n. split_and!; try done. rewrite E4. cbn. apply elem_of_app. right. by apply list_elem_of_singleton.
    + destruct (attach_old _ _ Hz Hdf) as (z0 & Hz0 & E1 & E2 & E3 & _ & E5 & E6 & _).
      destruct (t_up _ _ T d z0 q) as (w & m & Hw & Hwd & ? & ? & ? & ? & He); [done|congruence|].
      destruct (proj2 (attach_live q)) as [w' Hw']; [eauto|].
      exists w', m. rewrite E2, E3, E5, E6. destruct (decide (q = f)) as [->|].
      * destruct (attach_new _ Hw') as (Ec & _ & _ & _ & Ed & _). assert (w = x) as -> by congruence.
        by rewrite Ec, Ed.
      * destruct (attach_old _ _ Hw' n0) as (w0 & Hw0 & _ & _ & _ & Ed & _ & _ & Hin & _).
        assert (w0 = w) as -> by congruence. rewrite Ed. auto 10.
  - intros q z e Hz He.
    assert ((exists z0, h !! q = Some z0 /\ e ∈ child_list z0) \/ (q = p /\ e = mk_name_list n f (uid x)))
      as [(z0 & Hz0 & He0)|[-> ->]].
    { destruct (decide (q = f)) as [->|Hqf].
      - apply attach_new in Hz as (Ec & _). rewrite Ec in He. left. eauto.
      - destruct (attach_old _ _ Hz Hqf) as (z0 & Hz0 & _ & _ & _ & _ & _ & _ & _ & Hin).
        destruct (Hin e He); eauto. }
    + destruct (t_down _ _ T _ _ _ Hz0 He0) as (w & Hw & Hpw & ? & ?).
      assert (nl_d e <> f) as Hef by (intros E; rewrite E in Hw; congruence).
      destruct (proj2 (attach_live (nl_d e))) as [w' Hw']; [eauto|]. exists w'.
      destruct (attach_old _ _ Hw' Hef) as (w0 & Hw0 & E1 & E2 & _ & _ & _ & E6 & _).
      assert (w0 = w) as -> by congruence. split_and!; congruence.
    + cbn. rewrite attach_lookup, decide_True by done. eexists. by split_and!.
  - intros q z. rewrite attach_lookup. destruct (decide (q = f)) as [->|].
    { intros [= <-]. by apply (t_names _ _ T f x). }
    destruct (decide (q = p)) as [->|]; [|apply (t_names _ _ T)]. intros [= <-]. cbn.
    rewrite fmap_app. apply NoDup_app. split_and!; [by apply (t_names _ _ T p)| |apply NoDup_singleton].
    intros m Hm ->%list_elem_of_singleton. cbn in Hm. apply list_elem_of_fmap in Hm as (e & En & He).
    unfold child in Hc. rewrite Hy in Hc. cbn in Hc.
    rewrite (hash_find_in n _ e (t_names _ _ T _ _ Hy) He) in Hc by done. done.
  - apply attach_acyclic.
Qed.
End attach.

(** A dentry with no links appears or goes away. *)
Lemma tree_insert h r d x :
  tree_ok h r -> h !! d = None -> parent x = None -> child_list x = [] -> tree_ok (<[d := x]> h) r.
Proof.
  intros T Hd Hp Hc.
  assert (Hpar : forall a b, parent_of (<[d := x]> h) a b -> parent_of h a b).
  { intros a b (y & Hy & Hpy). destruct (decide (b = d)) as [->|]; simplify_map_eq; by exists y. }
  split.
  - destruct (t_root _ _ T) as (y & Hy & ?). exists y. rewrite lookup_insert_ne by congruence. done.
  - intros e y p Hy Hpy. destruct (decide (e = d)) as [->|]; simplify_map_eq.
    destruct (t_up _ _ T _ _ _ Hy Hpy) as (z & m & Hz & ?). exists z, m.
    rewrite lookup_insert_ne by congruence. done.
  - intros p y e Hy He. destruct (decide (p = d)) as [->|]; simplify_map_eq.
    { rewrite Hc in He. by apply not_elem_of_nil in He. }
    destruct (t_down _ _ T _ _ _ Hy He) as (z & Hz & ?). exists z. rewrite lookup_insert_ne by congruence. done.
  - intros p y Hy. destruct (decide (p = d)) as [->|]; simplify_map_eq.
    + rewrite Hc. constructor. + by apply (t_names _ _ T p).
  - intros e. induction (t_acyclic _ _ T e) as [e _ IH]. constructor. auto.
Qed.

Lemma tree_delete h r d x :
  tree_ok h r -> h !! d = Some x -> parent x = None -> child_list x = [] -> d <> r -> tree_ok (delete d h) r.
Proof.
  intros T Hd Hp Hc Hr.
  assert (Hpar : forall a b, parent_of (delete d h) a b -> parent_of h a b).
  { intros a b (y & Hy & Hpy). apply lookup_delete_Some in Hy as [_ Hy]. by exists y. }
  split.
  - destruct (t_root _ _ T) as (y & Hy & ?). exists y. by rewrite lookup_delete_ne.
  - intros e y p Hy Hpy. apply lookup_delete_Some in Hy as [_ Hy].
    destruct (t_up _ _ T _ _ _ Hy Hpy) as (z & m & Hz & ? & ? & ? & ? & ? & He). exists z, m.
    rewrite lookup_delete_ne; [done|]. intros <-. assert (z = x) as -> by congruence.
    rewrite Hc in He. by apply not_elem_of_nil in He.
  - intros p y e Hy He. apply lookup_delete_Some in Hy as [_ Hy].
    destruct (t_down _ _ T _ _ _ Hy He) as (z & Hz & Hpz & ?). exists z.
    rewrite lookup_delete_ne; [done|]. intros E. rewrite E in *. congruence.
  - intros p y Hy. apply lookup_delete_Some in Hy as [_ Hy]. by apply (t_names _ _ T p).
  - intros e. induction (t_acyclic _ _ T e) as [e _ IH]. constructor. auto.
Qed.
