(* ===== verification/DentryPaths.v ===== *)
(** * What the edits of the tree do to paths

    Detaching a dentry makes exactly the paths through it meaningless;
    attaching one gives exactly the paths through its new name a meaning. *)

From stdpp Require Import relations.
From S2P Require Import Prelude LtfsError Extents TapeOps TapeLayer Journal Dentry DentryRun DentryTree DentryLookup DentryEdit.

Lemma option_ext {A} (a b : option A) : (forall x, a = Some x <-> b = Some x) -> a = b.
Proof. intros H. apply option_eq, H. Qed.

(** Does the path [q] go through the name [n] of the directory at [qp]? *)
Definition through (qp : list path) (n : path) (q : list path) : Prop := (qp ++ [n]) `prefix_of` q.

#[export] Instance through_dec qp n q : Decision (through qp n q).
Proof. unfold through. apply _. Defined.

Lemma through_iff qp n q : through qp n q <-> exists q', q = qp ++ n :: q'.
Proof.
  unfold through, prefix. split; intros [q' ->]; exists q'; by rewrite <- app_assoc.
Qed.

Section detach.
Context (h : gmap Z dentry) (r : Z) (T : tree_ok h r).
Context (f p k : Z) (n : path) (x : dentry).
Context (Hf : h !! f = Some x) (Hp : parent x = Some p) (Hn : platform_safe_name x = Some n).

Lemma detach_child b m :
  child (detach p n f k h) b m = if decide (b = p /\ m = n) then None else child h b m.
Proof.
  pose proof (tree_detach h r T f p k n x Hf Hp Hn) as T'. apply option_ext. intros c.
  rewrite (child_iff _ _ T'). unfold detach. setoid_rewrite (lookup_edit _ _ _ _ h c (detach_ne h r T f p x Hf Hp)).
  assert (Hchild : child h p n = Some f) by (apply (child_iff _ _ T); eauto).
  destruct (decide (c = f)) as [->|Hcf].
  { rewrite Hf. split; [by intros (z & [= <-] & Hz & _)|]. destruct (decide _) as [_|Hne]; [done|].
    intros Hc. apply (child_iff _ _ T) in Hc as (z & Hz & Hpz & Hnz). destruct Hne. split; congruence. }
  transitivity (child h b m = Some c).
  { rewrite (child_iff _ _ T). destruct (decide (c = p)) as [->|]; [|done].
    destruct (h !! p) as [y|]; cbn; [|done]. split; intros (z & [= <-] & H); [by exists y|by eexists]. }
  destruct (decide _) as [[-> ->]|]; [|done]. split; [|done]. rewrite Hchild. congruence.
Qed.

Lemma resolve_detach qp q :
  resolve h r qp = Some p ->
  resolve (detach p n f k h) r q = if decide (through qp n q) then None else resolve h r q.
Proof.
  intros Hq. assert (Hsame : forall q, ~ through qp n q -> resolve (detach p n f k h) r q = resolve h r q).
  { intros q0 Hno. apply resolve_agree. intros q1 m q2 c -> Hc. rewrite detach_child.
    destruct (decide _) as [[-> ->]|]; [|done]. destruct Hno. apply through_iff. exists q2.
    by rewrite (resolve_inj _ _ T _ _ _ Hq Hc). }
  destruct (decide (through qp n q)) as [Ht|]; [|auto]. apply through_iff in Ht as [q' ->].
  rewrite resolve_app. rewrite Hsame.
  - rewrite Hq. cbn. rewrite detach_child. by rewrite decide_True.
  - intros (q'' & E)%through_iff. apply (f_equal length) in E. rewrite length_app in E. cbn in E. lia.
Qed.

(** What is below the detached dentry keeps its place. *)
Lemma resolve_detach_below q : resolve (detach p n f k h) f q = resolve h f q.
Proof.
  apply resolve_agree. intros q1 m q2 c -> Hc. rewrite detach_child.
  destruct (decide _) as [[-> ->]|]; [|done]. apply (resolve_ancestor _ _ T) in Hc.
  destruct (no_cycle _ _ T p). eapply tc_rtc_r; [apply tc_once; by exists x|done].
Qed.
End detach.

Section attach.
Context (h : gmap Z dentry) (r : Z) (T : tree_ok h r).
Context (f p k : Z) (n : path) (x y : dentry).
Context (Hf : h !! f = Some x) (Hp : parent x = None) (Hdel : deleted x = false) (Hr : f <> r).
Context (Hy : h !! p = Some y) (Hdir : isdir y = true) (Hc : child h p n = None) (Hn : file_name n).
Context (Hloop : ~ rtc (parent_of h) f p).

Lemma attach_child b m :
  child (attach p n f (uid x) k h) b m = if decide (b = p /\ m = n) then Some f else child h b m.
Proof.
  pose proof (tree_attach h r T f p k n x y Hf Hp Hdel Hr Hy Hdir Hc Hn Hloop) as T'.
  apply option_ext. intros c. rewrite (child_iff _ _ T').
  setoid_rewrite (attach_lookup h r f p k n x y Hf Hr Hy Hloop c).
  destruct (decide (c = f)) as [->|Hcf].
  { split.
    - intros (z & [= <-] & [= <-] & [= <-]). by rewrite decide_True.
    - destruct (decide _) as [[-> ->]|]; [intros _; by eexists|].
      intros Hch. apply (child_iff _ _ T) in Hch as (z & Hz & Hpz & _). congruence. }
  transitivity (child h b m = Some c).
  { rewrite (child_iff _ _ T). destruct (decide (c = p)) as [->|]; [|done]. rewrite Hy.
    split; intros (z & [= <-] & H); [by exists y|by eexists]. }
  destruct (decide _) as [[-> ->]|]; [|done]. rewrite Hc. split; [done|congruence].
Qed.

Lemma resolve_attach_below q : resolve (attach p n f (uid x) k h) f q = resolve h f q.
Proof.
  apply resolve_agree. intros q1 m q2 c -> Hcc. rewrite attach_child.
  destruct (decide _) as [[-> ->]|]; [|done]. by apply (resolve_ancestor _ _ T) in Hcc.
Qed.

Lemma resolve_attach qp q :
  resolve h r qp = Some p ->
  resolve (attach p n f (uid x) k h) r q =
  if decide (through qp n q) then resolve h f (drop (S (length qp)) q) else resolve h r q.
Proof.
  intros Hq. assert (Hsame : forall q, ~ through qp n q ->
    resolve (attach p n f (uid x) k h) r q = resolve h r q).
  { intros q0 Hno. apply resolve_agree. intros q1 m q2 c -> Hcc. rewrite attach_child.
    destruct (decide _) as [[-> ->]|]; [|done]. destruct Hno. apply through_iff. exists q2.
    by rewrite (resolve_inj _ _ T _ _ _ Hq Hcc). }
  destruct (decide (through qp n q)) as [Ht|]; [|auto]. apply through_iff in Ht as [q' ->].
  rewrite resolve_app, Hsame.
  - rewrite Hq. cbn. rewrite attach_child, decide_True by done. cbn. rewrite resolve_attach_below.
    replace (drop (S (length qp)) (qp ++ n :: q')) with q'; [done|].
    change (n :: q') with ([n] ++ q'). rewrite app_assoc, drop_app_length'; [done|]. rewrite length_app. cbn. lia.
  - intros (q'' & E)%through_iff. apply (f_equal length) in E. rewrite length_app in E. cbn in E. lia.
Qed.
End attach.

(** Dentries without links are on no path. *)
Lemma child_insert_leaf h d x b m :
  h !! d = None -> child_list x = [] -> child (<[d := x]> h) b m = child h b m.
Proof.
  intros Hd Hc. unfold child. destruct (decide (b = d)) as [->|].
  - rewrite lookup_insert_eq, Hd. cbn. by rewrite Hc.
  - by rewrite lookup_insert_ne.
Qed.

Lemma child_delete_leaf h d x b m :
  h !! d = Some x -> child_list x = [] -> child (delete d h) b m = child h b m.
Proof.
  intros Hd Hc. unfold child. destruct (decide (b = d)) as [->|].
  - rewrite lookup_delete_eq, Hd. cbn. by rewrite Hc.
  - by rewrite lookup_delete_ne.
Qed.
