(* ===== verification/DentryCounts.v ===== *)
(** * The counters of the tree

    [numhandles] counts the link of a dentry and the handles its users hold
    ([refs]); [link_count] is what [stat] reports: the entry of the dentry, and
    for a directory itself and its subdirectories; the index counts the files.
    The edits of [DentryEdit] keep all three. *)

From S2P Require Import Prelude LtfsError Extents TapeOps TapeLayer Journal Dentry DentryRun DentryTree DentryLookup DentryEdit.

Definition linkedb (r d : Z) (x : dentry) : bool := bool_decide (parent x <> None) || (d =? r).
Definition parent_n (x : dentry) : Z := match parent x with Some _ => 1 | None => 0 end.
Definition isdir_at (h : gmap Z dentry) (d : Z) : Z := match h !! d with Some y => dir_n y | None => 0 end.
Definition subdirs (h : gmap Z dentry) (x : dentry) : Z :=
  zsum ((fun e => isdir_at h (nl_d e)) <$> child_list x).

Definition counts_ok (h : gmap Z dentry) (r : Z) (refs : Z -> Z) : Prop :=
  forall d x, h !! d = Some x ->
    numhandles x = Z.b2z (linkedb r d x) + refs d /\ 0 <= refs d /\
    link_count x = dir_n x + parent_n x + subdirs h x.

(** The 32-bit counters have room for the next operations. *)
Definition room (h : gmap Z dentry) : Prop :=
  forall d x, h !! d = Some x -> numhandles x < 2 ^ 32 - 16 /\ link_count x < 2 ^ 32 - 16.

Lemma linkedb_spec r d x : linkedb r d x = true <-> linked r d x.
Proof. unfold linkedb, linked. rewrite orb_true_iff, bool_decide_eq_true, Z.eqb_eq. done. Qed.

Lemma dir_n_range x : 0 <= dir_n x <= 1.
Proof. unfold dir_n. destruct (isdir x); lia. Qed.

Lemma isdir_at_range h d : 0 <= isdir_at h d <= 1.
Proof. unfold isdir_at. destruct (h !! d); [apply dir_n_range|lia]. Qed.

Lemma subdirs_nonneg h x : 0 <= subdirs h x.
Proof. apply zsum_nonneg, Forall_fmap, Forall_true. intros e. apply isdir_at_range. Qed.

Lemma subdirs_ext h h' x :
  (forall d, isdir_at h' d = isdir_at h d) -> subdirs h' x = subdirs h x.
Proof. intros H. unfold subdirs. f_equal. apply list_fmap_ext. intros _ e _. apply H. Qed.

(** The directories among the children that are left. *)
Lemma zsum_hash_del g (l : list name_list) e :
  NoDup (nl_name <$> l) -> e ∈ l ->
  zsum (g <$> hash_del (nl_name e) l) = zsum (g <$> l) - g e.
Proof.
  intros Hn He. rewrite hash_del_filter by done.
  induction l as [|a l IH]; [by apply not_elem_of_nil in He|].
  rewrite fmap_cons in Hn. apply NoDup_cons in Hn as [Ha Hn]. rewrite filter_cons, fmap_cons, zsum_cons.
  apply elem_of_cons in He as [->|He].
  - rewrite decide_False by naive_solver. rewrite filter_all; [lia|].
    apply Forall_forall. intros b Hb E. destruct Ha. apply list_elem_of_fmap. eauto.
  - rewrite decide_True; [rewrite fmap_cons, zsum_cons, IH by done; lia|].
    intros E. destruct Ha. apply list_elem_of_fmap. eauto.
Qed.

Lemma link_in_u32 h r refs d x : counts_ok h r refs -> room h -> h !! d = Some x -> in_u32 (link_count x).
Proof.
  intros C R Hx. destruct (R d x Hx) as [_ ?], (C d x Hx) as (_ & _ & C3). pose proof (subdirs_nonneg h x).
  pose proof (dir_n_range x). assert (0 <= parent_n x) by (unfold parent_n; destruct (parent x); lia).
  unfold in_u32. lia.
Qed.

Lemma counts_handles h r refs : counts_ok h r refs -> room h -> handles_ok h r.
Proof.
  intros H R d x Hx. destruct (H d x Hx) as (Hn & Hr & _), (R d x Hx) as [Hm _].
  rewrite Hn in *. split; [unfold Z.b2z in *; destruct (linkedb r d x); lia|].
  intros Hl. apply linkedb_spec in Hl. rewrite Hl. cbn. lia.
Qed.

#[export] Instance counts_ok_proper : Proper (heq ==> eq ==> eq ==> iff) counts_ok.
Proof.
  assert (Himp : forall h h' r refs, heq h h' -> counts_ok h r refs -> counts_ok h' r refs).
  { intros h h' r refs H C d y Hy. symmetry in H.
    destruct (heq_some _ _ _ _ H Hy) as (x & Hx & [= Ep _ _ Ed _ _ Ec En El _ _ _]).
    destruct (C d x Hx) as (C1 & C2 & C3). split_and!; [|done|].
    - rewrite En, C1. unfold linkedb. by rewrite Ep.
    - rewrite El, C3. unfold dir_n, parent_n. rewrite Ed, Ep. f_equal.
      unfold subdirs. rewrite Ec. f_equal. apply list_fmap_ext. intros _ e _. unfold isdir_at.
      specialize (H (nl_d e)). destruct (h' !! nl_d e), (h !! nl_d e); cbn in H; try done.
      injection H as _ _ _ Hd _ _ _ _ _ _ _ _. unfold dir_n. by rewrite Hd. }
  intros h h' H r ? <- refs ? <-. split; [by apply Himp|]. apply Himp. by symmetry.
Qed.

#[export] Instance room_proper : Proper (heq ==> iff) room.
Proof.
  assert (Himp : forall h h', heq h h' -> room h -> room h').
  { intros h h' H R d y Hy. symmetry in H.
    destruct (heq_some _ _ _ _ H Hy) as (x & Hx & [= _ _ _ _ _ _ _ En El _ _ _]).
    rewrite En, El. by eapply R. }
  intros h h' H. split; [by apply Himp|]. apply Himp. by symmetry.
Qed.

Lemma isdir_at_alter g d h e : (forall x, isdir (g x) = isdir x) -> isdir_at (alter g d h) e = isdir_at h e.
Proof.
  intros Hg. unfold isdir_at. destruct (decide (d = e)) as [->|].
  - rewrite lookup_alter_eq. destruct (h !! e); cbn; [|done]. unfold dir_n. by rewrite Hg.
  - by rewrite lookup_alter_ne.
Qed.

(** A change of fields that are not counted. *)
Lemma counts_alter g d h r refs :
  (forall x, parent (g x) = parent x /\ isdir (g x) = isdir x /\ child_list (g x) = child_list x /\
             numhandles (g x) = numhandles x /\ link_count (g x) = link_count x) ->
  counts_ok h r refs -> counts_ok (alter g d h) r refs.
Proof.
  intros Hg C e x Hx. rewrite (subdirs_ext h) by (intros b; apply isdir_at_alter; apply Hg).
  destruct (decide (e = d)) as [->|]; [|rewrite lookup_alter_ne in Hx by done; by apply C].
  rewrite lookup_alter_eq in Hx. destruct (h !! d) as [y|] eqn:Hy; [|done]. injection Hx as <-.
  destruct (C d y Hy) as (C1 & C2 & C3), (Hg y) as (E1 & E2 & E3 & E4 & E5).
  unfold linkedb, dir_n, parent_n, subdirs in *. by rewrite E1, E2, E3, E4, E5.
Qed.

(** A handle more or less. *)
Lemma counts_add_ref h r refs d k :
  counts_ok h r refs -> room h -> 0 <= refs d + k <= refs d + 1 ->
  counts_ok (alter (fun x => x <| numhandles := u32 (numhandles x + k) |>) d h) r
    (fun e => if decide (e = d) then refs d + k else refs e).
Proof.
  intros C R Hk e x Hx.
  assert (Hs : forall y, subdirs (alter (fun x => x <| numhandles := u32 (numhandles x + k) |>) d h) y = subdirs h y).
  { intros y. apply subdirs_ext. intros b. by apply isdir_at_alter. }
  rewrite Hs. destruct (decide (e = d)) as [->|].
  - rewrite lookup_alter_eq in Hx. destruct (h !! d) as [y|] eqn:Hy; [|done]. injection Hx as <-.
    destruct (C d y Hy) as (C1 & C2 & C3), (R d y Hy) as [R1 _].
    cbn. change (linkedb r d _) with (linkedb r d y). rewrite C1 in *.
    rewrite u32_small; [split_and!; [lia..|exact C3]|].
    unfold Z.b2z in *. destruct (linkedb r d y); lia.
  - rewrite lookup_alter_ne in Hx by done. by apply C.
Qed.

Section detach.
Context (h : gmap Z dentry) (r : Z) (T : tree_ok h r) (refs : Z -> Z) (C : counts_ok h r refs) (R : room h).
Context (f p : Z) (n : path) (x : dentry).
Context (Hf : h !! f = Some x) (Hp : parent x = Some p) (Hn : platform_safe_name x = Some n).

Lemma detach_isdir e : isdir_at (detach p n f (dir_n x) h) e = isdir_at h e.
Proof. unfold detach. by rewrite !isdir_at_alter. Qed.

Lemma subdirs_detach y :
  h !! p = Some y -> subdirs h (cut_child n (dir_n x) y) = subdirs h y - dir_n x.
Proof.
  intros Hy. destruct (t_up _ _ T _ _ _ Hf Hp) as (y' & n' & Hy' & _ & Hn' & _ & _ & _ & He).
  assert (y' = y) as -> by congruence. assert (n' = n) as -> by congruence. unfold subdirs. cbn.
  rewrite (zsum_hash_del _ _ _ (t_names _ _ T _ _ Hy) He). cbn. f_equal. unfold isdir_at. by rewrite Hf.
Qed.

Lemma counts_detach : counts_ok (detach p n f (dir_n x) h) r refs.
Proof.
  pose proof (detach_ne _ _ T _ _ _ Hf Hp) as Hfp. intros d z Hz.
  rewrite (subdirs_ext h) by apply detach_isdir. unfold detach in Hz. rewrite lookup_edit in Hz by done.
  destruct (decide (d = f)) as [->|].
  { rewrite Hf in Hz. injection Hz as <-. destruct (C f x Hf) as (C1 & C2 & C3), (R f x Hf) as [R1 R2].
    assert (f <> r) as Hfr. { intros ->. destruct (root_no_parent _ _ T p). by exists x. }
    unfold linkedb, parent_n in C1, C3. rewrite Hp, bool_decide_true in * by done. cbn [orb Z.b2z] in C1.
    pose proof (subdirs_nonneg h x). pose proof (dir_n_range x).
    unfold linkedb, parent_n. cbn -[subdirs]. replace (f =? r) with false by lia. cbn -[subdirs].
    change (dir_n (cut_link x)) with (dir_n x). change (subdirs h (cut_link x)) with (subdirs h x).
    rewrite !u32_small by lia. lia. }
  destruct (decide (d = p)) as [->|]; [|by apply C].
  destruct (h !! p) as [y|] eqn:Hy; cbn in Hz; [|done]. injection Hz as <-.
  destruct (C p y Hy) as (C1 & C2 & C3), (R p y Hy) as [R1 R2]. split_and!; [done..|].
  rewrite subdirs_detach by done. pose proof (subdirs_detach y Hy) as E.
  pose proof (subdirs_nonneg h (cut_child n (dir_n x) y)). pose proof (dir_n_range y).
  assert (0 <= parent_n y) by (unfold parent_n; destruct (parent y); lia). pose proof (dir_n_range x).
  change (dir_n (cut_child n (dir_n x) y)) with (dir_n y).
  change (parent_n (cut_child n (dir_n x) y)) with (parent_n y). cbn -[subdirs]. rewrite u32_small by lia. lia.
Qed.
End detach.

Section attach.
Context (h : gmap Z dentry) (r : Z) (T : tree_ok h r) (refs : Z -> Z) (C : counts_ok h r refs) (R : room h).
Context (f p : Z) (n : path) (x y : dentry).
Context (Hf : h !! f = Some x) (Hp : parent x = None) (Hr : f <> r) (Hy : h !! p = Some y) (Hfp : f <> p).

Lemma counts_attach : counts_ok (attach p n f (uid x) (dir_n x) h) r refs.
Proof.
  intros d z Hz. rewrite (subdirs_ext h) by (intros e; unfold attach; by rewrite !isdir_at_alter).
  unfold attach in Hz. rewrite lookup_edit in Hz by done. destruct (decide (d = f)) as [->|].
  { rewrite Hf in Hz. injection Hz as <-. destruct (C f x Hf) as (C1 & C2 & C3), (R f x Hf) as [R1 R2].
    unfold linkedb, parent_n in C1, C3. rewrite Hp, bool_decide_false in * by (intros Hx; by destruct Hx).
    replace (f =? r) with false in C1 by lia. cbn [orb Z.b2z] in C1.
    unfold linkedb, parent_n. cbn -[subdirs].
    change (dir_n (make_link p n x)) with (dir_n x). change (subdirs h (make_link p n x)) with (subdirs h x).
    pose proof (subdirs_nonneg h x). pose proof (dir_n_range x). rewrite !u32_small by lia. lia. }
  destruct (decide (d = p)) as [->|]; [|by apply C]. rewrite Hy in Hz. injection Hz as <-.
  destruct (C p y Hy) as (C1 & C2 & C3), (R p y Hy) as [R1 R2]. split_and!; [done..|].
  assert (E : subdirs h (add_child n f (uid x) (dir_n x) y) = subdirs h y + dir_n x).
  { unfold subdirs. cbn. rewrite fmap_app, zsum_app. cbn. unfold isdir_at at 2. rewrite Hf. lia. }
  rewrite E. change (dir_n (add_child n f (uid x) (dir_n x) y)) with (dir_n y).
  change (parent_n (add_child n f (uid x) (dir_n x) y)) with (parent_n y).
  pose proof (subdirs_nonneg h y). pose proof (dir_n_range y). pose proof (dir_n_range x).
  assert (0 <= parent_n y) by (unfold parent_n; destruct (parent y); lia).
  cbn -[subdirs]. rewrite u32_small by lia. lia.
Qed.
End attach.

Lemma counts_insert h r refs d x k :
  tree_ok h r -> counts_ok h r refs -> h !! d = None -> parent x = None -> child_list x = [] -> 0 <= k ->
  numhandles x = k -> link_count x = dir_n x ->
  counts_ok (<[d := x]> h) r (fun e => if decide (e = d) then k else refs e).
Proof.
  intros T C Hd Hp Hc Hk Hh Hl e y Hy.
  assert (Hr : d <> r). { intros ->. destruct (t_root _ _ T) as (z & Hz & _). congruence. }
  destruct (decide (e = d)) as [->|]; simplify_map_eq.
  - unfold linkedb, parent_n, subdirs. rewrite Hp, Hc, bool_decide_false by (intros E; by destruct E).
    replace (d =? r) with false by lia. cbn. rewrite Hl. lia.
  - destruct (C e y Hy) as (C1 & C2 & C3). split_and!; [done..|]. rewrite C3. f_equal.
    unfold subdirs. f_equal. apply list_fmap_ext. intros i a Ha. unfold isdir_at.
    rewrite lookup_insert_ne; [done|]. intros ->. apply list_elem_of_lookup_2 in Ha.
    destruct (t_down _ _ T _ _ _ Hy Ha) as (z & Hz & _). congruence.
Qed.

Lemma counts_delete h r refs d x :
  tree_ok h r -> counts_ok h r refs -> h !! d = Some x -> parent x = None -> counts_ok (delete d h) r refs.
Proof.
  intros T C Hd Hp e y Hy. apply lookup_delete_Some in Hy as [Hne Hy].
  destruct (C e y Hy) as (C1 & C2 & C3). split_and!; [done..|]. rewrite C3. f_equal.
  unfold subdirs. f_equal. apply list_fmap_ext. intros i a Ha. unfold isdir_at.
  rewrite lookup_delete_ne; [done|]. intros ->. apply list_elem_of_lookup_2 in Ha.
  destruct (t_down _ _ T _ _ _ Hy Ha) as (z & Hz & Hpz & _). congruence.
Qed.

(** ** The number of files *)

Definition is_file (r d : Z) (x : dentry) : Z := Z.b2z (linkedb r d x && negb (isdir x)).

Definition files (h : gmap Z dentry) (r : Z) : Z := map_fold (fun d x n => is_file r d x + n) 0 h.

Lemma files_insert h r d x : h !! d = None -> files (<[d := x]> h) r = is_file r d x + files h r.
Proof. intros Hd. unfold files. rewrite map_fold_insert_L; [done| |done]. intros. lia. Qed.

Lemma files_delete h r d x : h !! d = Some x -> files h r = is_file r d x + files (delete d h) r.
Proof. intros Hd. apply (map_fold_delete_L (fun d x n => is_file r d x + n)); [|done]. intros. lia. Qed.

Lemma files_alter h r d x g :
  h !! d = Some x -> files (alter g d h) r = files h r - is_file r d x + is_file r d (g x).
Proof.
  intros Hd. rewrite (files_delete h r d x Hd), (files_delete (alter g d h) r d (g x)).
  - rewrite delete_alter_eq. lia.
  - by rewrite lookup_alter_eq, Hd.
Qed.

Lemma files_nonneg h r : 0 <= files h r.
Proof.
  unfold files. apply (map_fold_weak_ind (fun n _ => 0 <= n)); [done|].
  intros d x m n _ Hn. unfold is_file. destruct (_ && _); cbn; lia.
Qed.

#[export] Instance files_proper : Proper (heq ==> eq ==> eq) files.
Proof.
  intros h h' H r ? <-. revert h' H. induction h as [|d x h Hd IH] using map_ind; intros h' H.
  - assert (h' = ∅) as ->; [|done]. apply map_empty. intros d. specialize (H d). rewrite lookup_empty in H.
    by destruct (h' !! d).
  - assert (<[d := x]> h !! d = Some x) as Hx by by rewrite lookup_insert_eq.
    destruct (heq_some _ _ _ _ H Hx) as (y & Hy & [= Ep _ _ Ed _ _ _ _ _ _ _ _]).
    rewrite files_insert, (files_delete h' r d y) by done. f_equal.
    + unfold is_file, linkedb. by rewrite Ep, Ed.
    + apply IH. pose proof (heq_delete d _ _ H) as H'. by rewrite delete_insert_id in H'.
Qed.
