(* ===== verification/FsOps.v ===== *)
(** * File system operations (src/libltfs/ltfs_fsops.c)

    The operations that FUSE calls: they check the volume, normalise the path,
    take the locks, change the dentry tree of [Dentry], tell the incremental
    journal ([Journal]) and give handles and locks back.  Every [goto] of the
    source is the call of what stands at its label.

    The volume checks ([ltfs_get_volume_readonly], [ltfs_test_unit_ready], the
    result of [ltfs_get_volume_lock]) look at the drive; their results are inputs
    of a call.  [pathname_format] normalises with ICU and is a parameter, as is
    setting the append-only attribute of a new file through xattr.c.  Both I/O
    schedulers open a file with [ltfs_fsraw_open] and close it with
    [ltfs_fsraw_close]; the result of the flush that the unified scheduler does
    first is an input.  The dentry cache is off. *)

From S2P Require Import Prelude LtfsError Extents TapeOps TapeLayer Journal Dentry.

(** The results of the volume checks of one call. *)
Record vol_checks := mk_checks {
  volume_readonly : Z;
  unit_ready : Z;
  volume_lock : Z;
}.

Definition ltfs_get_volume_lock (ck : vol_checks) : fs Z :=
  if volume_lock ck <? 0 then fret (volume_lock ck)
  else acquireread_mrsw vol_lock;;; fret 0.

(** "Read-only" for an operation that needs no space on the tape. *)
Definition readonly_refuses (ck : vol_checks) : bool :=
  (volume_readonly ck <? 0) && negb (volume_readonly ck =? - LTFS_LESS_SPACE).

(** ** The index *)

Definition set_index_dirty (atime : bool) (s : fs_state) : fs_state :=
  let s := if atime then s <| atime_dirty := true |>
           else s <| idx_dirty := true |> <| inc_dirty := true |> in
  if negb atime || (atime && use_atime s) then s <| version := write_version s |> else s.

Definition ltfs_set_index_dirty (locking atime : bool) : fs unit :=
  if locking then locked dirty_lock (fmodify (set_index_dirty atime))
  else fmodify (set_index_dirty atime).

Definition ltfs_update_valid_block_count_unlocked (c : Z) : fs Z :=
  locked dirty_lock (fmodify (fun s => s <| valid_blocks := u64 (valid_blocks s + c) |>));;; fret 0.

Definition ltfs_update_valid_block_count (ck : vol_checks) (c : Z) : fs Z :=
  ret <- ltfs_get_volume_lock ck;;
  if ret <? 0 then fret ret
  else
    ret <- ltfs_update_valid_block_count_unlocked c;;
    releaseread_mrsw vol_lock;;;
    fret ret.

(** ** The journal *)

Definition jdentry_of (x : dentry) : jdentry := mk_jdentry (uid x) (default [] (dname x)) (isdir x).

Definition run_journal (f : jvolume -> Z * jvolume) : fs unit :=
  fmodify (fun s => s <| vol_journal := snd (f (vol_journal s)) |>).

Definition journal_create (ppath : path) (d : Z) : fs unit :=
  x <- deref d;;
  a <- malloc_ok;; b <- malloc_ok;; c <- malloc_ok;;
  run_journal (incj_create a b c ppath (jdentry_of x)).

(** [incj_rmdir] or [incj_rmfile]. *)
Definition journal_remove (p : path) (d : Z) : fs unit :=
  x <- deref d;;
  a <- malloc_ok;; b <- malloc_ok;; c <- malloc_ok;; e <- malloc_ok;;
  run_journal (if isdir x then incj_rmdir a b c p (jdentry_of x)
               else incj_rmfile a b c e p (jdentry_of x)).

Fixpoint collect_dnames (l : list Z) : fs (list path) :=
  match l with
  | [] => fret []
  | d :: l' => x <- deref d;; ns <- collect_dnames l';; fret (default [] (dname x) :: ns)
  end.

(** [ltfs_build_fullpath] of a dentry: the names up to the root. *)
Definition build_fullpath (d : Z) : fs (option path) :=
  l <- chain d;;
  ns <- collect_dnames (removelast l);;
  ok <- malloc_ok;;
  fret (if ok : bool then Some (ltfs_build_fullpath ns) else None).

Definition set_dentry_dirty (d : Z) : fs unit :=
  x <- deref d;;
  fwhen (negb (dirty x) && bool_decide (parent x <> None))
    (p <- build_fullpath d;;
     a <- malloc_ok;; b <- malloc_ok;;
     run_journal (ltfs_set_dentry_dirty a b p true false (jdentry_of x)));;;
  assign d (fun x => x <| dirty := true |>).

(** ** The scheduler *)

Definition iosched_update_data_placement (d : Z) : fs unit :=
  _ <- deref d;; fmodify (fun s => s <| placement_updates := d :: placement_updates s |>).

(** ** Opening and closing *)

Section ops.
Variable pathname_strlen : path -> Z.
(** The return code and the normalised path. *)
Variable pathname_format : path -> Z * path.
(** [ltfs_fsops_setxattr(path, "user.ltfs.vendor.IBM.appendonly", "1", ...)]. *)
Variable set_appendonly : path -> fs Z.
Variable iosched_initialized : bool.

Definition ltfs_fsraw_open (ck : vol_checks) (p : path) (open_write : bool) : fs (Z * option Z) :=
  ret <- ltfs_get_volume_lock ck;;
  if ret <? 0 then fret (ret, None)
  else
    let* (ret, d) := fs_path_lookup pathname_strlen p 0;;
    if ret <? 0 then releaseread_mrsw vol_lock;;; fret (ret, None)
    else
      d <- non_null d;;
      x <- deref d;;
      fwhen (open_write && negb (isdir x))
        (mf <- fget max_filesize;; rule <- fget placement_rule;;
         acquirewrite_mrsw (meta_lock d);;;
         y <- deref d;;
         fwhen (negb (matches_name_criteria y) && (0 <? mf) && (size y <=? mf))
           (assign d (fun y => y <| matches_name_criteria := rule (default [] (dname y)) |>));;;
         releasewrite_mrsw (meta_lock d));;;
      releaseread_mrsw vol_lock;;;
      fret (0, Some d).

Definition ltfs_fsraw_close (d : Z) : fs Z := fs_release_dentry d;;; fret 0.

(** [iosched_close]: [flush_ret] is what flushing the file returned. *)
Definition iosched_close (flush_ret : Z) (d : Z) : fs Z :=
  _ <- ltfs_fsraw_close d;; fret flush_ret.

Definition ltfs_fsops_update_used_blocks (ck : vol_checks) (blocksize : Z) (d : Z) : fs Z :=
  acquireread_mrsw (contents_lock d);;;
  acquirewrite_mrsw (meta_lock d);;;
  x <- deref d;;
  let used := fs_get_used_blocks blocksize x in
  let used_diff := i64 (used - used_blocks x) in
  assign d (fun x => x <| used_blocks := used |>);;;
  releasewrite_mrsw (meta_lock d);;;
  releaseread_mrsw (contents_lock d);;;
  ltfs_update_valid_block_count ck used_diff.

Definition ltfs_fsops_close (ck : vol_checks) (blocksize flush_ret : Z) (d : Z)
    (dirty open_write use_iosched : bool) : fs Z :=
  if negb iosched_initialized then fret (- LTFS_IOSCHED_INIT)
  else
    x <- deref d;;
    fwhen (need_update_time x)
      (acquirewrite_mrsw (meta_lock d);;;
       now <- get_current_timespec;;
       assign d (fun x => x <| modify_time := now |> <| change_time := now |>);;;
       releasewrite_mrsw (meta_lock d);;;
       assign d (fun x => x <| need_update_time := false |>));;;
    ret_u <- (if open_write then ltfs_fsops_update_used_blocks ck blocksize d else fret 0);;
    ret <- (if use_iosched && negb (isdir x) then iosched_close flush_ret d else ltfs_fsraw_close d);;
    let ret := if (ret =? 0) && negb (ret_u =? 0) then ret_u else ret in
    n <- fget file_open_count;;
    fwhen ((ret =? 0) && (0 <? n)) (fmodify (fun s => s <| file_open_count := n - 1 |>));;;
    fret ret.

Definition ltfs_fsops_open (ck : vol_checks) (blocksize : Z) (p : path)
    (open_write use_iosched : bool) : fs (Z * option Z) :=
  if negb iosched_initialized then fret (- LTFS_IOSCHED_INIT, None)
  else if open_write && readonly_refuses ck then fret (volume_readonly ck, None)
  else
    let '(ret, path_norm) := pathname_format p in
    if ret =? - LTFS_INVALID_PATH then fret (- LTFS_INVALID_SRC_PATH, None)
    else if ret <? 0 then fret (ret, None)
    else
      let* (ret, d) := ltfs_fsraw_open ck path_norm open_write;;
      if ret =? 0 then
        d <- non_null d;;
        x <- deref d;;
        if open_write && isslink x then
          _ <- ltfs_fsops_close ck blocksize 0 d false open_write use_iosched;;
          fret (- LTFS_RDONLY_VOLUME, Some d)
        else
          fmodify (fun s => s <| file_open_count := file_open_count s + 1 |>);;;
          fret (0, Some d)
      else fret (ret, None).

(** ** Creating a file or directory *)

(** The label [out_free]. *)
Definition create_out_free (ret : Z) (d : option Z) : fs (Z * option Z) :=
  releaseread_mrsw vol_lock;;; fret (ret, d).

(** The label [out_dispose]; [p] is the path as the caller gave it. *)
Definition create_out_dispose (p : path) (parent_d : Z) (ret : Z) (d : option Z)
    : fs (Z * option Z) :=
  releasewrite_mrsw (contents_lock parent_d);;;
  pd <- deref parent_d;;
  ret <- (if (ret =? 0) && is_appendonly pd then
            ret <- set_appendonly p;;
            (if negb (ret =? 0) then d <- non_null d;; fs_release_dentry d else fret tt);;;
            fret ret
          else fret ret);;
  fs_release_dentry parent_d;;;
  create_out_free ret d.

(** The new dentry's times, links and counters, and the directory's. *)
Definition create_link (parent_d d : Z) (dir : bool) (filename : path) : fs Z :=
  acquirewrite_mrsw (meta_lock parent_d);;;
  acquirewrite_mrsw (meta_lock d);;;
  now <- get_current_timespec;;
  assign d (fun x => x <| creation_time := now |> <| modify_time := now |> <| access_time := now |>
                       <| change_time := now |> <| backup_time := now |>);;;
  assign parent_d (fun x => x <| modify_time := now |> <| change_time := now |>);;;
  mf <- fget max_filesize;; rule <- fget placement_rule;;
  fwhen (negb dir && negb (mf =? 0))
    (assign d (fun x => x <| matches_name_criteria := rule filename |>));;;
  assign d (fun x => x <| parent := Some parent_d |> <| link_count := u32 (link_count x + 1) |>
                       <| numhandles := u32 (numhandles x + 1) |>);;;
  fwhen dir (assign parent_d (fun x => x <| link_count := u32 (link_count x + 1) |>));;;
  assign d (fun x => x <| child_list := [] |>);;;
  pd <- deref parent_d;;
  let* (l, ret) := fs_add_key_to_hash_table (child_list pd) d;;
  assign parent_d (fun x => x <| child_list := l |>);;;
  releasewrite_mrsw (meta_lock d);;;
  releasewrite_mrsw (meta_lock parent_d);;;
  fret ret.

Definition create_record (dirpath : path) (parent_d d : Z) (dir : bool) : fs unit :=
  ltfs_mutex_lock dirty_lock;;;
  fwhen (negb dir) (fmodify (fun s => s <| file_count := u64 (file_count s + 1) |>));;;
  ltfs_set_index_dirty false false;;;
  journal_create dirpath d;;;
  assign d (fun x => x <| dirty := true |>);;;
  set_dentry_dirty parent_d;;;
  ltfs_mutex_unlock dirty_lock;;;
  fmodify (fun s => s <| file_open_count := file_open_count s + 1 |>).

(** The return code and [*dentry]; [locks_ok]: the locks of the new dentry could
    be initialised. *)
Definition ltfs_fsops_create (ck : vol_checks) (locks_ok : bool) (p : path)
    (dir ro overwrite : bool) : fs (Z * option Z) :=
  if volume_readonly ck <? 0 then fret (volume_readonly ck, None)
  else if unit_ready ck <? 0 then fret (unit_ready ck, None)
  else
    let '(ret, path_norm) := pathname_format p in
    if ret <? 0 then fret (ret, None)
    else
      ret <- ltfs_get_volume_lock ck;;
      if ret <? 0 then fret (ret, None)
      else
        match fs_split_path path_norm with
        | None => ffault
        | Some (dirpath, filename) =>
            let* (ret, pa) := fs_path_lookup pathname_strlen dirpath LOCK_DENTRY_CONTENTS_W;;
            if ret <? 0 then create_out_free ret None
            else
              parent_d <- non_null pa;;
              pd <- deref parent_d;;
              if is_immutable pd || (is_appendonly pd && overwrite) then
                create_out_dispose p parent_d (- LTFS_WORM_ENABLED) None
              else
                let* (ret, found) := fs_directory_lookup pathname_strlen parent_d filename;;
                if ret <? 0 then create_out_dispose p parent_d ret None
                else
                  match found with
                  | Some d =>
                      releasewrite_mrsw (contents_lock parent_d);;;
                      fs_release_dentry d;;;
                      fs_release_dentry parent_d;;;
                      create_out_free (- LTFS_DENTRY_EXISTS) None
                  | None =>
                      nd <- fs_allocate_dentry locks_ok None None (Some filename) dir ro true;;
                      match nd with
                      | None => create_out_dispose p parent_d (- LTFS_NO_MEMORY) None
                      | Some d =>
                          ret <- create_link parent_d d dir filename;;
                          if negb (ret =? 0) then create_out_dispose p parent_d ret None
                          else
                            create_record dirpath parent_d d dir;;;
                            create_out_dispose p parent_d 0 (Some d)
                      end
                  end
        end.

(** ** Removing a file or directory *)

(** The label [out]; the unlinked object is told to the scheduler, its handle
    given back. *)
Definition unlink_out (parent_d d ret : Z) (id : Z * Z) : fs (Z * (Z * Z)) :=
  releasewrite_mrsw (contents_lock parent_d);;;
  fs_release_dentry_unlocked parent_d;;;
  releaseread_mrsw vol_lock;;;
  fwhen (ret =? 0) (iosched_update_data_placement d);;;
  fs_release_dentry d;;;
  fret (ret, id).

(** What [ltfs_fsops_unlink] refuses to remove. *)
Definition unlink_check (parent_d d : Z) : fs Z :=
  pd <- deref parent_d;; x <- deref d;;
  if is_immutable pd || is_appendonly pd || is_immutable x || is_appendonly x then
    fret (- LTFS_WORM_ENABLED)
  else if isdir x then
    acquireread_mrsw (contents_lock d);;;
    x <- deref d;;
    releaseread_mrsw (contents_lock d);;;
    fret (if zlength (child_list x) =? 0 then 0 else - LTFS_DIRNOTEMPTY)
  else fret 0.

(** Take the entry out of the directory; [None] when there is none. *)
Definition unlink_entry (parent_d d : Z) : fs (option (Z * Z)) :=
  acquirewrite_mrsw (meta_lock d);;;
  now <- get_current_timespec;;
  assign parent_d (fun x => x <| modify_time := now |> <| change_time := now |>);;;
  pd <- deref parent_d;; x <- deref d;;
  match platform_safe_name x with
  | None => ffault
  | Some psn =>
      namelist <- fs_find_key_from_hash_table (child_list pd) psn;;
      match namelist with
      | None => releasewrite_mrsw (meta_lock d);;; fret None
      | Some e =>
          assign parent_d (fun y => y <| child_list := hash_del (nl_name e) (child_list y) |>);;;
          assign d (fun y => y <| deleted := true |> <| parent := None |>
                               <| link_count := u32 (link_count y - 1) |>);;;
          fwhen (isdir x) (assign parent_d (fun y => y <| link_count := u32 (link_count y - 1) |>));;;
          assign d (fun y => y <| numhandles := u32 (numhandles y - 1) |>);;;
          releasewrite_mrsw (meta_lock d);;;
          fret (Some (uid x, ino x))
      end
  end.

Definition unlink_record (path_norm : path) (parent_d d : Z) : fs unit :=
  ltfs_mutex_lock dirty_lock;;;
  x <- deref d;;
  journal_remove path_norm d;;;
  fwhen (negb (isdir x)) (fmodify (fun s => s <| file_count := u64 (file_count s - 1) |>));;;
  set_dentry_dirty parent_d;;;
  ltfs_set_index_dirty false false;;;
  ltfs_mutex_unlock dirty_lock;;;
  _ <- ltfs_update_valid_block_count_unlocked (- i64 (used_blocks x));;
  fret tt.

(** The return code and the id of the removed object, [(uid, ino)]. *)
Definition ltfs_fsops_unlink (ck : vol_checks) (p : path) : fs (Z * (Z * Z)) :=
  let no_id := (0, 0) in
  if negb iosched_initialized then fret (- LTFS_IOSCHED_INIT, no_id)
  else if readonly_refuses ck then fret (volume_readonly ck, no_id)
  else if unit_ready ck <? 0 then fret (unit_ready ck, no_id)
  else
    let '(ret, path_norm) := pathname_format p in
    if ret =? - LTFS_INVALID_PATH then fret (- LTFS_INVALID_SRC_PATH, no_id)
    else if ret <? 0 then fret (ret, no_id)
    else if zlength path_norm =? 1 then fret (- LTFS_UNLINKROOT, no_id)
    else
      ret <- ltfs_get_volume_lock ck;;
      if ret <? 0 then fret (ret, no_id)
      else
        let* (ret, d) := fs_path_lookup pathname_strlen path_norm LOCK_PARENT_CONTENTS_W;;
        if ret <? 0 then releaseread_mrsw vol_lock;;; fret (ret, no_id)
        else
          d <- non_null d;;
          x <- deref d;;
          parent_d <- non_null (parent x);;
          acquirewrite_mrsw (meta_lock parent_d);;;
          ret <- unlink_check parent_d d;;
          if ret <? 0 then unlink_out parent_d d ret no_id
          else
            id <- unlink_entry parent_d d;;
            match id with
            | None => unlink_out parent_d d 0 no_id
            | Some id =>
                unlink_record path_norm parent_d d;;;
                unlink_out parent_d d 0 id
            end.

(** ** Renaming *)

(** The labels [out_release] and what follows: the references of the two
    directories, whose [meta_lock] is held, are given back, then the locks; the
    scheduler is told of the new name. *)
Definition rename_out_release (ret : Z) (fromdir todir fromdentry : option Z)
    : fs (Z * (Z * Z)) :=
  match fromdir with Some f => fs_release_dentry_unlocked f | None => fret tt end;;;
  match todir with
  | Some t => if bool_decide (todir = fromdir) then fs_release_dentry t
              else fs_release_dentry_unlocked t
  | None => fret tt
  end;;;
  ltfs_mutex_unlock rename_lock;;;
  releaseread_mrsw vol_lock;;;
  id <- match fromdentry with
        | Some d => x <- deref d;; fret (uid x, ino x)
        | None => fret (0, 0)
        end;;
  match fromdentry with
  | Some d => fwhen (ret =? 0) (iosched_update_data_placement d;;; fs_release_dentry d)
  | None => fret tt
  end;;;
  fret (ret, id).

(** The label [out_unlock]. *)
Definition rename_out_unlock (ret fromdir todir : Z) (fromdentry : option Z) : fs (Z * (Z * Z)) :=
  releasewrite_mrsw (contents_lock fromdir);;;
  fwhen (negb (fromdir =? todir)) (releasewrite_mrsw (contents_lock todir));;;
  rename_out_release ret (Some fromdir) (Some todir) fromdentry.

Definition lock_dir (d : Z) : fs unit :=
  acquirewrite_mrsw (contents_lock d);;; acquirewrite_mrsw (meta_lock d).

(** Give back a dentry that may be one of the locked directories. *)
Definition release_unless (d dir : Z) : fs unit :=
  if d =? dir then assign d (fun x => x <| numhandles := u32 (numhandles x - 1) |>)
  else fs_release_dentry d.

(** Lock both directories, ancestors first, and look up the two names; an error
    goes to [out_unlock] with both directories locked. *)
Definition rename_lookup (fromdir todir : Z) (from_filename to_filename : path)
    : fs (Z * option Z * option Z) :=
  above <- (if todir =? fromdir then fret true else fs_is_predecessor todir fromdir);;
  if above : bool then
    lock_dir todir;;;
    let* (ret, todentry) := fs_directory_lookup pathname_strlen todir to_filename;;
    fwhen (negb (fromdir =? todir)) (lock_dir fromdir);;;
    if ret <? 0 then fret (ret, None, None)
    else
      let* (ret, fromdentry) := fs_directory_lookup pathname_strlen fromdir from_filename;;
      match (if ret <? 0 then None else fromdentry) with
      | Some f => fret (0, Some f, todentry)
      | None =>
          match todentry with
          | Some t => release_unless t fromdir
          | None => fret tt
          end;;;
          fret (- LTFS_NO_DENTRY, None, None)
      end
  else
    lock_dir fromdir;;;
    let* (ret, fromdentry) := fs_directory_lookup pathname_strlen fromdir from_filename;;
    lock_dir todir;;;
    if ret <? 0 then fret (ret, None, None)
    else
      match fromdentry with
      | None => fret (- LTFS_NO_DENTRY, None, None)
      | Some f =>
          let* (ret, todentry) := fs_directory_lookup pathname_strlen todir to_filename;;
          if ret <? 0 then release_unless f todir;;; fret (ret, Some f, None)
          else fret (0, Some f, todentry)
      end.

(** The cases that are refused; handles are given back. *)
Definition rename_check (fromdir todir fromdentry : Z) (todentry : option Z) : fs Z :=
  loop <- (if fromdentry =? todir then fret true else fs_is_predecessor fromdentry todir);;
  fd <- deref fromdentry;;
  ret <- (if loop : bool then fret (- LTFS_RENAMELOOP)
          else
            match todentry with
            | None => fret 0
            | Some t =>
                b <- (if t =? fromdir then fret true else fs_is_predecessor t fromdir);;
                fret (if b : bool then (if isdir fd then - LTFS_DIRNOTEMPTY else - LTFS_ISFILE) else 0)
            end);;
  if ret <? 0 then
    release_unless fromdentry todir;;;
    match todentry with
    | Some t => release_unless t fromdir
    | None => fret tt
    end;;;
    fret ret
  else if is_immutable fd || is_appendonly fd then
    fs_release_dentry fromdentry;;; fret (- LTFS_WORM_ENABLED)
  else
    match todentry with
    | None => fret 0
    | Some t =>
        td <- deref t;;
        if is_immutable td || is_appendonly td then
          fs_release_dentry fromdentry;;; fs_release_dentry t;;; fret (- LTFS_WORM_ENABLED)
        else fret 0
    end.

(** Unlink the object that the new name already has; [None] when everything is
    done, or the return code with which to go to [out_unlock]. *)
Definition rename_replace (todir fromdentry t : Z) (to_norm : path) : fs (option Z) :=
  td <- deref t;;
  ret <- (if isdir td then
            acquireread_mrsw (contents_lock t);;;
            td <- deref t;;
            releaseread_mrsw (contents_lock t);;;
            fret (if zlength (child_list td) =? 0 then 0 else - LTFS_DIRNOTEMPTY)
          else fret 0);;
  if ret <? 0 then
    fs_release_dentry fromdentry;;; fs_release_dentry t;;; fret (Some ret)
  else
    acquirewrite_mrsw (meta_lock t);;;
    fwhen (isdir td) (assign todir (fun x => x <| link_count := u32 (link_count x - 1) |>));;;
    assign t (fun x => x <| numhandles := u32 (numhandles x - 1) |>
                         <| link_count := u32 (link_count x - 1) |>
                         <| parent := None |> <| deleted := true |>);;;
    dd <- deref todir;;
    match platform_safe_name td with
    | None => ffault
    | Some psn =>
        namelist <- fs_find_key_from_hash_table (child_list dd) psn;;
        match namelist with
        | None => releasewrite_mrsw (meta_lock t);;; fret (Some 0)
        | Some e =>
            assign todir (fun y => y <| child_list := hash_del (nl_name e) (child_list y) |>);;;
            fwhen (negb (isdir td)) fs_decrement_file_count;;;
            ltfs_mutex_lock dirty_lock;;;
            journal_remove to_norm t;;;
            ltfs_mutex_unlock dirty_lock;;;
            fs_release_dentry_unlocked t;;;
            fret None
        end
    end.

(** Move the dentry to its new directory and name. *)
Definition rename_move (fromdir todir fromdentry : Z) (from_norm to_norm to_filename : path) : fs Z :=
  acquirewrite_mrsw (meta_lock fromdentry);;;
  fd <- deref fromdentry;; dd <- deref fromdir;;
  match platform_safe_name fd with
  | None => ffault
  | Some psn =>
      namelist <- fs_find_key_from_hash_table (child_list dd) psn;;
      match namelist with
      | None => releasewrite_mrsw (meta_lock fromdentry);;; fret 0
      | Some e =>
          assign fromdir (fun y => y <| child_list := hash_del (nl_name e) (child_list y) |>);;;
          fwhen (isdir fd)
            (assign fromdir (fun x => x <| link_count := u32 (link_count x - 1) |>);;;
             assign todir (fun x => x <| link_count := u32 (link_count x + 1) |>));;;
          now <- get_current_timespec;;
          assign fromdir (fun x => x <| modify_time := now |> <| change_time := now |>);;;
          assign todir (fun x => x <| modify_time := now |> <| change_time := now |>);;;
          rule <- fget placement_rule;;
          assign fromdentry (fun x => x <| change_time := now |> <| parent := Some todir |>
            <| dname := Some to_filename |>
            <| name_percent_encode := fs_is_percent_encode_required to_filename |>
            <| platform_safe_name := Some to_filename |>
            <| matches_name_criteria := rule to_filename |>);;;
          td <- deref todir;;
          let* (l, ret) := fs_add_key_to_hash_table (child_list td) fromdentry;;
          assign todir (fun x => x <| child_list := l |>);;;
          if negb (ret =? 0) then releasewrite_mrsw (meta_lock fromdentry);;; fret ret
          else
            assign fromdentry (fun x => x <| dirty := true |>);;;
            ltfs_mutex_lock dirty_lock;;;
            journal_remove from_norm fromdentry;;;
            match fs_split_path to_norm with
            | None => ffault
            | Some (to_dir, _) => journal_create to_dir fromdentry
            end;;;
            set_dentry_dirty fromdir;;;
            fwhen (negb (todir =? fromdir)) (set_dentry_dirty todir);;;
            ltfs_mutex_unlock dirty_lock;;;
            releasewrite_mrsw (meta_lock fromdentry);;;
            ltfs_set_index_dirty true false;;;
            fret 0
      end
  end.

(** From both directories found to the end. *)
Definition rename_in_dirs (fromdir todir : Z) (from_norm to_norm from_filename to_filename : path)
    : fs (Z * (Z * Z)) :=
  let* (ret, fromdentry, todentry) := rename_lookup fromdir todir from_filename to_filename;;
  if ret <? 0 then rename_out_unlock ret fromdir todir fromdentry
  else
    f <- non_null fromdentry;;
    ret <- rename_check fromdir todir f todentry;;
    if ret <? 0 then rename_out_unlock ret fromdir todir (Some f)
    else
      stop <- match todentry with
              | None => fret None
              | Some t => if t =? f then fs_release_dentry t;;; fret None
                          else rename_replace todir f t to_norm
              end;;
      match stop with
      | Some ret => rename_out_unlock ret fromdir todir (Some f)
      | None =>
          ret <- rename_move fromdir todir f from_norm to_norm to_filename;;
          rename_out_unlock ret fromdir todir (Some f)
      end.

Definition rename_locked (from_norm to_norm from_dir from_filename to_dir to_filename : path)
    : fs (Z * (Z * Z)) :=
  let* (ret, fromdir) := fs_path_lookup pathname_strlen from_dir 0;;
  if ret <? 0 then rename_out_release ret None None None
  else
    fromdir <- non_null fromdir;;
    let* (ret, todir) := fs_path_lookup pathname_strlen to_dir 0;;
    if ret <? 0 then
      acquirewrite_mrsw (meta_lock fromdir);;;
      rename_out_release ret (Some fromdir) None None
    else
      todir <- non_null todir;;
      fd <- deref fromdir;; td <- deref todir;;
      if is_appendonly fd || is_immutable fd || is_immutable td || is_appendonly td then
        acquirewrite_mrsw (meta_lock fromdir);;;
        rename_out_release (- LTFS_WORM_ENABLED) (Some fromdir) (Some todir) None
      else rename_in_dirs fromdir todir from_norm to_norm from_filename to_filename.

(** The return code and the id of the renamed object. *)
Definition ltfs_fsops_rename (ck : vol_checks) (from to : path) : fs (Z * (Z * Z)) :=
  let no_id := (0, 0) in
  if negb iosched_initialized then fret (- LTFS_IOSCHED_INIT, no_id)
  else if readonly_refuses ck then fret (volume_readonly ck, no_id)
  else if unit_ready ck <? 0 then fret (unit_ready ck, no_id)
  else
    let '(ret, from_norm) := pathname_format from in
    if ret =? - LTFS_INVALID_PATH then fret (- LTFS_INVALID_SRC_PATH, no_id)
    else if ret <? 0 then fret (ret, no_id)
    else
      let '(ret, to_norm) := pathname_format to in
      if ret <? 0 then fret (ret, no_id)
      else
        a <- malloc_ok;; b <- malloc_ok;;
        if negb a || negb b then fret (- LTFS_NO_MEMORY, no_id)
        else
          match fs_split_path from_norm, fs_split_path to_norm with
          | Some (from_dir, from_filename), Some (to_dir, to_filename) =>
              a <- malloc_ok;; b <- malloc_ok;;
              if negb a || negb b then fret (- LTFS_NO_MEMORY, no_id)
              else
                ret <- ltfs_get_volume_lock ck;;
                if ret <? 0 then fret (ret, no_id)
                else
                  ltfs_mutex_lock rename_lock;;;
                  rename_locked from_norm to_norm from_dir from_filename to_dir to_filename
          | _, _ => ffault
          end.
End ops.
