(* ===== verification/FsOpsRun.v ===== *)
(** * Runs of the parts of the file system operations

    For each part of [FsOps] that several operations share, what it does to the
    heap (up to [heq]), to the held locks and to the counters of the index. *)

From stdpp Require Import relations.
From S2P Require Import Prelude LtfsError Extents TapeOps TapeLayer Journal Dentry DentryRun DentryTree DentryLookup DentryEdit DentryCounts FsOps.

(** What most parts leave as it is. *)
Definition frame (s s' : fs_state) : Prop :=
  root s' = root s /\ mem s' = mem s /\ file_count s' = file_count s /\
  next_address s' = next_address s /\ uid_number s' = uid_number s.

#[export] Instance frame_preorder : PreOrder frame.
Proof. split; unfold frame; [done|]. intros a b c. intuition congruence. Qed.

(** [lock_simpl] forgets locks that were taken and released. *)
Ltac lock_simpl :=
  repeat first [ rewrite delete_insert_id by map_side | rewrite delete_insert_ne by key_ne
               | rewrite delete_delete_eq ].

(** [look] evaluates lookups in edited heaps. *)
Ltac look :=
  repeat first [ rewrite lookup_alter_eq | rewrite lookup_alter_ne by key_ne
               | rewrite lookup_insert_eq | rewrite lookup_insert_ne by key_ne
               | rewrite lookup_delete_eq | rewrite lookup_delete_ne by key_ne ].

Section blocks.
Context (s : fs_state) (h : gmap Z dentry) (L : gmap lock_id lock_state).
Context (mem_ok : mem s = []).

Lemma wp_run_journal g Q :
  (forall s', frame s s' -> Q tt (st s' h L)) -> wp (run_journal g) (st s h L) Q.
Proof. intros HQ. unfold run_journal. wp_step. by apply HQ. Qed.

Lemma wp_journal_create p d x Q :
  h !! d = Some x -> (forall s', frame s s' -> Q tt (st s' h L)) ->
  wp (journal_create p d) (st s h L) Q.
Proof. intros Hx HQ. unfold journal_create. wp_run. by apply wp_run_journal. Qed.

Lemma wp_journal_remove p d x Q :
  h !! d = Some x -> (forall s', frame s s' -> Q tt (st s' h L)) ->
  wp (journal_remove p d) (st s h L) Q.
Proof. intros Hx HQ. unfold journal_remove. wp_run. by apply wp_run_journal. Qed.

Lemma wp_collect_dnames l Q :
  (forall d, d ∈ l -> is_Some (h !! d)) -> (forall ns, Q ns (st s h L)) ->
  wp (collect_dnames l) (st s h L) Q.
Proof.
  revert Q. induction l as [|d l IH]; intros Q Hl HQ; cbn; [by wp_run|].
  destruct (Hl d) as [x Hx]; [apply elem_of_cons; auto|]. wp_run.
  apply IH; [intros e He; apply Hl, elem_of_cons; auto|]. intros ns. by wp_run.
Qed.

Lemma wp_build_fullpath d Q :
  tree_ok h (root s) -> is_Some (h !! d) -> (forall p, Q p (st s h L)) ->
  wp (build_fullpath d) (st s h L) Q.
Proof.
  intros T Hd HQ. destruct (up_total _ _ T _ Hd) as [l Hl]. unfold build_fullpath.
  wp_step. eapply wp_chain; [done..|]. wp_step. apply wp_collect_dnames.
  - intros e He. eapply up_live; [done|]. apply list_elem_of_In. apply list_elem_of_In in He.
    destruct l as [|a l0] using rev_ind; [done|]. rewrite removelast_last in He. apply in_or_app. by left.
  - intros ns. by wp_run.
Qed.

Lemma wp_set_dentry_dirty d x Q :
  tree_ok h (root s) -> h !! d = Some x ->
  (forall s' h', frame s s' -> heq h' h -> Q tt (st s' h' L)) ->
  wp (set_dentry_dirty d) (st s h L) Q.
Proof.
  intros T Hx HQ. unfold set_dentry_dirty. wp_run. apply wp_when.
  - intros _. wp_step. apply wp_build_fullpath; [done|eauto|]. intros p. wp_run.
    apply wp_run_journal. intros s' Hs'. wp_run. apply HQ; [done|]. by apply heq_cosmetic.
  - intros _. wp_run. apply HQ; [done|]. by apply heq_cosmetic.
Qed.

Lemma wp_set_index_dirty locking atime Q :
  (locking = true -> L !! dirty_lock = None) ->
  (forall s', frame s s' -> Q tt (st s' h L)) -> wp (ltfs_set_index_dirty locking atime) (st s h L) Q.
Proof.
  intros Hl HQ. assert (Hf : forall s0, heap (set_index_dirty atime s0) = heap s0 /\
    locks (set_index_dirty atime s0) = locks s0 /\ frame s0 (set_index_dirty atime s0)).
  { intros s0. unfold set_index_dirty. destruct atime; [|done]. cbn. by destruct (use_atime s0). }
  assert (Hfr : forall L', frame s (set_index_dirty atime (st s h L'))).
  { intros L'. transitivity (st s h L'); [done|apply Hf]. }
  destruct locking; cbn.
  - apply wp_locked; [auto|intros s0; split; apply Hf|]. apply HQ, Hfr.
  - apply wp_modify; [intros s0; split; apply Hf|]. apply HQ, Hfr.
Qed.

Lemma wp_update_valid_blocks c Q :
  L !! dirty_lock = None -> (forall s', frame s s' -> Q 0 (st s' h L)) ->
  wp (ltfs_update_valid_block_count_unlocked c) (st s h L) Q.
Proof.
  intros Hl HQ. unfold ltfs_update_valid_block_count_unlocked. wp_step.
  apply wp_locked; [done|by intros []|]. wp_step. by apply HQ.
Qed.

Lemma wp_placement d x Q :
  h !! d = Some x -> (forall s', frame s s' -> Q tt (st s' h L)) ->
  wp (iosched_update_data_placement d) (st s h L) Q.
Proof. intros Hx HQ. unfold iosched_update_data_placement. wp_run. by apply HQ. Qed.

Lemma wp_now Q :
  (forall t s', frame s s' -> Q t (st s' h L)) -> wp get_current_timespec (st s h L) Q.
Proof. intros HQ. apply wp_timespec. intros t c. by apply HQ. Qed.

Lemma wp_add_key l d x n Q :
  h !! d = Some x -> platform_safe_name x = Some n ->
  Q (l ++ [mk_name_list n d (uid x)], 0) (st s h L) ->
  wp (fs_add_key_to_hash_table l d) (st s h L) Q.
Proof. intros Hx Hn HQ. unfold fs_add_key_to_hash_table. wp_run. rewrite Hn. by wp_run. Qed.

Lemma wp_malloc Q :
  Q (Some (next_address s))
    (st (s <| next_address := next_address s + 1 |>) (<[next_address s := zero_dentry]> h) L) ->
  wp malloc_dentry (st s h L) Q.
Proof. intros HQ. unfold malloc_dentry. wp_run. exact HQ. Qed.

(** The core of a fresh dentry. *)
Definition fresh_core (n : path) (dir : bool) (u : Z) (x : dentry) : Prop :=
  dcore x = (None, Some n, Some n, dir, false, u, [], 1, if dir then 1 else 0, false, false, false).

Lemma wp_allocate n dir ro Q :
  L !! inode_mutex = None -> L !! dirty_lock = None -> 0 < uid_number s < 2 ^ 64 - 1 ->
  (forall s' x, root s' = root s -> mem s' = mem s -> file_count s' = file_count s ->
     next_address s' = next_address s + 1 -> uid_number s' = uid_number s + 1 -> fresh_core n dir (uid_number s + 1) x ->
     Q (Some (next_address s)) (st s' (<[next_address s := x]> h) L)) ->
  wp (fs_allocate_dentry true None None (Some n) dir ro true) (st s h L) Q.
Proof.
  intros Hi Hd Hu HQ. unfold fs_allocate_dentry. wp_step. apply wp_malloc. cbn beta iota.
  set (nd := next_address s) in *. set (s1 := s <| next_address := nd + 1 |>).
  assert (mem s1 = []) as Hm by done. wp_run. unfold allocate_names. wp_run.
  rewrite delete_insert_id by done. unfold fs_allocate_uid. wp_run.
  rewrite delete_insert_id by done. cbn [uid_number].
  match goal with |- context [uid_number ?s'] => change (uid_number s') with (uid_number s) end.
  replace (uid_number s =? 0) with false by lia. rewrite u64_small by lia.
  replace (uid_number s + 1 =? 0) with false by lia. wp_run.
  rewrite !alter_insert_eq. by apply HQ.
Qed.

End blocks.

(** Introduce the state after a part that keeps the frame. *)
Ltac intro_frame :=
  intros;
  repeat match goal with
  | H : frame ?s ?s', M : mem ?s = [] |- _ =>
      lazymatch goal with
      | _ : mem s' = [] |- _ => fail
      | _ => assert (mem s' = []) by (by rewrite (proj1 (proj2 H)))
      end
  end.

Ltac wp_step_more :=
  lazymatch goal with
  | |- wp get_current_timespec _ _ => apply wp_now; intro_frame
  | _ => wp_step
  end.
Ltac wp_go := repeat (wp_step_more; cbn beta iota delta [negb]).

Lemma wp_create_link s h L b y nd x n (dir : bool) Q :
  mem s = [] -> h !! b = Some y -> h !! nd = Some x -> b <> nd ->
  platform_safe_name x = Some n -> dname x = Some n -> child_list x = [] -> in_u32 (link_count y) ->
  L !! meta_lock b = None -> L !! meta_lock nd = None ->
  (forall s' h', frame s s' -> heq h' (attach b n nd (uid x) (if dir then 1 else 0) h) ->
     Q 0 (st s' h' L)) ->
  wp (create_link b nd dir n) (st s h L) Q.
Proof.
  intros Hm Hy Hx Hne Hn Hdn Hc Hu Hb Hd HQ. unfold create_link. wp_go.
  destruct (negb dir && _), dir; cbn [fwhen]; wp_go; (eapply wp_add_key; [done|map_side|done|]); wp_go.
  all: lock_simpl; apply HQ; [done|].
  all: intros e; unfold attach; destruct (decide (e = nd)) as [->|]; [|destruct (decide (e = b)) as [->|]]; look;
    [rewrite Hx|rewrite Hy|done]; unfold dcore; cbn; rewrite ?Hn, ?Hdn, ?Hc; try done.
  all: by rewrite Z.add_0_r, u32_small.
Qed.

Lemma wp_create_record s h L p b y d x dir Q :
  mem s = [] -> tree_ok h (root s) -> h !! b = Some y -> h !! d = Some x -> L !! dirty_lock = None ->
  (forall s' h', root s' = root s -> mem s' = mem s -> next_address s' = next_address s -> uid_number s' = uid_number s ->
     file_count s' = (if dir : bool then file_count s else u64 (file_count s + 1)) ->
     heq h' h -> Q tt (st s' h' L)) ->
  wp (create_record p b d dir) (st s h L) Q.
Proof.
  intros Hm T Hy Hx Hl HQ. unfold create_record. wp_go.
  assert (Hstep : forall s1, root s1 = root s -> mem s1 = mem s -> next_address s1 = next_address s -> uid_number s1 = uid_number s ->
     file_count s1 = (if dir then file_count s else u64 (file_count s + 1)) ->
     wp (ltfs_set_index_dirty false false;;; journal_create p d;;;
         assign d (fun x => x <| dirty := true |>);;; set_dentry_dirty b;;; ltfs_mutex_unlock dirty_lock;;;
         fmodify (fun s => s <| file_open_count := file_open_count s + 1 |>))
        (st s1 h (<[dirty_lock := Wr]> L)) Q).
  { intros s1 R1 M1 N1 U1 F1. assert (mem s1 = []) as Hm1 by congruence.
    wp_step. apply wp_set_index_dirty; [done|]. intro_frame. wp_step.
    eapply wp_journal_create; [done..|]. intro_frame. wp_go.
    set (h1 := alter _ d h). assert (heq h1 h) as Hh1 by by apply heq_cosmetic.
    destruct (heq_some h h1 b y) as (y1 & Hy1 & _); [done..|].
    eapply wp_set_dentry_dirty; [done| |exact Hy1|].
    { rewrite Hh1. unfold frame in *. by replace (root s'0) with (root s) by intuition congruence. }
    intro_frame. wp_go. lock_simpl. unfold frame in *.
    apply HQ; [cbn; intuition congruence..|]. by transitivity h1. }
  destruct dir; cbn [fwhen negb]; wp_step; cbv beta; apply Hstep; reflexivity.
Qed.
