(* ===== verification/FsOpsInv.v ===== *)
(** * The invariant of the file system operations

    [fs_ok]: between two operations the dentries form a tree, all counters are
    exact for the handles that are out ([refs]), and what is no longer linked is
    only kept while a handle or a failed synchronisation needs it.  The
    lemmas say how the edits of the tree carry it over. *)

From stdpp Require Import relations.
From S2P Require Import Prelude LtfsError Extents TapeOps TapeLayer Journal Dentry DentryRun DentryTree DentryLookup DentryProps DentryEdit DentryPaths DentryCounts FsOps FsOpsRun.

Record heap_ok (h : gmap Z dentry) (r : Z) (refs : Z -> Z) (next : Z) : Prop := {
  ok_tree : tree_ok h r;
  ok_counts : counts_ok h r refs;
  ok_orphans : forall d x, h !! d = Some x -> linkedb r d x = false ->
    child_list x = [] /\ deleted x = true /\ (0 < refs d \/ out_of_sync x = true);
  ok_fresh : forall d, is_Some (h !! d) -> d < next;
}.

Record fs_ok (s : fs_state) (refs : Z -> Z) : Prop := {
  fs_heap : heap_ok (heap s) (root s) refs (next_address s);
  fs_files : file_count s = files (heap s) (root s);
}.

(** What the operations need besides: no lock held, memory, counters that do
    not overflow. *)
Record ready (s : fs_state) : Prop := {
  rd_locks : locks s = ∅;
  rd_mem : mem s = [];
  rd_room : room (heap s);
  rd_files : file_count s < 2 ^ 64 - 1;
  rd_uid : 0 < uid_number s < 2 ^ 64 - 1;
}.

#[export] Instance heap_ok_proper : Proper (heq ==> eq ==> eq ==> eq ==> iff) heap_ok.
Proof.
  assert (Himp : forall h h' r refs n, heq h h' -> heap_ok h r refs n -> heap_ok h' r refs n).
  { intros h h' r refs n H [T C O F]. split; [by rewrite <- H..| |].
    - intros d y Hy Hl. symmetry in H. destruct (heq_some _ _ _ _ H Hy) as (x & Hx & [= Ep _ _ _ Ed _ Ec _ _ Eo _ _]).
      rewrite Ec, Ed, Eo. apply O with (x := x); [done|]. unfold linkedb in *. by rewrite <- Ep.
    - intros d [y Hy]. symmetry in H. destruct (heq_some _ _ _ _ H Hy) as (x & Hx & _). eauto. }
  intros h h' H r ? <- refs ? <- n ? <-. split; [by apply Himp|]. apply Himp. by symmetry.
Qed.

Lemma ready_quiet s refs : fs_ok s refs -> ready s -> quiet s.
Proof.
  intros [[T C _ _] _] [L M R _ _]. split; [done|by eapply counts_handles| |done].
  intros d. by rewrite L, !lookup_empty.
Qed.

(** ** Paths given by their names *)

Lemma cut_last_slash_none n : char_slash ∉ n -> cut_last_slash n = None.
Proof.
  induction n as [|c n IH]; intros H; [done|]. cbn. apply not_elem_of_cons in H as [Hc H].
  rewrite IH by done. by replace (c =? char_slash) with false by lia.
Qed.

Lemma cut_last_slash_app a n : char_slash ∉ n -> cut_last_slash (a ++ char_slash :: n) = Some (a, n).
Proof.
  intros Hn. induction a as [|c a IH]; cbn.
  - by rewrite cut_last_slash_none.
  - by rewrite IH.
Qed.

Lemma slashed_app q q' : slashed (q ++ q') = slashed q ++ slashed q'.
Proof. induction q as [|n q IH]; [done|]. cbn. by rewrite IH, app_assoc. Qed.

Lemma split_path_slashed q n : file_name n -> fs_split_path (slashed (q ++ [n])) = Some (slashed q, n).
Proof.
  intros [_ Hn]. unfold fs_split_path. rewrite slashed_app. cbn. rewrite app_nil_r. by apply cut_last_slash_app.
Qed.

(** The names of a path: no name is empty, has a separator or is too long. *)
Definition valid_names (strlen : path -> Z) (q : list path) : Prop :=
  Forall file_name q /\ short_names strlen q.

Lemma valid_snoc strlen q n :
  valid_names strlen (q ++ [n]) -> valid_names strlen q /\ file_name n /\ strlen n <= LTFS_FILENAME_MAX.
Proof.
  intros [H1 H2]. unfold short_names in H2. apply Forall_app in H1 as [? H1], H2 as [? H2].
  rewrite Forall_singleton in H1, H2. done.
Qed.

(** [fs_path_lookup] of a path given by its names. *)
Lemma wp_lookup_names s strlen h L q flags Q :
  mem s = [] -> tree_ok h (root s) -> handles_ok h (root s) -> no_dentry_locks L -> valid_names strlen q ->
  match resolve h (root s) q with
  | None => Q (- LTFS_NO_DENTRY, None) (st s h L)
  | Some b => forall pa, (forall a, pa = Some a <-> parent_of h a b) ->
      Q (0, Some b) (st s (lookup_heap flags b pa h) (lookup_locks flags b pa L))
  end ->
  wp (fs_path_lookup strlen (slashed q) flags) (st s h L) Q.
Proof.
  intros M T H HL [Hf Hs] HQ. apply fs_path_lookup_wp; [done..|]. unfold lookup_result.
  destruct q as [|n q].
  - cbn in *. apply (HQ None). intros a. split; [done|]. by intros ?%(root_no_parent _ _ T).
  - change (slashed (n :: q)) with (path_of (n :: q)).
    rewrite path_of_not_root by by apply Forall_cons in Hf as [? _].
    change (path_of (n :: q)) with (slashed (n :: q)). rewrite split_slashed by done.
    pose proof (walk_short strlen h (root s) (n :: q) ltac:(done) Hs) as Hw.
    destruct (walk _ _ _ _) as [e|[c b]] eqn:E.
    + destruct Hw as [-> Hr]. rewrite Hr in HQ. done.
    + rewrite Hw in HQ. apply HQ. apply (walk_parent strlen _ (root s)) in E as (x & Hx & Hp); [|done].
      intros a. split; [intros [= <-]; by exists x|]. intros (z & Hz & Hpz). congruence.
Qed.

(** ** The number of files after an edit *)

Lemma is_file_eq r d x x' : parent x' = parent x -> isdir x' = isdir x -> is_file r d x' = is_file r d x.
Proof. intros E1 E2. unfold is_file, linkedb. by rewrite E1, E2. Qed.

Lemma is_file_linked r d x p : parent x = Some p -> is_file r d x = 1 - dir_n x.
Proof.
  intros Hp. unfold is_file, linkedb, dir_n. rewrite Hp, bool_decide_true by done. cbn. by destruct (isdir x).
Qed.

Lemma is_file_unlinked r d x : parent x = None -> d <> r -> is_file r d x = 0.
Proof.
  intros Hp Hd. unfold is_file, linkedb. rewrite Hp, bool_decide_false by (intros E; by destruct E).
  by replace (d =? r) with false by lia.
Qed.

Lemma files_attach h r p n f u k x y :
  h !! f = Some x -> parent x = None -> f <> r -> h !! p = Some y -> f <> p ->
  files (attach p n f u k h) r = files h r + (1 - dir_n x).
Proof.
  intros Hf Hp Hr Hy Hfp. unfold attach.
  rewrite (files_alter _ _ f x) by (by rewrite lookup_alter_ne). rewrite (files_alter _ _ p y) by done.
  rewrite (is_file_eq r p y (add_child n f u k y)), (is_file_unlinked r f x) by done.
  rewrite (is_file_linked r f (make_link p n x) p) by done. change (dir_n (make_link p n x)) with (dir_n x). lia.
Qed.

Lemma files_detach h r p n f k x y :
  h !! f = Some x -> parent x = Some p -> f <> r -> h !! p = Some y -> f <> p ->
  files (detach p n f k h) r = files h r - (1 - dir_n x).
Proof.
  intros Hf Hp Hr Hy Hfp. unfold detach.
  rewrite (files_alter _ _ f x) by (by rewrite lookup_alter_ne). rewrite (files_alter _ _ p y) by done.
  rewrite (is_file_eq r p y (cut_child n k y)), (is_file_linked r f x p) by done.
  rewrite (is_file_unlinked r f (cut_link x)) by done. lia.
Qed.

(** ** The invariant after an edit *)

Lemma resolve_linked h r q b x : tree_ok h r -> resolve h r q = Some b -> h !! b = Some x -> linkedb r b x = true.
Proof.
  intros T Hq Hx. apply linkedb_spec. destruct q as [|n q _] using rev_ind.
  - right. by injection Hq as <-.
  - left. rewrite resolve_snoc in Hq. apply bind_Some in Hq as (a & _ & (z & Hz & Hp)%(child_parent _ _ T)).
    congruence.
Qed.

Lemma heap_create h r refs nd b y x n q :
  heap_ok h r refs nd -> room h -> resolve h r q = Some b -> h !! b = Some y -> isdir y = true ->
  child h b n = None -> file_name n -> fresh_core n (isdir x) (uid x) x ->
  heap_ok (attach b n nd (uid x) (dir_n x) (<[nd := x]> h)) r
    (fun e => if decide (e = nd) then 1 else refs e) (nd + 1).
Proof.
  intros [T C O F] R Hq Hy Hdir Hc Hn Hx. injection Hx as Ep Epn Edn Edel Ec En El Eo _ _.
  assert (h !! nd = None) as Hnd. { destruct (h !! nd) as [z|] eqn:E; [|done]. specialize (F nd). rewrite E in F. specialize (F ltac:(eauto)). lia. }
  assert (nd <> r) as Hr. { intros ->. destruct (t_root _ _ T) as (z & Hz & _). congruence. }
  assert (b <> nd) as Hb by congruence.
  pose proof (tree_insert h r nd x T Hnd Ep Ec) as T1.
  assert (C1 : counts_ok (<[nd := x]> h) r (fun e => if decide (e = nd) then 1 else refs e)).
  { by apply counts_insert. }
  assert (R1 : room (<[nd := x]> h)).
  { intros d z Hz. destruct (decide (d = nd)) as [->|];
      [rewrite lookup_insert_eq in Hz; injection Hz as <-|rewrite lookup_insert_ne in Hz by done; by eapply R].
    rewrite En, El. destruct (isdir x); lia. }
  assert (Hx1 : <[nd := x]> h !! nd = Some x) by by rewrite lookup_insert_eq.
  assert (Hy1 : <[nd := x]> h !! b = Some y) by by rewrite lookup_insert_ne.
  assert (Hloop : ~ rtc (parent_of (<[nd := x]> h)) nd b).
  { intros H. apply rtc_inv in H as [?|(a & (z & Hz & Hpz) & _)]; [done|].
    destruct (t_up _ _ T1 _ _ _ Hz Hpz) as (w & m & Hw & Hwd & _ & _ & _ & _ & He).
    rewrite Hx1 in Hw. injection Hw as <-. rewrite Ec in He. by apply not_elem_of_nil in He. }
  split.
  - apply (tree_attach _ r T1 nd b (dir_n x) n x y); try done. by rewrite child_insert_leaf.
  - by apply (counts_attach _ r _ C1 R1 nd b n x y).
  - intros d z Hz Hl. unfold attach in Hz. rewrite lookup_edit in Hz by done.
    destruct (decide (d = nd)) as [->|].
    { rewrite Hx1 in Hz. injection Hz as <-. done. }
    rewrite lookup_insert_ne in Hz by done. destruct (decide (d = b)) as [->|].
    + rewrite Hy in Hz. injection Hz as <-. pose proof (resolve_linked _ _ _ _ _ T Hq Hy) as Hlk.
      unfold linkedb in *. cbn in Hl. congruence.
    + by apply O.
  - intros d Hd. unfold attach in Hd. rewrite !lookup_alter_is_Some in Hd.
    destruct (decide (d = nd)) as [->|]; [lia|]. rewrite lookup_insert_ne in Hd by done.
    specialize (F d Hd). lia.
Qed.
