(* ===== verification/FsCreate.v ===== *)
(** * Creating files and directories

    What [ltfs_fsops_create] does to the tree: exactly one name more, every
    other path as before, or an error and nothing changed. *)

From stdpp Require Import relations.
From S2P Require Import Prelude LtfsError Extents TapeOps TapeLayer Journal Dentry DentryRun DentryTree DentryLookup DentryProps DentryEdit DentryPaths DentryCounts FsOps FsOpsRun FsOpsInv.

(** The volume is online, writable and not being revalidated. *)
Definition checks_pass (ck : vol_checks) : Prop :=
  0 <= volume_readonly ck /\ 0 <= unit_ready ck /\ 0 <= volume_lock ck.

Lemma wp_volume_lock s h L ck Q :
  0 <= volume_lock ck -> L !! vol_lock = None ->
  Q 0 (st s h (<[vol_lock := Rd 0]> L)) -> wp (ltfs_get_volume_lock ck) (st s h L) Q.
Proof.
  intros Hc Hl HQ. unfold ltfs_get_volume_lock. replace (volume_lock ck <? 0) with false by lia. by wp_run.
Qed.

(** The lock state of an operation that holds the volume lock for reading. *)
Abbreviation vol_read := (<[vol_lock := Rd 0]> (∅ : gmap lock_id lock_state)).

Lemma vol_read_no_dentry : no_dentry_locks vol_read.
Proof. intros d. split; map_side. Qed.

Lemma empty_no_dentry : no_dentry_locks ∅.
Proof. done. Qed.

(** The heap after a handle more and an unrelated edit: giving the handle back
    commutes with attaching a child. *)
Lemma unref_attach_ref h r b n nd u k x :
  handles_ok h r -> b <> nd ->
  heq (unref_h b (attach b n nd u k (<[nd := x]> (ref_h b h)))) (attach b n nd u k (<[nd := x]> h)).
Proof.
  intros Hh Hne e. unfold attach. destruct (decide (e = nd)) as [->|]; [|destruct (decide (e = b)) as [->|]]; look;
    [done| |done].
  destruct (h !! b) as [y|] eqn:Hy; [|done]. cbn. destruct (Hh b y Hy) as [Hr _].
  unfold dcore. cbn. by rewrite u32_add_sub by (unfold in_u32; lia).
Qed.

Lemma unref_heq d h h' : heq h h' -> heq (unref_h d h) (unref_h d h').
Proof.
  intros H. apply heq_alter; [|done]. intros z z' _ _ [= ? ? ? ? ? ? ? E ? ? ? ?]. unfold dcore. cbn. congruence.
Qed.

Lemma unref_not_last h r d x z :
  handles_ok h r -> h !! d = Some x -> linked r d x -> numhandles z = u32 (numhandles x + 1) ->
  u32 (numhandles z - 1) <> 0.
Proof.
  intros Hh Hx Hl ->. destruct (Hh d x Hx) as [Hr H1]. specialize (H1 Hl).
  rewrite u32_add_sub by (unfold in_u32; lia). lia.
Qed.

Lemma st_unlocked s : locks s = ∅ -> st s (heap s) ∅ = s.
Proof. intros <-. symmetry. apply st_eta. Qed.

Section create.
Context (strlen : path -> Z) (pathname_format : path -> Z * path) (set_appendonly : path -> fs Z).
Context (s : fs_state) (refs : Z -> Z) (ck : vol_checks) (p : path) (q : list path) (n : path).
Context (dir ro overwrite : bool).
Context (OK : fs_ok s refs) (RD : ready s) (CK : checks_pass ck).
Context (Hpath : pathname_format p = (0, slashed (q ++ [n]))) (Hvalid : valid_names strlen (q ++ [n])).

Let run := ltfs_fsops_create strlen pathname_format set_appendonly ck true p dir ro overwrite.

(** The first steps, up to the lookup of the directory. *)
Lemma create_start Q :
  match resolve (heap s) (root s) q with
  | None => Q (- LTFS_NO_DENTRY, None) (st s (heap s) ∅)
  | Some b => wp (
      pd <- deref b;;
      if is_immutable pd || (is_appendonly pd && overwrite) then
        create_out_dispose set_appendonly p b (- LTFS_WORM_ENABLED) None
      else
        let* (ret, found) := fs_directory_lookup strlen b n;;
        if ret <? 0 then create_out_dispose set_appendonly p b ret None
        else
          match found with
          | Some d =>
              releasewrite_mrsw (contents_lock b);;; fs_release_dentry d;;; fs_release_dentry b;;;
              create_out_free (- LTFS_DENTRY_EXISTS) None
          | None =>
              nd <- fs_allocate_dentry true None None (Some n) dir ro true;;
              match nd with
              | None => create_out_dispose set_appendonly p b (- LTFS_NO_MEMORY) None
              | Some d =>
                  ret <- create_link b d dir n;;
                  if negb (ret =? 0) then create_out_dispose set_appendonly p b ret None
                  else create_record (slashed q) b d dir;;; create_out_dispose set_appendonly p b 0 (Some d)
              end
          end) (st s (ref_h b (heap s)) (<[contents_lock b := Wr]> vol_read)) Q
  end -> wp run (st s (heap s) (locks s)) Q.
Proof.
  intros HQ. destruct (valid_snoc _ _ _ Hvalid) as (Hq & Hn & Hlen).
  destruct OK as [[T C O F] _], RD as [HL HM HR _ _], CK as (K1 & K2 & K3).
  pose proof (counts_handles _ _ _ C HR) as Hh. rewrite HL. unfold run, ltfs_fsops_create.
  replace (volume_readonly ck <? 0) with false by lia. replace (unit_ready ck <? 0) with false by lia.
  rewrite Hpath. cbn [Z.ltb Z.compare]. wp_step. apply wp_volume_lock; [lia|done|].
  cbn [Z.ltb Z.compare]. rewrite split_path_slashed by done.
  wp_step.
  apply wp_lookup_names; [done..|apply vol_read_no_dentry|done|].
  destruct (resolve (heap s) (root s) q) as [b|].
  - intros pa _. cbn [Z.ltb Z.compare]. wp_step. wp_step.
    replace (lookup_heap LOCK_DENTRY_CONTENTS_W b pa (heap s)) with (ref_h b (heap s)) by (by destruct pa).
    replace (lookup_locks LOCK_DENTRY_CONTENTS_W b pa vol_read) with (<[contents_lock b := Wr]> vol_read)
      by (by destruct pa). exact HQ.
  - change (- LTFS_NO_DENTRY <? 0) with true. cbv iota. unfold create_out_free. wp_go. lock_simpl. exact HQ.
Qed.

(** No such directory, or the name is taken: an error and no change. *)
Lemma create_no_dir : resolve (heap s) (root s) q = None -> run s = Done (- LTFS_NO_DENTRY, None) s.
Proof.
  intros Hr. apply wp_eq, create_start. rewrite Hr. by rewrite st_unlocked by apply RD.
Qed.

Lemma create_exists b y d :
  resolve (heap s) (root s) q = Some b -> heap s !! b = Some y -> child (heap s) b n = Some d ->
  is_immutable y = false -> is_appendonly y && overwrite = false ->
  run s = Done (- LTFS_DENTRY_EXISTS, None) s.
Proof.
  intros Hr Hy Hd Hi Ha. destruct (valid_snoc _ _ _ Hvalid) as (_ & Hn & Hlen).
  destruct OK as [[T C O F] _], RD as [HL HM HR _ _].
  pose proof (counts_handles _ _ _ C HR) as Hh.
  apply wp_eq, create_start. rewrite Hr. wp_go. cbn. rewrite Hi, Ha. cbn [orb]. wp_go.
  destruct (proj1 (child_iff _ _ T _ _ _) Hd) as (x & Hx & Hpx & _).
  assert (d <> b) as Hdb. { intros ->. apply (no_cycle _ _ T b), tc_once. by eapply child_parent. }
  eapply wp_directory_lookup; [done|by rewrite lookup_alter_eq, Hy| |].
  { intros c. rewrite child_alter by done. intros Hc. assert (c = d) as -> by congruence.
    split; [|map_side]. apply lookup_alter_is_Some. eauto. }
  rewrite short_not_too_long, child_alter, Hd by done. cbn [Z.ltb Z.compare]. wp_go.
  lock_simpl. 
  eapply (wp_release s _ _ d (ref_d x)); [map_side|map_side| |].
  { left. eapply (unref_not_last _ _ d x); [done..|by left; rewrite Hpx|done]. }
  wp_step. eapply (wp_release s _ _ b (ref_d y)); [map_side|map_side| |].
  { left. eapply (unref_not_last _ _ b y); [done..| |done]. apply linkedb_spec. by eapply resolve_linked. }
  unfold create_out_free. wp_go. lock_simpl.
  rewrite unref_ref_at, (unref_ref_h _ (root s)) by
    (done || (intros z; rewrite lookup_alter_ne by done; intros Hz; destruct (Hh d z Hz); unfold in_u32; lia)).
  by rewrite st_unlocked.
Qed.

(** The name is free: a fresh dentry is attached to the directory. *)
Lemma create_new b y :
  resolve (heap s) (root s) q = Some b -> heap s !! b = Some y -> isdir y = true ->
  child (heap s) b n = None -> is_immutable y = false -> is_appendonly y = false ->
  exists x s', run s = Done (0, Some (next_address s)) s' /\
    fresh_core n dir (uid x) x /\
    heq (heap s') (attach b n (next_address s) (uid x) (dir_n x) (<[next_address s := x]> (heap s))) /\
    root s' = root s /\ locks s' = ∅ /\ mem s' = [] /\ next_address s' = next_address s + 1 /\
    uid_number s' = uid_number s + 1 /\
    file_count s' = file_count s + (if dir then 0 else 1).
Proof.
  intros Hr Hy Hdir Hc Hi Ha. destruct (valid_snoc _ _ _ Hvalid) as (_ & Hn & Hlen).
  pose proof RD as [HL HM HR HF HU]. pose proof OK as [[T C O F] Hfiles].
  pose proof (counts_handles _ _ _ C HR) as Hh. set (nd := next_address s).
  assert (heap s !! nd = None) as Hnd.
  { destruct (heap s !! nd) as [z|] eqn:E; [|done]. specialize (F nd). rewrite E in F.
    specialize (F ltac:(eauto)). lia. }
  assert (b <> nd) as Hb by congruence.
  enough (W : wp run (st s (heap s) (locks s)) (fun a s' => exists x, a = (0, Some nd) /\
    fresh_core n dir (uid x) x /\
    heq (heap s') (attach b n nd (uid x) (dir_n x) (<[nd := x]> (heap s))) /\
    root s' = root s /\ locks s' = ∅ /\ mem s' = [] /\ next_address s' = nd + 1 /\ uid_number s' = uid_number s + 1 /\
    file_count s' = file_count s + (if dir then 0 else 1))).
  { apply wp_at in W as (a & s' & E & x & -> & H). by exists x, s'. }
  apply create_start. rewrite Hr. wp_go. cbn. rewrite Hi, Ha. cbn [orb andb]. wp_go.
  eapply wp_directory_lookup; [done|by rewrite lookup_alter_eq, Hy| |].
  { intros c. rewrite child_alter by done. congruence. }
  rewrite short_not_too_long, child_alter, Hc by done. cbn [Z.ltb Z.compare]. wp_step.
  apply wp_allocate; [done|map_side|map_side|done|]. intros s1 x R1 M1 F1 N1 U1 Hx. fold nd in N1 |- *.
  pose proof Hx as [= Ep Epn Edn Edi Edel Eu Ec En El Eo _ _]. wp_step.
  assert (mem s1 = []) as HM1 by congruence.
  eapply (wp_create_link s1 _ _ b (ref_d y) nd x); [done|map_side|map_side|done..| | | |].
  { exact (link_in_u32 _ _ _ _ _ C HR Hy). }
  { map_side. } { map_side. }
  intros s2 h2 (R2 & M2 & F2 & N2 & U2) H2. cbn [Z.eqb negb]. wp_step.
  set (h1 := <[nd := x]> (ref_h b (heap s))) in *.
  destruct (heq_some _ h2 b (add_child n nd (uid x) (if dir then 1 else 0) (ref_d y)) ltac:(by symmetry)) as (y2 & Hy2 & _).
  { unfold attach, h1. map_side. }
  destruct (heq_some _ h2 nd (make_link b n x) ltac:(by symmetry)) as (x2 & Hx2 & _).
  { unfold attach, h1. map_side. }
  assert (Hdn : (if dir then 1 else 0) = dir_n x) by (unfold dir_n; by rewrite Edi).
  assert (HOK : heap_ok (attach b n nd (uid x) (dir_n x) (<[nd := x]> (heap s))) (root s)
    (fun e => if decide (e = nd) then 1 else refs e) (nd + 1)).
  { eapply heap_create; [by split|done..|]. unfold fresh_core. rewrite Edi, Eu. exact Hx. }
  assert (T2 : tree_ok h2 (root s2)).
  { assert (teq (attach b n nd (uid x) (dir_n x) h1) (attach b n nd (uid x) (dir_n x) (<[nd := x]> (heap s)))) as E;
      [|rewrite H2, Hdn, E, R2, R1; apply HOK]. unfold attach, h1.
    intros e. destruct (decide (e = nd)) as [->|]; [|destruct (decide (e = b)) as [->|]]; look; [done| |done].
    by rewrite Hy. }
  eapply (wp_create_record s2 h2 _ (slashed q) b y2 nd x2); [congruence|done..|map_side|].
  intros s3 h3 R3 M3 N3 U3 F3 H3. unfold create_out_dispose. wp_go. lock_simpl.
  assert (H3' : heq h3 (attach b n nd (uid x) (dir_n x) h1)) by (by rewrite H3, H2, Hdn).
  destruct (heq_some _ h3 b (add_child n nd (uid x) (dir_n x) (ref_d y)) ltac:(by symmetry))
    as (y3 & Hy3 & [= _ _ _ _ _ _ _ En3 _ _ _ Ea3]).
  { unfold attach, h1. map_side. }
  wp_go. rewrite <- Ea3. cbn [is_appendonly add_child ref_d]. cbn. rewrite Ha. cbn. wp_go.
  eapply (wp_release s3 _ _ b y3); [done|map_side| |].
  { left. eapply (unref_not_last _ _ b y); [done..| |by rewrite <- En3]. apply linkedb_spec. by eapply resolve_linked. }
  unfold create_out_free. wp_go. lock_simpl. exists x. split_and!; try done; cbn; try congruence.
  - transitivity (unref_h b (attach b n nd (uid x) (dir_n x) h1)).
    + by apply unref_heq.
    + by eapply unref_attach_ref.
  - rewrite F3, F2, F1. destruct dir; [lia|]. rewrite u64_small; [lia|]. rewrite Hfiles in *.
    pose proof (files_nonneg (heap s) (root s)). lia.
Qed.
End create.
