(* ===== verification/FsUnlink.v ===== *)
(** * Removing files and directories

    What [ltfs_fsops_unlink] does to the tree: exactly the paths through the
    removed name disappear; the dentry itself is freed when nobody holds it. *)

From stdpp Require Import relations.
From S2P Require Import Prelude LtfsError Extents TapeOps TapeLayer Journal Dentry DentryRun DentryTree DentryLookup DentryProps DentryEdit DentryPaths DentryCounts FsOps FsOpsRun FsOpsInv FsCreate.

Definition mark_deleted (x : dentry) : dentry := x <| deleted := true |>.

(** [d], with the name [n] in [b], is taken out of the tree. *)
Definition cut (b : Z) (n : path) (d k : Z) (h : gmap Z dentry) : gmap Z dentry :=
  alter mark_deleted d (detach b n d k h).

(** ... and freed, when no handle is left ([refs] are the handles of its users). *)
Definition removed (b : Z) (n : path) (d : Z) (x : dentry) (refs : Z -> Z) (h : gmap Z dentry) : gmap Z dentry :=
  let h1 := cut b n d (dir_n x) h in
  if (refs d =? 0) && negb (out_of_sync x) then delete d h1 else h1.

Lemma wp_unlink_entry s h L b y d x n Q :
  mem s = [] -> h !! b = Some y -> h !! d = Some x -> b <> d -> platform_safe_name x = Some n ->
  (exists e, hash_find n (child_list y) = Some e /\ nl_name e = n) -> in_u32 (link_count y) ->
  L !! meta_lock d = None ->
  (forall s' h', frame s s' -> heq h' (cut b n d (dir_n x) h) -> Q (Some (uid x, ino x)) (st s' h' L)) ->
  wp (unlink_entry b d) (st s h L) Q.
Proof.
  intros Hm Hy Hx Hne Hn (e & He & Hen) Hu Hd HQ. unfold unlink_entry. wp_go. rewrite Hn. wp_go.
  apply wp_find_key; [done|]. match goal with |- context [hash_find n (child_list ?z)] => change (child_list z) with (child_list y) end.
  rewrite He. wp_go.
  unfold dir_n in HQ. destruct (isdir x) eqn:Ei; cbn [fwhen]; wp_go; lock_simpl; apply HQ; [done| |done|].
  all: intros a; unfold cut, detach; destruct (decide (a = d)) as [->|]; [|destruct (decide (a = b)) as [->|]]; look;
    [rewrite Hx|rewrite Hy|done]; unfold dcore; cbn; rewrite ?Hen; try done.
  by rewrite Z.sub_0_r, u32_small.
Qed.

Lemma wp_unlink_record s h L p b y d x Q :
  mem s = [] -> tree_ok h (root s) -> h !! b = Some y -> h !! d = Some x -> L !! dirty_lock = None ->
  (forall s' h', root s' = root s -> mem s' = mem s -> next_address s' = next_address s -> uid_number s' = uid_number s ->
     file_count s' = (if isdir x then file_count s else u64 (file_count s - 1)) ->
     heq h' h -> Q tt (st s' h' L)) ->
  wp (unlink_record p b d) (st s h L) Q.
Proof.
  intros Hm T Hy Hx Hl HQ. unfold unlink_record. wp_go.
  eapply wp_journal_remove; [done..|]. intro_frame. wp_step.
  assert (Hstep : forall s1, root s1 = root s -> mem s1 = mem s -> next_address s1 = next_address s -> uid_number s1 = uid_number s ->
     file_count s1 = (if isdir x then file_count s else u64 (file_count s - 1)) ->
     wp (set_dentry_dirty b;;; ltfs_set_index_dirty false false;;; ltfs_mutex_unlock dirty_lock;;;
         _ <- ltfs_update_valid_block_count_unlocked (- i64 (used_blocks x));; fret tt)
        (st s1 h (<[dirty_lock := Wr]> L)) Q).
  { intros s1 R1 M1 N1 U1 F1. assert (mem s1 = []) as Hm1 by congruence. wp_step.
    eapply wp_set_dentry_dirty; [done|by rewrite R1|exact Hy|]. intros s2 h2 Hf2 H2. intro_frame. wp_step.
    apply wp_set_index_dirty; [done|]. intros s3 Hf3. wp_go. lock_simpl.
    apply wp_update_valid_blocks; [done|]. intros s4 Hf4. wp_go. unfold frame in *.
    apply HQ; [intuition congruence..|done]. }
  destruct H as (R1 & M1 & F1 & N1 & U1).
  destruct (isdir x); cbn [fwhen negb]; wp_step; cbv beta; apply Hstep; cbn; congruence.
Qed.

(** ** The edited heap *)

Lemma tree_mark_deleted h r d x :
  tree_ok h r -> h !! d = Some x -> parent x = None -> d <> r -> tree_ok (alter mark_deleted d h) r.
Proof.
  intros T Hx Hp Hr.
  assert (Hold : forall e z, alter mark_deleted d h !! e = Some z -> exists z0, h !! e = Some z0 /\
    parent z = parent z0 /\ platform_safe_name z = platform_safe_name z0 /\ dname z = dname z0 /\
    isdir z = isdir z0 /\ uid z = uid z0 /\ child_list z = child_list z0 /\ (e <> d -> z = z0)).
  { intros e z Hz. destruct (decide (e = d)) as [->|].
    - rewrite lookup_alter_eq, Hx in Hz. injection Hz as <-. by exists x.
    - rewrite lookup_alter_ne in Hz by done. by exists z. }
  assert (Hnew : forall e z, h !! e = Some z -> exists z', alter mark_deleted d h !! e = Some z' /\
    parent z' = parent z /\ platform_safe_name z' = platform_safe_name z /\ isdir z' = isdir z /\
    uid z' = uid z /\ child_list z' = child_list z).
  { intros e z Hz. destruct (decide (e = d)) as [->|].
    - rewrite lookup_alter_eq, Hz. by eexists.
    - rewrite lookup_alter_ne by done. by exists z. }
  split.
  - destruct (t_root _ _ T) as (z & Hz & ?). exists z. by rewrite lookup_alter_ne.
  - intros e z p Hz Hpz. destruct (Hold _ _ Hz) as (z0 & Hz0 & Ep & _ & _ & _ & _ & _ & Esame).
    assert (e <> d) as Hed by congruence. rewrite (Esame Hed) in *.
    destruct (t_up _ _ T _ _ _ Hz0 Hpz) as (y & m & Hy & Hyd & H1 & H2 & H3 & H4 & H5).
    destruct (Hnew _ _ Hy) as (y' & Hy' & _ & _ & E1 & _ & E2). exists y', m. by rewrite E1, E2.
  - intros p y e Hy He. destruct (Hold _ _ Hy) as (y0 & Hy0 & _ & _ & _ & _ & _ & Ec & _). rewrite Ec in He.
    destruct (t_down _ _ T _ _ _ Hy0 He) as (z & Hz & H1 & H2 & H3).
    destruct (Hnew _ _ Hz) as (z' & Hz' & E1 & E2 & _ & E3 & _). exists z'. by rewrite E1, E2, E3.
  - intros p y Hy. destruct (Hold _ _ Hy) as (y0 & Hy0 & _ & _ & _ & _ & _ & Ec & _). rewrite Ec.
    by eapply t_names.
  - intros e. induction (t_acyclic _ _ T e) as [e _ IH]. constructor. intros a (z & Hz & Hpz).
    destruct (Hold _ _ Hz) as (z0 & Hz0 & Ep & _). apply IH. exists z0. split; [done|congruence].
Qed.

(** A file has no children. *)
Lemma file_no_children h r d x : tree_ok h r -> h !! d = Some x -> isdir x = false -> child_list x = [].
Proof.
  intros T Hx Hd. destruct (child_list x) as [|e l] eqn:E; [done|].
  destruct (t_down _ _ T d x e Hx) as (z & Hz & Hp & _); [rewrite E; by left|].
  destruct (t_up _ _ T _ _ _ Hz Hp) as (y & m & Hy & Hyd & _). congruence.
Qed.

Section remove.
Context (h : gmap Z dentry) (r : Z) (refs : Z -> Z) (next : Z) (OK : heap_ok h r refs next) (R : room h).
Context (d b : Z) (x : dentry) (n : path).
Context (Hx : h !! d = Some x) (Hp : parent x = Some b) (Hn : platform_safe_name x = Some n).
Context (Hleaf : child_list x = []).

Lemma remove_ne : d <> b /\ d <> r.
Proof.
  destruct OK as [T _ _ _]. split; [by eapply detach_ne|]. intros ->.
  destruct (root_no_parent _ _ T b). by exists x.
Qed.

Lemma cut_lookup_d k : cut b n d k h !! d = Some (mark_deleted (cut_link x)).
Proof. destruct remove_ne. unfold cut, detach. look. by rewrite Hx. Qed.

Lemma cut_tree : tree_ok (cut b n d (dir_n x) h) r.
Proof.
  pose proof remove_ne as [Hdb Hdr]. destruct OK as [T _ _ _].
  apply (tree_mark_deleted _ r d (cut_link x)); [by eapply tree_detach| |done..].
  unfold detach. look. by rewrite Hx.
Qed.

Lemma cut_counts : counts_ok (cut b n d (dir_n x) h) r refs.
Proof. destruct OK as [T C _ _]. apply counts_alter; [done|]. by apply counts_detach. Qed.

Lemma cut_orphans e z :
  cut b n d (dir_n x) h !! e = Some z -> e <> d -> linkedb r e z = false ->
  child_list z = [] /\ deleted z = true /\ (0 < refs e \/ out_of_sync z = true).
Proof.
  pose proof remove_ne as [Hdb Hdr]. destruct OK as [T C O F]. intros Hz He Hl.
  unfold cut, detach in Hz. rewrite lookup_alter_ne, lookup_edit, decide_False in Hz by done.
  destruct (decide (e = b)) as [->|]; [|by apply O]. exfalso.
  destruct (t_up _ _ T _ _ _ Hx Hp) as (y & m & Hy & Hyd & _ & _ & _ & _ & He').
  rewrite Hy in Hz. injection Hz as <-. destruct (O b y Hy) as [Hc _]; [done|].
  rewrite Hc in He'. by apply not_elem_of_nil in He'.
Qed.

Lemma cut_live e : is_Some (cut b n d (dir_n x) h !! e) <-> is_Some (h !! e).
Proof. unfold cut, detach. by rewrite !lookup_alter_is_Some. Qed.

Lemma removed_ok : heap_ok (removed b n d x refs h) r refs next.
Proof.
  pose proof remove_ne as [Hdb Hdr]. pose proof (cut_lookup_d (dir_n x)) as Hd.
  pose proof OK as [T C O F]. unfold removed. destruct (_ && _) eqn:E.
  - split.
    + eapply tree_delete; [apply cut_tree|exact Hd|done..].
    + eapply counts_delete; [apply cut_tree|apply cut_counts|exact Hd|done].
    + intros e z Hz Hl. apply lookup_delete_Some in Hz as [He Hz]. by apply cut_orphans.
    + intros e He. apply lookup_delete_is_Some in He as [_ He]. apply F. by apply cut_live.
  - split; [apply cut_tree|apply cut_counts| |].
    + intros e z Hz Hl. destruct (decide (e = d)) as [->|]; [|by apply cut_orphans].
      rewrite Hd in Hz. injection Hz as <-. split_and!; [done..|]. destruct (C d x Hx) as (_ & C2 & _).
      apply andb_false_iff in E as [E|E]; [left; lia|right]. by apply negb_false_iff in E.
    + intros e He. apply F. by apply cut_live.
Qed.

Lemma removed_files : files (removed b n d x refs h) r = files h r - (1 - dir_n x).
Proof.
  pose proof remove_ne as [Hdb Hdr]. pose proof (cut_lookup_d (dir_n x)) as Hd. destruct OK as [T _ _ _].
  assert (files (cut b n d (dir_n x) h) r = files h r - (1 - dir_n x)) as E.
  { destruct (t_up _ _ T _ _ _ Hx Hp) as (y & m & Hy & _).
    unfold cut. rewrite (files_alter _ _ d (cut_link x)) by (unfold detach; look; by rewrite Hx).
    rewrite (files_detach _ _ _ _ _ _ x y) by done.
    rewrite (is_file_eq r d (cut_link x) (mark_deleted (cut_link x))) by done. lia. }
  unfold removed. destruct (_ && _); [|done]. rewrite (files_delete _ _ _ _ Hd) in E.
  rewrite is_file_unlinked in E by done. lia.
Qed.

(** Exactly the paths through the name are gone. *)
Lemma removed_resolve qp q :
  resolve h r qp = Some b ->
  resolve (removed b n d x refs h) r q = if decide (through qp n q) then None else resolve h r q.
Proof.
  intros Hq. destruct OK as [T _ _ _].
  rewrite <- (resolve_detach h r T d b (dir_n x) n x Hx Hp Hn qp q Hq). apply resolve_ext. intros a m.
  unfold removed. transitivity (child (cut b n d (dir_n x) h) a m).
  - destruct (_ && _); [|done]. eapply child_delete_leaf; [apply cut_lookup_d|done].
  - unfold cut. by apply child_alter.
Qed.
End remove.

(** The removed dentry and its directory, when the handles of the operation are
    given back. *)
Lemma removed_release h r h2 b n d x refs :
  handles_ok h r -> h !! d = Some x -> d <> b ->
  heq h2 (cut b n d (dir_n x) (ref_h d (ref_h b h))) ->
  heq (if (refs d =? 0) && negb (out_of_sync x) then delete d (unref_h b h2) else unref_h d (unref_h b h2))
    (removed b n d x refs h).
Proof.
  intros Hh Hx Hdb H2. unfold removed.
  assert (Hb : heq (unref_h b h2) (cut b n d (dir_n x) (ref_h d h))).
  { transitivity (unref_h b (cut b n d (dir_n x) (ref_h d (ref_h b h)))); [by apply unref_heq|].
    unfold cut, detach. intros e. destruct (decide (e = d)) as [->|]; [|destruct (decide (e = b)) as [->|]]; look; [done| |done].
    destruct (h !! b) as [y|] eqn:Hy; [|done]. cbn. unfold dcore. cbn. destruct (Hh b y Hy).
    rewrite u32_add_sub by (unfold in_u32; lia). done. }
  destruct (_ && _).
  - etransitivity; [by apply heq_delete|]. unfold cut, detach. intros e. destruct (decide (e = d)) as [->|]; [|destruct (decide (e = b)) as [->|]]; look; done.
  - transitivity (unref_h d (cut b n d (dir_n x) (ref_h d h))); [by apply unref_heq|].
    unfold cut, detach. intros e. destruct (decide (e = d)) as [->|]; [|destruct (decide (e = b)) as [->|]]; look; [|done..].
    rewrite Hx. cbn. unfold dcore. cbn. destruct (Hh d x Hx). by rewrite u32_add_sub by (unfold in_u32; lia).
Qed.

(** Giving back a handle of a dentry that is out of the tree. *)
Lemma wp_release_removed s h L d z k Q :
  h !! d = Some z -> L !! meta_lock d = Some Wr -> L !! contents_lock d = None ->
  parent z = None -> child_list z = [] -> numhandles z = 1 + k -> 0 <= k < 2 ^ 32 ->
  Q tt (st s (if (k =? 0) && negb (out_of_sync z) then delete d h else unref_h d h) (delete (meta_lock d) L)) ->
  wp (fs_release_dentry_unlocked d) (st s h L) Q.
Proof.
  intros Hz HL HC Hp Hc Hn Hk HQ. destruct ((k =? 0) && negb (out_of_sync z)) eqn:E.
  - apply andb_true_iff in E as [E1 E2]. apply negb_true_iff in E2.
    eapply wp_release_last; try done. lia.
  - eapply wp_release_unlocked; try done. apply andb_false_iff in E as [E|E].
    + left. rewrite Hn. rewrite u32_small; lia.
    + right. by apply negb_false_iff in E.
Qed.

(** ** The run *)

(** What is not removed: anything write-once, a directory that has entries. *)
Definition unlink_refusal (pd x : dentry) : Z :=
  if is_immutable pd || is_appendonly pd || is_immutable x || is_appendonly x then - LTFS_WORM_ENABLED
  else if isdir x && negb (zlength (child_list x) =? 0) then - LTFS_DIRNOTEMPTY else 0.

Lemma wp_unlink_check s h L b y d x Q :
  h !! b = Some y -> h !! d = Some x -> L !! contents_lock d = None ->
  Q (unlink_refusal y x) (st s h L) -> wp (unlink_check b d) (st s h L) Q.
Proof.
  intros Hy Hx HL HQ. unfold unlink_check. wp_go. unfold unlink_refusal in HQ.
  destruct (_ || _); [by wp_go|]. destruct (isdir x); cbn [andb negb] in HQ; [|by wp_go].
  wp_go. lock_simpl. by destruct (_ =? 0).
Qed.

Lemma unlink_allowed y x : unlink_refusal y x = 0 -> isdir x = true -> child_list x = [].
Proof.
  unfold unlink_refusal. destruct (_ || _); [done|]. intros H Hd. rewrite Hd in H. cbn [andb] in H.
  destruct (child_list x) as [|e l]; [done|]. rewrite zlength_cons in H. pose proof (zlength_nonneg l).
  by replace (zlength l + 1 =? 0) with false in H by lia.
Qed.

Section unlink.
Context (strlen : path -> Z) (pathname_format : path -> Z * path).
Context (s : fs_state) (refs : Z -> Z) (ck : vol_checks) (p : path) (q : list path) (n : path).
Context (OK : fs_ok s refs) (RD : ready s) (CK : checks_pass ck).
Context (Hpath : pathname_format p = (0, slashed (q ++ [n]))) (Hvalid : valid_names strlen (q ++ [n])).

Let run := ltfs_fsops_unlink strlen pathname_format true ck p.

Lemma unlink_start Q :
  match resolve (heap s) (root s) (q ++ [n]) with
  | None => Q (- LTFS_NO_DENTRY, (0, 0)) (st s (heap s) ∅)
  | Some d => forall b x, heap s !! d = Some x -> parent x = Some b -> b <> d ->
      wp (ret <- unlink_check b d;;
          if ret <? 0 then unlink_out b d ret (0, 0)
          else
            id <- unlink_entry b d;;
            match id with
            | None => unlink_out b d 0 (0, 0)
            | Some id => unlink_record (slashed (q ++ [n])) b d;;; unlink_out b d 0 id
            end)
         (st s (ref_h d (ref_h b (heap s))) (<[meta_lock b := Wr]> (<[contents_lock b := Wr]> vol_read))) Q
  end -> wp run (st s (heap s) (locks s)) Q.
Proof.
  intros HQ. destruct (valid_snoc _ _ _ Hvalid) as (Hq & [Hne _] & Hlen).
  destruct OK as [[T C O F] _], RD as [HL HM HR _ _], CK as (K1 & K2 & K3).
  pose proof (counts_handles _ _ _ C HR) as Hh. rewrite HL. unfold run, ltfs_fsops_unlink. cbn [negb].
  unfold readonly_refuses. replace (volume_readonly ck <? 0) with false by lia.
  replace (unit_ready ck <? 0) with false by lia. cbn [andb]. rewrite Hpath.
  change (0 =? - LTFS_INVALID_PATH) with false. cbn [Z.ltb Z.compare].
  replace (zlength (slashed (q ++ [n])) =? 1) with false.
  2: { rewrite slashed_app, zlength_app. cbn [slashed]. rewrite app_nil_r, zlength_cons.
       pose proof (zlength_nonneg (slashed q)). destruct n as [|c l]; [done|]. rewrite zlength_cons.
       pose proof (zlength_nonneg l). symmetry. apply Z.eqb_neq. lia. }
  wp_step. apply wp_volume_lock; [lia|done|]. cbn [Z.ltb Z.compare]. wp_step.
  apply wp_lookup_names; [done..|apply vol_read_no_dentry|done|].
  destruct (resolve (heap s) (root s) (q ++ [n])) as [d|] eqn:Hd.
  - intros pa Hpa. cbn [Z.ltb Z.compare].
    rewrite resolve_snoc in Hd. apply bind_Some in Hd as (b & Hb & Hd).
    pose proof (child_parent _ _ T _ _ _ Hd) as Hpar. destruct Hpar as (x & Hx & Hp).
    assert (pa = Some b) as -> by (apply Hpa; by exists x).
    assert (b <> d) as Hbd by (intros ->; by eapply detach_ne).
    wp_step. wp_step.
    change (lookup_heap LOCK_PARENT_CONTENTS_W d (Some b) (heap s)) with (ref_h d (ref_h b (heap s))).
    change (lookup_locks LOCK_PARENT_CONTENTS_W d (Some b) vol_read) with (<[contents_lock b := Wr]> vol_read).
    wp_step. wp_step. cbn. rewrite Hp. do 4 wp_step. by apply (HQ b x).
  - change (- LTFS_NO_DENTRY <? 0) with true. cbv iota. wp_go. lock_simpl. exact HQ.
Qed.

Lemma unlink_no_dentry : resolve (heap s) (root s) (q ++ [n]) = None -> run s = Done (- LTFS_NO_DENTRY, (0, 0)) s.
Proof.
  intros Hr. apply wp_eq, unlink_start. rewrite Hr. by rewrite st_unlocked by apply RD.
Qed.

Context (d b : Z) (x y : dentry).
Context (Hd : resolve (heap s) (root s) (q ++ [n]) = Some d) (Hx : heap s !! d = Some x).
Context (Hp : parent x = Some b) (Hy : heap s !! b = Some y).

Let held := <[meta_lock b := Wr]> (<[contents_lock b := Wr]> vol_read).

(** Refused: the handles and the locks go back. *)
Lemma wp_unlink_refused ret id Q :
  ret < 0 -> Q (ret, id) (st s (heap s) ∅) ->
  wp (unlink_out b d ret id) (st s (ref_h d (ref_h b (heap s))) held) Q.
Proof.
  intros Hret HQ. destruct OK as [[T C O F] _], RD as [HL HM HR _ _].
  pose proof (counts_handles _ _ _ C HR) as Hh.
  assert (b <> d) as Hbd by (apply not_eq_sym; by eapply detach_ne).
  unfold unlink_out, held. wp_go. lock_simpl.
  eapply (wp_release_unlocked s _ _ b (ref_d y)); [map_side|map_side| |].
  { left. eapply (unref_not_last _ _ b y); [done..| |done]. apply linkedb_spec.
    rewrite resolve_snoc in Hd. apply bind_Some in Hd as (b' & Hb & (z & Hz & Hpz)%(child_parent _ _ T)).
    assert (b' = b) as -> by congruence. by eapply resolve_linked. }
  replace (ret =? 0) with false by lia. lock_simpl. wp_go. cbn [fwhen]. wp_go. lock_simpl.
  eapply (wp_release s _ _ d (ref_d x)); [map_side|map_side| |].
  { left. eapply (unref_not_last _ _ d x); [done..|by left; rewrite Hp|done]. }
  wp_go. rewrite (unref_ref_below _ (root s)), (unref_ref_h _ (root s)) by done. exact HQ.
Qed.

Lemma unlink_refused :
  unlink_refusal y x < 0 -> run s = Done (unlink_refusal y x, (0, 0)) s.
Proof.
  intros Hr. apply wp_eq, unlink_start. rewrite Hd. intros b' x' Hx' Hp' Hne.
  assert (x' = x) as -> by congruence. assert (b' = b) as -> by congruence. wp_step.
  eapply (wp_unlink_check s _ _ b (ref_d y) d (ref_d x)); [map_side|map_side|map_side|].
  change (unlink_refusal (ref_d y) (ref_d x)) with (unlink_refusal y x).
  replace (unlink_refusal y x <? 0) with true by lia.
  apply wp_unlink_refused; [done|]. by rewrite st_unlocked by apply RD.
Qed.

Lemma unlink_done :
  unlink_refusal y x = 0 ->
  exists s', run s = Done (0, (uid x, ino x)) s' /\ heq (heap s') (removed b n d x refs (heap s)) /\
    root s' = root s /\ locks s' = ∅ /\ mem s' = [] /\ next_address s' = next_address s /\ uid_number s' = uid_number s /\
    file_count s' = file_count s - (1 - dir_n x).
Proof.
  intros Hr. pose proof RD as [HL HM HR HF HU]. pose proof OK as [[T C O F] Hfiles].
  pose proof (counts_handles _ _ _ C HR) as Hh.
  assert (d <> b) as Hdb by by eapply detach_ne.
  assert (child_list x = []) as Hleaf.
  { destruct (isdir x) eqn:E; [by eapply unlink_allowed|by eapply file_no_children]. }
  enough (W : wp run (st s (heap s) (locks s)) (fun a s' => a = (0, (uid x, ino x)) /\
    heq (heap s') (removed b n d x refs (heap s)) /\
    root s' = root s /\ locks s' = ∅ /\ mem s' = [] /\ next_address s' = next_address s /\ uid_number s' = uid_number s /\
    file_count s' = file_count s - (1 - dir_n x))).
  { apply wp_at in W as (a & s' & E & -> & H). by exists s'. }
  apply unlink_start. rewrite Hd. intros b' x' Hx' Hp' Hne.
  assert (x' = x) as -> by congruence. assert (b' = b) as -> by congruence. wp_step.
  eapply (wp_unlink_check s _ _ b (ref_d y) d (ref_d x)); [map_side|map_side|map_side|].
  change (unlink_refusal (ref_d y) (ref_d x)) with (unlink_refusal y x). rewrite Hr. cbn [Z.ltb Z.compare].
  wp_step.
  rewrite resolve_snoc in Hd. apply bind_Some in Hd as (b' & Hb & Hc).
  assert (b' = b) as ->. { apply (child_parent _ _ T) in Hc as (z & Hz & ?). congruence. }
  apply (child_iff _ _ T) in Hc as Hn. destruct Hn as (z & Hz & _ & Hn). 
  assert (z = x) as -> by congruence.
  eapply (wp_unlink_entry s _ _ b (ref_d y) d (ref_d x) n); [done|map_side|map_side|done|done| | |map_side|].
  { destruct (t_up _ _ T _ _ _ Hx Hp) as (y' & m & Hy' & _ & Hm & _ & _ & _ & He).
    assert (m = n) as -> by congruence. assert (y' = y) as -> by congruence.
    exists (mk_name_list n d (uid x)). split; [|done]. apply hash_find_in; [exact (t_names _ _ T _ _ Hy)|done..]. }
  { exact (link_in_u32 _ _ _ _ _ C HR Hy). }
  change (dir_n (ref_d x)) with (dir_n x). change (uid (ref_d x), ino (ref_d x)) with (uid x, ino x).
  intros s1 h1 Hf1 H1. pose proof Hf1 as (R1 & M1 & F1 & N1 & U1). assert (mem s1 = []) as HM1 by congruence.
  set (h0 := ref_h d (ref_h b (heap s))) in *.
  assert (E1 : teq h1 (cut b n d (dir_n x) (heap s))).
  { rewrite H1. unfold h0, cut, detach. intros e.
    destruct (decide (e = d)) as [->|]; [|destruct (decide (e = b)) as [->|]]; look; [by rewrite Hx|by rewrite Hy|done]. }
  assert (Hd0 : cut b n d (dir_n x) h0 !! d = Some (mark_deleted (cut_link (ref_d x)))).
  { unfold cut, detach, h0. look. by rewrite Hx. }
  assert (Hb0 : cut b n d (dir_n x) h0 !! b = Some (cut_child n (dir_n x) (ref_d y))).
  { unfold cut, detach, h0. look. by rewrite Hy. }
  destruct (heq_some _ h1 d _ ltac:(by symmetry) Hd0) as (x1 & Hx1 & [= _ _ _ Ei1 _ _ _ _ _ _ _ _]).
  destruct (heq_some _ h1 b _ ltac:(by symmetry) Hb0) as (y1 & Hy1 & _).
  wp_step. eapply (wp_unlink_record s1 h1 _ _ b y1 d x1); [done| |done..|map_side|].
  { rewrite R1, E1. by eapply cut_tree. }
  intros s2 h2 R2 M2 N2 U2 F2 H2. assert (H2' : heq h2 (cut b n d (dir_n x) h0)) by (by rewrite H2).
  destruct (heq_some _ h2 d _ ltac:(by symmetry) Hd0) as (x2 & Hx2 & Ex2).
  destruct (heq_some _ h2 b _ ltac:(by symmetry) Hb0) as (y2 & Hy2 & [= _ _ _ _ _ _ _ En2 _ _ _ _]).
  injection Ex2 as Ep2 _ _ _ _ _ Ec2 Enx2 _ Eo2 _ _. cbn in Enx2.
  unfold unlink_out. wp_go. lock_simpl.
  eapply (wp_release_unlocked s2 _ _ b y2); [done|map_side| |].
  { left. eapply (unref_not_last _ _ b y); [done..| |by rewrite <- En2]. apply linkedb_spec. by eapply resolve_linked. }
  lock_simpl. wp_go. cbn [Z.eqb fwhen]. eapply (wp_placement s2 _ _ d x2); [map_side|].
  intros s3 (R3 & M3 & F3 & N3 & U3). unfold fs_release_dentry. wp_go. lock_simpl.
  destruct (C d x Hx) as (Cn & Cr & _), (HR d x Hx) as [Rn _]. unfold linkedb in Cn. rewrite Hp in Cn. cbn in Cn.
  eapply (wp_release_removed s3 _ _ d x2 (refs d)); [map_side|map_side|map_side|done|congruence| |lia|].
  { rewrite <- Enx2, u32_add_sub; unfold in_u32; lia. }
  wp_go. lock_simpl. rewrite <- Eo2. cbn [out_of_sync mark_deleted cut_link ref_d].
  split_and!; try done; cbn; [|congruence..|].
  - by eapply removed_release.
  - rewrite F3, F2, <- Ei1, F1. unfold dir_n. cbn. destruct (isdir x) eqn:Ei; [lia|]. 
    rewrite u64_small; [lia|]. rewrite Hfiles in *. rewrite (files_delete _ _ d x) in * by done.
    rewrite (is_file_linked _ _ _ b) in * by done. unfold dir_n in *. rewrite Ei in *.
    pose proof (files_nonneg (delete d (heap s)) (root s)). lia.
Qed.
End unlink.
