(* ===== verification/FsHold.v ===== *)
(** * Handles and locks of a running rename

    [hold l h] is the heap [h] while an operation has a handle of each dentry of
    [l]; the edits of the tree commute with it.  [lock2] is the set of locks with
    both directories locked. *)

From stdpp Require Import relations.
From S2P Require Import Prelude LtfsError Extents TapeOps TapeLayer Journal Dentry DentryRun DentryTree DentryLookup DentryProps DentryEdit DentryPaths DentryCounts FsOps FsOpsRun FsOpsInv FsCreate FsUnlink.

(** ** Handles of a running operation *)

(** The heap while an operation has a handle of each dentry of [l]. *)
Fixpoint hold (l : list Z) (h : gmap Z dentry) : gmap Z dentry :=
  match l with [] => h | d :: l' => ref_h d (hold l' h) end.

Definition count (d : Z) (l : list Z) : Z := zlength (filter (fun e => e = d) l).

Lemma count_cons d e l : count d (e :: l) = Z.b2z (bool_decide (e = d)) + count d l.
Proof.
  unfold count. rewrite filter_cons. destruct (decide (e = d)).
  - rewrite bool_decide_true, zlength_cons by done. cbn. lia.
  - by rewrite bool_decide_false.
Qed.

Lemma count_range d l : 0 <= count d l <= zlength l.
Proof.
  induction l as [|e l IH]; [done|]. rewrite count_cons, zlength_cons. destruct (bool_decide _); cbn; lia.
Qed.

Lemma hold_perm l l' h : Permutation l l' -> hold l h = hold l' h.
Proof.
  induction 1 as [|d l l' _ IH|d e l|l1 l2 l3 _ IH1 _ IH2]; cbn; [done|by rewrite IH| |congruence].
  destruct (decide (d = e)) as [->|]; [done|]. by rewrite alter_alter_ne.
Qed.

Lemma hold_teq l h : teq (hold l h) h.
Proof. induction l as [|d l IH]; [done|]. by apply teq_alter. Qed.

Lemma hold_child l h b n : child (hold l h) b n = child h b n.
Proof. induction l as [|d l IH]; [done|]. cbn. by rewrite child_alter. Qed.

Lemma hold_resolve l h r q : resolve (hold l h) r q = resolve h r q.
Proof. apply resolve_ext. apply hold_child. Qed.

Lemma hold_tree l h r : tree_ok h r -> tree_ok (hold l h) r.
Proof. by rewrite hold_teq. Qed.

Lemma hold_parent_of l h a b : parent_of (hold l h) a b <-> parent_of h a b.
Proof. apply teq_parent_of, hold_teq. Qed.

Lemma hold_ancestor l h a b : rtc (parent_of (hold l h)) a b <-> rtc (parent_of h) a b.
Proof.
  split; apply rtc_subrel; intros x y; by rewrite hold_parent_of.
Qed.

Lemma hold_none l h d : h !! d = None -> hold l h !! d = None.
Proof. intros H. induction l as [|e l IH]; [done|]. cbn. by apply lookup_alter_None. Qed.

Section hold.
Context (h : gmap Z dentry) (r : Z) (H : handles_ok h r).

Lemma hold_lookup l d x :
  zlength l <= 8 -> h !! d = Some x ->
  hold l h !! d = Some (x <| numhandles := numhandles x + count d l |>).
Proof.
  intros Hl Hx. destruct (H d x Hx) as [Hr _]. induction l as [|e l IH].
  - cbn. rewrite Hx. change (count d []) with 0. rewrite Z.add_0_r. by destruct x.
  - rewrite zlength_cons in Hl. cbn [hold]. rewrite count_cons. pose proof (count_range d l).
    destruct (decide (e = d)) as [->|].
    + rewrite lookup_alter_eq, IH, bool_decide_true by (done || lia). cbn. f_equal. unfold ref_d. cbn.
      rewrite u32_small by (unfold in_u32; lia). replace (1 + count d l) with (count d l + 1) by lia.
      by rewrite Z.add_assoc.
    + rewrite lookup_alter_ne, IH, bool_decide_false by (done || lia). done.
Qed.

Lemma hold_live l d : is_Some (h !! d) -> is_Some (hold l h !! d).
Proof. intros Hd. induction l; [done|]. by apply lookup_alter_is_Some. Qed.

Lemma unref_hold d l : zlength l <= 8 -> unref_h d (hold (d :: l) h) = hold l h.
Proof.
  intros Hl. apply unref_ref_at. intros x Hx. destruct (h !! d) as [y|] eqn:Hy.
  - rewrite (hold_lookup l d y) in Hx by done. injection Hx as <-. cbn. destruct (H d y Hy).
    pose proof (count_range d l). unfold in_u32. lia.
  - rewrite hold_none in Hx by done. done.
Qed.

(** A handle that is not the last one goes back. *)
Lemma wp_release_hold s L d l l' x Q :
  zlength l <= 8 -> Permutation l (d :: l') -> h !! d = Some x -> linked r d x -> L !! meta_lock d = None ->
  Q tt (st s (hold l' h) L) -> wp (fs_release_dentry d) (st s (hold l h) L) Q.
Proof.
  intros Hl HP Hx Hlk HL HQ. assert (zlength l = zlength l' + 1) as E.
  { unfold zlength. rewrite HP. cbn. lia. }
  rewrite (hold_perm _ _ _ HP). destruct (H d x Hx) as [Hr H1]. specialize (H1 Hlk). pose proof (count_range d l').
  eapply wp_release; [apply hold_lookup; [rewrite zlength_cons; lia|done]|done| |].
  - left. cbn. rewrite count_cons, bool_decide_true by done. rewrite u32_small; cbn; lia.
  - by rewrite unref_hold by lia.
Qed.

Lemma wp_release_hold_unlocked s L d l l' x Q :
  zlength l <= 8 -> Permutation l (d :: l') -> h !! d = Some x -> linked r d x -> L !! meta_lock d = Some Wr ->
  Q tt (st s (hold l' h) (delete (meta_lock d) L)) -> wp (fs_release_dentry_unlocked d) (st s (hold l h) L) Q.
Proof.
  intros Hl HP Hx Hlk HL HQ. assert (zlength l = zlength l' + 1) as E.
  { unfold zlength. rewrite HP. cbn. lia. }
  rewrite (hold_perm _ _ _ HP). destruct (H d x Hx) as [Hr H1]. specialize (H1 Hlk). pose proof (count_range d l').
  eapply wp_release_unlocked; [apply hold_lookup; [rewrite zlength_cons; lia|done]|done| |].
  - left. cbn. rewrite count_cons, bool_decide_true by done. rewrite u32_small; cbn; lia.
  - by rewrite unref_hold by lia.
Qed.
End hold.

Lemma u32_comm n j k : u32 (u32 (n + j) + k) = u32 (u32 (n + k) + j).
Proof. unfold u32. rewrite !Zplus_mod_idemp_l. f_equal. lia. Qed.

Lemma handles_heq h h' r : heq h h' -> handles_ok h r -> handles_ok h' r.
Proof.
  intros E H d y Hy. symmetry in E. destruct (heq_some _ _ _ _ E Hy) as (x & Hx & [= Ep _ _ _ _ _ _ En _ _ _ _]).
  rewrite En. unfold linked. rewrite Ep. exact (H d x Hx).
Qed.

Lemma hold_handles h r refs l : counts_ok h r refs -> room h -> zlength l <= 8 -> handles_ok (hold l h) r.
Proof.
  intros C R Hl d x Hx. pose proof (counts_handles _ _ _ C R) as Hh.
  destruct (h !! d) as [y|] eqn:Hy; [|by rewrite hold_none in Hx].
  rewrite (hold_lookup h r Hh l d y) in Hx by done. injection Hx as <-. cbn.
  destruct (Hh d y Hy) as [Hr H1], (R d y Hy) as [Hm _]. pose proof (count_range d l). split; [lia|].
  intros Hlk. assert (linked r d y) by done. specialize (H1 ltac:(done)). lia.
Qed.

(** Any heap with the handles of [l] over [h] is, exactly, [hold l] of one like [h]. *)
Lemma unhold h r l H :
  handles_ok h r -> zlength l <= 8 -> heq H (hold l h) -> exists h', H = hold l h' /\ heq h' h.
Proof.
  intros Hh. revert H. induction l as [|d l IH]; intros H Hl E; [by exists H|]. rewrite zlength_cons in Hl.
  assert (heq (unref_h d H) (hold l h)) as E1.
  { transitivity (unref_h d (hold (d :: l) h)); [by apply unref_heq|]. by rewrite (unref_hold h r Hh) by lia. }
  destruct (IH (unref_h d H) ltac:(lia) E1) as (h' & E2 & E3). exists h'. split; [|done]. cbn. rewrite <- E2.
  rewrite alter_alter_eq. symmetry. apply alter_id. intros x Hx.
  destruct (heq_some _ _ _ _ E Hx) as (y & Hy & [= _ _ _ _ _ _ _ En _ _ _ _]).
  destruct (h !! d) as [z|] eqn:Hz; [|by rewrite hold_none in Hy].
  rewrite (hold_lookup h r Hh (d :: l) d z) in Hy by (done || rewrite zlength_cons; lia). injection Hy as <-.
  cbn in En. destruct (Hh d z Hz) as [Hr _]. pose proof (count_range d (d :: l)) as Hc. rewrite zlength_cons in Hc.
  unfold ref_d, unref_d. cbn. rewrite (u32_comm (numhandles x) (-1) 1 : u32 (u32 (_ - 1) + 1) = u32 (u32 (_ + 1) - 1)).
  rewrite u32_add_sub; [by destruct x|]. unfold in_u32. lia.
Qed.

(** *** Edits of one dentry that commute with taking a handle *)

Definition edit (g : dentry -> dentry) : Prop :=
  (forall x y, dcore x = dcore y -> dcore (g x) = dcore (g y)) /\
  (forall x, dcore (g (ref_d x)) = dcore (ref_d (g x))).

Ltac edit_tac :=
  split; [intros x y [= ? ? ? ? ? ? ? ? ? ? ? ?]; unfold dcore; cbn; congruence
         | intros x; unfold dcore; cbn; try done].

Lemma edit_cut_child n k : edit (cut_child n k). Proof. by edit_tac. Qed.
Lemma edit_cut_link : edit cut_link.
Proof. edit_tac. by rewrite (u32_comm (numhandles x) (-1) 1 : u32 (u32 (_ - 1) + 1) = _). Qed.
Lemma edit_add_child n f u k : edit (add_child n f u k). Proof. by edit_tac. Qed.
Lemma edit_make_link p n : edit (make_link p n). Proof. by edit_tac. Qed.
Lemma edit_mark_deleted : edit mark_deleted. Proof. by edit_tac. Qed.
Lemma edit_ref : edit ref_d. Proof. by edit_tac. Qed.

Create HintDb edits.
#[export] Hint Resolve edit_cut_child edit_cut_link edit_add_child edit_make_link edit_mark_deleted edit_ref : edits.

Lemma edit_heq g d h h' : edit g -> heq h h' -> heq (alter g d h) (alter g d h').
Proof. intros [Hg _] H. apply heq_alter; [|done]. eauto. Qed.

Lemma ref_alter g d e h : edit g -> heq (alter g d (ref_h e h)) (ref_h e (alter g d h)).
Proof.
  intros [_ Hg] a. destruct (decide (d = e)) as [->|]; [|by rewrite alter_alter_ne].
  destruct (decide (a = e)) as [->|]; look; [|done]. destruct (h !! e); cbn; [|done]. by rewrite Hg.
Qed.

Lemma hold_heq l h h' : heq h h' -> heq (hold l h) (hold l h').
Proof. intros H. induction l as [|d l IH]; [done|]. cbn. apply edit_heq; auto with edits. Qed.

Lemma hold_alter g d l h : edit g -> heq (alter g d (hold l h)) (hold l (alter g d h)).
Proof.
  intros Hg. induction l as [|e l IH]; [done|]. cbn. rewrite ref_alter by done.
  apply edit_heq; auto with edits.
Qed.

Lemma hold_cut l b n d k h : heq (cut b n d k (hold l h)) (hold l (cut b n d k h)).
Proof.
  unfold cut, detach. etransitivity; [|apply hold_alter; auto with edits]. apply edit_heq; [auto with edits|].
  etransitivity; [|apply hold_alter; auto with edits]. apply edit_heq; [auto with edits|].
  apply hold_alter. auto with edits.
Qed.

Lemma hold_move l a n f k b m u h :
  heq (attach b m f u k (detach a n f k (hold l h))) (hold l (attach b m f u k (detach a n f k h))).
Proof.
  unfold attach, detach. do 3 (etransitivity; [|apply hold_alter; auto with edits]; apply edit_heq; [auto with edits|]).
  apply hold_alter. auto with edits.
Qed.

Lemma hold_delete l d h : d ∉ l -> hold l (delete d h) = delete d (hold l h).
Proof.
  induction l as [|e l IH]; intros Hd; [done|]. apply not_elem_of_cons in Hd as [Hde Hd]. cbn.
  rewrite IH by done. by rewrite delete_alter_ne.
Qed.

(** ** The locks of the two directories *)

Definition lock2 (a b : Z) (L : gmap lock_id lock_state) : gmap lock_id lock_state :=
  <[meta_lock a := Wr]> (<[contents_lock a := Wr]> (<[meta_lock b := Wr]> (<[contents_lock b := Wr]> L))).

Lemma lock2_comm a b L : lock2 a b L = lock2 b a L.
Proof.
  unfold lock2. destruct (decide (a = b)) as [->|]; [done|]. apply map_eq. intros k.
  destruct (decide (k = meta_lock a)) as [->|]; [by look|]. destruct (decide (k = contents_lock a)) as [->|]; [by look|].
  destruct (decide (k = meta_lock b)) as [->|]; [by look|]. destruct (decide (k = contents_lock b)) as [->|]; by look.
Qed.

Lemma lock2_same a L : lock2 a a L = <[meta_lock a := Wr]> (<[contents_lock a := Wr]> L).
Proof.
  unfold lock2. apply map_eq. intros k.
  destruct (decide (k = meta_lock a)) as [->|]; [by look|]. destruct (decide (k = contents_lock a)) as [->|]; by look.
Qed.

Lemma lock2_meta a b d L : d <> a -> d <> b -> lock2 a b L !! meta_lock d = L !! meta_lock d.
Proof. intros. unfold lock2. by look. Qed.

Lemma lock2_contents a b d L : d <> a -> d <> b -> lock2 a b L !! contents_lock d = L !! contents_lock d.
Proof. intros. unfold lock2. by look. Qed.

Abbreviation rename_held := (<[rename_lock := Wr]> vol_read).

Lemma wp_lock_dir s h L d Q :
  L !! contents_lock d = None -> L !! meta_lock d = None ->
  Q tt (st s h (<[meta_lock d := Wr]> (<[contents_lock d := Wr]> L))) -> wp (lock_dir d) (st s h L) Q.
Proof. intros. unfold lock_dir. by wp_run. Qed.

(** ** Ancestors by their paths *)

Lemma ancestor_resolve h r d1 d2 :
  tree_ok h r -> rtc (parent_of h) d1 d2 -> exists q, resolve h d1 q = Some d2.
Proof.
  intros T. induction 1 as [d|d1 d d2 (x & Hx & Hp) _ [q Hq]]; [by exists []|].
  destruct (t_up _ _ T _ _ _ Hx Hp) as (_ & n & _ & _ & Hn & _). exists (n :: q). cbn.
  by rewrite (proj2 (child_iff _ _ T d1 n d)) by eauto.
Qed.

Lemma prefix_snoc_inv (l q : list path) n : l `prefix_of` q ++ [n] -> l = q ++ [n] \/ l `prefix_of` q.
Proof.
  intros [k E]. destruct k as [|m k _] using rev_ind; [left; by rewrite app_nil_r in E|right].
  rewrite app_assoc in E. apply app_inj_tail in E as [-> _]. by exists k.
Qed.

Lemma ancestor_prefix h r q1 q2 d1 d2 :
  tree_ok h r -> resolve h r q1 = Some d1 -> resolve h r q2 = Some d2 ->
  rtc (parent_of h) d1 d2 <-> q1 `prefix_of` q2.
Proof.
  intros T H1 H2. split.
  - intros H. destruct (ancestor_resolve _ _ _ _ T H) as [q Hq]. exists q.
    eapply (resolve_inj _ _ T); [done|]. by rewrite resolve_app, H1.
  - intros [q ->]. rewrite resolve_app, H1 in H2. by eapply resolve_ancestor.
Qed.

