(* ===== verification/FsMove.v ===== *)
(** * Moving a dentry to another directory and name

    The heap after [rename_move] is [moved]: the dentry detached from the old
    name and attached to the new one.  It keeps the invariant, and its paths are
    those of the old heap with the two names exchanged. *)

From stdpp Require Import relations.
From S2P Require Import Prelude LtfsError Extents TapeOps TapeLayer Journal Dentry DentryRun DentryTree DentryLookup DentryProps DentryEdit DentryPaths DentryCounts FsOps FsOpsRun FsOpsInv FsCreate FsUnlink FsHold.

(** ** Moving the dentry *)

Section move.
Context (h : gmap Z dentry) (r : Z) (T : tree_ok h r) (a b f : Z) (ya yb xf : dentry) (nf nt : path).
Context (Hya : h !! a = Some ya) (Hyb : h !! b = Some yb) (Hdir : isdir yb = true).
Context (Hxf : h !! f = Some xf) (Hpf : parent xf = Some a) (Hnf : platform_safe_name xf = Some nf).
Context (Hloop : ~ rtc (parent_of h) f b) (Hnt : file_name nt).
Context (Hfree : child h b nt = None \/ child h b nt = Some f).

Definition moved : gmap Z dentry := attach b nt f (uid xf) (dir_n xf) (detach a nf f (dir_n xf) h).

Lemma move_ne : f <> a /\ f <> b /\ f <> r.
Proof.
  split_and!; [by eapply detach_ne|intros E; apply Hloop; by rewrite E|]. intros E.
  destruct (root_no_parent _ _ T a). exists xf. by rewrite <- E.
Qed.

Let h1 := detach a nf f (dir_n xf) h.

Lemma move_f : h1 !! f = Some (cut_link xf).
Proof. unfold h1, detach. look. by rewrite lookup_alter_ne, Hxf by (apply not_eq_sym, move_ne). Qed.

Lemma move_b : exists yb1, h1 !! b = Some yb1 /\ isdir yb1 = true.
Proof.
  unfold h1, detach. rewrite lookup_edit by apply move_ne. destruct move_ne as (_ & Hfb & _).
  rewrite decide_False by congruence. destruct (decide (b = a)) as [->|]; [|eauto].
  rewrite Hyb. by eexists.
Qed.

Lemma move_free : child h1 b nt = None.
Proof.
  unfold h1. rewrite (detach_child h r T f a _ nf xf) by done. destruct (decide _) as [|Hne]; [done|].
  destruct Hfree as [|Hc]; [done|]. exfalso. apply Hne.
  apply (child_iff _ _ T) in Hc as (z & Hz & Hp & Hn). split; congruence.
Qed.

Lemma move_loop : ~ rtc (parent_of h1) f b.
Proof.
  intros H. apply Hloop. eapply rtc_subrel; [|done]. intros x y. unfold h1.
  rewrite (detach_parent_of h r T f a _ nf xf) by done. tauto.
Qed.

Lemma move_deleted : deleted xf = false.
Proof. destruct (t_up _ _ T _ _ _ Hxf Hpf) as (? & ? & _ & _ & _ & _ & ? & _). done. Qed.

Lemma moved_tree : tree_ok moved r.
Proof.
  destruct move_b as (yb1 & Hyb1 & Hd1). assert (T1 : tree_ok h1 r) by by eapply tree_detach.
  apply (tree_attach h1 r T1 f b (dir_n xf) nt (cut_link xf) yb1);
    auto using move_f, move_deleted, move_free, move_loop. apply move_ne.
Qed.

(** The paths after the move. *)
Lemma moved_resolve qf qt q :
  resolve h r qf = Some a -> resolve h r qt = Some b ->
  resolve moved r q =
    if decide (through qt nt q) then resolve h r (qf ++ nf :: drop (S (length qt)) q)
    else if decide (through qf nf q) then None else resolve h r q.
Proof.
  intros Ha Hb. assert (T1 : tree_ok h1 r) by by eapply tree_detach. destruct move_b as (yb1 & Hyb1 & Hd1).
  assert (Hf : resolve h r (qf ++ [nf]) = Some f) by (rewrite resolve_snoc, Ha; apply (child_iff _ _ T); eauto).
  assert (Hqt : resolve h1 r qt = Some b).
  { unfold h1. rewrite (resolve_detach h r T f a _ nf xf Hxf Hpf Hnf qf) by done.
    rewrite decide_False; [done|]. intros Hth. apply Hloop. by apply (ancestor_prefix h r _ _ _ _ T Hf Hb). }
  unfold moved. change (uid xf) with (uid (cut_link xf)). fold h1.
  rewrite (resolve_attach h1 r T1 f b (dir_n xf) nt (cut_link xf) yb1) with (qp := qt);
    auto using move_f, move_deleted, move_free, move_loop; [|apply move_ne].
  destruct (decide (through qt nt q)).
  - unfold h1. rewrite (resolve_detach_below h r T f a _ nf xf) by done.
    change (qf ++ nf :: drop (S (length qt)) q) with (qf ++ [nf] ++ drop (S (length qt)) q).
    by rewrite app_assoc, resolve_app, Hf.
  - unfold h1. by rewrite (resolve_detach h r T f a _ nf xf Hxf Hpf Hnf qf).
Qed.

Context (s : fs_state) (Hm : mem s = []) (Hr : r = root s) (H : handles_ok h r).
Context (Hua : in_u32 (link_count ya)) (Hub : in_u32 (link_count yb)).

Let L := lock2 a b rename_held.

(** The edits of [rename_move], up to the journal. *)
Lemma move_heq H0 H1 xf0 ya0 yb0 xf1 ya1 yb1 :
  heq H0 (hold [f; b; a] h) -> H0 !! f = Some xf0 -> H0 !! a = Some ya0 -> H0 !! b = Some yb0 ->
  H1 !! f = Some xf1 -> H1 !! a = Some ya1 -> H1 !! b = Some yb1 ->
  (forall e, e <> f -> e <> a -> e <> b -> H1 !! e = H0 !! e) ->
  dcore xf1 = dcore (make_link b nt (cut_link xf0)) ->
  (a <> b -> dcore ya1 = dcore (cut_child nf (dir_n xf) ya0) /\
             dcore yb1 = dcore (add_child nt f (uid xf) (dir_n xf) yb0)) ->
  (a = b -> dcore ya1 = dcore (add_child nt f (uid xf) (dir_n xf) (cut_child nf (dir_n xf) ya0))) ->
  heq H1 (hold [f; b; a] moved).
Proof.
  intros E0 Hf0 Ha0 Hb0 Hf1 Ha1 Hb1 Hoth Ef Hne Heq. destruct move_ne as (Hfa & Hfb & _).
  transitivity (attach b nt f (uid xf) (dir_n xf) (detach a nf f (dir_n xf) H0)).
  - intros e. unfold attach, detach. destruct (decide (e = f)) as [->|]; look.
    { rewrite Hf1, Hf0. cbn [fmap option_fmap option_map]. by rewrite Ef. }
    destruct (decide (e = b)) as [->|]; look.
    + destruct (decide (a = b)) as [E|E].
      * rewrite <- E in *. rewrite lookup_alter_eq, Ha0, Ha1. cbn [fmap option_fmap option_map]. by rewrite Heq.
      * rewrite lookup_alter_ne, Hb0, Hb1 by congruence. cbn [fmap option_fmap option_map]. by rewrite (proj2 (Hne E)).
    + destruct (decide (e = a)) as [->|]; look; [|by rewrite Hoth].
      rewrite Ha0, Ha1. cbn [fmap option_fmap option_map]. by rewrite (proj1 (Hne ltac:(congruence))).
  - etransitivity; [|apply hold_move]. unfold attach, detach.
    repeat (apply edit_heq; [auto with edits|]). done.
Qed.

(** What the dentries look like under the handles of the operation. *)
Lemma move_held H0 d x :
  heq H0 (hold [f; b; a] h) -> h !! d = Some x ->
  exists x0, H0 !! d = Some x0 /\ dcore x0 = dcore (x <| numhandles := numhandles x + count d [f; b; a] |>).
Proof.
  intros E0 Hx. symmetry in E0.
  destruct (heq_some _ _ _ _ E0 (hold_lookup h r H [f; b; a] d x ltac:(done) Hx)) as (x0 & Hx0 & Ex). eauto.
Qed.

(** The bookkeeping that follows the edits. *)
Lemma wp_move_record s1 H1 from_norm qt Q :
  frame s s1 -> heq H1 (hold [f; b; a] moved) ->
  (forall s' h', frame s s' -> heq h' (hold [f; b; a] moved) -> Q 0 (st s' h' L)) ->
  wp (assign f (fun x => x <| dirty := true |>);;;
      ltfs_mutex_lock dirty_lock;;;
      journal_remove from_norm f;;;
      match fs_split_path (slashed (qt ++ [nt])) with
      | None => ffault
      | Some (to_dir, _) => journal_create to_dir f
      end;;;
      set_dentry_dirty a;;;
      fwhen (negb (b =? a)) (set_dentry_dirty b);;;
      ltfs_mutex_unlock dirty_lock;;;
      releasewrite_mrsw (meta_lock f);;;
      ltfs_set_index_dirty true false;;;
      fret 0) (st s1 H1 (<[meta_lock f := Wr]> L)) Q.
Proof.
  intros F1 E1 HQ. destruct move_ne as (Hfa & Hfb & _).
  assert (TM : tree_ok (hold [f; b; a] moved) (root s)) by (rewrite <- Hr; apply hold_tree, moved_tree).
  assert (Hlive : forall H2 d, heq H2 (hold [f; b; a] moved) -> is_Some (h !! d) -> exists x, H2 !! d = Some x).
  { intros H2 d E2 Hd. assert (is_Some (hold [f; b; a] moved !! d)) as [x Hx].
    { apply hold_live. unfold moved, attach, detach. by rewrite !lookup_alter_is_Some. }
    symmetry in E2. destruct (heq_some _ _ _ _ E2 Hx) as (z & Hz & _). eauto. }
  assert (L !! dirty_lock = None) as HLd by (unfold L, lock2; map_side).
  assert (L !! meta_lock f = None) as HLf by (unfold L; rewrite lock2_meta by done; map_side).
  destruct (Hlive H1 f E1 ltac:(eauto)) as [x1 Hx1].
  assert (Hmem : forall s', frame s s' -> mem s' = []) by (intros s' (_ & -> & _); done).
  assert (Hroot : forall s' H2, frame s s' -> heq H2 (hold [f; b; a] moved) -> tree_ok H2 (root s')).
  { intros s' H2 (-> & _) E2. by rewrite E2. }
  rewrite split_path_slashed by done. wp_go. eapply wp_journal_remove; [auto|map_side|]. intros s2 F2. wp_go.
  assert (frame s s2) as G2 by by transitivity s1.
  eapply wp_journal_create; [auto|map_side|]. intros s3 F3. wp_go.
  assert (frame s s3) as G3 by by transitivity s2.
  set (H2 := alter _ f H1). assert (E2 : heq H2 (hold [f; b; a] moved)) by (by apply heq_cosmetic).
  destruct (Hlive H2 a E2 ltac:(eauto)) as [z Hz].
  eapply wp_set_dentry_dirty; [auto|by apply Hroot|done|]. intros s4 H4 F4 E4. wp_step.
  assert (frame s s4) as G4 by by transitivity s3. rewrite E2 in E4.
  assert (Hend : forall s5 H5, frame s s5 -> heq H5 (hold [f; b; a] moved) ->
    wp (ltfs_mutex_unlock dirty_lock;;; releasewrite_mrsw (meta_lock f);;; ltfs_set_index_dirty true false;;; fret 0)
       (st s5 H5 (<[dirty_lock := Wr]> (<[meta_lock f := Wr]> L))) Q).
  { intros s5 H5 G5 E5. wp_go. lock_simpl. wp_go. lock_simpl. apply wp_set_index_dirty; [done|]. intros s6 F6. wp_go.
    apply HQ; [by transitivity s5|done]. }
  destruct (Z.eqb_spec b a); cbn [negb fwhen]; [wp_step; by apply Hend|].
  destruct (Hlive H4 b E4 ltac:(eauto)) as [w Hw].
  eapply wp_set_dentry_dirty; [auto|by apply Hroot|done|]. intros s5 H5 F5 E5.
  apply Hend; [by transitivity s4|by rewrite E5].
Qed.

End move.

Lemma wp_rename_move h r a b f ya yb xf nf nt s H0 from_norm qt Q :
  tree_ok h r -> h !! a = Some ya -> h !! b = Some yb -> isdir yb = true ->
  h !! f = Some xf -> parent xf = Some a -> platform_safe_name xf = Some nf ->
  ~ rtc (parent_of h) f b -> file_name nt -> child h b nt = None \/ child h b nt = Some f ->
  mem s = [] -> r = root s -> handles_ok h r -> in_u32 (link_count ya) -> in_u32 (link_count yb) ->
  in_u32 (link_count xf) -> heq H0 (hold [f; b; a] h) ->
  (forall s' h', frame s s' -> heq h' (hold [f; b; a] (moved h a b f xf nf nt)) -> Q 0 (st s' h' (lock2 a b rename_held))) ->
  wp (rename_move a b f from_norm (slashed (qt ++ [nt])) nt) (st s H0 (lock2 a b rename_held)) Q.
Proof.
  intros T Hya Hyb Hdir Hxf Hpf Hnf Hloop Hnt Hfree Hm Hr H Hua Hub Huf E0 HQ.
  destruct (move_ne h r T a b f xf Hxf Hpf Hloop) as (Hfa & Hfb & _).
  set (L := lock2 a b rename_held) in *.
  destruct (move_held h r a b f H H0 f xf E0 Hxf) as (xf0 & Hf0 & Exf). injection Exf as Ep Epn Edn Ei Edel Eu Ec En El Eo Eim Eap.
  destruct (move_held h r a b f H H0 a ya E0 Hya) as (ya0 & Ha0 & [= _ _ _ _ _ _ Eca _ Ela _ _ _]).
  destruct (move_held h r a b f H H0 b yb E0 Hyb) as (yb0 & Hb0 & [= _ _ _ _ _ _ Ecb _ Elb _ _ _]).
  cbn in Epn, Eu, Ei, En, El, Eca, Ela, Ecb, Elb.
  assert (L !! meta_lock f = None) as HLf by (unfold L; rewrite lock2_meta by done; map_side).
  assert (exists e, hash_find nf (child_list ya0) = Some e /\ nl_name e = nf) as (e & He & Hen).
  { destruct (t_up _ _ T _ _ _ Hxf Hpf) as (y & m & Hy & _ & Hm' & _ & _ & _ & Hin).
    assert (m = nf) as -> by congruence. assert (y = ya) as -> by congruence.
    exists (mk_name_list nf f (uid xf)). split; [|done]. rewrite Eca. apply hash_find_in; [by eapply t_names|done..]. }
  assert (Hsub : forall n, in_u32 n -> u32 (u32 (n - 1) + 1) = n).
  { intros n Hin. rewrite (u32_comm n (-1) 1 : u32 (u32 (n - 1) + 1) = u32 (u32 (n + 1) - 1)). by apply u32_add_sub. }
  assert (Hn : u32 (u32 (numhandles xf0 - 1) + 1) = numhandles xf0).
  { apply Hsub. destruct (H f xf Hxf). pose proof (count_range f [f; b; a]) as Hcr. unfold zlength in Hcr. cbn in Hcr.
    unfold in_u32. lia. }
  assert (Hl : u32 (u32 (link_count xf0 - 1) + 1) = link_count xf0) by (apply Hsub; by rewrite El).
  assert (Hla : in_u32 (link_count ya0)) by by rewrite Ela. assert (Hlb : in_u32 (link_count yb0)) by by rewrite Elb.
  unfold rename_move. wp_go. rewrite Epn, Hnf. wp_go. apply wp_find_key; [done|]. rewrite He. wp_step.
  assert (Hrec := wp_move_record h r T a b f ya yb xf nf nt Hya Hyb Hdir Hxf Hpf Hnf Hloop Hnt Hfree s Hm Hr).
  assert (Hheq := move_heq h r T a b f yb xf nf nt Hyb Hxf Hpf Hloop Hfree H0).
  destruct (decide (a = b)) as [E|Hab].
  - subst b. assert (yb = ya) as -> by congruence. assert (yb0 = ya0) as -> by congruence.
    destruct (isdir xf0) eqn:Ei0; cbn [fwhen]; wp_go; (eapply wp_add_key; [done|map_side|done|]); wp_go; cbn [Z.eqb negb].
    all: (apply Hrec; [done| |done]); (eapply (Hheq _ xf0 ya0 ya0); [done..|map_side|map_side|map_side|intros; by look| |done|intros _]).
    all: unfold dcore, dir_n; cbn; rewrite <- ?Ei, ?Hen, ?Eu; try by rewrite Hn, Hl.
    done. by rewrite Z.sub_0_r, Z.add_0_r, !(u32_small (link_count ya0)).
  - destruct (isdir xf0) eqn:Ei0; cbn [fwhen]; wp_go; (eapply wp_add_key; [done|map_side|done|]); wp_go; cbn [Z.eqb negb].
    all: (apply Hrec; [done| |done]); (eapply (Hheq _ xf0 ya0 yb0); [done..|map_side|map_side|map_side|intros; by look| |intros _|done]).
    all: unfold dcore, dir_n; cbn; rewrite <- ?Ei, ?Hen, ?Eu; try by rewrite Hn, Hl.
    done. by rewrite Z.sub_0_r, Z.add_0_r, !u32_small.
Qed.

(** ** The invariant after a move *)

Lemma room_detach h r refs f p n x :
  tree_ok h r -> counts_ok h r refs -> room h -> h !! f = Some x -> parent x = Some p ->
  room (detach p n f (dir_n x) h).
Proof.
  intros T C R Hf Hp d z Hz. unfold detach in Hz. rewrite lookup_edit in Hz by (by eapply detach_ne).
  pose proof (dir_n_range x) as Hk. destruct (decide (d = f)) as [->|]; [|destruct (decide (d = p)) as [->|]; [|by eapply R]].
  - rewrite Hf in Hz. injection Hz as <-. destruct (C f x Hf) as (C1 & C2 & C3), (R f x Hf). cbn.
    unfold linkedb, parent_n in C1, C3. rewrite Hp in C1, C3. cbn in C1. pose proof (subdirs_nonneg h x).
    rewrite !u32_small; lia.
  - destruct (t_up _ _ T _ _ _ Hf Hp) as (y & m & Hy & Hyd & _). rewrite Hy in Hz. injection Hz as <-.
    destruct (C p y Hy) as (C1 & C2 & C3), (R p y Hy). cbn. pose proof (subdirs_nonneg h y).
    assert (dir_n y = 1) as E by (unfold dir_n; by rewrite Hyd).
    assert (0 <= parent_n y) by (unfold parent_n; destruct (parent y); lia). rewrite u32_small; lia.
Qed.

Lemma room_removed h r refs b n d x :
  tree_ok h r -> counts_ok h r refs -> room h -> h !! d = Some x -> parent x = Some b ->
  room (removed b n d x refs h).
Proof.
  intros T C R Hx Hp. pose proof (room_detach h r refs d b n x T C R Hx Hp) as R1.
  assert (R2 : room (cut b n d (dir_n x) h)).
  { intros e z Hz. unfold cut in Hz. destruct (decide (e = d)) as [->|]; [|rewrite lookup_alter_ne in Hz by done; by eapply R1].
    rewrite lookup_alter_eq in Hz. destruct (detach b n d (dir_n x) h !! d) as [w|] eqn:E; [|done]. injection Hz as <-.
    exact (R1 d w E). }
  unfold removed. destruct (_ && _); [|done]. intros e z Hz. apply lookup_delete_Some in Hz as [_ Hz]. by eapply R2.
Qed.

Section moved.
Context (h : gmap Z dentry) (r : Z) (refs : Z -> Z) (next : Z) (OK : heap_ok h r refs next) (R : room h).
Context (a b f : Z) (yb xf : dentry) (nf nt : path).
Context (Hyb : h !! b = Some yb) (Hdir : isdir yb = true) (Hlb : linkedb r b yb = true).
Context (Hxf : h !! f = Some xf) (Hpf : parent xf = Some a) (Hnf : platform_safe_name xf = Some nf).
Context (Hloop : ~ rtc (parent_of h) f b) (Hnt : file_name nt).
Context (Hfree : child h b nt = None \/ child h b nt = Some f).

Lemma moved_ok : heap_ok (moved h a b f xf nf nt) r refs next.
Proof.
  destruct OK as [T C O F]. destruct (move_ne h r T a b f xf Hxf Hpf Hloop) as (Hfa & Hfb & Hfr).
  edestruct (move_b h r T a b f yb xf nf) as (yb1 & Hyb1 & _); [done..|].
  split.
  - by eapply moved_tree.
  - unfold moved. change (uid xf) with (uid (cut_link xf)). change (dir_n xf) with (dir_n (cut_link xf)).
    apply (counts_attach (detach a nf f (dir_n xf) h) r refs) with (y := yb1); try done.
    + by apply counts_detach.
    + by eapply room_detach.
    + by eapply move_f.
  - intros e z Hz Hl. unfold moved, attach, detach in Hz. rewrite !lookup_edit in Hz by done.
    destruct (decide (e = f)) as [->|].
    { rewrite Hxf in Hz. injection Hz as <-. done. }
    assert (exists y, h !! e = Some y /\ parent z = parent y /\ (z = y \/ e = a \/ e = b)) as (y & Hy & Ep & Hz').
    { destruct (h !! e) as [y|]; [|by repeat case_decide]. exists y. split; [done|].
      repeat case_decide; cbn in Hz; injection Hz as <-; auto. }
    assert (linkedb r e y = false) as Hly by (unfold linkedb in *; by rewrite <- Ep).
    destruct Hz' as [->|[->| ->]]; [by apply O| |congruence]. exfalso.
    destruct (t_up _ _ T _ _ _ Hxf Hpf) as (y' & m & Hy' & _ & _ & _ & _ & _ & Hin).
    assert (y' = y) as -> by congruence. destruct (O a y Hy Hly) as [Hc _]. rewrite Hc in Hin. by apply not_elem_of_nil in Hin.
  - intros e He. apply F. unfold moved, attach, detach in He. by rewrite !lookup_alter_is_Some in He.
Qed.

Lemma moved_handles : handles_ok (moved h a b f xf nf nt) r.
Proof.
  destruct OK as [T C O F]. destruct (move_ne h r T a b f xf Hxf Hpf Hloop) as (Hfa & Hfb & Hfr).
  pose proof (counts_handles _ _ _ C R) as Hh. intros e z Hz.
  pose proof (ok_counts _ _ _ _ moved_ok e z Hz) as (C1 & C2 & _).
  assert (exists y, h !! e = Some y /\ numhandles z = numhandles y) as (y & Hy & En).
  { unfold moved, attach, detach in Hz. rewrite !lookup_edit in Hz by done. destruct (h !! e) as [y|] eqn:Hy; [|by repeat case_decide].
    exists y. split; [done|]. repeat case_decide; cbn in Hz; injection Hz as <-; try done. subst e. cbn.
    rewrite (u32_comm (numhandles y) (-1) 1 : u32 (u32 (_ - 1) + 1) = u32 (u32 (_ + 1) - 1)).
    apply u32_add_sub. destruct (Hh f y Hy). unfold in_u32. lia. }
  destruct (Hh e y Hy). split; [lia|]. intros Hl%linkedb_spec. rewrite Hl in C1. cbn in C1. lia.
Qed.

Lemma moved_files : files (moved h a b f xf nf nt) r = files h r.
Proof.
  destruct OK as [T C O F]. destruct (move_ne h r T a b f xf Hxf Hpf Hloop) as (Hfa & Hfb & Hfr).
  edestruct (move_b h r T a b f yb xf nf) as (yb1 & Hyb1 & _); [done..|].
  destruct (t_up _ _ T _ _ _ Hxf Hpf) as (ya & m & Hya & _).
  unfold moved. rewrite (files_attach _ _ _ _ _ _ _ (cut_link xf) yb1) by (done || by eapply move_f).
  rewrite (files_detach _ _ _ _ _ _ xf ya) by done. change (dir_n (cut_link xf)) with (dir_n xf). lia.
Qed.
End moved.

