(* ===== verification/FsRename.v ===== *)
(** * Renaming

    What [ltfs_fsops_rename] does to the tree: the paths through the new name
    are those that went through the old one, what had the new name is gone, and
    every other path is as before; or an error and nothing changed.  The run
    never waits for a lock that it holds itself. *)

From stdpp Require Import relations.
From S2P Require Import Prelude LtfsError Extents TapeOps TapeLayer Journal Dentry DentryRun DentryTree DentryLookup DentryProps DentryEdit DentryPaths DentryCounts FsOps FsOpsRun FsOpsInv FsCreate FsUnlink FsHold FsMove.

(** ** What is refused *)

Definition worm (x : dentry) : bool := is_immutable x || is_appendonly x.

(** [xf] is renamed from the name [nf] in the directory at [qf] to [nt] at [qt];
    [ot] is what has that name. *)
Definition rename_check_code (qf qt : list path) (nf nt : path) (xf : dentry) (ot : option dentry) : Z :=
  if decide (through qf nf qt) then - LTFS_RENAMELOOP
  else match ot with
       | None => if worm xf then - LTFS_WORM_ENABLED else 0
       | Some xt =>
           if decide (through qt nt qf) then (if isdir xf then - LTFS_DIRNOTEMPTY else - LTFS_ISFILE)
           else if worm xf || worm xt then - LTFS_WORM_ENABLED else 0
       end.

Definition rename_refusal (qf qt : list path) (nf nt : path) (xf : dentry) (ot : option dentry) : Z :=
  let code := rename_check_code qf qt nf nt xf ot in
  if code <? 0 then code
  else match ot with
       | Some xt =>
           if bool_decide (qf ++ [nf] <> qt ++ [nt]) && isdir xt && negb (zlength (child_list xt) =? 0)
           then - LTFS_DIRNOTEMPTY else 0
       | None => 0
       end.

(** ** Giving everything back *)

Lemma wp_rename_dirs_out s h r l a b ya yb ret fromdentry Q :
  handles_ok h r -> zlength l <= 4 -> h !! a = Some ya -> linked r a ya -> h !! b = Some yb -> linked r b yb ->
  wp (id <- match fromdentry with
            | Some d => x <- deref d;; fret (uid x, ino x)
            | None => fret (0, 0)
            end;;
      match fromdentry with
      | Some d => fwhen (ret =? 0) (iosched_update_data_placement d;;; fs_release_dentry d)
      | None => fret tt
      end;;;
      fret (ret, id)) (st s (hold l h) ∅) Q ->
  wp (rename_out_unlock ret a b fromdentry) (st s (hold (b :: a :: l) h) (lock2 a b rename_held)) Q.
Proof.
  intros H Hl Hya Hla Hyb Hlb HQ.
  assert (zlength (b :: a :: l) <= 8) as Hl2 by (rewrite !zlength_cons; lia).
  assert (zlength (b :: l) <= 8) as Hl3 by (rewrite !zlength_cons; lia).
  unfold rename_out_unlock, rename_out_release. destruct (Z.eqb_spec a b) as [E|Hne]; cbn [negb fwhen].
  - subst b. rewrite lock2_same. wp_go. lock_simpl.
    eapply (wp_release_hold_unlocked h r H s _ a _ (a :: l)); [done..|map_side|]. lock_simpl.
    wp_step. rewrite bool_decide_true by done.
    eapply (wp_release_hold h r H s _ a _ l); [done..|map_side|]. do 2 wp_step. lock_simpl. do 2 wp_step. lock_simpl. exact HQ.
  - unfold lock2. wp_go. lock_simpl. wp_go. lock_simpl.
    eapply (wp_release_hold_unlocked h r H s _ a _ (b :: l)); [done| |done..|map_side|].
    { by rewrite Permutation_swap. }
    lock_simpl. wp_step. rewrite bool_decide_false by congruence.
    eapply (wp_release_hold_unlocked h r H s _ b _ l); [done..|map_side|]. lock_simpl.
    do 2 wp_step. lock_simpl. do 2 wp_step. lock_simpl. exact HQ.
Qed.

Lemma wp_rename_refused s h r a b ya yb ret fromdentry Q :
  handles_ok h r -> h !! a = Some ya -> linked r a ya -> h !! b = Some yb -> linked r b yb -> ret < 0 ->
  (forall f, fromdentry = Some f -> is_Some (h !! f)) ->
  (forall id, Q (ret, id) (st s h ∅)) ->
  wp (rename_out_unlock ret a b fromdentry) (st s (hold [b; a] h) (lock2 a b rename_held)) Q.
Proof.
  intros H Hya Hla Hyb Hlb Hret Hf HQ. eapply (wp_rename_dirs_out s h r []); [done..|].
  destruct fromdentry as [f|]; [|wp_go; apply HQ]. destruct (Hf f eq_refl) as [x Hx]. cbn [hold]. wp_go.
  replace (ret =? 0) with false by lia. cbn [fwhen]. wp_go. apply HQ.
Qed.

Lemma wp_rename_finish s h r a b ya yb f xf Q :
  handles_ok h r -> h !! a = Some ya -> linked r a ya -> h !! b = Some yb -> linked r b yb ->
  h !! f = Some xf -> linked r f xf ->
  (forall s', frame s s' -> Q (0, (uid xf, ino xf)) (st s' h ∅)) ->
  wp (rename_out_unlock 0 a b (Some f)) (st s (hold [b; a; f] h) (lock2 a b rename_held)) Q.
Proof.
  intros H Hya Hla Hyb Hlb Hf Hlf HQ. eapply (wp_rename_dirs_out s h r [f]); [done..|].
  pose proof (hold_lookup h r H [f] f xf ltac:(done) Hf) as Hx. wp_go. cbn [Z.eqb fwhen]. wp_go.
  eapply wp_placement; [done|]. intros s' Hs'.
  eapply (wp_release_hold h r H s' _ f _ []); [done..|]. wp_go. by apply HQ.
Qed.

(** ** Looking up both names *)

Section rename.
Context (strlen : path -> Z) (s : fs_state) (refs : Z -> Z) (OK : fs_ok s refs) (RD : ready s).

Let h := heap s.
Let r := root s.

Context (qf qt : list path) (nf nt : path) (a b : Z) (ya yb : dentry).
Context (Ha : resolve h r qf = Some a) (Hya : h !! a = Some ya).
Context (Hb : resolve h r qt = Some b) (Hyb : h !! b = Some yb).
Context (Hnf : strlen nf <= LTFS_FILENAME_MAX) (Hnt : strlen nt <= LTFS_FILENAME_MAX).

Lemma rn_tree : tree_ok h r. Proof. apply OK. Qed.

Lemma rn_handles : handles_ok h r.
Proof. destruct OK as [[_ C _ _] _]. by eapply counts_handles; [|apply RD]. Qed.

Lemma rn_mem : mem s = []. Proof. apply RD. Qed.

Lemma rn_child_live d n c : child h d n = Some c -> exists x, h !! c = Some x /\ parent x = Some d.
Proof. intros H. by apply (child_parent _ _ rn_tree) in H. Qed.

Lemma rn_child_ne d n c : child h d n = Some c -> c <> d.
Proof.
  intros H. pose proof (child_parent _ _ rn_tree _ _ _ H) as Hp. intros ->. 
  apply (no_cycle _ _ rn_tree d), tc_once, Hp.
Qed.

Lemma rn_linked_a : linked r a ya. Proof. apply linkedb_spec. by eapply resolve_linked; [apply rn_tree|..]. Qed.
Lemma rn_linked_b : linked r b yb. Proof. apply linkedb_spec. by eapply resolve_linked; [apply rn_tree|..]. Qed.

(** The handle of an optional dentry. *)
Abbreviation opt_l o := (match o with Some t => [t] | None => [] end).

Lemma wp_dir_lookup L l d y n Q :
  zlength l <= 8 -> h !! d = Some y -> strlen n <= LTFS_FILENAME_MAX ->
  (forall c, child h d n = Some c -> L !! meta_lock c = None) ->
  Q (0, child h d n) (st s (hold (opt_l (child h d n) ++ l) h) L) ->
  wp (fs_directory_lookup strlen d n) (st s (hold l h) L) Q.
Proof.
  intros Hl Hy Hn HL HQ. eapply wp_directory_lookup; [apply rn_mem|by eapply hold_lookup, Hy; [apply rn_handles|]| |].
  - intros c. rewrite hold_child. intros Hc. split; [|by apply HL]. apply hold_live.
    destruct (rn_child_live _ _ _ Hc) as (x & Hx & _). eauto.
  - rewrite short_not_too_long by done. rewrite hold_child. by destruct (child h d n).
Qed.

Lemma wp_release_unless L l l' d e x Q :
  zlength l <= 8 -> Permutation l (d :: l') -> h !! d = Some x -> linked r d x ->
  (d <> e -> L !! meta_lock d = None) ->
  Q tt (st s (hold l' h) L) -> wp (release_unless d e) (st s (hold l h) L) Q.
Proof.
  intros Hl HP Hx Hlk HL HQ. unfold release_unless. destruct (Z.eqb_spec d e) as [->|Hde].
  - eapply wp_assign; [by eapply hold_lookup, Hx; [apply rn_handles|]|].
    rewrite (hold_perm _ _ _ HP). change (alter _ e (hold (e :: l') h)) with (unref_h e (hold (e :: l') h)).
    rewrite (unref_hold _ r); [done|apply rn_handles|]. apply Permutation_length in HP. unfold zlength in *. cbn in HP. lia.
  - eapply wp_release_hold; [apply rn_handles|try done; auto..].
Qed.

Lemma wp_above L l d1 d2 Q :
  is_Some (h !! d2) ->
  (forall v : bool, (v = true <-> rtc (parent_of h) d1 d2) -> Q v (st s (hold l h) L)) ->
  wp (if d1 =? d2 then fret true else fs_is_predecessor d1 d2) (st s (hold l h) L) Q.
Proof.
  intros Hd HQ. destruct (Z.eqb_spec d1 d2) as [->|Hne].
  - wp_step. by apply HQ.
  - eapply (wp_is_predecessor s strlen); [apply hold_tree, rn_tree|by apply hold_live|].
    intros v Hv. apply HQ. by rewrite Hv, hold_ancestor.
Qed.

Lemma wp_lock_second h' Q :
  Q tt (st s h' (lock2 a b rename_held)) ->
  wp (fwhen (negb (a =? b)) (lock_dir a)) (st s h' (<[meta_lock b := Wr]> (<[contents_lock b := Wr]> rename_held))) Q.
Proof.
  intros HQ. destruct (Z.eqb_spec a b) as [E|Hne]; cbn [negb fwhen].
  - wp_step. by rewrite E, lock2_same in HQ.
  - apply wp_lock_dir; [map_side|map_side|done].
Qed.

Lemma wp_rename_lookup Q :
  match child h a nf with
  | None => Q (- LTFS_NO_DENTRY, None, None) (st s (hold [b; a] h) (lock2 a b rename_held))
  | Some f => Q (0, Some f, child h b nt) (st s (hold (f :: opt_l (child h b nt) ++ [b; a]) h) (lock2 a b rename_held))
  end ->
  wp (rename_lookup strlen a b nf nt) (st s (hold [b; a] h) rename_held) Q.
Proof.
  intros HQ. pose proof rn_tree as T. unfold rename_lookup. wp_step.
  apply wp_above; [eauto|]. intros [] Hv.
  - (* b above a *)
    assert (rtc (parent_of h) b a) as Hba by tauto.
    wp_step. apply wp_lock_dir; [map_side|map_side|]. wp_step.
    eapply (wp_dir_lookup _ _ b yb nt); [done..| |].
    { intros c Hc. apply rn_child_ne in Hc. map_side. }
    cbn beta iota. wp_step.
    apply wp_lock_second. cbn [Z.ltb Z.compare]. wp_step.
    eapply (wp_dir_lookup _ _ a ya nf); [destruct (child h b nt); done|done|done| |].
    { intros f Hf. rewrite lock2_meta; [map_side|by eapply rn_child_ne|].
      intros ->. apply (no_cycle _ _ T a). eapply tc_rtc_r; [|exact Hba]. apply tc_once. by eapply child_parent. }
    cbn beta iota. cbn [Z.ltb Z.compare]. destruct (child h a nf) as [f|] eqn:Hf; [by wp_step|].
    wp_step. destruct (child h b nt) as [t|] eqn:Ht; [|do 2 wp_step; done].
    destruct (rn_child_live _ _ _ Ht) as (x & Hx & Hp).
    eapply (wp_release_unless _ _ [b; a] t a x); [done..|by left; rewrite Hp| |by wp_step].
    intros Hta. rewrite lock2_meta; [map_side|done|by eapply rn_child_ne].
  - assert (~ rtc (parent_of h) b a) as Hba by (rewrite <- Hv; done).
    assert (b <> a) as Hne by (intros E; apply Hba; by rewrite E).
    wp_step. apply wp_lock_dir; [map_side|map_side|]. wp_step.
    eapply (wp_dir_lookup _ _ a ya nf); [done..| |].
    { intros c Hc. apply rn_child_ne in Hc. map_side. }
    cbn beta iota. wp_step. apply wp_lock_dir; [map_side|map_side|].
    change (<[meta_lock b := Wr]> (<[contents_lock b := Wr]> (<[meta_lock a := Wr]> (<[contents_lock a := Wr]> rename_held))))
      with (lock2 b a rename_held). rewrite (lock2_comm b a).
    cbn [Z.ltb Z.compare]. destruct (child h a nf) as [f|] eqn:Hf; [|by wp_step]. wp_step.
    eapply (wp_dir_lookup _ _ b yb nt); [done..| |].
    { intros t Ht. rewrite lock2_meta; [map_side| |by eapply rn_child_ne].
      intros ->. apply Hba, rtc_once. by eapply child_parent. }
    cbn beta iota. cbn [Z.ltb Z.compare]. wp_step.
    rewrite (hold_perm _ (f :: opt_l (child h b nt) ++ [b; a])); [done|].
    cbn. rewrite Permutation_middle. done.
Qed.

(** The old name does not exist. *)
Lemma wp_rename_in_dirs_none fn tn Q :
  child h a nf = None -> Q (- LTFS_NO_DENTRY, (0, 0)) (st s h ∅) ->
  wp (rename_in_dirs strlen a b fn tn nf nt) (st s (hold [b; a] h) rename_held) Q.
Proof.
  intros Hn HQ. unfold rename_in_dirs. wp_step. apply wp_rename_lookup. rewrite Hn.
  change (- LTFS_NO_DENTRY <? 0) with true. cbv iota.
  eapply (wp_rename_dirs_out s h r []); [apply rn_handles|done|done|apply rn_linked_a|done|apply rn_linked_b|]. by wp_go.
Qed.

(** ** The source exists *)

Context (f : Z) (xf : dentry) (Hcf : child h a nf = Some f) (Hxf : h !! f = Some xf).

Lemma rn_resolve_f : resolve h r (qf ++ [nf]) = Some f.
Proof. by rewrite resolve_snoc, Ha. Qed.

Lemma rn_parent_f : parent xf = Some a.
Proof. destruct (rn_child_live _ _ _ Hcf) as (x & Hx & Hp). congruence. Qed.

Lemma rn_loop : rtc (parent_of h) f b <-> through qf nf qt.
Proof. apply (ancestor_prefix _ r); [apply rn_tree|apply rn_resolve_f|done]. Qed.

Lemma rn_f_free L : ~ rtc (parent_of h) f b -> lock2 a b L !! meta_lock f = L !! meta_lock f.
Proof.
  intros H. apply lock2_meta; [by eapply rn_child_ne|]. intros E. apply H. by rewrite E.
Qed.

Section target.
Context (t : Z) (xt : dentry) (Hct : child h b nt = Some t) (Hxt : h !! t = Some xt).

Lemma rn_resolve_t : resolve h r (qt ++ [nt]) = Some t.
Proof. by rewrite resolve_snoc, Hb. Qed.

Lemma rn_parent_t : parent xt = Some b.
Proof. destruct (rn_child_live _ _ _ Hct) as (x & Hx & Hp). congruence. Qed.

Lemma rn_above : rtc (parent_of h) t a <-> through qt nt qf.
Proof. apply (ancestor_prefix _ r); [apply rn_tree|apply rn_resolve_t|done]. Qed.

Lemma rn_t_free L : ~ rtc (parent_of h) t a -> lock2 a b L !! meta_lock t = L !! meta_lock t.
Proof.
  intros H. apply lock2_meta; [|by eapply rn_child_ne]. intros E. apply H. by rewrite E.
Qed.

Lemma rn_same : t = f <-> qf ++ [nf] = qt ++ [nt].
Proof.
  split.
  - intros E. eapply (resolve_inj _ _ rn_tree); [apply rn_resolve_f|]. rewrite <- E. apply rn_resolve_t.
  - intros E. pose proof rn_resolve_t as H. rewrite <- E, rn_resolve_f in H. congruence.
Qed.

Lemma wp_rename_check_target Q :
  (worm xf = true -> through qf nf qt \/ through qt nt qf) ->
  (let code := rename_check_code qf qt nf nt xf (Some xt) in
   Q code (st s (hold (if code <? 0 then [b; a] else [f; t; b; a]) h) (lock2 a b rename_held))) ->
  wp (rename_check a b f (Some t)) (st s (hold [f; t; b; a] h) (lock2 a b rename_held)) Q.
Proof.
  intros Hw HQ. pose proof rn_parent_f as Hpf. pose proof rn_parent_t as Hpt.
  assert (linked r f xf) as Hlf by (left; by rewrite Hpf). assert (linked r t xt) as Hlt by (left; by rewrite Hpt).
  assert (Hout : forall c, c < 0 -> Q c (st s (hold [b; a] h) (lock2 a b rename_held)) ->
    wp (release_unless f b;;; release_unless t a;;; fret c) (st s (hold [f; t; b; a] h) (lock2 a b rename_held)) Q).
  { intros c Hc HQ'. wp_step. eapply (wp_release_unless _ _ [t; b; a] f b xf); [done..| |].
    { intros. rewrite lock2_meta; [map_side|by eapply rn_child_ne|done]. }
    wp_step. eapply (wp_release_unless _ _ [b; a] t a xt); [done..| |by wp_step].
    intros. rewrite lock2_meta; [map_side|done|by eapply rn_child_ne]. }
  unfold rename_check. wp_step. apply wp_above; [eauto|]. intros v Hv. wp_step.
  eapply wp_deref; [by apply (hold_lookup h r rn_handles)|]. wp_step.
  unfold rename_check_code in HQ. rewrite rn_loop in Hv.
  destruct v; [rewrite decide_True in HQ by tauto; wp_step; cbn [Z.ltb Z.compare] in *; by apply Hout|].
  rewrite decide_False in HQ by (rewrite <- Hv; done). wp_step. apply wp_above; [eauto|]. intros w Hw'.
  rewrite rn_above in Hw'. wp_step.
  match goal with |- context [isdir ?x] => change (isdir x) with (isdir xf) end.
  destruct w; [rewrite decide_True in HQ by tauto; destruct (isdir xf); cbn [Z.ltb Z.compare] in *; by apply Hout|].
  assert (~ through qf nf qt) as Nf by (rewrite <- Hv; done).
  assert (~ through qt nt qf) as Nt by (rewrite <- Hw'; done).
  rewrite decide_False in HQ by done. cbn [Z.ltb Z.compare].
  match goal with |- wp (if is_immutable ?x || _ then _ else _) _ _ =>
    change (is_immutable x || is_appendonly x) with (worm xf) end. destruct (worm xf); [by destruct Hw|].
  cbn [orb] in HQ. wp_step. eapply wp_deref; [by apply (hold_lookup h r rn_handles)|].
  match goal with |- wp (if is_immutable ?x || _ then _ else _) _ _ =>
    change (is_immutable x || is_appendonly x) with (worm xt) end. destruct (worm xt); [|by wp_step].
  cbn [Z.ltb Z.compare] in HQ. wp_step.
  eapply (wp_release_hold h r rn_handles s _ f _ [t; b; a]); [done..|rewrite rn_f_free by (by rewrite rn_loop); map_side|].
  wp_step.
  eapply (wp_release_hold h r rn_handles s _ t _ [b; a]); [done..|rewrite rn_t_free by (by rewrite rn_above); map_side|].
  by wp_step.
Qed.

(** ** The object that has the new name *)

(** When it is not the source: refused, or taken out of the tree. *)
Context (Htf : t <> f) (Nloop : ~ rtc (parent_of h) f b) (Nabove : ~ rtc (parent_of h) t a).

Lemma wp_rename_nonempty p Q :
  isdir xt && negb (zlength (child_list xt) =? 0) = true ->
  Q (Some (- LTFS_DIRNOTEMPTY)) (st s (hold [b; a] h) (lock2 a b rename_held)) ->
  wp (rename_replace b f t p) (st s (hold [f; t; b; a] h) (lock2 a b rename_held)) Q.
Proof.
  intros He HQ. apply andb_true_iff in He as [Hd He]. apply negb_true_iff in He.
  pose proof rn_parent_f as Hpf. pose proof rn_parent_t as Hpt.
  pose proof (hold_lookup h r rn_handles [f; t; b; a] t xt ltac:(done) Hxt) as Hx.
  assert (lock2 a b rename_held !! contents_lock t = None) as Hc.
  { rewrite lock2_contents; [map_side| |by eapply rn_child_ne]. intros E. apply Nabove. by rewrite E. }
  set (xt' := xt <| numhandles := _ |>) in Hx.
  unfold rename_replace. wp_step. wp_step. change (isdir xt') with (isdir xt). rewrite Hd. wp_go. lock_simpl.
  change (child_list xt') with (child_list xt). rewrite He. change (- LTFS_DIRNOTEMPTY <? 0) with true. cbv iota. wp_step.
  eapply (wp_release_hold h r rn_handles s _ f _ [t; b; a]); [done..|by left; rewrite Hpf|rewrite rn_f_free by done; map_side|].
  wp_step.
  eapply (wp_release_hold h r rn_handles s _ t _ [b; a]); [done..|by left; rewrite Hpt|rewrite rn_t_free by done; map_side|].
  by wp_step.
Qed.

Let ht := removed b nt t xt refs h.

(** The heap when the handle of the removed object is given back. *)
Lemma rn_removed_release h1 :
  heq h1 (cut b nt t (dir_n xt) (hold [f; t; b; a] h)) ->
  heq (if (refs t =? 0) && negb (out_of_sync xt) then delete t h1 else unref_h t h1) (hold [f; b; a] ht).
Proof.
  intros H1. assert (t <> b) as Htb by by eapply rn_child_ne.
  assert (t <> a) as Hta by (intros E; apply Nabove; by rewrite E).
  assert (t ∉ [f; b; a]) as Hnot.
  { repeat (apply not_elem_of_cons; split; [done|]). apply not_elem_of_nil. }
  assert (H2 : heq h1 (ref_h t (hold [f; b; a] (cut b nt t (dir_n xt) h)))).
  { rewrite H1, (hold_perm _ [t; f; b; a]) by (constructor; constructor || apply perm_swap).
    apply (hold_cut [t; f; b; a]). }
  unfold ht, removed. destruct (_ && _).
  - rewrite hold_delete by done. transitivity (delete t (ref_h t (hold [f; b; a] (cut b nt t (dir_n xt) h)))).
    + by apply heq_delete.
    + by rewrite delete_alter_eq.
  - transitivity (unref_h t (ref_h t (hold [f; b; a] (cut b nt t (dir_n xt) h)))); [by apply unref_heq|].
    rewrite unref_ref_at; [done|]. intros z Hz. unfold cut, detach in Hz. cbn [hold] in Hz.
    do 3 rewrite lookup_alter_ne in Hz by congruence. rewrite !lookup_alter_eq, lookup_alter_ne, Hxt in Hz by congruence.
    injection Hz as <-. cbn. unfold in_u32, u32. by apply Z.mod_pos_bound.
Qed.

Lemma wp_rename_replaced p Q :
  isdir xt && negb (zlength (child_list xt) =? 0) = false ->
  (forall s' h', root s' = root s -> mem s' = [] -> next_address s' = next_address s -> uid_number s' = uid_number s ->
     file_count s' = (if isdir xt then file_count s else u64 (file_count s - 1)) ->
     heq h' (hold [f; b; a] ht) -> Q None (st s' h' (lock2 a b rename_held))) ->
  wp (rename_replace b f t p) (st s (hold [f; t; b; a] h) (lock2 a b rename_held)) Q.
Proof.
  intros He HQ. pose proof rn_mem as Hm. pose proof OK as [[T C O F] _]. pose proof RD as [_ _ HR _ _].
  assert (t <> b) as Htb by by eapply rn_child_ne.
  assert (t <> a) as Hta by (intros E; apply Nabove; by rewrite E).
  pose proof rn_parent_t as Hpt.
  pose proof (hold_lookup h r rn_handles [f; t; b; a] t xt ltac:(done) Hxt) as Hx.
  pose proof (hold_lookup h r rn_handles [f; t; b; a] b yb ltac:(done) Hyb) as Hy.
  assert (lock2 a b rename_held !! contents_lock t = None) as Hc.
  { rewrite lock2_contents by done. map_side. }
  assert (lock2 a b rename_held !! meta_lock t = None) as Hmt.
  { rewrite lock2_meta by done. map_side. }
  set (xt' := xt <| numhandles := _ |>) in Hx. set (yb' := yb <| numhandles := _ |>) in Hy.
  set (H0 := hold [f; t; b; a] h) in *. set (L := lock2 a b rename_held) in *.
  assert (L !! dirty_lock = None) as Hdl by (unfold L, lock2; map_side).
  assert (platform_safe_name xt = Some nt) as Hpsn.
  { apply (child_iff _ _ rn_tree) in Hct as (z & Hz & _ & ?). congruence. }
  unfold rename_replace. wp_step. wp_step. wp_step. change (isdir xt') with (isdir xt).
  match goal with |- wp ?c _ ?P => assert (Hc0 : P 0 (st s H0 L) -> wp c (st s H0 L) P) end.
  { intros HP. destruct (isdir xt); [|by wp_step]. wp_go. lock_simpl. change (child_list xt') with (child_list xt).
    cbn [andb] in He. apply negb_false_iff in He. by rewrite He. }
  apply Hc0. clear Hc0. cbn [Z.ltb Z.compare]. wp_step. wp_step. wp_step.
  assert (exists e, hash_find nt (child_list yb) = Some e /\ nl_name e = nt) as (e & He1 & He2).
  { pose proof Hct as Hct'. unfold child in Hct'. rewrite Hyb in Hct'. cbn in Hct'.
    apply bind_Some in Hct' as (e & He' & _).
    exists e. split; [done|]. by destruct (hash_find_some _ _ _ He'). }
  assert (Hin : in_u32 (link_count yb)) by exact (link_in_u32 _ _ _ _ _ C HR Hyb).
  assert (Hcount : count t [f; t; b; a] = 1).
  { rewrite !count_cons, bool_decide_false, bool_decide_true, !bool_decide_false by congruence. done. }
  assert (Hrest : forall s1 H1, root s1 = root s -> mem s1 = [] -> next_address s1 = next_address s -> uid_number s1 = uid_number s ->
    file_count s1 = (if isdir xt then file_count s else u64 (file_count s - 1)) ->
    heq H1 (cut b nt t (dir_n xt) H0) ->
    wp (ltfs_mutex_lock dirty_lock;;; journal_remove p t;;; ltfs_mutex_unlock dirty_lock;;;
        fs_release_dentry_unlocked t;;; fret None) (st s1 H1 (<[meta_lock t := Wr]> L)) Q).
  { intros s1 H1 R1 M1 N1 U1 F1 E1.
    destruct (heq_some (cut b nt t (dir_n xt) H0) H1 t (mark_deleted (cut_link xt'))) as (z & Hz & Ez);
      [by symmetry|unfold cut, detach; look; by rewrite Hx|].
    injection Ez as Ep _ _ _ _ _ Ec En _ Eo _ _. wp_go. eapply wp_journal_remove; [done..|]. intro_frame. wp_go. lock_simpl.
    destruct (C t xt Hxt) as (C1 & C2 & _), (HR t xt Hxt) as [Rn _]. unfold linkedb in C1. rewrite Hpt in C1. cbn in C1.
    eapply (wp_release_removed _ _ _ t z (refs t)); [done|map_side|map_side|done| | |lia|].
    { rewrite <- Ec. cbn. destruct (isdir xt) eqn:Ei; [|by eapply file_no_children].
      cbn [andb] in He. apply negb_false_iff, Z.eqb_eq in He. destruct (child_list xt) as [|c l]; [done|].
      rewrite zlength_cons in He. pose proof (zlength_nonneg l). lia. }
    { rewrite <- En. unfold xt'. cbn. rewrite Hcount, u32_small; lia. }
    rewrite <- Eo. wp_go. lock_simpl. destruct H as (R2 & M2 & F2 & N2 & U2).
    apply HQ; [congruence..|]. by apply rn_removed_release. }
  assert (Hheq : forall H1 x y, H1 !! t = Some x -> H1 !! b = Some y ->
    dcore x = dcore (mark_deleted (cut_link xt')) -> dcore y = dcore (cut_child nt (dir_n xt) yb') ->
    (forall e, e <> t -> e <> b -> H1 !! e = H0 !! e) -> heq H1 (cut b nt t (dir_n xt) H0)).
  { intros H1 x y Hx1 Hy1 Ex Ey Hoth k. unfold cut, detach.
    destruct (decide (k = t)) as [->|]; [|destruct (decide (k = b)) as [->|]]; look.
    - rewrite Hx1, Hx. cbn [fmap option_fmap option_map]. by rewrite Ex.
    - rewrite Hy1, Hy. cbn [fmap option_fmap option_map]. by rewrite Ey.
    - by rewrite Hoth. }
  destruct (isdir xt) eqn:Ei; cbn [fwhen negb]; wp_go; change (platform_safe_name xt') with (platform_safe_name xt);
    rewrite Hpsn; wp_go; (apply wp_find_key; [done|]).
  all: match goal with |- context [hash_find nt (child_list ?z)] => change (child_list z) with (child_list yb) end.
  all: rewrite He1; cbn beta iota; do 3 wp_step; first [wp_step|apply wp_locked; [map_side|by intros []|]]; cbn beta.
  all: (apply Hrest; [done..|]; eapply Hheq; [map_side|map_side| | |intros; by look]).
  all: unfold dcore; cbn; rewrite ?He2; try done.
  all: unfold dir_n; rewrite Ei; try done. by rewrite Z.sub_0_r, u32_small.
Qed.
End target.

Lemma wp_rename_check_none Q :
  (let code := rename_check_code qf qt nf nt xf None in
   Q code (st s (hold (if code <? 0 then [b; a] else [f; b; a]) h) (lock2 a b rename_held))) ->
  wp (rename_check a b f None) (st s (hold [f; b; a] h) (lock2 a b rename_held)) Q.
Proof.
  intros HQ. pose proof rn_parent_f as Hpf. assert (linked r f xf) as Hlf by (left; by rewrite Hpf).
  unfold rename_check. wp_step. apply wp_above; [eauto|]. intros v Hv. wp_step.
  eapply wp_deref; [by apply (hold_lookup h r rn_handles)|]. wp_step.
  unfold rename_check_code in HQ. rewrite rn_loop in Hv. destruct v.
  - rewrite decide_True in HQ by tauto. wp_step. cbn [Z.ltb Z.compare] in *.
    change (- LTFS_RENAMELOOP <? 0) with true in *. cbv iota in *. wp_step.
    eapply (wp_release_unless _ _ [b; a] f b xf); [done..| |by do 2 wp_step].
    intros. rewrite lock2_meta; [map_side|by eapply rn_child_ne|done].
  - assert (~ through qf nf qt) as Nf by (rewrite <- Hv; done). rewrite decide_False in HQ by done. wp_step.
    cbn [Z.ltb Z.compare]. match goal with |- wp (if is_immutable ?x || _ then _ else _) _ _ =>
      change (is_immutable x || is_appendonly x) with (worm xf) end.
    destruct (worm xf); [|by wp_step]. change (- LTFS_WORM_ENABLED <? 0) with true in HQ. wp_step.
    eapply (wp_release_hold h r rn_handles s _ f _ [b; a]); [done..|rewrite rn_f_free by (by rewrite rn_loop); map_side|].
    by wp_step.
Qed.

(** What has the new name, when it exists. *)
Definition target : option dentry := t ← child h b nt; h !! t.

(** A write-once source is only refused cleanly when the new name is free. *)
Context (Hworm : worm xf = true -> target <> None -> through qf nf qt \/ through qt nt qf).

Lemma wp_rename_in_dirs_refused fn Q :
  rename_refusal qf qt nf nt xf target < 0 ->
  (forall id, Q (rename_refusal qf qt nf nt xf target, id) (st s h ∅)) ->
  wp (rename_in_dirs strlen a b fn (slashed (qt ++ [nt])) nf nt) (st s (hold [b; a] h) rename_held) Q.
Proof.
  intros Href HQ. unfold rename_in_dirs. wp_step. apply wp_rename_lookup. rewrite Hcf. cbn [Z.ltb Z.compare].
  do 2 wp_step. wp_step.
  assert (Hout : forall ret, ret < 0 -> (forall id, Q (ret, id) (st s h ∅)) ->
    wp (rename_out_unlock ret a b (Some f)) (st s (hold [b; a] h) (lock2 a b rename_held)) Q).
  { intros ret Hret HQ'. eapply (wp_rename_refused s h r a b ya yb); [apply rn_handles|done|apply rn_linked_a|done|apply rn_linked_b|done| |done].
    intros ? [= <-]. eauto. }
  unfold rename_refusal, target in *. destruct (child h b nt) as [t|] eqn:Hct.
  - destruct (rn_child_live _ _ _ Hct) as (xt & Hxt & Hpt). cbn [mbind option_bind] in *. rewrite Hxt in *.
    apply (wp_rename_check_target t xt Hct Hxt); [intros Hw; by apply Hworm|]. cbn zeta.
    destruct (Z.ltb_spec (rename_check_code qf qt nf nt xf (Some xt)) 0) as [Hneg|Hpos]; [by apply Hout|].
    destruct (bool_decide_reflect (qf ++ [nf] <> qt ++ [nt])) as [Hne|]; [|cbn in Href; lia]. cbn [andb] in *.
    destruct (isdir xt && negb (zlength (child_list xt) =? 0)) eqn:Hfull; [|lia].
    assert (t <> f) as Htf by (rewrite (rn_same t Hct); auto).
    replace (t =? f) with false by lia. wp_step.
    assert (~ through qf nf qt /\ ~ through qt nt qf) as [N1 N2].
    { unfold rename_check_code in Hpos. destruct (decide (through qf nf qt)); [by destruct (Hpos eq_refl)|].
      split; [done|]. destruct (decide (through qt nt qf)); [|done]. by destruct (isdir xf); destruct (Hpos eq_refl). }
    apply (wp_rename_nonempty t xt); [done..|by rewrite rn_loop|by rewrite (rn_above t)|done|]. by apply Hout.
  - cbn [mbind option_bind] in *. apply wp_rename_check_none. cbn zeta.
    destruct (Z.ltb_spec (rename_check_code qf qt nf nt xf None) 0) as [Hneg|Hpos]; [by apply Hout|lia].
Qed.

(** ** The rename is carried out *)

Context (Hgo : rename_refusal qf qt nf nt xf target = 0) (Hdir : isdir yb = true) (Hname : file_name nt).

(** The heap without the object that had the new name. *)
Definition replaced : gmap Z dentry :=
  match child h b nt with
  | Some t => if t =? f then h
              else match h !! t with Some xt => removed b nt t xt refs h | None => h end
  | None => h
  end.

Lemma rn_code : rename_check_code qf qt nf nt xf target = 0 /\ ~ through qf nf qt /\
  (target <> None -> ~ through qt nt qf).
Proof.
  unfold rename_refusal in Hgo. destruct (Z.ltb_spec (rename_check_code qf qt nf nt xf target) 0) as [|Hpos]; [lia|].
  unfold rename_check_code in *. destruct (decide (through qf nf qt)); [by destruct (Hpos eq_refl)|].
  destruct target as [xt|]; [|by destruct (worm xf); [destruct (Hpos eq_refl)|]].
  destruct (decide (through qt nt qf)); [by destruct (isdir xf); destruct (Hpos eq_refl)|].
  by destruct (worm xf || worm xt); [destruct (Hpos eq_refl)|].
Qed.

Lemma rn_not_loop : ~ rtc (parent_of h) f b.
Proof. rewrite rn_loop. apply rn_code. Qed.

Section go_target.
Context (t : Z) (xt : dentry) (Hct : child h b nt = Some t) (Hxt : h !! t = Some xt).

Lemma go_target : target = Some xt.
Proof. unfold target. by rewrite Hct. Qed.

Lemma go_above : ~ rtc (parent_of h) t a.
Proof. rewrite (rn_above t) by done. apply rn_code. by rewrite go_target. Qed.

Lemma go_empty : t <> f -> isdir xt && negb (zlength (child_list xt) =? 0) = false.
Proof.
  intros Htf. pose proof Hgo as G. unfold rename_refusal in G. rewrite go_target in G. destruct rn_code as [E _].
  rewrite go_target in E. rewrite E in G. cbn [Z.ltb Z.compare] in G.
  rewrite bool_decide_true in G by (rewrite <- (rn_same t); auto). cbn [andb] in G. by destruct (isdir xt && _).
Qed.

Lemma go_leaf : t <> f -> child_list xt = [].
Proof.
  intros Htf. pose proof (go_empty Htf) as He. destruct (isdir xt) eqn:Ei; [|eapply file_no_children; [apply rn_tree|done..]].
  cbn [andb] in He. apply negb_false_iff, Z.eqb_eq in He. destruct (child_list xt) as [|c l]; [done|].
  rewrite zlength_cons in He. pose proof (zlength_nonneg l). lia.
Qed.

Lemma go_ne : t <> f -> t <> a /\ t <> b.
Proof. intros _. split; [intros E; apply go_above; by rewrite E|by eapply rn_child_ne]. Qed.

Lemma go_psn : platform_safe_name xt = Some nt /\ parent xt = Some b.
Proof. apply (child_iff _ _ rn_tree) in Hct as (z & Hz & ? & ?). split; congruence. Qed.
End go_target.

(** What the later steps need of the heap without that object. *)
Lemma replaced_facts :
  heap_ok replaced r refs (next_address s) /\ room replaced /\
  (exists ya1, replaced !! a = Some ya1 /\ linkedb r a ya1 = true) /\
  (exists yb1, replaced !! b = Some yb1 /\ linkedb r b yb1 = true /\ isdir yb1 = true) /\
  replaced !! f = Some xf /\ (forall x y, parent_of replaced x y -> parent_of h x y) /\
  (child replaced b nt = None \/ child replaced b nt = Some f).
Proof.
  pose proof OK as [HOK _]. pose proof rn_linked_a as La. pose proof rn_linked_b as Lb. apply linkedb_spec in La, Lb.
  pose proof (rd_room _ RD) as HR.
  unfold replaced. destruct (child h b nt) as [t|] eqn:Hct; [|split_and!; eauto].
  destruct (Z.eqb_spec t f) as [->|Htf]; [split_and!; eauto|].
  destruct (rn_child_live _ _ _ Hct) as (xt & Hxt & _). rewrite Hxt.
  destruct (go_psn t xt Hct Hxt) as [Hn Hp]. destruct (go_ne t xt Hct Hxt Htf) as [Hta Htb].
  pose proof (go_leaf t xt Hct Hxt Htf) as Hleaf.
  assert (Hlook : forall e, e <> t -> removed b nt t xt refs h !! e = alter (cut_child nt (dir_n xt)) b h !! e).
  { intros e He. unfold removed, cut, detach. destruct (_ && _); by look. }
  split_and!.
  - by apply removed_ok.
  - eapply room_removed; [apply HOK|apply HOK|done..].
  - rewrite Hlook by congruence. destruct (decide (a = b)) as [E|]; [|rewrite lookup_alter_ne by congruence; eauto].
    rewrite E, lookup_alter_eq, Hyb in *. by eexists.
  - rewrite Hlook, lookup_alter_eq, Hyb by congruence. by eexists.
  - rewrite Hlook, lookup_alter_ne; [done| |congruence]. intros E. apply rn_not_loop. by rewrite E.
  - intros x y (z & Hz & Hpz). assert (y <> t) as Hyt.
    { intros ->. unfold removed, cut, detach in Hz. destruct (_ && _); [by rewrite lookup_delete_eq in Hz|].
      rewrite !lookup_alter_eq, lookup_alter_ne, Hxt in Hz by congruence. injection Hz as <-. done. }
    rewrite Hlook in Hz by done. destruct (decide (y = b)) as [->|]; [|rewrite lookup_alter_ne in Hz by done; by exists z].
    rewrite lookup_alter_eq, Hyb in Hz. injection Hz as <-. by exists yb.
  - left. pose proof (removed_resolve h r refs _ HOK t b xt nt Hxt Hp Hn Hleaf qt (qt ++ [nt]) Hb) as E.
    rewrite decide_True in E by (exists []; by rewrite app_nil_r). rewrite resolve_snoc in E.
    rewrite (removed_resolve h r refs _ HOK t b xt nt Hxt Hp Hn Hleaf qt qt Hb) in E. rewrite decide_False in E; [by rewrite Hb in E|].
    intros Hl%prefix_length. rewrite length_app in Hl. cbn in Hl. lia.
Qed.

(** Paths that do not go through the new name are as before. *)
Lemma replaced_resolve q : ~ through qt nt q \/ (exists q', q = qf ++ nf :: q') -> resolve replaced r q = resolve h r q.
Proof.
  intros Hq. unfold replaced. destruct (child h b nt) as [t|] eqn:Hct; [|done].
  destruct (Z.eqb_spec t f) as [->|Htf]; [done|]. destruct (rn_child_live _ _ _ Hct) as (xt & Hxt & _). rewrite Hxt.
  destruct (go_psn t xt Hct Hxt) as [Hn Hp]. pose proof (go_leaf t xt Hct Hxt Htf) as Hleaf. pose proof OK as [HOK _].
  rewrite (removed_resolve h r refs _ HOK t b xt nt Hxt Hp Hn Hleaf qt q Hb). destruct (decide _) as [Hth|]; [|done].
  destruct Hq as [|[q' ->]]; [done|]. exfalso. unfold through in Hth.
  assert ((qf ++ [nf]) `prefix_of` (qf ++ nf :: q')) as Hth2 by (exists q'; by rewrite <- app_assoc).
  pose proof rn_not_loop as N1. rewrite rn_loop in N1. pose proof (go_above t xt Hct Hxt) as N2. rewrite (rn_above t) in N2 by done.
  pose proof (proj2 (rn_same t Hct)) as N3.
  destruct (prefix_weak_total _ _ _ Hth Hth2) as [H1|H1]; apply prefix_snoc_inv in H1 as [H1|H1]; auto.
Qed.

Lemma replaced_files :
  files replaced r = files h r - match target with
    | Some xt => if bool_decide (qf ++ [nf] = qt ++ [nt]) then 0 else 1 - dir_n xt
    | None => 0
    end.
Proof.
  unfold replaced, target. destruct (child h b nt) as [t|] eqn:Hct; cbn [mbind option_bind]; [|lia].
  destruct (rn_child_live _ _ _ Hct) as (xt & Hxt & _). rewrite Hxt. destruct (Z.eqb_spec t f) as [->|Htf].
  - rewrite bool_decide_true; [lia|]. by apply (rn_same f).
  - rewrite bool_decide_false by (rewrite <- (rn_same t); done). destruct (go_psn t xt Hct Hxt) as [Hn Hp]. pose proof OK as [HOK _].
    rewrite (removed_files h r refs _ HOK) by done. lia.
Qed.

Definition renamed : gmap Z dentry := moved replaced a b f xf nf nt.

Lemma rn_psn_f : platform_safe_name xf = Some nf.
Proof. apply (child_iff _ _ rn_tree) in Hcf as (z & Hz & _ & ?). congruence. Qed.

Lemma renamed_ok : heap_ok renamed r refs (next_address s) /\ files renamed r = files replaced r.
Proof.
  destruct replaced_facts as (HOK & HR & _ & (yb1 & Hyb1 & Hlb & Hd1) & Hf1 & Hpo & Hfree).
  pose proof rn_parent_f. pose proof rn_psn_f.
  assert (Nl : ~ rtc (parent_of replaced) f b).
  { intros Hc. apply rn_not_loop. eapply rtc_subrel; [|exact Hc]. exact Hpo. }
  unfold renamed. split; [by eapply moved_ok|by eapply moved_files].
Qed.

(** The paths: through the new name as they were through the old one; through
    the old one none; the others as they were. *)
Lemma renamed_resolve q :
  resolve renamed r q =
    if decide (through qt nt q) then resolve h r (qf ++ nf :: drop (S (length qt)) q)
    else if decide (through qf nf q) then None else resolve h r q.
Proof.
  destruct replaced_facts as (HOK & HR & _ & (yb1 & Hyb1 & Hlb & Hd1) & Hf1 & Hpo & Hfree).
  pose proof rn_parent_f. pose proof rn_psn_f. destruct rn_code as (_ & _ & Nt).
  assert (Nl : ~ rtc (parent_of replaced) f b).
  { intros Hc. apply rn_not_loop. eapply rtc_subrel; [|exact Hc]. exact Hpo. }
  assert (Hqt : resolve replaced r qt = Some b).
  { rewrite replaced_resolve; [done|]. left. intros Hl%prefix_length. rewrite length_app in Hl. cbn in Hl. lia. }
  assert (Hqf : resolve replaced r qf = Some a).
  { pose proof (replaced_resolve qf) as E. destruct (decide (target = None)) as [Ht|Ht]; [|rewrite E; [done|]; left; by apply Nt].
    unfold replaced. unfold target in Ht. destruct (child h b nt) as [t|] eqn:Hct; [|done].
    destruct (rn_child_live _ _ _ Hct) as (xt & Hxt & _). cbn in Ht. congruence. }
  unfold renamed. rewrite (moved_resolve replaced r (ok_tree _ _ _ _ HOK) a b f yb1 xf nf nt) with (qf := qf) (qt := qt) by done.
  destruct (decide (through qt nt q)); [apply replaced_resolve; right; eauto|].
  destruct (decide (through qf nf q)); [done|]. apply replaced_resolve. by left.
Qed.

(** Up to the move. *)
Lemma wp_rename_to_move fn tn Q :
  (forall s1 H1, root s1 = root s -> mem s1 = [] -> next_address s1 = next_address s -> uid_number s1 = uid_number s ->
     file_count s1 = files replaced r -> heq H1 (hold [f; b; a] replaced) ->
     wp (ret <- rename_move a b f fn tn nt;; rename_out_unlock ret a b (Some f))
        (st s1 H1 (lock2 a b rename_held)) Q) ->
  wp (rename_in_dirs strlen a b fn tn nf nt) (st s (hold [b; a] h) rename_held) Q.
Proof.
  intros HQ. unfold rename_in_dirs. wp_step. apply wp_rename_lookup. rewrite Hcf. cbn [Z.ltb Z.compare].
  do 2 wp_step. wp_step. destruct rn_code as (E & _ & Nt). pose proof OK as [HOK HF]. pose proof rn_mem as HM.
  pose proof replaced_files as Hfiles. destruct (child h b nt) as [t|] eqn:Hct.
  - destruct (rn_child_live _ _ _ Hct) as (xt & Hxt & Hp). pose proof (go_target t xt Hct Hxt) as Ht. rewrite Ht in E, Hfiles.
    apply (wp_rename_check_target t xt Hct Hxt).
    { intros Hw. apply Hworm; [done|]. by rewrite Ht. }
    cbn zeta. rewrite E. cbn [Z.ltb Z.compare]. wp_step. destruct (Z.eqb_spec t f) as [Htf|Htf].
    + assert (replaced = h) as Hrep by (unfold replaced; rewrite Hct, Htf; by rewrite Z.eqb_refl).
      wp_step. eapply (wp_release_hold h r rn_handles s _ t _ [f; b; a]); [done|apply perm_swap|done|by left; rewrite Hp| |].
      { rewrite (rn_t_free t Hct) by (by eapply go_above). map_side. }
      wp_step. rewrite Hrep in HQ. by apply HQ.
    + assert (replaced = removed b nt t xt refs h) as Hrep.
      { unfold replaced. rewrite Hct, Hxt. by replace (t =? f) with false by lia. }
      eapply (wp_rename_replaced t xt Hct Hxt); [done|by eapply go_above|by eapply go_empty|].
      intros s' h' R1 M1 N1 U1 F1 E1. rewrite Hrep in *. apply HQ; try done.
      rewrite bool_decide_false in Hfiles by (rewrite <- (rn_same t); done). rewrite F1, Hfiles.
      unfold dir_n. pose proof (files_delete h r t xt Hxt) as Hd. rewrite (is_file_linked _ _ _ b) in Hd by done. unfold dir_n in Hd.
      pose proof (files_nonneg (delete t h) r). pose proof (rd_files _ RD). assert (file_count s = files h r) as HF' by done.
      destruct (isdir xt); [lia|]. rewrite u64_small; lia.
  - assert (target = None) as Ht by (unfold target; by rewrite Hct). rewrite Ht in E, Hfiles.
    assert (replaced = h) as Hrep by (unfold replaced; by rewrite Hct).
    apply wp_rename_check_none. cbn zeta. rewrite E. cbn [Z.ltb Z.compare]. do 2 wp_step. rewrite Hrep in HQ. by apply HQ.
Qed.

Lemma wp_rename_in_dirs_done fn Q :
  (forall id s', heq (heap s') renamed -> root s' = root s -> locks s' = ∅ -> mem s' = [] ->
     next_address s' = next_address s -> uid_number s' = uid_number s -> file_count s' = files replaced r -> Q (0, id) s') ->
  wp (rename_in_dirs strlen a b fn (slashed (qt ++ [nt])) nf nt) (st s (hold [b; a] h) rename_held) Q.
Proof.
  intros HQ. apply wp_rename_to_move. intros s1 H1 R1 M1 N1 U1 F1 E1. wp_step.
  destruct replaced_facts as (HOK & HR & (ya1 & Hya1 & Hla) & (yb1 & Hyb1 & Hlb & Hd1) & Hf1 & Hpo & Hfree).
  pose proof HOK as [T C _ _]. pose proof (counts_handles _ _ _ C HR) as Hh. pose proof rn_parent_f as Hpf.
  pose proof rn_psn_f as Hpsn.
  assert (Nl : ~ rtc (parent_of replaced) f b).
  { intros Hc. apply rn_not_loop. eapply rtc_subrel; [|exact Hc]. exact Hpo. }
  eapply (wp_rename_move replaced r a b f ya1 yb1 xf nf nt s1); try done; try by eapply link_in_u32.
  intros s2 h2 (R2 & M2 & F2 & N2 & U2) E2.
  assert (Hhm : handles_ok (moved replaced a b f xf nf nt) r) by by eapply moved_handles.
  destruct (unhold _ _ [f; b; a] _ Hhm ltac:(done) E2) as (h3 & -> & E3). symmetry in E3.
  assert (Hlive : forall d y0, replaced !! d = Some y0 -> linkedb r d y0 = true ->
    exists y3, h3 !! d = Some y3 /\ linked r d y3).
  { intros d y0 Hy0 Hl0. destruct (move_ne _ _ T a b f xf Hf1 Hpf Nl) as (Hfa & Hfb & _).
    assert (exists ym, moved replaced a b f xf nf nt !! d = Some ym /\ linkedb r d ym = true) as (ym & Hym & Hlm).
    { unfold moved, attach, detach. rewrite !lookup_edit by done. rewrite Hy0. repeat case_decide; by eexists. }
    destruct (heq_some _ _ _ _ E3 Hym) as (y3 & Hy3 & [= Ep _ _ _ _ _ _ _ _ _ _ _]). exists y3. split; [done|].
    apply linkedb_spec. unfold linkedb in *. by rewrite <- Ep. }
  destruct (Hlive a ya1) as (ya3 & Hya3 & Hla3); [done..|]. destruct (Hlive b yb1) as (yb3 & Hyb3 & Hlb3); [done..|].
  destruct (Hlive f xf) as (xf3 & Hxf3 & Hlf3); [done|unfold linkedb; by rewrite Hpf|].
  rewrite (hold_perm [f; b; a] [b; a; f]) by (rewrite (Permutation_app_comm [f] [b; a]); done).
  eapply (wp_rename_finish s2 h3 r); try done; [by eapply handles_heq|].
  intros s3 (R3 & M3 & F3 & N3 & U3). apply HQ; cbn; try congruence. unfold renamed. by symmetry.
Qed.
End rename.

(** ** The whole operation *)

Section run.
Context (strlen : path -> Z) (pathname_format : path -> Z * path).
Context (s : fs_state) (refs : Z -> Z) (ck : vol_checks) (from to : path) (qf qt : list path) (nf nt : path).
Context (OK : fs_ok s refs) (RD : ready s) (CK : checks_pass ck).
Context (Hfrom : pathname_format from = (0, slashed (qf ++ [nf]))) (Hvf : valid_names strlen (qf ++ [nf])).
Context (Hto : pathname_format to = (0, slashed (qt ++ [nt]))) (Hvt : valid_names strlen (qt ++ [nt])).

Let run := ltfs_fsops_rename strlen pathname_format true ck from to.
Let h := heap s.
Let r := root s.

(** Up to the lookup of the two directories, neither of them write-once. *)
Lemma rename_start Q :
  match resolve h r qf, resolve h r qt with
  | Some a, Some b => forall ya yb, h !! a = Some ya -> h !! b = Some yb ->
      worm ya = false /\ worm yb = false /\
      wp (rename_in_dirs strlen a b (slashed (qf ++ [nf])) (slashed (qt ++ [nt])) nf nt) (st s (hold [b; a] h) rename_held) Q
  | _, _ => Q (- LTFS_NO_DENTRY, (0, 0)) (st s h ∅)
  end -> wp run (st s h (locks s)) Q.
Proof.
  intros HQ. destruct (valid_snoc _ _ _ Hvf) as (Hqf & Hnf & Hlf), (valid_snoc _ _ _ Hvt) as (Hqt & Hnt & Hlt).
  destruct OK as [[T C O F] _], RD as [HL HM HR _ _], CK as (K1 & K2 & K3).
  pose proof (counts_handles _ _ _ C HR) as Hh. rewrite HL. unfold run, ltfs_fsops_rename. cbn [negb].
  unfold readonly_refuses. replace (volume_readonly ck <? 0) with false by lia.
  replace (unit_ready ck <? 0) with false by lia. cbn [andb]. rewrite Hfrom, Hto.
  change (0 =? - LTFS_INVALID_PATH) with false. cbn [Z.ltb Z.compare]. rewrite !split_path_slashed by done. wp_go. cbn [orb]. wp_go. cbn [orb]. wp_go.
  apply wp_volume_lock; [lia|done|]. cbn [Z.ltb Z.compare]. wp_step. wp_step.
  assert (HN : no_dentry_locks rename_held) by (intros d; split; map_side).
  unfold rename_locked. wp_step. apply wp_lookup_names; [done..|]. fold h r. destruct (resolve h r qf) as [a|] eqn:Ha.
  2: { change (- LTFS_NO_DENTRY <? 0) with true. cbv iota. unfold rename_out_release. wp_go. lock_simpl. wp_go. lock_simpl. wp_go. exact HQ. }
  intros pa _. cbn [Z.ltb Z.compare]. wp_step. wp_step. wp_step.
  replace (lookup_heap 0 a pa h) with (hold [a] h) by (by destruct pa).
  replace (lookup_locks 0 a pa rename_held) with rename_held by (by destruct pa).
  assert (is_Some (h !! a)) as [ya Hya] by (by eapply resolve_live).
  assert (Hla : linked r a ya) by (apply linkedb_spec; by eapply resolve_linked).
  apply wp_lookup_names; [done|by apply hold_tree| |done..|].
  { by eapply hold_handles. }
  rewrite hold_resolve. fold r. destruct (resolve h r qt) as [b|] eqn:Hb.
  2: { change (- LTFS_NO_DENTRY <? 0) with true. cbv iota. unfold rename_out_release. wp_go.
       eapply (wp_release_hold_unlocked h r Hh s _ a _ []); [done..|map_side|]. wp_go. lock_simpl. wp_go. exact HQ. }
  intros pb _. cbn [Z.ltb Z.compare]. wp_step. wp_step. wp_step.
  replace (lookup_heap 0 b pb (hold [a] h)) with (hold [b; a] h) by (by destruct pb).
  replace (lookup_locks 0 b pb rename_held) with rename_held by (by destruct pb).
  assert (is_Some (h !! b)) as [yb Hyb] by (by eapply resolve_live).
  destruct (HQ ya yb) as (Wa & Wb & HQ'); [done..|]. unfold worm in *.
  apply orb_false_iff in Wa as [Wa1 Wa2], Wb as [Wb1 Wb2].
  eapply wp_deref; [by apply (hold_lookup h r Hh)|]. wp_step.
  eapply wp_deref; [by apply (hold_lookup h r Hh)|].
  match goal with |- context [is_appendonly ?x || is_immutable ?x || is_immutable ?y || is_appendonly ?y] =>
    change (is_appendonly x || is_immutable x || is_immutable y || is_appendonly y)
      with (is_appendonly ya || is_immutable ya || is_immutable yb || is_appendonly yb) end.
  rewrite Wa1, Wa2, Wb1, Wb2. exact HQ'.
Qed.
End run.
