(* ===== verification/FsHandles.v ===== *)
(** * Opening and closing files

    [ltfs_fsops_open] takes a handle of the dentry that the path names,
    [ltfs_fsops_close] gives one back; the last handle of a dentry that is no
    longer in the tree frees it. *)

From stdpp Require Import relations.
From S2P Require Import Prelude LtfsError Extents TapeOps TapeLayer Journal Dentry DentryRun DentryTree DentryLookup DentryProps DentryEdit DentryPaths DentryCounts FsOps FsOpsRun FsOpsInv FsCreate FsUnlink FsHold.

(** One handle of [d] less. *)
Definition drop_ref (d : Z) (refs : Z -> Z) (e : Z) : Z := if decide (e = d) then refs d - 1 else refs e.
Definition add_ref (d : Z) (refs : Z -> Z) (e : Z) : Z := if decide (e = d) then refs d + 1 else refs e.

Definition released (r d : Z) (x : dentry) (refs : Z -> Z) (h : gmap Z dentry) : gmap Z dentry :=
  if negb (linkedb r d x) && (refs d =? 1) && negb (out_of_sync x) then delete d h else unref_h d h.

(** ** The invariant *)

Section released.
Context (h : gmap Z dentry) (r : Z) (refs : Z -> Z) (next : Z) (OK : heap_ok h r refs next) (R : room h).
Context (d : Z) (x : dentry) (Hx : h !! d = Some x).

Lemma refer_ok : heap_ok (ref_h d h) r (add_ref d refs) next.
Proof.
  destruct OK as [T C O F]. split.
  - by apply tree_alter.
  - destruct (C d x Hx) as (_ & C2 & _). apply (counts_add_ref h r refs d 1); [done..|lia].
  - intros e z Hz Hl. unfold add_ref. destruct (decide (e = d)) as [->|].
    + rewrite lookup_alter_eq, Hx in Hz. injection Hz as <-. destruct (O d x Hx Hl) as (? & ? & _).
      destruct (C d x Hx) as (_ & ? & _). split_and!; [done..|left; lia].
    + rewrite lookup_alter_ne in Hz by done. by apply O.
  - intros e He. apply F. by rewrite lookup_alter_is_Some in He.
Qed.

Context (Hd : 0 < refs d).

Lemma released_ok : heap_ok (released r d x refs h) r (drop_ref d refs) next.
Proof.
  destruct OK as [T C O F]. unfold released. destruct (_ && _) eqn:E.
  - apply andb_true_iff in E as [E E3]. apply andb_true_iff in E as [E1 E2]. apply negb_true_iff in E1, E3.
    destruct (O d x Hx E1) as (Hc & _ & _). unfold linkedb in E1. apply orb_false_iff in E1 as [Ep Er].
    apply bool_decide_eq_false in Ep. destruct (parent x) eqn:Hp; [by destruct Ep|]. apply Z.eqb_neq in Er.
    split.
    + by eapply tree_delete.
    + pose proof (counts_delete _ _ _ _ _ T C Hx Hp) as C'. intros e z Hz. pose proof Hz as Hz'.
      apply lookup_delete_Some in Hz' as [Hne _]. unfold drop_ref. rewrite decide_False by congruence. by apply C'.
    + intros e z Hz Hl. apply lookup_delete_Some in Hz as [Hne Hz]. unfold drop_ref. rewrite decide_False by congruence. by apply O.
    + intros e He. apply lookup_delete_is_Some in He as [_ He]. by apply F.
  - split.
    + by apply tree_alter.
    + apply (counts_add_ref h r refs d (-1)); [done..|lia].
    + intros e z Hz Hl. unfold drop_ref. destruct (decide (e = d)) as [->|].
      * rewrite lookup_alter_eq, Hx in Hz. injection Hz as <-. assert (linkedb r d x = false) as Hl' by done.
        destruct (O d x Hx Hl') as (? & ? & _). rewrite Hl' in E. cbn in E. split_and!; [done..|].
        apply andb_false_iff in E as [E|E]; [left; lia|right]. by apply negb_false_iff in E.
      * rewrite lookup_alter_ne in Hz by done. by apply O.
    + intros e He. apply F. by rewrite lookup_alter_is_Some in He.
Qed.

Lemma released_child b n : child (released r d x refs h) b n = child h b n.
Proof.
  destruct OK as [T C O F]. unfold released. destruct (_ && _) eqn:E; [|by apply child_alter].
  apply andb_true_iff in E as [E _]. apply andb_true_iff in E as [E _]. apply negb_true_iff in E.
  eapply child_delete_leaf; [done|]. by destruct (O d x Hx E).
Qed.

Lemma released_files : files (released r d x refs h) r = files h r.
Proof.
  unfold released. destruct (_ && _) eqn:E.
  - apply andb_true_iff in E as [E _]. apply andb_true_iff in E as [E _]. apply negb_true_iff in E.
    rewrite (files_delete _ _ d x Hx). unfold is_file. rewrite E. cbn. lia.
  - rewrite (files_alter _ _ d x) by done. rewrite (is_file_eq r d x (unref_d x)) by done. lia.
Qed.

(** ** Giving the handle back *)

Lemma wp_close s h1 L Q :
  handles_ok h r -> heq h1 h -> L !! meta_lock d = None -> L !! contents_lock d = None ->
  (forall h', heq h' (released r d x refs h) -> Q tt (st s h' L)) ->
  wp (fs_release_dentry d) (st s h1 L) Q.
Proof.
  intros Hh E1 HL HC HQ. destruct OK as [T C O F]. destruct (C d x Hx) as (C1 & C2 & _), (Hh d x Hx) as [Rn _].
  assert (heq h h1) as E1' by by symmetry.
  destruct (heq_some _ _ _ _ E1' Hx) as (z & Hz & [= Ep _ _ _ _ _ Ec En _ Eo _ _]).
  unfold released in HQ. destruct (_ && _) eqn:E.
  - apply andb_true_iff in E as [E E3]. apply andb_true_iff in E as [E1l E2]. apply negb_true_iff in E1l, E3.
    destruct (O d x Hx E1l) as (Hc & _ & _). rewrite E1l in C1. cbn in C1. unfold fs_release_dentry. wp_run.
    eapply wp_release_last; [done|map_side|map_side|lia|congruence|congruence| |].
    { unfold linkedb in E1l. apply orb_false_iff in E1l as [Ep' _]. apply bool_decide_eq_false in Ep'.
      rewrite <- Ep. destruct (parent x); [by destruct Ep'|done]. }
    lock_simpl. apply HQ. by apply heq_delete.
  - eapply wp_release; [done..| |].
    + rewrite <- En, <- Eo. destruct (linkedb r d x) eqn:El; cbn in C1, E; [left; rewrite u32_small; lia|].
      apply andb_false_iff in E as [E|E]; [left; rewrite u32_small; lia|right]. by apply negb_false_iff in E.
    + apply HQ. by apply unref_heq.
Qed.
End released.

(** ** Closing *)

Section close.
Context (s : fs_state) (refs : Z -> Z) (ck : vol_checks) (bs fl : Z) (d : Z) (x : dentry) (CK : checks_pass ck).
Context (HOK : heap_ok (heap s) (root s) refs (next_address s)) (Hh : handles_ok (heap s) (root s)).
Context (Hx : heap s !! d = Some x) (Hd : 0 < refs d).

(** Heap changes that the invariant does not see. *)
Lemma wp_cosmetic s' h1 L (g : dentry -> dentry) Q :
  (forall y, dcore (g y) = dcore y) -> heq h1 (heap s) ->
  (forall h2, heq h2 (heap s) -> Q tt (st s' h2 L)) -> wp (assign d g) (st s' h1 L) Q.
Proof.
  intros Hg E HQ. assert (heq (heap s) h1) as E' by by symmetry.
  destruct (heq_some _ _ _ _ E' Hx) as (z & Hz & _). eapply wp_assign; [done|]. apply HQ. by apply heq_cosmetic.
Qed.

Lemma heq_at h1 : heq h1 (heap s) -> exists z, h1 !! d = Some z /\ dcore x = dcore z.
Proof. intros E. apply (heq_some (heap s)); [by symmetry|done]. Qed.

Lemma wp_update_used_blocks s1 h1 Q :
  frame s s1 -> heq h1 (heap s) ->
  (forall ret s2 h2, frame s s2 -> heq h2 (heap s) -> Q ret (st s2 h2 ∅)) ->
  wp (ltfs_fsops_update_used_blocks ck bs d) (st s1 h1 ∅) Q.
Proof.
  intros F1 E1 HQ. destruct CK as (_ & _ & K). destruct (heq_at h1 E1) as (z & Hz & _).
  unfold ltfs_fsops_update_used_blocks. wp_go. lock_simpl. wp_go. lock_simpl.
  unfold ltfs_update_valid_block_count. wp_step. apply wp_volume_lock; [done|map_side|]. cbn [Z.ltb Z.compare].
  wp_step. apply wp_update_valid_blocks; [map_side|]. intros s2 F2. wp_go. lock_simpl.
  apply HQ; [by transitivity s1|]. by apply heq_cosmetic.
Qed.

Lemma wp_fsops_close di ow ui s1 h1 Q :
  frame s s1 -> heq h1 (heap s) ->
  (forall ret s' h', frame s s' -> heq h' (released (root s) d x refs (heap s)) -> Q ret (st s' h' ∅)) ->
  wp (ltfs_fsops_close true ck bs fl d di ow ui) (st s1 h1 ∅) Q.
Proof.
  intros F1 E1 HQ. destruct (heq_at h1 E1) as (z & Hz & _).
  unfold ltfs_fsops_close. cbn [negb]. wp_step. wp_step. wp_step.
  assert (Hend : forall s2 h2 ret, frame s s2 -> heq h2 (heap s) ->
    wp (ret_c <- (if ui && negb (isdir z) then iosched_close fl d else ltfs_fsraw_close d);;
        let ret := if (ret_c =? 0) && negb (ret =? 0) then ret else ret_c in
        n <- fget file_open_count;;
        fwhen ((ret =? 0) && (0 <? n)) (fmodify (fun s => s <| file_open_count := n - 1 |>));;;
        fret ret) (st s2 h2 ∅) Q).
  { intros s2 h2 ret F2 E2.
    assert (Hlast : forall ret' h3, heq h3 (released (root s) d x refs (heap s)) ->
      wp (n <- fget file_open_count;;
          fwhen ((ret' =? 0) && (0 <? n)) (fmodify (fun s => s <| file_open_count := n - 1 |>));;; fret ret')
         (st s2 h3 ∅) Q).
    { intros ret' h3 E3. wp_step. wp_step. wp_step. apply wp_when; intros _; wp_go; by apply HQ. }
    wp_step. assert (Hr : forall P, (forall h3, heq h3 (released (root s) d x refs (heap s)) -> P 0 (st s2 h3 ∅)) ->
      wp (ltfs_fsraw_close d) (st s2 h2 ∅) P).
    { intros P HP. unfold ltfs_fsraw_close. wp_step. eapply (wp_close _ _ _ _ HOK d x Hx Hd); [done..|].
      intros h3 E3. wp_step. by apply HP. }
    destruct (ui && negb (isdir z)); [unfold iosched_close; wp_step|]; apply Hr; intros h3 E3; [wp_step|]; by apply Hlast. }
  assert (Htail : forall s2 h2, frame s s2 -> heq h2 (heap s) ->
    wp (if ow then ltfs_fsops_update_used_blocks ck bs d else fret 0) (st s2 h2 ∅) (fun ret_u s' =>
      wp (ret_c <- (if ui && negb (isdir z) then iosched_close fl d else ltfs_fsraw_close d);;
          let ret := if (ret_c =? 0) && negb (ret_u =? 0) then ret_u else ret_c in
          n <- fget file_open_count;;
          fwhen ((ret =? 0) && (0 <? n)) (fmodify (fun s => s <| file_open_count := n - 1 |>));;;
          fret ret) s' Q)).
  { intros s2 h2 F2 E2. destruct ow; [|wp_step; by apply Hend].
    apply (wp_update_used_blocks s2); [done..|]. intros ret s3 h3 F3 E3. by apply Hend. }
  apply wp_when; intros _; [|wp_step; by apply Htail]. wp_go. lock_simpl. apply Htail; [by transitivity s1|].
  by repeat apply heq_cosmetic.
Qed.
End close.

(** ** Opening *)

Section open.
Context (strlen : path -> Z) (pathname_format : path -> Z * path).
Context (s : fs_state) (refs : Z -> Z) (ck : vol_checks) (bs : Z) (p : path) (q : list path) (ow ui : bool).
Context (OK : fs_ok s refs) (RD : ready s) (CK : checks_pass ck).
Context (Hpath : pathname_format p = (0, slashed q)) (Hvalid : valid_names strlen q).

Let run := ltfs_fsops_open strlen pathname_format true ck bs p ow ui.

Lemma wp_fsraw_open Q :
  match resolve (heap s) (root s) q with
  | None => Q (- LTFS_NO_DENTRY, None) (st s (heap s) ∅)
  | Some d => forall h', heq h' (ref_h d (heap s)) -> Q (0, Some d) (st s h' ∅)
  end -> wp (ltfs_fsraw_open strlen ck (slashed q) ow) (st s (heap s) ∅) Q.
Proof.
  intros HQ. destruct OK as [[T C O F] _], RD as [_ HM HR _ _], CK as (_ & _ & K).
  pose proof (counts_handles _ _ _ C HR) as Hh. unfold ltfs_fsraw_open. wp_step.
  apply wp_volume_lock; [done|done|]. cbn [Z.ltb Z.compare]. wp_step.
  apply wp_lookup_names; [done..|apply vol_read_no_dentry|done|].
  destruct (resolve (heap s) (root s) q) as [d|] eqn:Hr.
  - intros pa _. cbn [Z.ltb Z.compare]. destruct (resolve_live _ _ T _ _ Hr) as [x Hx].
    replace (lookup_heap 0 d pa (heap s)) with (ref_h d (heap s)) by (by destruct pa).
    replace (lookup_locks 0 d pa vol_read) with vol_read by (by destruct pa). wp_go.
    apply wp_when; intros _; [|wp_go; lock_simpl; by apply HQ].
    wp_go. apply wp_when; intros _; wp_go; lock_simpl; wp_go; lock_simpl; apply HQ; [|done]. by apply heq_cosmetic.
  - change (- LTFS_NO_DENTRY <? 0) with true. cbv iota. wp_go. lock_simpl. exact HQ.
Qed.

Lemma open_start Q :
  wp (ltfs_fsraw_open strlen ck (slashed q) ow) (st s (heap s) ∅) (fun '(ret, d) s' => wp (
      if ret =? 0 then
        d <- non_null d;;
        x <- deref d;;
        if ow && isslink x then
          _ <- ltfs_fsops_close true ck bs 0 d false ow ui;;
          fret (- LTFS_RDONLY_VOLUME, Some d)
        else
          fmodify (fun s => s <| file_open_count := file_open_count s + 1 |>);;;
          fret (0, Some d)
      else fret (ret, None)) s' Q) -> wp run (st s (heap s) (locks s)) Q.
Proof.
  intros HQ. destruct RD as [HL _ _ _ _], CK as (K1 & K2 & K3). rewrite HL. unfold run, ltfs_fsops_open. cbn [negb].
  unfold readonly_refuses. replace (volume_readonly ck <? 0) with false by lia. cbn [andb]. rewrite andb_false_r, Hpath.
  change (0 =? - LTFS_INVALID_PATH) with false. cbn [Z.ltb Z.compare]. wp_step.
  eapply wp_mono; [exact HQ|]. by intros [].
Qed.

Lemma open_no_dentry : resolve (heap s) (root s) q = None -> run s = Done (- LTFS_NO_DENTRY, None) s.
Proof.
  intros Hr. apply wp_eq, open_start, wp_fsraw_open. rewrite Hr. change (- LTFS_NO_DENTRY =? 0) with false. wp_go.
  by rewrite st_unlocked by apply RD.
Qed.

(** A symbolic link is not opened for writing: the handle goes back. *)
Lemma open_done d :
  resolve (heap s) (root s) q = Some d ->
  exists ret s', run s = Done (ret, Some d) s' /\
    (ret = 0 /\ heq (heap s') (ref_h d (heap s)) \/ ret = - LTFS_RDONLY_VOLUME /\ heq (heap s') (heap s)) /\
    frame s s' /\ locks s' = ∅.
Proof.
  intros Hr. pose proof OK as [HOK HF]. pose proof RD as [HL HM HR HFi HU].
  enough (W : wp run (st s (heap s) (locks s)) (fun a s' => exists ret, a = (ret, Some d) /\
    (ret = 0 /\ heq (heap s') (ref_h d (heap s)) \/ ret = - LTFS_RDONLY_VOLUME /\ heq (heap s') (heap s)) /\
    frame s s' /\ locks s' = ∅)).
  { apply wp_at in W as (a & s' & E & ret & -> & H). by exists ret, s'. }
  apply open_start, wp_fsraw_open. rewrite Hr. intros h' E'. cbn [Z.eqb]. 
  destruct (resolve_live _ _ (ok_tree _ _ _ _ HOK) _ _ Hr) as [x Hx].
  assert (heq (ref_h d (heap s)) h') as E'' by by symmetry.
  destruct (heq_some _ _ d (ref_d x) E'') as (z & Hz & [= Ep _ _ _ _ _ _ _ _ _ _ _]); [by rewrite lookup_alter_eq, Hx|].
  wp_go. destruct (ow && isslink z).
  - wp_step. assert (linked (root s) d x) as Hl by (apply linkedb_spec; eapply resolve_linked; [apply HOK|done..]).
    eapply (wp_fsops_close (st s h' ∅) (add_ref d refs) ck bs 0 d z CK); [| |exact Hz| |by unfold frame|reflexivity|].
    + cbn. rewrite E'. by eapply refer_ok.
    + eapply handles_heq; [exact E''|]. eapply (hold_handles _ _ _ [d]); [apply HOK|done..].
    + unfold add_ref. rewrite decide_True by done. destruct (ok_counts _ _ _ _ HOK d x Hx) as (_ & ? & _). lia.
    + intros ret s1 h1 (R1 & M1 & F1 & N1 & U1) E1. wp_step. exists (- LTFS_RDONLY_VOLUME). split_and!; try done.
      right. split; [done|]. cbn. rewrite E1. unfold released.
      assert (linkedb (root s) d z = true) as Hlz by (apply linkedb_spec in Hl; unfold linkedb in *; by rewrite <- Ep).
      cbn. rewrite Hlz. cbn. transitivity (unref_h d (ref_h d (heap s))); [by apply unref_heq|].
      rewrite (unref_ref_h _ (root s)); [done|]. eapply counts_handles; [apply HOK|done].
  - wp_go. exists 0. split_and!; try done. by left.
Qed.
End open.
