(* ===== verification/FsReach.v ===== *)
(** * Sequences of operations

    A program makes calls of create, unlink, rename, open and close, one after
    the other, and keeps the handles that it got.  [good] is the invariant of
    the states between two calls; it holds with the number of calls as the bound
    of all counters, so nothing overflows in any sequence shorter than 2^31. *)

From stdpp Require Import relations.
From S2P Require Import Prelude LtfsError Extents TapeOps TapeLayer Journal Dentry DentryRun DentryTree DentryLookup DentryProps DentryEdit DentryPaths DentryCounts FsOps FsOpsRun FsOpsInv FsCreate FsUnlink FsHold FsMove FsRename FsHandles.

Definition no_worm (h : gmap Z dentry) : Prop := forall d x, h !! d = Some x -> worm x = false.

(** The tree with all counters exact, no lock held, no handle of a freed dentry,
    and everything that is counted below [B]. *)
Record good (B : Z) (s : fs_state) (refs : Z -> Z) : Prop := {
  g_ok : fs_ok s refs;
  g_locks : locks s = ∅;
  g_mem : mem s = [];
  g_uid : 0 < uid_number s <= B;
  g_refs : forall d, 0 <= refs d <= B;
  g_live : forall d, 0 < refs d -> is_Some (heap s !! d);
  g_size : Z.of_nat (base.size (heap s)) <= B;
  g_worm : no_worm (heap s);
}.

(** ** Nothing overflows *)

Lemma zlength_fmap {A B} (f : A -> B) l : zlength (f <$> l) = zlength l.
Proof. unfold zlength. by rewrite length_fmap. Qed.

Lemma children_le_size h r p y :
  tree_ok h r -> h !! p = Some y -> zlength (child_list y) <= Z.of_nat (base.size h).
Proof.
  intros T Hy. rewrite <- (zlength_fmap nl_d). unfold zlength. apply Nat2Z.inj_le.
  assert (NoDup (nl_d <$> child_list y)) as Hnd.
  { apply NoDup_fmap_2_strong; [|eapply NoDup_fmap_1; by eapply t_names].
    intros e e' He He' E. destruct (t_down _ _ T _ _ _ Hy He) as (x & Hx & _ & Hn & Hu).
    destruct (t_down _ _ T _ _ _ Hy He') as (x' & Hx' & _ & Hn' & Hu'). destruct e, e'. cbn in *. congruence. }
  rewrite <- (size_list_to_set (C := gset Z) _ Hnd), <- (size_dom (D := gset Z) h). apply subseteq_size.
  intros d Hd. apply elem_of_list_to_set in Hd. apply list_elem_of_fmap in Hd as (e & -> & He).
  destruct (t_down _ _ T _ _ _ Hy He) as (x & Hx & _). apply elem_of_dom. eauto.
Qed.

Lemma subdirs_le h x : subdirs h x <= zlength (child_list x).
Proof.
  unfold subdirs. induction (child_list x) as [|e l IH]; [done|]. rewrite zlength_cons, fmap_cons, zsum_cons.
  pose proof (isdir_at_range h (nl_d e)). lia.
Qed.

Lemma files_le h r : files h r <= Z.of_nat (base.size h).
Proof.
  unfold files. apply (map_fold_weak_ind (fun n m => n <= Z.of_nat (base.size m))); [done|].
  intros d x m n Hd Hn. rewrite map_size_insert_None by done.
  assert (is_file r d x <= 1) by (unfold is_file; destruct (_ && _); cbn; lia). lia.
Qed.

Lemma good_ready B s refs : good B s refs -> B < 2 ^ 31 -> ready s.
Proof.
  intros [[HOK HF] HL HM HU Href _ Hs _] HB. split; [exact HL|exact HM| |pose proof (files_le (heap s) (root s)); lia|lia].
  intros d x Hx. destruct (ok_counts _ _ _ _ HOK d x Hx) as (C1 & _ & C3). specialize (Href d).
  pose proof (children_le_size _ _ _ _ (ok_tree _ _ _ _ HOK) Hx). pose proof (subdirs_le (heap s) x).
  pose proof (dir_n_range x). assert (parent_n x <= 1) by (unfold parent_n; destruct (parent x); lia).
  unfold Z.b2z in C1. destruct (linkedb _ _ _); lia.
Qed.

(** ** What the edits keep *)

Lemma no_worm_alter g d h : (forall x, worm (g x) = worm x) -> no_worm h -> no_worm (alter g d h).
Proof.
  intros Hg H e z Hz. destruct (decide (e = d)) as [->|].
  - rewrite lookup_alter_eq in Hz. destruct (h !! d) as [y|] eqn:Hy; [|done]. injection Hz as <-. rewrite Hg. by eapply H.
  - rewrite lookup_alter_ne in Hz by done. by eapply H.
Qed.

Lemma no_worm_delete d h : no_worm h -> no_worm (delete d h).
Proof. intros H e z Hz. apply lookup_delete_Some in Hz as [_ Hz]. by eapply H. Qed.

Lemma no_worm_insert d x h : worm x = false -> no_worm h -> no_worm (<[d := x]> h).
Proof. intros Hx H e z [[<- <-]|[_ Hz]]%lookup_insert_Some; [done|by eapply H]. Qed.

Lemma size_alter (g : dentry -> dentry) d (h : gmap Z dentry) : base.size (alter g d h) = base.size h.
Proof. by rewrite <- !(size_dom (D := gset Z)), dom_alter_L. Qed.

Lemma heq_size h h' : heq h h' -> base.size h = base.size h'.
Proof.
  intros E. rewrite <- !(size_dom (D := gset Z)). f_equal. apply leibniz_equiv. intros d. rewrite !elem_of_dom.
  specialize (E d). destruct (h !! d), (h' !! d); try done; split; eauto.
Qed.

Lemma heq_no_worm h h' : heq h h' -> no_worm h' -> no_worm h.
Proof.
  intros E H d x Hx. destruct (heq_some _ _ _ _ E Hx) as (y & Hy & [= _ _ _ _ _ _ _ _ _ _ Ei Ea]).
  unfold worm. rewrite Ei, Ea. exact (H d y Hy).
Qed.

Lemma heq_live h h' d : heq h h' -> is_Some (h' !! d) -> is_Some (h !! d).
Proof. intros E [y Hy]. symmetry in E. destruct (heq_some _ _ _ _ E Hy) as (x & Hx & _). eauto. Qed.

Lemma heap_ok_refs h r refs refs' n : (forall d, refs' d = refs d) -> heap_ok h r refs n -> heap_ok h r refs' n.
Proof.
  intros E [T C O F]. split; [done| |by setoid_rewrite E|done].
  intros d x Hx. rewrite E. by apply C.
Qed.

(** A state after an operation, by its heap up to [heq]. *)
Lemma good_intro B s' refs hh :
  heq (heap s') hh -> heap_ok hh (root s') refs (next_address s') -> file_count s' = files hh (root s') ->
  locks s' = ∅ -> mem s' = [] -> 0 < uid_number s' <= B -> (forall d, 0 <= refs d <= B) ->
  (forall d, 0 < refs d -> is_Some (hh !! d)) -> Z.of_nat (base.size hh) <= B -> no_worm hh -> good B s' refs.
Proof.
  intros E HOK HF HL HM HU HR HV HS HW. split; [|exact HL|exact HM|exact HU|exact HR| | |].
  - split; [by rewrite E|]. by rewrite HF, E.
  - intros d Hd. eapply heq_live; [done|auto].
  - by rewrite (heq_size _ _ E).
  - by eapply heq_no_worm.
Qed.

Lemma good_weaken B s refs : good B s refs -> good (B + 1) s refs.
Proof. intros [? ? ? ? Href ? ? ?]. split; [assumption..|lia| |assumption|lia|assumption]. intros d. specialize (Href d). lia. Qed.

(** ** The calls *)

Inductive fsop :=
  | Create (p : path) (dir ro overwrite : bool)
  | Unlink (p : path)
  | Rename (from to : path)
  | Open (p : path) (open_write use_iosched : bool)
  | Close (d : Z) (dirty open_write use_iosched : bool) (flush_ret : Z).

Section calls.
Context (strlen : path -> Z) (pathname_format : path -> Z * path) (set_appendonly : path -> fs Z).
Context (ck : vol_checks) (blocksize : Z) (CK : checks_pass ck).

(** The return code and the dentry that a call returns. *)
Definition exec (op : fsop) : fs (Z * option Z) :=
  match op with
  | Create p dir ro overwrite =>
      ltfs_fsops_create strlen pathname_format set_appendonly ck true p dir ro overwrite
  | Unlink p => res <- ltfs_fsops_unlink strlen pathname_format true ck p;; fret (fst res, None)
  | Rename from to => res <- ltfs_fsops_rename strlen pathname_format true ck from to;; fret (fst res, None)
  | Open p ow ui => ltfs_fsops_open strlen pathname_format true ck blocksize p ow ui
  | Close d dirty ow ui flush_ret =>
      ret <- ltfs_fsops_close true ck blocksize flush_ret d dirty ow ui;; fret (ret, None)
  end.

(** The handles that the caller has after a call. *)
Definition handles_after (op : fsop) (res : Z * option Z) (refs : Z -> Z) : Z -> Z :=
  match op, res with
  | (Create _ _ _ _ | Open _ _ _), (0, Some d) => add_ref d refs
  | Close d _ _ _ _, _ => drop_ref d refs
  | _, _ => refs
  end.

(** [p] is, normalised, the name [n] below the directories [q]. *)
Definition names (p : path) (q : list path) (n : path) : Prop :=
  pathname_format p = (0, slashed (q ++ [n])) /\ valid_names strlen (q ++ [n]).

Definition parent_is_dir (s : fs_state) (q : list path) : Prop :=
  forall b y, resolve (heap s) (root s) q = Some b -> heap s !! b = Some y -> isdir y = true.

(** What FUSE guarantees of a call: the paths are well formed, names are only
    made in directories, and only open handles are closed. *)
Definition call_ok (s : fs_state) (refs : Z -> Z) (op : fsop) : Prop :=
  match op with
  | Create p _ _ _ => exists q n, names p q n /\ parent_is_dir s q
  | Unlink p => exists q n, names p q n
  | Rename from to => exists qf nf qt nt, names from qf nf /\ names to qt nt /\ parent_is_dir s qt
  | Open p _ _ => exists q, pathname_format p = (0, slashed q) /\ valid_names strlen q
  | Close d _ _ _ _ => 0 < refs d
  end.

Definition keeps (B : Z) (refs : Z -> Z) (op : fsop) (s : fs_state) : Prop :=
  exists res s', exec op s = Done res s' /\ good (B + 1) s' (handles_after op res refs).

Section one_call.
Context (B : Z) (s : fs_state) (refs : Z -> Z) (G : good B s refs) (HB : B < 2 ^ 31).

Let OK := g_ok _ _ _ G.
Let RD := good_ready _ _ _ G HB.

Lemma good_not_worm b y : heap s !! b = Some y -> is_immutable y = false /\ is_appendonly y = false.
Proof. intros H. apply (g_worm _ _ _ G) in H. by apply orb_false_iff in H. Qed.

Lemma live_below d : is_Some (heap s !! d) -> d < next_address s.
Proof. apply (ok_fresh _ _ _ _ (fs_heap _ _ OK)). Qed.

Lemma create_keeps p dir ro ow : call_ok s refs (Create p dir ro ow) -> keeps B refs (Create p dir ro ow) s.
Proof.
  intros (q & n & [Hp Hv] & Hdir). unfold keeps. cbn [exec].
  destruct (resolve (heap s) (root s) q) as [b|] eqn:Hr.
  2: { do 2 eexists. split; [by eapply create_no_dir|]. by apply good_weaken. }
  destruct (resolve_live _ _ (ok_tree _ _ _ _ (fs_heap _ _ OK)) _ _ Hr) as [y Hy].
  destruct (good_not_worm _ _ Hy) as [Wi Wa].
  destruct (child (heap s) b n) as [d|] eqn:Hc.
  { do 2 eexists. split; [eapply create_exists; try done; by rewrite Wa|]. by apply good_weaken. }
  edestruct (create_new strlen pathname_format set_appendonly s refs ck p q n dir ro ow) as
    (x & s' & E & Hx & H & R & L & M & N & U & Fc); try done; [by eapply Hdir|].
  exists (0, Some (next_address s)), s'. split; [done|]. cbn [handles_after].
  destruct (valid_snoc _ _ _ Hv) as (_ & Hn & _). pose proof OK as [HOK HF]. pose proof HOK as [T C O F].
  pose proof Hx as [= Ep Epn Edn Edi Edel Ec En El Eo Ei Ea].
  set (nd := next_address s) in *. assert (heap s !! nd = None) as Hnd.
  { destruct (heap s !! nd) as [z|] eqn:Ez; [|done]. pose proof (live_below nd ltac:(eauto)). lia. }
  assert (refs nd = 0) as Href.
  { pose proof (g_refs _ _ _ G nd). destruct (decide (refs nd = 0)); [done|].
    destruct (g_live _ _ _ G nd) as [z Hz]; [lia|]. congruence. }
  assert (nd <> root s) as Hnr. { intros Enr. destruct (t_root _ _ T) as (z & Hz & _). rewrite Enr in Hnd. congruence. }
  assert (b <> nd) as Hb by congruence. apply (good_intro _ _ _ _ H).
  - rewrite R, N. eapply heap_ok_refs; [|eapply heap_create; try done; [apply RD|by eapply Hdir|by rewrite Edi]].
    intros e. unfold add_ref. destruct (decide (e = nd)) as [->|]; [lia|done].
  - rewrite R, Fc, HF. rewrite (files_attach _ _ _ _ _ _ _ x y); [|by rewrite lookup_insert_eq|done|done|by rewrite lookup_insert_ne|done].
    rewrite files_insert, is_file_unlinked by done. unfold dir_n. rewrite Edi. destruct dir; lia.
  - done.
  - done.
  - pose proof (g_uid _ _ _ G). lia.
  - intros e. pose proof (g_refs _ _ _ G e). unfold add_ref. destruct (decide (e = nd)) as [->|]; lia.
  - intros e He. unfold attach. rewrite !lookup_alter_is_Some. unfold add_ref in He. destruct (decide (e = nd)) as [->|].
    + rewrite lookup_insert_eq. eauto.
    + rewrite lookup_insert_ne by done. by apply (g_live _ _ _ G).
  - unfold attach. rewrite !size_alter, map_size_insert_None by done. pose proof (g_size _ _ _ G). lia.
  - unfold attach. do 2 (apply no_worm_alter; [done|]). apply no_worm_insert; [|apply (g_worm _ _ _ G)].
    unfold worm. by rewrite Ei, Ea.
Qed.

(** The state after a dentry is taken out of the tree. *)
Lemma removed_live b n d x e : is_Some (heap s !! e) -> 0 < refs e -> is_Some (removed b n d x refs (heap s) !! e).
Proof.
  intros He Hr. unfold removed, cut, detach. destruct (_ && _) eqn:E; [|by rewrite !lookup_alter_is_Some].
  destruct (decide (e = d)) as [->|]; [lia|]. rewrite lookup_delete_ne by done. by rewrite !lookup_alter_is_Some.
Qed.

Lemma removed_size b n d x : (base.size (removed b n d x refs (heap s)) <= base.size (heap s))%nat.
Proof.
  unfold removed, cut, detach. destruct (_ && _); [|by rewrite !size_alter].
  etransitivity; [apply map_subseteq_size, delete_subseteq|]. by rewrite !size_alter.
Qed.

Lemma removed_no_worm b n d x : no_worm (removed b n d x refs (heap s)).
Proof.
  pose proof (g_worm _ _ _ G). unfold removed, cut, detach.
  destruct (_ && _); [apply no_worm_delete|]; by repeat (apply no_worm_alter; [done|]).
Qed.

Lemma good_removed s' b n d x :
  heap s !! d = Some x -> parent x = Some b -> platform_safe_name x = Some n -> child_list x = [] ->
  heq (heap s') (removed b n d x refs (heap s)) ->
  root s' = root s -> locks s' = ∅ -> mem s' = [] -> next_address s' = next_address s ->
  uid_number s' = uid_number s -> file_count s' = files (heap s) (root s) - (1 - dir_n x) -> good (B + 1) s' refs.
Proof.
  intros Hx Hp Hn Hleaf H R L M N U Fc. pose proof OK as [HOK HF]. apply (good_intro _ _ _ _ H).
  - rewrite R, N. apply removed_ok; [done|apply RD|done..].
  - rewrite R, Fc. symmetry. by eapply removed_files.
  - done.
  - done.
  - pose proof (g_uid _ _ _ G). lia.
  - intros e. pose proof (g_refs _ _ _ G e). lia.
  - intros e He. apply removed_live; [by apply (g_live _ _ _ G)|done].
  - pose proof (removed_size b n d x). pose proof (g_size _ _ _ G). lia.
  - apply removed_no_worm.
Qed.

Lemma unlink_keeps p : call_ok s refs (Unlink p) -> keeps B refs (Unlink p) s.
Proof.
  intros (q & n & [Hp Hv]). unfold keeps. cbn [exec handles_after].
  assert (Hsame : forall res, ltfs_fsops_unlink strlen pathname_format true ck p s = Done res s ->
    exists (res' : Z * option Z) s', (res <- ltfs_fsops_unlink strlen pathname_format true ck p;; fret (fst res, None)) s = Done res' s' /\
      good (B + 1) s' refs).
  { intros res E. exists (fst res, None), s. unfold fbind. rewrite E. split; [done|]. by apply good_weaken. }
  pose proof OK as [HOK HF]. pose proof HOK as [T C O F].
  destruct (resolve (heap s) (root s) (q ++ [n])) as [d|] eqn:Hr; [|eapply Hsame; by eapply unlink_no_dentry].
  pose proof Hr as Hr'. rewrite resolve_snoc in Hr'. apply bind_Some in Hr' as (b & Hb & Hc).
  apply (child_iff _ _ T) in Hc as (x & Hx & Hpx & Hn).
  destruct (resolve_live _ _ T _ _ Hb) as [y Hy].
  destruct (decide (unlink_refusal y x = 0)) as [H0|Hne].
  2: { eapply Hsame. eapply (unlink_refused strlen pathname_format s refs ck p q n OK RD CK Hp Hv d b x y); try done.
       unfold unlink_refusal in *. repeat case_match; done. }
  destruct (unlink_done strlen pathname_format s refs ck p q n OK RD CK Hp Hv d b x y Hr Hx Hpx Hy H0) as
    (s' & E & H & R & L & M & N & U & Fc).
  exists (0, None), s'. unfold fbind. rewrite E. split; [done|].
  assert (Hleaf : child_list x = []).
  { destruct (isdir x) eqn:Ei; [by eapply unlink_allowed|by eapply file_no_children]. }
  eapply (good_removed s' b n d x); try done. by rewrite Fc, HF.
Qed.

(** The refusal codes of rename are errors, and a write-once source is no case here. *)
Lemma rename_refusal_cases qf qt nf nt xf ot :
  rename_refusal qf qt nf nt xf ot = 0 \/ rename_refusal qf qt nf nt xf ot < 0.
Proof. unfold rename_refusal, rename_check_code. repeat case_match; (by left) || (right; lia) || (by right). Qed.

Lemma rename_keeps from to : call_ok s refs (Rename from to) -> keeps B refs (Rename from to) s.
Proof.
  intros (qf & nf & qt & nt & [Hpf Hvf] & [Hpt Hvt] & Hdir). unfold keeps. cbn [exec handles_after].
  enough (W : wp (ltfs_fsops_rename strlen pathname_format true ck from to) (st s (heap s) (locks s))
    (fun _ s' => good (B + 1) s' refs)).
  { apply wp_at in W as (res & s' & E & HG). exists (fst res, None), s'. unfold fbind. by rewrite E. }
  assert (Hsame : good (B + 1) (st s (heap s) ∅) refs).
  { rewrite st_unlocked by apply RD. by apply good_weaken. }
  pose proof OK as [HOK HF]. pose proof HOK as [T C O F].
  destruct (valid_snoc _ _ _ Hvf) as (_ & Hnf & Hlf), (valid_snoc _ _ _ Hvt) as (_ & Hnt & Hlt).
  eapply (rename_start strlen pathname_format s refs ck from to qf qt nf nt); try done.
  destruct (resolve (heap s) (root s) qf) as [a|] eqn:Ha; [|done].
  destruct (resolve (heap s) (root s) qt) as [b|] eqn:Hb; [|done]. intros ya yb Hya Hyb.
  split_and!; [by eapply (g_worm _ _ _ G)..|].
  destruct (child (heap s) a nf) as [f|] eqn:Hf.
  2: { eapply (wp_rename_in_dirs_none strlen s refs OK RD qf qt nf nt a b ya yb); done. }
  destruct (proj1 (child_iff _ _ T _ _ _) Hf) as (xf & Hxf & Hpxf & Hnxf).
  assert (Wf : worm xf = false) by (by eapply (g_worm _ _ _ G)).
  destruct (rename_refusal_cases qf qt nf nt xf (target s nt b)) as [H0|Hneg].
  2: { eapply (wp_rename_in_dirs_refused strlen s refs OK RD qf qt nf nt a b ya yb); try done. by rewrite Wf. }
  eapply (wp_rename_in_dirs_done strlen s refs OK RD qf qt nf nt a b ya yb Ha Hya Hb Hyb Hlf Hlt f xf);
    [exact Hf|exact Hxf|by rewrite Wf|exact H0|by eapply Hdir|exact Hnt|].
  intros _ s' H R L M N U Fc.
  edestruct (renamed_ok s refs OK RD qf qt nf nt a b ya yb Ha Hya Hb Hyb f xf) as [HOK1 HF1];
    [exact Hf|exact Hxf|by rewrite Wf|exact H0|by eapply Hdir|exact Hnt|].
  assert (Hrep : (base.size (replaced s refs nt b f) <= base.size (heap s))%nat /\ no_worm (replaced s refs nt b f) /\
    forall e, is_Some (heap s !! e) -> 0 < refs e -> is_Some (replaced s refs nt b f !! e)).
  { unfold replaced. pose proof (g_worm _ _ _ G). repeat case_match; auto using removed_size, removed_no_worm, removed_live. }
  destruct Hrep as (Hsz & Hnw & Hlive). apply (good_intro _ _ _ _ H).
  - by rewrite R, N.
  - by rewrite R, Fc, HF1.
  - done.
  - done.
  - pose proof (g_uid _ _ _ G). lia.
  - intros e. pose proof (g_refs _ _ _ G e). lia.
  - intros e He. unfold renamed, moved, attach, detach. rewrite !lookup_alter_is_Some.
    apply Hlive; [by apply (g_live _ _ _ G)|done].
  - unfold renamed, moved, attach, detach. rewrite !size_alter. pose proof (g_size _ _ _ G). lia.
  - unfold renamed, moved, attach, detach. by repeat (apply no_worm_alter; [done|]).
Qed.

Lemma open_keeps p ow ui : call_ok s refs (Open p ow ui) -> keeps B refs (Open p ow ui) s.
Proof.
  intros (q & Hp & Hv). unfold keeps. cbn [exec]. pose proof OK as [HOK HF].
  destruct (resolve (heap s) (root s) q) as [d|] eqn:Hr.
  2: { do 2 eexists. split; [by eapply (open_no_dentry strlen pathname_format s refs ck blocksize p q)|]. by apply good_weaken. }
  destruct (resolve_live _ _ (ok_tree _ _ _ _ HOK) _ _ Hr) as [x Hx].
  edestruct (open_done strlen pathname_format s refs ck blocksize p q ow ui) as (ret & s' & E & Hret & (R & M & Fc & N & U) & L);
    [done..|]. exists (ret, Some d), s'. split; [done|].
  assert (M' : mem s' = []) by (rewrite M; apply RD). destruct Hret as [[-> H]|[-> H]]; cbn [handles_after].
  - apply (good_intro _ _ _ _ H).
    + rewrite R, N. eapply refer_ok; [done|apply RD|done].
    + rewrite R, Fc, HF. rewrite (files_alter _ _ d x) by done. rewrite (is_file_eq _ d x (ref_d x)) by done. lia.
    + done.
    + done.
    + pose proof (g_uid _ _ _ G). lia.
    + intros e. pose proof (g_refs _ _ _ G e). unfold add_ref. destruct (decide (e = d)) as [->|]; lia.
    + intros e He. rewrite lookup_alter_is_Some. unfold add_ref in He. destruct (decide (e = d)) as [->|]; [eauto|].
      by apply (g_live _ _ _ G).
    + rewrite size_alter. pose proof (g_size _ _ _ G). lia.
    + apply no_worm_alter; [done|]. apply (g_worm _ _ _ G).
  - apply good_weaken. apply (good_intro _ _ _ _ H); try apply G; [by rewrite R, N|by rewrite R, Fc|done|done|].
    pose proof (g_uid _ _ _ G). lia.
Qed.

Lemma close_keeps d di ow ui fl : call_ok s refs (Close d di ow ui fl) -> keeps B refs (Close d di ow ui fl) s.
Proof.
  intros Hd. cbn in Hd. unfold keeps. cbn [exec handles_after]. pose proof OK as [HOK HF].
  destruct (g_live _ _ _ G d Hd) as [x Hx].
  enough (W : wp (ltfs_fsops_close true ck blocksize fl d di ow ui) (st s (heap s) (locks s))
    (fun _ s' => good (B + 1) s' (drop_ref d refs))).
  { apply wp_at in W as (ret & s' & E & HG). exists (ret, None), s'. unfold fbind. by rewrite E. }
  rewrite (g_locks _ _ _ G).
  eapply (wp_fsops_close s refs ck blocksize fl d x CK HOK); [eapply counts_handles; [apply HOK|apply RD]|done|done|done|done|].
  intros ret s' h' (R & M & Fc & N & U) H. eapply (good_intro _ (st s' h' ∅) _ _ H); cbn.
  - rewrite R, N. apply released_ok; [done|apply RD|done..].
  - rewrite R, Fc, HF. symmetry. by apply released_files.
  - done.
  - rewrite M. apply RD.
  - pose proof (g_uid _ _ _ G). lia.
  - intros e. pose proof (g_refs _ _ _ G e). unfold drop_ref. destruct (decide (e = d)) as [->|]; lia.
  - intros e He. unfold drop_ref in He. unfold released. destruct (_ && _) eqn:E; [|rewrite lookup_alter_is_Some].
    + destruct (decide (e = d)) as [->|]; [lia|]. rewrite lookup_delete_ne by done. by apply (g_live _ _ _ G).
    + destruct (decide (e = d)) as [->|]; [eauto|]. by apply (g_live _ _ _ G).
  - unfold released. pose proof (g_size _ _ _ G). destruct (_ && _); [|rewrite size_alter; lia].
    assert (base.size (delete d (heap s)) <= base.size (heap s))%nat by apply map_subseteq_size, delete_subseteq. lia.
  - unfold released. destruct (_ && _); [apply no_worm_delete|apply no_worm_alter; [done|]]; apply (g_worm _ _ _ G).
Qed.

Lemma call_keeps op : call_ok s refs op -> keeps B refs op s.
Proof. destruct op; eauto using create_keeps, unlink_keeps, rename_keeps, open_keeps, close_keeps. Qed.
End one_call.
End calls.
