(* ===== verification/FsOpsProps.v ===== *)
(** * What the file system operations do to the tree

    Creating, removing and renaming, each on all its outcomes: the paths of the
    tree afterwards, as a function of the paths before.  And for any sequence of
    calls: the invariant holds, no call waits for itself or uses a freed dentry,
    and nothing that was removed stays in memory once its handles are closed. *)

From stdpp Require Import relations.
From S2P Require Import Prelude LtfsError Extents TapeOps TapeLayer Journal Dentry DentryRun DentryTree DentryLookup DentryProps DentryEdit DentryPaths DentryCounts FsOps FsOpsRun FsOpsInv FsCreate FsUnlink FsHold FsMove FsRename FsHandles FsReach.

(** ** The paths after an operation *)

Lemma resolve_heq h h' r q : heq h h' -> resolve h r q = resolve h' r q.
Proof. intros E. apply resolve_ext. intros b n. symmetry. by apply heq_child. Qed.

Lemma created_resolve h r b y q n d x :
  tree_ok h r -> resolve h r q = Some b -> h !! b = Some y -> isdir y = true -> child h b n = None -> file_name n ->
  h !! d = None -> d <> r -> fresh_core n (isdir x) (uid x) x ->
  forall q', resolve (attach b n d (uid x) (dir_n x) (<[d := x]> h)) r q' =
    if decide (q' = q ++ [n]) then Some d else resolve h r q'.
Proof.
  intros T Hq Hy Hdir Hc Hn Hd Hdr Hx q'. injection Hx as Ep Epn Edn Edel Ec En El Eo _ _.
  assert (b <> d) as Hb by congruence. assert (T1 : tree_ok (<[d := x]> h) r) by by apply tree_insert.
  assert (Hleaf : forall a m, child (<[d := x]> h) a m = child h a m) by (intros; by apply child_insert_leaf).
  assert (Hd1 : <[d := x]> h !! d = Some x) by by rewrite lookup_insert_eq.
  assert (Hy1 : <[d := x]> h !! b = Some y) by by rewrite lookup_insert_ne.
  assert (Hnone : forall m, child h d m = None) by (intros m; unfold child; by rewrite Hd).
  assert (Hloop : ~ rtc (parent_of (<[d := x]> h)) d b).
  { intros H. destruct (ancestor_resolve _ _ _ _ T1 H) as [w Hw]. destruct w as [|m w]; [by injection Hw|].
    cbn in Hw. by rewrite Hleaf, Hnone in Hw. }
  assert (Hres : forall e w, resolve (<[d := x]> h) e w = resolve h e w) by (intros; by apply resolve_ext).
  rewrite (resolve_attach _ r T1 d b (dir_n x) n x y Hd1 Ep Edel Hdr Hy1 Hdir) with (qp := q)
    by (done || by rewrite ?Hleaf, ?Hres). rewrite !Hres.
  destruct (decide (through q n q')) as [Hth|Hth].
  - apply through_iff in Hth as [w ->].
    replace (drop (S (length q)) (q ++ n :: w)) with w.
    2: { rewrite drop_app_ge by lia. by replace (S (length q) - length q)%nat with 1%nat by lia. }
    destruct w as [|m w]; [by rewrite decide_True|].
    rewrite decide_False by (intros E; apply app_inv_head in E; done).
    cbn. rewrite Hnone. cbn. change (n :: m :: w) with ([n] ++ (m :: w)).
    by rewrite app_assoc, resolve_app, resolve_snoc, Hq; cbn; rewrite Hc.
  - rewrite decide_False; [done|]. intros ->. apply Hth. exists []. by rewrite app_nil_r.
Qed.

(** Everything that is linked has a path: what is out of the tree has no entries. *)
Lemma linked_path h r refs next d x :
  heap_ok h r refs next -> h !! d = Some x -> linkedb r d x = true -> exists q, resolve h r q = Some d.
Proof.
  intros [T C O F]. revert x. induction (t_acyclic _ _ T d) as [d _ IH]. intros x Hx Hl.
  destruct (parent x) as [p|] eqn:Hp.
  - destruct (t_up _ _ T _ _ _ Hx Hp) as (y & n & Hy & _ & Hn & _ & _ & _ & He).
    destruct (IH p ltac:(by exists x) y Hy) as [q Hq].
    { destruct (linkedb r p y) eqn:El; [done|]. destruct (O p y Hy El) as [Hc _]. rewrite Hc in He. by apply not_elem_of_nil in He. }
    exists (q ++ [n]). rewrite resolve_snoc, Hq. cbn. apply (child_iff _ _ T). eauto.
  - unfold linkedb in Hl. rewrite Hp in Hl. rewrite bool_decide_false in Hl by (intros E; by destruct E).
    exists []. cbn in *. f_equal. lia.
Qed.

(** ** Create, unlink, rename *)

Section props.
Context (strlen : path -> Z) (pathname_format : path -> Z * path) (set_appendonly : path -> fs Z).
Context (s : fs_state) (refs : Z -> Z) (ck : vol_checks).
Context (OK : fs_ok s refs) (RD : ready s) (CK : checks_pass ck) (NW : no_worm (heap s)).

#[local] Abbreviation h := (heap s).
#[local] Abbreviation r := (root s).

(** C13: creating a file or directory (no write-once directories): when the
    directory does not exist or the name is taken, an error and nothing is
    changed; otherwise a fresh dentry has exactly that path, every other path
    means what it meant, the caller has its only handle, and all counters are
    exact again. *)
Theorem create_adds_one_name p q n dir ro overwrite :
  names strlen pathname_format p q n -> parent_is_dir s q ->
  let run := ltfs_fsops_create strlen pathname_format set_appendonly ck true p dir ro overwrite in
  match resolve h r q, resolve h r (q ++ [n]) with
  | None, _ => run s = Done (- LTFS_NO_DENTRY, None) s
  | Some _, Some _ => run s = Done (- LTFS_DENTRY_EXISTS, None) s
  | Some _, None => exists d s', run s = Done (0, Some d) s' /\ h !! d = None /\
      isdir <$> heap s' !! d = Some dir /\ fs_ok s' (fun e => if decide (e = d) then 1 else refs e) /\ locks s' = ∅ /\
      forall q', resolve (heap s') (root s') q' = if decide (q' = q ++ [n]) then Some d else resolve h r q'
  end.
Proof.
  intros [Hp Hv] Hdir run. destruct (resolve h r q) as [b|] eqn:Hr; [|by eapply create_no_dir].
  pose proof OK as [HOK HF]. pose proof HOK as [T C O F].
  destruct (resolve_live _ _ T _ _ Hr) as [y Hy]. pose proof (NW _ _ Hy) as W. apply orb_false_iff in W as [Wi Wa].
  rewrite resolve_snoc, Hr. cbn [mbind option_bind]. destruct (child h b n) as [d|] eqn:Hc.
  { eapply create_exists; try done. by rewrite Wa. }
  assert (Hyd : isdir y = true) by (by eapply Hdir). destruct (valid_snoc _ _ _ Hv) as (_ & Hn & _).
  edestruct (create_new strlen pathname_format set_appendonly s refs ck p q n dir ro overwrite) as
    (x & s' & E & Hx & H & R & L & M & N & U & Fc); try done.
  assert (h !! next_address s = None) as Hnd.
  { destruct (h !! next_address s) eqn:Ez; [|done]. pose proof (F (next_address s) ltac:(eauto)). lia. }
  assert (Hbn : b <> next_address s) by congruence.
  assert (next_address s <> r) as Hnr. { intros Er. destruct (t_root _ _ T) as (z & Hz & _). rewrite <- Er in Hz. congruence. }
  pose proof Hx as [= Ep Epn Edn Edi Edel Ec En El Eo Ei Ea].
  assert (Hx' : fresh_core n (isdir x) (uid x) x) by (by rewrite Edi). exists (next_address s), s'.
  split_and!; [exact E|exact Hnd| | |exact L|].
  - assert (attach b n (next_address s) (uid x) (dir_n x) (<[next_address s := x]> h) !! next_address s = Some (make_link b n x)) as Hl.
    { unfold attach. look. done. }
    symmetry in H. destruct (heq_some _ _ _ _ H Hl) as (z & Hz & [= _ _ _ Edz _ _ _ _ _ _ _ _]). rewrite Hz. cbn. f_equal.
    by rewrite <- Edz, <- Edi.
  - split; [rewrite H, R, N; by eapply heap_create; [done|apply RD|..]|]. rewrite H, R, Fc, HF.
    rewrite (files_attach _ _ _ _ _ _ _ x y); [|by rewrite lookup_insert_eq|done|done|by rewrite lookup_insert_ne|done].
    rewrite files_insert, is_file_unlinked by done. unfold dir_n. rewrite Edi. destruct dir; lia.
  - intros q'. rewrite (resolve_heq _ _ _ _ H), R. by eapply created_resolve.
Qed.

(** C12: removing a name: an error and nothing is changed when there is no such
    name, when it or its directory is write-once, or when it is a directory that
    has entries; otherwise exactly the paths through the name are gone, and the
    dentry is freed at once unless somebody has a handle of it (or its last
    synchronisation failed). *)
Theorem unlink_removes_one_name p q n :
  names strlen pathname_format p q n ->
  let run := ltfs_fsops_unlink strlen pathname_format true ck p in
  match resolve h r (q ++ [n]) with
  | None => run s = Done (- LTFS_NO_DENTRY, (0, 0)) s
  | Some d => exists b x y, resolve h r q = Some b /\ h !! d = Some x /\ h !! b = Some y /\
      if unlink_refusal y x =? 0 then
        exists s', run s = Done (0, (uid x, ino x)) s' /\ fs_ok s' refs /\ locks s' = ∅ /\
          (forall q', resolve (heap s') (root s') q' = if decide (through q n q') then None else resolve h r q') /\
          (is_Some (heap s' !! d) <-> 0 < refs d \/ out_of_sync x = true)
      else run s = Done (unlink_refusal y x, (0, 0)) s
  end.
Proof.
  intros [Hp Hv] run. pose proof OK as [HOK HF]. pose proof HOK as [T C O F].
  destruct (resolve h r (q ++ [n])) as [d|] eqn:Hr; [|by eapply unlink_no_dentry].
  pose proof Hr as Hr'. rewrite resolve_snoc in Hr'. apply bind_Some in Hr' as (b & Hb & Hc).
  apply (child_iff _ _ T) in Hc as (x & Hx & Hpx & Hn). destruct (resolve_live _ _ T _ _ Hb) as [y Hy].
  exists b, x, y. split_and!; [done..|]. destruct (Z.eqb_spec (unlink_refusal y x) 0) as [H0|Hne].
  2: { eapply (unlink_refused strlen pathname_format s refs ck p q n OK RD CK Hp Hv d b x y); try done.
       unfold unlink_refusal in *. repeat case_match; done. }
  destruct (unlink_done strlen pathname_format s refs ck p q n OK RD CK Hp Hv d b x y Hr Hx Hpx Hy H0) as
    (s' & E & H & R & L & M & N & U & Fc). exists s'.
  assert (Hleaf : child_list x = []).
  { destruct (isdir x) eqn:Ei; [by eapply unlink_allowed|by eapply file_no_children]. }
  split_and!; [exact E| |exact L| |].
  - split; [rewrite H, R, N; by eapply removed_ok; [done|apply RD|..]|].
    rewrite H, R, Fc, HF. symmetry. by eapply removed_files.
  - intros q'. rewrite (resolve_heq _ _ _ _ H), R. by eapply removed_resolve.
  - assert (is_Some (heap s' !! d) <-> is_Some (removed b n d x refs (heap s) !! d)) as ->.
    { split; intros He; by eapply heq_live. }
    destruct (C d x Hx) as (_ & Cr & _). unfold removed.
    pose proof (cut_lookup_d h r refs _ HOK d b x n Hx Hpx (dir_n x)) as Hcut.
    destruct ((refs d =? 0) && negb (out_of_sync x)) eqn:Ed.
    + apply andb_true_iff in Ed as [E1 E2]. apply negb_true_iff in E2. rewrite lookup_delete_eq, E2.
      split; [by intros []|]. intros [?|?]; [lia|done].
    + rewrite Hcut. split; [|eauto]. intros _. apply andb_false_iff in Ed as [Ed|Ed]; [left; lia|right].
      by apply negb_false_iff in Ed.
Qed.

(** C11: renaming (nothing write-once): when the old name or the new directory
    does not exist, when the new name is below the old one, or when it belongs
    to a directory with entries or to an ancestor, an error and nothing is
    changed; otherwise the paths through the new name are those that went
    through the old one, no path goes through the old name, every other path
    means what it meant, and all counters are exact. *)
Theorem rename_moves_one_name from to qf nf qt nt :
  names strlen pathname_format from qf nf -> names strlen pathname_format to qt nt -> parent_is_dir s qt ->
  let run := ltfs_fsops_rename strlen pathname_format true ck from to in
  match resolve h r (qf ++ [nf]), resolve h r qt with
  | Some f, Some b => forall xf, h !! f = Some xf ->
      let code := rename_refusal qf qt nf nt xf (target s nt b) in
      if code =? 0 then
        exists id s', run s = Done (0, id) s' /\ fs_ok s' refs /\ locks s' = ∅ /\
          forall q, resolve (heap s') (root s') q =
            if decide (through qt nt q) then resolve h r (qf ++ nf :: drop (S (length qt)) q)
            else if decide (through qf nf q) then None else resolve h r q
      else exists id, run s = Done (code, id) s
  | _, _ => run s = Done (- LTFS_NO_DENTRY, (0, 0)) s
  end.
Proof.
  intros [Hpf Hvf] [Hpt Hvt] Hdir run. pose proof OK as [HOK HF]. pose proof HOK as [T C O F].
  destruct (valid_snoc _ _ _ Hvf) as (_ & Hnf & Hlf), (valid_snoc _ _ _ Hvt) as (_ & Hnt & Hlt).
  pose proof (rename_start strlen pathname_format s refs ck from to qf qt nf nt OK RD CK Hpf Hvf Hpt Hvt) as Hstart.
  rewrite resolve_snoc.  destruct (resolve h r qf) as [a|] eqn:Ha; cbn [mbind option_bind].
  2: { apply wp_eq, Hstart. by rewrite st_unlocked by apply RD. }
  destruct (resolve_live _ _ T _ _ Ha) as [ya Hya].
  destruct (resolve h r qt) as [b|] eqn:Hb.
  2: { assert (run s = Done (- LTFS_NO_DENTRY, (0, 0)) s) as E; [|by destruct (child h a nf)].
       apply wp_eq, Hstart. by rewrite st_unlocked by apply RD. }
  destruct (resolve_live _ _ T _ _ Hb) as [yb Hyb].
  assert (Hgo : forall Q, wp (rename_in_dirs strlen a b (slashed (qf ++ [nf])) (slashed (qt ++ [nt])) nf nt)
    (st s (hold [b; a] h) rename_held) Q -> wp run (st s h (locks s)) Q).
  { intros Q HQ. apply Hstart. intros ya' yb' Hya' Hyb'. split_and!; [by eapply NW..|done]. }
  destruct (child h a nf) as [f|] eqn:Hf.
  2: { apply wp_eq, Hgo. eapply (wp_rename_in_dirs_none strlen s refs OK RD qf qt nf nt a b ya yb); try done.
       by rewrite st_unlocked by apply RD. }
  intros xf Hxf. set (code := rename_refusal qf qt nf nt xf (target s nt b)). assert (Wf : worm xf = false) by (by eapply NW).
  destruct (Z.eqb_spec code 0) as [H0|Hne].
  - enough (W : wp run (st s h (locks s)) (fun res s' => fst res = 0 /\ fs_ok s' refs /\ locks s' = ∅ /\
      forall q, resolve (heap s') (root s') q =
            if decide (through qt nt q) then resolve h r (qf ++ nf :: drop (S (length qt)) q)
            else if decide (through qf nf q) then None else resolve h r q)).
    { apply wp_at in W as ([ret id] & s' & E & Hret & W). cbn in Hret. subst ret. by exists id, s'. }
    apply Hgo. eapply (wp_rename_in_dirs_done strlen s refs OK RD qf qt nf nt a b ya yb Ha Hya Hb Hyb Hlf Hlt f xf);
      [exact Hf|exact Hxf|by rewrite Wf|exact H0|by eapply Hdir|exact Hnt|].
    intros id s' H R L M N U Fc.
    edestruct (renamed_ok s refs OK RD qf qt nf nt a b ya yb Ha Hya Hb Hyb f xf) as [HOK1 HF1];
      [exact Hf|exact Hxf|by rewrite Wf|exact H0|by eapply Hdir|exact Hnt|].
    split_and!; [done| |done|].
    + split; [by rewrite H, R, N|]. by rewrite H, R, Fc, HF1.
    + intros q. rewrite (resolve_heq _ _ _ _ H), R. eapply (renamed_resolve s refs OK RD qf qt nf nt a b ya yb); try done;
        [by rewrite Wf|by eapply Hdir].
  - enough (W : wp run (st s h (locks s)) (fun res s' => fst res = code /\ s' = s)).
    { apply wp_at in W as ([ret id] & s' & E & Hret & ->). cbn in Hret. subst ret. by exists id. }
    apply Hgo. eapply (wp_rename_in_dirs_refused strlen s refs OK RD qf qt nf nt a b ya yb); try done; [by rewrite Wf| |].
    + destruct (rename_refusal_cases qf qt nf nt xf (target s nt b)); done.
    + intros id. by rewrite st_unlocked by apply RD.
Qed.
End props.

(** ** Sequences of calls *)

Section sequences.
Context (strlen : path -> Z) (pathname_format : path -> Z * path) (set_appendonly : path -> fs Z).
Context (ck : vol_checks) (blocksize : Z) (CK : checks_pass ck).
Context (s0 : fs_state) (refs0 : Z -> Z).

#[local] Abbreviation exec := (exec strlen pathname_format set_appendonly ck blocksize).
#[local] Abbreviation call_ok := (call_ok strlen pathname_format).

(** The states, with the handles that are out, that [n] calls reach. *)
Inductive reach : nat -> fs_state -> (Z -> Z) -> Prop :=
  | reach_start : reach 0 s0 refs0
  | reach_call n s refs op res s' :
      reach n s refs -> call_ok s refs op -> exec op s = Done res s' ->
      reach (S n) s' (handles_after op res refs).

Lemma reach_good B n s refs : good B s0 refs0 -> B + Z.of_nat n < 2 ^ 31 -> reach n s refs -> good (B + Z.of_nat n) s refs.
Proof.
  intros G HB H. induction H as [|n s refs op res s' H IH Hop E]; [by rewrite Z.add_0_r|].
  destruct (call_keeps strlen pathname_format set_appendonly ck blocksize CK (B + Z.of_nat n) s refs (IH ltac:(lia)) ltac:(lia) op Hop)
    as (res' & s'' & E' & G'). rewrite E in E'. injection E' as <- <-.
  by replace (B + Z.of_nat (S n)) with (B + Z.of_nat n + 1) by lia.
Qed.

(** C10: take a well-formed volume without write-once objects, and a host whose
    allocations succeed.  After any sequence of fewer than 2^31 create, unlink,
    rename, open and close calls, in which names are made only in directories and
    only open handles are closed (what FUSE guarantees), the dentries form a tree
    whose handle counts, link counts and file count are exact and no lock is held;
    and the next such call returns: it never waits for a lock that it holds itself, never releases
    one that it does not hold and never touches a freed dentry. *)
Theorem calls_keep_the_tree B n s refs :
  good B s0 refs0 -> B + Z.of_nat n < 2 ^ 31 -> reach n s refs ->
  fs_ok s refs /\ locks s = ∅ /\
  forall op, call_ok s refs op -> exists res s', exec op s = Done res s' /\ reach (S n) s' (handles_after op res refs).
Proof.
  intros G HB H. pose proof (reach_good B n s refs G HB H) as Gn. split_and!; [apply Gn|apply Gn|].
  intros op Hop. destruct (call_keeps strlen pathname_format set_appendonly ck blocksize CK _ s refs Gn HB op Hop)
    as (res & s' & E & _). exists res, s'. split; [done|]. by eapply reach_call.
Qed.

(** C17: nothing leaks: under the same conditions (no write-once objects, allocations
    succeed, fewer than 2^31 calls, names made in directories, open handles closed),
    after any such sequence that closed every handle, every dentry in memory that is not marked
    out of sync has a path from the root.  A dentry whose synchronisation failed is kept
    by the code on purpose. *)
Theorem closed_files_are_freed B n s refs d x :
  good B s0 refs0 -> B + Z.of_nat n < 2 ^ 31 -> reach n s refs -> (forall e, refs e = 0) ->
  heap s !! d = Some x -> out_of_sync x = false -> exists q, resolve (heap s) (root s) q = Some d.
Proof.
  intros G HB H Hz Hx Ho. pose proof (reach_good B n s refs G HB H) as Gn. destruct (fs_heap _ _ (g_ok _ _ _ Gn)) as [T C O F].
  eapply (linked_path _ _ refs (next_address s)); [by split|done|]. destruct (linkedb (root s) d x) eqn:El; [done|].
  destruct (O d x Hx El) as (_ & _ & [Hr|Hr]); [|congruence]. specialize (Hz d). lia.
Qed.
End sequences.
