(* ===== verification/FsWitness.v ===== *)
(** * A small volume

    The properties of [DentryProps] and [FsOpsProps] at work on a concrete
    volume: the directory /a with the file /a/f, and the file /g. *)

From stdpp Require Import relations.
From S2P Require Import Prelude LtfsError Extents TapeOps TapeLayer Journal Dentry DentryRun DentryTree DentryLookup DentryProps DentryEdit DentryPaths DentryCounts FsOps FsOpsRun FsOpsInv FsCreate FsUnlink FsHold FsMove FsRename FsHandles FsReach FsOpsProps.

Definition demo_format (p : path) : Z * path := (0, p).
Definition demo_appendonly (p : path) : fs Z := fret 0.
Definition demo_ck : vol_checks := mk_checks 0 0 0.

Definition demo_root : dentry :=
  zero_dentry <| isdir := true |> <| uid := 1 |> <| numhandles := 1 |> <| link_count := 1 |>.

(** A freshly formatted volume. *)
Definition empty_volume : fs_state :=
  mk_fs {[1 := demo_root]} 2 [] [] ∅ 0 1 1 0 0 false false false false 0 0 0 (mk_jvolume [] [] false) (fun _ => false) 0 [].

Lemma empty_volume_lookup d x : heap empty_volume !! d = Some x -> d = 1 /\ x = demo_root.
Proof.
  intros Hx. change (heap empty_volume) with ({[1 := demo_root]} : gmap Z dentry) in Hx.
  by apply lookup_singleton_Some in Hx as [<- <-].
Qed.

Lemma empty_volume_tree : tree_ok (heap empty_volume) 1.
Proof.
  pose proof empty_volume_lookup as H.
  split.
  - by exists demo_root.
  - intros d x p Hx Hp. by destruct (H d x Hx) as [-> ->].
  - intros p y e Hy He. destruct (H p y Hy) as [-> ->]. by apply not_elem_of_nil in He.
  - intros p y Hy. destruct (H p y Hy) as [-> ->]. constructor.
  - intros d. constructor. intros e (x & Hx & Hp). by destruct (H d x Hx) as [-> ->].
Qed.

Lemma empty_volume_good : good 3 empty_volume (fun _ => 0).
Proof.
  pose proof empty_volume_lookup as H.
  split; [|done|done|cbn; lia|lia|lia|vm_compute; congruence|].
  - split; [|vm_compute; reflexivity]. split; [apply empty_volume_tree| | |].
    + intros d x Hx. by destruct (H d x Hx) as [-> ->].
    + intros d x Hx. by destruct (H d x Hx) as [-> ->].
    + intros d [x Hx]. by destruct (H d x Hx) as [-> ->].
  - intros d x Hx. by destruct (H d x Hx) as [-> ->].
Qed.

Lemma demo_ck_ok : checks_pass demo_ck.
Proof. by unfold checks_pass. Qed.

(** ** Calls on it *)

#[local] Abbreviation exec := (exec zlength demo_format demo_appendonly demo_ck 512).

Definition result (op : fsop) (s : fs_state) : Z * option Z :=
  match exec op s with Done res _ => res | _ => (-1, None) end.
Definition after (op : fsop) (s : fs_state) : fs_state := match exec op s with Done _ s' => s' | _ => s end.

Lemma after_done B s refs op :
  good B s refs -> B < 2 ^ 31 -> call_ok zlength demo_format s refs op -> exec op s = Done (result op s) (after op s).
Proof.
  intros G HB Hop. destruct (call_keeps zlength demo_format demo_appendonly demo_ck 512 demo_ck_ok B s refs G HB op Hop)
    as (res & s' & E & _). unfold result, after. by rewrite E.
Qed.

Lemma after_good B s refs op :
  good B s refs -> B < 2 ^ 31 -> call_ok zlength demo_format s refs op ->
  good (B + 1) (after op s) (handles_after op (result op s) refs).
Proof.
  intros G HB Hop. destruct (call_keeps zlength demo_format demo_appendonly demo_ck 512 demo_ck_ok B s refs G HB op Hop)
    as (res & s' & E & HG). unfold result, after. by rewrite E.
Qed.

(** Names of one letter. *)
Definition a : path := [97].
Definition f : path := [102].
Definition g : path := [103].
Definition k : path := [107].

Definition demo_names : list path := [a; f; g; k].

Lemma demo_name m : m ∈ demo_names -> file_name m /\ zlength m <= LTFS_FILENAME_MAX.
Proof.
  intros Hm. repeat (apply elem_of_cons in Hm as [->|Hm];
    [split; [|by vm_compute]; split; [done|]; intros H; by apply list_elem_of_singleton in H|]).
  by apply not_elem_of_nil in Hm.
Qed.

Lemma valid_letters q : Forall (fun m => m ∈ demo_names) q -> valid_names zlength q.
Proof. intros H. split; (eapply Forall_impl; [exact H|]); intros m Hm; by apply demo_name. Qed.

Ltac letters := apply valid_letters, (bool_decide_unpack _); vm_compute; exact I.
Ltac named := split; [reflexivity|letters].
Ltac known_dir :=
  let H := fresh in let H' := fresh in
  intros ? ? H H'; vm_compute in H; injection H as <-; vm_compute in H'; injection H' as <-; reflexivity.

(** The volume: /a, /a/f and /g are made, and closed again. *)
Definition op1 : fsop := Create (slashed [a]) true false false.
Definition op2 : fsop := Create (slashed [a; f]) false false false.
Definition op3 : fsop := Create (slashed [g]) false false false.
Definition op4 : fsop := Close 2 false false false 0.
Definition op5 : fsop := Close 3 true true true 0.
Definition op6 : fsop := Close 4 false false true 0.

Definition volume1 : fs_state := after op1 empty_volume.
Definition volume2 : fs_state := after op2 volume1.
Definition volume3 : fs_state := after op3 volume2.
Definition volume4 : fs_state := after op4 volume3.
Definition volume5 : fs_state := after op5 volume4.
Definition demo : fs_state := after op6 volume5.

Definition refs1 := handles_after op1 (result op1 empty_volume) (fun _ => 0).
Definition refs2 := handles_after op2 (result op2 volume1) refs1.
Definition refs3 := handles_after op3 (result op3 volume2) refs2.
Definition refs4 := handles_after op4 (result op4 volume3) refs3.
Definition refs5 := handles_after op5 (result op5 volume4) refs4.
Definition demo_refs := handles_after op6 (result op6 volume5) refs5.

#[local] Abbreviation call_ok := (call_ok zlength demo_format).

Lemma op1_ok : call_ok empty_volume (fun _ => 0) op1.
Proof. exists [], a. split; [named|known_dir]. Qed.
Lemma op2_ok : call_ok volume1 refs1 op2.
Proof. exists [a], f. split; [named|known_dir]. Qed.
Lemma op3_ok : call_ok volume2 refs2 op3.
Proof. exists [], g. split; [named|known_dir]. Qed.
Lemma op4_ok : call_ok volume3 refs3 op4. Proof. by vm_compute. Qed.
Lemma op5_ok : call_ok volume4 refs4 op5. Proof. by vm_compute. Qed.
Lemma op6_ok : call_ok volume5 refs5 op6. Proof. by vm_compute. Qed.

Lemma volume1_good : good 4 volume1 refs1. Proof. by apply (after_good 3); [apply empty_volume_good| |apply op1_ok]. Qed.
Lemma volume2_good : good 5 volume2 refs2. Proof. by apply (after_good 4); [apply volume1_good| |apply op2_ok]. Qed.
Lemma volume3_good : good 6 volume3 refs3. Proof. by apply (after_good 5); [apply volume2_good| |apply op3_ok]. Qed.
Lemma volume4_good : good 7 volume4 refs4. Proof. by apply (after_good 6); [apply volume3_good| |apply op4_ok]. Qed.
Lemma volume5_good : good 8 volume5 refs5. Proof. by apply (after_good 7); [apply volume4_good| |apply op5_ok]. Qed.
Lemma demo_good : good 9 demo demo_refs. Proof. by apply (after_good 8); [apply volume5_good| |apply op6_ok]. Qed.

Lemma demo_reach : reach zlength demo_format demo_appendonly demo_ck 512 empty_volume (fun _ => 0) 6 demo demo_refs.
Proof.
  eapply reach_call; [|apply op6_ok|eapply after_done; [apply volume5_good|done|apply op6_ok]].
  eapply reach_call; [|apply op5_ok|eapply after_done; [apply volume4_good|done|apply op5_ok]].
  eapply reach_call; [|apply op4_ok|eapply after_done; [apply volume3_good|done|apply op4_ok]].
  eapply reach_call; [|apply op3_ok|eapply after_done; [apply volume2_good|done|apply op3_ok]].
  eapply reach_call; [|apply op2_ok|eapply after_done; [apply volume1_good|done|apply op2_ok]].
  eapply reach_call; [|apply op1_ok|eapply after_done; [apply empty_volume_good|done|apply op1_ok]]. constructor.
Qed.

Lemma demo_ready : ready demo. Proof. apply (good_ready 9 demo demo_refs demo_good). done. Qed.
Lemma demo_quiet : quiet demo. Proof. exact (ready_quiet _ _ (g_ok _ _ _ demo_good) demo_ready). Qed.

(** ** The properties on it *)

Lemma fs_path_lookup_resolves_witness :
  exists pa s', fs_path_lookup zlength (slashed [a; f]) 0 demo = Done (0, Some 3) s' /\
    (forall b, pa = Some b <-> parent_of (heap demo) b 3) /\
    heap s' = lookup_heap 0 3 pa (heap demo) /\ locks s' = lookup_locks 0 3 pa (locks demo).
Proof.
  pose proof (fs_path_lookup_resolves zlength demo (slashed [a; f]) 0 demo_quiet) as H.
  change (names_of (slashed [a; f])) with [a; f] in H.
  replace (resolve (heap demo) (root demo) [a; f]) with (Some 3) in H by (vm_compute; reflexivity).
  apply H. apply (valid_letters [a; f]), (bool_decide_unpack _). vm_compute. exact I.
Defined.

Lemma dentry_path_round_trip_witness :
  exists p, fs_dentry_lookup 3 demo = Done (0, Some p) demo /\
            fs_path_lookup zlength p 0 demo = Done (0, Some 3) (demo <| heap := ref_h 3 (heap demo) |>).
Proof.
  apply (dentry_path_round_trip zlength demo [a; f] 3 demo_quiet); [vm_compute; reflexivity|].
  apply (valid_letters [a; f]), (bool_decide_unpack _). vm_compute. exact I.
Defined.

Lemma create_adds_one_name_witness :
  exists d s', ltfs_fsops_create zlength demo_format demo_appendonly demo_ck true (slashed [a; k]) false false false demo
      = Done (0, Some d) s' /\
    resolve (heap s') (root s') [a; k] = Some d /\ resolve (heap s') (root s') [g] = Some 4.
Proof.
  pose proof (create_adds_one_name zlength demo_format demo_appendonly demo demo_refs demo_ck (g_ok _ _ _ demo_good) demo_ready
    demo_ck_ok (g_worm _ _ _ demo_good) (slashed [a; k]) [a] k false false false ltac:(named) ltac:(known_dir)) as H.
  replace (resolve (heap demo) (root demo) [a]) with (Some 2) in H by (vm_compute; reflexivity).
  replace (resolve (heap demo) (root demo) ([a] ++ [k])) with (@None Z) in H by (vm_compute; reflexivity).
  destruct H as (d & s' & E & _ & _ & _ & _ & H). exists d, s'. split; [exact E|]. rewrite !H. split; reflexivity.
Defined.

Lemma unlink_removes_one_name_witness :
  exists s', ltfs_fsops_unlink zlength demo_format true demo_ck (slashed [g]) demo = Done (0, (4, 3)) s' /\
    resolve (heap s') (root s') [g] = None /\ resolve (heap s') (root s') [a; f] = Some 3 /\ heap s' !! 4 = None.
Proof.
  pose proof (unlink_removes_one_name zlength demo_format demo demo_refs demo_ck (g_ok _ _ _ demo_good) demo_ready
    demo_ck_ok (slashed [g]) [] g ltac:(named)) as H.
  replace (resolve (heap demo) (root demo) ([] ++ [g])) with (Some 4) in H by (vm_compute; reflexivity).
  destruct H as (b & x & y & Hb & Hx & Hy & H). vm_compute in Hb. injection Hb as <-.
  vm_compute in Hx. injection Hx as <-. vm_compute in Hy. injection Hy as <-.
  match type of H with (if ?c then _ else _) => replace c with true in H by (vm_compute; reflexivity) end.
  destruct H as (s' & E & _ & _ & H & Hlive). exists s'. split; [exact E|]. rewrite !H.
  split; [reflexivity|]. split; [reflexivity|]. destruct (heap s' !! 4) as [z|]; [|reflexivity].
  destruct (proj1 Hlive ltac:(eauto)) as [Hr|Hr]; vm_compute in Hr; discriminate.
Defined.

Lemma rename_moves_one_name_witness :
  exists id s', ltfs_fsops_rename zlength demo_format true demo_ck (slashed [a]) (slashed [k]) demo = Done (0, id) s' /\
    resolve (heap s') (root s') [k; f] = Some 3 /\ resolve (heap s') (root s') [a; f] = None /\
    resolve (heap s') (root s') [g] = Some 4.
Proof.
  pose proof (rename_moves_one_name zlength demo_format demo demo_refs demo_ck (g_ok _ _ _ demo_good) demo_ready
    demo_ck_ok (g_worm _ _ _ demo_good) (slashed [a]) (slashed [k]) [] a [] k ltac:(named) ltac:(named) ltac:(known_dir)) as H.
  replace (resolve (heap demo) (root demo) ([] ++ [a])) with (Some 2) in H by (vm_compute; reflexivity).
  replace (resolve (heap demo) (root demo) []) with (Some 1) in H by (vm_compute; reflexivity).
  assert (exists x, heap demo !! 2 = Some x) as [x Hx] by (eexists; vm_compute; reflexivity).
  specialize (H x Hx). vm_compute in Hx. injection Hx as <-. cbv zeta in H.
  match type of H with (if ?c then _ else _) => replace c with true in H by (vm_compute; reflexivity) end.
  destruct H as (id & s' & E & _ & _ & H). exists id, s'. split; [exact E|]. rewrite !H. repeat split; reflexivity.
Defined.

Lemma calls_keep_the_tree_witness :
  fs_ok demo demo_refs /\ locks demo = ∅ /\ exists res s', exec (Rename (slashed [a; f]) (slashed [g])) demo = Done res s'.
Proof.
  destruct (calls_keep_the_tree zlength demo_format demo_appendonly demo_ck 512 demo_ck_ok empty_volume (fun _ => 0) 3 6
    demo demo_refs empty_volume_good ltac:(lia) demo_reach) as (H1 & H2 & H3).
  split; [exact H1|]. split; [exact H2|]. destruct (H3 (Rename (slashed [a; f]) (slashed [g]))) as (res & s' & E & _); [|eauto].
  exists [a], f, [], g. split; [named|]. split; [named|known_dir].
Defined.

Lemma closed_files_are_freed_witness : exists q, resolve (heap demo) (root demo) q = Some 3.
Proof.
  assert (exists x, heap demo !! 3 = Some x) as [x Hx] by (eexists; vm_compute; reflexivity).
  apply (closed_files_are_freed zlength demo_format demo_appendonly demo_ck 512 demo_ck_ok empty_volume (fun _ => 0) 3 6
    demo demo_refs 3 x empty_volume_good ltac:(lia) demo_reach); [|exact Hx|vm_compute in Hx; injection Hx as <-; reflexivity].
  intros e. change (demo_refs e) with (drop_ref 4 (drop_ref 3 (drop_ref 2 (add_ref 4 (add_ref 3 (add_ref 2 (fun _ => 0)))))) e).
  unfold drop_ref, add_ref. repeat case_decide; congruence || lia.
Defined.
