(* ===== verification/Mrsw.v ===== *)
(** * The multiple-reader single-writer lock (src/libltfs/ltfs_locking_old.h)

    The lock of the dentries and of the volume, made of three mutexes and a
    counter.  Each call is a sequence of atomic steps of a thread; the threads
    are interleaved in any order.  A mutex is a flag: [reading_mutex] is locked
    by the first reader and unlocked by the last, so it has no owner.

    A thread uses the lock one call at a time and does not lock it twice; what
    happens when it does is [nested_read_waits_forever]. *)

From S2P Require Import Prelude.

(** ** The lock and the threads *)

Record mrsw := mk_mrsw {
  write_exclusive_mutex : bool;
  reading_mutex : bool;
  read_count_mutex : bool;
  read_count : Z;
  writer : bool;
  long_lock : bool;
}.

#[export] Instance eta_mrsw : Eta mrsw := fun m =>
  mk_mrsw (write_exclusive_mutex m) (reading_mutex m) (read_count_mutex m) (read_count m) (writer m) (long_lock m).

Definition init_mrsw : mrsw := mk_mrsw false false false 0 false false.

(** Where a thread is: outside, holding the lock, or before the next step of a
    call. *)
Inductive pc :=
  | Idle | Reading | Writing
  (* acquirewrite_mrsw, acquirewrite_mrsw_long *)
  | AW_exclusive (long : bool) | AW_reading (long : bool) | AW_writer (long : bool) | AW_long (long : bool)
  (* try_acquirewrite_mrsw *)
  | TW_exclusive | TW_reading | TW_fail | TW_writer
  (* releasewrite_mrsw *)
  | RW_writer | RW_long | RW_reading | RW_exclusive
  (* acquireread_mrsw *)
  | AR_exclusive | AR_long | AR_unlock
  (* acquireread_mrsw_short *)
  | AS_first | AS_try | AS_again | AS_unlock
  (* the end of both *)
  | AR_count_lock | AR_count | AR_first | AR_count_unlock
  (* releaseread_mrsw *)
  | RR_count_lock | RR_count | RR_last | RR_count_unlock
  (* release_mrsw, called by a reader or by the writer *)
  | RE_reader | RE_writer
  (* writetoread_mrsw *)
  | WR_writer | WR_long | WR_reading | WR_count_lock | WR_count | WR_first | WR_count_unlock | WR_exclusive.

#[export] Instance pc_eq_dec : EqDecision pc.
Proof. solve_decision. Defined.

(** [ltfs_mutex_lock]: waits while the mutex is locked. *)
Definition lock (held : bool) (m' : mrsw) (p : pc) : option (mrsw * pc) := if held then None else Some (m', p).

(** The next step of a thread inside a call; [None]: it waits. *)
Definition step1 (m : mrsw) (p : pc) : option (mrsw * pc) :=
  let take_exclusive := m <| write_exclusive_mutex := true |> in
  let take_reading := m <| reading_mutex := true |> in
  let take_count := m <| read_count_mutex := true |> in
  let incremented := m <| read_count := u32 (read_count m + 1) |> in
  match p with
  | Idle | Reading | Writing => None
  | AW_exclusive l => lock (write_exclusive_mutex m) take_exclusive (AW_reading l)
  | AW_reading l => lock (reading_mutex m) take_reading (AW_writer l)
  | AW_writer l => Some (m <| writer := true |>, AW_long l)
  | AW_long l => Some (m <| long_lock := l |>, Writing)
  | TW_exclusive => if write_exclusive_mutex m then Some (m, Idle) else Some (take_exclusive, TW_reading)
  | TW_reading => if reading_mutex m then Some (m, TW_fail) else Some (take_reading, TW_writer)
  | TW_fail => Some (m <| write_exclusive_mutex := false |>, Idle)
  | TW_writer => Some (m <| writer := true |>, Writing)
  | RW_writer => Some (m <| writer := false |>, RW_long)
  | RW_long => Some (m <| long_lock := false |>, RW_reading)
  | RW_reading => Some (m <| reading_mutex := false |>, RW_exclusive)
  | RW_exclusive => Some (m <| write_exclusive_mutex := false |>, Idle)
  | AR_exclusive => lock (write_exclusive_mutex m) take_exclusive AR_long
  | AR_long => Some (m <| long_lock := false |>, AR_unlock)
  | AR_unlock => Some (m <| write_exclusive_mutex := false |>, AR_count_lock)
  | AS_first => if long_lock m then Some (m, Idle) else Some (m, AS_try)
  | AS_try => if write_exclusive_mutex m then Some (m, AS_again) else Some (take_exclusive, AS_unlock)
  | AS_again => if long_lock m then Some (m, Idle) else Some (m, AS_try)
  | AS_unlock => Some (m <| write_exclusive_mutex := false |>, AR_count_lock)
  | AR_count_lock => lock (read_count_mutex m) take_count AR_count
  | AR_count => Some (incremented, AR_first)
  | AR_first => if read_count m =? 1 then lock (reading_mutex m) take_reading AR_count_unlock
                else Some (m, AR_count_unlock)
  | AR_count_unlock => Some (m <| read_count_mutex := false |>, Reading)
  | RR_count_lock => lock (read_count_mutex m) take_count RR_count
  | RR_count => if read_count m <=? 0 then Some (m <| read_count := 0 |>, RR_count_unlock)
                else Some (m <| read_count := read_count m - 1 |>, RR_last)
  | RR_last => if read_count m =? 0 then Some (m <| reading_mutex := false |>, RR_count_unlock)
               else Some (m, RR_count_unlock)
  | RR_count_unlock => Some (m <| read_count_mutex := false |>, Idle)
  | RE_reader | RE_writer => Some (m, if writer m then RW_writer else RR_count_lock)
  | WR_writer => Some (m <| writer := false |>, WR_long)
  | WR_long => Some (m <| long_lock := false |>, WR_reading)
  | WR_reading => Some (m <| reading_mutex := false |>, WR_count_lock)
  | WR_count_lock => lock (read_count_mutex m) take_count WR_count
  | WR_count => Some (incremented, WR_first)
  | WR_first => if read_count m =? 1 then lock (reading_mutex m) take_reading WR_count_unlock
                else Some (m, WR_count_unlock)
  | WR_count_unlock => Some (m <| read_count_mutex := false |>, WR_exclusive)
  | WR_exclusive => Some (m <| write_exclusive_mutex := false |>, Reading)
  end.

(** The calls that a thread may make: to get the lock, or to give it back. *)
Inductive acquires : pc -> pc -> Prop :=
  | acquirewrite_mrsw long : acquires Idle (AW_exclusive long)
  | try_acquirewrite_mrsw : acquires Idle TW_exclusive
  | acquireread_mrsw : acquires Idle AR_exclusive
  | acquireread_mrsw_short : acquires Idle AS_first.

Inductive releases : pc -> pc -> Prop :=
  | releasewrite_mrsw : releases Writing RW_writer
  | releaseread_mrsw : releases Reading RR_count_lock
  | release_mrsw_reader : releases Reading RE_reader
  | release_mrsw_writer : releases Writing RE_writer
  | writetoread_mrsw : releases Writing WR_writer.

(** A step of one of the threads. *)
Inductive step : mrsw * list pc -> mrsw * list pc -> Prop :=
  | step_call m l i p p' : l !! i = Some p -> acquires p p' \/ releases p p' -> step (m, l) (m, <[i := p']> l)
  | step_inside m l i p m' p' : l !! i = Some p -> step1 m p = Some (m', p') -> step (m, l) (m', <[i := p']> l).

Definition started (n : nat) : mrsw * list pc := (init_mrsw, replicate n Idle).

Inductive reachable (n : nat) : mrsw * list pc -> Prop :=
  | reachable_start : reachable n (started n)
  | reachable_step c c' : reachable n c -> step c c' -> reachable n c'.

(** ** Who has what *)

(** The steps between which a thread has [write_exclusive_mutex] ... *)
Definition has_exclusive (p : pc) : bool :=
  match p with
  | Writing | AW_reading _ | AW_writer _ | AW_long _ | TW_reading | TW_fail | TW_writer
  | RW_writer | RW_long | RW_reading | RW_exclusive | AR_long | AR_unlock | AS_unlock | RE_writer
  | WR_writer | WR_long | WR_reading | WR_count_lock | WR_count | WR_first | WR_count_unlock | WR_exclusive => true
  | _ => false
  end.
(** ... [read_count_mutex] ... *)
Definition has_count (p : pc) : bool :=
  match p with
  | AR_count | AR_first | AR_count_unlock | RR_count | RR_last | RR_count_unlock
  | WR_count | WR_first | WR_count_unlock => true
  | _ => false
  end.
(** ... [reading_mutex] as the writer ... *)
Definition has_reading (p : pc) : bool :=
  match p with
  | Writing | AW_writer _ | AW_long _ | TW_writer | RW_writer | RW_long | RW_reading | RE_writer
  | WR_writer | WR_long | WR_reading => true
  | _ => false
  end.
(** ... the writer's flag set ... *)
Definition has_flag (p : pc) : bool :=
  match p with Writing | AW_long _ | RW_writer | RE_writer | WR_writer => true | _ => false end.
(** ... is counted as a reader and in, entering, or leaving as the last. *)
Definition is_reader (p : pc) : bool :=
  match p with
  | Reading | AR_count_unlock | RR_count_lock | RR_count | RE_reader | WR_count_unlock | WR_exclusive => true
  | _ => false
  end.
Definition is_entering (p : pc) : bool := match p with AR_first | WR_first => true | _ => false end.
Definition is_leaving (p : pc) : bool := match p with RR_last => true | _ => false end.

(** About to be counted; has [reading_mutex] as the writer without the flag. *)
Definition is_counting (p : pc) : bool := match p with AR_count | WR_count => true | _ => false end.
Definition no_flag (p : pc) : bool := has_reading p && negb (has_flag p).

Definition cnt (P : pc -> bool) (l : list pc) : Z := zsum ((fun p => Z.b2z (P p)) <$> l).

Lemma cnt_insert P l i p p' :
  l !! i = Some p -> cnt P (<[i := p']> l) = cnt P l - Z.b2z (P p) + Z.b2z (P p').
Proof.
  revert i. induction l as [|q l IH]; intros [|i] H; try done; cbn in H.
  - injection H as ->. change (<[0%nat := p']> (p :: l)) with (p' :: l). unfold cnt. rewrite !fmap_cons, !zsum_cons. lia.
  - specialize (IH i H). change (<[S i := p']> (q :: l)) with (q :: <[i := p']> l).
    unfold cnt in *. rewrite !fmap_cons, !zsum_cons. lia.
Qed.

Lemma cnt_le P Q l : (forall p, P p = true -> Q p = true) -> 0 <= cnt P l <= cnt Q l.
Proof.
  intros H. induction l as [|p l IH]; [done|]. unfold cnt in *. rewrite !fmap_cons, !zsum_cons.
  specialize (H p). destruct (P p), (Q p); cbn in *; try lia; try (exfalso; by discriminate H).
Qed.

Lemma cnt_at P l i p : l !! i = Some p -> Z.b2z (P p) <= cnt P l.
Proof.
  revert i. induction l as [|q l IH]; intros [|i] H; try done; cbn in H.
  - injection H as ->. destruct (cnt_le P P l) as [? _]; [done|]. unfold cnt in *. rewrite !fmap_cons, !zsum_cons. lia.
  - specialize (IH i H). unfold cnt in *. rewrite !fmap_cons, !zsum_cons. destruct (P q); cbn; lia.
Qed.

Lemma cnt_find P l : 0 < cnt P l -> exists i p, l !! i = Some p /\ P p = true.
Proof.
  induction l as [|p l IH]; intros H; [done|]. destruct (P p) eqn:E; [by exists 0%nat, p|].
  destruct IH as (i & q & Hi & Hq); [|by exists (S i), q]. unfold cnt in *. rewrite fmap_cons, zsum_cons, E in H. cbn in H. lia.
Qed.

Lemma cnt_length P l : cnt P l <= zlength l.
Proof.
  induction l as [|p l IH]; [done|]. rewrite zlength_cons. unfold cnt in *. rewrite fmap_cons, zsum_cons.
  destruct (P p); cbn; lia.
Qed.

(** The groups that cannot be larger than others. *)
Lemma cnt_facts l :
  0 <= cnt is_entering l /\ 0 <= cnt is_leaving l /\ cnt is_entering l + cnt is_leaving l <= cnt has_count l /\
  cnt has_flag l + cnt no_flag l = cnt has_reading l /\ 0 <= cnt no_flag l /\ 0 <= cnt has_flag l /\ cnt has_reading l <= cnt has_exclusive l /\
  0 <= cnt is_reader l /\ cnt is_reader l + cnt is_entering l + cnt is_counting l <= zlength l.
Proof.
  induction l as [|p l IH]; [by vm_compute|]. rewrite zlength_cons. unfold cnt in *. rewrite !fmap_cons, !zsum_cons.
  destruct p; cbn; lia.
Qed.

(** The invariant: each mutex is locked exactly when a thread has it,
    [reading_mutex] when a writer or some readers have it. *)
Record inv (m : mrsw) (l : list pc) : Prop := {
  inv_exclusive : cnt has_exclusive l = Z.b2z (write_exclusive_mutex m);
  inv_count : cnt has_count l = Z.b2z (read_count_mutex m);
  inv_readers : read_count m = cnt is_reader l + cnt is_entering l;
  inv_reading : cnt has_reading l + Z.min 1 (cnt is_reader l + cnt is_leaving l) = Z.b2z (reading_mutex m);
  inv_flag : cnt has_flag l = Z.b2z (writer m);
}.

Lemma zlength_insert {A} i (x : A) l : zlength (<[i := x]> l) = zlength l.
Proof. unfold zlength. by rewrite length_insert. Qed.

Lemma b2z_range b : 0 <= Z.b2z b <= 1. Proof. destruct b; cbn; lia. Qed.

Lemma inv_step1 m l i p m' p' :
  inv m l -> zlength l < 2 ^ 32 -> l !! i = Some p -> step1 m p = Some (m', p') -> inv m' (<[i := p']> l).
Proof.
  intros [I1 I2 I3 I4 I5] Hlen Hi Hs. pose proof (cnt_facts l) as F.
  pose proof (cnt_at has_exclusive l i p Hi). pose proof (cnt_at has_count l i p Hi). pose proof (cnt_at is_reader l i p Hi).
  pose proof (cnt_at has_reading l i p Hi). pose proof (cnt_at is_entering l i p Hi). pose proof (cnt_at is_leaving l i p Hi).
  pose proof (cnt_at has_flag l i p Hi). pose proof (cnt_at no_flag l i p Hi). pose proof (cnt_at is_counting l i p Hi).
  destruct m as [me mr mc rc mw ml]. cbn in I1, I2, I3, I4, I5.
  pose proof (b2z_range me). pose proof (b2z_range mr). pose proof (b2z_range mc). pose proof (b2z_range mw).
  destruct p; cbn in Hs; unfold lock in Hs; repeat case_match; simplify_eq; cbn in *;
    repeat match goal with H : (_ =? _) = _ |- _ => first [apply Z.eqb_eq in H | apply Z.eqb_neq in H]
                         | H : (_ <=? _) = _ |- _ => first [apply Z.leb_le in H | apply Z.leb_gt in H] end;
    split; cbn; rewrite ?(cnt_insert _ _ _ _ _ Hi); cbn; try rewrite u32_small; lia.
Qed.

Lemma inv_call m l i p p' :
  inv m l -> l !! i = Some p -> acquires p p' \/ releases p p' -> inv m (<[i := p']> l).
Proof.
  intros [I1 I2 I3 I4 I5] Hi Hc.
  destruct Hc as [Hc|Hc]; inversion Hc; subst; split; rewrite ?(cnt_insert _ _ _ _ _ Hi); cbn; lia.
Qed.

Lemma cnt_idle P n : P Idle = false -> cnt P (replicate n Idle) = 0.
Proof.
  intros H. induction n as [|n IH]; [done|]. change (replicate (S n) Idle) with (Idle :: replicate n Idle).
  unfold cnt in *. rewrite fmap_cons, zsum_cons, H, IH. done.
Qed.

Lemma reachable_inv n m l : Z.of_nat n < 2 ^ 32 -> reachable n (m, l) -> inv m l /\ zlength l = Z.of_nat n.
Proof.
  intros Hn H. remember (m, l) as c eqn:E. revert m l E. induction H as [|c c' H IH Hs]; intros m l E.
  - injection E as <- <-. split; [|unfold zlength; by rewrite length_replicate]. split; rewrite ?cnt_idle; done.
  - subst c'. inversion Hs as [m0 l0 i p p' Hi Hc|m0 l0 i p m' p' Hi Hc]; subst.
    + destruct (IH _ _ eq_refl) as [I L]. split; [by eapply inv_call|by rewrite zlength_insert].
    + destruct (IH _ _ eq_refl) as [I L]. split; [eapply inv_step1; [done|lia|done..]|by rewrite zlength_insert].
Qed.

(** ** Exclusion *)

Lemma cnt_two P l i j p q :
  P Idle = false -> l !! i = Some p -> l !! j = Some q -> i <> j -> P p = true -> P q = true -> 2 <= cnt P l.
Proof.
  intros HI Hi Hj Hne Hp Hq. pose proof (cnt_insert P l i p Idle Hi) as E.
  assert (<[i := Idle]> l !! j = Some q) as Hj' by (by rewrite list_lookup_insert_ne).
  pose proof (cnt_at P _ _ _ Hj') as H. rewrite HI, Hp, Hq in *. cbn in *. lia.
Qed.

(** C15: mutual exclusion, for any number of threads below 2^32, any sequence of
    calls (with [acquireread_mrsw_short], [try_acquirewrite_mrsw],
    [acquirewrite_mrsw_long] and downgrades) and any interleaving of their steps:
    while a thread holds the lock for writing, no other thread holds it, neither
    for writing nor for reading; [read_count] is the number of readers when no
    call is under way, and [writer] is set exactly while there is a writer, so
    that [release_mrsw] releases the kind of lock that its caller holds. *)
Theorem mrsw_exclusion n m l i j p :
  Z.of_nat n < 2 ^ 32 -> reachable n (m, l) -> l !! i = Some p -> i <> j ->
  (p = Writing -> l !! j <> Some Writing /\ l !! j <> Some Reading) /\
  (p = Writing \/ p = RE_writer -> writer m = true) /\
  (p = Reading \/ p = RE_reader -> writer m = false) /\
  (Forall (fun q => q = Idle \/ q = Reading \/ q = Writing) l ->
   read_count m = zlength (filter (fun q => q = Reading) l)).
Proof.
  intros Hn H Hi Hne. destruct (reachable_inv n m l Hn H) as [[I1 I2 I3 I4 I5] L]. pose proof (cnt_facts l) as F.
  pose proof (b2z_range (write_exclusive_mutex m)). pose proof (b2z_range (reading_mutex m)).
  split; [|split; [|split]].
  - intros ->. split; intros Hj.
    + pose proof (cnt_two has_exclusive l i j Writing Writing eq_refl Hi Hj Hne eq_refl eq_refl). lia.
    + pose proof (cnt_at has_reading _ _ _ Hi). pose proof (cnt_at is_reader _ _ _ Hj). cbn in *. lia.
  - intros Hp. pose proof (cnt_at has_flag _ _ _ Hi) as Hf. destruct (writer m); [done|].
    exfalso. destruct Hp as [->| ->]; cbn in *; lia.
  - intros Hp. pose proof (cnt_at is_reader _ _ _ Hi) as Hf. destruct (writer m); [|done].
    exfalso. destruct Hp as [->| ->]; cbn in *; lia.
  - intros Hall. rewrite I3. clear -Hall. induction Hall as [|q l Hq _ IH]; [done|].
    rewrite filter_cons. unfold cnt in *. rewrite !fmap_cons, !zsum_cons.
    destruct Hq as [->|[->| ->]]; cbn [is_reader is_entering Z.b2z]; [rewrite decide_False by done; lia| |rewrite decide_False by done; lia].
    rewrite decide_True, zlength_cons by done. lia.
Qed.

(** ** Progress *)

(** A step towards giving the lock back: the end of a call that was begun, or a
    release.  A failed turn of the loop of [acquireread_mrsw_short] is none. *)
Inductive drain : mrsw * list pc -> mrsw * list pc -> Prop :=
  | drain_release m l i p p' : l !! i = Some p -> releases p p' -> drain (m, l) (m, <[i := p']> l)
  | drain_inside m l i p m' p' :
      l !! i = Some p -> step1 m p = Some (m', p') -> p' <> AS_again -> drain (m, l) (m', <[i := p']> l).

(** The steps that a thread has before it at most. *)
Definition rank (p : pc) : Z :=
  match p with
  | Idle => 0
  | RR_count_unlock | RW_exclusive | TW_fail => 1
  | RR_last | RW_reading => 2
  | RR_count | RW_long => 3
  | RR_count_lock | RW_writer => 4
  | RE_reader => 5
  | Reading => 6
  | AR_count_unlock | WR_exclusive => 7
  | AR_first | WR_count_unlock => 8
  | AR_count | WR_first => 9
  | AR_count_lock | WR_count => 10
  | AR_unlock | AS_unlock | WR_count_lock => 11
  | AR_long | AS_try | WR_reading => 12
  | AR_exclusive | AS_again | WR_long => 13
  | AS_first | WR_writer => 14
  | RE_writer => 15
  | Writing => 16
  | AW_long _ | TW_writer => 17
  | AW_writer _ | TW_reading => 18
  | AW_reading _ | TW_exclusive => 19
  | AW_exclusive _ => 20
  end.

Definition work (l : list pc) : Z := zsum (rank <$> l).

Lemma work_insert l i p p' : l !! i = Some p -> work (<[i := p']> l) = work l - rank p + rank p'.
Proof.
  revert i. induction l as [|q l IH]; intros [|i] H; try done; cbn in H.
  - injection H as ->. change (<[0%nat := p']> (p :: l)) with (p' :: l). unfold work. rewrite !fmap_cons, !zsum_cons. lia.
  - specialize (IH i H). change (<[S i := p']> (q :: l)) with (q :: <[i := p']> l).
    unfold work in *. rewrite !fmap_cons, !zsum_cons. lia.
Qed.

Lemma work_nonneg l : 0 <= work l.
Proof.
  induction l as [|p l IH]; [done|]. unfold work in *. rewrite fmap_cons, zsum_cons. destruct p; cbn; lia.
Qed.

Lemma step1_rank m p m' p' : step1 m p = Some (m', p') -> p' <> AS_again -> rank p' < rank p.
Proof. intros H Hne. destruct p; cbn in H; unfold lock in H; repeat case_match; simplify_eq; cbn; lia. Qed.

Lemma drain_work c c' : drain c c' -> work (snd c') < work (snd c).
Proof.
  intros [m l i p p' Hi Hr|m l i p m' p' Hi Hs Hne]; cbn [snd]; rewrite (work_insert _ _ _ _ Hi).
  - inversion Hr; subst; cbn; lia.
  - pose proof (step1_rank _ _ _ _ Hs Hne). lia.
Qed.

Lemma drain_terminates c : Acc (fun x y => drain y x) c.
Proof.
  remember (Z.to_nat (work (snd c))) as k eqn:E. revert c E. induction k as [k IH] using lt_wf_ind. intros c ->.
  constructor. intros c' Hd. apply drain_work in Hd. pose proof (work_nonneg (snd c')).
  eapply IH; [|reflexivity]. lia.
Qed.

(** Does the thread have a draining step? *)
Definition can_drain (m : mrsw) (p : pc) : bool :=
  match p with
  | Idle => false
  | Reading | Writing => true
  | AS_try => negb (write_exclusive_mutex m)
  | _ => match step1 m p with Some _ => true | None => false end
  end.

Lemma can_drain_step m l i p : l !! i = Some p -> can_drain m p = true -> exists c', drain (m, l) c'.
Proof.
  intros Hi Hc. destruct (step1 m p) as [[m' p']|] eqn:E.
  - destruct (decide (p' = AS_again)) as [->|]; [|eexists; by eapply drain_inside].
    destruct p; cbn in E, Hc; unfold lock in E; repeat case_match; simplify_eq.
  - destruct p; cbn in Hc, E; try done; unfold lock in *; repeat case_match; try done;
      eexists; (eapply drain_release; [done|constructor]).
Qed.

Lemma not_stuck m l : inv m l -> (forall i p, l !! i = Some p -> can_drain m p = false) -> Forall (fun p => p = Idle) l.
Proof.
  intros [I1 I2 I3 I4 I5] Hb. pose proof (cnt_facts l) as F.
  assert (Hno : forall P : pc -> bool, (forall i p, l !! i = Some p -> P p = true -> can_drain m p = false -> False) -> cnt P l = 0).
  { intros P HP. destruct (Z.eq_dec (cnt P l) 0) as [|Hne]; [done|]. destruct (cnt_le P P l) as [H0 _]; [done|].
    destruct (cnt_find P l) as (i & p & Hi & Hp); [lia|]. destruct (HP i p Hi Hp (Hb i p Hi)). }
  assert (A : cnt has_reading l = 0). { apply Hno. intros i []; cbn; try done; destruct (writer m); done. }
  assert (V : cnt is_leaving l = 0). { apply Hno. intros i []; cbn; try done; destruct (read_count m =? 0); done. }
  assert (E : cnt is_entering l = 0).
  { apply Hno. intros i p Hi Hp Hs. pose proof (cnt_at is_entering l i p Hi) as Hc. rewrite Hp in Hc. cbn in Hc.
    assert (reading_mutex m = true /\ read_count m = 1) as [Hr Hrc].
    { destruct p; cbn in *; unfold lock in *; try done; repeat case_match; try done; split; done || lia. }
    rewrite Hr in I4. cbn in I4. lia. }
  assert (C : cnt has_count l = 0).
  { apply Hno. intros i p Hi Hp Hs. pose proof (cnt_at is_entering l i p Hi) as Hc.
    destruct p; cbn in *; try done; unfold lock in *; repeat case_match; try done; lia. }
  assert (M : read_count_mutex m = false) by (destruct (read_count_mutex m); [cbn in I2; lia|done]).
  assert (R : cnt is_reader l = 0).
  { apply Hno. intros i [] Hi; cbn; unfold lock; rewrite ?M; try done; repeat case_match; done. }
  assert (G : reading_mutex m = false) by (destruct (reading_mutex m); [cbn in I4; lia|done]).
  assert (X : cnt has_exclusive l = 0).
  { apply Hno. intros i [] Hi; cbn; unfold lock; rewrite ?M, ?G; try done; repeat case_match; done. }
  assert (W : write_exclusive_mutex m = false) by (destruct (write_exclusive_mutex m); [cbn in I1; lia|done]).
  apply Forall_lookup. intros i p Hi. specialize (Hb i p Hi). 
  destruct p; cbn in Hb; unfold lock in Hb; rewrite ?M, ?G, ?W in Hb; try done; repeat case_match; done.
Qed.

Lemma drain_reachable n c c' : reachable n c -> rtc drain c c' -> reachable n c'.
Proof.
  intros H Hd. revert H. induction Hd as [|c c1 c' Hs _ IH]; intros H; [done|]. apply IH. eapply reachable_step; [done|].
  inversion Hs; subst; [eapply step_call|eapply step_inside]; eauto.
Qed.

(** C16: the lock is never lost and its threads never block each other for good:
    from every reachable state, when no thread asks for the lock again, every
    sequence of steps ends, and it can only end with every call returned and the
    lock given back by all.  (The turns of the loop of [acquireread_mrsw_short]
    that find the lock taken are not counted as steps.) *)
Theorem mrsw_drains n c :
  Z.of_nat n < 2 ^ 32 -> reachable n c ->
  Acc (fun x y => drain y x) c /\
  forall c', rtc drain c c' -> (exists c'', drain c' c'') \/ Forall (fun p => p = Idle) (snd c').
Proof.
  intros Hn H. split; [apply drain_terminates|]. intros [m l] Hd.
  destruct (reachable_inv n m l Hn (drain_reachable _ _ _ H Hd)) as [I _].
  destruct (decide (Exists (fun p => can_drain m p = true) l)) as [Hex|Hex].
  - left. apply Exists_exists in Hex as (p & Hp & Hc). apply list_elem_of_lookup in Hp as [i Hi]. by eapply can_drain_step.
  - right. apply (not_stuck m l I). intros i p Hi. destruct (can_drain m p) eqn:E; [|done].
    destruct Hex. apply Exists_exists. exists p. split; [|done]. apply list_elem_of_lookup. eauto.
Qed.

(** ** Schedules *)

Definition is_call (p p' : pc) : bool :=
  match p, p' with
  | Idle, (AW_exclusive _ | TW_exclusive | AR_exclusive | AS_first)
  | Writing, (RW_writer | RE_writer | WR_writer) | Reading, (RR_count_lock | RE_reader) => true
  | _, _ => false
  end.

(** Thread [i] begins the call [Some p'], or takes a step. *)
Definition act (c : mrsw * list pc) (a : nat * option pc) : option (mrsw * list pc) :=
  let '(m, l) := c in
  let '(i, call) := a in
  p ← l !! i;
  match call with
  | Some p' => if is_call p p' then Some (m, <[i := p']> l) else None
  | None => '(m', p') ← step1 m p; Some (m', <[i := p']> l)
  end.

Fixpoint acts (c : mrsw * list pc) (s : list (nat * option pc)) : option (mrsw * list pc) :=
  match s with [] => Some c | a :: s' => c' ← act c a; acts c' s' end.

Lemma acts_reachable n s c c' : reachable n c -> acts c s = Some c' -> reachable n c'.
Proof.
  revert c. induction s as [|a s IH]; intros c H E; [by injection E as <-|]. cbn in E.
  apply bind_Some in E as (c1 & E1 & E). eapply IH; [|done]. eapply reachable_step; [done|].
  destruct c as [m l], a as [i call]. cbn in E1. apply bind_Some in E1 as (p & Hi & E1). destruct call as [p'|].
  - destruct (is_call p p') eqn:Ec; [|done]. injection E1 as <-. eapply step_call; [done|].
    destruct p, p'; try done; (by left; constructor) || (by right; constructor).
  - apply bind_Some in E1 as ([m' p'] & Hs & [= <-]). by eapply step_inside.
Qed.

(** A thread that takes the lock for reading twice, with a writer in between,
    waits for itself: thread 0 reads, thread 1 waits to write, and the second
    acquisition of thread 0 (here thread 2) cannot go on, nor can the writer,
    before thread 0 gives its first lock back. *)
Definition nested_state : mrsw * list pc :=
  (mk_mrsw true true false 1 false false, [Reading; AW_reading false; AR_exclusive]).

Definition steps (i n : nat) : list (nat * option pc) := replicate n (i, None).

Lemma nested_read_waits_forever :
  reachable 3 nested_state /\
  forall i p, snd nested_state !! i = Some p -> i <> 0%nat -> step1 (fst nested_state) p = None.
Proof.
  split.
  - apply (acts_reachable 3 ([(0%nat, Some AR_exclusive)] ++ steps 0 7 ++ [(1%nat, Some (AW_exclusive false))] ++ steps 1 1 ++
      [(2%nat, Some AR_exclusive)]) (started 3)); [constructor|reflexivity].
  - intros [|[|[|i]]] p Hi Hne; try done; by injection Hi as <-.
Qed.

Lemma mrsw_exclusion_witness :
  let l := [Writing; AR_exclusive] in
  exists m, reachable 2 (m, l) /\ l !! 1%nat <> Some Reading.
Proof.
  exists (mk_mrsw true true false 0 true false).
  assert (reachable 2 (mk_mrsw true true false 0 true false, [Writing; AR_exclusive])) as H.
  { apply (acts_reachable 2 ([(0%nat, Some (AW_exclusive false))] ++ steps 0 4 ++ [(1%nat, Some AR_exclusive)]) (started 2));
      [constructor|reflexivity]. }
  split; [exact H|].
  destruct (mrsw_exclusion 2 _ _ 0 1 Writing ltac:(lia) H eq_refl ltac:(lia)) as [He _]. apply He. reflexivity.
Defined.

Lemma mrsw_drains_witness :
  reachable 3 nested_state /\ Acc (fun x y => drain y x) nested_state.
Proof.
  assert (reachable 3 nested_state) as H by apply nested_read_waits_forever. split; [exact H|].
  exact (proj1 (mrsw_drains 3 nested_state ltac:(lia) H)).
Defined.
