(* ===== verification/Xml.v ===== *)
(** * Reading and writing XML (src/libltfs/xml_reader.c, xml.h)

    Labels and indexes are written with the xmlTextWriter and read with the
    xmlTextReader of libxml2, which are not part of the sources.  The reader
    delivers a list of nodes ([xnode]): start tags with their attributes (and
    whether the element was written as an empty one), texts, end tags.  What is
    written is a list of tokens: the nodes, each with a mark whether the writer,
    which indents, may put white space in front of it.  [reads_as] relates the
    two: the reader delivers the nodes that were written, in order, and nothing
    but white space in between.

    The parsers are in a monad over the remaining nodes and the structure that
    is filled; what an error leaves behind in the structure is not modelled. *)

From Stdlib Require Import String.
From S2P Require Import Prelude LtfsError TapeLayer Base64 KeyFormat Time.

(** ** Nodes and the reader *)

Abbreviation attributes := (list (string * list Z)).

Inductive xnode :=
  | XStart (tag : string) (attrs : attributes) (empty : bool)
  | XText (text : list Z)
  | XEnd (tag : string)
  | XOther (type : Z).

(** A parser ends with a value, with a return code, or uses a [NULL] pointer. *)
Inductive xresult (A : Type) := XOk (a : A) | XErr (code : Z) | XCrash.
Arguments XOk {A}. Arguments XErr {A}. Arguments XCrash {A}.

Definition rd (S A : Type) : Type := list xnode * S -> xresult (A * (list xnode * S)).

Section monad.
Context {S A B : Type}.

Definition rret (a : A) : rd S A := fun st => XOk (a, st).
Definition rfail (code : Z) : rd S A := fun _ => XErr code.
Definition rcrash : rd S A := fun _ => XCrash.
Definition rbind (m : rd S A) (k : A -> rd S B) : rd S B := fun st =>
  match m st with
  | XOk (a, st') => k a st'
  | XErr code => XErr code
  | XCrash => XCrash
  end.
(** The error of a step is replaced by the caller's own. *)
Definition rcatch (m : rd S A) (code : Z) : rd S A := fun st =>
  match m st with
  | XErr _ => XErr code
  | r => r
  end.
(** The value, or the error of a callee that returns a code below zero. *)
Definition rcode (r : Z + A) : rd S A := match r with inl code => rfail code | inr a => rret a end.
(** The value, or this error. *)
Definition ropt (o : option A) (code : Z) : rd S A := match o with None => rfail code | Some a => rret a end.
End monad.

Definition rget {S} : rd S S := fun st => XOk (st.2, st).
Definition rmodify {S} (f : S -> S) : rd S unit := fun st => XOk (tt, (st.1, f st.2)).

Declare Scope rd_scope.
Delimit Scope rd_scope with rd.
Notation "x <- c ;; k" := (rbind c (fun x => k))
  (at level 100, c at next level, right associativity) : rd_scope.
Notation "c ;;; k" := (rbind c (fun _ : unit => k)) (at level 100, right associativity) : rd_scope.

Section reader.
Local Open Scope rd_scope.
Context {S : Type}.

(** [xml_scan_text], with its error as a value: an end tag gives the empty text. *)
Definition scan_text : rd S (Z + list Z) := fun '(l, s) =>
  match l with
  | [] => XOk (inl (- LTFS_XML_READ_FAIL), (l, s))
  | XEnd _ :: l' => XOk (inr [], (l', s))
  | XText t :: l' => XOk (inr t, (l', s))
  | _ :: l' => XOk (inl (- LTFS_XML_WRONG_NODE), (l', s))
  end.

Definition xml_scan_text : rd S (list Z) := r <- scan_text;; rcode r.

(** [xml_next_tag] reads with [xml_reader_read]: the next start tag, or [None] at the end of the containing tag. *)
Fixpoint next_tag (containing : string) (l : list xnode)
    : xresult (option (string * attributes * bool) * list xnode) :=
  match l with
  | [] => XErr (- LTFS_XML_UNEXPECTED_EOF)
  | XStart t a e :: l' => XOk (Some (t, a, e), l')
  | XEnd t :: l' => if (t =? containing)%string then XOk (None, l') else next_tag containing l'
  | _ :: l' => next_tag containing l'
  end.

Definition xml_next_tag (containing : string) : rd S (option (string * attributes * bool)) := fun '(l, s) =>
  match next_tag containing l with
  | XOk (t, l') => XOk (t, (l', s))
  | XErr code => XErr code
  | XCrash => XCrash
  end.

(** From behind a start tag to behind the matching end tag: what was passed and the rest. *)
Fixpoint split_element (depth : nat) (l : list xnode) : option (list xnode * list xnode) :=
  match l with
  | [] => None
  | x :: l' =>
      match x, depth with
      | XEnd _, O => Some ([x], l')
      | _, _ =>
          '(i, r) ← split_element (match x with XStart _ _ false => Datatypes.S depth | XEnd _ => pred depth | _ => depth end) l';
          Some (x :: i, r)
      end
  end.

(** [xml_skip_tag] behind the start tag; [None]: it returned -1. *)
Definition xml_skip_tag (empty : bool) : rd S (option unit) := fun '(l, s) =>
  if empty then XOk (Some tt, (l, s))
  else
    match split_element 0 l with
    | Some (_, r) => XOk (Some tt, (r, s))
    | None => XOk (None, ([], s))
    end.

(** [xml_save_tag]: the element with its tags, without moving ([None]: -1). *)
Definition xml_save_tag (tag : string) (attrs : attributes) (empty : bool) : rd S (option (list xnode)) := fun '(l, s) =>
  XOk (if empty then Some [XStart tag attrs empty]
       else '(i, _) ← split_element 0 l; Some (XStart tag attrs empty :: i), (l, s)).

(** ** The macros of xml.h *)

Definition check_required_tag (i : nat) (have : list bool) : rd S (list bool) :=
  if default false (have !! i) then rfail (- LTFS_XML_NO_REQUIRED_TAG) else rret (<[i := true]> have).

Definition check_optional_tag (i : nat) (have : list bool) : rd S (list bool) :=
  if default false (have !! i) then rfail (- LTFS_XML_DUPLICATED_TAG) else rret (<[i := true]> have).

Definition check_required_tags (have : list bool) : rd S unit :=
  if forallb id have then rret tt else rfail (- LTFS_XML_NO_REQUIRED_TAG).

Definition assert_not_empty (empty : bool) : rd S unit :=
  if empty then rfail (- LTFS_XML_EMPTY) else rret tt.

Definition check_tag_end (tag : string) : rd S unit :=
  t <- rcatch (xml_next_tag tag) (- LTFS_XML_OPEN_TAG);;
  match t with None => rret tt | Some _ => rfail (- LTFS_XML_OPEN_TAG) end.

Definition get_tag_text_allow_zero_length (empty : bool) : rd S (list Z) :=
  assert_not_empty empty;;; xml_scan_text.

Definition get_tag_text (empty : bool) : rd S (list Z) :=
  v <- get_tag_text_allow_zero_length empty;;
  if bool_decide (v = []) then rfail (- LTFS_XML_EMPTY) else rret v.

Definition ignore_unrecognized_tag (empty : bool) : rd S unit :=
  r <- xml_skip_tag empty;; ropt r (- LTFS_XML_SKIP_FAIL).

(** The tag to keep. *)
Definition preserve_unrecognized_tag (tag : string) (attrs : attributes) (empty : bool) : rd S (list xnode) :=
  t <- xml_save_tag tag attrs empty;;
  t <- ropt t (- LTFS_XML_SAVE_FAIL);;
  ignore_unrecognized_tag empty;;;
  rret t.

(** The value of a tag that holds nothing but a text: get the text, convert it,
    check the end. *)
Definition tag_value {A} (tag : string) (empty : bool) (parse : list Z -> option A) (code : Z) : rd S A :=
  v <- get_tag_text empty;;
  a <- ropt (parse v) code;;
  check_tag_end tag;;;
  rret a.

(** The loop over the children of a tag; one unit of fuel per turn. *)
Fixpoint parse_tags {A} (fuel : nat) (parent : string) (handle : string -> attributes -> bool -> A -> rd S A) (a : A)
    : rd S A :=
  match fuel with
  | O => rfail 0
  | Datatypes.S fuel =>
      t <- xml_next_tag parent;;
      match t with
      | None => rret a
      | Some (tag, attrs, empty) => a <- handle tag attrs empty a;; parse_tags fuel parent handle a
      end
  end.
End reader.

(** [xmlTextReaderGetAttribute]. *)
Definition get_attribute (name : string) (attrs : attributes) : option (list Z) :=
  snd <$> List.find (fun kv => (kv.1 =? name)%string) attrs.

(** ** Values *)

Definition text_is (s : string) (v : list Z) : bool := bool_decide (v = str s).

(** [strtoull] in base 10: the value and where the scan stopped. *)
Definition strtoull10 (v : list Z) : Z * list Z :=
  match scan_int None v with
  | Some (n, rest) =>
      (if 2 ^ 64 - 1 <? Z.abs n then 2 ^ 64 - 1 else u64 n, rest)
  | None => (0, v)
  end.

Definition xml_parse_ull (v : list Z) : option Z :=
  if bool_decide (v = []) then None
  else let '(n, rest) := strtoull10 v in if bool_decide (rest = []) then Some n else None.

Definition xml_parse_bool (v : list Z) : option bool :=
  if text_is "true" v || text_is "1" v then Some true
  else if text_is "false" v || text_is "0" v then Some false
  else None.

Definition uuid_char (i : nat) (c : Z) : bool :=
  if existsb (Nat.eqb i) [8; 13; 18; 23]%nat then c =? 45
  else in_range 48 57 c || in_range 97 102 c || in_range 65 70 c.

Fixpoint uuid_chars (i : nat) (v : list Z) : bool :=
  match v with [] => true | c :: v' => uuid_char i c && uuid_chars (S i) v' end.

(** [xml_parse_uuid], with upper case changed to lower case. *)
Definition xml_parse_uuid (v : list Z) : option (list Z) :=
  if negb (length v =? 36)%nat || negb (uuid_chars 0 v) then None
  else Some ((fun c => if in_range 65 70 c then c + 32 else c) <$> v).

(** [xml_parse_time] as the parsers use it. *)
Definition parse_time (v : list Z) : option ltfs_timespec :=
  let '(ret, t) := xml_parse_time v (mk_time 0 0) in if ret <? 0 then None else Some t.

(** [printf] with [%llu], [%lu], [%u]. *)
Definition print_u (n : Z) : list Z := digits 20 n [].

(** The text of a time stamp, as [xml_format_time] returns it. *)
Definition time_text (t : ltfs_timespec) : list Z := default [] (snd (xml_format_time true t)).

Definition print_bool (b : bool) : list Z := str (if b then "true" else "false").

(** ** Percent-encoded names (xml_writer_libltfs.c, xml_reader_libltfs.c) *)

Section names.
(** [U8_NEXT] of ICU: the length of the next character, [None] when it is not UTF-8. *)
Variable u8_next : list Z -> option nat.

(** The characters of [plain_chars]: all printable ones but space, [%] and [:]. *)
Definition plain_char (c : Z) : bool := in_range 0x21 0x7E c && negb (c =? 0x25) && negb (c =? 0x3A).

(** A byte as [%] and two hexadecimal digits. *)
Definition percent_byte (c : Z) : list Z := [0x25; hex_char (Z.shiftr c 4); hex_char (Z.land c 15)].

Fixpoint encode_loop (fuel : nat) (name : list Z) : option (list Z) :=
  match name, fuel with
  | [], _ => Some []
  | _, O => None
  | c :: _, S fuel =>
      k ← u8_next name;
      rest ← encode_loop fuel (drop k name);
      Some ((if plain_char c then [c] else b ← take k name; percent_byte b) ++ rest)
  end.

(** [None]: the function returns [-LTFS_ICU_ERROR] and no name. *)
Definition encode_entry_name (name : list Z) : option (list Z) := encode_loop (length name) name.

(** A slash becomes an underscore. *)
Definition no_slash (c : Z) : Z := if c =? 0x2F then 0x5F else c.

(** The loop of [decode_entry_name], with the flag [encoded]. *)
Fixpoint decode_loop (fuel : nat) (name : list Z) (encoded : bool) : list Z :=
  match name, fuel with
  | [], _ => []
  | _, O => []
  | c :: rest, S fuel =>
      if (c =? 0x25) && (2 <? length name)%nat then decode_loop fuel rest true
      else if encoded then
        let c1 := char_at rest 0 in
        let x := u8 (strtoul16 (until_nul [c; c1])) in
        (if (x =? 0x2F) || (x =? 0) then [0x25; c; no_slash c1] else [x]) ++ decode_loop fuel (drop 2 name) false
      else no_slash c :: decode_loop fuel rest false
  end.

Definition decode_entry_name (name : list Z) : list Z := decode_loop (length name) name false.
End names.

(** ** What is written *)

(** A node, and whether white space may be written in front of it. *)
Abbreviation token := (bool * xnode)%type.

(** [xmlTextWriterStartElement], attributes, contents, [xmlTextWriterEndElement]. *)
Definition element (tag : string) (attrs : attributes) (body : list token) : list token :=
  match body with
  | [] => [(true, XStart tag attrs true)]
  | _ => (true, XStart tag attrs false) :: body ++ [(true, XEnd tag)]
  end.

(** [xmlTextWriterWriteElement], and an element with attributes and a text. *)
Definition text_element (tag : string) (attrs : attributes) (text : list Z) : list token :=
  (true, XStart tag attrs false) ::
  (if bool_decide (text = []) then [] else [(false, XText text)]) ++ [(false, XEnd tag)].

Definition write_element (tag : string) (text : list Z) : list token := text_element tag [] text.

(** [xmlTextWriterWriteRaw] of a preserved tag. *)
Definition write_raw (t : list xnode) : list token :=
  match t with [] => [] | x :: t' => (true, x) :: ((false,.) <$> t') end.

Definition is_blank (t : list Z) : bool := forallb is_space t.

(** The nodes that the reader delivers for what was written. *)
Inductive reads_as : list token -> list xnode -> Prop :=
  | reads_nil : reads_as [] []
  | reads_node b x l ns : reads_as l ns -> reads_as ((b, x) :: l) (x :: ns)
  | reads_blank w x l ns : is_blank w = true -> reads_as ((true, x) :: l) ns -> reads_as ((true, x) :: l) (XText w :: ns).

Lemma reads_plain l : reads_as l (snd <$> l).
Proof. induction l as [|[b x] l IH]; cbn; by constructor. Qed.

Lemma reads_length l ns : reads_as l ns -> (length l <= length ns)%nat.
Proof. induction 1; cbn in *; lia. Qed.
