(* ===== verification/XmlProps.v ===== *)
(** * Reading back what was written

    [parses m s l a s' l']: run on any nodes that read as the tokens [l], the
    parser [m] succeeds with [a], turns the structure [s] into [s'], and leaves
    nodes that read as [l'].  Lemmas for the steps of the parsers, for the
    conversions of values, and for percent-encoded names. *)

From Stdlib Require Import String.
From S2P Require Import Prelude LtfsError TapeLayer Base64 KeyFormat Time TimeProps Xml.

Local Open Scope rd_scope.

(** ** Parsers on tokens *)

Definition parses {S A} (m : rd S A) (s : S) (l : list token) (a : A) (s' : S) (l' : list token) : Prop :=
  forall ns, reads_as l ns -> exists ns', m (ns, s) = XOk (a, (ns', s')) /\ reads_as l' ns'.

Section steps.
Context {S : Type}.
Implicit Types s : S.

Lemma parses_ret {A} (a : A) s l : parses (rret a) s l a s l.
Proof. intros ns H. by exists ns. Qed.

Lemma parses_bind {A B} (m : rd S A) (k : A -> rd S B) s l a s1 l1 b s2 l2 :
  parses m s l a s1 l1 -> parses (k a) s1 l1 b s2 l2 -> parses (rbind m k) s l b s2 l2.
Proof.
  intros Hm Hk ns H. destruct (Hm ns H) as (ns1 & E & H1). destruct (Hk ns1 H1) as (ns2 & E2 & H2).
  exists ns2. unfold rbind. by rewrite E.
Qed.

Lemma parses_catch {A} (m : rd S A) code s l a s' l' : parses m s l a s' l' -> parses (rcatch m code) s l a s' l'.
Proof. intros Hm ns H. destruct (Hm ns H) as (ns' & E & H'). exists ns'. unfold rcatch. by rewrite E. Qed.

Lemma parses_get s l : parses rget s l s s l.
Proof. intros ns H. by exists ns. Qed.

Lemma parses_modify f s l : parses (rmodify f) s l tt (f s) l.
Proof. intros ns H. by exists ns. Qed.

Lemma parses_opt {A} (a : A) code s l : parses (ropt (Some a) code) s l a s l.
Proof. apply parses_ret. Qed.

Lemma parses_code {A} (a : A) s l : parses (rcode (inr a)) s l a s l.
Proof. apply parses_ret. Qed.

(** A start tag, an end tag, a text. *)
Lemma reads_tag x b l ns c t : reads_as ((b, x) :: l) ns -> (forall k, next_tag c (x :: k) = XOk (t, k)) ->
  exists ns', next_tag c ns = XOk (t, ns') /\ reads_as l ns'.
Proof.
  intros H Hx. remember ((b, x) :: l) as l0 eqn:E. revert b E.
  induction H as [|b0 y l1 ns H IH|w y l1 ns Hw H IH]; intros b E; [done|..].
  - injection E as -> -> ->. exists ns. by rewrite Hx.
  - injection E as <- -> ->. by eapply IH.
Qed.

Lemma parses_start c b t a e s l : parses (xml_next_tag c) s ((b, XStart t a e) :: l) (Some (t, a, e)) s l.
Proof.
  intros ns H. destruct (reads_tag _ _ _ _ c (Some (t, a, e)) H) as (ns' & E & H'); [done|].
  exists ns'. unfold xml_next_tag. by rewrite E.
Qed.

Lemma parses_end c b s l : parses (xml_next_tag c) s ((b, XEnd c) :: l) None s l.
Proof.
  intros ns H. destruct (reads_tag _ _ _ _ c None H) as (ns' & E & H').
  { intros k. cbn. by rewrite String.eqb_refl. }
  exists ns'. unfold xml_next_tag. by rewrite E.
Qed.

Lemma parses_check_end c b s l : parses (check_tag_end c) s ((b, XEnd c) :: l) tt s l.
Proof.
  unfold check_tag_end. eapply parses_bind; [apply parses_catch, parses_end|]. apply parses_ret.
Qed.

Lemma reads_now x l ns : reads_as ((false, x) :: l) ns -> exists ns', ns = x :: ns' /\ reads_as l ns'.
Proof. intros H. inversion H; subst. eauto. Qed.

Lemma parses_text t s l : parses xml_scan_text s ((false, XText t) :: l) t s l.
Proof. intros ns H. apply reads_now in H as (ns' & -> & H). by exists ns'. Qed.

Lemma parses_no_text c s l : parses xml_scan_text s ((false, XEnd c) :: l) [] s l.
Proof. intros ns H. apply reads_now in H as (ns' & -> & H). by exists ns'. Qed.

(** The text and the end tag of [text_element]. *)
Definition text_rest (tag : string) (text : list Z) : list token :=
  (if bool_decide (text = []) then [] else [(false, XText text)]) ++ [(false, XEnd tag)].

Lemma parses_get_text t tag s l :
  t <> [] -> parses (get_tag_text false) s (text_rest tag t ++ l) t s ((false, XEnd tag) :: l).
Proof.
  intros Ht. unfold get_tag_text, get_tag_text_allow_zero_length, text_rest. rewrite bool_decide_false by done.
  eapply parses_bind; [eapply parses_bind; [apply parses_ret|apply parses_text]|]. cbn.
  rewrite bool_decide_false by done. apply parses_ret.
Qed.

Lemma parses_value {A} tag (parse : list Z -> option A) code t a s l :
  t <> [] -> parse t = Some a ->
  parses (tag_value tag false parse code) s (text_rest tag t ++ l) a s l.
Proof.
  intros Ht Hp. unfold tag_value. eapply parses_bind; [by apply parses_get_text|]. rewrite Hp.
  eapply parses_bind; [apply parses_opt|]. eapply parses_bind; [apply parses_check_end|]. apply parses_ret.
Qed.

(** One turn of the loop over the children of a tag, and its end. *)
Lemma parses_child {A} fuel c (handle : string -> attributes -> bool -> A -> rd S A) a b t at_ e s l a1 s1 l1 a2 s2 l2 :
  parses (handle t at_ e a) s l a1 s1 l1 ->
  parses (parse_tags fuel c handle a1) s1 l1 a2 s2 l2 ->
  parses (parse_tags (Datatypes.S fuel) c handle a) s ((b, XStart t at_ e) :: l) a2 s2 l2.
Proof.
  intros H1 H2. cbn. eapply parses_bind; [apply parses_start|]. by eapply parses_bind.
Qed.

Lemma parses_done {A} fuel c (handle : string -> attributes -> bool -> A -> rd S A) a b s l :
  parses (parse_tags (Datatypes.S fuel) c handle a) s ((b, XEnd c) :: l) a s l.
Proof. cbn. eapply parses_bind; [apply parses_end|]. apply parses_ret. Qed.

(** The children of a tag: each child's tokens are read by the handler. *)
Inductive steps {A} (handle : string -> attributes -> bool -> A -> rd S A) : A -> S -> list token -> A -> S -> Prop :=
  | steps_nil a s : steps handle a s [] a s
  | steps_cons a s b t at_ e body l a1 s1 a2 s2 :
      (forall rest, parses (handle t at_ e a) s (body ++ rest) a1 s1 rest) ->
      steps handle a1 s1 l a2 s2 -> steps handle a s ((b, XStart t at_ e) :: body ++ l) a2 s2.

Lemma steps_app {A} (handle : string -> attributes -> bool -> A -> rd S A) a s l1 a1 s1 l2 a2 s2 :
  steps handle a s l1 a1 s1 -> steps handle a1 s1 l2 a2 s2 -> steps handle a s (l1 ++ l2) a2 s2.
Proof.
  induction 1 as [|???????????? H _ IH]; [done|]. intros H2. cbn [app]. rewrite <- app_assoc.
  eapply steps_cons; [exact H|]. by apply IH.
Qed.

Lemma steps_one {A} (handle : string -> attributes -> bool -> A -> rd S A) a s b t at_ e body a1 s1 :
  (forall rest, parses (handle t at_ e a) s (body ++ rest) a1 s1 rest) ->
  steps handle a s ((b, XStart t at_ e) :: body) a1 s1.
Proof. intros H. rewrite <- (app_nil_r body). eapply steps_cons; [exact H|]. constructor. Qed.

(** [steps_cons] with the new accumulator in another form. *)
Lemma steps_then {A} (handle : string -> attributes -> bool -> A -> rd S A) a s b t at_ e body l a1 a1' s1 a2 s2 :
  (forall rest, parses (handle t at_ e a) s (body ++ rest) a1 s1 rest) -> a1 = a1' ->
  steps handle a1' s1 l a2 s2 -> steps handle a s ((b, XStart t at_ e) :: body ++ l) a2 s2.
Proof. intros H <-. by apply steps_cons. Qed.

(** With enough fuel, the loop reads all children and the end tag. *)
Lemma parses_tags {A} (handle : string -> attributes -> bool -> A -> rd S A) c a s l a' s' b rest :
  steps handle a s l a' s' -> forall fuel, (length l < fuel)%nat ->
  parses (parse_tags fuel c handle a) s (l ++ (b, XEnd c) :: rest) a' s' rest.
Proof.
  induction 1 as [a s|a s b0 t at_ e body l a1 s1 a2 s2 H _ IH]; intros fuel Hf;
    (destruct fuel as [|fuel]; [lia|]); [apply parses_done|].
  cbn [app length] in *. rewrite length_app in Hf. rewrite <- app_assoc.
  eapply parses_child; [apply H|]. apply IH. lia.
Qed.

(** An element with children. *)
Lemma element_body tag at_ body : body <> [] ->
  element tag at_ body = (true, XStart tag at_ false) :: body ++ [(true, XEnd tag)].
Proof. by destruct body. Qed.

Lemma length_element tag at_ body : (length body < length (element tag at_ body))%nat.
Proof. destruct body; cbn; rewrite ?length_app; cbn; lia. Qed.

Lemma steps_element {A} (handle : string -> attributes -> bool -> A -> rd S A) a s tag at_ body a1 s1 :
  body <> [] -> (forall rest, parses (handle tag at_ false a) s (body ++ (true, XEnd tag) :: rest) a1 s1 rest) ->
  steps handle a s (element tag at_ body) a1 s1.
Proof.
  intros Hb H. rewrite element_body by done. apply steps_one. intros rest. rewrite <- app_assoc. apply H.
Qed.

(** The checks of required and optional tags. *)
Lemma parses_required i have s l : have !! i = Some false ->
  parses (check_required_tag i have) s l (<[i := true]> have) s l.
Proof. intros H. unfold check_required_tag. rewrite H. apply parses_ret. Qed.

Lemma parses_optional i have s l : have !! i = Some false ->
  parses (check_optional_tag i have) s l (<[i := true]> have) s l.
Proof. intros H. unfold check_optional_tag. rewrite H. apply parses_ret. Qed.

Lemma parses_all have s l : forallb id have = true -> parses (check_required_tags have) s l tt s l.
Proof. intros H. unfold check_required_tags. rewrite H. apply parses_ret. Qed.

(** ** Preserved tags *)

(** One element, from its start tag to its end tag. *)
Definition is_element (t : list xnode) : Prop :=
  match t with
  | [XStart _ _ true] => True
  | XStart _ _ false :: i => forall r, split_element 0 (i ++ r) = Some (i, r)
  | _ => False
  end.

Lemma reads_verbatim i l ns : reads_as (((false,.) <$> i) ++ l) ns -> exists ns', ns = i ++ ns' /\ reads_as l ns'.
Proof.
  revert ns. induction i as [|x i IH]; intros ns H; [by exists ns|]. cbn in H.
  apply reads_now in H as (ns1 & -> & H). destruct (IH _ H) as (ns' & -> & H'). by exists ns'.
Qed.

Lemma parses_preserve tag at_ e i s l :
  is_element (XStart tag at_ e :: i) ->
  parses (preserve_unrecognized_tag tag at_ e) s (((false,.) <$> i) ++ l) (XStart tag at_ e :: i) s l.
Proof.
  intros Hi ns H. apply reads_verbatim in H as (ns' & -> & H). exists ns'. split; [|done].
  unfold preserve_unrecognized_tag, xml_save_tag, ignore_unrecognized_tag, xml_skip_tag. destruct e; cbn in Hi.
  - destruct i; [|done]. done.
  - unfold rbind. cbn. rewrite Hi. cbn. by rewrite Hi.
Qed.
End steps.

(** One step of a parser that is a [rbind]. *)
Ltac step tac := eapply parses_bind; [tac|].
(** Decides which tag of a handler it is. *)
Ltac pick := cbn [String.eqb Ascii.eqb Bool.eqb andb orb negb].
(** One child of a tag; the state is normalised. *)
Ltac child tac := eapply steps_then; [intros ?; tac|cbn; reflexivity|].

Arguments print_u : simpl never.
Arguments time_text : simpl never.
Arguments write_element : simpl never.

(** ** Values *)

Lemma str_not_nil s : s <> ""%string -> str s <> [].
Proof. by destruct s. Qed.

Lemma print_u_spec n : 0 <= n < 2 ^ 64 -> print_u n <> [] /\ xml_parse_ull (print_u n) = Some n.
Proof.
  intros Hn. unfold print_u. destruct (digits_spec 20 n []) as (ds & -> & Hd & Hv & Hk); [lia|done|].
  rewrite app_nil_r. assert (ds <> []) as Hne.
  { specialize (Hk 20%nat ltac:(lia) ltac:(lia)). by destruct ds; [cbn in Hk; lia|]. }
  split; [done|]. unfold xml_parse_ull, strtoull10. rewrite bool_decide_false by done.
  rewrite <- (app_nil_r ds) at 1. rewrite scan_int_spec by (auto; left; done).
  rewrite Hv, bool_decide_true by done. rewrite (proj2 (Z.ltb_ge _ _)) by lia. by rewrite u64_small.
Qed.

(** A time stamp in the range of the format. *)
Definition time_ok (t : ltfs_timespec) : Prop :=
  LTFS_TIME_T_MIN <= tv_sec t <= LTFS_TIME_T_MAX /\ LTFS_NSEC_MIN <= tv_nsec t <= LTFS_NSEC_MAX.

Lemma time_text_spec t : time_ok t -> time_text t <> [] /\ parse_time (time_text t) = Some t.
Proof.
  intros [Hs Hn]. destruct (format_parse_time t (mk_time 0 0) Hn) as (s & E & Hl & Hp).
  unfold time_text, parse_time. rewrite E. cbn. split; [by intros ->|]. rewrite Hp.
  unfold normalize_ltfs_time. destruct (Z.ltb_spec LTFS_TIME_T_MAX (tv_sec t)); [lia|].
  by destruct (Z.ltb_spec (tv_sec t) LTFS_TIME_T_MIN); [lia|].
Qed.

Lemma print_bool_spec b : print_bool b <> [] /\ xml_parse_bool (print_bool b) = Some b.
Proof. by destruct b. Qed.

(** ** Names *)

Section names.
Context (u8_next : list Z -> option nat).
(** An ASCII character is one byte, any other at least one. *)
Context (u8_ascii : forall c s k, c < 0x80 -> u8_next (c :: s) = Some k -> k = 1%nat).
Context (u8_positive : forall s k, u8_next s = Some k -> (0 < k)%nat).

Definition name_byte (c : Z) : Prop := is_byte c /\ c <> 0 /\ c <> 0x2F.

Lemma decode_percent fuel b rest :
  name_byte b -> decode_loop (3 + fuel) (percent_byte b ++ rest) false = b :: decode_loop (1 + fuel) rest false.
Proof.
  intros (Hb & H0 & H1). destruct (hex_facts b Hb) as (Hx & Hy & Hv). unfold percent_byte.
  assert (Hne : forall c, isxdigit c = true -> (c =? 0x25) = false).
  { intros c. unfold isxdigit, isdigit, in_range. lia. }
  change (3 + fuel)%nat with (S (S (1 + fuel))). cbn [app decode_loop].
  rewrite (Hne _ Hx). cbn [length Nat.ltb Nat.leb andb Z.eqb].
  change (char_at (hex_char (Z.land b 15) :: rest) 0) with (hex_char (Z.land b 15)). rewrite Hv.
  rewrite (proj2 (Z.eqb_neq b 0x2F)), (proj2 (Z.eqb_neq b 0)) by done. done.
Qed.

Lemma decode_plain fuel c rest :
  plain_char c = true -> c <> 0x2F -> decode_loop (S fuel) (c :: rest) false = c :: decode_loop fuel rest false.
Proof.
  intros Hc Hs. cbn [decode_loop]. unfold plain_char in Hc. bsplit. rewrite (proj2 (Z.eqb_neq c 0x25)) by done. cbn.
  unfold no_slash. by rewrite (proj2 (Z.eqb_neq c 0x2F)).
Qed.

(** More fuel than characters changes nothing. *)
Lemma decode_fuel : forall n m name e, (length name <= n)%nat -> (length name <= m)%nat ->
  decode_loop n name e = decode_loop m name e.
Proof.
  induction n as [|n IH]; intros m name e Hn Hm.
  { by destruct name; [destruct m|cbn in Hn; lia]. }
  destruct name as [|c rest]; [by destruct m|]. destruct m as [|m]; [cbn in Hm; lia|].
  cbn [length] in *. cbn [decode_loop].
  rewrite (IH m rest true), (IH m rest false), (IH m (drop 2 (c :: rest)) false) by (rewrite ?length_drop; cbn; lia).
  done.
Qed.

Lemma decode_percents bs rest : Forall name_byte bs ->
  decode_entry_name ((b ← bs; percent_byte b) ++ rest) = bs ++ decode_entry_name rest.
Proof.
  induction 1 as [|b bs Hb _ IH]; [done|]. change (b ← b :: bs; percent_byte b) with (percent_byte b ++ (b ← bs; percent_byte b)).
  rewrite <- app_assoc. cbn [app]. rewrite <- IH. set (r := (b ← bs; percent_byte b) ++ rest). unfold decode_entry_name.
  rewrite (decode_fuel (length r) (1 + length r)) by lia. rewrite <- decode_percent by done.
  apply decode_fuel; rewrite length_app; cbn; lia.
Qed.

Lemma decode_plain_name c rest : plain_char c = true -> c <> 0x2F ->
  decode_entry_name (c :: rest) = c :: decode_entry_name rest.
Proof. apply decode_plain. Qed.

(** A name without slashes is what its encoded form decodes to. *)
Lemma decode_encode_name name e :
  Forall name_byte name -> encode_entry_name u8_next name = Some e -> decode_entry_name e = name.
Proof.
  unfold encode_entry_name. generalize (length name) at 1. intros n. revert name e.
  induction n as [|n IH]; intros name e Hb He.
  { destruct name; [|done]. by injection He as <-. }
  destruct name as [|c rest]; [by injection He as <-|]. cbn [encode_loop] in He.
  destruct (u8_next (c :: rest)) as [k|] eqn:Hk; [|done]. cbn [mbind option_bind] in He.
  destruct (encode_loop u8_next n (drop k (c :: rest))) as [e1|] eqn:He1; [|done]. cbn [mbind option_bind] in He.
  injection He as <-. apply IH in He1; [|by apply Forall_drop].
  pose proof Hb as Hc. apply Forall_cons in Hc as [(Hc & H0 & H1) _].
  destruct (plain_char c) eqn:Hp.
  - rewrite (u8_ascii c rest k) in * by (done || (unfold plain_char, in_range in Hp; lia)).
    cbn [app]. rewrite decode_plain_name by done. by rewrite He1.
  - rewrite decode_percents by by apply Forall_take. by rewrite He1, take_drop.
Qed.

Lemma encode_not_nil name e : name <> [] -> encode_entry_name u8_next name = Some e -> e <> [].
Proof.
  destruct name as [|c rest]; [done|]. intros _ He. unfold encode_entry_name in He. cbn [length encode_loop] in He.
  destruct (u8_next (c :: rest)) as [k|] eqn:Hk; [|done]. pose proof (u8_positive _ _ Hk). cbn [mbind option_bind] in He.
  destruct (encode_loop _ _ _) as [e1|]; [|done]. injection He as <-. destruct (plain_char c); [done|].
  destruct k as [|k]; [lia|]. done.
Qed.
End names.

(** A slash is not encoded, and comes back as an underscore: ["/a:b"] is read as ["_a:b"]. *)
Lemma encoded_slash_is_lost :
  exists e, encode_entry_name (fun _ => Some 1%nat) (str "/a:b") = Some e /\ decode_entry_name e = str "_a:b".
Proof. by eexists. Qed.
