(* ===== verification/IndexXml.v ===== *)
(** * The index as XML (src/libltfs/xml_writer_libltfs.c, xml_reader_libltfs.c)

    The directory tree of an index is written to tape as XML and read back at
    the next mount.  [struct dentry] appears here with the fields that the two
    sides use; a directory holds its children, so a tree is a value ([dtree]).
    Memory is never short.

    Parameters are the functions of ICU behind names ([u8_next], the checks and
    the normalisation of pathname.c), [xmlTextWriterWriteBase64] and the sort of
    uthash. *)

From Stdlib Require Import String.
From S2P Require Import Prelude LtfsError Extents TapeLayer Journal Criteria Base64 KeyFormat Time Xml.

Local Open Scope rd_scope.

(** ** Data *)

Record xattr_info := mk_xattr { xa_key : ltfs_name; xa_value : option (list Z) }.

(** [struct dentry]; a [NULL] name is [None]. *)
Record dent := mk_dent {
  dname : option ltfs_name;
  platform_safe_name : option path;
  isdir : bool;
  isslink : bool;
  target : option ltfs_name;
  readonly : bool;
  uid : Z;
  link_count : Z;
  size : Z;
  realsize : Z;
  used_blocks : Z;
  creation_time : ltfs_timespec;
  change_time : ltfs_timespec;
  modify_time : ltfs_timespec;
  access_time : ltfs_timespec;
  backup_time : ltfs_timespec;
  extentlist : list extent_info;
  xattrlist : list xattr_info;
  is_immutable : bool;
  is_appendonly : bool;
  dirty : bool;
  preserved_tags : list (list xnode);
}.

#[export] Instance eta_dent : Eta dent := fun d =>
  mk_dent (dname d) (platform_safe_name d) (isdir d) (isslink d) (target d) (readonly d) (uid d) (link_count d)
    (size d) (realsize d) (used_blocks d) (creation_time d) (change_time d) (modify_time d) (access_time d)
    (backup_time d) (extentlist d) (xattrlist d) (is_immutable d) (is_appendonly d) (dirty d) (preserved_tags d).

(** A dentry with its [child_list], in the order of the hash table. *)
Inductive dtree := DTree (node : dent) (child_list : list dtree).

Definition node (t : dtree) : dent := let 'DTree d _ := t in d.
Definition child_list (t : dtree) : list dtree := let 'DTree _ l := t in l.

Record tape_offset := mk_offset { to_partition : Z; to_block : Z }.

Inductive mam_lockval := UNLOCKED_MAM | LOCKED_MAM | PWE_MAM | PERMLOCKED_MAM | PWE_MAM_DP | PWE_MAM_IP | PWE_MAM_BOTH | NOLOCK_MAM.

(** [struct ltfs_index]. *)
Record ltfs_index := mk_index {
  creator : list Z;
  vol_uuid : list Z;
  volume_name : option ltfs_name;
  generation : Z;
  mod_time : ltfs_timespec;
  selfptr : tape_offset;
  backptr : tape_offset;
  criteria_allow_update : bool;
  original_criteria : index_criteria;
  active_criteria : index_criteria;
  root : dtree;
  file_count : Z;
  uid_number : Z;
  valid_blocks : Z;
  commit_message : option (list Z);
  version : Z;
  write_version : Z;
  idx_tags : list (list xnode);
  symlink_conflict : list dent;
  vollock : mam_lockval;
}.

#[export] Instance eta_index : Eta ltfs_index := fun i =>
  mk_index (creator i) (vol_uuid i) (volume_name i) (generation i) (mod_time i) (selfptr i) (backptr i)
    (criteria_allow_update i) (original_criteria i) (active_criteria i) (root i) (file_count i) (uid_number i)
    (valid_blocks i) (commit_message i) (version i) (write_version i) (idx_tags i) (symlink_conflict i) (vollock i).

Definition MAKE_LTFS_VERSION (x y z : Z) : Z := 10000 * x + 100 * y + z.
Definition IDX_VERSION_SPARSE : Z := MAKE_LTFS_VERSION 2 0 0.
Definition IDX_VERSION_BACKUPTIME : Z := MAKE_LTFS_VERSION 2 0 0.
Definition IDX_VERSION_UID : Z := MAKE_LTFS_VERSION 2 0 0.
Definition LTFS_INDEX_VERSION_MIN : Z := MAKE_LTFS_VERSION 1 0 0.
Definition LTFS_INDEX_VERSION_MAX : Z := MAKE_LTFS_VERSION 2 99 99.
Definition LTFS_INDEX_VERSION : Z := MAKE_LTFS_VERSION 2 5 0.
Definition LTFS_INDEX_VERSION_WRITE_MIN : Z := MAKE_LTFS_VERSION 2 4 0.
Definition INDEX_MAX_COMMENT_LEN : Z := 65536.

(** ** Writing *)

Section writer.
Variable u8_next : list Z -> option nat.
(** [pathname_validate_xattr_value]: 0 for a text, above zero when base64 is needed. *)
Variable validate_xattr_value : list Z -> Z.
(** The text that [xmlTextWriterWriteBase64] writes. *)
Variable write_base64 : list Z -> list Z.
(** [HASH_SORT] with [fs_hash_sort_by_uid]. *)
Variable hash_sort : list dtree -> list dtree.

Definition _xml_write_nametype (tag : string) (n : ltfs_name) : option (list token) :=
  if percent_encode n then
    e ← encode_entry_name u8_next (name n);
    Some (text_element tag [("percentencoded"%string, str "true")] e)
  else Some (write_element tag (name n)).

(** A name that may be [NULL]. *)
Definition write_name (tag : string) (n : option ltfs_name) : option (list token) :=
  match n with Some n => _xml_write_nametype tag n | None => Some (element tag [] []) end.

Definition _xml_write_dentry_times (d : dent) : list token :=
  write_element "creationtime" (time_text (creation_time d)) ++
  write_element "changetime" (time_text (change_time d)) ++
  write_element "modifytime" (time_text (modify_time d)) ++
  write_element "accesstime" (time_text (access_time d)) ++
  write_element "backuptime" (time_text (backup_time d)).

Definition write_one_xattr (x : xattr_info) : option (list token) :=
  k ← _xml_write_nametype "key" (xa_key x);
  v ← match xa_value x with
      | None => Some (element "value" [] [])
      | Some v =>
          let ret := validate_xattr_value v in
          if ret <? 0 then None
          else if 0 <? ret then Some (text_element "value" [("type"%string, str "base64")] (write_base64 v))
          else Some (write_element "value" (until_nul v))
      end;
  Some (element "xattr" [] (k ++ v)).

Definition _xml_write_xattr (d : dent) : option (list token) :=
  match xattrlist d with
  | [] => Some []
  | l => ts ← mapM write_one_xattr l; Some (element "extendedattributes" [] (concat ts))
  end.

Definition write_one_extent (e : extent_info) : list token :=
  element "extent" []
    (write_element "fileoffset" (print_u (fileoffset e)) ++
     write_element "partition" [start_partition e] ++
     write_element "startblock" (print_u (start_block e)) ++
     write_element "byteoffset" (print_u (byteoffset e)) ++
     write_element "bytecount" (print_u (bytecount e))).

Definition write_extents (l : list extent_info) : list token :=
  match l with
  | [] => []
  | _ => element "extentinfo" [] (concat (write_one_extent <$> l))
  end.

Definition _xml_write_file (t : dtree) : option (list token * dtree) :=
  let 'DTree file ch := t in
  if isdir file then None
  else
    nm ← write_name "name" (dname file);
    xa ← _xml_write_xattr file;
    data ← if isslink file then write_name "symlink" (target file) else Some (write_extents (extentlist file));
    Some (element "file" []
            (nm ++ write_element "length" (print_u (size file)) ++
             write_element "readonly" (print_bool (readonly file)) ++
             _xml_write_dentry_times file ++
             write_element "fileuid" (print_u (uid file)) ++ xa ++ data ++
             concat (write_raw <$> preserved_tags file)),
          DTree (file <| dirty := false |>) ch).

(** One unit of fuel per level; [idx_root]: this is the root, named like the volume. *)
Fixpoint _xml_write_dirtree (fuel : nat) (volname : option ltfs_name) (idx_root : bool) (t : dtree) : option (list token * dtree) :=
  match fuel with
  | O => None
  | S fuel =>
      let 'DTree dir ch := t in
      nm ← write_name "name" (if idx_root then volname else dname dir);
      xa ← _xml_write_xattr dir;
      ws ← mapM (fun c => if isdir (node c) then _xml_write_dirtree fuel volname false c else _xml_write_file c) (hash_sort ch);
      Some (element "directory" []
              (nm ++ write_element "readonly" (print_bool (readonly dir)) ++
               _xml_write_dentry_times dir ++
               write_element "fileuid" (print_u (uid dir)) ++ xa ++
               element "contents" [] (concat (fst <$> ws)) ++
               concat (write_raw <$> preserved_tags dir)),
            DTree (dir <| dirty := false |>) (snd <$> ws))
  end.

(** ["%d.%d.%d"]. *)
Definition ltfs_format_version_str (v : Z) : list Z :=
  print_u (v / 10000) ++ [46] ++ print_u ((v - (v / 10000) * 10000) / 100) ++ [46] ++ print_u (v mod 100).

Definition write_tapepos (tag : string) (p : tape_offset) : list token :=
  element tag [] (write_element "partition" [to_partition p] ++ write_element "startblock" (print_u (to_block p))).

Definition write_policy (c : index_criteria) : option (list token) :=
  if have_criteria c then
    ns ← mapM (_xml_write_nametype "name") (default [] (glob_patterns c));
    Some (element "dataplacementpolicy" []
            (element "indexpartitioncriteria" []
               (write_element "size" (print_u (max_filesize_criteria c)) ++ concat ns)))
  else Some [].

Definition lock_text (l : mam_lockval) : list Z :=
  str (match l with LOCKED_MAM => "locked" | PERMLOCKED_MAM => "permlocked" | _ => "unlocked" end).

(** The document and the index with its directories sorted and marked clean. *)
Definition _xml_write_schema (fuel : nat) (creator : list Z) (idx : ltfs_index) : option (list token * ltfs_index) :=
  policy ← write_policy (original_criteria idx);
  '(tree, r) ← _xml_write_dirtree fuel (volume_name idx) true (root idx);
  Some (element "ltfsindex" [("version"%string, ltfs_format_version_str (write_version idx))]
          (write_element "creator" creator ++
           match commit_message idx with
           | Some ((_ :: _) as c) => write_element "comment" c
           | _ => []
           end ++
           write_element "volumeuuid" (vol_uuid idx) ++
           write_element "generationnumber" (print_u (generation idx)) ++
           write_element "updatetime" (time_text (mod_time idx)) ++
           write_tapepos "location" (selfptr idx) ++
           (if to_block (backptr idx) =? 0 then [] else write_tapepos "previousgenerationlocation" (backptr idx)) ++
           write_element "allowpolicyupdate" (print_bool (criteria_allow_update idx)) ++
           policy ++
           write_element "highestfileuid" (print_u (uid_number idx)) ++
           write_element "volumelockstate" (lock_text (vollock idx)) ++
           tree ++
           concat (write_raw <$> idx_tags idx)),
        idx <| root := r |>).
End writer.

(** ** Reading *)

Section reader.
Variable pathname_normalize : path -> Z + path.
Variable pathname_validate_file : path -> Z.
Variable pathname_validate_target : path -> Z.
(** [vol->label->blocksize], when the index belongs to a volume. *)
Variable blocksize : option Z.
(** A bound for the turns of each loop. *)
Variable turns : nat.

Definition xml_parse_filename (value : path) : Z + path :=
  match pathname_normalize value with
  | inl e => inl e
  | inr n => let ret := pathname_validate_file n in if ret <? 0 then inl ret else inr n
  end.

Definition xml_parse_target (value : path) : Z + path :=
  match pathname_normalize value with
  | inl e => inl e
  | inr n => let ret := pathname_validate_target n in if ret <? 0 then inl ret else inr n
  end.

Definition parse_name (pe is_target : bool) (v : list Z) : Z + ltfs_name :=
  let decoded := if pe then decode_entry_name v else v in
  match (if is_target then xml_parse_target decoded else xml_parse_filename decoded) with
  | inl e => inl e
  | inr n => inr (mk_name pe n)
  end.

Definition is_percent_encoded (attrs : attributes) : bool :=
  match get_attribute "percentencoded" attrs with Some v => text_is "true" v | None => false end.

Definition _xml_parse_nametype {S} (attrs : attributes) (empty is_target : bool) : rd S (Z + ltfs_name) :=
  if empty then rret (inl (- LTFS_XML_EMPTY))
  else
    r <- scan_text;;
    rret (match r with
          | inl e => inl e
          | inr [] => inl (- LTFS_XML_EMPTY)
          | inr v => parse_name (is_percent_encoded attrs) is_target v
          end).

(** [None]: the name is empty, and the end tag has been read. *)
Definition _xml_parse_nametype_allow_zero_length {S} (attrs : attributes) (empty is_target : bool) : rd S (option ltfs_name) :=
  v <- get_tag_text_allow_zero_length empty;;
  match v with
  | [] => rret None
  | _ => n <- rcode (parse_name (is_percent_encoded attrs) is_target v);; rret (Some n)
  end.

(** A name that must be there, with its end tag. *)
Definition name_value {S} (tag : string) (attrs : attributes) (empty is_target : bool) : rd S ltfs_name :=
  r <- _xml_parse_nametype attrs empty is_target;;
  n <- rcode r;;
  check_tag_end tag;;;
  rret n.

Definition _xml_parse_partition (v : list Z) : option Z :=
  match v with
  | [c] => if in_range 97 122 c then Some c else None
  | _ => None
  end.

(** *** Extents *)

Definition extent_tag {S} (idx_version : Z) (tag : string) (attrs : attributes) (empty : bool)
    (a : list bool * extent_info) : rd S (list bool * extent_info) :=
  let '(have, xt) := a in
  if (tag =? "partition")%string then
    have <- check_required_tag 0 have;;
    v <- tag_value tag empty _xml_parse_partition (- LTFS_XML_WRONG_PART);;
    rret (have, xt <| start_partition := v |>)
  else if (tag =? "startblock")%string then
    have <- check_required_tag 1 have;;
    v <- tag_value tag empty xml_parse_ull (- LTFS_XML_WRONG_START_BLK);;
    rret (have, xt <| start_block := v |>)
  else if (tag =? "byteoffset")%string then
    have <- check_required_tag 2 have;;
    v <- tag_value tag empty xml_parse_ull (- LTFS_XML_WRONG_OFFSET);;
    rret (have, xt <| byteoffset := u32 v |>)
  else if (tag =? "bytecount")%string then
    have <- check_required_tag 3 have;;
    v <- tag_value tag empty xml_parse_ull (- LTFS_XML_WRONG_BYTE_CNT);;
    rret (have, xt <| bytecount := v |>)
  else if (IDX_VERSION_SPARSE <=? idx_version) && (tag =? "fileoffset")%string then
    have <- check_required_tag 4 have;;
    v <- tag_value tag empty xml_parse_ull (- LTFS_XML_WRONG_FILE_OFST);;
    rret (have, xt <| fileoffset := v |>)
  else ignore_unrecognized_tag empty;;; rret (have, xt).

(** The loop from the tail of the extent list: [rev] is what is in front, from
    the back, [after] what was passed. *)
Fixpoint place_extent (xt : extent_info) (rev after : list extent_info) : option (list extent_info) :=
  match rev with
  | [] => Some (xt :: after)
  | xt_last :: rev' =>
      if fileoffset_end xt_last <=? fileoffset xt then Some (reverse rev ++ xt :: after)
      else if fileoffset xt_last <? fileoffset_end xt then None
      else place_extent xt rev' (xt_last :: after)
  end.

(** Blocks that an extent touches. *)
Definition extent_blocks (bs : Z) (xt : extent_info) : Z :=
  let n := byteoffset_end xt in n / bs + (if n mod bs =? 0 then 0 else 1).

Definition add_parsed_extent (xt : extent_info) (d : dent) : option dent :=
  l ← place_extent xt (reverse (extentlist d)) [];
  let d := d <| extentlist := l |> <| realsize := realsize d ⊞ bytecount xt |> in
  Some (match blocksize with
        | Some bs => d <| used_blocks := used_blocks d ⊞ extent_blocks bs xt |>
        | None => d
        end).

Definition _xml_parse_one_extent {S} (idx_version : Z) (d : dent) : rd S dent :=
  a <- parse_tags turns "extent" (extent_tag idx_version) (replicate 5 false, mk_extent 0 0 0 0 0);;
  let '(have, xt) := a in
  a <- (if idx_version <? IDX_VERSION_SPARSE then
          have <- check_required_tag 4 have;;
          rret (have, xt <| fileoffset := match last (extentlist d) with Some l => fileoffset_end l | None => 0 end |>)
        else rret (have, xt));;
  let '(have, xt) := a in
  check_required_tags have;;;
  ropt (add_parsed_extent xt d) (- LTFS_XML_EXT_OVERLAP).

Definition extents_tag {S} (idx_version : Z) (tag : string) (attrs : attributes) (empty : bool) (d : dent) : rd S dent :=
  if (tag =? "extent")%string then
    assert_not_empty empty;;; _xml_parse_one_extent idx_version d
  else ignore_unrecognized_tag empty;;; rret d.

Definition _xml_parse_extents {S} (idx_version : Z) (d : dent) : rd S dent :=
  parse_tags turns "extentinfo" (extents_tag idx_version) d.

(** *** Extended attributes *)

(** The attribute being read; [alive] until its key is refused. *)
Record xattr_state := mk_xs { xs_have : list bool; alive : bool; xs_key : option ltfs_name; xs_value : option (list Z) }.

#[export] Instance eta_xs : Eta xattr_state := fun x => mk_xs (xs_have x) (alive x) (xs_key x) (xs_value x).

(** [base64_decode]; [None]: an error. *)
Definition decode_value {S} (v : list Z) : rd S (list Z) :=
  match base64_decode true v with
  | Decoded [] | DecError => rfail (- LTFS_XML_XATTR_SIZE)
  | Decoded l => rret (default 0 <$> l)
  | Undefined => rcrash
  end.

Definition xattr_tag {S} (tag : string) (attrs : attributes) (empty : bool) (x : xattr_state) : rd S xattr_state :=
  if (tag =? "key")%string then
    have <- check_required_tag 0 (xs_have x);;
    r <- _xml_parse_nametype attrs empty true;;
    check_tag_end "key";;;
    rret (match r with
          | inl _ => x <| xs_have := have |> <| alive := false |>
          | inr k => x <| xs_have := have |> <| xs_key := Some k |>
          end)
  else if (tag =? "value")%string then
    have <- check_required_tag 1 (xs_have x);;
    let type := get_attribute "type" attrs in
    let is_text := match type with None => true | Some t => text_is "text" t end in
    let is_base64 := match type with None => false | Some t => text_is "base64" t end in
    if negb is_text && negb is_base64 then rfail (- LTFS_XML_XATTR_TYPE)
    else if alive x && negb empty then
      v <- xml_scan_text;;
      b <- (if is_text then rret v else decode_value v);;
      (if bool_decide (v = []) then rret tt else check_tag_end "value");;;
      rret (x <| xs_have := have |> <| xs_value := Some b |>)
    else rret (x <| xs_have := have |>)
  else ignore_unrecognized_tag empty;;; rret x.

(** [strcmp(value, "1")] of the attribute with this key. *)
Definition is_flag {S} (name : string) (k : ltfs_name) (value : option (list Z)) : rd S bool :=
  if text_is name (Journal.name k) then
    match value with None => rcrash | Some v => rret (text_is "1" (until_nul v)) end
  else rret false.

Definition _xml_parse_one_xattr {S} (d : dent) : rd S dent :=
  x <- parse_tags turns "xattr" xattr_tag (mk_xs (replicate 2 false) true None None);;
  check_required_tags (xs_have x);;;
  if alive x then
    match xs_key x with
    | None => rcrash
    | Some k =>
        i <- is_flag "ltfs.vendor.Aurora.immutable" k (xs_value x);;
        a <- is_flag "ltfs.vendor.Aurora.appendonly" k (xs_value x);;
        rret (d <| xattrlist := xattrlist d ++ [mk_xattr k (xs_value x)] |>
                <| is_immutable := is_immutable d || i |> <| is_appendonly := is_appendonly d || a |>)
    end
  else rret d.

Definition xattrs_tag {S} (tag : string) (attrs : attributes) (empty : bool) (d : dent) : rd S dent :=
  if (tag =? "xattr")%string then assert_not_empty empty;;; _xml_parse_one_xattr d
  else ignore_unrecognized_tag empty;;; rret d.

Definition _xml_parse_xattrs {S} (d : dent) : rd S dent := parse_tags turns "extendedattributes" xattrs_tag d.

(** *** Files *)

(** What [fs_allocate_dentry] sets for a dentry without a name in a directory. *)
Definition new_dentry (dir : bool) : dent :=
  mk_dent None None dir false None false 1 (if dir then 2 else 1) 0 0 0
    (mk_time 0 0) (mk_time 0 0) (mk_time 0 0) (mk_time 0 0) (mk_time 0 0) [] [] false false false [].

Definition fs_allocate_uid (idx : ltfs_index) : Z * ltfs_index :=
  if uid_number idx =? 0 then (0, idx)
  else let u := uid_number idx ⊞ 1 in (u, idx <| uid_number := u |>).

Definition raise_uid (u : Z) (idx : ltfs_index) : ltfs_index :=
  if uid_number idx <? u then idx <| uid_number := u |> else idx.

(** The arrays of required and optional tags, the object, and the flags of [_xml_parse_file]. *)
Record file_state := mk_file_state {
  f_req : list bool;
  f_opt : list bool;
  obj : dent;
  symlink_flag : bool;
  extent_flag : bool;
  f_deleted : bool;
}.

#[export] Instance eta_file_state : Eta file_state := fun f =>
  mk_file_state (f_req f) (f_opt f) (obj f) (symlink_flag f) (extent_flag f) (f_deleted f).

(** A required tag with a text, stored with [set]. *)
Definition required_value {S A} (i : nat) (tag : string) (empty : bool) (parse : list Z -> option A) (code : Z)
    (set : A -> dent -> dent) (f : file_state) : rd S file_state :=
  have <- check_required_tag i (f_req f);;
  v <- tag_value tag empty parse code;;
  rret (f <| f_req := have |> <| obj := set v (obj f) |>).

(** The uid of an object, which may raise the highest uid of the index. *)
Definition uid_tag (tag : string) (empty : bool) (f : file_state) : rd ltfs_index file_state :=
  f <- required_value 7 tag empty xml_parse_ull (- LTFS_XML_WRONG_UID) (fun v d => d <| uid := v |>) f;;
  rmodify (raise_uid (uid (obj f)));;;
  rret f.

(** [inc]: the entry is from an incremental index and may be a deletion. *)
Definition file_tag (inc : bool) (tag : string) (attrs : attributes) (empty : bool) (f : file_state)
    : rd ltfs_index file_state :=
  idx <- rget;;
  if (tag =? "name")%string then
    have <- check_required_tag 0 (f_req f);;
    n <- name_value tag attrs empty false;;
    rret (f <| f_req := have |> <| obj := (obj f) <| dname := Some n |> |>)
  else if (tag =? "length")%string then
    required_value 1 tag empty xml_parse_ull (- LTFS_XML_WRONG_SIZE) (fun v d => d <| size := v |>) f
  else if (tag =? "readonly")%string then
    required_value 2 tag empty xml_parse_bool (- LTFS_XML_WRONG_RO_F) (fun v d => d <| readonly := v |>) f
  else if (tag =? "modifytime")%string then
    required_value 3 tag empty parse_time (- LTFS_XML_WRONG_MTIME_F) (fun v d => d <| modify_time := v |>) f
  else if (tag =? "creationtime")%string then
    required_value 4 tag empty parse_time (- LTFS_XML_WRONG_CRTIME_F) (fun v d => d <| creation_time := v |>) f
  else if (tag =? "accesstime")%string then
    required_value 5 tag empty parse_time (- LTFS_XML_WRONG_ATIME_F) (fun v d => d <| access_time := v |>) f
  else if (tag =? "changetime")%string then
    required_value 6 tag empty parse_time (- LTFS_XML_WRONG_CTIME_F) (fun v d => d <| change_time := v |>) f
  else if (tag =? "extendedattributes")%string then
    have <- check_optional_tag 0 (f_opt f);;
    d <- (if empty then rret (obj f) else _xml_parse_xattrs (obj f));;
    rret (f <| f_opt := have |> <| obj := d |>)
  else if (tag =? "extentinfo")%string then
    have <- check_optional_tag 1 (f_opt f);;
    if empty then rret (f <| f_opt := have |> <| extent_flag := true |>)
    else d <- _xml_parse_extents (version idx) (obj f);; rret (f <| f_opt := have |> <| obj := d |>)
  else if (tag =? "symlink")%string then
    have <- check_optional_tag 2 (f_opt f);;
    n <- name_value tag attrs empty true;;
    rret (f <| f_opt := have |> <| obj := (obj f) <| target := Some n |> <| isslink := true |> |> <| symlink_flag := true |>)
  else if (tag =? "openforwrite")%string then
    have <- check_optional_tag 3 (f_opt f);;
    _ <- get_tag_text empty;;
    check_tag_end tag;;;
    rret (f <| f_opt := have |>)
  else if (IDX_VERSION_UID <=? version idx) && (tag =? "fileuid")%string then uid_tag tag empty f
  else if (tag =? "fileuid")%string then ignore_unrecognized_tag empty;;; rret f
  else if (IDX_VERSION_BACKUPTIME <=? version idx) && (tag =? "backuptime")%string then
    required_value 8 tag empty parse_time (- LTFS_XML_WRONG_BTIME_F) (fun v d => d <| backup_time := v |>) f
  else if (tag =? "backuptime")%string then ignore_unrecognized_tag empty;;; rret f
  else if inc && (tag =? "deleted")%string then
    ignore_unrecognized_tag empty;;; rret (f <| f_deleted := true |>)
  else
    t <- preserve_unrecognized_tag tag attrs empty;;
    rret (f <| obj := (obj f) <| preserved_tags := preserved_tags (obj f) ++ [t] |> |>).

(** What an old index does not have: a uid is allocated, the backup time is the time of creation. *)
Definition old_fields (f : file_state) (may_allocate : bool) : rd ltfs_index file_state :=
  idx <- rget;;
  f <- (if version idx <? IDX_VERSION_UID then
          have <- check_required_tag 7 (f_req f);;
          if may_allocate then
            let '(u, idx') := fs_allocate_uid idx in
            rmodify (fun _ => raise_uid u idx');;;
            rret (f <| f_req := have |> <| obj := (obj f) <| uid := u |> |>)
          else rret (f <| f_req := have |>)
        else rret f);;
  if version idx <? IDX_VERSION_BACKUPTIME then
    have <- check_required_tag 8 (f_req f);;
    rret (f <| f_req := have |> <| obj := (obj f) <| backup_time := creation_time (obj f) |> |>)
  else rret f.

(** Is the file shorter than its extents? *)
Definition extents_too_long (d : dent) : bool :=
  match last (extentlist d) with Some x => size d <? fileoffset_end x | None => false end.

(** The file, and whether the entry is a deletion. *)
Definition _xml_parse_file (inc : bool) : rd ltfs_index (dent * bool) :=
  rmodify (fun idx => idx <| file_count := file_count idx ⊞ 1 |>);;;
  f <- parse_tags turns "file" (file_tag inc) (mk_file_state (replicate 9 false) (replicate 4 false) (new_dentry false) false false false);;
  if f_deleted f then
    if default false (f_req f !! 0%nat) then rret (obj f, true) else rfail (- LTFS_XML_NO_REQUIRED_TAG)
  else
    f <- old_fields f true;;
    check_required_tags (f_req f);;;
    if extents_too_long (obj f) then rfail (- LTFS_XML_EXT_TOO_LONG)
    else if uid (obj f) =? 0 then rfail (- LTFS_XML_WRONG_UID)
    else
      (if symlink_flag f && extent_flag f then rmodify (fun idx => idx <| symlink_conflict := symlink_conflict idx ++ [obj f] |>)
       else rret tt);;;
      rret (obj f, false).

(** *** Directories *)

(** [fs_update_platform_safe_names] (src/libltfs/fs.c): the entries go into the
    directory, first those whose name is free, then the others; each pass takes
    the entries of the temporary table in their order. *)
Definition safe_entry (t : dtree) : dtree :=
  let 'DTree d ch := t in DTree (d <| platform_safe_name := name <$> dname d |>) ch.

Definition has_safe_name (n : option path) (t : dtree) : bool :=
  bool_decide (platform_safe_name (node t) = n).

Fixpoint safe_names_pass (handle_dup_name : bool) (entries ch : list dtree) (blocks : Z) : list dtree * list dtree * Z :=
  match entries with
  | [] => ([], ch, blocks)
  | t :: entries' =>
      if negb handle_dup_name && existsb (has_safe_name (name <$> dname (node t))) ch then
        let '(rest, ch, blocks) := safe_names_pass handle_dup_name entries' ch blocks in (t :: rest, ch, blocks)
      else safe_names_pass handle_dup_name entries' (ch ++ [safe_entry t]) (blocks ⊞ used_blocks (node t))
  end.

Definition fs_update_platform_safe_names (entries ch : list dtree) (blocks : Z) : list dtree * Z :=
  let '(rest, ch, blocks) := safe_names_pass false entries ch blocks in
  let '(_, ch, blocks) := safe_names_pass true rest ch blocks in
  (ch, blocks).

(** The entries of a directory: what was read so far. *)
Definition contents_tag (parse_dir : rd ltfs_index dtree) (tag : string) (attrs : attributes) (empty : bool)
    (l : list dtree) : rd ltfs_index (list dtree) :=
  if (tag =? "file")%string then
    assert_not_empty empty;;;
    r <- _xml_parse_file false;;
    rret (l ++ [DTree r.1 []])
  else if (tag =? "directory")%string then
    assert_not_empty empty;;;
    t <- parse_dir;;
    rret (l ++ [t])
  else ignore_unrecognized_tag empty;;; rret l.

Definition count_dirs (l : list dtree) : Z := zsum ((fun t => if isdir (node t) then 1 else 0) <$> l).

(** [dir] with its new entries. *)
Definition _xml_parse_dir_contents (parse_dir : rd ltfs_index dtree) (dir : dtree) : rd ltfs_index dtree :=
  l <- parse_tags turns "contents" (contents_tag parse_dir) [];;
  idx <- rget;;
  let '(ch, blocks) := fs_update_platform_safe_names l (child_list dir) (valid_blocks idx) in
  rmodify (fun idx => idx <| valid_blocks := blocks |>);;;
  let d := node dir in
  rret (DTree (d <| link_count := u32 (link_count d + count_dirs l) |>) ch).

(** The directory being read: the arrays, its fields, its entries. *)
Definition dir_tag (is_root : bool) (parse_dir : rd ltfs_index dtree) (tag : string) (attrs : attributes) (empty : bool)
    (a : file_state * list dtree) : rd ltfs_index (file_state * list dtree) :=
  let '(f, ch) := a in
  let keep (m : rd ltfs_index file_state) := f <- m;; rret (f, ch) in
  idx <- rget;;
  if (tag =? "name")%string then
    have <- check_required_tag 0 (f_req f);;
    if is_root then
      n <- (if empty then rret None
            else
              n <- _xml_parse_nametype_allow_zero_length attrs empty false;;
              match n with Some n => check_tag_end "name";;; rret (Some n) | None => rret None end);;
      rmodify (fun idx => idx <| volume_name := n |>);;;
      rret (f <| f_req := have |>, ch)
    else
      n <- name_value tag attrs empty false;;
      rret (f <| f_req := have |> <| obj := (obj f) <| dname := Some n |> |>, ch)
  else if (tag =? "readonly")%string then
    keep (required_value 1 tag empty xml_parse_bool (- LTFS_XML_WRONG_RO_DIR) (fun v d => d <| readonly := v |>) f)
  else if (tag =? "modifytime")%string then
    keep (required_value 2 tag empty parse_time (- LTFS_XML_WRONG_MTIME_DIR) (fun v d => d <| modify_time := v |>) f)
  else if (tag =? "creationtime")%string then
    keep (required_value 3 tag empty parse_time (- LTFS_XML_WRONG_CRTIME_DIR) (fun v d => d <| creation_time := v |>) f)
  else if (tag =? "accesstime")%string then
    keep (required_value 4 tag empty parse_time (- LTFS_XML_WRONG_CTIME_DIR) (fun v d => d <| access_time := v |>) f)
  else if (tag =? "changetime")%string then
    keep (required_value 5 tag empty parse_time (- LTFS_XML_WRONG_CTIME_DIR) (fun v d => d <| change_time := v |>) f)
  else if (tag =? "contents")%string then
    have <- check_required_tag 6 (f_req f);;
    if empty then rret (f <| f_req := have |>, ch)
    else
      t <- _xml_parse_dir_contents parse_dir (DTree (obj f) ch);;
      rret (f <| f_req := have |> <| obj := node t |>, child_list t)
  else if (tag =? "extendedattributes")%string then
    have <- check_optional_tag 0 (f_opt f);;
    d <- (if empty then rret (obj f) else _xml_parse_xattrs (obj f));;
    rret (f <| f_opt := have |> <| obj := d |>, ch)
  else if (IDX_VERSION_UID <=? version idx) && (tag =? "fileuid")%string then keep (uid_tag tag empty f)
  else if (tag =? "fileuid")%string then ignore_unrecognized_tag empty;;; rret (f, ch)
  else if (IDX_VERSION_BACKUPTIME <=? version idx) && (tag =? "backuptime")%string then
    keep (required_value 8 tag empty parse_time (- LTFS_XML_WRONG_BTIME_DIR) (fun v d => d <| backup_time := v |>) f)
  else if (tag =? "backuptime")%string then ignore_unrecognized_tag empty;;; rret (f, ch)
  else
    t <- preserve_unrecognized_tag tag attrs empty;;
    rret (f <| obj := (obj f) <| preserved_tags := preserved_tags (obj f) ++ [t] |> |>, ch).

(** The end of [_xml_parse_dirtree]: fields of old indexes, missing tags, the uid. *)
Definition dir_end (is_root : bool) (f : file_state) (ch : list dtree) : rd ltfs_index dtree :=
  f <- old_fields f (negb is_root);;
  check_required_tags (f_req f);;;
  let u := uid (obj f) in
  if negb is_root && (u =? 1) || is_root && negb (u =? 1) || (u =? 0) then rfail (- LTFS_XML_INVALID_UID)
  else rret (DTree (obj f) ch).

(** [_xml_parse_dirtree]; one unit of fuel per level. *)
Fixpoint _xml_parse_dirtree (fuel : nat) (is_root : bool) : rd ltfs_index dtree :=
  match fuel with
  | O => rfail 0
  | S fuel =>
      idx <- rget;;
      let '(d, ch) := if is_root then (node (root idx), child_list (root idx)) else (new_dentry true, []) in
      a <- parse_tags turns "directory" (dir_tag is_root (_xml_parse_dirtree fuel false))
             (mk_file_state (replicate 9 false) [false] d false false false, ch);;
      dir_end is_root a.1 a.2
  end.
(** *** Policy and positions *)

(** A pattern that is not a name is dropped. *)
Definition ip_criteria_tag (tag : string) (attrs : attributes) (empty : bool) (have : list bool) : rd ltfs_index (list bool) :=
  if (tag =? "size")%string then
    have <- check_required_tag 0 have;;
    v <- tag_value tag empty xml_parse_ull (- LTFS_XML_WRONG_POLICY);;
    rmodify (fun idx => idx <| original_criteria := (original_criteria idx) <| max_filesize_criteria := v |> |>);;;
    rret have
  else if (tag =? "name")%string then
    r <- _xml_parse_nametype attrs empty false;;
    rmodify (fun idx =>
      let l := default [] (glob_patterns (original_criteria idx)) in
      idx <| original_criteria := (original_criteria idx) <| glob_patterns := Some (match r with inr n => l ++ [n] | inl _ => l end) |> |>);;;
    check_tag_end "name";;;
    rret have
  else ignore_unrecognized_tag empty;;; rret have.

(** Both criteria are freed first; a criterion without a policy has no patterns. *)
Definition start_criteria (idx : ltfs_index) : ltfs_index :=
  idx <| original_criteria := (index_criteria_free (original_criteria idx)) <| have_criteria := true |> |>
      <| active_criteria := index_criteria_free (active_criteria idx) |>.

Definition copy_criteria (idx : ltfs_index) : ltfs_index :=
  match index_criteria_dup_rules true (fun _ => true) (original_criteria idx) with
  | (_, Some c) => idx <| active_criteria := c |>
  | (_, None) => idx
  end.

Definition _xml_parse_ip_criteria : rd ltfs_index unit :=
  rmodify start_criteria;;;
  have <- parse_tags turns "indexpartitioncriteria" ip_criteria_tag [false];;
  rmodify copy_criteria;;;
  check_required_tags have.

Definition policy_tag (tag : string) (attrs : attributes) (empty : bool) (have : list bool) : rd ltfs_index (list bool) :=
  if (tag =? "indexpartitioncriteria")%string then
    have <- check_required_tag 0 have;;
    assert_not_empty empty;;;
    _xml_parse_ip_criteria;;;
    rret have
  else ignore_unrecognized_tag empty;;; rret have.

Definition _xml_parse_policy : rd ltfs_index unit :=
  have <- parse_tags turns "dataplacementpolicy" policy_tag [false];;
  check_required_tags have.

Definition tapepos_tag {S} (tag : string) (attrs : attributes) (empty : bool) (a : list bool * tape_offset)
    : rd S (list bool * tape_offset) :=
  let '(have, pos) := a in
  if (tag =? "partition")%string then
    have <- check_required_tag 0 have;;
    v <- tag_value tag empty _xml_parse_partition (-1);;
    rret (have, mk_offset v (to_block pos))
  else if (tag =? "startblock")%string then
    have <- check_required_tag 1 have;;
    v <- tag_value tag empty xml_parse_ull (-1);;
    rret (have, mk_offset (to_partition pos) v)
  else ignore_unrecognized_tag empty;;; rret (have, pos).

(** All errors are the caller's. *)
Definition _xml_parse_tapepos {S} (tag : string) (pos : tape_offset) (code : Z) : rd S tape_offset :=
  rcatch (a <- parse_tags turns tag tapepos_tag ([false; false], pos);;
          check_required_tags a.1;;;
          rret a.2) code.

(** *** The document *)

(** The digits at the front and what follows. *)
Fixpoint span_digits (v : list Z) : list Z * list Z :=
  match v with
  | c :: v' => if isdigit c then let '(d, r) := span_digits v' in (c :: d, r) else ([], v)
  | [] => ([], [])
  end.

(** [atoi]: [strtol] saturates, the result is stored as an [int]. *)
Definition atoi (v : list Z) : Z := match scan_int None v with Some (n, _) => stored_int n | None => 0 end.

Definition _xml_parse_version (v : list Z) : option Z :=
  if text_is "1.0" v then Some (MAKE_LTFS_VERSION 1 0 0)
  else
    match span_digits v with
    | ((_ :: _) as x, 46 :: v) =>
        match span_digits v with
        | ((_ :: _) as y, 46 :: v) =>
            match span_digits v with
            | ((_ :: _) as z, []) => Some (i32 (MAKE_LTFS_VERSION (atoi x) (atoi y) (atoi z)))
            | _ => None
            end
        | _ => None
        end
    | _ => None
    end.

(** [utf8]: the encoding that [xmlTextReaderConstEncoding] reports is UTF-8. *)
Definition _xml_parser_init {S} (utf8 : bool) (top_name : string) (min_version max_version : Z) : rd S Z :=
  t <- xml_next_tag "";;
  match t with
  | None => rfail (- LTFS_XML_WRONG_TOPTAG)
  | Some (tag, attrs, _) =>
      if negb (tag =? top_name)%string then
        rfail (if (top_name =? "ltfsindex")%string && (tag =? "ltfsincrementalindex")%string then - LTFS_XML_INC_INDEX
               else - LTFS_XML_WRONG_TOPTAG)
      else if negb utf8 then rfail (- LTFS_XML_WRONG_ENCODING)
      else
        match get_attribute "version" attrs with
        | None => rfail (- LTFS_XML_TOP_ATTR_FAIL)
        | Some value =>
            ver <- ropt (_xml_parse_version value) (- LTFS_UNSUPPORTED_INDEX_VERSION);;
            if (ver <? min_version) || (max_version <? ver) then rfail (- LTFS_UNSUPPORTED_INDEX_VERSION) else rret ver
        end
  end.

Definition parse_lock (v : list Z) (l : mam_lockval) : mam_lockval :=
  if text_is "unlocked" v then UNLOCKED_MAM
  else if text_is "locked" v then LOCKED_MAM
  else if text_is "permlocked" v then PERMLOCKED_MAM
  else l.

(** A required tag of the index with a text. *)
Definition index_value {A} (i : nat) (tag : string) (empty : bool) (parse : list Z -> option A) (code : Z)
    (set : A -> ltfs_index -> ltfs_index) (h : list bool * list bool) : rd ltfs_index (list bool * list bool) :=
  have <- check_required_tag i h.1;;
  v <- tag_value tag empty parse code;;
  rmodify (set v);;;
  rret (have, h.2).

Definition schema_tag (fuel : nat) (skip_dir : bool) (tag : string) (attrs : attributes) (empty : bool)
    (h : list bool * list bool) : rd ltfs_index (list bool * list bool) :=
  idx <- rget;;
  if (tag =? "creator")%string then
    index_value 0 tag empty Some 0 (fun v idx => idx <| creator := v |>) h
  else if (tag =? "volumeuuid")%string then
    index_value 1 tag empty xml_parse_uuid (- LTFS_XML_WRONG_UUID) (fun v idx => idx <| vol_uuid := v |>) h
  else if (tag =? "generationnumber")%string then
    index_value 2 tag empty xml_parse_ull (- LTFS_XML_WRONG_GEN) (fun v idx => idx <| generation := u32 v |>) h
  else if (tag =? "updatetime")%string then
    index_value 3 tag empty parse_time (- LTFS_XML_WRONG_UTIME) (fun v idx => idx <| mod_time := v |>) h
  else if (tag =? "location")%string then
    have <- check_required_tag 4 h.1;;
    assert_not_empty empty;;;
    pos <- _xml_parse_tapepos tag (selfptr idx) (- LTFS_XML_WRONG_LOC);;
    rmodify (fun idx => idx <| selfptr := pos |>);;;
    rret (have, h.2)
  else if (tag =? "allowpolicyupdate")%string then
    index_value 5 tag empty xml_parse_bool (- LTFS_XML_WRONG_PA) (fun v idx => idx <| criteria_allow_update := v |>) h
  else if (tag =? "directory")%string then
    have <- check_required_tag 6 h.1;;
    assert_not_empty empty;;;
    (if skip_dir then _ <- xml_skip_tag empty;; rret tt
     else r <- _xml_parse_dirtree fuel true;; rmodify (fun idx => idx <| root := r |>));;;
    rret (have, h.2)
  else if (tag =? "previousgenerationlocation")%string then
    have <- check_optional_tag 0 h.2;;
    assert_not_empty empty;;;
    pos <- _xml_parse_tapepos tag (backptr idx) (- LTFS_XML_WRONG_LOC_PREV);;
    rmodify (fun idx => idx <| backptr := pos |>);;;
    rret (h.1, have)
  else if (tag =? "dataplacementpolicy")%string then
    have <- check_optional_tag 1 h.2;;
    assert_not_empty empty;;;
    _xml_parse_policy;;;
    rret (h.1, have)
  else if (tag =? "comment")%string then
    have <- check_optional_tag 2 h.2;;
    v <- tag_value tag empty (fun v => if INDEX_MAX_COMMENT_LEN <? zlength v then None else Some v) (- LTFS_XML_TOO_LONG_COMMENT);;
    rmodify (fun idx => idx <| commit_message := Some v |>);;;
    rret (h.1, have)
  else if (tag =? "volumelockstate")%string then
    have <- check_optional_tag 3 h.2;;
    v <- tag_value tag empty Some 0;;
    rmodify (fun idx => idx <| vollock := parse_lock v (vollock idx) |>);;;
    rret (h.1, have)
  else if (IDX_VERSION_UID <=? version idx) && (tag =? "highestfileuid")%string then
    index_value 7 tag empty xml_parse_ull (- LTFS_XML_WRONG_NEXT) raise_uid h
  else if (tag =? "highestfileuid")%string then ignore_unrecognized_tag empty;;; rret h
  else
    t <- preserve_unrecognized_tag tag attrs empty;;
    rmodify (fun idx => idx <| idx_tags := idx_tags idx ++ [t] |>);;;
    rret h.

Definition _xml_parse_schema (fuel : nat) (utf8 skip_dir : bool) : rd ltfs_index unit :=
  v <- _xml_parser_init utf8 "ltfsindex" LTFS_INDEX_VERSION_MIN LTFS_INDEX_VERSION_MAX;;
  rmodify (fun idx => idx <| version := v |> <| commit_message := None |>);;;
  h <- parse_tags turns "ltfsindex" (schema_tag fuel skip_dir) (replicate 8 false, replicate 4 false);;
  have <- (if v <? IDX_VERSION_UID then check_required_tag 7 h.1 else rret h.1);;
  check_required_tags have;;;
  idx <- rget;;
  if bool_decide (symlink_conflict idx = []) then rret tt else rfail (- LTFS_SYMLINK_CONFLICT).
End reader.

(** The version at which the next index of a volume is written (src/libltfs/ltfs.c). *)
Definition ltfs_index_write_version (label_version index_version : Z) : Z :=
  let version := if LTFS_INDEX_VERSION <=? index_version then LTFS_INDEX_VERSION else LTFS_INDEX_VERSION_WRITE_MIN in
  let version := if version <? label_version then label_version else version in
  if LTFS_INDEX_VERSION <? version then LTFS_INDEX_VERSION else version.

(** [ltfs_index_alloc]: what an index is read into. *)
Definition ltfs_index_alloc : ltfs_index :=
  mk_index [] [] None 0 (mk_time 0 0) (mk_offset 0 0) (mk_offset 0 0) false
    (mk_criteria false 0 None None) (mk_criteria false 0 None None)
    (DTree ((new_dentry true) <| dname := Some (mk_name false (str "/")) |> <| platform_safe_name := Some (str "/") |>) [])
    0 1 0 None LTFS_INDEX_VERSION LTFS_INDEX_VERSION [] [] UNLOCKED_MAM.
