(* ===== verification/XmlHoare.v ===== *)
(** * What a parser that succeeds has established

    [ensures m P Q]: when [m] succeeds from a structure with [P], its value and
    the structure that it leaves satisfy [Q], whatever nodes it reads.  [quiet]
    parsers do not touch the structure.  The rules follow the combinators of
    Xml.v; [xstep] applies them. *)

From Stdlib Require Import String.
From S2P Require Import Prelude LtfsError TapeLayer Base64 KeyFormat Time Xml.

Local Open Scope rd_scope.

Definition ensures {S A} (m : rd S A) (P : S -> Prop) (Q : A -> S -> Prop) : Prop :=
  forall st a st', m st = XOk (a, st') -> P st.2 -> Q a st'.2.

Definition quiet {S A} (m : rd S A) : Prop := forall st a st', m st = XOk (a, st') -> st'.2 = st.2.

Section rules.
Context {S : Type}.
Implicit Types P : S -> Prop.

Lemma ensures_ret {A} (a : A) P (Q : A -> S -> Prop) : (forall s, P s -> Q a s) -> ensures (rret a) P Q.
Proof. intros H st b st' [= <- <-] HP. by apply H. Qed.

Lemma ensures_fail {A} code P (Q : A -> S -> Prop) : ensures (rfail code) P Q.
Proof. done. Qed.

Lemma ensures_crash {A} P (Q : A -> S -> Prop) : ensures rcrash P Q.
Proof. done. Qed.

Lemma ensures_bind {A B} (m : rd S A) (k : A -> rd S B) P (R : A -> S -> Prop) (Q : B -> S -> Prop) :
  ensures m P R -> (forall a, ensures (k a) (R a) Q) -> ensures (rbind m k) P Q.
Proof.
  intros Hm Hk st b st' E HP. unfold rbind in E. destruct (m st) as [[a st1]| |] eqn:E1; try done.
  eapply Hk; [exact E|]. by eapply Hm.
Qed.

Lemma ensures_get {B} (k : S -> rd S B) P (Q : B -> S -> Prop) :
  (forall s, P s -> ensures (k s) (fun s' => s' = s) Q) -> ensures (rbind rget k) P Q.
Proof. intros H st b st' E HP. cbn in E. by eapply (H st.2 HP). Qed.

Lemma ensures_modify {B} f (k : unit -> rd S B) P (Q : B -> S -> Prop) :
  ensures (k tt) (fun s => exists s0, P s0 /\ s = f s0) Q -> ensures (rbind (rmodify f) k) P Q.
Proof. intros H st b st' E HP. cbn in E. eapply H; [exact E|]. by exists st.2. Qed.

Lemma ensures_mod f P (Q : unit -> S -> Prop) : (forall s, P s -> Q tt (f s)) -> ensures (rmodify f) P Q.
Proof. intros H st b st' [= <- <-] HP. by apply H. Qed.

Lemma ensures_weaken {A} (m : rd S A) P P' (Q Q' : A -> S -> Prop) :
  ensures m P' Q' -> (forall s, P s -> P' s) -> (forall a s, Q' a s -> Q a s) -> ensures m P Q.
Proof. intros H HP HQ st a st' E H0. eauto. Qed.

(** The loop keeps an invariant that its body keeps. *)
Lemma ensures_tags {A} fuel c (handle : string -> attributes -> bool -> A -> rd S A) (J : A -> S -> Prop) :
  (forall t at_ e a, ensures (handle t at_ e a) (J a) J) -> forall a, ensures (parse_tags fuel c handle a) (J a) J.
Proof.
  intros H. induction fuel as [|fuel IH]; intros a; [done|]. intros [l s] b st' E HJ. cbn in E. unfold rbind, xml_next_tag in E.
  destruct (next_tag c l) as [[[[[t at_] e]|] l']| |]; try done.
  - destruct (handle t at_ e a (l', s)) as [[a1 st1]| |] eqn:E1; try done. eapply IH; [exact E|]. exact (H _ _ _ _ _ _ _ E1 HJ).
  - by injection E as <- <-.
Qed.

Lemma quiet_ensures {A} (m : rd S A) P : quiet m -> ensures m P (fun _ => P).
Proof. intros H st a st' E HP. by rewrite (H _ _ _ E). Qed.

(** A fact that follows from the state in front. *)
Lemma ensures_fact {A} (H : Prop) (m : rd S A) P Q : (forall s, P s -> H) -> (H -> ensures m P Q) -> ensures m P Q.
Proof. intros H1 H2 st a st' E HP. by eapply H2; eauto. Qed.

Lemma ensures_skip {A B} (m : rd S A) (k : A -> rd S B) P Q :
  quiet m -> (forall a, ensures (k a) P Q) -> ensures (rbind m k) P Q.
Proof. intros Hm Hk. eapply ensures_bind; [by apply quiet_ensures|]. exact Hk. Qed.

Lemma ensures_code {A B} (r : Z + A) (k : A -> rd S B) P Q :
  (forall a, r = inr a -> ensures (k a) P Q) -> ensures (rbind (rcode r) k) P Q.
Proof. intros H st b st' E HP. destruct r as [|a]; [done|]. exact (H a eq_refl _ _ _ E HP). Qed.

Lemma ensures_opt {A B} (o : option A) code (k : A -> rd S B) P Q :
  (forall a, o = Some a -> ensures (k a) P Q) -> ensures (rbind (ropt o code) k) P Q.
Proof. intros H st b st' E HP. destruct o as [a|]; [|done]. exact (H a eq_refl _ _ _ E HP). Qed.

(** A test that must hold for the parser to go on. *)
Lemma ensures_if {A} (b : bool) (m1 m2 : rd S A) P Q :
  (b = true -> ensures m1 P Q) -> (b = false -> ensures m2 P Q) -> ensures (if b then m1 else m2) P Q.
Proof. destruct b; auto. Qed.

Lemma ensures_all {B} have (k : unit -> rd S B) P Q :
  (forallb id have = true -> ensures (k tt) P Q) -> ensures (rbind (check_required_tags have) k) P Q.
Proof.
  intros H st b st' E HP. unfold rbind, check_required_tags in E. destruct (forallb id have); [|done]. exact (H eq_refl _ _ _ E HP).
Qed.

Lemma ensures_required {B} i have (k : list bool -> rd S B) P Q :
  ensures (k (<[i := true]> have)) P Q -> ensures (rbind (check_required_tag i have) k) P Q.
Proof.
  intros H st b st' E HP. unfold rbind, check_required_tag in E. destruct (default false (have !! i)); [done|]. exact (H _ _ _ E HP).
Qed.

(** ** Quiet parsers *)

Lemma quiet_ret {A} (a : A) : quiet (S := S) (rret a).
Proof. by intros st b st' [= <- <-]. Qed.

Lemma quiet_fail {A} code : quiet (S := S) (A := A) (rfail code).
Proof. done. Qed.

Lemma quiet_crash {A} : quiet (S := S) (A := A) rcrash.
Proof. done. Qed.

Lemma quiet_get : quiet (S := S) rget.
Proof. by intros st b st' [= <- <-]. Qed.

Lemma quiet_bind {A B} (m : rd S A) (k : A -> rd S B) : quiet m -> (forall a, quiet (k a)) -> quiet (rbind m k).
Proof.
  intros Hm Hk st b st' E. unfold rbind in E. destruct (m st) as [[a st1]| |] eqn:E1; try done.
  by rewrite (Hk _ _ _ _ E), (Hm _ _ _ E1).
Qed.

Lemma quiet_catch {A} (m : rd S A) code : quiet m -> quiet (rcatch m code).
Proof. intros H st b st' E. unfold rcatch in E. destruct (m st) as [[a st1]| |] eqn:E1; try done. injection E as <- <-. by eapply H. Qed.

Lemma quiet_if {A} (b : bool) (m1 m2 : rd S A) : quiet m1 -> quiet m2 -> quiet (if b then m1 else m2).
Proof. by destruct b. Qed.

Lemma quiet_scan : quiet (S := S) scan_text.
Proof. intros [l s] b st' E. destruct l as [|[]]; injection E as <- <-; done. Qed.

Lemma quiet_next c : quiet (S := S) (xml_next_tag c).
Proof. intros [l s] b st' E. unfold xml_next_tag in E. destruct (next_tag c l) as [[]| |]; [|done..]. by injection E as <- <-. Qed.

Lemma quiet_skip e : quiet (S := S) (xml_skip_tag e).
Proof. intros [l s] b st' E. unfold xml_skip_tag in E. destruct e; [|destruct (split_element 0 l) as [[]|]]; by injection E as <- <-. Qed.

Lemma quiet_save t at_ e : quiet (S := S) (xml_save_tag t at_ e).
Proof. by intros [l s] b st' [= <- <-]. Qed.

Lemma quiet_opt {A} (o : option A) code : quiet (S := S) (ropt o code).
Proof. destruct o; [apply quiet_ret|apply quiet_fail]. Qed.

Lemma quiet_code {A} (o : Z + A) : quiet (S := S) (rcode o).
Proof. destruct o; [apply quiet_fail|apply quiet_ret]. Qed.

Lemma quiet_tags {A} fuel c (handle : string -> attributes -> bool -> A -> rd S A) a :
  (forall t at_ e a, quiet (handle t at_ e a)) -> quiet (parse_tags fuel c handle a).
Proof.
  intros H. revert a. induction fuel as [|fuel IH]; intros a; [done|]. cbn. apply quiet_bind; [apply quiet_next|].
  intros [[[t at_] e]|]; [|apply quiet_ret]. apply quiet_bind; [apply H|]. intros a'. apply IH.
Qed.
End rules.

Create HintDb quiet.
#[export] Hint Resolve quiet_ret quiet_fail quiet_crash quiet_get quiet_bind quiet_catch quiet_if quiet_scan quiet_next quiet_skip
  quiet_save quiet_opt quiet_code quiet_tags : quiet.

(** Proves that a parser is quiet. *)
Ltac be_quiet :=
  repeat first
    [ progress intros
    | apply quiet_ret | apply quiet_fail | apply quiet_crash | apply quiet_get | apply quiet_scan | apply quiet_next
    | apply quiet_skip | apply quiet_save | apply quiet_opt | apply quiet_code
    | apply quiet_catch | apply quiet_tags | apply quiet_bind
    | match goal with |- quiet (if ?b then _ else _) => destruct b end
    | match goal with |- quiet (match ?x with _ => _ end) => destruct x end
    | solve [eauto 2 with quiet nocore] ].

Lemma quiet_required {S} i have : quiet (S := S) (check_required_tag i have).
Proof. unfold check_required_tag. be_quiet. Qed.

Lemma quiet_optional {S} i have : quiet (S := S) (check_optional_tag i have).
Proof. unfold check_optional_tag. be_quiet. Qed.

Lemma quiet_all {S} have : quiet (S := S) (check_required_tags have).
Proof. unfold check_required_tags. be_quiet. Qed.

Lemma quiet_not_empty {S} e : quiet (S := S) (assert_not_empty e).
Proof. unfold assert_not_empty. be_quiet. Qed.

Lemma quiet_end {S} t : quiet (S := S) (check_tag_end t).
Proof. unfold check_tag_end. be_quiet. Qed.

Lemma quiet_ignore {S} e : quiet (S := S) (ignore_unrecognized_tag e).
Proof. unfold ignore_unrecognized_tag. be_quiet. Qed.

Lemma quiet_zero_text {S} e : quiet (S := S) (get_tag_text_allow_zero_length e).
Proof. unfold get_tag_text_allow_zero_length, assert_not_empty, xml_scan_text. be_quiet. Qed.

#[export] Hint Resolve quiet_required quiet_optional quiet_all quiet_not_empty quiet_end quiet_ignore quiet_zero_text : quiet.

Lemma quiet_text {S} e : quiet (S := S) (get_tag_text e).
Proof. unfold get_tag_text. be_quiet. Qed.

Lemma quiet_preserve {S} t at_ e : quiet (S := S) (preserve_unrecognized_tag t at_ e).
Proof. unfold preserve_unrecognized_tag. be_quiet. Qed.

#[export] Hint Resolve quiet_text quiet_preserve : quiet.

Lemma quiet_value {S A} t e (parse : list Z -> option A) code : quiet (S := S) (tag_value t e parse code).
Proof. unfold tag_value. be_quiet. Qed.

#[export] Hint Resolve quiet_value : quiet.
