(* ===== verification/IndexXmlSafe.v ===== *)
(** * An index that is accepted is sound (src/libltfs/xml_reader_libltfs.c)

    Whatever nodes the XML reader delivers, from a damaged or a forged
    document: when the parser accepts the index, every entry of the tree has a
    valid name, no file has overlapping extents or extents behind its end,
    every uid is set and at most the highest one, and the root alone has uid 1. *)

From Stdlib Require Import String.
From Stdlib Require Import Sorting.Sorted.
From S2P Require Import Prelude LtfsError Extents TapeLayer Journal Criteria Base64 KeyFormat Time Xml XmlHoare IndexXml.

Local Open Scope rd_scope.

Section safe.
Context (pathname_normalize : path -> Z + path) (pathname_validate_file pathname_validate_target : path -> Z).
Context (blocksize : option Z) (turns : nat).

(** ** What is promised of an entry *)

(** The end of one extent is not behind the start of the next. *)
Definition in_order (l : list extent_info) : Prop := Sorted (fun x y => fileoffset_end x <= fileoffset y) l.

Definition named (d : dent) : Prop := exists n, dname d = Some n /\ 0 <= pathname_validate_file (name n).

Definition sound (dir : bool) (highest : Z) (d : dent) : Prop :=
  isdir d = dir /\ uid d <= highest /\ in_order (extentlist d) /\
  match target d with Some t => isslink d = true /\ 0 <= pathname_validate_target (name t) | None => isslink d = false end.

Inductive sound_tree (highest : Z) : dtree -> Prop :=
  | sound_file d : sound false highest d -> named d -> uid d <> 0 -> extents_too_long d = false ->
      sound_tree highest (DTree d [])
  | sound_dir d ch : sound true highest d -> named d -> uid d <> 0 -> uid d <> 1 -> Forall (sound_tree highest) ch ->
      sound_tree highest (DTree d ch).

Lemma sound_mono dir h h' d : sound dir h d -> h <= h' -> sound dir h' d.
Proof. intros (? & ? & ? & ?) ?. split; [done|]. split; [lia|]. done. Qed.

Fixpoint sound_tree_mono h h' t (H : sound_tree h t) (Hh : h <= h') : sound_tree h' t.
Proof.
  destruct H as [d Hs Hn Hu He|d ch Hs Hn Hu Hu1 Hch]; constructor; try done; try by eapply sound_mono.
  clear Hs Hn Hu Hu1. induction Hch as [|c ch Hc _ IH]; constructor; [by eapply sound_tree_mono|exact IH].
Qed.

(** The fields on which [sound] and [named] depend. *)
Definition core (d : dent) := (dname d, isdir d, uid d, extentlist d, target d, isslink d).

Lemma core_sound dir h d d' : core d' = core d -> sound dir h d -> sound dir h d'.
Proof. unfold core, sound. by intros [= _ -> -> -> -> ->]. Qed.

Lemma core_named d d' : core d' = core d -> named d -> named d'.
Proof. unfold core, named. by intros [= -> _ _ _ _ _]. Qed.

(** ** Names *)

Lemma parse_name_valid pe k v n : parse_name pathname_normalize pathname_validate_file pathname_validate_target pe k v = inr n ->
  0 <= (if k then pathname_validate_target else pathname_validate_file) (name n).
Proof.
  unfold parse_name, xml_parse_target, xml_parse_filename. destruct k.
  all: destruct (pathname_normalize _) as [?|m]; [done|]; cbn.
  - destruct (Z.ltb_spec (pathname_validate_target m) 0); [done|]. by intros [= <-].
  - destruct (Z.ltb_spec (pathname_validate_file m) 0); [done|]. by intros [= <-].
Qed.

Abbreviation name_value := (name_value pathname_normalize pathname_validate_file pathname_validate_target).

Lemma name_value_valid {S} tag at_ e k (P : S -> Prop) :
  ensures (name_value tag at_ e k) P
    (fun n s => P s /\ 0 <= (if k then pathname_validate_target else pathname_validate_file) (name n)).
Proof.
  unfold IndexXml.name_value. eapply ensures_bind with (R := fun r s => P s /\ forall n, r = inr n ->
    0 <= (if k then pathname_validate_target else pathname_validate_file) (name n)).
  - unfold _xml_parse_nametype. apply ensures_if; intros _; [by apply ensures_ret|]. apply ensures_skip; [apply quiet_scan|].
    intros r. apply ensures_ret. intros s Hs. split; [done|]. intros n. destruct r as [|[|c v]]; [done..|]. apply parse_name_valid.
  - intros r. apply ensures_code. intros n ->. apply ensures_skip; [apply quiet_end|]. intros _. apply ensures_ret.
    intros s [Hs Hn]. split; [done|]. by apply Hn.
Qed.

(** ** Attributes and extents *)

Abbreviation parse_xattrs := (_xml_parse_xattrs pathname_normalize pathname_validate_file pathname_validate_target turns).

Lemma quiet_nametype {S} at_ e k :
  quiet (S := S) (_xml_parse_nametype pathname_normalize pathname_validate_file pathname_validate_target at_ e k).
Proof. unfold _xml_parse_nametype. be_quiet. Qed.

Hint Resolve quiet_nametype : quiet.

Lemma xattrs_core {S} d (P : S -> Prop) : ensures (parse_xattrs d) P (fun d' s => P s /\ core d' = core d).
Proof.
  unfold _xml_parse_xattrs. eapply ensures_weaken; [apply ensures_tags with (J := fun d' s => P s /\ core d' = core d)| |].
  - intros t at_ e d1. unfold xattrs_tag. apply ensures_if; intros _.
    + apply ensures_skip; [apply quiet_not_empty|]. intros _. unfold _xml_parse_one_xattr. apply ensures_skip.
      { apply quiet_tags. intros. unfold xattr_tag, decode_value, xml_scan_text. be_quiet. }
      intros x. apply ensures_all. intros _. apply ensures_if; intros _; [|by apply ensures_ret].
      destruct (xs_key x); [|done]. do 2 (apply ensures_skip; [unfold is_flag; be_quiet|]; intros ?). by apply ensures_ret.
    + apply ensures_skip; [apply quiet_ignore|]. intros _. by apply ensures_ret.
  - done.
  - done.
Qed.

Lemma place_in_order xt rev : forall after l, in_order (reverse rev ++ after) ->
  match after with y :: _ => fileoffset_end xt <= fileoffset y | [] => True end ->
  place_extent xt rev after = Some l -> in_order l.
Proof.
  induction rev as [|x rev IH]; intros after l Hs Ha E; cbn [place_extent] in E.
  - injection E as <-. constructor; [done|]. destruct after; constructor. done.
  - destruct (Z.leb_spec (fileoffset_end x) (fileoffset xt)) as [Hx|Hx].
    + apply (inj Some) in E as <-. rewrite reverse_cons in *. rewrite <- app_assoc in *. cbn [app] in *.
      revert Hs. generalize (reverse rev). intros l0. unfold in_order. induction l0 as [|z l0 IH0]; cbn [app]; intros Hs.
      * inversion Hs as [|?? Hs' Hd]; subst. constructor; [|by constructor]. constructor; [done|]. destruct after; by constructor.
      * inversion Hs as [|?? Hs' Hd]; subst. constructor; [by apply IH0|]. destruct l0; [by inversion Hd; constructor|].
        by inversion Hd; constructor.
    + destruct (Z.ltb_spec (fileoffset x) (fileoffset_end xt)); [done|]. eapply IH; [| |exact E]; [|done].
      by rewrite reverse_cons, <- app_assoc in Hs.
Qed.

(** What parsing extents changes. *)
Definition extents_of (d d' : dent) : Prop :=
  in_order (extentlist d') /\
  (dname d', isdir d', uid d', target d', isslink d') = (dname d, isdir d, uid d, target d, isslink d).

Lemma add_extent_sound xt d d' d0 : add_parsed_extent blocksize xt d = Some d' -> extents_of d0 d -> extents_of d0 d'.
Proof.
  unfold add_parsed_extent. intros E [Ho Hc]. destruct (place_extent _ _ _) as [l|] eqn:El; [|done]. cbn [mbind option_bind] in E.
  assert (in_order l) by (eapply place_in_order; [| |exact El]; [by rewrite reverse_involutive, app_nil_r|done]).
  injection E as <-. by destruct blocksize.
Qed.

Lemma extents_safe {S} v d (P : S -> Prop) : in_order (extentlist d) ->
  ensures (_xml_parse_extents blocksize turns v d) P (fun d' s => P s /\ extents_of d d').
Proof.
  intros Ho. unfold _xml_parse_extents.
  eapply ensures_weaken; [apply ensures_tags with (J := fun d' s => P s /\ extents_of d d')| |].
  - intros t at_ e d1. unfold extents_tag. apply ensures_if; intros _.
    + apply ensures_skip; [apply quiet_not_empty|]. intros _. unfold _xml_parse_one_extent. apply ensures_skip.
      { apply quiet_tags. intros ? ? ? [? ?]. unfold extent_tag. be_quiet. }
      intros [have xt]. apply ensures_skip; [be_quiet|]. intros [have' xt']. apply ensures_all. intros _.
      intros st a st' E [HP Hd]. unfold ropt in E. destruct (add_parsed_extent _ _ _) as [d2|] eqn:Ea; [|done]. injection E as <- <-.
      split; [done|]. by eapply add_extent_sound.
    + apply ensures_skip; [apply quiet_ignore|]. intros _. by apply ensures_ret.
  - done.
  - done.
Qed.

(** ** Files *)

Definition uid_state (k : Z) (s : ltfs_index) : Prop := 1 <= uid_number s < 2 ^ 64 /\ k <= uid_number s.

(** The invariant of the loops over the tags of a file or a directory. *)
Definition file_inv (dir is_root : bool) (k : Z) (f : file_state) (s : ltfs_index) : Prop :=
  uid_state k s /\ sound dir (uid_number s) (obj f) /\ length (f_req f) = 9%nat /\ f_deleted f = false /\
  (f_req f !! 0%nat = Some true -> is_root = false -> named (obj f)).

(** What a step may do to the object. *)
Lemma file_inv_step dir rt k f s i d : file_inv dir rt k f s -> i <> 0%nat -> core d = core (obj f) ->
  file_inv dir rt k (f <| f_req := <[i := true]> (f_req f) |> <| obj := d |>) s.
Proof.
  intros (Hu & Hs & Hl & Hd & Hn) Hi Hc. split; [done|]. split; [by eapply core_sound|]. split; [by cbn; rewrite length_insert|].
  split; [done|]. cbn. rewrite list_lookup_insert_ne by done. intros H Hr. eapply core_named; [exact Hc|]. by apply Hn.
Qed.

Lemma file_inv_same dir rt k f s opt d : file_inv dir rt k f s -> core d = core (obj f) ->
  file_inv dir rt k (f <| f_opt := opt |> <| obj := d |>) s.
Proof.
  intros (Hu & Hs & Hl & Hd & Hn) Hc. split; [done|]. split; [by eapply core_sound|]. split; [done|].
  split; [done|]. cbn. intros H Hr. eapply core_named; [exact Hc|]. by apply Hn.
Qed.

Lemma required_spec {S A} i tag e (parse : list Z -> option A) code set f (P : S -> Prop) :
  ensures (required_value i tag e parse code set f) P
    (fun f' s => P s /\ exists t v, parse t = Some v /\ f' = f <| f_req := <[i := true]> (f_req f) |> <| obj := set v (obj f) |>).
Proof.
  unfold required_value. apply ensures_required. unfold tag_value.
  eapply ensures_bind with (R := fun v s => P s /\ exists t, parse t = Some v).
  - apply ensures_skip; [apply quiet_text|]. intros t. apply ensures_opt. intros v Hv. apply ensures_skip; [apply quiet_end|].
    intros _. apply ensures_ret. eauto.
  - intros v. apply ensures_ret. intros s (Hs & t & Ht). eauto.
Qed.

Lemma required_keeps {A} dir rt k i tag e (parse : list Z -> option A) code set f : i <> 0%nat ->
  (forall v d, core (set v d) = core d) ->
  ensures (required_value i tag e parse code set f) (file_inv dir rt k f) (file_inv dir rt k).
Proof.
  intros Hi Hc. eapply ensures_weaken; [apply required_spec|done|]. cbn. intros f' s (Hs & t & v & _ & ->).
  apply file_inv_step; auto.
Qed.

Lemma parse_ull_range t v : xml_parse_ull t = Some v -> 0 <= v < 2 ^ 64.
Proof.
  unfold xml_parse_ull, strtoull10. destruct (bool_decide (t = [])); [done|]. destruct (scan_int None t) as [[n rest]|].
  - destruct (bool_decide (rest = [])); [|done]. intros [= <-]. destruct (_ <? _); [lia|]. unfold u64. apply Z.mod_pos_bound. lia.
  - case_bool_decide; [|done]. intros [= <-]. lia.
Qed.

Lemma uid_tag_keeps dir rt k tag e f : ensures (uid_tag tag e f) (file_inv dir rt k f) (file_inv dir rt k).
Proof.
  unfold uid_tag. eapply ensures_bind; [apply required_spec|]. intros f'. apply ensures_modify. apply ensures_ret.
  intros s (s0 & (Hinv & t & v & Hv & ->) & ->). apply parse_ull_range in Hv. destruct Hinv as ((Hu & Hk) & (H1 & H2 & H3) & Hl & Hd & Hn).
  cbn [obj uid]. unfold raise_uid. change (uid (obj _)) with v.
  assert (Hs : uid_state k (if uid_number s0 <? v then s0 <| uid_number := v |> else s0) /\
    v <= uid_number (if uid_number s0 <? v then s0 <| uid_number := v |> else s0)).
  { destruct (Z.ltb_spec (uid_number s0) v); cbn; unfold uid_state; cbn; lia. }
  destruct Hs as [Hs Hle]. split; [done|]. split; [by split|]. split; [by cbn; rewrite length_insert|]. split; [done|].
  cbn. rewrite list_lookup_insert_ne by done. exact Hn.
Qed.

Abbreviation file_tag := (file_tag pathname_normalize pathname_validate_file pathname_validate_target blocksize turns false).

(** The name sets the first required tag, and it is valid. *)
Lemma name_keeps k dir rt tag at_ e f : ensures (have <- check_required_tag 0 (f_req f);; n <- name_value tag at_ e false;;
  rret (f <| f_req := have |> <| obj := (obj f) <| dname := Some n |> |>)) (file_inv dir rt k f) (file_inv dir rt k).
Proof.
  apply ensures_required. eapply ensures_bind; [apply name_value_valid|]. intros n. apply ensures_ret.
  intros s ((Hu & Hs & Hl & Hd & _) & Hn). split; [done|]. split; [done|]. split; [by cbn; rewrite length_insert|]. split; [done|].
  intros _ _. by exists n.
Qed.

Lemma xattrs_keep k dir rt opt e f : ensures (have <- check_optional_tag 0 opt;;
  d <- (if e : bool then rret (obj f) else parse_xattrs (obj f));; rret (f <| f_opt := have |> <| obj := d |>))
  (file_inv dir rt k f) (file_inv dir rt k).
Proof.
  apply ensures_skip; [apply quiet_optional|]. intros have.
  eapply ensures_bind with (R := fun d s => file_inv dir rt k f s /\ core d = core (obj f)).
  - apply ensures_if; intros _; [by apply ensures_ret|apply xattrs_core].
  - intros d. apply ensures_ret. intros s [Hs Hc]. by apply file_inv_same.
Qed.

Lemma extents_keep k opt v f : ensures (d <- _xml_parse_extents blocksize turns v (obj f);; rret (f <| f_opt := opt |> <| obj := d |>))
  (file_inv false false k f) (file_inv false false k).
Proof.
  intros st a st' E Hinv. pose proof Hinv as (_ & (_ & _ & Ho & _) & _). revert E Hinv.
  apply (ensures_bind _ _ _ (fun d s => file_inv false false k f s /\ extents_of (obj f) d)); [by apply extents_safe|].
  intros d. apply ensures_ret. intros s ((Hu & (H1 & H2 & H3 & H4) & Hl & Hd & Hn) & (Hx & [= E1 E2 E3 E4 E5])).
  split; [done|]. split; [cbn; unfold sound; rewrite E2, E3, E4, E5; done|]. split; [done|]. split; [done|].
  cbn. unfold named. rewrite E1. exact Hn.
Qed.

Lemma tags_keep k dir rt tag at_ e f : ensures (t <- preserve_unrecognized_tag tag at_ e;;
  rret (f <| obj := (obj f) <| preserved_tags := preserved_tags (obj f) ++ [t] |> |>)) (file_inv dir rt k f) (file_inv dir rt k).
Proof.
  apply ensures_skip; [apply quiet_preserve|]. intros t. apply ensures_ret. intros s (Hu & Hs & Hl & Hd & Hn). by split_and!.
Qed.

(** The other branches of the handlers. *)
Ltac branch := apply ensures_if; intros _.
Ltac ignored := apply ensures_skip; [apply quiet_ignore|]; intros _; by apply ensures_ret.

Lemma file_tag_keeps k t at_ e f : ensures (file_tag t at_ e f) (file_inv false false k f) (file_inv false false k).
Proof.
  unfold IndexXml.file_tag. apply ensures_skip; [apply quiet_get|]. intros idx. cbn [andb].
  branch; [apply name_keeps|].
  do 6 (branch; [by apply required_keeps|]).
  branch; [apply xattrs_keep|].
  branch. { apply ensures_skip; [apply quiet_optional|]. intros have. branch; [|apply extents_keep].
    apply ensures_ret. intros s (Hu & Hs & Hl & Hd & Hn). by split_and!. }
  branch. { apply ensures_skip; [apply quiet_optional|]. intros have. eapply ensures_bind; [apply name_value_valid|].
    intros n. apply ensures_ret. intros s ((Hu & (H1 & H2 & H3 & H4) & Hl & Hd & Hn) & Hv). by split_and!. }
  branch. { do 3 (apply ensures_skip; [be_quiet|]; intros ?). apply ensures_ret. intros s (Hu & Hs & Hl & Hd & Hn). by split_and!. }
  branch; [apply uid_tag_keeps|].
  branch; [ignored|].
  branch; [by apply required_keeps|].
  branch; [ignored|].
  apply tags_keep.
Qed.

(** A uid that is allocated is new, or zero when there is none left. *)
Lemma old_fields_keep dir rt k may f : ensures (old_fields f may) (file_inv dir rt k f)
  (fun f' s => (file_inv dir rt k f' s \/ may = true /\ uid (obj f') = 0) /\ (may = false -> uid (obj f') = uid (obj f))).
Proof.
  unfold old_fields. apply ensures_get. intros s0 Hinv.
  eapply ensures_bind with (R := fun f' s => (file_inv dir rt k f' s \/ may = true /\ uid (obj f') = 0) /\ (may = false -> uid (obj f') = uid (obj f))).
  - apply ensures_if; intros _; [|apply ensures_ret; intros s ->; by split; [left|]].
    apply ensures_required. apply ensures_if; intros Hmay.
    + unfold fs_allocate_uid. destruct Hinv as ((Hu & Hk) & (H1 & H2 & H3) & Hl & Hd & Hn).
      rewrite (proj2 (Z.eqb_neq (uid_number s0) 0)) by lia. apply ensures_modify. apply ensures_ret. intros s (s1 & -> & ->).
      split; [|congruence]. unfold raise_uid. cbn [uid_number]. change (uid_number (s0 <| uid_number := ?u |>)) with u.
      rewrite Z.ltb_irrefl. destruct (Z.eq_dec (uid_number s0) (2 ^ 64 - 1)) as [E|E].
      * right. split; [done|]. rewrite E. done.
      * left. rewrite (u64_small (uid_number s0 + 1)) by lia. split; [unfold uid_state; cbn; lia|]. split; [by split; [|split; [cbn; lia|]]|].
        split; [by cbn; rewrite length_insert|]. split; [done|]. cbn. rewrite list_lookup_insert_ne by done. exact Hn.
    + apply ensures_ret. intros s ->. split; [left|done].
      replace (f <| f_req := _ |>) with (f <| f_req := <[7%nat := true]> (f_req f) |> <| obj := obj f |>) by by destruct f.
      by apply file_inv_step.
  - intros f'. apply ensures_if; intros _; [|by apply ensures_ret]. apply ensures_required. apply ensures_ret.
    intros s [[H|H] Hm]; (split; [|exact Hm]); [left; by apply file_inv_step|by right].
Qed.

Lemma all_required (have : list bool) : forallb id have = true -> length have = 9%nat -> have !! 0%nat = Some true.
Proof. destruct have as [|[] have]; done. Qed.

Abbreviation parse_file := (_xml_parse_file pathname_normalize pathname_validate_file pathname_validate_target blocksize turns false).

Lemma file_safe k : ensures parse_file (uid_state k) (fun r s => uid_state k s /\ sound_tree (uid_number s) (DTree r.1 [])).
Proof.
  unfold _xml_parse_file. apply ensures_modify. eapply ensures_bind with (R := file_inv false false k).
  { eapply ensures_weaken; [apply ensures_tags, file_tag_keeps| |done]. intros s (s0 & Hs & ->). split; [done|].
    split; [|split; [done|split; [done|discriminate]]]. split; [done|]. split; [cbn; destruct Hs; lia|]. split; [constructor|done]. }
  intros f. apply (ensures_fact (f_deleted f = false)); [by intros s (_ & _ & _ & ? & _)|]. intros ->.
  eapply ensures_bind; [apply old_fields_keep|]. cbn. intros f'. apply ensures_all. intros Hall.
  apply ensures_if; intros Hlong; [done|]. apply ensures_if; intros Hu; [done|]. apply Z.eqb_neq in Hu.
  eapply ensures_bind with (R := fun _ s => uid_state k s /\ sound_tree (uid_number s) (DTree (obj f') [])).
  - eapply (ensures_weaken _ _ (fun s => uid_state k s /\ sound_tree (uid_number s) (DTree (obj f') [])) _ (fun _ s => uid_state k s /\ sound_tree (uid_number s) (DTree (obj f') []))); [|intros s [[(Hk & Hs & Hl & Hd & Hn)|[_ ?]] _]; [|done]|done].
    + apply ensures_if; intros _; [by apply ensures_mod|by apply ensures_ret].
    + split; [done|]. apply sound_file; [done|apply Hn; [by apply all_required|done]|done|done].
  - intros _. by apply ensures_ret.
Qed.

(** ** Directories *)

Definition dir_inv (rt : bool) (k : Z) (a : file_state * list dtree) (s : ltfs_index) : Prop :=
  file_inv true rt k a.1 s /\ Forall (sound_tree (uid_number s)) a.2.

Lemma Forall_mono h h' l : Forall (sound_tree h) l -> h <= h' -> Forall (sound_tree h') l.
Proof. intros H Hh. eapply Forall_impl; [exact H|]. intros t Ht. by eapply sound_tree_mono. Qed.

(** A step on the fields of the directory leaves the entries alone. *)
Lemma keep_dir rt k f ch (m : rd ltfs_index file_state) : (forall k, ensures m (file_inv true rt k f) (file_inv true rt k)) ->
  ensures (f <- m;; rret (f, ch)) (dir_inv rt k (f, ch)) (dir_inv rt k).
Proof.
  intros Hm st [f' ch'] st' E [[[Hu Hk] Hrest] Hch]. unfold rbind in E. destruct (m st) as [[f1 st1]| |] eqn:E1; try done.
  injection E as <- <- <-. destruct (Hm (uid_number st.2) _ _ _ E1) as [[Hu1 Hk1] Hrest1]; [by split; [split; [done|lia]|]|].
  split; [split; [split; [done|lia]|done]|]. cbn. by eapply Forall_mono.
Qed.

Lemma safe_entry_sound h t : sound_tree h t -> sound_tree h (safe_entry t).
Proof. by destruct 1; constructor. Qed.

Lemma pass_sound h dup l : forall ch b, Forall (sound_tree h) l -> Forall (sound_tree h) ch ->
  Forall (sound_tree h) (safe_names_pass dup l ch b).1.1 /\ Forall (sound_tree h) (safe_names_pass dup l ch b).1.2.
Proof.
  induction l as [|t l IH]; intros ch b Hl Hch; [done|]. apply Forall_cons in Hl as [Ht Hl]. cbn [safe_names_pass].
  destruct (_ && _).
  - destruct (IH ch b Hl Hch) as [H1 H2]. destruct (safe_names_pass dup l ch b) as [[rest ch'] b']. by split; [constructor|].
  - apply IH; [done|]. apply Forall_app. split; [done|]. constructor; [by apply safe_entry_sound|constructor].
Qed.

Lemma placed_sound h l ch b : Forall (sound_tree h) l -> Forall (sound_tree h) ch ->
  Forall (sound_tree h) (fs_update_platform_safe_names l ch b).1.
Proof.
  intros Hl Hch. unfold fs_update_platform_safe_names. destruct (pass_sound h false l ch b Hl Hch) as [H1 H2].
  destruct (safe_names_pass false l ch b) as [[rest ch1] b1]. cbn in H1, H2. destruct (pass_sound h true rest ch1 b1 H1 H2) as [_ H3].
  by destruct (safe_names_pass true rest ch1 b1) as [[rest2 ch2] b2].
Qed.

(** One more entry. *)
Lemma entry_keeps {A} k l (g : A -> dtree) (m : rd ltfs_index A) :
  (forall k, ensures m (uid_state k) (fun t s => uid_state k s /\ sound_tree (uid_number s) (g t))) ->
  ensures (t <- m;; rret (l ++ [g t])) (fun s => uid_state k s /\ Forall (sound_tree (uid_number s)) l)
    (fun l s => uid_state k s /\ Forall (sound_tree (uid_number s)) l).
Proof.
  intros Hm st l' st' E [[Hu Hk] Hl]. unfold rbind in E. destruct (m st) as [[t st1]| |] eqn:E1; try done. injection E as <- <-.
  destruct (Hm (uid_number st.2) _ _ _ E1) as [[Hu1 Hk1] Ht]; [by split; [|lia]|]. split; [split; [done|lia]|].
  apply Forall_app. split; [by eapply Forall_mono|]. by constructor.
Qed.

Abbreviation parse_contents :=
  (_xml_parse_dir_contents pathname_normalize pathname_validate_file pathname_validate_target blocksize turns).
Abbreviation parse_dirtree := (_xml_parse_dirtree pathname_normalize pathname_validate_file pathname_validate_target blocksize turns).

Definition dir_safe (pd : rd ltfs_index dtree) : Prop :=
  forall k, ensures pd (uid_state k) (fun t s => uid_state k s /\ sound_tree (uid_number s) t).

Lemma contents_safe pd k d ch : dir_safe pd -> forall st t st', parse_contents pd (DTree d ch) st = XOk (t, st') ->
  uid_state k st.2 -> Forall (sound_tree (uid_number st.2)) ch ->
  uid_state k st'.2 /\ uid_number st.2 <= uid_number st'.2 /\ core (node t) = core d /\
  Forall (sound_tree (uid_number st'.2)) (child_list t).
Proof.
  intros Hpd st t st' E Hk Hch. unfold _xml_parse_dir_contents, rbind in E.
  destruct (parse_tags turns "contents" _ [] st) as [[l st1]| |] eqn:E1; try done.
  assert (H1 : uid_state (uid_number st.2) st1.2 /\ Forall (sound_tree (uid_number st1.2)) l).
  { revert E1. intros E1. refine (ensures_tags _ _ _ (fun l s => uid_state (uid_number st.2) s /\ Forall (sound_tree (uid_number s)) l)
      _ _ _ _ _ E1 _); [|split; [split; [apply Hk|lia]|constructor]].
    intros tag at_ e a. unfold contents_tag. apply ensures_if; intros _.
    - apply ensures_skip; [apply quiet_not_empty|]. intros _. apply (entry_keeps _ _ (fun r : dent * bool => DTree r.1 [])).
      intros k'. apply file_safe.
    - apply ensures_if; intros _; [|ignored]. apply ensures_skip; [apply quiet_not_empty|]. intros _.
      by apply (entry_keeps _ _ (fun t : dtree => t)). }
  destruct H1 as [[Hu1 Hk1] Hl]. cbn in E. pose proof (placed_sound (uid_number st1.2) l ch (valid_blocks st1.2) Hl) as Hp.
  destruct (fs_update_platform_safe_names l ch (valid_blocks st1.2)) as [ch' b']. injection E as <- <-. cbn.
  split; [split; [done|destruct Hk; cbn; lia]|]. split; [done|]. split; [done|]. apply Hp. by eapply Forall_mono.
Qed.

Abbreviation dir_tag := (dir_tag pathname_normalize pathname_validate_file pathname_validate_target blocksize turns).

Lemma contents_keep pd rt k f ch : dir_safe pd -> ensures (have <- check_required_tag 6 (f_req f);;
  t <- parse_contents pd (DTree (obj f) ch);; rret (f <| f_req := have |> <| obj := node t |>, child_list t))
  (dir_inv rt k (f, ch)) (dir_inv rt k).
Proof.
  intros Hpd. apply ensures_required. intros st a st' E [(Hk & Hs & Hrest) Hch]. unfold rbind in E.
  destruct (parse_contents pd (DTree (obj f) ch) st) as [[t st1]| |] eqn:E1; try done. injection E as <- <-.
  destruct (contents_safe pd k (obj f) ch Hpd _ _ _ E1 Hk Hch) as (Hk1 & Hle & Hc & Hch1). split; [|done].
  apply file_inv_step; [|done|done]. split; [done|]. split; [by eapply sound_mono|done].
Qed.

Lemma dir_tag_keeps pd rt k t at_ e a : dir_safe pd -> ensures (dir_tag rt pd t at_ e a) (dir_inv rt k a) (dir_inv rt k).
Proof.
  intros Hpd. destruct a as [f ch]. unfold IndexXml.dir_tag. apply ensures_skip; [apply quiet_get|]. intros idx.
  branch.
  { destruct rt.
    - apply ensures_required. apply ensures_skip; [unfold _xml_parse_nametype_allow_zero_length; be_quiet|]. intros n.
      apply ensures_modify. apply ensures_ret. intros s (s0 & [(Hk & Hs & Hl & Hd & Hn) Hch] & ->). split; [|done].
      split; [done|]. split; [done|]. split; [by cbn; rewrite length_insert|]. by split.
    - intros st b st' E HJ. refine (keep_dir false k f ch _ (fun k' => name_keeps k' true false t at_ e f) st b st' _ HJ).
      rewrite <- E. unfold rbind, check_required_tag. destruct (default false _); [done|].
      unfold rret. destruct (name_value t at_ e false st) as [[n st1]| |]; done. }
  do 5 (branch; [apply keep_dir; intros; by apply required_keeps|]).
  branch.
  { intros st b st' E HJ. destruct e.
    - revert E HJ. apply ensures_required. apply ensures_ret. intros s [Hf Hch]. split; [|done].
      replace (f <| f_req := _ |>) with (f <| f_req := <[6%nat := true]> (f_req f) |> <| obj := obj f |>) by by destruct f.
      by apply file_inv_step.
    - by eapply contents_keep. }
  branch.
  { intros st b st' E HJ. refine (keep_dir rt k f ch _ (fun k' => xattrs_keep k' true rt (f_opt f) e f) st b st' _ HJ).
    rewrite <- E. unfold rbind, check_optional_tag. destruct (default false _); [done|]. unfold rret.
    destruct e; [done|]. destruct (parse_xattrs (obj f) st) as [[n st1]| |]; done. }
  branch; [apply keep_dir; intros; apply uid_tag_keeps|].
  branch; [ignored|].
  branch; [apply keep_dir; intros; by apply required_keeps|].
  branch; [ignored|].
  intros st b st' E HJ. refine (keep_dir rt k f ch _ (fun k' => tags_keep k' true rt t at_ e f) st b st' _ HJ).
  rewrite <- E. unfold rbind. destruct (preserve_unrecognized_tag t at_ e st) as [[n st1]| |]; done.
Qed.

(** The root: its uid is 1, and its entries are sound. *)
Definition sound_root (h : Z) (t : dtree) : Prop :=
  sound true h (node t) /\ uid (node t) = 1 /\ Forall (sound_tree h) (child_list t).

Lemma dir_end_safe rt k f ch : ensures (dir_end rt f ch) (dir_inv rt k (f, ch))
  (fun t s => uid_state k s /\ if rt : bool then sound_root (uid_number s) t else sound_tree (uid_number s) t).
Proof.
  unfold dir_end. intros st t st' E [Hf Hch]. unfold rbind in E.
  destruct (old_fields f (negb rt) st) as [[f' st1]| |] eqn:E1; try done.
  destruct (old_fields_keep true rt (uid_number st.2) (negb rt) f _ _ _ E1) as [Hf' _].
  { destruct Hf as ((Hu & Hk) & Hrest). split; [split; [done|lia]|done]. }
  unfold check_required_tags in E. destruct (forallb id (f_req f')) eqn:Hall; [|done]. cbn in E.
  destruct (_ || _ || _) eqn:Hb in E; [done|]. injection E as <- <-. destruct Hf as ((Hu & Hk) & _).
  apply orb_false_iff in Hb as [Hb H0]. apply orb_false_iff in Hb as [Hb1 Hb2]. apply Z.eqb_neq in H0.
  destruct Hf' as [((Hu1 & Hk1) & Hs & Hl & Hd & Hn)|[_ ?]]; [|done]. cbn in Hch. split; [split; [done|lia]|].
  assert (Hch1 : Forall (sound_tree (uid_number st1.2)) ch) by by eapply Forall_mono. destruct rt; cbn in Hb1, Hb2.
  - split; [done|]. split; [|done]. apply negb_false_iff, Z.eqb_eq in Hb2. done.
  - apply Z.eqb_neq in Hb1. apply sound_dir; try done. apply Hn; [by apply all_required|done].
Qed.

Lemma dirtree_safe fuel : dir_safe (parse_dirtree fuel false).
Proof.
  induction fuel as [|fuel IH]; intros k; [done|]. cbn [_xml_parse_dirtree]. apply ensures_skip; [apply quiet_get|]. intros idx.
  eapply ensures_bind; [|intros [f ch]; apply (dir_end_safe false k)].
  eapply ensures_weaken; [apply ensures_tags; intros; by apply (dir_tag_keeps (parse_dirtree fuel false) false k)| |done].
  intros s Hs. split; [|constructor]. split; [done|]. split; [|split; [done|split; [done|discriminate]]].
  split; [done|]. split; [cbn; destruct Hs; lia|]. split; [constructor|done].
Qed.

Lemma root_safe fuel : ensures (parse_dirtree fuel true)
  (fun s => uid_state 1 s /\ sound_root (uid_number s) (root s)) (fun t s => uid_state 1 s /\ sound_root (uid_number s) t).
Proof.
  destruct fuel as [|fuel]; [done|]. cbn [_xml_parse_dirtree]. apply ensures_get. intros s0 (Hk & Hs & Hu & Hch).
  eapply ensures_bind; [|intros [f ch]; apply (dir_end_safe true 1)].
  eapply ensures_weaken; [apply ensures_tags; intros; apply (dir_tag_keeps (parse_dirtree fuel false) true 1), dirtree_safe| |done].
  intros s ->. split; [|done]. split; [done|]. split; [done|]. by split_and!.
Qed.

(** ** The document *)

(** What the rest of the document leaves alone. *)
Definition frame (s : ltfs_index) := (uid_number s, root s).

Lemma policy_frame x : ensures (_xml_parse_policy pathname_normalize pathname_validate_file pathname_validate_target turns)
  (fun s => frame s = x) (fun _ s => frame s = x).
Proof.
  unfold _xml_parse_policy. eapply ensures_bind; [|intros; apply quiet_ensures, quiet_all].
  apply ensures_tags with (J := fun _ s => frame s = x). intros t at_ e have. unfold policy_tag. branch; [|ignored].
  apply ensures_required. apply ensures_skip; [apply quiet_not_empty|]. intros _.
  eapply ensures_bind with (R := fun _ s => frame s = x); [|intros _; by apply ensures_ret]. unfold _xml_parse_ip_criteria. apply ensures_modify.
  eapply ensures_bind with (R := fun _ s => frame s = x).
  - eapply ensures_weaken; [apply ensures_tags with (J := fun _ s => frame s = x)|by intros s (s0 & <- & ->)|done].
    intros t' at' e' have'. unfold ip_criteria_tag. branch.
    { apply ensures_required. apply ensures_skip; [apply quiet_value|]. intros v. apply ensures_modify. apply ensures_ret.
      by intros s (s0 & <- & ->). }
    branch; [|ignored]. apply ensures_skip; [apply quiet_nametype|]. intros r. apply ensures_modify.
    apply ensures_skip; [apply quiet_end|]. intros _. apply ensures_ret. by intros s (s0 & <- & ->).
  - intros have'. apply ensures_modify. eapply (ensures_weaken _ _ (fun s => frame s = x)); [apply quiet_ensures, quiet_all| |done].
    intros s (s0 & <- & ->). unfold copy_criteria. by destruct (index_criteria_dup_rules _ _ _) as [? []].
Qed.

Definition index_inv (s : ltfs_index) : Prop := uid_state 1 s /\ sound_root (uid_number s) (root s).

Lemma frame_inv s s' : frame s' = frame s -> index_inv s -> index_inv s'.
Proof. unfold frame, index_inv, uid_state. by intros [= -> ->]. Qed.

Lemma index_value_keeps {A} i tag e (parse : list Z -> option A) code set h :
  (forall t x s, parse t = Some x -> index_inv s -> index_inv (set x s)) ->
  ensures (index_value i tag e parse code set h) (index_inv) (fun _ => index_inv).
Proof.
  intros Hset. unfold index_value, tag_value. apply ensures_required.
  eapply ensures_bind with (R := fun x s => index_inv s /\ exists t, parse t = Some x).
  - apply ensures_skip; [apply quiet_text|]. intros t. apply ensures_opt. intros x Hx. apply ensures_skip; [apply quiet_end|].
    intros _. apply ensures_ret. eauto.
  - intros x. apply ensures_modify. apply ensures_ret. intros s (s0 & (Hs & t & Ht) & ->). eauto.
Qed.

Lemma raise_uid_inv t u s : xml_parse_ull t = Some u -> index_inv s -> index_inv (raise_uid u s).
Proof.
  intros Hu%parse_ull_range ((Hk & H1) & Hs & Hr & Hch). unfold raise_uid. destruct (Z.ltb_spec (uid_number s) u); [|by split_and!].
  split; [unfold uid_state; cbn; lia|]. split; [eapply sound_mono; [exact Hs|cbn; lia]|]. split; [done|].
  eapply Forall_mono; [exact Hch|cbn; lia].
Qed.

Abbreviation schema_tag := (schema_tag pathname_normalize pathname_validate_file pathname_validate_target blocksize turns).

Lemma tapepos_quiet {S} tag pos code : quiet (S := S) (_xml_parse_tapepos turns tag pos code).
Proof. unfold _xml_parse_tapepos. apply quiet_catch, quiet_bind; [|be_quiet]. apply quiet_tags. intros ? ? ? [? ?]. unfold tapepos_tag. be_quiet. Qed.

(** A change of the state that the frame does not see. *)
Ltac framed := apply ensures_modify; apply ensures_ret; intros s (s0 & Hs & ->); by eapply frame_inv; [|exact Hs].

Lemma schema_tag_keeps fuel skip t at_ e h : ensures (schema_tag fuel skip t at_ e h) (index_inv) (fun _ => index_inv).
Proof.
  unfold IndexXml.schema_tag. apply ensures_skip; [apply quiet_get|]. intros idx.
  do 4 (branch; [apply index_value_keeps; intros ? ? s _ Hs; by eapply frame_inv; [|exact Hs]|]).
  branch. { apply ensures_required. do 2 (apply ensures_skip; [first [apply quiet_not_empty|apply tapepos_quiet]|]; intros ?). framed. }
  branch; [apply index_value_keeps; intros ? ? s _ Hs; by eapply frame_inv; [|exact Hs]|].
  branch.
  { apply ensures_required. apply ensures_skip; [apply quiet_not_empty|]. intros _.
    eapply ensures_bind with (R := fun _ => index_inv); [|intros _; by apply ensures_ret]. apply ensures_if; intros _; [apply quiet_ensures; be_quiet|].
    eapply ensures_bind; [apply root_safe|]. intros r. apply ensures_mod. by intros s [Hk Hr]. }
  branch. { apply ensures_skip; [apply quiet_optional|]. intros ?. do 2 (apply ensures_skip; [first [apply quiet_not_empty|apply tapepos_quiet]|]; intros ?). framed. }
  branch.
  { do 2 (apply ensures_skip; [be_quiet|]; intros ?). eapply ensures_bind with (R := fun _ => index_inv); [|intros _; by apply ensures_ret].
    intros st a1 st' E Hs. eapply frame_inv; [|exact Hs]. by apply (policy_frame (frame st.2) _ _ _ E). }
  do 2 (branch; [do 2 (apply ensures_skip; [be_quiet|]; intros ?); framed|]).
  branch; [apply index_value_keeps; intros; by eapply raise_uid_inv|].
  branch; [ignored|].
  apply ensures_skip; [apply quiet_preserve|]. intros ?. framed.
Qed.

(** C7: an index that is accepted is sound: whatever nodes the XML reader
    delivers, when the parser succeeds on a new index, every entry below the
    root has a name that passed the validation, every file has extents in
    order (each ends, modulo 2^64, where the next one starts or in front of it)
    whose last one does not end, modulo 2^64, behind its length, only symbolic links have a
    target and it is valid, no uid is zero or above the highest one, the root has uid 1
    and no other directory has it.  An accepted document is encoded in UTF-8, and
    no link of it was listed as a conflict.  A file may have uid 1
    ([file_uid_one_accepted]), and an extent that wraps around is not noticed
    ([wrapped_extent_accepted]). *)
Theorem accepted_index_is_sound fuel utf8 skip_dir nodes nodes' idx
    (H : _xml_parse_schema pathname_normalize pathname_validate_file pathname_validate_target blocksize turns fuel utf8 skip_dir
           (nodes, ltfs_index_alloc) = XOk (tt, (nodes', idx))) :
  sound_root (uid_number idx) (root idx) /\ 1 <= uid_number idx < 2 ^ 64 /\ utf8 = true /\ symlink_conflict idx = [].
Proof.
  assert (H1 : index_inv idx /\ symlink_conflict idx = []).
  { refine ((_ : ensures _ index_inv (fun _ s => index_inv s /\ symlink_conflict s = [])) _ _ _ H _).
    - unfold _xml_parse_schema. apply ensures_skip; [unfold _xml_parser_init; be_quiet|]. intros v. apply ensures_modify.
      eapply ensures_bind with (R := fun _ => index_inv).
      { eapply ensures_weaken; [apply ensures_tags, schema_tag_keeps| |done]. intros s (s0 & Hs & ->). by eapply frame_inv; [|exact Hs]. }
      intros h. apply ensures_skip; [be_quiet|]. intros have. apply ensures_all. intros _. apply ensures_get. intros s Hs.
      apply ensures_if; intros Hc; [|done]. apply bool_decide_eq_true in Hc. apply ensures_ret. by intros ? ->.
    - split; [by split|]. split; [|split; [done|constructor]]. split; [done|]. split; [done|]. split; [constructor|done]. }
  destruct H1 as [[[Hu _] Hr] Hc]. split; [done|]. split; [done|]. split; [|done].
  destruct utf8; [done|]. exfalso. unfold _xml_parse_schema, _xml_parser_init, rbind, xml_next_tag in H.
  destruct (next_tag "" nodes) as [[[[[tag at_] e]|] l]| |]; try done. by destruct (negb _).
Qed.
End safe.

(** The end of an extent is not checked for overflow: behind an extent that
    wraps around, one with a lower offset is accepted. *)
Example wrapped_extent_accepted :
  extentlist <$> add_parsed_extent None (mk_extent 7 97 0 1 10)
    ((new_dentry false) <| extentlist := [mk_extent 5 97 0 5 (2 ^ 64 - 2)] |>) =
  Some [mk_extent 5 97 0 5 (2 ^ 64 - 2); mk_extent 7 97 0 1 10].
Proof. reflexivity. Qed.
