(* ===== verification/IndexXmlProps.v ===== *)
(** * An index that was written is read back (xml_writer_libltfs.c, xml_reader_libltfs.c)

    The index of a volume in use satisfies [good_index]: names are in normal
    form, extents in order, times in range, counters consistent.  For such an
    index the reader, given the nodes of the document that the writer wrote,
    rebuilds every field.  The parts follow the grammar: names, extended
    attributes, extents, files, directories, the document. *)

From Stdlib Require Import String.
From S2P Require Import Prelude LtfsError Extents TapeLayer Journal Criteria Base64 KeyFormat Time TimeProps Xml XmlProps IndexXml.

Local Open Scope rd_scope.

Section round_trip.
Context (u8_next : list Z -> option nat).
Context (u8_ascii : forall c s k, c < 0x80 -> u8_next (c :: s) = Some k -> k = 1%nat).
Context (u8_positive : forall s k, u8_next s = Some k -> (0 < k)%nat).
Context (validate_xattr_value : list Z -> Z).
Context (write_base64 : list Z -> list Z).
(** RFC 4648, with white space. *)
Context (base64_text : forall v, Forall is_byte v -> exists text, write_base64 v = text ++ base64_padding v /\ Base64.skip_spaces text = base64_digits v).
Context (pathname_normalize : path -> Z + path) (pathname_validate_file pathname_validate_target : path -> Z).
Context (blocksize : option Z) (turns : nat).
Context (hash_sort : list dtree -> list dtree) (hash_sort_perm : forall l, hash_sort l ≡ₚ l).

Ltac sget := step ltac:(apply parses_get).

(** ** Names *)

Definition good_name (is_target : bool) (n : ltfs_name) : Prop :=
  name n <> [] /\
  (percent_encode n = true -> Forall name_byte (name n) /\ encode_entry_name u8_next (name n) <> None) /\
  pathname_normalize (name n) = inr (name n) /\
  0 <= (if is_target then pathname_validate_target else pathname_validate_file) (name n).

Abbreviation parse_name := (parse_name pathname_normalize pathname_validate_file pathname_validate_target).
Abbreviation name_value := (name_value pathname_normalize pathname_validate_file pathname_validate_target).
Abbreviation parse_nametype := (_xml_parse_nametype pathname_normalize pathname_validate_file pathname_validate_target).

Lemma parse_good k n pe v : good_name k n -> percent_encode n = pe ->
  (if pe then decode_entry_name v else v) = name n -> parse_name pe k v = inr n.
Proof.
  intros (_ & _ & Hn & Hv) Hp Hd. unfold IndexXml.parse_name. rewrite Hd. unfold xml_parse_target, xml_parse_filename.
  rewrite Hn. destruct k; rewrite (proj2 (Z.ltb_ge _ 0)) by done; destruct n; cbn in *; by subst.
Qed.

(** The element of a name: start tag, text, end tag. *)
Lemma name_written tag k n ts : good_name k n -> _xml_write_nametype u8_next tag n = Some ts ->
  exists at_ v, ts = (true, XStart tag at_ false) :: text_rest tag v /\ v <> [] /\
    parse_name (is_percent_encoded at_) k v = inr n.
Proof.
  intros Hg. pose proof Hg as (Hne & Hb & _). unfold _xml_write_nametype.
  destruct (percent_encode n) eqn:Hp.
  - destruct (encode_entry_name u8_next (name n)) as [e|] eqn:He; [|done]. intros [= <-].
    exists [("percentencoded"%string, str "true")], e. split; [done|]. split; [by eapply encode_not_nil|].
    apply parse_good; [done..|]. cbn. eapply decode_encode_name; eauto. by apply Hb.
  - intros [= <-]. exists [], (name n). split; [done|]. split; [done|]. by apply parse_good.
Qed.

Lemma parses_nametype {S} at_ k v n tag (s : S) l : v <> [] -> parse_name (is_percent_encoded at_) k v = inr n ->
  parses (parse_nametype at_ false k) s (text_rest tag v ++ l) (inr n) s ((false, XEnd tag) :: l).
Proof.
  intros Hv Hp. unfold _xml_parse_nametype, text_rest. rewrite bool_decide_false by done.
  intros ns H. apply reads_now in H as (ns' & -> & H). exists ns'. split; [|done]. unfold rbind. cbn.
  destruct v; [done|]. by rewrite Hp.
Qed.

Lemma parses_name {S} tag at_ k v n (s : S) l : v <> [] -> parse_name (is_percent_encoded at_) k v = inr n ->
  parses (name_value tag at_ false k) s (text_rest tag v ++ l) n s l.
Proof.
  intros Hv Hp. unfold IndexXml.name_value. step ltac:(by apply parses_nametype). step ltac:(apply parses_code).
  step ltac:(apply parses_check_end). apply parses_ret.
Qed.

(** ** Extents *)

Definition good_extent (e : extent_info) : Prop :=
  97 <= start_partition e <= 122 /\ in_u64 (start_block e) /\ in_u32 (byteoffset e) /\
  0 <= fileoffset e /\ 0 <= bytecount e /\ extent_end e < 2 ^ 64.

(** The extents are good, in order, disjoint, and end at [hi] at most. *)
Fixpoint ordered (lo : Z) (l : list extent_info) (hi : Z) : Prop :=
  match l with
  | [] => lo <= hi
  | e :: l' => lo <= fileoffset e /\ good_extent e /\ ordered (extent_end e) l' hi
  end.

Lemma print_u_parses {S} tag code n (s : S) l : in_u64 n ->
  parses (tag_value tag false xml_parse_ull code) s (text_rest tag (print_u n) ++ l) n s l.
Proof. intros H. destruct (print_u_spec n H). by apply parses_value. Qed.

Definition extent_body (e : extent_info) : list token :=
  write_element "fileoffset" (print_u (fileoffset e)) ++
  write_element "partition" [start_partition e] ++
  write_element "startblock" (print_u (start_block e)) ++
  write_element "byteoffset" (print_u (byteoffset e)) ++
  write_element "bytecount" (print_u (bytecount e)).

Lemma extent_tags {S} (v : Z) e (s : S) : IDX_VERSION_SPARSE <= v -> good_extent e ->
  steps (extent_tag v) (replicate 5 false, mk_extent 0 0 0 0 0) s
    (extent_body e) (replicate 5 true, e) s.
Proof.
  intros Hv (Hp & Hb & Ho & Hf & Hc & He). unfold extent_end in He.
  pose proof (proj2 (Z.leb_le _ _) Hv) as Ev.
  assert (in_u64 (byteoffset e)) by (unfold in_u64, in_u32 in *; lia).
  eapply steps_cons.
  { intros rest. unfold extent_tag. rewrite Ev. pick. step ltac:(by apply parses_required).
    step ltac:(apply print_u_parses; unfold in_u64; lia). apply parses_ret. }
  eapply steps_cons.
  { intros rest. unfold extent_tag. pick. step ltac:(by apply parses_required).
    step ltac:(apply parses_value with (a := start_partition e)).
    { done. } { cbn. unfold in_range. by case_bool; [|lia]. } apply parses_ret. }
  eapply steps_cons.
  { intros rest. unfold extent_tag. pick. step ltac:(by apply parses_required).
    step ltac:(by apply print_u_parses). apply parses_ret. }
  eapply steps_cons.
  { intros rest. unfold extent_tag. pick. step ltac:(by apply parses_required).
    step ltac:(by apply print_u_parses). apply parses_ret. }
  apply steps_one.
  intros rest. unfold extent_tag. pick. step ltac:(by apply parses_required).
  step ltac:(apply print_u_parses; unfold in_u64; lia). cbn.
  rewrite u32_small by done. destruct e. apply parses_ret.
Qed.

Lemma ordered_app lo l k hi : ordered lo (l ++ k) hi -> exists m, ordered lo l m /\ ordered m k hi.
Proof.
  revert lo. induction l as [|e l IH]; intros lo H; [by exists lo; split; [cbn; lia|]|].
  destruct H as (? & ? & H). destruct (IH _ H) as (m & ? & ?). by exists m.
Qed.

Lemma ordered_last lo l x hi : ordered lo (l ++ [x]) hi -> good_extent x /\ extent_end x <= hi.
Proof. intros (m & _ & _ & H & H')%ordered_app. by split. Qed.

Lemma ordered_total lo l hi : ordered lo l hi -> 0 <= total_bytes l <= hi - lo.
Proof.
  revert lo. induction l as [|e l IH]; intros lo H; [cbn in *; change (total_bytes []) with 0; lia|]. destruct H as (H1 & Hg & H).
  apply IH in H. change (total_bytes (e :: l)) with (bytecount e + total_bytes l). unfold extent_end in H.
  destruct Hg as (_ & _ & _ & _ & ? & _). lia.
Qed.

Lemma good_end e : good_extent e -> fileoffset_end e = extent_end e.
Proof. intros (_ & _ & _ & ? & ? & ?). unfold fileoffset_end, extent_end in *. apply u64_small. lia. Qed.

Definition used_by (l : list extent_info) : Z :=
  match blocksize with Some bs => fs_get_used_blocks bs l | None => 0 end.

Definition with_extents (d : dent) (l : list extent_info) : dent :=
  d <| extentlist := l |> <| realsize := total_bytes l |> <| used_blocks := used_by l |>.

Lemma used_by_app l e :
  used_by (l ++ [e]) = match blocksize with Some bs => used_by l ⊞ extent_blocks bs e | None => 0 end.
Proof.
  unfold used_by. destruct blocksize as [bs|]; [|done]. unfold fs_get_used_blocks. rewrite foldl_app. cbn [foldl].
  unfold extent_blocks. destruct (_ =? 0); [by rewrite Z.add_0_r|]. unfold u64. rewrite Zplus_mod_idemp_l. f_equal. lia.
Qed.

Lemma add_extent_in_order d l e k hi : ordered 0 (l ++ e :: k) hi -> hi < 2 ^ 64 ->
  add_parsed_extent blocksize e (with_extents d l) = Some (with_extents d (l ++ [e])).
Proof.
  intros H Hh. pose proof (ordered_total _ _ _ H) as Ht. apply ordered_app in H as (m & Hl & He & Hg & Hk).
  pose proof (ordered_total _ _ _ Hk) as Htk. rewrite total_bytes_app in Ht.
  change (total_bytes (e :: k)) with (bytecount e + total_bytes k) in Ht.
  pose proof (ordered_total _ _ _ Hl). unfold add_parsed_extent.
  assert (place_extent e (reverse (extentlist (with_extents d l))) [] = Some (l ++ [e])) as ->.
  { change (extentlist (with_extents d l)) with l. destruct l as [|x l _] using rev_ind; [done|].
    rewrite reverse_snoc. cbn [place_extent]. apply ordered_last in Hl as [Hx Hm]. rewrite good_end by done.
    rewrite (proj2 (Z.leb_le _ _)) by lia. by rewrite reverse_cons, reverse_involutive. }
  cbn. f_equal. unfold with_extents. rewrite total_bytes_app, used_by_app. cbn.
  change (total_bytes [e]) with (bytecount e + 0). rewrite Z.add_0_r, (u64_small (total_bytes l + bytecount e)) by (destruct Hg as (_ & _ & _ & _ & ? & _); lia).
  unfold used_by. by destruct blocksize.
Qed.

Lemma extents_read {S} v d (s : S) k hi : forall l, IDX_VERSION_SPARSE <= v ->
  ordered 0 (l ++ k) hi -> hi < 2 ^ 64 -> (length (concat (write_one_extent <$> k)) < turns)%nat ->
  steps (extents_tag blocksize turns v) (with_extents d l) s (concat (write_one_extent <$> k)) (with_extents d (l ++ k)) s.
Proof.
  induction k as [|e k IH]; intros l Hv H Hh Hf; [rewrite app_nil_r; constructor|].
  change (l ++ e :: k) with (l ++ [e] ++ k) in *. cbn [concat fmap list_fmap] in *. rewrite length_app in Hf. eapply steps_app.
  - pose proof (length_element "extent" [] (extent_body e)). apply steps_element; [done|]. intros rest.
    unfold extents_tag. pick. step ltac:(apply parses_ret). unfold _xml_parse_one_extent.
    step ltac:(eapply parses_tags; [apply extent_tags; [done|]|]).
    { by apply ordered_app in H as (m & _ & _ & ? & _). }
    { change (write_one_extent e) with (element "extent" [] (extent_body e)) in Hf. fold (extent_body e). lia. }
    cbn [fst snd]. rewrite (proj2 (Z.ltb_ge v _)) by done. step ltac:(apply parses_ret).
    step ltac:(by apply parses_all). erewrite add_extent_in_order by done. apply parses_opt.
  - rewrite (app_assoc l [e] k). apply IH; [done| |done|lia]. by rewrite <- app_assoc.
Qed.

(** ** Extended attributes *)

Definition immutable_key : string := "ltfs.vendor.Aurora.immutable".
Definition appendonly_key : string := "ltfs.vendor.Aurora.appendonly".

(** A value that is written as text has no zero byte; only the flags need a value. *)
Definition good_xattr (x : xattr_info) : Prop :=
  good_name true (xa_key x) /\
  match xa_value x with
  | None => text_is immutable_key (name (xa_key x)) = false /\ text_is appendonly_key (name (xa_key x)) = false
  | Some v =>
      0 <= validate_xattr_value v /\
      if 0 <? validate_xattr_value v then v <> [] /\ Forall is_byte v /\ zlength (write_base64 v) < 2 ^ 62
      else until_nul v = v
  end.

Definition sets_flag (key : string) (x : xattr_info) : bool :=
  text_is key (name (xa_key x)) && match xa_value x with Some v => text_is "1" (until_nul v) | None => false end.

Definition flag (key : string) (l : list xattr_info) : bool := existsb (sets_flag key) l.

Definition with_xattrs (d : dent) (l : list xattr_info) : dent :=
  d <| xattrlist := l |> <| is_immutable := flag immutable_key l |> <| is_appendonly := flag appendonly_key l |>.

Lemma decode_written v {S} (s : S) l : v <> [] -> Forall is_byte v -> zlength (write_base64 v) < 2 ^ 62 ->
  write_base64 v <> [] /\ parses (decode_value (write_base64 v)) s l v s l.
Proof.
  intros Hne Hb Hl. destruct (base64_text v Hb) as (text & E & Ht).
  assert (zlength text < 2 ^ 62).
  { rewrite E, zlength_app in Hl. pose proof (zlength_nonneg (base64_padding v)). lia. }
  assert (D : base64_decode true (write_base64 v) = Decoded (map Some v)) by (rewrite E; by apply decode_encoded).
  split; [by intros E'; rewrite E' in D|]. unfold decode_value. rewrite D. destruct v as [|x v]; [done|]. cbn [map].
  replace (default 0 <$> Some x :: map Some v) with (x :: v); [apply parses_ret|].
  cbn. f_equal. change (map Some v) with (Some <$> v). rewrite <- list_fmap_compose. symmetry. by apply list_fmap_id.
Qed.

(** The value of an attribute, behind the key. *)
Lemma value_read {S} x k ts (s : S) : good_xattr x -> xa_key x = k ->
  (match xa_value x with
   | None => Some (element "value" [] [])
   | Some v =>
       let ret := validate_xattr_value v in
       if ret <? 0 then None
       else if 0 <? ret then Some (text_element "value" [("type"%string, str "base64")] (write_base64 v))
       else Some (write_element "value" (until_nul v))
   end) = Some ts ->
  steps (xattr_tag pathname_normalize pathname_validate_file pathname_validate_target)
    (mk_xs [true; false] true (Some k) None) s ts (mk_xs [true; true] true (Some k) (xa_value x)) s.
Proof.
  intros [_ Hv] Hk E. destruct (xa_value x) as [v|].
  - cbn zeta in E. destruct Hv as [_ Hv]. destruct (_ <? 0); [done|]. destruct (0 <? _) eqn:E0; injection E as <-.
    + destruct Hv as (Hne & Hb & Hl). destruct (decode_written v s [] Hne Hb Hl) as [Hn _].
      apply steps_one. intros rest. fold (text_rest "value" (write_base64 v)). unfold text_rest. rewrite bool_decide_false by done.
      unfold xattr_tag. pick. step ltac:(by apply parses_required).
      change (get_attribute "type" [("type"%string, str "base64")]) with (Some (str "base64")).
      change (text_is "text" (str "base64")) with false. change (text_is "base64" (str "base64")) with true.
      cbn [negb andb alive]. step ltac:(apply parses_text). step ltac:(by apply decode_written).
      rewrite bool_decide_false by done. step ltac:(apply parses_check_end). apply parses_ret.
    + rewrite Hv. apply steps_one. intros rest. fold (text_rest "value" v). unfold text_rest.
      unfold xattr_tag. pick. step ltac:(by apply parses_required).
      change (get_attribute "type" []) with (@None (list Z)). cbn [negb andb alive].
      case_bool_decide.
      * subst v. step ltac:(apply parses_no_text). step ltac:(apply parses_ret). rewrite bool_decide_true by done.
        step ltac:(apply parses_ret). apply parses_ret.
      * step ltac:(apply parses_text). step ltac:(apply parses_ret). rewrite bool_decide_false by done.
        step ltac:(apply parses_check_end). apply parses_ret.
  - injection E as <-. apply steps_one. intros rest. unfold xattr_tag. pick. step ltac:(by apply parses_required).
    change (get_attribute "type" []) with (@None (list Z)). cbn. apply parses_ret.
Qed.

Abbreviation write_one_xattr := (write_one_xattr u8_next validate_xattr_value write_base64).
Abbreviation xattrs_tag := (xattrs_tag pathname_normalize pathname_validate_file pathname_validate_target turns).

Lemma flag_app key l x : flag key (l ++ [x]) = flag key l || sets_flag key x.
Proof. unfold flag. rewrite existsb_app. cbn. by rewrite orb_false_r. Qed.

Lemma is_flag_read {S} key x (s : S) l : (xa_value x = None -> text_is key (name (xa_key x)) = false) ->
  parses (is_flag key (xa_key x) (xa_value x)) s l (sets_flag key x) s l.
Proof.
  intros H. unfold is_flag, sets_flag. destruct (text_is key _); [|apply parses_ret].
  destruct (xa_value x); [apply parses_ret|]. by discriminate H.
Qed.

Lemma xattr_read {S} d l x ts (s : S) : good_xattr x -> write_one_xattr x = Some ts -> (length ts < turns)%nat ->
  steps xattrs_tag (with_xattrs d l) s ts (with_xattrs d (l ++ [x])) s.
Proof.
  intros Hg E Hf. pose proof Hg as [Hk Hv]. unfold IndexXml.write_one_xattr in E.
  destruct (_xml_write_nametype u8_next "key" (xa_key x)) as [tk|] eqn:Ek; [|done]. cbn [mbind option_bind] in E.
  destruct (match xa_value x with Some _ => _ | None => _ end) as [tv|] eqn:Ev; [|done]. cbn [mbind option_bind] in E.
  injection E as <-. destruct (name_written _ _ _ _ Hk Ek) as (at_ & v & -> & Hne & Hp).
  set (body := _ ++ tv) in *. pose proof (length_element "xattr" [] body) as Hlen.
  apply steps_element; [done|]. intros rest. unfold IndexXml.xattrs_tag. pick. step ltac:(apply parses_ret).
  unfold _xml_parse_one_xattr. step ltac:(eapply (parses_tags _ _ _ _ body); [|lia]).
  { subst body. eapply steps_app; [|by eapply value_read]. apply steps_one. intros rest'.
    unfold xattr_tag. pick. step ltac:(by apply parses_required). step ltac:(by apply parses_nametype).
    step ltac:(apply parses_check_end). apply parses_ret. }
  step ltac:(by apply parses_all). cbn [alive xs_key xs_value].
  step ltac:(apply is_flag_read; intros Hn; rewrite Hn in Hv; apply Hv).
  step ltac:(apply is_flag_read; intros Hn; rewrite Hn in Hv; apply Hv).
  unfold with_xattrs. rewrite !flag_app. destruct x as [k w]. apply parses_ret.
Qed.

Lemma xattr_list_read {S} d k tss (s : S) : forall l, Forall good_xattr k -> mapM write_one_xattr k = Some tss ->
  (length (concat tss) < turns)%nat ->
  steps xattrs_tag (with_xattrs d l) s (concat tss) (with_xattrs d (l ++ k)) s.
Proof.
  intros l Hk E. apply mapM_Some_1 in E. revert l Hk. induction E as [|x ts k tss Ex _ IH]; intros l Hk Hf.
  { rewrite app_nil_r. constructor. }
  cbn [concat] in *. rewrite length_app in Hf. apply Forall_cons in Hk as [Hx Hk].
  eapply steps_app; [apply xattr_read; [done..|lia]|]. change (l ++ x :: k) with (l ++ [x] ++ k).
  rewrite app_assoc. apply IH; [done|lia].
Qed.

Abbreviation write_xattr := (_xml_write_xattr u8_next validate_xattr_value write_base64).

(** What is written for the attributes of a dentry: nothing, or one element. *)
Lemma xattrs_read (d0 d : dent) ts : Forall good_xattr (xattrlist d) -> write_xattr d = Some ts ->
  (length ts < turns)%nat -> with_xattrs d0 [] = d0 ->
  (ts = [] /\ with_xattrs d0 (xattrlist d) = d0) \/
  exists body, ts = (true, XStart "extendedattributes" [] false) :: body /\ forall S (s : S) rest,
    parses (_xml_parse_xattrs pathname_normalize pathname_validate_file pathname_validate_target turns d0) s
      (body ++ rest) (with_xattrs d0 (xattrlist d)) s rest.
Proof.
  intros Hg E Hf H0. unfold _xml_write_xattr in E. destruct (xattrlist d) as [|x l] eqn:El.
  { injection E as <-. left. split; done. }
  right. destruct (mapM write_one_xattr (x :: l)) as [tss|] eqn:Em; [|done]. injection E as <-.
  pose proof (length_element "extendedattributes" [] (concat tss)) as Hl.
  rewrite element_body.
  2:{ cbn in Em. destruct (write_one_xattr x) as [t|] eqn:Ex; [|done]. cbn in Em.
      destruct (mapM write_one_xattr l); [|done]. injection Em as <-. unfold IndexXml.write_one_xattr in Ex.
      destruct (_xml_write_nametype _ _ _); [|done]. cbn in Ex. destruct (match xa_value x with Some _ => _ | None => _ end); [|done].
      cbn in Ex. injection Ex as <-. cbn. unfold element. by destruct (_ ++ _). }
  eexists. split; [done|]. intros S s rest. rewrite <- app_assoc. unfold _xml_parse_xattrs.
  rewrite <- H0 at 1. eapply parses_tags; [|lia]. by apply (xattr_list_read _ _ _ _ []); [..|lia].
Qed.

(** ** Files *)

Definition times_ok (d : dent) : Prop :=
  time_ok (creation_time d) /\ time_ok (change_time d) /\ time_ok (modify_time d) /\ time_ok (access_time d) /\
  time_ok (backup_time d).

(** A preserved tag is an element that the parser does not know. *)
Definition good_tag (known : list string) (t : list xnode) : Prop :=
  is_element t /\ match t with XStart tag _ _ :: _ => existsb (String.eqb tag) known = false | _ => False end.

Definition file_tags : list string :=
  ["name"; "length"; "readonly"; "modifytime"; "creationtime"; "accesstime"; "changetime"; "extendedattributes";
   "extentinfo"; "symlink"; "openforwrite"; "fileuid"; "backuptime"; "deleted"]%string.

(** What holds of files and directories; [highest] is the highest uid of the index. *)
Definition good_meta (highest : Z) (known : list string) (d : dent) : Prop :=
  times_ok d /\ 1 <= uid d <= highest /\ Forall good_xattr (xattrlist d) /\
  is_immutable d = flag immutable_key (xattrlist d) /\ is_appendonly d = flag appendonly_key (xattrlist d) /\
  Forall (good_tag known) (preserved_tags d) /\ realsize d = total_bytes (extentlist d) /\
  used_blocks d = used_by (extentlist d).

(** The name of an entry of a directory. *)
Definition good_entry_name (d : dent) : Prop :=
  exists n, dname d = Some n /\ good_name false n /\ platform_safe_name d = Some (name n).

Definition good_file (highest : Z) (d : dent) : Prop :=
  good_entry_name d /\ good_meta highest file_tags d /\ isdir d = false /\ link_count d = 1 /\ in_u64 (size d) /\
  if isslink d then extentlist d = [] /\ exists t, target d = Some t /\ good_name true t
  else target d = None /\ ordered 0 (extentlist d) (size d).

(** A dentry as the parser leaves it: clean, not yet in its directory. *)
Definition parsed (d : dent) : dent := d <| platform_safe_name := None |> <| dirty := false |>.

(** The index while the tree is read. *)
Definition ready (highest : Z) (idx : ltfs_index) : Prop :=
  IDX_VERSION_UID <= version idx /\ uid_number idx = highest /\ highest < 2 ^ 64.

Lemma ready_version highest idx : ready highest idx ->
  (IDX_VERSION_UID <=? version idx) = true /\ (IDX_VERSION_BACKUPTIME <=? version idx) = true.
Proof. intros (H & _). split; by apply Z.leb_le. Qed.

Lemma required_read {S A} i tag (parse : list Z -> option A) code set f t v (s : S) rest :
  f_req f !! i = Some false -> t <> [] -> parse t = Some v ->
  parses (required_value i tag false parse code set f) s (text_rest tag t ++ rest)
    (f <| f_req := <[i := true]> (f_req f) |> <| obj := set v (obj f) |>) s rest.
Proof.
  intros Hi Ht Hp. unfold required_value. step ltac:(by apply parses_required). step ltac:(by apply parses_value).
  apply parses_ret.
Qed.

Lemma uid_read tag f u highest s rest : f_req f !! 7%nat = Some false -> ready highest s -> 1 <= u <= highest ->
  parses (uid_tag tag false f) s (text_rest tag (print_u u) ++ rest)
    (f <| f_req := <[7%nat := true]> (f_req f) |> <| obj := (obj f) <| uid := u |> |>) s rest.
Proof.
  intros Hi (_ & Hs & Hh) Hu. destruct (print_u_spec u ltac:(lia)). unfold uid_tag.
  step ltac:(by apply required_read). step ltac:(apply parses_modify). cbn [obj uid].
  replace (raise_uid _ s) with s; [apply parses_ret|]. unfold raise_uid. cbn. by rewrite (proj2 (Z.ltb_ge _ _)) by lia.
Qed.

Abbreviation file_tag := (file_tag pathname_normalize pathname_validate_file pathname_validate_target blocksize turns false).

Definition no_flags (req opt : bool) (d : dent) : file_state :=
  mk_file_state (replicate 9 req) (replicate 4 opt) d false false false.

(** The tags from the name to the uid. *)
Definition file_head (d : dent) (nm : list token) : list token :=
  nm ++ write_element "length" (print_u (size d)) ++ write_element "readonly" (print_bool (readonly d)) ++
  _xml_write_dentry_times d ++ write_element "fileuid" (print_u (uid d)).

Definition head_of (d : dent) : dent :=
  mk_dent (dname d) None false false None (readonly d) (uid d) 1 (size d) 0 0 (creation_time d) (change_time d)
    (modify_time d) (access_time d) (backup_time d) [] [] false false false [].

Ltac value := apply required_read; [done|apply time_text_spec; done..].

Ltac file_step := unfold IndexXml.file_tag; sget; pick.

Lemma file_head_read highest d nm s : good_file highest d -> ready highest s ->
  write_name u8_next "name" (dname d) = Some nm ->
  steps file_tag (no_flags false false (new_dentry false)) s (file_head d nm) (no_flags true false (head_of d)) s.
Proof.
  intros ((n & Hn & Hg & _) & (Ht & Hu & _) & _ & _ & Hs & _) Hr E. unfold file_head, _xml_write_dentry_times.
  destruct Ht as (T1 & T2 & T3 & T4 & T5). destruct (print_u_spec _ Hs). destruct (print_bool_spec (readonly d)).
  destruct (ready_version _ _ Hr) as [Hv Hb]. rewrite Hn in E. cbn [write_name] in E.
  destruct (name_written _ _ _ _ Hg E) as (at_ & v & -> & Hne & Hp). rewrite <- !app_assoc.
  child ltac:(file_step; step ltac:(by apply parses_required); step ltac:(by apply parses_name); apply parses_ret).
  child ltac:(file_step; by apply required_read).
  child ltac:(file_step; by apply required_read).
  child ltac:(file_step; value).
  child ltac:(file_step; value).
  child ltac:(file_step; value).
  child ltac:(file_step; value).
  child ltac:(file_step; rewrite Hv, Hb; pick; value).
  apply steps_one. intros rest. unfold IndexXml.file_tag. sget. rewrite Hv. pick.
  replace (no_flags true false (head_of d)) with
    ((fun f => f <| f_req := <[7%nat := true]> (f_req f) |> <| obj := (obj f) <| uid := uid d |> |>)
       (mk_file_state (<[7%nat := false]> (replicate 9 true)) (replicate 4 false) ((head_of d) <| uid := 1 |>) false false false)).
  2:{ done. }
  unfold head_of. rewrite Hn. by eapply uid_read.
Qed.

(** Preserved tags, for a handler that keeps what it does not know. *)
Section tags.
Context {A : Type} (handle : string -> attributes -> bool -> A -> rd ltfs_index A) (known : list string).
Context (keep : list (list xnode) -> A -> A).
Context (keep_nil : forall a, keep [] a = a) (keep_app : forall t ts a, keep ts (keep [t] a) = keep (t :: ts) a).
Context (s : ltfs_index).
Context (unknown : forall tag at_ e a l l' t, existsb (String.eqb tag) known = false ->
  parses (preserve_unrecognized_tag tag at_ e) s l t s l' -> parses (handle tag at_ e a) s l (keep [t] a) s l').

Lemma tags_read ts a : Forall (good_tag known) ts -> steps handle a s (concat (write_raw <$> ts)) (keep ts a) s.
Proof.
  intros H. revert a. induction H as [|t ts [He Hk] _ IH]; intros a; [rewrite keep_nil; constructor|].
  cbn [fmap list_fmap concat]. rewrite <- keep_app. eapply steps_app; [|apply IH].
  destruct t as [|[tag at_ e| | |] i]; try done. cbn. apply steps_one. intros rest. apply unknown; [done|].
  by apply parses_preserve.
Qed.
End tags.

(** No tag of the list is this one. *)
Ltac none H := cbn [existsb] in H; repeat (apply orb_false_iff in H as [?E H]; rewrite E; clear E); cbn [andb]; rewrite ?andb_false_r; clear H.

Definition keep_tags (ts : list (list xnode)) (f : file_state) : file_state :=
  f <| obj := (obj f) <| preserved_tags := preserved_tags (obj f) ++ ts |> |>.

Lemma keep_tags_nil f : keep_tags [] f = f.
Proof. destruct f as [r o [] ? ? ?]. unfold keep_tags. cbn. by rewrite app_nil_r. Qed.

Lemma keep_tags_app t ts f : keep_tags ts (keep_tags [t] f) = keep_tags (t :: ts) f.
Proof. unfold keep_tags. cbn. by rewrite <- app_assoc. Qed.

Lemma file_tags_read ts f s : Forall (good_tag file_tags) ts ->
  steps file_tag f s (concat (write_raw <$> ts)) (keep_tags ts f) s.
Proof.
  apply tags_read; [apply keep_tags_nil|apply keep_tags_app|]. intros tag at_ e a l l' t Hk Hp.
  unfold IndexXml.file_tag. sget. none Hk. step ltac:(exact Hp). apply parses_ret.
Qed.

(** The extents or the target. *)
Definition with_data (d0 d : dent) : dent :=
  (with_extents d0 (extentlist d)) <| target := target d |> <| isslink := isslink d |>.

Lemma file_data_read highest d data d0 opt s : good_file highest d -> ready highest s ->
  with_extents d0 [] = d0 -> target d0 = None -> isslink d0 = false ->
  (if isslink d then write_name u8_next "symlink" (target d) else Some (write_extents (extentlist d))) = Some data ->
  (length data < turns)%nat ->
  exists opt', steps file_tag (mk_file_state (replicate 9 true) [opt; false; false; false] d0 false false false) s data
    (mk_file_state (replicate 9 true) opt' (with_data d0 d) (isslink d) false false) s.
Proof.
  intros (_ & _ & _ & _ & Hs & Hd) (Hv & _) H0 Ht0 Hl0 E Hf. unfold with_data. destruct (isslink d).
  - destruct Hd as (-> & t & Ht & Hg). rewrite Ht in *. cbn [write_name] in E. rewrite H0.
    destruct (name_written _ _ _ _ Hg E) as (at_ & v & -> & Hne & Hp). eexists. apply steps_one. intros rest.
    unfold IndexXml.file_tag. sget. pick. step ltac:(by apply parses_optional). step ltac:(by apply parses_name).
    apply parses_ret.
  - destruct Hd as (-> & Ho). injection E as <-. unfold write_extents in *. destruct (extentlist d) as [|x l].
    { eexists. rewrite H0. replace (d0 <| target := None |> <| isslink := false |>) with d0; [constructor|].
      destruct d0; cbn in *; by subst. }
    pose proof (length_element "extentinfo" [] (concat (write_one_extent <$> x :: l))). set (l0 := x :: l) in *.
    eexists. apply steps_element; [done|]. intros rest. unfold IndexXml.file_tag. sget. pick.
    step ltac:(by apply parses_optional). unfold _xml_parse_extents.
    step ltac:(eapply parses_tags; [|lia]).
    { pose proof (extents_read (version s) d0 s l0 (size d) []) as Hx. rewrite H0 in Hx.
      apply Hx; [exact Hv|exact Ho|apply Hs|lia]. }
    replace (with_extents d0 ([] ++ l0)) with ((with_extents d0 l0) <| target := None |> <| isslink := false |>);
      [apply parses_ret|]. destruct d0; cbn in *; by subst.
Qed.

Lemma file_xattrs_read d d0 xa s : Forall good_xattr (xattrlist d) -> write_xattr d = Some xa ->
  (length xa < turns)%nat -> with_xattrs d0 [] = d0 ->
  exists opt, steps file_tag (no_flags true false d0) s xa
    (mk_file_state (replicate 9 true) [opt; false; false; false] (with_xattrs d0 (xattrlist d)) false false false) s.
Proof.
  intros Hg E Hf H0. destruct (xattrs_read d0 d xa Hg E Hf H0) as [[-> ->]|(body & -> & Hb)].
  { exists false. constructor. }
  exists true. apply steps_one. intros rest. unfold IndexXml.file_tag. sget. pick.
  step ltac:(by apply parses_optional). step ltac:(apply Hb). apply parses_ret.
Qed.

(** The fields put together. *)
Lemma file_rebuilt highest d : good_file highest d ->
  (with_data (with_xattrs (head_of d) (xattrlist d)) d) <| preserved_tags := preserved_tags d |> = parsed d.
Proof.
  intros (_ & (_ & _ & _ & Hi & Ha & _ & Hr & Hu) & Hd & Hl & _). unfold parsed, with_data, with_xattrs, with_extents, head_of. cbn.
  rewrite <- Hi, <- Ha, <- Hr, <- Hu, <- Hl, <- Hd at 1. done.
Qed.

Lemma good_file_extents highest d : good_file highest d -> extents_too_long (parsed d) = false.
Proof.
  intros (_ & _ & _ & _ & Hs & Hd). unfold extents_too_long. cbn. destruct (last (extentlist d)) as [x|] eqn:E; [|done].
  apply last_Some in E as [l E]. rewrite E in Hd. destruct (isslink d); [destruct Hd as [Hd _]; by destruct l|].
  destruct Hd as [_ [Hx He]%ordered_last]. rewrite good_end by done. apply Z.ltb_ge. lia.
Qed.

Lemma no_extents d : extentlist d = [] -> realsize d = 0 -> used_blocks d = 0 -> with_extents d [] = d.
Proof.
  intros ? ? ?. unfold with_extents. replace (used_by []) with 0 by (unfold used_by; by destruct blocksize).
  destruct d; cbn in *; by subst.
Qed.

Lemma old_fields_now highest f b s l : ready highest s -> parses (old_fields f b) s l f s l.
Proof.
  intros (Hv & _). unfold old_fields. sget. rewrite (proj2 (Z.ltb_ge _ IDX_VERSION_UID)), (proj2 (Z.ltb_ge _ IDX_VERSION_BACKUPTIME)) by exact Hv. step ltac:(apply parses_ret). apply parses_ret.
Qed.

Lemma Some_pair {A B} (a c : A) (b d : B) : Some (a, b) = Some (c, d) -> a = c /\ b = d.
Proof. by intros [= -> ->]. Qed.

Lemma app_five {A} (a b c d e x : list A) : a ++ b ++ c ++ d ++ e ++ x = (a ++ b ++ c ++ d ++ e) ++ x.
Proof. by rewrite <- !app_assoc. Qed.

Abbreviation write_file := (_xml_write_file u8_next validate_xattr_value write_base64).
Abbreviation parse_file := (_xml_parse_file pathname_normalize pathname_validate_file pathname_validate_target blocksize turns false).

Lemma file_read highest d ch ts t' s : good_file highest d -> ready highest s ->
  write_file (DTree d ch) = Some (ts, t') -> (length ts < turns)%nat ->
  t' = DTree (d <| dirty := false |>) ch /\
  exists body, ts = (true, XStart "file" [] false) :: body /\
  forall rest, parses parse_file s (body ++ rest) (parsed d, false) (s <| file_count := file_count s ⊞ 1 |>) rest.
Proof.
  intros Hg Hr E Hf. pose proof Hg as (_ & (_ & Hu & Hx & _ & _ & Ht & _) & Hd & _). unfold _xml_write_file in E. rewrite Hd in E.
  destruct (write_name u8_next "name" (dname d)) as [nm|] eqn:En; [|done]. cbn [mbind option_bind] in E.
  destruct (write_xattr d) as [xa|] eqn:Ex; [|done]. cbn [mbind option_bind] in E.
  destruct (if isslink d then _ else _) as [data|] eqn:Ed; [|done]. cbn [mbind option_bind] in E.
  apply Some_pair in E as [<- <-].
  split; [done|]. set (raw := concat _) in *. set (body := nm ++ _) in *.
  assert (Eb : body = file_head d nm ++ xa ++ data ++ raw).
  { apply app_five. }
  pose proof (length_element "file" [] body) as Hlen. clearbody body. subst body. rewrite !length_app in Hlen.
  set (s1 := s <| file_count := _ |>). assert (Hr1 : ready highest s1) by exact Hr.
  pose proof (file_head_read _ _ _ s1 Hg Hr1 En) as H1.
  destruct (file_xattrs_read d (head_of d) xa s1 Hx Ex ltac:(lia) eq_refl) as [opt H2].
  destruct (file_data_read highest d data (with_xattrs (head_of d) (xattrlist d)) opt s1) as [opt' H3];
    [done|done|apply no_extents; done|done|done|done|lia|].
  pose proof (file_tags_read (preserved_tags d) (mk_file_state (replicate 9 true) opt'
    (with_data (with_xattrs (head_of d) (xattrlist d)) d) (isslink d) false false) s1 Ht) as H4.
  assert (Ek : keep_tags (preserved_tags d) (mk_file_state (replicate 9 true) opt'
    (with_data (with_xattrs (head_of d) (xattrlist d)) d) (isslink d) false false) =
    mk_file_state (replicate 9 true) opt' (parsed d) (isslink d) false false)
    by (rewrite <- (file_rebuilt highest d Hg); done).
  rewrite Ek in H4. clear Ek.
  rewrite element_body.
  2:{ unfold file_head, write_element, text_element. by destruct nm. }
  eexists. split; [done|]. intros rest. rewrite <- app_assoc. unfold _xml_parse_file.
  step ltac:(apply parses_modify). fold s1.
  step ltac:(eapply parses_tags; [|rewrite !length_app; lia]).
  { eapply steps_app; [exact H1|]. eapply steps_app; [exact H2|]. eapply steps_app; [exact H3|exact H4]. }
  cbn [f_deleted]. step ltac:(by eapply old_fields_now). step ltac:(by apply parses_all). cbn [obj symlink_flag extent_flag].
  rewrite (good_file_extents highest d Hg). change (uid (parsed d)) with (uid d).
  rewrite (proj2 (Z.eqb_neq (uid d) 0)) by lia. rewrite andb_false_r. step ltac:(apply parses_ret). apply parses_ret.
Qed.

(** ** Directories *)

Definition dir_tags : list string :=
  ["name"; "readonly"; "modifytime"; "creationtime"; "accesstime"; "changetime"; "contents"; "extendedattributes";
   "fileuid"; "backuptime"]%string.

Definition good_dir (highest : Z) (d : dent) (ch : list dtree) : Prop :=
  good_meta highest dir_tags d /\ isdir d = true /\ isslink d = false /\ target d = None /\ size d = 0 /\
  extentlist d = [] /\ link_count d = 2 + count_dirs ch /\ in_u32 (link_count d) /\
  NoDup ((fun c => platform_safe_name (node c)) <$> ch).

Inductive good_entry (highest : Z) : dtree -> Prop :=
  | good_entry_file d : good_file highest d -> good_entry highest (DTree d [])
  | good_entry_dir d ch : good_dir highest d ch -> good_entry_name d -> uid d <> 1 ->
      Forall (good_entry highest) ch -> good_entry highest (DTree d ch).

(** Files, and blocks of the entries below a directory. *)
Fixpoint tree_files (t : dtree) : Z :=
  let 'DTree d ch := t in (if isdir d then 0 else 1) + zsum (tree_files <$> ch).

Fixpoint inner_blocks (t : dtree) : Z :=
  let 'DTree _ ch := t in zsum ((fun c => used_blocks (node c) + inner_blocks c) <$> ch).

Definition bump (files blocks : Z) (idx : ltfs_index) : ltfs_index :=
  idx <| file_count := file_count idx ⊞ files |> <| valid_blocks := valid_blocks idx ⊞ blocks |>.

Definition counted (idx : ltfs_index) : Prop := in_u64 (file_count idx) /\ in_u64 (valid_blocks idx).

Lemma bump_none idx : counted idx -> bump 0 0 idx = idx.
Proof. intros [H1 H2]. unfold bump. rewrite !Z.add_0_r, !u64_small by done. by destruct idx. Qed.

Lemma bump_bump a b c d idx : bump a b (bump c d idx) = bump (c + a) (d + b) idx.
Proof. unfold bump, u64. cbn. by rewrite !Zplus_mod_idemp_l, !Z.add_assoc. Qed.

Lemma bump_counted a b idx : counted (bump a b idx).
Proof. split; unfold in_u64, u64; cbn; apply Z.mod_pos_bound; lia. Qed.

Lemma bump_ready highest a b idx : ready highest idx -> ready highest (bump a b idx).
Proof. done. Qed.

(** A tree that is not yet in its directory. *)
Definition loose (t : dtree) : dtree := DTree ((node t) <| platform_safe_name := None |>) (child_list t).

Definition safely_named (t : dtree) : Prop := platform_safe_name (node t) = name <$> dname (node t).

Lemma safe_loose t : safely_named t -> safe_entry (loose t) = t.
Proof. destruct t as [d ch]. unfold safely_named. cbn. intros H. f_equal. unfold loose. cbn. rewrite <- H. by destruct d. Qed.

Lemma safe_names cs : forall ch b, Forall safely_named cs -> NoDup ((fun c => platform_safe_name (node c)) <$> ch ++ cs) ->
  safe_names_pass false (loose <$> cs) ch b = ([], ch ++ cs, foldl (fun b c => b ⊞ used_blocks (node c)) b cs).
Proof.
  induction cs as [|c cs IH]; intros ch b Hs Hn; [cbn; by rewrite app_nil_r|].
  apply Forall_cons in Hs as [Hc Hs]. cbn [fmap list_fmap safe_names_pass negb andb].
  change (dname (node (loose c))) with (dname (node c)). change (used_blocks (node (loose c))) with (used_blocks (node c)).
  assert (existsb (has_safe_name (name <$> dname (node c))) ch = false) as ->.
  { apply not_true_is_false. intros (x & Hx & Hb)%existsb_exists. unfold has_safe_name in Hb. apply bool_decide_eq_true in Hb.
    rewrite fmap_app in Hn. apply NoDup_app in Hn as (_ & Hn & _). apply (Hn (platform_safe_name (node x))).
    - apply list_elem_of_fmap. exists x. split; [done|]. by apply list_elem_of_In.
    - rewrite Hb, <- Hc. cbn. left. }
  rewrite safe_loose by done. rewrite IH; [|done|by rewrite <- app_assoc]. by rewrite <- app_assoc.
Qed.

Lemma blocks_sum cs b : in_u64 b ->
  foldl (fun b c => b ⊞ used_blocks (node c)) b cs = b ⊞ zsum ((fun c => used_blocks (node c)) <$> cs).
Proof.
  revert b. induction cs as [|c cs IH]; intros b Hb; [cbn; by rewrite Z.add_0_r, u64_small|].
  cbn [foldl fmap list_fmap]. rewrite IH by (unfold in_u64, u64; apply Z.mod_pos_bound; lia).
  rewrite zsum_cons. unfold u64. rewrite Zplus_mod_idemp_l. f_equal. lia.
Qed.

Abbreviation write_dirtree := (_xml_write_dirtree u8_next validate_xattr_value write_base64 hash_sort).
Abbreviation parse_dirtree :=
  (_xml_parse_dirtree pathname_normalize pathname_validate_file pathname_validate_target blocksize turns).
Abbreviation contents_tag :=
  (contents_tag pathname_normalize pathname_validate_file pathname_validate_target blocksize turns).

Definition write_entry (fuel : nat) (vn : option ltfs_name) (c : dtree) : option (list token * dtree) :=
  if isdir (node c) then write_dirtree fuel vn false c else write_file c.

Lemma dirtree_node fuel vn b c ts c' : write_dirtree fuel vn b c = Some (ts, c') -> node c' = (node c) <| dirty := false |>.
Proof.
  destruct fuel; [done|]. destruct c as [d ch]. cbn [_xml_write_dirtree]. intros E.
  destruct (write_name u8_next "name" _); [|done]. cbn [mbind option_bind] in E. destruct (write_xattr d); [|done]. cbn [mbind option_bind] in E.
  destruct (mapM _ (hash_sort ch)); [|done]. cbn [mbind option_bind] in E. by apply Some_pair in E as [_ <-].
Qed.

Lemma file_node c ts c' : write_file c = Some (ts, c') -> c' = DTree ((node c) <| dirty := false |>) (child_list c).
Proof.
  destruct c as [d ch]. unfold _xml_write_file. intros E. destruct (isdir d); [done|].
  destruct (write_name u8_next "name" _); [|done]. cbn [mbind option_bind] in E. destruct (write_xattr d); [|done]. cbn [mbind option_bind] in E.
  destruct (if isslink d then _ else _); [|done]. cbn [mbind option_bind] in E. by apply Some_pair in E as [_ <-].
Qed.

Lemma entry_node fuel vn c ts c' : write_entry fuel vn c = Some (ts, c') -> node c' = (node c) <| dirty := false |>.
Proof.
  unfold write_entry. destruct (isdir (node c)); [apply dirtree_node|]. by intros ->%file_node.
Qed.

Lemma good_safely highest c : good_entry highest c -> safely_named c.
Proof.
  unfold safely_named. destruct 1 as [d ((n & Hn & _ & Hp) & _)|d ch _ (n & Hn & _ & Hp)]; cbn; by rewrite Hn, Hp.
Qed.

(** Subdirectories are read back, up to this depth. *)
Definition dir_reads (fuel : nat) (vn : option ltfs_name) : Prop :=
  forall highest t ts t' s, good_entry highest t -> isdir (node t) = true -> ready highest s -> counted s ->
  write_dirtree fuel vn false t = Some (ts, t') -> (length ts < turns)%nat ->
  exists body, ts = (true, XStart "directory" [] false) :: body /\
  forall rest, parses (parse_dirtree fuel false) s (body ++ rest) (loose t') (bump (tree_files t') (inner_blocks t') s) rest.

Lemma entry_read fuel vn highest c ts c' l s : dir_reads fuel vn -> good_entry highest c -> ready highest s -> counted s ->
  write_entry fuel vn c = Some (ts, c') -> (length ts < turns)%nat ->
  ts <> [] /\
  steps (contents_tag (parse_dirtree fuel false)) l s ts (l ++ [loose c']) (bump (tree_files c') (inner_blocks c') s).
Proof.
  intros IH Hg Hr Hc E Hf. unfold write_entry in E. destruct (isdir (node c)) eqn:Hd.
  - destruct (IH _ _ _ _ _ Hg Hd Hr Hc E Hf) as (body & -> & Hb). split; [done|]. apply steps_one. intros rest.
    unfold IndexXml.contents_tag. pick. step ltac:(apply parses_ret). step ltac:(apply Hb). apply parses_ret.
  - destruct Hg as [d Hg|d ch (_ & Hd' & _) _ _ _]; [|cbn in Hd; congruence].
    destruct (file_read _ _ _ _ _ _ Hg Hr E Hf) as (-> & body & -> & Hb). split; [done|]. apply steps_one. intros rest.
    unfold IndexXml.contents_tag. pick. step ltac:(apply parses_ret). step ltac:(apply Hb).
    replace (bump _ _ s) with (s <| file_count := file_count s ⊞ 1 |>); [apply parses_ret|].
    cbn in *. rewrite Hd. unfold bump. cbn. rewrite Z.add_0_r, (u64_small (valid_blocks s)) by apply Hc. by destruct s.
Qed.

Lemma entries_read fuel vn highest cs ws : dir_reads fuel vn -> mapM (write_entry fuel vn) cs = Some ws ->
  Forall (good_entry highest) cs -> forall l s, ready highest s -> counted s ->
  (length (concat (fst <$> ws)) < turns)%nat ->
  steps (contents_tag (parse_dirtree fuel false)) l s (concat (fst <$> ws)) (l ++ (loose <$> (snd <$> ws)))
    (bump (zsum (tree_files <$> (snd <$> ws))) (zsum (inner_blocks <$> (snd <$> ws))) s).
Proof.
  intros IH E%mapM_Some_1. induction E as [|c [ts c'] cs ws Ec _ IHl]; intros Hg l s Hr Hc Hf.
  { cbn. rewrite app_nil_r, bump_none by done. constructor. }
  apply Forall_cons in Hg as [Hgc Hg]. cbn [fmap list_fmap concat fst snd] in *. rewrite length_app in Hf.
  destruct (entry_read fuel vn highest c ts c' l s) as [_ H1]; [done..|lia|].
  eapply steps_app; [exact H1|]. rewrite !zsum_cons, <- bump_bump.
  assert (l ++ loose c' :: (loose <$> ws.*2) = (l ++ [loose c']) ++ (loose <$> ws.*2)) as -> by by rewrite <- app_assoc.
  apply IHl; [done|by apply bump_ready|apply bump_counted|lia].
Qed.

(** Writing changes no field of the entries but [dirty]. *)
Lemma entries_field {B} (g : dent -> B) fuel vn cs ws : (forall d, g (d <| dirty := false |>) = g d) ->
  mapM (write_entry fuel vn) cs = Some ws -> (fun c => g (node c)) <$> (snd <$> ws) = (fun c => g (node c)) <$> cs.
Proof.
  intros Hg E%mapM_Some_1. induction E as [|c [ts c'] cs ws Ec _ IH]; [done|]. cbn. f_equal; [|exact IH].
  by rewrite (entry_node _ _ _ _ _ Ec).
Qed.

Lemma entries_safe fuel vn highest cs ws : mapM (write_entry fuel vn) cs = Some ws -> Forall (good_entry highest) cs ->
  Forall safely_named (snd <$> ws).
Proof.
  intros E%mapM_Some_1. induction E as [|c [ts c'] cs ws Ec _ IH]; intros Hg; [constructor|].
  apply Forall_cons in Hg as [Hc Hg]. cbn. constructor; [|by apply IH]. apply good_safely in Hc.
  unfold safely_named in *. by rewrite (entry_node _ _ _ _ _ Ec).
Qed.

Lemma zsum_perm l k : l ≡ₚ k -> zsum l = zsum k.
Proof. induction 1; rewrite ?zsum_cons in *; lia. Qed.

Lemma inner_blocks_sum d cs :
  inner_blocks (DTree d cs) = zsum (inner_blocks <$> cs) + zsum ((fun c => used_blocks (node c)) <$> cs).
Proof.
  cbn. induction cs as [|c cs IH]; [done|]. cbn [fmap list_fmap]. rewrite !zsum_cons. rewrite IH. lia.
Qed.

Lemma count_dirs_perm l k : l ≡ₚ k -> count_dirs l = count_dirs k.
Proof. intros H. apply zsum_perm. by rewrite H. Qed.

Lemma count_dirs_loose l : count_dirs (loose <$> l) = count_dirs l.
Proof. unfold count_dirs. rewrite <- list_fmap_compose. done. Qed.

(** The entries go into the directory. *)
Lemma contents_placed fuel vn highest ch ws d0 s : mapM (write_entry fuel vn) (hash_sort ch) = Some ws ->
  Forall (good_entry highest) ch -> NoDup ((fun c => platform_safe_name (node c)) <$> ch) -> dir_reads fuel vn ->
  ready highest s -> counted s -> (length (concat (fst <$> ws)) < turns)%nat ->
  link_count d0 = 2 -> in_u32 (2 + count_dirs ch) -> forall rest,
  parses (_xml_parse_dir_contents pathname_normalize pathname_validate_file pathname_validate_target blocksize turns
            (parse_dirtree fuel false) (DTree d0 [])) s
    (concat (fst <$> ws) ++ (true, XEnd "contents") :: rest)
    (DTree (d0 <| link_count := 2 + count_dirs ch |>) (snd <$> ws))
    (bump (zsum (tree_files <$> (snd <$> ws))) (inner_blocks (DTree d0 (snd <$> ws))) s) rest.
Proof.
  intros E Hg Hn IH Hr Hc Hf Hl Hb rest. pose proof (hash_sort_perm ch) as P.
  assert (Hg' : Forall (good_entry highest) (hash_sort ch)) by by rewrite P.
  unfold _xml_parse_dir_contents. step ltac:(eapply parses_tags; [by eapply (entries_read fuel vn highest)|done]).
  sget. change ([] ++ ?x) with x. unfold fs_update_platform_safe_names. cbn [child_list node].
  rewrite (safe_names (snd <$> ws) []).
  2: by eapply entries_safe.
  2:{ change ([] ++ ?x) with x. rewrite (entries_field platform_safe_name fuel vn (hash_sort ch) ws) by done. by rewrite P. }
  cbn [safe_names_pass]. step ltac:(apply parses_modify).
  rewrite blocks_sum by apply bump_counted. rewrite count_dirs_loose.
  assert (count_dirs (snd <$> ws) = count_dirs ch) as ->.
  { rewrite <- (count_dirs_perm _ _ P). unfold count_dirs.
    by rewrite (entries_field (fun d => if isdir d then 1 else 0) fuel vn (hash_sort ch) ws). }
  rewrite Hl, u32_small by done. rewrite inner_blocks_sum.
  replace (bump _ (_ + _) s) with ((fun idx => idx <| valid_blocks := valid_blocks idx ⊞
    zsum ((fun c => used_blocks (node c)) <$> ws.*2) |>) (bump (zsum (tree_files <$> ws.*2)) (zsum (inner_blocks <$> ws.*2)) s)).
  { apply parses_ret. }
  unfold bump, u64. cbn. by rewrite Zplus_mod_idemp_l, Z.add_assoc.
Qed.

Abbreviation dir_tag := (dir_tag pathname_normalize pathname_validate_file pathname_validate_target blocksize turns).

Ltac dir_step := unfold IndexXml.dir_tag; cbn [fst snd]; sget; pick.
Ltac keeping tac := step tac; apply parses_ret.

Definition dir_state (req : list bool) (opt : bool) (d : dent) (ch : list dtree) : file_state * list dtree :=
  (mk_file_state req [opt] d false false false, ch).

Definition dir_head (d : dent) : list token :=
  write_element "readonly" (print_bool (readonly d)) ++ _xml_write_dentry_times d ++
  write_element "fileuid" (print_u (uid d)).

Definition dir_base (dn : option ltfs_name) (safe : option path) : dent :=
  (new_dentry true) <| dname := dn |> <| platform_safe_name := safe |>.

Definition dir_head_of (d : dent) (safe : option path) : dent :=
  mk_dent (dname d) safe true false None (readonly d) (uid d) 2 0 0 0 (creation_time d) (change_time d)
    (modify_time d) (access_time d) (backup_time d) [] [] false false false [].

Lemma dir_head_read b pd highest d safe ch s : good_meta highest dir_tags d -> ready highest s ->
  steps (dir_tag b pd) (dir_state (true :: replicate 8 false) false (dir_base (dname d) safe) ch) s (dir_head d)
    (dir_state (<[6%nat := false]> (replicate 9 true)) false (dir_head_of d safe) ch) s.
Proof.
  intros (Ht & Hu & _) Hr. unfold dir_head, _xml_write_dentry_times.
  destruct Ht as (T1 & T2 & T3 & T4 & T5). destruct (print_bool_spec (readonly d)).
  destruct (ready_version _ _ Hr) as [Hv Hb]. rewrite <- !app_assoc. unfold dir_state, dir_base.
  child ltac:(dir_step; keeping ltac:(by apply required_read)).
  child ltac:(dir_step; keeping ltac:(value)).
  child ltac:(dir_step; keeping ltac:(value)).
  child ltac:(dir_step; keeping ltac:(value)).
  child ltac:(dir_step; keeping ltac:(value)).
  child ltac:(dir_step; rewrite Hv, Hb; pick; keeping ltac:(value)).
  rewrite <- (app_nil_r (write_element _ _)). child ltac:(dir_step; rewrite Hv; pick; keeping ltac:(by eapply uid_read)).
  constructor.
Qed.

Lemma dir_xattrs_read b pd d d0 req xa ch s : Forall good_xattr (xattrlist d) -> write_xattr d = Some xa ->
  (length xa < turns)%nat -> with_xattrs d0 [] = d0 ->
  exists opt, steps (dir_tag b pd) (dir_state req false d0 ch) s xa (dir_state req opt (with_xattrs d0 (xattrlist d)) ch) s.
Proof.
  intros Hg E Hf H0. destruct (xattrs_read d0 d xa Hg E Hf H0) as [[-> ->]|(body & -> & Hb)].
  { exists false. constructor. }
  exists true. apply steps_one. intros rest. unfold IndexXml.dir_tag, dir_state. sget. pick.
  step ltac:(by apply parses_optional). step ltac:(apply Hb). apply parses_ret.
Qed.

Lemma dir_contents_read b fuel vn highest ch ws d0 req opt s : mapM (write_entry fuel vn) (hash_sort ch) = Some ws ->
  Forall (good_entry highest) ch -> NoDup ((fun c => platform_safe_name (node c)) <$> ch) -> dir_reads fuel vn ->
  ready highest s -> counted s -> (length (element "contents" [] (concat (fst <$> ws))) < turns)%nat ->
  link_count d0 = 2 -> in_u32 (2 + count_dirs ch) -> req !! 6%nat = Some false ->
  steps (dir_tag b (parse_dirtree fuel false)) (dir_state req opt d0 []) s (element "contents" [] (concat (fst <$> ws)))
    (dir_state (<[6%nat := true]> req) opt (d0 <| link_count := 2 + count_dirs ch |>) (snd <$> ws))
    (bump (zsum (tree_files <$> (snd <$> ws))) (inner_blocks (DTree d0 (snd <$> ws))) s).
Proof.
  intros E Hg Hn IH Hr Hc Hf Hl Hb H6. pose proof (length_element "contents" [] (concat (fst <$> ws))) as Hlen.
  assert (Hcase : ws = [] /\ ch = [] \/ concat (fst <$> ws) <> []).
  { destruct ws as [|[ts c'] ws].
    - left. split; [done|]. apply mapM_Some_1 in E. inversion E as [E0|]. pose proof (hash_sort_perm ch) as P.
      rewrite <- E0 in P. by apply Permutation_nil_l in P.
    - right. intros E0. cbn in E0. apply app_eq_nil in E0 as [-> _]. apply mapM_Some_1 in E.
      inversion E as [|c ? cs ? Ec Hrest Ecs]. subst.
      destruct (entry_read fuel vn highest c [] c' [] s) as [? _]; try done; [|cbn; lia].
      eapply Forall_forall; [exact Hg|]. rewrite <- hash_sort_perm, <- Ecs. left. }
  destruct Hcase as [[-> ->]|Hne].
  - cbn. rewrite bump_none by done. apply steps_one. intros rest. unfold IndexXml.dir_tag, dir_state. sget. pick.
    step ltac:(by apply parses_required). cbn. replace (d0 <| link_count := 2 |>) with d0; [apply parses_ret|].
    destruct d0; cbn in *; by subst.
  - apply steps_element; [done|]. intros rest. unfold IndexXml.dir_tag, dir_state. sget. pick.
    step ltac:(by apply parses_required). step ltac:(by eapply contents_placed; try done; lia). apply parses_ret.
Qed.

Lemma dir_tags_read b pd ts a s : Forall (good_tag dir_tags) ts ->
  steps (dir_tag b pd) a s (concat (write_raw <$> ts)) (keep_tags ts a.1, a.2) s.
Proof.
  apply (tags_read _ _ (fun ts a => (keep_tags ts a.1, a.2))).
  - intros [f ch]. by rewrite keep_tags_nil.
  - intros t us [f ch]. cbn [fst snd]. by rewrite keep_tags_app.
  - intros tag at_ e [f ch] l l' t Hk Hp. unfold IndexXml.dir_tag. sget. none Hk. step ltac:(exact Hp). apply parses_ret.
Qed.

(** The fields put together. *)
Lemma dir_rebuilt highest d ch safe : good_dir highest d ch ->
  (with_xattrs (dir_head_of d safe) (xattrlist d)) <| link_count := 2 + count_dirs ch |> <| preserved_tags := preserved_tags d |> =
  d <| dirty := false |> <| platform_safe_name := safe |>.
Proof.
  intros ((_ & _ & _ & Hi & Ha & _ & Hr & Hu) & Hd & Hsl & Ht & Hs & He & Hl & _).
  assert (Hr0 : realsize d = 0) by (rewrite Hr, He; done).
  assert (Hu0 : used_blocks d = 0) by (rewrite Hu, He; unfold used_by; by destruct blocksize).
  unfold with_xattrs, dir_head_of. cbn. rewrite <- Hl, <- Hi, <- Ha. clear Hr Hu. destruct d; cbn in *; by subst.
Qed.

Definition dir_body (d : dent) (xa : list token) (ws : list (list token * dtree)) : list token :=
  dir_head d ++ xa ++ element "contents" [] (concat (fst <$> ws)) ++ concat (write_raw <$> preserved_tags d).

Lemma dir_body_read b fuel vn highest d ch safe xa ws s : good_dir highest d ch -> Forall (good_entry highest) ch ->
  dir_reads fuel vn -> ready highest s -> counted s -> write_xattr d = Some xa ->
  mapM (write_entry fuel vn) (hash_sort ch) = Some ws -> (length (dir_body d xa ws) < turns)%nat ->
  exists opt, steps (dir_tag b (parse_dirtree fuel false))
    (dir_state (true :: replicate 8 false) false (dir_base (dname d) safe) []) s (dir_body d xa ws)
    (dir_state (replicate 9 true) opt (d <| dirty := false |> <| platform_safe_name := safe |>) (snd <$> ws))
    (bump (zsum (tree_files <$> (snd <$> ws))) (inner_blocks (DTree d (snd <$> ws))) s).
Proof.
  intros Hg Hch IH Hr Hc Ex Em Hf. pose proof Hg as (Hm & _ & _ & _ & _ & _ & Hl & Hlb & Hn).
  pose proof Hm as (_ & _ & Hx & _ & _ & Ht & _). unfold dir_body in *. rewrite !length_app in Hf.
  destruct (dir_xattrs_read b (parse_dirtree fuel false) d (dir_head_of d safe) (<[6%nat := false]> (replicate 9 true)) xa [] s)
    as [opt H2]; [done|done|lia|done|].
  exists opt. eapply steps_app; [by apply (dir_head_read b (parse_dirtree fuel false) highest)|].
  eapply steps_app; [exact H2|]. eapply steps_app.
  { eapply (dir_contents_read b fuel vn highest ch ws); try done; [lia|by rewrite <- Hl]. }
  pose proof (dir_tags_read b (parse_dirtree fuel false) (preserved_tags d)
    (dir_state (replicate 9 true) opt ((with_xattrs (dir_head_of d safe) (xattrlist d)) <| link_count := 2 + count_dirs ch |>)
       (snd <$> ws)) (bump (zsum (tree_files <$> (snd <$> ws))) (inner_blocks (DTree d (snd <$> ws))) s) Ht) as H4.
  rewrite <- (dir_rebuilt highest d ch safe Hg). exact H4.
Qed.

Lemma dir_end_read highest is_root d opt ch s l : ready highest s -> 1 <= uid d -> (uid d = 1 <-> is_root = true) ->
  parses (dir_end is_root (mk_file_state (replicate 9 true) [opt] d false false false) ch) s l (DTree d ch) s l.
Proof.
  intros Hr Hu Hi. unfold dir_end. step ltac:(by eapply old_fields_now). step ltac:(by apply parses_all). cbn [obj].
  destruct is_root; cbn [negb andb orb].
  - rewrite (proj2 Hi) by done. apply parses_ret.
  - rewrite (proj2 (Z.eqb_neq _ 1)), (proj2 (Z.eqb_neq _ 0)) by (try lia; intros E; by apply Hi in E). apply parses_ret.
Qed.

Lemma element_split tag body : body <> [] -> exists b, element tag [] body = (true, XStart tag [] false) :: b /\
  forall rest : list token, b ++ rest = body ++ (true, XEnd tag) :: rest.
Proof. intros H. rewrite element_body by done. eexists. split; [done|]. intros rest. by rewrite <- app_assoc. Qed.

Lemma app_three {A} (a b c x : list A) : a ++ b ++ c ++ x = (a ++ b ++ c) ++ x.
Proof. by rewrite <- !app_assoc. Qed.

Lemma dirtree_written fuel vn b d ch ts t' : write_dirtree (S fuel) vn b (DTree d ch) = Some (ts, t') ->
  exists nm xa ws, write_name u8_next "name" (if b then vn else dname d) = Some nm /\ write_xattr d = Some xa /\
    mapM (write_entry fuel vn) (hash_sort ch) = Some ws /\ ts = element "directory" [] (nm ++ dir_body d xa ws) /\
    t' = DTree (d <| dirty := false |>) (snd <$> ws).
Proof.
  intros E. cbn [_xml_write_dirtree] in E.
  destruct (write_name u8_next "name" _) as [nm|]; [|done]. cbn [mbind option_bind] in E.
  destruct (write_xattr d) as [xa|]; [|done]. cbn [mbind option_bind] in E. fold (write_entry fuel vn) in E.
  destruct (mapM _ (hash_sort ch)) as [ws|]; [|done]. cbn [mbind option_bind] in E. apply Some_pair in E as [<- <-].
  exists nm, xa, ws. do 3 (split; [done|]). split; [|done]. unfold dir_body, dir_head. f_equal. f_equal. apply app_three.
Qed.

Lemma dirs_read fuel vn : dir_reads fuel vn.
Proof.
  induction fuel as [|fuel IH]; intros highest t ts t' s Hg Hd Hr Hc E Hf; [done|].
  destruct Hg as [d Hg|d ch Hg (n & Hn & Hname & _) Hu1 Hch]; [destruct Hg as (_ & _ & Hd' & _); cbn in Hd; congruence|].
  destruct (dirtree_written _ _ _ _ _ _ _ E) as (nm & xa & ws & En & Ex & Ew & -> & ->). rewrite Hn in En.
  destruct (name_written _ _ _ _ Hname En) as (at_ & v & -> & Hne & Hp). clear En E.
  pose proof (length_element "directory" [] (((true, XStart "name" at_ false) :: text_rest "name" v) ++ dir_body d xa ws)) as Hlen.
  rewrite length_app in Hlen.
  destruct (dir_body_read false fuel vn highest d ch None xa ws s) as [opt Hb]; [done..|lia|].
  destruct (element_split "directory" (((true, XStart "name" at_ false) :: text_rest "name" v) ++ dir_body d xa ws))
    as (b & -> & Eb); [done|]. exists b. split; [done|]. intros rest. rewrite Eb. cbn [_xml_parse_dirtree]. sget.
  step ltac:(eapply parses_tags; [|rewrite length_app; lia]).
  { eapply steps_cons; [|exact Hb]. intros rest'. unfold IndexXml.dir_tag. sget. pick.
    step ltac:(by apply parses_required). step ltac:(by apply parses_name).
    unfold dir_state, dir_base. rewrite Hn. apply parses_ret. }
  pose proof Hg as ((_ & Hu & _) & Hdir & _).
  replace (tree_files _) with (zsum (tree_files <$> (snd <$> ws))) by (cbn; rewrite Hdir; lia).
  eapply (dir_end_read highest false); [by apply bump_ready|cbn; lia|]. cbn. by split.
Qed.

(** ** The root *)

(** What the root and the counters of an index promise. *)
Definition good_root (highest : Z) (t : dtree) : Prop :=
  good_dir highest (node t) (child_list t) /\ uid (node t) = 1 /\ dname (node t) = Some (mk_name false (str "/")) /\
  platform_safe_name (node t) = Some (str "/") /\ Forall (good_entry highest) (child_list t).

Definition good_volume_name (vn : option ltfs_name) : Prop := match vn with Some n => good_name false n | None => True end.

Lemma volume_name_read fuel vn nm d s : good_volume_name vn -> write_name u8_next "name" vn = Some nm ->
  steps (dir_tag true (parse_dirtree fuel false)) (dir_state (replicate 9 false) false d []) s nm
    (dir_state (true :: replicate 8 false) false d []) (s <| volume_name := vn |>).
Proof.
  intros Hg E. destruct vn as [n|]; cbn [write_name] in E.
  - destruct (name_written _ false _ _ Hg E) as (at_ & v & -> & Hne & Hp). apply steps_one. intros rest.
    unfold IndexXml.dir_tag, dir_state. sget. pick. step ltac:(by apply parses_required).
    step ltac:(unfold _xml_parse_nametype_allow_zero_length, get_tag_text_allow_zero_length, text_rest).
    { rewrite bool_decide_false by done. rewrite <- app_assoc.
      step ltac:(step ltac:(step ltac:(apply parses_ret); apply parses_text)).
      { destruct v; [done|]. rewrite Hp. step ltac:(apply parses_code). apply parses_ret. }
      cbv beta iota. step ltac:(apply parses_check_end). apply parses_ret. }
    step ltac:(apply parses_modify). apply parses_ret.
  - apply (inj Some) in E as <-. apply steps_one. intros rest.
    unfold IndexXml.dir_tag, dir_state. sget. pick. step ltac:(by apply parses_required).
    step ltac:(apply parses_ret). step ltac:(apply parses_modify). apply parses_ret.
Qed.

Lemma root_read fuel highest vn t ts t' s : good_root highest t -> good_volume_name vn -> ready highest s -> counted s ->
  root s = root ltfs_index_alloc -> write_dirtree fuel vn true t = Some (ts, t') -> (length ts < turns)%nat ->
  exists body, ts = (true, XStart "directory" [] false) :: body /\
  forall rest, parses (parse_dirtree fuel true) s (body ++ rest) t'
    (bump (tree_files t') (inner_blocks t') (s <| volume_name := vn |>)) rest.
Proof.
  intros (Hg & Hu & Hn & Hsafe & Hch) Hvn Hr Hc Hroot E Hf. destruct fuel as [|fuel]; [done|]. destruct t as [d ch].
  cbn [node child_list] in *.
  destruct (dirtree_written _ _ _ _ _ _ _ E) as (nm & xa & ws & En & Ex & Ew & -> & ->). clear E.
  pose proof (length_element "directory" [] (nm ++ dir_body d xa ws)) as Hlen. rewrite length_app in Hlen.
  destruct (dir_body_read true fuel vn highest d ch (Some (str "/")) xa ws (s <| volume_name := vn |>)) as [opt Hb];
    [done|done|apply dirs_read|done..|lia|].
  destruct (element_split "directory" (nm ++ dir_body d xa ws)) as (b & -> & Eb).
  { unfold dir_body, dir_head, write_element, text_element. by destruct nm. }
  exists b. split; [done|]. intros rest. rewrite Eb. cbn [_xml_parse_dirtree]. sget. rewrite Hroot.
  step ltac:(eapply parses_tags; [|rewrite length_app; lia]).
  { rewrite Hn in Hb. eapply steps_app; [|exact Hb]. by apply volume_name_read. }
  pose proof Hg as (_ & Hdir & _).
  replace (tree_files _) with (zsum (tree_files <$> (snd <$> ws))) by (cbn; rewrite Hdir; lia).
  replace (d <| dirty := false |>) with (d <| dirty := false |> <| platform_safe_name := Some (str "/") |>)
    by (destruct d; cbn in *; by subst).
  eapply (dir_end_read highest true); [by apply bump_ready|cbn; lia|by cbn].
Qed.

(** Sorting the directories changes no counter. *)
Lemma dirtree_counts fuel vn : forall b t ts t', write_dirtree fuel vn b t = Some (ts, t') ->
  tree_files t' = tree_files t /\ inner_blocks t' = inner_blocks t.
Proof.
  induction fuel as [|fuel IH]; [done|]. intros b [d ch] ts t' E.
  destruct (dirtree_written _ _ _ _ _ _ _ E) as (nm & xa & ws & _ & _ & Ew & _ & ->). clear E.
  assert (H : tree_files <$> (snd <$> ws) = tree_files <$> hash_sort ch /\
              inner_blocks <$> (snd <$> ws) = inner_blocks <$> hash_sort ch).
  { apply mapM_Some_1 in Ew. induction Ew as [|c [us c'] cs ws Ec _ IHl]; [done|]. destruct IHl as [IH1 IH2].
    cbn. rewrite IH1, IH2. unfold write_entry in Ec. destruct (isdir (node c)) eqn:Hd.
    - destruct (IH _ _ _ _ Ec) as [-> ->]. done.
    - apply file_node in Ec as ->. by destruct c. }
  destruct H as [H1 H2]. split; cbn [tree_files].
  - rewrite H1. f_equal. apply zsum_perm. by rewrite hash_sort_perm.
  - rewrite !inner_blocks_sum, H2. f_equal; [apply zsum_perm; by rewrite hash_sort_perm|].
    rewrite (entries_field used_blocks fuel vn (hash_sort ch) ws) by done. apply zsum_perm. by rewrite hash_sort_perm.
Qed.

(** ** Policy and positions *)

Definition good_position (p : tape_offset) : Prop := 97 <= to_partition p <= 122 /\ in_u64 (to_block p).

Definition no_criteria : index_criteria := mk_criteria false 0 None None.

Definition good_criteria (c : index_criteria) : Prop :=
  if have_criteria c then
    in_u64 (max_filesize_criteria c) /\ glob_cache c = None /\
    match glob_patterns c with Some l => l <> [] /\ Forall (good_name false) l | None => True end
  else c = no_criteria.

Lemma tapepos_read {S} tag p old code (s : S) : good_position p -> (length (write_tapepos tag p) < turns)%nat ->
  exists body, write_tapepos tag p = (true, XStart tag [] false) :: body /\
  forall rest, parses (_xml_parse_tapepos turns tag old code) s (body ++ rest) p s rest.
Proof.
  intros [Hp Hb] Hf. unfold write_tapepos in *. set (l := _ ++ _) in *. pose proof (length_element tag [] l).
  destruct (element_split tag l) as (b & -> & Eb); [done|]. exists b. split; [done|]. intros rest. rewrite Eb.
  apply parses_catch. step ltac:(eapply parses_tags; [|lia]).
  { subst l. child ltac:(unfold tapepos_tag; pick; step ltac:(by apply parses_required);
      step ltac:(apply (parses_value _ _ _ _ (to_partition p)); [done|cbn; unfold in_range; by case_bool; [|lia]]); apply parses_ret).
    apply steps_one. intros rest'. unfold tapepos_tag. pick. step ltac:(by apply parses_required).
    step ltac:(by apply print_u_parses). apply parses_ret. }
  cbn [fst snd]. step ltac:(by apply parses_all). destruct p. apply parses_ret.
Qed.

Abbreviation ip_criteria_tag := (ip_criteria_tag pathname_normalize pathname_validate_file pathname_validate_target).

Definition patterns (g : option (list ltfs_name)) (l : list ltfs_name) : option (list ltfs_name) :=
  match l with [] => g | _ => Some (default [] g ++ l) end.

Definition with_patterns (l : list ltfs_name) (idx : ltfs_index) : ltfs_index :=
  idx <| original_criteria := (original_criteria idx) <| glob_patterns := patterns (glob_patterns (original_criteria idx)) l |> |>.

Lemma with_patterns_cons n l idx : with_patterns l (with_patterns [n] idx) = with_patterns (n :: l) idx.
Proof. unfold with_patterns. cbn. destruct l; [done|]. cbn. by rewrite <- app_assoc. Qed.

Lemma patterns_read l nss have : Forall (good_name false) l -> mapM (_xml_write_nametype u8_next "name") l = Some nss ->
  forall s, steps ip_criteria_tag have s (concat nss) have (with_patterns l s).
Proof.
  intros Hl E%mapM_Some_1. revert Hl. induction E as [|n ts l nss En _ IH]; intros Hl s.
  { replace (with_patterns [] s) with s; [constructor|]. by destruct s as [? ? ? ? ? ? ? ? []]. }
  apply Forall_cons in Hl as [Hn Hl]. rewrite <- with_patterns_cons. cbn [concat].
  eapply steps_app; [|by apply IH]. destruct (name_written _ _ _ _ Hn En) as (at_ & v & -> & Hne & Hp).
  apply steps_one. intros rest. unfold IndexXml.ip_criteria_tag. pick. step ltac:(by apply parses_nametype).
  step ltac:(apply parses_modify). step ltac:(apply parses_check_end). apply parses_ret.
Qed.

Lemma dup_names_all i l : dup_names (fun _ => true) i l = Some l.
Proof. revert i. induction l as [|n l IH]; intros i; [done|]. cbn. by rewrite IH. Qed.

Lemma criteria_rebuilt c s : have_criteria c = true -> glob_cache c = None -> original_criteria s = no_criteria ->
  match glob_patterns c with Some l => l <> [] /\ Forall (good_name false) l | None => True end ->
  copy_criteria (with_patterns (default [] (glob_patterns c)) ((start_criteria s) <| original_criteria :=
      (original_criteria (start_criteria s)) <| max_filesize_criteria := max_filesize_criteria c |> |>)) =
  s <| original_criteria := c |> <| active_criteria := c |>.
Proof.
  intros Hc Hg Ho Hp. destruct c as [h m g k]. cbn in *. subst. unfold start_criteria. rewrite Ho.
  unfold with_patterns, copy_criteria, index_criteria_dup_rules. cbn. destruct g as [[|n l]|]; [by destruct Hp| |done].
  cbn. rewrite dup_names_all. done.
Qed.

Abbreviation parse_policy := (_xml_parse_policy pathname_normalize pathname_validate_file pathname_validate_target turns).

(** A policy replaces both criteria; without one they stay. *)
Lemma policy_read c ts s : good_criteria c -> original_criteria s = no_criteria -> active_criteria s = no_criteria ->
  write_policy u8_next c = Some ts -> (length ts < turns)%nat ->
  (ts = [] /\ s <| original_criteria := c |> <| active_criteria := c |> = s) \/
  exists body, ts = (true, XStart "dataplacementpolicy" [] false) :: body /\
  forall rest, parses parse_policy s (body ++ rest) tt (s <| original_criteria := c |> <| active_criteria := c |>) rest.
Proof.
  unfold write_policy, good_criteria. intros Hg Ho Ha E Hf. destruct (have_criteria c) eqn:Hc.
  2:{ left. apply (inj Some) in E as <-. split; [done|]. subst c. destruct s; cbn in *; by subst. }
  right. destruct (mapM _ _) as [nss|] eqn:Em; [|done]. cbn [mbind option_bind] in E. apply (inj Some) in E as <-.
  destruct Hg as (Hm & Hcache & Hp). set (l := _ ++ concat nss) in *.
  pose proof (length_element "indexpartitioncriteria" [] l). pose proof (length_element "dataplacementpolicy" [] (element "indexpartitioncriteria" [] l)).
  destruct (element_split "dataplacementpolicy" (element "indexpartitioncriteria" [] l)) as (b & -> & Eb); [by destruct l|].
  exists b. split; [done|]. intros rest. rewrite Eb. unfold _xml_parse_policy. step ltac:(eapply parses_tags; [|lia]).
  { apply steps_element; [done|]. intros rest'. unfold policy_tag. pick. step ltac:(by apply parses_required).
    step ltac:(apply parses_ret). step ltac:(unfold _xml_parse_ip_criteria; step ltac:(apply parses_modify)).
    { step ltac:(eapply parses_tags; [|lia]).
      { subst l. eapply steps_cons.
        - intros r. unfold IndexXml.ip_criteria_tag. pick. step ltac:(by apply parses_required).
          step ltac:(by apply print_u_parses). step ltac:(apply parses_modify). apply parses_ret.
        - eapply patterns_read; [|exact Em]. destruct (glob_patterns c); [apply Hp|constructor]. }
      step ltac:(apply parses_modify). by apply parses_all. }
    apply parses_ret. }
  cbv beta. rewrite (criteria_rebuilt c s) by done. by apply parses_all.
Qed.

(** ** The document *)

Definition index_tags : list string :=
  ["creator"; "volumeuuid"; "generationnumber"; "updatetime"; "location"; "allowpolicyupdate"; "directory";
   "previousgenerationlocation"; "dataplacementpolicy"; "comment"; "volumelockstate"; "highestfileuid"]%string.

Record good_index (idx : ltfs_index) : Prop := mk_good_index {
  gi_uuid : vol_uuid idx <> [] /\ xml_parse_uuid (vol_uuid idx) = Some (vol_uuid idx);
  gi_volume_name : good_volume_name (volume_name idx);
  gi_generation : in_u32 (generation idx);
  gi_mod_time : time_ok (mod_time idx);
  gi_selfptr : good_position (selfptr idx);
  gi_backptr : backptr idx = mk_offset 0 0 \/ good_position (backptr idx) /\ to_block (backptr idx) <> 0;
  gi_criteria : good_criteria (original_criteria idx);
  gi_root : good_root (uid_number idx) (root idx);
  gi_uid : 1 <= uid_number idx < 2 ^ 64;
  gi_files : file_count idx = tree_files (root idx) /\ in_u64 (file_count idx);
  gi_blocks : valid_blocks idx = inner_blocks (root idx) /\ in_u64 (valid_blocks idx);
  gi_comment : match commit_message idx with Some c => c <> [] /\ zlength c <= INDEX_MAX_COMMENT_LEN | None => True end;
  gi_version : LTFS_INDEX_VERSION_WRITE_MIN <= write_version idx <= LTFS_INDEX_VERSION;
  gi_conflict : symlink_conflict idx = [];
  gi_lock : vollock idx = UNLOCKED_MAM \/ vollock idx = LOCKED_MAM \/ vollock idx = PERMLOCKED_MAM;
  gi_tags : Forall (good_tag index_tags) (idx_tags idx);
}.

Lemma write_version_bound idx : good_index idx -> IDX_VERSION_UID <= write_version idx.
Proof.
  intros Hg. pose proof (gi_version _ Hg). unfold LTFS_INDEX_VERSION_WRITE_MIN, IDX_VERSION_UID, MAKE_LTFS_VERSION in *. lia.
Qed.

Abbreviation schema_tag fuel :=
  (schema_tag pathname_normalize pathname_validate_file pathname_validate_target blocksize turns fuel false).

Ltac schema_step := unfold IndexXml.schema_tag; sget; pick.

Lemma index_value_read {A} i tag (parse : list Z -> option A) code set (h : list bool * list bool) t v s rest :
  h.1 !! i = Some false -> t <> [] -> parse t = Some v ->
  parses (index_value i tag false parse code set h) s (text_rest tag t ++ rest) (<[i := true]> h.1, h.2) (set v s) rest.
Proof.
  intros Hi Ht Hp. unfold index_value. step ltac:(by apply parses_required). step ltac:(by apply parses_value).
  step ltac:(apply parses_modify). apply parses_ret.
Qed.

Definition comment_text (idx : ltfs_index) : list token :=
  match commit_message idx with Some ((_ :: _) as c) => write_element "comment" c | _ => [] end.

Lemma comment_read fuel req idx s : good_index idx -> commit_message s = None ->
  exists opt, steps (schema_tag fuel) (req, replicate 4 false) s (comment_text idx) (req, [false; false; opt; false])
    (s <| commit_message := commit_message idx |>).
Proof.
  intros Hg Hs. pose proof (gi_comment _ Hg) as Hc. unfold comment_text. destruct (commit_message idx) as [[|x c]|].
  - by destruct Hc.
  - exists true. destruct Hc as [Hne Hl]. apply steps_one. intros rest. schema_step. step ltac:(by apply parses_optional).
    step ltac:(apply (parses_value _ _ _ _ (x :: c)); [done|]). { by rewrite (proj2 (Z.ltb_ge _ _)). }
    step ltac:(apply parses_modify). apply parses_ret.
  - exists false. replace (s <| commit_message := None |>) with s; [constructor|]. destruct s; cbn in *; by subst.
Qed.

Definition previous_text (idx : ltfs_index) : list token :=
  if to_block (backptr idx) =? 0 then [] else write_tapepos "previousgenerationlocation" (backptr idx).

Lemma previous_read fuel req c idx s : good_index idx -> backptr s = mk_offset 0 0 ->
  (length (previous_text idx) < turns)%nat ->
  exists opt, steps (schema_tag fuel) (req, [false; false; c; false]) s (previous_text idx) (req, [opt; false; c; false])
    (s <| backptr := backptr idx |>).
Proof.
  intros Hg Hs Hf. unfold previous_text in *. destruct (gi_backptr _ Hg) as [E|[Hp Hb]].
  - exists false. rewrite E. cbn. replace (s <| backptr := mk_offset 0 0 |>) with s; [constructor|]. destruct s; cbn in *; by subst.
  - exists true. rewrite (proj2 (Z.eqb_neq _ _) Hb) in *.
    destruct (tapepos_read "previousgenerationlocation" (backptr idx) (backptr s) (- LTFS_XML_WRONG_LOC_PREV) s Hp Hf) as (body & -> & Hr).
    apply steps_one. intros rest. schema_step. step ltac:(by apply parses_optional). step ltac:(apply parses_ret).
    step ltac:(apply Hr). step ltac:(apply parses_modify). apply parses_ret.
Qed.

Lemma policy_tag_read fuel req p c idx ts s : good_index idx -> original_criteria s = no_criteria ->
  active_criteria s = no_criteria -> write_policy u8_next (original_criteria idx) = Some ts -> (length ts < turns)%nat ->
  exists opt, steps (schema_tag fuel) (req, [p; false; c; false]) s ts (req, [p; opt; c; false])
    (s <| original_criteria := original_criteria idx |> <| active_criteria := original_criteria idx |>).
Proof.
  intros Hg Ho Ha E Hf. destruct (policy_read _ _ _ (gi_criteria _ Hg) Ho Ha E Hf) as [[-> ->]|(body & -> & Hr)].
  { exists false. constructor. }
  exists true. apply steps_one. intros rest. schema_step. step ltac:(by apply parses_optional).
  step ltac:(apply parses_ret). step ltac:(apply Hr). apply parses_ret.
Qed.

Lemma lock_read l old : l = UNLOCKED_MAM \/ l = LOCKED_MAM \/ l = PERMLOCKED_MAM ->
  lock_text l <> [] /\ parse_lock (lock_text l) old = l.
Proof. by intros [->|[->| ->]]. Qed.

Lemma index_tags_read fuel ts h : Forall (good_tag index_tags) ts -> forall s,
  steps (schema_tag fuel) h s (concat (write_raw <$> ts)) h (s <| idx_tags := idx_tags s ++ ts |>).
Proof.
  induction 1 as [|t ts [He Hk] _ IH]; intros s.
  { replace (s <| idx_tags := idx_tags s ++ [] |>) with s; [constructor|]. cbn. rewrite app_nil_r. by destruct s. }
  replace (s <| idx_tags := idx_tags s ++ t :: ts |>) with
    ((fun s => s <| idx_tags := idx_tags s ++ ts |>) (s <| idx_tags := idx_tags s ++ [t] |>)) by (cbn; by rewrite <- app_assoc).
  cbn [fmap list_fmap concat]. eapply steps_app; [|apply IH]. destruct t as [|[tag at_ e| | |] i]; try done.
  apply steps_one. intros rest. unfold IndexXml.schema_tag. sget. none Hk.
  step ltac:(by apply parses_preserve). step ltac:(apply parses_modify). apply parses_ret.
Qed.

Lemma highest_read u s : uid_number s = 1 -> 1 <= u -> raise_uid u s = s <| uid_number := u |>.
Proof.
  intros Hs Hu. unfold raise_uid. rewrite Hs. destruct (Z.ltb_spec 1 u); [done|]. replace u with 1 by lia.
  destruct s; cbn in *; by subst.
Qed.

(** The index before the tree is read. *)
Definition head_index (c : list Z) (idx : ltfs_index) : ltfs_index :=
  mk_index c (vol_uuid idx) None (generation idx) (mod_time idx) (selfptr idx) (backptr idx) (criteria_allow_update idx)
    (original_criteria idx) (original_criteria idx) (root ltfs_index_alloc) 0 (uid_number idx) 0 (commit_message idx)
    (write_version idx) LTFS_INDEX_VERSION [] [] (vollock idx).

(** The index with the version of the document. *)
Definition started (idx : ltfs_index) : ltfs_index :=
  ltfs_index_alloc <| version := write_version idx |> <| commit_message := None |>.

Definition index_head (c : list Z) (idx : ltfs_index) (policy : list token) : list token :=
  write_element "creator" c ++ comment_text idx ++ write_element "volumeuuid" (vol_uuid idx) ++
  write_element "generationnumber" (print_u (generation idx)) ++ write_element "updatetime" (time_text (mod_time idx)) ++
  write_tapepos "location" (selfptr idx) ++ previous_text idx ++
  write_element "allowpolicyupdate" (print_bool (criteria_allow_update idx)) ++ policy ++
  write_element "highestfileuid" (print_u (uid_number idx)) ++ write_element "volumelockstate" (lock_text (vollock idx)).

Lemma index_head_read fuel c idx policy : good_index idx -> c <> [] ->
  write_policy u8_next (original_criteria idx) = Some policy -> (length (index_head c idx policy) < turns)%nat ->
  exists opt, steps (schema_tag fuel) (replicate 8 false, replicate 4 false) (started idx) (index_head c idx policy)
    (<[6%nat := false]> (replicate 8 true), opt) (head_index c idx).
Proof.
  intros Hg Hc Ep Hf. unfold index_head in Hf. rewrite !length_app in Hf.
  destruct (gi_uuid _ Hg) as [Hu1 Hu2]. destruct (time_text_spec _ (gi_mod_time _ Hg)).
  assert (in_u64 (generation idx)) by (pose proof (gi_generation _ Hg); unfold in_u64, in_u32 in *; lia).
  destruct (print_u_spec (generation idx)); [done|]. destruct (print_bool_spec (criteria_allow_update idx)).
  pose proof (gi_uid _ Hg). destruct (print_u_spec (uid_number idx)); [lia|].
  pose proof (write_version_bound _ Hg) as Hver.
  destruct (comment_read fuel [true; false; false; false; false; false; false; false] idx
    ((started idx) <| creator := c |>) Hg) as [o2 P2]; [done|].
  set (s2 := _ <| commit_message := _ |>) in P2.
  set (s5 := s2 <| vol_uuid := vol_uuid idx |> <| generation := generation idx |> <| mod_time := mod_time idx |>).
  destruct (tapepos_read "location" (selfptr idx) (selfptr s5) (- LTFS_XML_WRONG_LOC) s5 (gi_selfptr _ Hg) ltac:(lia)) as (lb & Hloc & Hlr).
  destruct (previous_read fuel [true; true; true; true; true; false; false; false] o2 idx
    (s5 <| selfptr := selfptr idx |>) Hg) as [o0 P7]; [done|lia|].
  set (s8 := s5 <| selfptr := selfptr idx |> <| backptr := backptr idx |> <| criteria_allow_update := criteria_allow_update idx |>).
  destruct (policy_tag_read fuel [true; true; true; true; true; true; false; false] o0 o2 idx policy s8 Hg)
    as [o1 P9]; [done|done|done|lia|].
  destruct (lock_read (vollock idx) UNLOCKED_MAM (gi_lock _ Hg)) as [Hl1 Hl2].
  exists [o0; o1; o2; true]. unfold index_head.
  child ltac:(schema_step; apply (index_value_read 0%nat _ Some 0 _ _ c c); done).
  eapply steps_app; [exact P2|].
  child ltac:(schema_step; by apply (index_value_read 1%nat)).
  child ltac:(schema_step; apply (index_value_read 2%nat _ _ _ _ _ _ (generation idx)); [done|assumption..]).
  child ltac:(schema_step; by apply (index_value_read 3%nat)).
  rewrite u32_small by apply Hg. fold s5. rewrite Hloc.
  child ltac:(schema_step; step ltac:(by apply parses_required); step ltac:(apply parses_ret); step ltac:(apply Hlr);
    step ltac:(apply parses_modify); apply parses_ret).
  eapply steps_app; [exact P7|].
  child ltac:(schema_step; by apply (index_value_read 5%nat)).
  eapply steps_app; [exact P9|].
  child ltac:(schema_step; match goal with |- context [version ?i] => change (version i) with (write_version idx) end; rewrite (proj2 (Z.leb_le IDX_VERSION_UID _)) by exact Hver;
    by apply (index_value_read 7%nat)).
  rewrite highest_read by (done || lia).
  apply steps_one. intros rest. schema_step. step ltac:(by apply parses_optional).
  step ltac:(by apply parses_value). step ltac:(apply parses_modify). cbn [fst snd].
  replace (head_index c idx) with ((fun i => i <| vollock := parse_lock (lock_text (vollock idx)) (vollock i) |>)
     (s8 <| original_criteria := original_criteria idx |> <| active_criteria := original_criteria idx |> <| uid_number := uid_number idx |>)).
  { apply parses_ret. }
  change (vollock (s8 <| original_criteria := _ |> <| active_criteria := _ |> <| uid_number := _ |>)) with UNLOCKED_MAM.
  rewrite Hl2. reflexivity.
Qed.

(** ** Writing succeeds *)

Fixpoint tree_depth (t : dtree) : nat := let 'DTree _ ch := t in S (foldr max 0%nat (tree_depth <$> ch)).

Lemma depth_child d ch c : c ∈ ch -> (tree_depth c < tree_depth (DTree d ch))%nat.
Proof.
  intros Hc. cbn. apply Nat.lt_succ_r. induction Hc as [c ch|c x ch _ IH]; cbn [fmap list_fmap foldr]; lia.
Qed.

Lemma name_writes tag k n : good_name k n -> is_Some (_xml_write_nametype u8_next tag n).
Proof.
  intros (_ & Hb & _). unfold _xml_write_nametype. destruct (percent_encode n); [|done]. destruct (Hb eq_refl) as [_ He].
  by destruct (encode_entry_name u8_next (name n)).
Qed.

Lemma xattrs_write d : Forall good_xattr (xattrlist d) -> is_Some (write_xattr d).
Proof.
  intros Hg. unfold _xml_write_xattr. destruct (xattrlist d) as [|x l]; [done|].
  assert (is_Some (mapM write_one_xattr (x :: l))) as [tss ->]; [|done]. apply mapM_is_Some_2. eapply Forall_impl; [exact Hg|].
  intros y [Hk Hv]. unfold compose, IndexXml.write_one_xattr. destruct (name_writes "key" _ _ Hk) as [tk ->]. cbn [mbind option_bind].
  destruct (xa_value y) as [v|]; [|done]. cbn zeta. rewrite (proj2 (Z.ltb_ge _ 0)) by apply Hv. by destruct (0 <? _).
Qed.

Lemma file_writes highest d ch : good_file highest d -> is_Some (write_file (DTree d ch)).
Proof.
  intros ((n & Hn & Hname & _) & (_ & _ & Hx & _) & Hd & _ & _ & Hdata). unfold _xml_write_file. rewrite Hd, Hn. cbn [write_name].
  destruct (name_writes "name" _ _ Hname) as [nm ->]. cbn [mbind option_bind]. destruct (xattrs_write d Hx) as [xa ->].
  cbn [mbind option_bind]. destruct (isslink d); [|done]. destruct Hdata as (_ & t & Ht & Hg). rewrite Ht. cbn [write_name].
  by destruct (name_writes "symlink" _ _ Hg) as [ts ->].
Qed.

Lemma dir_writes vn highest fuel : forall (b : bool) d ch, good_dir highest d ch -> Forall (good_entry highest) ch ->
  is_Some (write_name u8_next "name" (if b then vn else dname d)) -> (tree_depth (DTree d ch) <= fuel)%nat ->
  is_Some (write_dirtree fuel vn b (DTree d ch)).
Proof.
  induction fuel as [|fuel IH]; intros b d ch Hg Hch [nm Hn] Hf; [cbn in Hf; lia|]. cbn [_xml_write_dirtree]. rewrite Hn.
  cbn [mbind option_bind]. destruct Hg as ((_ & _ & Hx & _) & _). destruct (xattrs_write d Hx) as [xa ->]. cbn [mbind option_bind].
  assert (is_Some (mapM (fun c => if isdir (node c) then write_dirtree fuel vn false c else write_file c) (hash_sort ch))) as [ws ->];
    [|done].
  apply mapM_is_Some_2. apply Forall_forall. intros c Hc. unfold compose. rewrite hash_sort_perm in Hc. pose proof (depth_child d ch c Hc).
  rewrite Forall_forall in Hch. destruct (Hch c Hc) as [e He|e k He (n & Hen & Hname & _) _ Hk]; cbn [node].
  - pose proof He as (_ & _ & -> & _). by apply (file_writes highest).
  - pose proof He as (_ & -> & _). apply IH; [done..| |lia]. rewrite Hen. by apply (name_writes "name" false).
Qed.

Abbreviation write_schema := (_xml_write_schema u8_next validate_xattr_value write_base64 hash_sort).
Abbreviation parse_schema :=
  (_xml_parse_schema pathname_normalize pathname_validate_file pathname_validate_target blocksize turns).

Lemma index_writes fuel c idx : good_index idx -> (tree_depth (root idx) <= fuel)%nat ->
  is_Some (write_schema fuel c idx).
Proof.
  intros Hg Hf. unfold _xml_write_schema.
  assert (is_Some (write_policy u8_next (original_criteria idx))) as [policy ->].
  { pose proof (gi_criteria _ Hg) as Hc. unfold write_policy, good_criteria in *. destruct (have_criteria _); [|done].
    destruct Hc as (_ & _ & Hp).
    assert (is_Some (mapM (_xml_write_nametype u8_next "name") (default [] (glob_patterns (original_criteria idx))))) as [ns ->]; [|done].
    apply mapM_is_Some_2. destruct (glob_patterns _) as [l|]; [|constructor]. destruct Hp as [_ Hp]. eapply Forall_impl; [exact Hp|].
    intros n. apply name_writes. }
  cbn [mbind option_bind]. destruct (gi_root _ Hg) as (Hd & _ & _ & _ & Hch). destruct (root idx) as [d ch].
  destruct (dir_writes (volume_name idx) _ fuel true d ch Hd Hch) as [[tree r] ->]; [|done|done].
  pose proof (gi_volume_name _ Hg) as Hv. destruct (volume_name idx); [by apply (name_writes "name" false)|done].
Qed.

(** The tree that is written: every directory sorted, every dentry clean. *)
Inductive sorted_tree : dtree -> dtree -> Prop :=
  | sorted_node d ch cs ch' : ch ≡ₚ cs -> Forall2 sorted_tree cs ch' ->
      sorted_tree (DTree d ch) (DTree (d <| dirty := false |>) ch').

Lemma dirtree_sorted vn highest fuel : forall b d ch ts t', Forall (good_entry highest) ch ->
  write_dirtree fuel vn b (DTree d ch) = Some (ts, t') -> sorted_tree (DTree d ch) t'.
Proof.
  induction fuel as [|fuel IH]; [done|]. intros b d ch ts t' Hch E.
  destruct (dirtree_written _ _ _ _ _ _ _ E) as (nm & xa & ws & _ & _ & Ew & _ & ->). clear E.
  apply (sorted_node d ch (hash_sort ch)); [by rewrite hash_sort_perm|]. rewrite <- (hash_sort_perm ch) in Hch.
  apply mapM_Some_1 in Ew. induction Ew as [|c [us c'] cs ws Ec _ IHl]; [constructor|]. apply Forall_cons in Hch as [Hc Hch].
  cbn. constructor; [|by apply IHl]. unfold write_entry in Ec. destruct Hc as [e He|e k He _ _ Hk]; cbn [node] in Ec.
  - destruct He as (_ & _ & Hd & _). rewrite Hd in Ec. apply file_node in Ec as ->. by apply (sorted_node e [] []).
  - destruct He as (_ & Hd & _). rewrite Hd in Ec. by eapply IH.
Qed.

(** ** Reading the document *)

(** What is read: the index as the writer left it; the version and the creator are those of the document, the
    criteria in use are those of the volume, and the version to write is still that of a new index. *)
Definition read_back (c : list Z) (idx : ltfs_index) : ltfs_index :=
  idx <| creator := c |> <| version := write_version idx |> <| write_version := LTFS_INDEX_VERSION |>
      <| active_criteria := original_criteria idx |>.

(** The versions that are written, as text and back. *)
Lemma version_text v : LTFS_INDEX_VERSION_WRITE_MIN <= v <= LTFS_INDEX_VERSION ->
  _xml_parse_version (ltfs_format_version_str v) = Some v.
Proof.
  unfold LTFS_INDEX_VERSION_WRITE_MIN, LTFS_INDEX_VERSION, MAKE_LTFS_VERSION. intros Hv.
  pose proof (check1_spec 101 (fun i => bool_decide (_xml_parse_version (ltfs_format_version_str (20400 + i)) = Some (20400 + i)))
    (v - 20400) eq_refl ltac:(lia)) as H.
  apply bool_decide_eq_true in H. by replace (20400 + (v - 20400)) with v in H by lia.
Qed.

Lemma schema_written fuel c idx ts idx' : write_schema fuel c idx = Some (ts, idx') ->
  exists policy tree r, write_policy u8_next (original_criteria idx) = Some policy /\
    write_dirtree fuel (volume_name idx) true (root idx) = Some (tree, r) /\
    ts = element "ltfsindex" [("version"%string, ltfs_format_version_str (write_version idx))]
           (index_head c idx policy ++ tree ++ concat (write_raw <$> idx_tags idx)) /\
    idx' = idx <| root := r |>.
Proof.
  intros E. unfold _xml_write_schema in E. destruct (write_policy _ _) as [policy|]; [|done]. cbn [mbind option_bind] in E.
  destruct (write_dirtree _ _ _ _) as [[tree r]|]; [|done]. cbn [mbind option_bind] in E. apply Some_pair in E as [<- <-].
  exists policy, tree, r. do 2 (split; [done|]). split; [|done]. f_equal. unfold index_head, comment_text, previous_text.
  rewrite <- !(app_assoc (A := token)). done.
Qed.

Lemma tree_tag_read fuel c idx tree r opt : good_index idx ->
  write_dirtree fuel (volume_name idx) true (root idx) = Some (tree, r) -> (length tree < turns)%nat ->
  steps (schema_tag fuel) (<[6%nat := false]> (replicate 8 true), opt) (head_index c idx) tree (replicate 8 true, opt)
    ((head_index c idx) <| volume_name := volume_name idx |> <| file_count := file_count idx |>
       <| valid_blocks := valid_blocks idx |> <| root := r |>).
Proof.
  intros Hg E Hf. destruct (dirtree_counts _ _ _ _ _ _ E) as [E1 E2]. destruct (gi_files _ Hg) as [F1 F2].
  destruct (gi_blocks _ Hg) as [B1 B2]. pose proof (gi_uid _ Hg).
  pose proof (write_version_bound _ Hg) as Hver.
  destruct (root_read fuel (uid_number idx) (volume_name idx) (root idx) tree r (head_index c idx)) as (body & -> & Hb);
    [apply Hg|apply Hg|split; [exact Hver|split; [done|lia]]|by split|done|done|done|].
  apply steps_one. intros rest. schema_step. step ltac:(by apply parses_required). step ltac:(apply parses_ret).
  step ltac:(step ltac:(apply Hb); apply parses_modify).
  rewrite E1, E2, <- F1, <- B1. unfold bump.
  change (file_count (_ <| volume_name := _ |>)) with 0. change (valid_blocks (_ <| volume_name := _ |>)) with 0.
  replace (0 ⊞ file_count idx) with (file_count idx) by (rewrite u64_small; unfold in_u64 in *; lia).
  replace (0 ⊞ valid_blocks idx) with (valid_blocks idx) by (rewrite u64_small; unfold in_u64 in *; lia).
  apply parses_ret.
Qed.

Lemma schema_read fuel c idx ts idx' : good_index idx -> c <> [] -> write_schema fuel c idx = Some (ts, idx') ->
  (length ts < turns)%nat -> parses (parse_schema fuel true false) ltfs_index_alloc ts tt (read_back c idx') [].
Proof.
  intros Hg Hc E Hf. destruct (schema_written _ _ _ _ _ E) as (policy & tree & r & Ep & Et & -> & ->).
  pose proof (length_element "ltfsindex" [("version"%string, ltfs_format_version_str (write_version idx))]
    (index_head c idx policy ++ tree ++ concat (write_raw <$> idx_tags idx))) as Hlen.
  rewrite !length_app in Hlen. destruct (index_head_read fuel c idx policy Hg Hc Ep ltac:(lia)) as [opt H1].
  pose proof (tree_tag_read fuel c idx tree r opt Hg Et ltac:(lia)) as H2.
  rewrite element_body by (unfold index_head, write_element, text_element; done). pose proof (gi_version _ Hg) as Hver.
  unfold _xml_parse_schema. step ltac:(unfold _xml_parser_init; step ltac:(apply parses_start)).
  { pick. change (get_attribute "version" [("version"%string, ?v)]) with (Some v). cbv iota. rewrite version_text by done.
    step ltac:(apply parses_opt). rewrite (proj2 (Z.ltb_ge _ LTFS_INDEX_VERSION_MIN)), (proj2 (Z.ltb_ge LTFS_INDEX_VERSION_MAX _))
      by (unfold LTFS_INDEX_VERSION_WRITE_MIN, LTFS_INDEX_VERSION_MIN, LTFS_INDEX_VERSION_MAX, LTFS_INDEX_VERSION, MAKE_LTFS_VERSION in *; lia).
    apply parses_ret. }
  step ltac:(apply parses_modify). step ltac:(eapply parses_tags; [|rewrite !length_app; lia]).
  { eapply steps_app; [exact H1|]. eapply steps_app; [exact H2|]. apply index_tags_read. apply Hg. }
  rewrite (proj2 (Z.ltb_ge (write_version idx) IDX_VERSION_UID)) by by apply write_version_bound.
  step ltac:(apply parses_ret). step ltac:(by apply parses_all). sget. cbn [symlink_conflict head_index]. rewrite bool_decide_true by done.
  replace (read_back c (idx <| root := r |>)) with
    ((fun i => i <| idx_tags := idx_tags i ++ idx_tags idx |>)
      ((head_index c idx) <| volume_name := volume_name idx |> <| file_count := file_count idx |>
       <| valid_blocks := valid_blocks idx |> <| root := r |>)); [apply parses_ret|].
  pose proof (gi_conflict _ Hg). clear Hver. unfold read_back, head_index. destruct idx; cbn in *; by subst.
Qed.
End round_trip.

(** The document of an index, written and read with room for [levels] levels of the tree. *)
Lemma index_document (u8_next : list Z -> option nat)
    (u8_ascii : forall c s k, c < 0x80 -> u8_next (c :: s) = Some k -> k = 1%nat)
    (u8_positive : forall s k, u8_next s = Some k -> (0 < k)%nat)
    (validate_xattr_value : list Z -> Z) (write_base64 : list Z -> list Z)
    (base64_text : forall v, Forall is_byte v ->
       exists text, write_base64 v = text ++ base64_padding v /\ Base64.skip_spaces text = base64_digits v)
    (pathname_normalize : path -> Z + path) (pathname_validate_file pathname_validate_target : path -> Z)
    (blocksize : option Z) (hash_sort : list dtree -> list dtree) (hash_sort_perm : forall l, hash_sort l ≡ₚ l)
    (c : list Z) (idx : ltfs_index) (levels : nat) :
  c <> [] -> (tree_depth (root idx) <= levels)%nat ->
  good_index u8_next validate_xattr_value write_base64 pathname_normalize pathname_validate_file
    pathname_validate_target blocksize idx ->
  exists ts r,
    _xml_write_schema u8_next validate_xattr_value write_base64 hash_sort levels c idx = Some (ts, idx <| root := r |>) /\
    sorted_tree (root idx) r /\
    forall nodes, reads_as ts nodes ->
      _xml_parse_schema pathname_normalize pathname_validate_file pathname_validate_target blocksize
        (S (length nodes)) levels true false (nodes, ltfs_index_alloc) = XOk (tt, ([], read_back c (idx <| root := r |>))).
Proof.
  intros Hc Hd Hg. destruct (index_writes u8_next validate_xattr_value write_base64 pathname_normalize pathname_validate_file
    pathname_validate_target blocksize hash_sort hash_sort_perm levels c idx Hg Hd) as [[ts idx'] E].
  destruct (schema_written u8_next validate_xattr_value write_base64 hash_sort _ _ _ _ _ E) as (policy & tree & r & _ & Et & _ & ->).
  exists ts, r. split; [done|]. split.
  { destruct (gi_root _ _ _ _ _ _ _ _ Hg) as (_ & _ & _ & _ & Hch). destruct (root idx) as [d ch]. by eapply dirtree_sorted. }
  intros nodes Hn. pose proof (reads_length _ _ Hn).
  destruct (schema_read u8_next u8_ascii u8_positive validate_xattr_value write_base64 base64_text pathname_normalize
    pathname_validate_file pathname_validate_target blocksize (S (length nodes)) hash_sort hash_sort_perm _ c idx ts
    (idx <| root := r |>) Hg Hc E ltac:(lia) nodes Hn) as (ns & -> & Hns).
  by inversion Hns.
Qed.

(** C6: the XML of an index is read back: for an index in good order, the
    writer produces a document, and from whatever nodes the XML reader delivers
    for it, indented or not, the parser rebuilds the index: every file, extent,
    attribute, time stamp, symbolic link, policy and counter, the directories
    in the order in which they were written.  The parameters are those of ICU,
    libxml2 and uthash. *)
Theorem index_round_trip (u8_next : list Z -> option nat)
    (u8_ascii : forall c s k, c < 0x80 -> u8_next (c :: s) = Some k -> k = 1%nat)
    (u8_positive : forall s k, u8_next s = Some k -> (0 < k)%nat)
    (validate_xattr_value : list Z -> Z) (write_base64 : list Z -> list Z)
    (base64_text : forall v, Forall is_byte v ->
       exists text, write_base64 v = text ++ base64_padding v /\ Base64.skip_spaces text = base64_digits v)
    (pathname_normalize : path -> Z + path) (pathname_validate_file pathname_validate_target : path -> Z)
    (blocksize : option Z) (hash_sort : list dtree -> list dtree) (hash_sort_perm : forall l, hash_sort l ≡ₚ l)
    (c : list Z) (idx : ltfs_index)
    (Hc : c <> [])
    (Hg : good_index u8_next validate_xattr_value write_base64 pathname_normalize pathname_validate_file
            pathname_validate_target blocksize idx) :
  exists ts r,
    _xml_write_schema u8_next validate_xattr_value write_base64 hash_sort (tree_depth (root idx)) c idx =
      Some (ts, idx <| root := r |>) /\
    sorted_tree (root idx) r /\
    forall nodes, reads_as ts nodes ->
      _xml_parse_schema pathname_normalize pathname_validate_file pathname_validate_target blocksize
        (S (length nodes)) (tree_depth (root idx)) true false (nodes, ltfs_index_alloc) =
      XOk (tt, ([], read_back c (idx <| root := r |>))).
Proof. by apply index_document. Qed.
