(* ===== verification/IndexXmlWitness.v ===== *)
(** * An index on which the round trip applies

    A volume with a directory, a file with an encoded name, extents, attributes
    (one of them binary) and a preserved tag, a symbolic link, a comment and a
    policy.  The parameters are simple functions with the laws that the theorem
    asks for. *)

From Stdlib Require Import String.
From S2P Require Import Prelude LtfsError Extents TapeLayer Journal Criteria Base64 KeyFormat Time Xml XmlProps IndexXml IndexXmlSafe IndexXmlProps.

Definition one_byte (l : list Z) : option nat := match l with [] => None | _ => Some 1%nat end.
Definition text_or_base64 (v : list Z) : Z := if forallb (in_range 32 126) v then 0 else 1.
Definition accept (p : path) : Z := 0.
Definition keep_name (p : path) : Z + path := inr p.

Lemma one_byte_ascii c s k : c < 0x80 -> one_byte (c :: s) = Some k -> k = 1%nat.
Proof. by intros _ [= <-]. Qed.

Lemma one_byte_positive s k : one_byte s = Some k -> (0 < k)%nat.
Proof. destruct s; [done|]. intros [= <-]. lia. Qed.

Lemma plain_base64 v : Forall is_byte v ->
  exists text, base64_encode v = text ++ base64_padding v /\ Base64.skip_spaces text = base64_digits v.
Proof.
  intros Hv. exists (base64_digits v). split; [done|]. pose proof (digits_ok v Hv) as Hd. unfold Base64.skip_spaces.
  induction Hd as [|x l Hx _ IH]; [done|]. rewrite filter_cons_True; [by rewrite IH|]. unfold is_digit64 in Hx. by bsplit.
Qed.

Definition t0 : ltfs_timespec := mk_time 1600000000 123456789.

Definition vendor_tag : list xnode := [XStart "vendor" [] false; XText [120]; XEnd "vendor"].

Definition file_ab : dent :=
  mk_dent (Some (mk_name true (str "a:b"))) (Some (str "a:b")) false false None false 3 1 9 9 4 t0 t0 t0 t0 t0
    [mk_extent 10 98 0 5 0; mk_extent 20 98 1 4 5]
    [mk_xattr (mk_name false (str "k")) (Some (str "v")); mk_xattr (mk_name false (str "bin")) (Some [0; 255]);
     mk_xattr (mk_name false (str "ltfs.vendor.Aurora.immutable")) (Some (str "1"))]
    true false true [vendor_tag].

Definition link_l : dent :=
  mk_dent (Some (mk_name false (str "l"))) (Some (str "l")) false true (Some (mk_name false (str "d/a:b"))) false 4 1 5 0 0
    t0 t0 t0 t0 t0 [] [] false false true [].

Definition dir_d : dent :=
  mk_dent (Some (mk_name false (str "d"))) (Some (str "d")) true false None true 2 2 0 0 0 t0 t0 t0 t0 t0 [] [] false false false [].

Definition root_node : dent :=
  mk_dent (Some (mk_name false (str "/"))) (Some (str "/")) true false None false 1 3 0 0 0 t0 t0 t0 t0 t0 [] [] false false true [].

Definition small_tree : dtree := DTree root_node [DTree dir_d [DTree file_ab []]; DTree link_l []].

Definition small_index : ltfs_index :=
  mk_index (str "old creator") (str "01234567-89ab-cdef-0123-456789abcdef") (Some (mk_name false (str "VOL"))) 7 t0
    (mk_offset 97 5) (mk_offset 98 30) true
    (mk_criteria true 4096 (Some [mk_name false (str "*.txt")]) None) (mk_criteria false 0 None None)
    small_tree 2 4 4 (Some (str "a comment")) 20400 20500 [] [] LOCKED_MAM.

Lemma t0_ok : time_ok t0.
Proof. unfold time_ok, LTFS_TIME_T_MIN, LTFS_TIME_T_MAX, LTFS_NSEC_MIN, LTFS_NSEC_MAX. cbn. lia. Qed.

Abbreviation good_name := (good_name one_byte keep_name accept accept).
Abbreviation good_entry := (good_entry one_byte text_or_base64 base64_encode keep_name accept accept (Some 4)).

Lemma plain_name k n : name n <> [] -> percent_encode n = false -> good_name k n.
Proof. intros Hn Hp. split; [done|]. split; [by rewrite Hp|]. by destruct k. Qed.

Ltac every := repeat (apply Forall_cons; split); [..|apply Forall_nil; exact I].

Lemma file_ab_good : good_entry 4 (DTree file_ab []).
Proof.
  apply good_entry_file. split.
  { eexists. split; [done|]. split; [|done]. split; [done|]. split; [|done]. intros _. split; [change (Forall name_byte [97; 58; 98]); every; unfold name_byte, is_byte; lia|done]. }
  split; [|split; [done|split; [done|split; [unfold in_u64; cbn; lia|]]]].
  - split; [repeat split; apply t0_ok|]. split; [cbn; lia|]. split.
    { every; (split; [by apply plain_name|]); cbn; try done. split; [lia|]. split; [done|]. split; [every; unfold is_byte; lia|done]. }
    do 2 (split; [done|]). split; [|done]. every. by split.
  - cbn. unfold in_u64, in_u32. split; [done|]. unfold good_extent, extent_end, in_u64, in_u32. cbn. lia.
Qed.

(** Files and directories without attributes and extents. *)
Lemma plain_meta known d : times_ok d -> 1 <= uid d <= 4 -> xattrlist d = [] -> preserved_tags d = [] -> extentlist d = [] ->
  is_immutable d = false -> is_appendonly d = false -> realsize d = 0 -> used_blocks d = 0 ->
  good_meta one_byte text_or_base64 base64_encode keep_name accept accept (Some 4) 4 known d.
Proof. intros Ht Hu Hx Hp He Hi Ha Hr Hb. unfold good_meta. rewrite Hx, Hp, He, Hi, Ha, Hr, Hb.
  repeat (split; [first [exact Ht|lia|by apply Forall_nil|done]|]). done.
Qed.

Lemma link_l_good : good_entry 4 (DTree link_l []).
Proof.
  apply good_entry_file. split; [eexists; split; [done|]; split; [by apply plain_name|done]|].
  split; [by apply plain_meta|].
  do 2 (split; [done|]). split; [unfold in_u64; cbn; lia|]. split; [done|]. eexists. split; [done|]. by apply plain_name.
Qed.

Lemma dir_d_good : good_entry 4 (DTree dir_d [DTree file_ab []]).
Proof.
  apply good_entry_dir; [|eexists; split; [done|]; split; [by apply plain_name|done]|done|every; apply file_ab_good].
  split; [by apply plain_meta|].
  do 6 (split; [done|]). split; [unfold in_u32; cbn; lia|]. apply NoDup_singleton.
Qed.

Lemma small_index_good :
  good_index one_byte text_or_base64 base64_encode keep_name accept accept (Some 4) small_index.
Proof.
  constructor; try done.
  - right. by split.
  - split; [done|]. split; [done|]. split; [done|]. every. by apply plain_name.
  - split; [|split; [done|split; [done|split; [done|every; [apply dir_d_good|apply link_l_good]]]]].
    split; [by apply plain_meta|]. do 7 (split; [done|]). apply NoDup_cons. split; [|apply NoDup_singleton].
    by intros H%list_elem_of_singleton.
  - right. by left.
Qed.

(** The index is written and read back, from the plain nodes and from an indented document. *)
Lemma index_round_trip_witness :
  exists ts r, sorted_tree small_tree r /\ reads_as ts (snd <$> ts) /\
    _xml_parse_schema keep_name accept accept (Some 4) (S (length ts)) 3 true false (snd <$> ts, ltfs_index_alloc) =
    XOk (tt, ([], read_back (str "new creator") (small_index <| root := r |>))).
Proof.
  destruct (index_round_trip one_byte one_byte_ascii one_byte_positive text_or_base64 base64_encode plain_base64 keep_name accept
    accept (Some 4) id (fun l => reflexivity l) (str "new creator") small_index ltac:(done) small_index_good) as (ts & r & _ & Hr & H).
  exists ts, r. split; [exact Hr|]. split; [apply reads_plain|]. rewrite <- (H _ (reads_plain ts)). by rewrite length_fmap.
Defined.

Definition nodes_of (idx : ltfs_index) : list xnode :=
  match _xml_write_schema one_byte text_or_base64 base64_encode id 3 (str "c") idx with
  | Some (ts, _) => snd <$> ts
  | None => []
  end.

Definition read_nodes (nodes : list xnode) : option ltfs_index :=
  match _xml_parse_schema keep_name accept accept (Some 4) (length nodes) 3 true false (nodes, ltfs_index_alloc) with
  | XOk (_, (_, idx)) => Some idx
  | _ => None
  end.

Definition small_nodes : list xnode := nodes_of small_index.
Definition small_read : ltfs_index := default ltfs_index_alloc (read_nodes small_nodes).

Lemma accepted_index_is_sound_witness :
  file_count small_read = 2 /\ sound_root accept accept (uid_number small_read) (root small_read).
Proof.
  split; [vm_compute; reflexivity|].
  apply (accepted_index_is_sound keep_name accept accept (Some 4) (length small_nodes) 3 true false small_nodes [] small_read).
  vm_compute. reflexivity.
Defined.

(** A file with the uid of the root is accepted: only directories are checked for it. *)
Example file_uid_one_accepted :
  (fun idx => (uid (node (root idx)), (fun t => (isdir (node t), uid (node t))) <$> child_list (root idx))) <$>
    read_nodes (nodes_of (small_index <| root := DTree root_node [DTree (link_l <| uid := 1 |>) []] |>)) =
  Some (1, [(false, 1)]).
Proof. vm_compute. reflexivity. Qed.
