(* ===== verification/IndexSorted.v ===== *)
(** * An index stays in good order when it is written

    The writer sorts the directories and marks the dentries clean; the index
    that is left is again one that can be written and read back. *)

From Stdlib Require Import String.
From S2P Require Import Prelude LtfsError Extents TapeLayer Journal Criteria Base64 Time TimeProps Xml XmlProps IndexXml IndexXmlProps.

Lemma foldr_max_le l k : (foldr max 0 l <= k)%nat <-> Forall (fun x => x <= k)%nat l.
Proof.
  induction l as [|x l IH]; cbn; [split; [constructor|lia]|]. rewrite Forall_cons, <- IH. lia.
Qed.

Section sorted.
Context (u8_next : list Z -> option nat) (validate_xattr_value : list Z -> Z) (write_base64 : list Z -> list Z).
Context (pathname_normalize : path -> Z + path) (pathname_validate_file pathname_validate_target : path -> Z) (blocksize : option Z).

Abbreviation good_entry := (good_entry u8_next validate_xattr_value write_base64 pathname_normalize pathname_validate_file pathname_validate_target blocksize).
Abbreviation good_dir := (good_dir u8_next validate_xattr_value write_base64 pathname_normalize pathname_validate_file pathname_validate_target blocksize).
Abbreviation good_root := (good_root u8_next validate_xattr_value write_base64 pathname_normalize pathname_validate_file pathname_validate_target blocksize).
Abbreviation good_index := (good_index u8_next validate_xattr_value write_base64 pathname_normalize pathname_validate_file pathname_validate_target blocksize).

(** The sorted tree has the same dentries, counts and depth, and is in good order. *)
Record kept (t r : dtree) : Prop := {
  kept_node : node r = (node t) <| dirty := false |>;
  kept_files : tree_files r = tree_files t;
  kept_blocks : inner_blocks r = inner_blocks t;
  kept_depth : (tree_depth r <= tree_depth t)%nat;
  kept_good highest : good_entry highest t -> good_entry highest r;
}.

Lemma kept_sum (f : dtree -> Z) ch cs ch' : ch ≡ₚ cs -> Forall2 kept cs ch' -> (forall t r, kept t r -> f r = f t) ->
  zsum (f <$> ch') = zsum (f <$> ch).
Proof.
  intros Hp Hk Hf. apply (fmap_Permutation f) in Hp. rewrite (zsum_perm _ _ Hp). f_equal. clear Hp.
  induction Hk as [|t r cs ch' Ht _ IH]; [done|]. cbn. by rewrite (Hf _ _ Ht), IH.
Qed.

Lemma kept_dir highest d ch cs ch' : ch ≡ₚ cs -> Forall2 kept cs ch' -> good_dir highest d ch -> good_dir highest (d <| dirty := false |>) ch'.
Proof.
  intros Hp Hk (Hm & Hd & Hl & Ht & Hs & He & Hc & Hb & Hn).
  split; [exact Hm|]. do 5 (split; [done|]). split.
  { cbn. rewrite Hc. unfold count_dirs. f_equal. symmetry. apply (kept_sum _ ch cs); [done|done|]. intros t r Hk'. by rewrite (kept_node _ _ Hk'). }
  split; [done|]. replace ((fun c => platform_safe_name (node c)) <$> ch') with ((fun c => platform_safe_name (node c)) <$> cs).
  - by rewrite <- Hp.
  - clear -Hk. induction Hk as [|t r cs ch' Ht _ IH]; [done|]. cbn. by rewrite (kept_node _ _ Ht), IH.
Qed.

Lemma kept_entries highest ch cs ch' : ch ≡ₚ cs -> Forall2 kept cs ch' -> Forall (good_entry highest) ch -> Forall (good_entry highest) ch'.
Proof.
  intros Hp Hk Hg. rewrite Hp in Hg. clear Hp. induction Hk as [|t r cs ch' Ht _ IH]; [constructor|]. apply Forall_cons in Hg as [H1 H2].
  constructor; [by apply (kept_good _ _ Ht)|by apply IH].
Qed.

Lemma sorted_kept n : forall t r, (tree_depth t <= n)%nat -> sorted_tree t r -> kept t r.
Proof.
  induction n as [|n IH]; intros t r Hn Hs; [destruct t; cbn in Hn; lia|]. destruct Hs as [d ch cs ch' Hp Hs].
  assert (Hk : Forall2 kept cs ch').
  { assert (Hsmall : forall c, c ∈ cs -> (tree_depth c <= n)%nat).
    { intros c Hc. rewrite <- Hp in Hc. pose proof (depth_child d ch c Hc). lia. }
    clear -IH Hs Hsmall. induction Hs as [|t r cs ch' Ht _ IHl]; [constructor|]. constructor.
    - apply IH; [|done]. apply Hsmall. left.
    - apply IHl. intros c Hc. apply Hsmall. by right. }
  split.
  - done.
  - cbn. f_equal. apply (kept_sum _ ch cs); [done|done|]. by intros ?? [].
  - cbn. apply (kept_sum _ ch cs); [done|done|]. intros ?? [Hx _ Hy _ _]. by rewrite Hx, Hy.
  - cbn. apply le_n_S, foldr_max_le, Forall_fmap, Forall_forall. intros r Hr. cbn.
    assert (exists t, t ∈ cs /\ kept t r) as (t & Ht & Hk1).
    { clear -Hk Hr. induction Hk as [|t r' cs ch' Ht _ IHl]; [by apply not_elem_of_nil in Hr|]. apply elem_of_cons in Hr as [->|Hr].
      - exists t. split; [left|done].
      - destruct (IHl Hr) as (t' & ? & ?). exists t'. split; [by right|done]. }
    rewrite <- Hp in Ht. pose proof (depth_child d ch t Ht). pose proof (kept_depth _ _ Hk1). cbn in *. lia.
  - intros highest Hg. inversion Hg as [e He|e k He Hname Huid Hall]; subst.
    + apply Permutation_nil in Hp. rewrite Hp in Hk. inversion Hk; subst. apply good_entry_file. exact He.
    + apply good_entry_dir; [by eapply kept_dir|exact Hname|exact Huid|by eapply kept_entries].
Qed.

Lemma sorted_root highest t r : sorted_tree t r -> good_root highest t -> good_root highest r.
Proof.
  intros Hs (Hd & Hu & Hn & Hsafe & Hch). destruct Hs as [d ch cs ch' Hp Hs].
  assert (Hk : Forall2 kept cs ch') by (eapply Forall2_impl; [exact Hs|]; intros ???; by eapply sorted_kept).
  split; [by eapply kept_dir|]. do 3 (split; [done|]). by eapply kept_entries.
Qed.

Lemma sorted_index idx r : sorted_tree (root idx) r -> good_index idx -> good_index (idx <| root := r |>) /\ (tree_depth r <= tree_depth (root idx))%nat.
Proof.
  intros Hs [? ? ? ? ? ? ? Hr ? [Hf1 Hf2] [Hb1 Hb2] ? ? ? ? ?]. pose proof Hs as [Hn Hf Hb Hd _]%(sorted_kept (tree_depth (root idx))); [|done].
  split; [|done]. constructor; try done.
  - by eapply sorted_root.
  - cbn. by rewrite Hf.
  - cbn. by rewrite Hb.
Qed.
End sorted.
