(* ===== verification/Label.v ===== *)
(** * Labels (src/libltfs/label.c, xml_reader_libltfs.c, xml_writer_libltfs.c, ltfs_internal.c, ltfs.c)

    Each partition of a volume starts with a label: an ANSI label of 80 bytes, a
    file mark, an XML label, a file mark.  The label holds the parameters of the
    format and tells which partition it is on.  This file models how labels are
    made, written through the tape layer, read back and compared.

    [print_xml] and [read_xml] stand for libxml2: the bytes of a document, and
    the nodes of a document with the flag whether its encoding is UTF-8.
    Memory is never short, and the volume has no key manager. *)

From Stdlib Require Import String.
From S2P Require Import Prelude LtfsError TapeOps TapeLayer Base64 KeyFormat Time Xml IndexXml.

Local Open Scope rd_scope.

(** [struct ltfs_label]; strings without their terminator. *)
Record ltfs_label := mk_label {
  l_creator : list Z;
  l_version : Z;
  barcode : list Z;
  l_vol_uuid : list Z;
  format_time : ltfs_timespec;
  l_blocksize : Z;
  enable_compression : bool;
  this_partition : Z;
  partid_dp : Z;
  partid_ip : Z;
  part_num2id : arr2 Z;
}.

#[export] Instance eta_label : Eta ltfs_label := fun l =>
  mk_label (l_creator l) (l_version l) (barcode l) (l_vol_uuid l) (format_time l) (l_blocksize l) (enable_compression l)
    (this_partition l) (partid_dp l) (partid_ip l) (part_num2id l).

Definition LTFS_LABEL_VERSION_MIN : Z := MAKE_LTFS_VERSION 1 0 0.
Definition LTFS_LABEL_VERSION_MAX : Z := MAKE_LTFS_VERSION 2 99 99.
Definition LTFS_LABEL_VERSION : Z := MAKE_LTFS_VERSION 2 5 0.
Definition LTFS_LABEL_MAX : Z := 4096.
Definition LTFS_MIN_BLOCKSIZE : Z := 4096.
Definition NO_BARCODE : list Z := str "      ".

Definition label_alloc : ltfs_label :=
  mk_label [] LTFS_LABEL_VERSION [] [] (mk_time 0 0) 0 false 0 0 0 (0, 0).

(** ** The parameters of a new volume (ltfs.c) *)

Definition ltfs_set_blocksize (size : Z) (l : ltfs_label) : Z * ltfs_label :=
  if size <? LTFS_MIN_BLOCKSIZE then (- LTFS_SMALL_BLOCKSIZE, l) else (0, l <| l_blocksize := size |>).

Definition ltfs_set_compression (enable : bool) (l : ltfs_label) : Z * ltfs_label := (0, l <| enable_compression := enable |>).

Definition barcode_char (c : Z) : bool := in_range 48 57 c || in_range 65 90 c.

Definition ltfs_set_barcode (b : option (list Z)) (l : ltfs_label) : Z * ltfs_label :=
  match b with
  | Some ((_ :: _) as b) =>
      if negb (length b =? 6)%nat then (- LTFS_BARCODE_LENGTH, l)
      else if negb (forallb barcode_char b) then (- LTFS_BARCODE_INVALID, l)
      else (0, l <| barcode := b |>)
  | _ => (0, l <| barcode := NO_BARCODE |>)
  end.

Definition ltfs_set_partition_map (dp ip dp_num ip_num : Z) (l : ltfs_label) : Z * ltfs_label :=
  if (dp_num =? ip_num) || (negb (dp_num =? 0) && negb (dp_num =? 1)) || (negb (ip_num =? 0) && negb (ip_num =? 1))
  then (- LTFS_BAD_PARTNUM, l)
  else if negb (in_range 97 122 dp) || negb (in_range 97 122 ip) || (dp =? ip) then (- LTFS_BAD_PARTNUM, l)
  else (0, l <| partid_ip := ip |> <| partid_dp := dp |>
             <| part_num2id := a2set (a2set (part_num2id l) dp_num dp) ip_num ip |>).

Definition ltfs_part_id2num (id : Z) (l : ltfs_label) : Z :=
  if (part_num2id l).[0] =? id then 0 else if (part_num2id l).[1] =? id then 1 else 2 ^ 32 - 1.

Definition ltfs_is_valid_partid (id : Z) : bool := in_range 97 122 id.

(** ** The two labels of a partition *)

(** [memcpy] to an offset. *)
Definition copy_at (off : nat) (src buf : list Z) : list Z := take off buf ++ src ++ drop (off + length src) buf.

Definition label_make_ansi_label (l : ltfs_label) (size : nat) : list Z :=
  let label := replicate size 32 in
  let label := copy_at 0 (str "VOL1") label in
  let label := copy_at 4 (take 6 (barcode l)) label in
  let label := copy_at 10 (str "L") label in
  let label := copy_at 24 (str "LTFS") label in
  copy_at (size - 1) (str "4") label.

(** ["%ld"] of an unsigned long. *)
Definition print_ld (v : Z) : list Z := let i := i64 v in if i <? 0 then 45 :: print_u (- i) else print_u i.

Definition xml_make_label (creator : list Z) (partition : Z) (l : ltfs_label) : list token :=
  element "ltfslabel" [("version"%string, str "2.5.0")]
    (write_element "creator" creator ++
     write_element "formattime" (time_text (format_time l)) ++
     write_element "volumeuuid" (l_vol_uuid l) ++
     element "location" [] (write_element "partition" [(part_num2id l).[partition]]) ++
     element "partitions" [] (write_element "index" [partid_ip l] ++ write_element "data" [partid_dp l]) ++
     write_element "blocksize" (print_ld (l_blocksize l)) ++
     write_element "compression" (print_bool (enable_compression l))).

Section parser.
Variable turns : nat.

Definition location_tag (tag : string) (attrs : attributes) (empty : bool) (have : list bool) : rd ltfs_label (list bool) :=
  if (tag =? "partition")%string then
    have <- check_required_tag 0 have;;
    v <- tag_value tag empty _xml_parse_partition (-1);;
    rmodify (fun l => l <| this_partition := v |>);;;
    rret have
  else ignore_unrecognized_tag empty;;; rret have.

Definition _xml_parse_label_location : rd ltfs_label unit :=
  have <- parse_tags turns "location" location_tag [false];;
  check_required_tags have.

Definition partitions_tag (tag : string) (attrs : attributes) (empty : bool) (have : list bool) : rd ltfs_label (list bool) :=
  if (tag =? "index")%string then
    have <- check_required_tag 0 have;;
    v <- tag_value tag empty _xml_parse_partition (-1);;
    rmodify (fun l => l <| partid_ip := v |>);;;
    rret have
  else if (tag =? "data")%string then
    have <- check_required_tag 1 have;;
    v <- tag_value tag empty _xml_parse_partition (-1);;
    rmodify (fun l => l <| partid_dp := v |>);;;
    rret have
  else ignore_unrecognized_tag empty;;; rret have.

Definition _xml_parse_partition_map : rd ltfs_label unit :=
  have <- parse_tags turns "partitions" partitions_tag [false; false];;
  check_required_tags have.

(** A required tag with a text. *)
Definition label_value {A} (i : nat) (tag : string) (empty : bool) (parse : list Z -> option A) (code : Z)
    (set : A -> ltfs_label -> ltfs_label) (have : list bool) : rd ltfs_label (list bool) :=
  have <- check_required_tag i have;;
  v <- tag_value tag empty parse code;;
  rmodify (set v);;;
  rret have.

Definition parse_blocksize (v : list Z) : option Z :=
  n ← xml_parse_ull v; if n =? 0 then None else Some n.

Definition label_tag (tag : string) (attrs : attributes) (empty : bool) (have : list bool) : rd ltfs_label (list bool) :=
  if (tag =? "creator")%string then
    label_value 0 tag empty Some 0 (fun v l => l <| l_creator := v |>) have
  else if (tag =? "formattime")%string then
    label_value 1 tag empty parse_time (- LTFS_XML_WRONG_FTIME_L) (fun v l => l <| format_time := v |>) have
  else if (tag =? "volumeuuid")%string then
    label_value 2 tag empty xml_parse_uuid (- LTFS_XML_WRONG_UUID) (fun v l => l <| l_vol_uuid := v |>) have
  else if (tag =? "location")%string then
    have <- check_required_tag 3 have;;
    assert_not_empty empty;;;
    rcatch _xml_parse_label_location (- LTFS_XML_WRONG_LOC);;;
    rret have
  else if (tag =? "partitions")%string then
    have <- check_required_tag 4 have;;
    assert_not_empty empty;;;
    rcatch _xml_parse_partition_map (- LTFS_XML_WRONG_PART_MAP);;;
    rret have
  else if (tag =? "blocksize")%string then
    label_value 5 tag empty parse_blocksize (- LTFS_XML_WRONG_BLOCKSIZE) (fun v l => l <| l_blocksize := v |>) have
  else if (tag =? "compression")%string then
    label_value 6 tag empty xml_parse_bool (- LTFS_XML_WRONG_COMP) (fun v l => l <| enable_compression := v |>) have
  else ignore_unrecognized_tag empty;;; rret have.

Definition _xml_parse_label (utf8 : bool) : rd ltfs_label unit :=
  v <- _xml_parser_init utf8 "ltfslabel" LTFS_LABEL_VERSION_MIN LTFS_LABEL_VERSION_MAX;;
  rmodify (fun l => l <| l_version := v |>);;;
  have <- parse_tags turns "ltfslabel" label_tag (replicate 7 false);;
  check_required_tags have.
End parser.

(** ** Comparing labels *)

Definition time_eqb (a b : ltfs_timespec) : bool := (tv_sec a =? tv_sec b) && (tv_nsec a =? tv_nsec b).

(** [strncmp(a, b, n) == 0]. *)
Definition strncmp_eq (n : nat) (a b : list Z) : bool := bool_decide (take n a = take n b).

Definition is_partition_of (l : ltfs_label) (id : Z) : bool := (id =? partid_dp l) || (id =? partid_ip l).

Definition label_compare (l1 l2 : ltfs_label) : Z :=
  if negb (strncmp_eq 6 (barcode l1) (barcode l2)) then - LTFS_LABEL_MISMATCH
  else if negb (strncmp_eq 36 (l_vol_uuid l1) (l_vol_uuid l2)) then - LTFS_LABEL_MISMATCH
  else if negb (time_eqb (format_time l1) (format_time l2)) then - LTFS_LABEL_MISMATCH
  else if negb (l_blocksize l1 =? l_blocksize l2) then - LTFS_LABEL_MISMATCH
  else if negb (Bool.eqb (enable_compression l1) (enable_compression l2)) then - LTFS_LABEL_MISMATCH
  else if negb (ltfs_is_valid_partid (partid_dp l1)) || negb (ltfs_is_valid_partid (partid_ip l1)) then - LTFS_LABEL_MISMATCH
  else if partid_dp l1 =? partid_ip l1 then - LTFS_LABEL_MISMATCH
  else if negb (partid_dp l2 =? partid_dp l1) || negb (partid_ip l2 =? partid_ip l1) then - LTFS_LABEL_MISMATCH
  else if negb (is_partition_of l1 (this_partition l1)) || negb (is_partition_of l1 (this_partition l2)) then - LTFS_LABEL_MISMATCH
  else if this_partition l1 =? this_partition l2 then - LTFS_LABEL_MISMATCH
  else if negb (l_version l1 =? l_version l2) then - LTFS_LABEL_MISMATCH
  else if negb (char_at (barcode l1) 0 =? 32) && negb (forallb barcode_char (barcode l1)) then - LTFS_LABEL_MISMATCH
  else 0.

(** ** On tape *)

Section tape.
Context {S : Type} `{TapeOps S}.
Variable print_xml : list token -> list Z.
Variable read_xml : list Z -> bool * list xnode.
Variable now : ltfs_timespec.
Implicit Types d : device_data S.

Definition ltfs_write_label (creator : list Z) (l : ltfs_label) (partition : Z) d : Z * device_data S :=
  let '(ret, d) := tape_seek now d (mk_position 0 0 partition false false) in
  if ret <? 0 then (ret, d)
  else
    let '(nw, d) := tape_write now d (label_make_ansi_label l 80) true false in
    if nw <? 0 then (nw, d)
    else
      let '(ret, d) := tape_write_filemark now d 1 true false true in
      if ret <? 0 then (ret, d)
      else
        let '(nw, d) := tape_write now d (print_xml (xml_make_label creator partition l)) true false in
        if nw <? 0 then (- nw, d)
        else
          let '(ret, d) := tape_write_filemark now d 1 true false true in
          if ret <? 0 then (ret, d) else (0, d).

(** [xml_label_from_mem] *)
Definition xml_label_from_mem (buf : list Z) (l : ltfs_label) : Z * ltfs_label :=
  let '(utf8, nodes) := read_xml buf in
  match _xml_parse_label (Datatypes.S (length nodes)) utf8 (nodes, l) with
  | XOk (_, (_, l')) => (0, l')
  | _ => (- LTFS_LABEL_INVALID, l)
  end.

(** A read that must meet a file mark. *)
Definition read_filemark d : Z * device_data S :=
  let '(nread, _, d) := tape_read now None d LTFS_LABEL_MAX true in
  if nread <? 0 then (if nread =? - EDEV_EOD_DETECTED then - LTFS_LABEL_INVALID else nread, d)
  else if 0 <? nread then (- LTFS_LABEL_INVALID, d)
  else (0, d).

(** From the file mark behind the ANSI label on. *)
Definition read_xml_label (l : ltfs_label) d : Z * ltfs_label * device_data S :=
  let '(ret, d) := read_filemark d in
  if ret <? 0 then (ret, l, d)
  else
    let '(nread, buf, d) := tape_read now None d LTFS_LABEL_MAX true in
    if nread <? 0 then (if nread =? - EDEV_EOD_DETECTED then - LTFS_LABEL_INVALID else nread, l, d)
    else
      let '(ret, l) := xml_label_from_mem buf l in
      if ret <? 0 then (ret, l, d)
      else let '(ret, d) := read_filemark d in (ret, l, d).

(** [max_blocksize] is the answer of [tape_get_max_blocksize]. *)
Definition ltfs_read_one_label (max_blocksize : Z * Z) (partition : Z) (l : ltfs_label) d : Z * ltfs_label * device_data S :=
  let '(ret, bufsize) := max_blocksize in
  if ret <? 0 then (ret, l, d)
  else if bufsize <? LTFS_LABEL_MAX then (- LTFS_SMALL_BLOCKSIZE, l, d)
  else
    let '(ret, d) := tape_seek now d (mk_position 0 0 partition false false) in
    if ret <? 0 then (if (ret <=? - LTFS_ERR_MIN) && (partition =? 1) then - LTFS_NOT_PARTITIONED else ret, l, d)
    else
      let '(nread, buf, d) := tape_read now None d LTFS_LABEL_MAX true in
      if nread <? 0 then
        (if (nread =? - EDEV_EOD_DETECTED) || (nread =? - EDEV_RECORD_NOT_FOUND) then - LTFS_LABEL_INVALID else nread, l, d)
      else if nread <? 80 then (- LTFS_LABEL_INVALID, l, d)
      else
        let too_long := 80 <? nread in
        let l := l <| barcode := until_nul (take 6 (drop 4 buf)) |> in
        if negb (bool_decide (until_nul (take 4 (drop 24 buf)) = str "LTFS")) then (- LTFS_LABEL_INVALID, l, d)
        else
          let '(ret, l, d) := read_xml_label l d in
          (if negb (ret =? 0) && too_long then - LTFS_LABEL_POSSIBLE_VALID else ret, l, d).

(** The label of the volume; [this_partition] is not stored. *)
Definition store_label (l0 l1 vol : ltfs_label) : ltfs_label :=
  mk_label (l_creator l0) (l_version l0) (take 6 (barcode l0)) (take 36 (l_vol_uuid l0)) (format_time l0) (l_blocksize l0)
    (enable_compression l0) (this_partition vol) (partid_dp l0) (partid_ip l0) (this_partition l0, this_partition l1).

Definition ltfs_read_labels (max_blocksize : Z * Z) (vol : ltfs_label) d : Z * ltfs_label * device_data S :=
  let '(ret, label0, d) := ltfs_read_one_label max_blocksize 0 label_alloc d in
  if ret <? 0 then (ret, vol, d)
  else
    let '(ret, label1, d) := ltfs_read_one_label max_blocksize 1 label_alloc d in
    if ret <? 0 then (ret, vol, d)
    else
      let ret := label_compare label0 label1 in
      if ret <? 0 then (ret, vol, d) else (ret, store_label label0 label1 vol, d).
End tape.
