(* ===== verification/TapeSpace.v ===== *)
(** * Spacing over file marks (src/libltfs/tape_ops.h, tape.c)

    The contract of the backend function [space] for file marks, its proof for
    the file backend, and what [tape_spacefm] and [tape_seek_eod] make of it.
    [carries_out] says that a drive does a given list of moves and reads: what a
    statement about reading a tape has to assume, for exactly the calls that the
    code makes. *)

From S2P Require Import Prelude LtfsError TapeOps FileDebug FileDebugLaws TapeLayer.

(** ** The contract *)

(** How many records have to be passed until [count] file marks were. *)
Fixpoint fm_skip (count : nat) (l : list tape_record) : option nat :=
  match count with
  | O => Some O
  | S c =>
      match l with
      | [] => None
      | TFilemark :: l' => S <$> fm_skip c l'
      | TData _ :: l' => S <$> fm_skip count l'
      end
  end.

Definition records_after (m : medium) : list tape_record := drop (Z.to_nat (m_block m)) (m_log m (m_part m)).
Definition records_before (m : medium) : list tape_record := reverse (take (Z.to_nat (m_block m)) (m_log m (m_part m))).

(** The device ends immediately behind the last file mark skipped forward, or
    immediately in front of the last one skipped backward; there have to be that
    many.  A backward move starts behind some record. *)
Class SpaceLaws (S : Type) `{TapeLaws S} := {
  space_forward_law s m count pos r s' pos' :
    tape_rep s m -> at_head m pos -> 0 < count -> op_space s count TC_SPACE_FM_F pos = (r, s', pos') -> 0 <= r ->
    r = 0 /\ exists n, fm_skip (Z.to_nat count) (records_after m) = Some n /\
      tape_rep s' (m_move m (m_part m) (m_block m + Z.of_nat n)) /\
      at_head (m_move m (m_part m) (m_block m + Z.of_nat n)) pos';
  space_backward_law s m count pos r s' pos' :
    tape_rep s m -> at_head m pos -> 0 < count -> 0 < m_block m ->
    op_space s count TC_SPACE_FM_B pos = (r, s', pos') -> 0 <= r ->
    r = 0 /\ exists n, fm_skip (Z.to_nat count) (records_before m) = Some n /\
      tape_rep s' (m_move m (m_part m) (m_block m - Z.of_nat n)) /\
      at_head (m_move m (m_part m) (m_block m - Z.of_nat n)) pos';
}.

(** ** Lemmas on file marks *)

Definition data_only (l : list tape_record) : Prop := Forall (fun r => r <> TFilemark) l.

Lemma fm_skip_0 l : fm_skip 0 l = Some 0%nat.
Proof. by destruct l. Qed.

Lemma fm_skip_record c b l : fm_skip (S c) (TData b :: l) = (S <$> fm_skip (S c) l).
Proof. done. Qed.

Lemma fm_skip_mark c l : fm_skip (S c) (TFilemark :: l) = (S <$> fm_skip c l).
Proof. done. Qed.

Lemma fm_skip_data l k c : data_only l -> fm_skip (S c) (l ++ k) = (Nat.add (length l) <$> fm_skip (S c) k).
Proof.
  intros Hl. induction Hl as [|r l Hr Hl IH]; [by rewrite app_nil_l; destruct (fm_skip (S c) k)|]. destruct r; [|done].
  rewrite <- app_comm_cons, fm_skip_record, IH. by destruct (fm_skip (S c) k).
Qed.

Lemma fm_skip_length c l n : fm_skip c l = Some n -> (n <= length l)%nat.
Proof.
  revert c n. induction l as [|r l IH]; intros [|c] n E; try (injection E as <-; cbn; lia); [done|].
  destruct r; [rewrite fm_skip_record in E; destruct (fm_skip (S c) l) eqn:E1|rewrite fm_skip_mark in E; destruct (fm_skip c l) eqn:E1]; try done;
    injection E as <-; apply IH in E1; cbn; lia.
Qed.

(** ** The file backend *)

Section filedebug.
Context `{Host}.

Lemma rep_after s m : fd_rep s m -> cur_eod s <> cur_block s ->
  exists rec, records_after m = rec :: records_after (m_move m (m_part m) (m_block m + 1)) /\
    rec_at (files s) (cur_partition s) (cur_block s) rec.
Proof.
  intros Hrep Hne. destruct (rep_here s m Hrep Hne) as (rec & Hhere & Hrec). exists rec. split; [|done].
  destruct Hrep as (_ & (_ & Hb0 & _) & _). unfold records_after. cbn. rewrite Z2Nat.inj_add by lia.
  rewrite Nat.add_1_r. by apply drop_S.
Qed.

Lemma is_filemark s rec : rec_at (files s) (cur_partition s) (cur_block s) rec ->
  (_filedebug_check_file s (cur_key s SUFFIX_FILEMARK) <? 0) = false ->
  (0 <? _filedebug_check_file s (cur_key s SUFFIX_FILEMARK)) = bool_decide (rec = TFilemark).
Proof.
  intros [_ Hrec] Hf. destruct (0 <? _) eqn:Hf2.
  - destruct (check_file_some _ _ Hf Hf2) as [d Hd]. destruct rec; [|by rewrite bool_decide_true].
    destruct Hrec as [Hrec _]. unfold cur_key in Hd. congruence.
  - pose proof (check_file_none _ _ Hf Hf2) as Hn. destruct rec; [by rewrite bool_decide_false|].
    destruct Hrec. unfold cur_key in Hn. congruence.
Qed.

Lemma rep_eod s m : fd_rep s m -> cur_eod s = m_eod m (m_part m) /\ m_eod m (m_part m) < 2 ^ 62.
Proof.
  intros (_ & (Hpart & _) & Hp & _ & R0 & R1). unfold cur_eod, m_eod. rewrite Hp.
  destruct R0 as (? & ? & _), R1 as (? & ? & _). by destruct Hpart as [-> | ->].
Qed.

Lemma rep_step s m : fd_rep s m -> m_block m < m_eod m (m_part m) ->
  fd_rep (next_block s) (m_move m (m_part m) (m_block m + 1)).
Proof.
  intros Hrep Hlt. destruct (rep_eod s m Hrep) as [_ Hmax]. pose proof Hrep as (_ & (Hpart & Hb0 & _) & Hp & Hb & _).
  pose proof (rep_move s m (m_part m) (m_block m + 1) (cur_filemarks s) Hrep Hpart ltac:(lia)) as HR.
  unfold next_block. rewrite Hb. nowrap. rewrite <- Hp in HR at 1. exact HR.
Qed.

Lemma space_forward_ok fuel : forall s m count fm r s', fd_rep s m -> 0 <= fm < count ->
  space_fm_forward s count fm fuel = (r, s') -> 0 <= r ->
  r = 0 /\ exists n, fm_skip (Z.to_nat (count - fm)) (records_after m) = Some n /\
    fd_rep s' (m_move m (m_part m) (m_block m + Z.of_nat n)).
Proof.
  induction fuel as [|fuel IH]; intros s m count fm r s' Hrep Hfm E Hr; cbn in E.
  { destruct (_ =? _); [injection E as <- <-; neg_ret Hr|]. destruct (_ =? _); injection E as <- <-; neg_ret Hr. }
  destruct (Z.eqb_spec (cur_block s) (cur_eod s)) as [|Hne]; [injection E as <- <-; neg_ret Hr|].
  destruct (_ =? _); [injection E as <- <-; neg_ret Hr|]. destruct (host_fail _ _); [injection E as <- <-; neg_ret Hr|].
  destruct (_filedebug_check_file _ _ <? 0) eqn:Hf; [injection E as <- <-; bsplit; lia|].
  destruct (rep_after s m Hrep ltac:(congruence)) as (rec & Hrec & Hat). rewrite (is_filemark _ _ Hat Hf) in E.
  destruct (rep_eod s m Hrep) as [He _]. pose proof Hrep as (_ & (_ & Hb0 & Hble) & _ & Hb & _).
  pose proof (rep_step s m Hrep ltac:(lia)) as Hrep'. rewrite Hrec.
  replace (Z.to_nat (count - fm)) with (S (Z.to_nat (count - fm - 1))) by lia. destruct rec as [d|].
  - rewrite bool_decide_false in E by done. cbn [andb] in E.
    destruct (IH _ _ _ _ _ _ Hrep' Hfm E Hr) as (-> & n & Hn & HR). split; [done|]. exists (S n).
    replace (Z.to_nat (count - fm)) with (S (Z.to_nat (count - fm - 1))) in Hn by lia. cbn [m_move m_part m_block] in *.
    rewrite fm_skip_record, Hn. split; [done|]. by replace (m_block m + Z.of_nat (S n)) with (m_block m + 1 + Z.of_nat n) by lia.
  - rewrite bool_decide_true in E by done. cbn [andb] in E. destruct (Z.eqb_spec (fm + 1) count) as [<-|Hc].
    + injection E as <- <-. split; [done|]. exists 1%nat. replace (Z.to_nat (fm + 1 - fm - 1)) with 0%nat by lia. rewrite fm_skip_mark, fm_skip_0. split; [done|]. exact Hrep'.
    + destruct (IH _ _ count (fm + 1) _ _ Hrep' ltac:(lia) E Hr) as (-> & n & Hn & HR). split; [done|]. exists (S n).
      replace (count - (fm + 1)) with (count - fm - 1) in Hn by lia. cbn [m_move m_part m_block] in *.
      rewrite fm_skip_mark, Hn. split; [done|]. by replace (m_block m + Z.of_nat (S n)) with (m_block m + 1 + Z.of_nat n) by lia.
Qed.

(** A backward scan looks at the record under the head. *)
Lemma space_backward_ok fuel : forall s m count fm r s', fd_rep s m -> 0 <= fm < count ->
  m_block m < m_eod m (m_part m) -> space_fm_backward s count fm fuel = (r, s') -> 0 <= r ->
  r = 0 /\ exists n, fm_skip (Z.to_nat (count - fm)) (records_before (m_move m (m_part m) (m_block m + 1))) = Some n /\
    fd_rep s' (m_move m (m_part m) (m_block m + 1 - Z.of_nat n)).
Proof.
  assert (Hstep : forall s m, fd_rep s m -> m_block m < m_eod m (m_part m) -> exists rec,
    records_before (m_move m (m_part m) (m_block m + 1)) = rec :: records_before m /\
    rec_at (files s) (cur_partition s) (cur_block s) rec).
  { intros s m Hrep Hlt. destruct (rep_eod s m Hrep) as [He _]. pose proof Hrep as (_ & (_ & Hb0 & _) & _ & Hb & _).
    destruct (rep_here s m Hrep ltac:(lia)) as (rec & Hhere & Hat). exists rec. split; [|done]. unfold records_before. cbn.
    rewrite Z2Nat.inj_add, Nat.add_1_r by lia. erewrite take_S_r by exact Hhere. by rewrite reverse_snoc. }
  induction fuel as [|fuel IH]; intros s m count fm r s' Hrep Hfm Hlt E Hr; cbn [space_fm_backward] in E;
    (destruct (host_fail _ _); [injection E as <- <-; neg_ret Hr|]);
    (destruct (_filedebug_check_file _ _ <? 0) eqn:Hf; [injection E as <- <-; bsplit; lia|]);
    destruct (Hstep s m Hrep Hlt) as (rec & Hrec & Hat); rewrite (is_filemark _ _ Hat Hf) in E; rewrite Hrec;
    pose proof Hrep as (_ & (Hpart & Hb0 & _) & Hp & Hb & _);
    (destruct (bool_decide (rec = TFilemark) && _) eqn:Hstop;
     [apply andb_true_iff in Hstop as [->%bool_decide_eq_true Hc]; rewrite bool_decide_true in Hc by done; bsplit;
      injection E as <- <-; (split; [done|]); exists 1%nat; replace (Z.to_nat (count - fm)) with 1%nat by lia; rewrite fm_skip_mark, fm_skip_0; (split; [done|]);
      by replace (m_block m + 1 - Z.of_nat 1) with (m_block m) by lia; destruct m|]);
    (destruct (Z.eqb_spec (cur_block s) 0) as [Hz|Hz]; [injection E as <- <-; neg_ret Hr|]); [injection E as <- <-; neg_ret Hr|].
  assert (Hrep' : fd_rep (s <| cur_block := cur_block s - 1 |>) (m_move m (m_part m) (m_block m - 1))).
  { pose proof (rep_move s m (m_part m) (m_block m - 1) (cur_filemarks s) Hrep Hpart ltac:(lia)) as HR.
    rewrite Hb. rewrite <- Hp in HR at 1. exact HR. }
  assert (Hb1 : m_block m - 1 + 1 = m_block m) by lia.
  destruct rec as [d|]; [rewrite bool_decide_false in E, Hstop by done|rewrite bool_decide_true in E, Hstop by done];
    (apply (IH _ (m_move m (m_part m) (m_block m - 1))) in E as (-> & n & Hn & HR); [|done|cbn in Hstop; lia|change (m_block m - 1 < m_eod m (m_part m)); lia|done]);
    (split; [done|]); exists (S n); cbn [m_move m_part m_block] in Hn, HR; rewrite Hb1 in Hn, HR;
    change (records_before (m_move _ _ _)) with (records_before m) in Hn;
    replace (m_block m + 1 - Z.of_nat (S n)) with (m_block m - Z.of_nat n) by lia; (split; [|exact HR]);
    replace (Z.to_nat (count - fm)) with (S (Z.to_nat (count - fm - 1))) in * by lia.
  - by rewrite fm_skip_record, Hn.
  - replace (count - (fm + 1)) with (count - fm - 1) in Hn by lia. by rewrite fm_skip_mark, Hn.
Qed.

Context (host_writes_all : forall k n, host_written k n = n).

(** How a scan ends. *)
Lemma finish_move_ok ret s m pos r s' pos' : (0 <= ret -> fd_rep s m /\ partition pos = m_part m) ->
  finish_move ret s (pos_block s pos) = (r, s', pos') -> 0 <= r -> r = ret /\ fd_rep s' m /\ at_head m pos'.
Proof.
  intros Hs. unfold finish_move. destruct (count_filemarks _ _ _ _) as [n|]; [|intros [= <- <- <-] Hr; neg_ret Hr].
  intros [= <- <- <-] Hr. destruct (Hs Hr) as [Hrep Hp]. split; [done|].
  pose proof Hrep as (_ & (Hpart & Hb0 & Hble) & Hcp & Hcb & _).
  split; [|apply report_at_head; split; cbn; [done|by rewrite Hcb]].
  pose proof (rep_move s m (m_part m) (m_block m) n Hrep Hpart ltac:(lia)) as HR.
  rewrite <- Hcp in HR at 1. rewrite <- Hcb in HR at 1. destruct s, m. exact HR.
Qed.

Lemma filedebug_space_forward_ok s m count pos r s' pos' :
  fd_rep s m -> at_head m pos -> 0 < count -> filedebug_space s count TC_SPACE_FM_F pos = (r, s', pos') -> 0 <= r ->
  r = 0 /\ exists n, fm_skip (Z.to_nat count) (records_after m) = Some n /\
    fd_rep s' (m_move m (m_part m) (m_block m + Z.of_nat n)) /\ at_head (m_move m (m_part m) (m_block m + Z.of_nat n)) pos'.
Proof.
  intros Hrep [Hpp _] Hc. pose proof Hrep as ((Hrdy & Hut & Huf & _) & _). unfold filedebug_space, _filedebug_space_fm.
  rewrite Hrdy, Hut, Huf. cbn [negb orb]. rewrite (proj2 (Z.eqb_neq count 0)) by lia.
  destruct (_ =? _); [intros [= <- <- <-] Hr; neg_ret Hr|]. destruct (space_fm_forward _ _ _ _) as [r1 s1] eqn:E. intros Hf Hr.
  assert (Hok : 0 <= r1 -> r1 = 0 /\ exists n, fm_skip (Z.to_nat count) (records_after m) = Some n /\
    fd_rep s1 (m_move m (m_part m) (m_block m + Z.of_nat n))).
  { intros Hr1. destruct (space_forward_ok _ _ _ count 0 _ _ Hrep ltac:(lia) E Hr1) as (-> & n & Hn & HR).
    rewrite Z.sub_0_r in Hn. eauto. }
  assert (Hr1 : 0 <= r1) by (unfold finish_move in Hf; destruct (count_filemarks _ _ _ _); injection Hf as <- _ _; [done|neg_ret Hr]).
  destruct (Hok Hr1) as (-> & n & Hn & HR).
  destruct (finish_move_ok 0 s1 (m_move m (m_part m) (m_block m + Z.of_nat n)) pos r s' pos' ltac:(by split) Hf Hr) as (-> & ? & ?).
  eauto.
Qed.

Lemma filedebug_space_backward_ok s m count pos r s' pos' :
  fd_rep s m -> at_head m pos -> 0 < count -> 0 < m_block m ->
  filedebug_space s count TC_SPACE_FM_B pos = (r, s', pos') -> 0 <= r ->
  r = 0 /\ exists n, fm_skip (Z.to_nat count) (records_before m) = Some n /\
    fd_rep s' (m_move m (m_part m) (m_block m - Z.of_nat n)) /\ at_head (m_move m (m_part m) (m_block m - Z.of_nat n)) pos'.
Proof.
  intros Hrep [Hpp _] Hc Hb0. pose proof Hrep as ((Hrdy & Hut & Huf & _) & (Hpart & _ & Hble) & Hp & Hb & _).
  unfold filedebug_space, _filedebug_space_fm.
  rewrite Hrdy, Hut, Huf. cbn [negb orb]. rewrite (proj2 (Z.eqb_neq count 0)) by lia.
  destruct (_ =? _); [intros [= <- <- <-] Hr; neg_ret Hr|]. rewrite (proj2 (Z.ltb_lt 0 (cur_block s))) by lia.
  destruct (space_fm_backward _ _ _ _) as [r1 s1] eqn:E. intros Hf Hr.
  assert (Hrep1 : fd_rep (s <| cur_block := cur_block s - 1 |>) (m_move m (m_part m) (m_block m - 1))).
  { pose proof (rep_move s m (m_part m) (m_block m - 1) (cur_filemarks s) Hrep Hpart ltac:(lia)) as HR.
    rewrite Hb. rewrite <- Hp in HR at 1. exact HR. }
  assert (Hr1 : 0 <= r1) by (unfold finish_move in Hf; destruct (count_filemarks _ _ _ _); injection Hf as <- _ _; [done|neg_ret Hr]).
  apply (space_backward_ok _ _ (m_move m (m_part m) (m_block m - 1))) in E as (-> & n & Hn & HR);
    [|done|lia|change (m_block m - 1 < m_eod m (m_part m)); lia|done].
  cbn [m_move m_part m_block] in Hn, HR. replace (m_block m - 1 + 1) with (m_block m) in * by lia. rewrite Z.sub_0_r in Hn.
  destruct (finish_move_ok 0 s1 (m_move m (m_part m) (m_block m - Z.of_nat n)) pos r s' pos' ltac:(by split) Hf Hr) as (-> & ? & ?).
  eauto.
Qed.

#[export] Instance filedebug_space_laws (strict_drive : bool) :
  @SpaceLaws filedebug_data (filedebug_ops strict_drive) (filedebug_laws host_writes_all strict_drive).
Proof. split; [exact filedebug_space_forward_ok|exact filedebug_space_backward_ok]. Defined.
End filedebug.

(** ** The tape layer *)

Section layer.
Context {S : Type} `{SpaceLaws S}.
Context (now : ltfs_timespec).
Implicit Types d : device_data S.

Lemma tape_spacefm_forward d m count r d' : dev_ok d m -> 0 < count -> tape_spacefm now d count = (r, d') -> 0 <= r ->
  r = 0 /\ exists n, fm_skip (Z.to_nat count) (records_after m) = Some n /\ dev_ok d' (m_move m (m_part m) (m_block m + Z.of_nat n)).
Proof.
  intros [Hrep Hpos] Hc. unfold tape_spacefm. rewrite (proj2 (Z.ltb_lt 0 count)) by done.
  destruct (op_space _ _ _ _) as [[r1 s1] p1] eqn:E. intros [= <- <-] Hr. rewrite (proj2 (Z.ltb_ge r1 0)) by done.
  destruct (space_forward_law _ _ _ _ _ _ _ Hrep Hpos Hc E Hr) as (-> & n & Hn & ? & ?). split; [done|]. by exists n.
Qed.

Lemma tape_spacefm_backward d m count r d' : dev_ok d m -> 0 < count -> 0 < m_block m ->
  tape_spacefm now d (- count) = (r, d') -> 0 <= r ->
  r = 0 /\ exists n, fm_skip (Z.to_nat count) (records_before m) = Some n /\ dev_ok d' (m_move m (m_part m) (m_block m - Z.of_nat n)).
Proof.
  intros [Hrep Hpos] Hc Hb. unfold tape_spacefm. rewrite (proj2 (Z.ltb_ge 0 (- count))), Z.opp_involutive by lia.
  destruct (op_space _ _ _ _) as [[r1 s1] p1] eqn:E. intros [= <- <-] Hr. rewrite (proj2 (Z.ltb_ge r1 0)) by done.
  destruct (space_backward_law _ _ _ _ _ _ _ Hrep Hpos Hc Hb E Hr) as (-> & n & Hn & ? & ?). split; [done|]. by exists n.
Qed.

Lemma tape_seek_eod_ok d m part r d' : dev_ok d m -> part = 0 \/ part = 1 -> m_eod m part <= TAPE_BLOCK_MAX ->
  tape_seek_eod now d part = (r, d') -> 0 <= r -> r = 0 /\ dev_ok d' (m_move m part (m_eod m part)).
Proof.
  intros [Hrep Hpos] Hp Hm. unfold tape_seek_eod. rewrite (proj2 (Z.ltb_ge 1 part)) by lia.
  destruct (op_locate _ _ _) as [[r1 s1] p1] eqn:E. destruct (r1 <? 0) eqn:Hr1.
  { intros [= <- <-]. bsplit. destruct (IS_WRITE_PERM _); intros Hr; [neg_ret Hr|lia]. }
  bsplit. destruct (locate_law _ _ (eod_position part) _ _ _ _ Hrep ltac:(cbn; lia) ltac:(cbn; unfold TAPE_BLOCK_MAX; lia) E Hr1) as (-> & Hrep' & Hpos').
  cbn [eod_position partition block] in *. rewrite Z.min_r in * by done.
  destruct (negb _); [intros [= <- <-] Hr; neg_ret Hr|]. intros [= <- <-] _. split; [done|].
  pose proof (note_warnings_frame (after_op d s1 p1)) as ([Hb Hpo] & _). split; cbn; rewrite ?Hb, ?Hpo; done.
Qed.

(** *** The calls of a run

    What a function that reads a tape asks of the drive, as a list of calls of the
    tape layer. *)

Inductive drive_call :=
  | CallSeek (pos : tc_position)
  | CallEod (part : Z)
  | CallSpace (count : Z)
  | CallRead (count : Z) (unusual : bool).

Definition do_call d (c : drive_call) : Z * device_data S :=
  match c with
  | CallSeek pos => tape_seek now d pos
  | CallEod part => tape_seek_eod now d part
  | CallSpace count => tape_spacefm now d count
  | CallRead count unusual => let '(r, _, d) := tape_read now None d count unusual in (r, d)
  end.

(** The drive does what these calls ask, one after the other. *)
Fixpoint carries_out (calls : list drive_call) d : bool :=
  match calls with
  | [] => true
  | c :: calls => let '(r, d) := do_call d c in (0 <=? r) && carries_out calls d
  end.

(** The drive holds the medium [m], and does the calls that are still to come. *)
Definition run_at d m calls : Prop := dev_ok d m /\ carries_out calls d = true.

Lemma run_call d m c calls r d' : run_at d m (c :: calls) -> do_call d c = (r, d') -> 0 <= r /\ carries_out calls d' = true.
Proof. intros [_ Hc] E. cbn in Hc. rewrite E in Hc. bsplit. done. Qed.

Lemma run_seek d m pos calls r d' : run_at d m (CallSeek pos :: calls) -> partition pos = 0 \/ partition pos = 1 ->
  0 <= block pos <= m_eod m (partition pos) -> tape_seek now d pos = (r, d') ->
  r = 0 /\ run_at d' (m_move m (partition pos) (block pos)) calls.
Proof.
  intros Hrun Hp Hb E. destruct (run_call _ _ _ _ _ _ Hrun E) as [Hr Hc].
  destruct (tape_seek_cases now d m pos r d' (proj1 Hrun) ltac:(lia) ltac:(lia) E) as (_ & _ & _ & Hs).
  destruct (Hs Hr) as (-> & Hok & _). by rewrite Z.min_l in Hok by lia.
Qed.

Lemma run_eod d m part calls r d' : run_at d m (CallEod part :: calls) -> part = 0 \/ part = 1 -> m_eod m part <= TAPE_BLOCK_MAX ->
  tape_seek_eod now d part = (r, d') -> r = 0 /\ run_at d' (m_move m part (m_eod m part)) calls.
Proof.
  intros Hrun Hp Hm E. destruct (run_call _ _ _ _ _ _ Hrun E) as [Hr Hc].
  by destruct (tape_seek_eod_ok d m part r d' (proj1 Hrun) Hp Hm E Hr) as [-> Hok].
Qed.

Lemma run_forward d m count n calls r d' : run_at d m (CallSpace count :: calls) -> 0 < count ->
  fm_skip (Z.to_nat count) (records_after m) = Some n -> tape_spacefm now d count = (r, d') ->
  r = 0 /\ run_at d' (m_move m (m_part m) (m_block m + Z.of_nat n)) calls.
Proof.
  intros Hrun Hcount Hn E. destruct (run_call _ _ _ _ _ _ Hrun E) as [Hr Hc].
  destruct (tape_spacefm_forward d m count r d' (proj1 Hrun) Hcount E Hr) as (-> & n' & Hn' & Hok).
  rewrite Hn in Hn'. by injection Hn' as <-.
Qed.

Lemma run_backward d m count n calls r d' : run_at d m (CallSpace (- count) :: calls) -> 0 < count -> 0 < m_block m ->
  fm_skip (Z.to_nat count) (records_before m) = Some n -> tape_spacefm now d (- count) = (r, d') ->
  r = 0 /\ run_at d' (m_move m (m_part m) (m_block m - Z.of_nat n)) calls.
Proof.
  intros Hrun Hcount Hb Hn E. destruct (run_call _ _ _ _ _ _ Hrun E) as [Hr Hc].
  destruct (tape_spacefm_backward d m count r d' (proj1 Hrun) Hcount Hb E Hr) as (-> & n' & Hn' & Hok).
  rewrite Hn in Hn'. by injection Hn' as <-.
Qed.

Definition record_bytes (r : tape_record) : list Z := match r with TData b => b | TFilemark => [] end.

Lemma run_read d m rec count unusual calls r buf d' : run_at d m (CallRead count unusual :: calls) -> m_here m = Some rec ->
  tape_read now None d count unusual = (r, buf, d') -> zlength (record_bytes rec) <= count ->
  r = zlength (record_bytes rec) /\ buf = record_bytes rec /\ run_at d' (m_move m (m_part m) (m_block m + 1)) calls.
Proof.
  intros Hrun Hrec E Hl. pose proof (zlength_nonneg (record_bytes rec)).
  destruct (run_call d m (CallRead count unusual) calls r d' Hrun) as [Hr Hc]; [cbn; by rewrite E|].
  destruct (tape_read_ok _ _ _ count _ _ _ _ (proj1 Hrun) ltac:(lia) E Hr) as (rec' & Hrec' & Hb & Hz & Hok & _).
  rewrite Hrec in Hrec'. injection Hrec' as <-.
  assert (buf = record_bytes rec) as -> by (destruct rec; [cbn in *; rewrite take_ge in Hb by (unfold zlength in *; lia)|]; done). done.
Qed.
End layer.
