(* ===== verification/Mam.v ===== *)
(** * Attributes in the cartridge memory (src/libltfs/tape.c, ltfs_types.h)

    The chip of a cartridge holds attributes: the change reference of the volume,
    the coherency data that tells where the last index of a partition is, and the
    lock status.  The class [MamOps] holds the two backend functions; attributes
    are bytes behind a header of five bytes (identifier, format, size).

    The array [uuid] of a coherency record is its text; the bytes behind the
    terminator are zero. *)

From Stdlib Require Import String.
From S2P Require Import Prelude LtfsError TapeOps FileDebug FileDebugLaws TapeLayer TapeProps Base64 KeyFormat Time.

Class MamOps (S : Type) := {
  op_read_attribute : S -> Z -> Z -> Z -> Z * list Z;
  op_write_attribute : S -> Z -> list Z -> Z * S;
}.

(** Writing an attribute keeps the records, and what was written is read back. *)
Class MamLaws (S : Type) `{TapeLaws S} `{MamOps S} := {
  mam_keeps_tape s m part buf r s' : tape_rep s m -> op_write_attribute s part buf = (r, s') -> tape_rep s' m;
  mam_read_back s part buf r s' r' got :
    zlength buf = betou16_at buf 3 + 5 -> op_write_attribute s part buf = (r, s') -> 0 <= r ->
    op_read_attribute s' part (betou16_at buf 0) (zlength buf) = (r', got) -> 0 <= r' -> r' = 0 /\ got = buf;
}.

(** ** The file backend *)

#[export] Instance filedebug_mam_ops `{Host} : MamOps filedebug_data := {|
  op_read_attribute := filedebug_read_attribute;
  op_write_attribute := filedebug_write_attribute;
|}.

Section filedebug.
Context `{Host}.
Context (host_writes_all : forall k n, host_written k n = n).

Lemma filedebug_mam_keeps s m part buf r s' : fd_rep s m -> filedebug_write_attribute s part buf = (r, s') -> fd_rep s' m.
Proof.
  intros Hrep E. unfold filedebug_write_attribute in E.
  pose proof (fun p b => write_attributes_quiet p b _ _ _ _ _ _ _ E) as Hq.
  destruct Hrep as (Hl & Hwf & Hp & Hb & R0 & R1). destruct (Hq 0 0) as (L & P & B & D & _).
  assert (Hpart : forall p, part_rep s p (m_log m p) -> part_rep s' p (m_log m p)).
  { intros p (E1 & E2 & E3 & E4). destruct (Hq p (zlength (m_log m p) + 1)) as (_ & _ & _ & _ & A).
    split; [by rewrite D|]. split; [done|]. split; [rewrite A by (done || lia); done|].
    intros i rec Hi. specialize (E4 i rec Hi). apply lookup_lt_Some in Hi.
    unfold rec_at in *. rewrite !A by (done || (right; unfold zlength; lia)). done. }
  split; [by apply L|]. split; [done|]. rewrite P, B. auto.
Qed.

Lemma write_attributes_end s part buf i fuel : zlength buf <= i -> write_attributes s part buf i fuel = (DEVICE_GOOD, s).
Proof. intros Hi. destruct fuel; [done|]. cbn. by rewrite (proj2 (Z.ltb_ge i (zlength buf))) by lia. Qed.

Lemma filedebug_mam_read_back s part buf r s' r' got :
  zlength buf = betou16_at buf 3 + 5 -> filedebug_write_attribute s part buf = (r, s') -> 0 <= r ->
  filedebug_read_attribute s' part (betou16_at buf 0) (zlength buf) = (r', got) -> 0 <= r' -> r' = 0 /\ got = buf.
Proof.
  assert (Hall : forall b : list Z, take (Z.to_nat (zlength b)) b = b) by (intros; unfold zlength; by rewrite Nat2Z.id, firstn_all).
  intros Hl. unfold filedebug_write_attribute, filedebug_read_attribute. cbn [write_attributes].
  destruct (0 <? zlength buf) eqn:Hpos.
  - destruct (host_fail H_asprintf _); [intros [= <- <-] Hr; neg_ret Hr|].
    destruct (host_fail H_open _); [intros [= <- <-] Hr; neg_ret Hr|].
    destruct (host_fail H_write _); [intros [= <- <-] Hr; neg_ret Hr|].
    change (betou16_at buf (0 + 3)) with (betou16_at buf 3). rewrite write_attributes_end by lia. intros [= <- <-] _.
    rewrite host_writes_all, Hall. cbn -[zlength take insert lookup]. rewrite lookup_insert_eq.
    destruct (host_fail H_read _); [intros [= <- <-] Hr; neg_ret Hr|]. intros [= <- <-] _. split; [done|]. apply Hall.
  - intros _ _ _ _. destruct buf as [|x buf]; [|rewrite zlength_cons in Hpos; pose proof (zlength_nonneg buf); bsplit; lia].
    by cbn in Hl.
Qed.

#[export] Instance filedebug_mam_laws (strict_drive : bool) :
  @MamLaws filedebug_data (filedebug_ops strict_drive) (filedebug_laws host_writes_all strict_drive) filedebug_mam_ops.
Proof. split; [exact filedebug_mam_keeps|exact filedebug_mam_read_back]. Defined.
End filedebug.

(** ** The attributes that libltfs uses *)

Definition TC_MAM_PAGE_COHERENCY : Z := 0x080C.
Definition TC_MAM_PAGE_COHERENCY_SIZE : Z := 0x46.
Definition TC_MAM_LOCKED_MAM : Z := 0x1623.
Definition TC_MAM_LOCKED_MAM_SIZE : Z := 1.
Definition UINT64_MAX : Z := 2 ^ 64 - 1.

(** [struct tc_coherency]. *)
Record tc_coherency := mk_coherency {
  volume_change_ref : Z;
  coh_count : Z;
  set_id : Z;
  coh_uuid : list Z;
  coh_version : Z;
}.

#[export] Instance eta_coherency : Eta tc_coherency := fun c =>
  mk_coherency (volume_change_ref c) (coh_count c) (set_id c) (coh_uuid c) (coh_version c).

(** [ltfs_u16tobe], [ltfs_u64tobe]: the last [n] bytes of a number, highest first. *)
Fixpoint tobe (n : nat) (v : Z) : list Z :=
  match n with
  | O => []
  | S n => tobe n (v / 256) ++ [v mod 256]
  end.

Definition betou64_at (buf : list Z) (i : Z) : Z := betou32_at buf i * 2 ^ 32 + betou32_at buf (i + 4).

Definition byte_at (buf : list Z) (i : nat) : Z := nth i buf 0.

Section attributes.
Context {S : Type} `{MamOps S}.
Implicit Types d : device_data S.

Definition tape_get_volume_change_reference d : Z * Z :=
  let '(ret, vcr_data) := op_read_attribute (backend_data d) 0 TC_MAM_PAGE_VCR (TC_MAM_PAGE_VCR_SIZE + TC_MAM_PAGE_HEADER_SIZE) in
  if ret =? 0 then
    let v := betou32_at vcr_data 5 in
    (ret, if v =? 2 ^ 32 - 1 then UINT64_MAX else v)
  else (ret, UINT64_MAX).

Definition coherency_data (coh : tc_coherency) : list Z :=
  tobe 2 TC_MAM_PAGE_COHERENCY ++ [0] ++ tobe 2 TC_MAM_PAGE_COHERENCY_SIZE ++ [8] ++
  tobe 8 (volume_change_ref coh) ++ tobe 8 (coh_count coh) ++ tobe 8 (set_id coh) ++
  [0; 43] ++ str "LTFS" ++ [0] ++ take 37 (coh_uuid coh ++ replicate 37 0) ++ [coh_version coh].

Definition tape_set_cart_coherency (part : Z) (coh : tc_coherency) d : Z * device_data S :=
  let '(ret, s) := op_write_attribute (backend_data d) part (coherency_data coh) in
  (ret, d <| backend_data := s |>).

Definition tape_get_cart_coherency (part : Z) (coh : tc_coherency) d : Z * tc_coherency :=
  let '(ret, data) := op_read_attribute (backend_data d) part TC_MAM_PAGE_COHERENCY
                        (TC_MAM_PAGE_COHERENCY_SIZE + TC_MAM_PAGE_HEADER_SIZE) in
  if negb (ret =? 0) then (ret, coh)
  else if negb (betou16_at data 0 =? TC_MAM_PAGE_COHERENCY) then (- LTFS_UNEXPECTED_VALUE, coh)
  else if negb (betou16_at data 3 =? TC_MAM_PAGE_COHERENCY_SIZE) then (- LTFS_UNEXPECTED_VALUE, coh)
  else
    let coh := coh <| volume_change_ref := 0 |> <| set_id := 0 |> in
    if negb (byte_at data 5 =? 8) then (- LTFS_UNEXPECTED_VALUE, coh)
    else
      let coh := coh <| volume_change_ref := betou64_at data 6 |> <| coh_count := betou64_at data 14 |>
                     <| set_id := betou64_at data 22 |> in
      let len := betou16_at data 30 in
      if negb (len =? 42) && negb (len =? 43) then (- LTFS_UNEXPECTED_VALUE, coh)
      else if negb (bool_decide (take 5 (drop 32 data) = str "LTFS" ++ [0])) then (- LTFS_UNEXPECTED_VALUE, coh)
      else (ret, coh <| coh_uuid := until_nul (take 37 (drop 37 data)) |> <| coh_version := byte_at data 74 |>).

(** [status] keeps its value when the attribute cannot be read. *)
Definition tape_get_cart_volume_lock_status d (status : Z) : Z * Z :=
  let '(ret, data) := op_read_attribute (backend_data d) 0 TC_MAM_LOCKED_MAM (TC_MAM_LOCKED_MAM_SIZE + TC_MAM_PAGE_HEADER_SIZE) in
  if ret =? 0 then
    if negb (betou16_at data 0 =? TC_MAM_LOCKED_MAM) then (- LTFS_UNEXPECTED_VALUE, status)
    else if negb (betou16_at data 3 =? TC_MAM_LOCKED_MAM_SIZE) then (- LTFS_UNEXPECTED_VALUE, status)
    else (ret, byte_at data 5)
  else if ret =? - EDEV_INVALID_FIELD_CDB then (0, 0)
  else (ret, status).
End attributes.

(** ** Coherency data are read back *)

Record good_coherency (coh : tc_coherency) : Prop := {
  gc_vcr : 0 <= volume_change_ref coh < 2 ^ 64;
  gc_count : 0 <= coh_count coh < 2 ^ 64;
  gc_set : 0 <= set_id coh < 2 ^ 64;
  gc_uuid : (length (coh_uuid coh) <= 36)%nat /\ Forall (fun c => c <> 0) (coh_uuid coh);
}.

Definition be_value (l : list Z) : Z := foldl (fun a b => a * 256 + b) 0 l.

Lemma be_value_tobe n v : 0 <= v < 256 ^ Z.of_nat n -> be_value (tobe n v) = v.
Proof.
  revert v. induction n as [|n IH]; intros v Hv; [cbn in *; lia|]. rewrite Nat2Z.inj_succ, Z.pow_succ_r in Hv by lia.
  cbn [tobe]. unfold be_value in *. rewrite foldl_app, IH; cbn; [pose proof (Z.div_mod v 256); lia|].
  split; [apply Z.div_pos; lia|apply Z.div_lt_upper_bound; lia].
Qed.

Lemma tobe8_value v : 0 <= v < 2 ^ 64 -> betou64_at (tobe 8 v) 0 = v.
Proof.
  assert (H8 : forall a b c d e f g h, betou64_at [a; b; c; d; e; f; g; h] 0 = be_value [a; b; c; d; e; f; g; h]).
  { intros. change (betou64_at _ 0) with
      (((a * 2 ^ 8 + b) * 2 ^ 16 + (c * 2 ^ 8 + d)) * 2 ^ 32 + ((e * 2 ^ 8 + f) * 2 ^ 16 + (g * 2 ^ 8 + h))).
    unfold be_value. cbn [foldl]. lia. }
  intros Hv. pose proof (be_value_tobe 8 v Hv) as E. cbn [tobe app] in *. by rewrite H8.
Qed.

Lemma padded_uuid u : (length u <= 36)%nat -> Forall (fun c => c <> 0) u ->
  length (take 37 (u ++ replicate 37 0)) = 37%nat /\ until_nul (take 37 (u ++ replicate 37 0)) = u.
Proof.
  intros Hl Hu. split; [rewrite length_take, length_app, length_replicate; lia|].
  rewrite take_app_ge, take_replicate by lia. replace (37 - length u)%nat with (S (36 - length u)) by lia. clear Hl.
  remember (36 - length u)%nat as k eqn:E. clear E. induction Hu as [|c u Hc Hu IH]; [done|]. cbn. rewrite (proj2 (Z.eqb_neq c 0)) by done. by f_equal.
Qed.

Section read_back.
Context {S : Type} `{MamLaws S}.
Implicit Types d : device_data S.

Lemma coherency_length coh : (length (coh_uuid coh) <= 36)%nat -> Forall (fun c => c <> 0) (coh_uuid coh) -> zlength (coherency_data coh) = 75.
Proof. intros L1 L2. destruct (padded_uuid _ L1 L2) as [E _]. unfold zlength, coherency_data. rewrite !length_app, E. done. Qed.

(** What a coherency record says is what the next mount reads. *)
Lemma coherency_read_back part coh coh0 d d' r r' coh' : good_coherency coh ->
  tape_set_cart_coherency part coh d = (r, d') -> 0 <= r ->
  tape_get_cart_coherency part coh0 d' = (r', coh') -> r' = 0 -> coh' = coh.
Proof.
  intros [G1 G2 G3 [G4 G5]] E Hr. unfold tape_set_cart_coherency, tape_get_cart_coherency in *.
  destruct (op_write_attribute _ _ _) as [r0 s0] eqn:E0. injection E as -> <-. cbn [backend_data set_field].
  destruct (op_read_attribute _ _ _ _) as [r1 data] eqn:E1. destruct (Z.eqb_spec r1 0) as [->|Hne]; [|by intros [= <- <-]].
  pose proof (coherency_length coh G4 G5) as Hl. destruct (padded_uuid _ G4 G5) as [E2 E3].
  assert (data = coherency_data coh) as ->.
  { eapply (mam_read_back _ _ (coherency_data coh) _ _ 0); [rewrite Hl; reflexivity|exact E0|done| |done]. rewrite Hl. exact E1. }
  cbn [negb]. change (betou16_at (coherency_data coh) 0) with TC_MAM_PAGE_COHERENCY. rewrite Z.eqb_refl.
  change (betou16_at (coherency_data coh) 3) with TC_MAM_PAGE_COHERENCY_SIZE. rewrite Z.eqb_refl. cbn [negb].
  change (byte_at (coherency_data coh) 5) with 8. cbn [Z.eqb negb Pos.eqb].
  change (betou16_at (coherency_data coh) 30) with 43. cbn [Z.eqb negb Pos.eqb andb]. rewrite bool_decide_true by done. cbn [negb].
  change (betou64_at (coherency_data coh) 6) with (betou64_at (tobe 8 (volume_change_ref coh)) 0).
  change (betou64_at (coherency_data coh) 14) with (betou64_at (tobe 8 (coh_count coh)) 0).
  change (betou64_at (coherency_data coh) 22) with (betou64_at (tobe 8 (set_id coh)) 0). rewrite !tobe8_value by done.
  change (drop 37 (coherency_data coh)) with (take 37 (coh_uuid coh ++ replicate 37 0) ++ [coh_version coh]).
  change (byte_at (coherency_data coh) 74) with (nth 37 (take 37 (coh_uuid coh ++ replicate 37 0) ++ [coh_version coh]) 0).
  set (u := take 37 (coh_uuid coh ++ replicate 37 0)) in *.
  rewrite (take_app_length' u _ 37), E3, app_nth2, E2 by lia. intros [= <-] _. by destruct coh.
Qed.
End read_back.
