(* ===== verification/LabelProps.v ===== *)
(** * Labels are read back

    A volume that was labelled on both partitions is recognised: through any
    backend that keeps the contract of the tape layer, [ltfs_read_labels] gives
    the parameters of the format back and never refuses the labels. *)

From Stdlib Require Import String.
From S2P Require Import Prelude LtfsError TapeOps FileDebug FileDebugLaws TapeLayer TapeSpace TapeProps Base64 KeyFormat Time TimeProps Xml XmlProps IndexXml Label.

Local Open Scope rd_scope.

(** A label that the functions of ltfs.c set up. *)
Record good_label (l : ltfs_label) : Prop := mk_good_label {
  gl_barcode : barcode l = NO_BARCODE \/ length (barcode l) = 6%nat /\ forallb barcode_char (barcode l) = true;
  gl_uuid : l_vol_uuid l <> [] /\ xml_parse_uuid (l_vol_uuid l) = Some (l_vol_uuid l);
  gl_time : time_ok (format_time l);
  gl_blocksize : 1 <= l_blocksize l < 2 ^ 63;
  gl_dp : 97 <= partid_dp l <= 122;
  gl_ip : 97 <= partid_ip l <= 122;
  gl_distinct : partid_dp l <> partid_ip l;
  gl_map : part_num2id l = (partid_dp l, partid_ip l) \/ part_num2id l = (partid_ip l, partid_dp l);
}.

(** The setters refuse everything else. *)
Lemma setters_good dp ip dp_num ip_num b size l l1 l2 l3 :
  ltfs_set_partition_map dp ip dp_num ip_num l = (0, l1) -> ltfs_set_barcode b l1 = (0, l2) ->
  ltfs_set_blocksize size l2 = (0, l3) -> size < 2 ^ 63 ->
  l_vol_uuid l <> [] -> xml_parse_uuid (l_vol_uuid l) = Some (l_vol_uuid l) -> time_ok (format_time l) ->
  good_label l3.
Proof.
  unfold ltfs_set_partition_map, ltfs_set_barcode, ltfs_set_blocksize, LTFS_MIN_BLOCKSIZE. intros E1 E2 E3 Hs Hu1 Hu2 Ht.
  destruct (_ || _ || _) eqn:B1 in E1; [done|]. destruct (_ || _ || _) eqn:B2 in E1; [done|]. injection E1 as <-.
  destruct (Z.ltb_spec size 4096); [done|]. injection E3 as <-.
  assert (Hb : barcode l2 = NO_BARCODE \/ length (barcode l2) = 6%nat /\ forallb barcode_char (barcode l2) = true).
  { destruct b as [[|c b]|]; [by injection E2 as <-; left| |by injection E2 as <-; left].
    destruct (Nat.eqb_spec (length (c :: b)) 6) as [Hl|]; [|done]. cbn [negb] in E2.
    destruct (forallb barcode_char (c :: b)) eqn:Hf; [|done]. injection E2 as <-. by right. }
  assert (H2 : l_vol_uuid l2 = l_vol_uuid l /\ format_time l2 = format_time l /\ partid_dp l2 = dp /\ partid_ip l2 = ip /\
    part_num2id l2 = a2set (a2set (part_num2id l) dp_num dp) ip_num ip).
  { destruct b as [[|c b]|]; [by injection E2 as <-| |by injection E2 as <-].
    destruct (negb (length (c :: b) =? 6)%nat); [done|]. destruct (negb (forallb _ _)); [done|]. by injection E2 as <-. }
  destruct H2 as (E4 & E5 & E6 & E7 & E8). unfold in_range in B2. constructor; cbn; rewrite ?E4, ?E5, ?E6, ?E7, ?E8; try done; try lia.
  unfold a2set. destruct (part_num2id l) as [x y]. assert (dp_num = 0 /\ ip_num = 1 \/ dp_num = 1 /\ ip_num = 0) as [[-> ->]|[-> ->]] by lia; auto.
Qed.

(** ** The ANSI label *)

Lemma ansi_label l : length (barcode l) = 6%nat -> Forall (fun c => c <> 0) (barcode l) ->
  length (label_make_ansi_label l 80) = 80%nat /\
  until_nul (take 6 (drop 4 (label_make_ansi_label l 80))) = barcode l /\
  until_nul (take 4 (drop 24 (label_make_ansi_label l 80))) = str "LTFS".
Proof.
  intros Hl Hn. unfold label_make_ansi_label. destruct (barcode l) as [|a [|b [|c [|d [|e [|f [|]]]]]]]; try done.
  repeat (apply Forall_cons in Hn as [?H Hn]). cbn. rewrite !(proj2 (Z.eqb_neq _ 0)) by done. done.
Qed.

Arguments label_make_ansi_label : simpl never.

Lemma good_barcode l : good_label l -> length (barcode l) = 6%nat /\ Forall (fun c => c <> 0) (barcode l) /\
  negb (char_at (barcode l) 0 =? 32) && negb (forallb barcode_char (barcode l)) = false.
Proof.
  intros [[->|[Hl Hb]] _ _ _ _ _ _ _].
  - split; [done|]. split; [|done]. change (Forall (fun c => c <> 0) [32; 32; 32; 32; 32; 32]). repeat (apply Forall_cons; split; [lia|]). by apply Forall_nil.
  - split; [done|]. split; [|by rewrite Hb, andb_false_r].
    apply Forall_forall. intros c Hc. rewrite forallb_forall in Hb. apply list_elem_of_In in Hc. specialize (Hb c Hc).
    unfold barcode_char, in_range in Hb. lia.
Qed.

(** ** The XML label *)

Lemma label_value_read {A} i tag (parse : list Z -> option A) code set have t v s rest :
  have !! i = Some false -> t <> [] -> parse t = Some v ->
  parses (label_value i tag false parse code set have) s (text_rest tag t ++ rest) (<[i := true]> have) (set v s) rest.
Proof.
  intros Hi Ht Hp. unfold label_value. step ltac:(by apply parses_required). step ltac:(by apply parses_value).
  step ltac:(apply parses_modify). apply parses_ret.
Qed.

Lemma partition_read c : 97 <= c <= 122 -> _xml_parse_partition [c] = Some c.
Proof. intros Hc. cbn. unfold in_range. by case_bool; [|lia]. Qed.

Lemma blocksize_text n : 1 <= n < 2 ^ 63 -> print_ld n <> [] /\ parse_blocksize (print_ld n) = Some n.
Proof.
  intros Hn. unfold print_ld. rewrite i64_small by lia. rewrite (proj2 (Z.ltb_ge n 0)) by lia.
  destruct (print_u_spec n ltac:(lia)) as [H1 H2]. split; [done|]. unfold parse_blocksize. rewrite H2. cbn.
  by rewrite (proj2 (Z.eqb_neq n 0)) by lia.
Qed.

(** What the XML label of a partition says. *)
Definition label_read (c : list Z) (p : Z) (l l0 : ltfs_label) : ltfs_label :=
  mk_label c LTFS_LABEL_VERSION (barcode l0) (l_vol_uuid l) (format_time l) (l_blocksize l) (enable_compression l)
    (part_num2id l).[p] (partid_dp l) (partid_ip l) (part_num2id l0).

Definition label_body (c : list Z) (p : Z) (l : ltfs_label) : list token :=
  write_element "creator" c ++ write_element "formattime" (time_text (format_time l)) ++
  write_element "volumeuuid" (l_vol_uuid l) ++ element "location" [] (write_element "partition" [(part_num2id l).[p]]) ++
  element "partitions" [] (write_element "index" [partid_ip l] ++ write_element "data" [partid_dp l]) ++
  write_element "blocksize" (print_ld (l_blocksize l)) ++ write_element "compression" (print_bool (enable_compression l)).

Lemma good_map l p : good_label l -> p = 0 \/ p = 1 -> 97 <= (part_num2id l).[p] <= 122.
Proof. intros [_ _ _ _ Hd Hi _ [->| ->]] [->| ->]; cbn; lia. Qed.

Lemma location_read turns p l s : good_label l -> p = 0 \/ p = 1 -> (3 < turns)%nat -> forall rest,
  parses (_xml_parse_label_location turns) s (write_element "partition" [(part_num2id l).[p]] ++ (true, XEnd "location") :: rest) tt
    (s <| this_partition := (part_num2id l).[p] |>) rest.
Proof.
  intros Hg Hp Ht rest. unfold _xml_parse_label_location. step ltac:(eapply parses_tags; [|exact Ht]).
  - apply steps_one. intros r. unfold location_tag. pick. step ltac:(by apply parses_required).
    step ltac:(apply parses_value; [done|by apply partition_read, good_map]). step ltac:(apply parses_modify). apply parses_ret.
  - by apply parses_all.
Qed.

Lemma map_read turns l s : good_label l -> (6 < turns)%nat -> forall rest,
  parses (_xml_parse_partition_map turns) s
    ((write_element "index" [partid_ip l] ++ write_element "data" [partid_dp l]) ++ (true, XEnd "partitions") :: rest) tt
    (s <| partid_ip := partid_ip l |> <| partid_dp := partid_dp l |>) rest.
Proof.
  intros Hg Ht rest. unfold _xml_parse_partition_map. step ltac:(eapply parses_tags; [|exact Ht]).
  - child ltac:(unfold partitions_tag; pick; step ltac:(by apply parses_required);
      step ltac:(apply parses_value; [done|apply partition_read, Hg]); step ltac:(apply parses_modify); apply parses_ret).
    apply steps_one. intros r. unfold partitions_tag. pick. step ltac:(by apply parses_required).
    step ltac:(apply parses_value; [done|apply partition_read, Hg]). step ltac:(apply parses_modify). apply parses_ret.
  - by apply parses_all.
Qed.

Lemma label_tags turns c p l s : good_label l -> p = 0 \/ p = 1 -> c <> [] -> (length (label_body c p l) < turns)%nat ->
  steps (label_tag turns) (replicate 7 false) (s <| l_version := LTFS_LABEL_VERSION |>) (label_body c p l) (replicate 7 true)
    (label_read c p l s).
Proof.
  intros Hg Hp Hc Hf. destruct (time_text_spec _ (gl_time _ Hg)) as [T1 T2]. destruct (gl_uuid _ Hg) as [U1 U2].
  destruct (blocksize_text _ (gl_blocksize _ Hg)) as [B1 B2]. destruct (print_bool_spec (enable_compression l)) as [C1 C2].
  assert (Ht : (8 < turns)%nat).
  { unfold label_body in Hf. rewrite !length_app in Hf.
    pose proof (length_element "location" [] (write_element "partition" [(part_num2id l).[p]])).
    pose proof (length_element "partitions" [] (write_element "index" [partid_ip l] ++ write_element "data" [partid_dp l])) as H1.
    rewrite length_app in H1. change (length (write_element "index" [partid_ip l])) with 3%nat in H1.
    change (length (write_element "data" [partid_dp l])) with 3%nat in H1.
    change (length (write_element "partition" [(part_num2id l).[p]])) with 3%nat in *. lia. }
  unfold label_body.
  child ltac:(unfold label_tag; pick; apply (label_value_read 0%nat _ Some 0 _ _ c c); done).
  child ltac:(unfold label_tag; pick; apply (label_value_read 1%nat _ _ _ _ _ _ (format_time l)); [done|assumption..]).
  child ltac:(unfold label_tag; pick; apply (label_value_read 2%nat _ _ _ _ _ _ (l_vol_uuid l)); [done|assumption..]).
  eapply steps_app.
  { apply steps_element; [done|]. intros rest. unfold label_tag. pick. step ltac:(by apply parses_required). step ltac:(apply parses_ret).
    step ltac:(apply parses_catch; apply location_read; [done|done|lia]). apply parses_ret. }
  cbn [list_insert insert list_lookup].
  eapply steps_app.
  { apply steps_element; [done|]. intros rest. unfold label_tag. pick. step ltac:(by apply parses_required). step ltac:(apply parses_ret).
    step ltac:(apply parses_catch; apply map_read; [done|lia]). apply parses_ret. }
  child ltac:(unfold label_tag; pick; apply (label_value_read 5%nat _ _ _ _ _ _ (l_blocksize l)); [done|assumption..]).
  rewrite <- (app_nil_r (write_element _ _)).
  child ltac:(unfold label_tag; pick; apply (label_value_read 6%nat _ _ _ _ _ _ (enable_compression l)); [done|assumption..]).
  constructor.
Qed.

Lemma label_parsed turns c p l s : good_label l -> p = 0 \/ p = 1 -> c <> [] -> (length (xml_make_label c p l) < turns)%nat ->
  parses (_xml_parse_label turns true) s (xml_make_label c p l) tt (label_read c p l s) [].
Proof.
  intros Hg Hp Hc Hf. unfold xml_make_label in *. fold (label_body c p l) in *.
  pose proof (length_element "ltfslabel" [("version"%string, str "2.5.0")] (label_body c p l)).
  rewrite element_body by done. unfold _xml_parse_label. step ltac:(unfold _xml_parser_init; step ltac:(apply parses_start)).
  { pick. step ltac:(apply (parses_opt LTFS_LABEL_VERSION)). apply parses_ret. }
  step ltac:(apply parses_modify). step ltac:(eapply parses_tags; [by apply label_tags; [..|lia]|lia]). by apply parses_all.
Qed.

(** ** On tape *)

Section tape.
Context {S : Type} `{TapeLaws S}.
Context (print_xml : list token -> list Z) (read_xml : list Z -> bool * list xnode).
(** A document of libxml2 is not empty, is in UTF-8, and reads as what was written. *)
Context (xml_not_empty : forall ts, print_xml ts <> []).
Context (xml_reads : forall ts, exists ns, read_xml (print_xml ts) = (true, ns) /\ reads_as ts ns).
Context (now : ltfs_timespec).
Implicit Types d : device_data S.

Lemma filemark_written d m r d' : dev_ok d m -> m_block m + 1 < 2 ^ 62 ->
  tape_write_filemark now d 1 true false true = (r, d') -> 0 <= r -> dev_ok d' (m_append m [TFilemark]).
Proof.
  intros [Hrep Hpos] Hm. unfold tape_write_filemark. destruct (write_refusal d true false <? 0) eqn:Hw; [intros [= <- <-] ?; bsplit; lia|].
  destruct (op_writefm (backend_data d) 1 (position d) true) as [[r1 s] p] eqn:E. destruct (r1 <? 0) eqn:Hr1; [intros [= <- <-] ?; bsplit; lia|].
  bsplit. destruct (writefm_law (backend_data d) m 1 (position d) true r1 s p Hrep Hpos ltac:(lia) Hm E Hr1) as (-> & Hrep' & Hpos'). cbn [Z.eqb andb negb].
  cbn [Z.eqb] in *. destruct (note_write_space _ _ _ _) as [r2 d2] eqn:E2. intros [= <- <-] _.
  apply note_write_space_frame in E2 as ([Hb Hp] & _). split; cbn; rewrite ?Hb, ?Hp; done.
Qed.

Definition label_log (c : list Z) (l : ltfs_label) (p : Z) : list tape_record :=
  [TData (label_make_ansi_label l 80); TFilemark; TData (print_xml (xml_make_label c p l)); TFilemark].

Lemma written_nonneg r ok : written r ok -> 0 <= r -> r = ok.
Proof. intros [?|[?|?]] Hr; [done|subst; neg_ret Hr..]. Qed.

Ltac small := cbn [m_block m_append m_move]; unfold zlength; cbn [length]; lia.

(** A label that was written starts its partition; the other one is not touched. *)
Lemma label_written c l p d m d' : dev_ok d m -> p = 0 \/ p = 1 -> length (barcode l) = 6%nat ->
  Forall (fun c => c <> 0) (barcode l) -> ltfs_write_label print_xml now c l p d = (0, d') ->
  exists m', dev_ok d' m' /\ m_log m' p = label_log c l p /\ forall q, q <> p -> m_log m' q = m_log m q.
Proof.
  intros Hok Hp Hl Hn. unfold ltfs_write_label.
  destruct (tape_seek now d _) as [r0 d0] eqn:E0. destruct (r0 <? 0) eqn:Hr0; [intros [= -> _]; done|]. bsplit.
  destruct (tape_seek_cases now d m (mk_position 0 0 p false false) r0 d0 Hok ltac:(cbn; lia) ltac:(cbn; lia) E0) as (_ & _ & _ & Hs).
  destruct (Hs Hr0) as (_ & Hok0 & _). clear Hs.
  assert (Hz : Z.min 0 (m_eod m p) = 0) by (unfold m_eod; pose proof (zlength_nonneg (m_log m p)); lia).
  cbn in Hok0. rewrite Hz in Hok0.
  destruct (tape_write now d0 _ true false) as [r1 d1] eqn:E1. destruct (r1 <? 0) eqn:Hr1; [intros [= -> _]; done|]. bsplit.
  assert (Ha : label_make_ansi_label l 80 <> []) by (destruct (ansi_label l Hl Hn) as [Hx _]; by destruct (label_make_ansi_label l 80)).
  destruct (tape_write_cases _ _ _ _ _ _ _ _ Hok0 ltac:(small) Ha E1) as [[? _]|[[? _]|(_ & Hok1 & _)]]; [lia..|].
  destruct (tape_write_filemark now d1 1 true false true) as [r2 d2] eqn:E2. destruct (r2 <? 0) eqn:Hr2; [intros [= -> _]; done|]. bsplit.
  pose proof (filemark_written _ _ _ _ Hok1 ltac:(small) E2 Hr2) as Hok2.
  destruct (tape_write now d2 _ true false) as [r3 d3] eqn:E3. destruct (r3 <? 0) eqn:Hr3; [bsplit; intros [= ? _]; lia|]. bsplit.
  destruct (tape_write_cases _ _ _ _ _ _ _ _ Hok2 ltac:(small) (xml_not_empty _) E3) as [[? _]|[[? _]|(_ & Hok3 & _)]]; [lia..|].
  destruct (tape_write_filemark now d3 1 true false true) as [r4 d4] eqn:E4. destruct (r4 <? 0) eqn:Hr4; [intros [= -> _]; done|]. bsplit.
  pose proof (filemark_written _ _ _ _ Hok3 ltac:(small) E4 Hr4) as Hok4. intros [= <-].
  eexists. split; [exact Hok4|]. split.
  - cbn. rewrite !Z.eqb_refl. done.
  - intros q Hq. cbn. by rewrite (proj2 (Z.eqb_neq q p) Hq).
Qed.

(** What reading a label asks of the drive: to seek to the start of the partition
    and to read four records with the buffer of 4096 bytes. *)
Abbreviation label_read_call := (CallRead LTFS_LABEL_MAX true).

Definition label_calls (p : Z) : list drive_call :=
  CallSeek (mk_position 0 0 p false false) :: replicate 4 label_read_call.

(** The file mark behind a label. *)
Lemma filemark_read d m calls r d' : run_at now d m (label_read_call :: calls) -> m_here m = Some TFilemark -> read_filemark now d = (r, d') ->
  r = 0 /\ run_at now d' (m_move m (m_part m) (m_block m + 1)) calls.
Proof.
  intros Hre Hm. unfold read_filemark. destruct (tape_read now None d LTFS_LABEL_MAX true) as [[n buf] d1] eqn:E.
  destruct (run_read now _ _ _ _ _ _ _ _ _ Hre Hm E ltac:(done)) as (-> & _ & Hre'). by intros [= <- <-].
Qed.

Lemma xml_label_back c l p l0 : good_label l -> p = 0 \/ p = 1 -> c <> [] ->
  xml_label_from_mem read_xml (print_xml (xml_make_label c p l)) l0 = (0, label_read c p l l0).
Proof.
  intros Hg Hp Hc. unfold xml_label_from_mem. destruct (xml_reads (xml_make_label c p l)) as (ns & -> & Hns).
  pose proof (reads_length _ _ Hns).
  destruct (label_parsed (Datatypes.S (length ns)) c p l l0 Hg Hp Hc ltac:(lia) ns Hns) as (ns' & -> & _). done.
Qed.

Lemma one_label_back c l p bs calls d m ret l' d' : run_at now d m (label_calls p ++ calls) -> good_label l -> p = 0 \/ p = 1 -> c <> [] -> LTFS_LABEL_MAX <= bs ->
  zlength (print_xml (xml_make_label c p l)) <= LTFS_LABEL_MAX -> m_log m p = label_log c l p ->
  ltfs_read_one_label read_xml now (0, bs) p label_alloc d = (ret, l', d') ->
  ret = 0 /\ l' = label_read c p l (label_alloc <| barcode := barcode l |>) /\
    exists m', run_at now d' m' calls /\ m_log m' = m_log m.
Proof.
  intros Hre Hg Hp Hc Hbs Hx Hlog. destruct (good_barcode l Hg) as (Hbl & Hbn & _). destruct (ansi_label l Hbl Hbn) as (A1 & A2 & A3).
  unfold ltfs_read_one_label. cbn [Z.ltb Z.compare]. rewrite (proj2 (Z.ltb_ge bs LTFS_LABEL_MAX)) by done.
  destruct (tape_seek now d _) as [r0 d0] eqn:E0.
  destruct (run_seek now d m (mk_position 0 0 p false false) _ r0 d0 Hre Hp ltac:(cbn; pose proof (zlength_nonneg (m_log m p)); unfold m_eod; lia) E0)
    as [-> Hre0].
  cbn [Z.ltb Z.compare partition block] in *.
  assert (Hh : forall i, m_here (m_move m p i) = label_log c l p !! Z.to_nat i) by (intros; unfold m_here; cbn; by rewrite Hlog).
  destruct (tape_read now None d0 LTFS_LABEL_MAX true) as [[n1 b1] d1] eqn:E1.
  destruct (run_read now _ _ _ _ _ _ _ _ _ Hre0 (Hh 0) E1 ltac:(unfold zlength; cbn; rewrite A1; done)) as (-> & -> & Hre1).
  cbn [record_bytes]. unfold zlength. rewrite A1. cbn [Z.of_nat Z.ltb Z.compare]. change (Z.of_nat 80) with 80. cbn [Z.ltb Z.compare Pos.compare Pos.compare_cont].
  rewrite A2, A3, bool_decide_true by done. cbn [negb]. unfold read_xml_label. cbn [m_move m_part m_block Z.add] in Hre1.
  destruct (read_filemark now d1) as [r2 d2] eqn:E2. destruct (filemark_read _ _ _ _ _ Hre1 (Hh 1) E2) as [-> Hre2].
  cbn [Z.ltb Z.compare m_move m_part m_block Z.add Pos.add] in *.
  destruct (tape_read now None d2 LTFS_LABEL_MAX true) as [[n3 b3] d3] eqn:E3.
  destruct (run_read now _ _ _ _ _ _ _ _ _ Hre2 (Hh 2) E3 Hx) as (-> & -> & Hre3).
  cbn [record_bytes m_move m_part m_block Z.add Pos.add] in *. pose proof (zlength_nonneg (print_xml (xml_make_label c p l))).
  rewrite (proj2 (Z.ltb_ge (zlength _) 0)) by done. rewrite xml_label_back by done. cbn [Z.ltb Z.compare].
  destruct (read_filemark now d3) as [r4 d4] eqn:E4. destruct (filemark_read _ _ _ _ _ Hre3 (Hh 3) E4) as [-> Hre4].
  intros [= <- <- <-]. do 2 (split; [done|]). by eexists.
Qed.

(** The two labels of a volume agree. *)
Lemma labels_agree c l : good_label l ->
  label_compare (label_read c 0 l (label_alloc <| barcode := barcode l |>)) (label_read c 1 l (label_alloc <| barcode := barcode l |>)) = 0.
Proof.
  intros Hg. destruct (good_barcode l Hg) as (_ & _ & Hb). destruct Hg as [_ _ _ _ Hd Hi Hne Hmap].
  unfold label_compare, strncmp_eq, time_eqb, ltfs_is_valid_partid, is_partition_of, in_range. cbn [barcode l_vol_uuid format_time l_blocksize
    enable_compression partid_dp partid_ip this_partition l_version label_read].
  rewrite !bool_decide_true, !Z.eqb_refl, Bool.eqb_reflx by done. cbn [negb andb orb].
  change (barcode (label_alloc <| barcode := barcode l |>)) with (barcode l). rewrite Hb.
  destruct Hmap as [->| ->]; cbn; repeat (case_bool; try lia).
Qed.

Lemma uuid_length v : xml_parse_uuid v = Some v -> length v = 36%nat.
Proof. unfold xml_parse_uuid. destruct (Nat.eqb_spec (length v) 36); done. Qed.

Definition volume_label (c : list Z) (l vol : ltfs_label) : ltfs_label :=
  l <| l_creator := c |> <| l_version := LTFS_LABEL_VERSION |> <| this_partition := this_partition vol |>.

(** C8: a volume that was labelled is recognised: when [ltfs_write_label] has
    succeeded on both partitions, then [ltfs_read_labels] succeeds and returns the
    parameters of the format (bar code, UUID, time, block size, compression,
    partition map), provided that the drive carries out the ten calls that it
    makes: for each partition a seek to its start and four reads with the buffer of
    4096 bytes, in which each record fits.  The drive can transfer blocks of that
    size, and the label in XML is not longer.  For every backend that keeps the
    contract of the tape layer. *)
Theorem labels_read_back c l vol bs d m first second d1 d2 ret vol' d3
    (Hg : good_label l) (Hc : c <> []) (Hbs : LTFS_LABEL_MAX <= bs)
    (Hx : forall p, zlength (print_xml (xml_make_label c p l)) <= LTFS_LABEL_MAX)
    (Hok : dev_ok d m) (Hparts : first = 0 /\ second = 1 \/ first = 1 /\ second = 0)
    (H1 : ltfs_write_label print_xml now c l first d = (0, d1))
    (H2 : ltfs_write_label print_xml now c l second d1 = (0, d2))
    (Hdrive : carries_out now (label_calls 0 ++ label_calls 1) d2 = true)
    (Hr : ltfs_read_labels read_xml now (0, bs) vol d2 = (ret, vol', d3)) :
  ret = 0 /\ vol' = volume_label c l vol.
Proof.
  destruct (good_barcode l Hg) as (Hbl & Hbn & _).
  destruct (label_written c l first d m d1) as (m1 & Hok1 & L1 & O1); [done|lia|done..|].
  destruct (label_written c l second d1 m1 d2) as (m2 & Hok2 & L2 & O2); [done|lia|done..|].
  assert (Hlog : forall p, p = 0 \/ p = 1 -> m_log m2 p = label_log c l p).
  { intros p Hp. destruct (Z.eq_dec p second) as [->|Hne]; [done|]. rewrite O2 by done. assert (p = first) as -> by lia. done. }
  unfold ltfs_read_labels in Hr. destruct (ltfs_read_one_label read_xml now (0, bs) 0 label_alloc d2) as [[r0 l0] e0] eqn:E0.
  destruct (one_label_back c l 0 bs (label_calls 1) d2 m2 r0 l0 e0 (conj Hok2 Hdrive)) as (-> & -> & m3 & Hre & L3); [by auto..|].
  cbn [Z.ltb Z.compare] in Hr. destruct (ltfs_read_one_label read_xml now (0, bs) 1 label_alloc e0) as [[r1 l1] e1] eqn:E1.
  destruct (one_label_back c l 1 bs [] e0 m3 r1 l1 e1) as (-> & -> & m4 & _ & L4); try by auto.
  { rewrite L3. auto. }
  cbn [Z.ltb Z.compare] in Hr. rewrite labels_agree in Hr by done. cbn [Z.ltb Z.compare] in Hr. injection Hr as <- <- <-. split; [done|].
  destruct (gl_uuid _ Hg) as [_ Hu%uuid_length]. unfold store_label, volume_label, label_read. cbn. rewrite !take_ge by lia.
  destruct (gl_map _ Hg) as [E|E]; destruct l; cbn in *; by subst.
Qed.
End tape.
