(* ===== verification/LabelWitness.v ===== *)
(** * A volume on which the labels are read back

    A document of libxml2 is replaced by the bytes of a number that encodes its
    nodes; the tape is a blank tape of the file backend with a transfer limit. *)

From Stdlib Require Import String.
From stdpp Require Import countable strings.
From S2P Require Import Prelude LtfsError TapeOps FileDebug FileDebugLaws TapeLayer TapeSpace TapeProps Time TimeProps Xml XmlProps IndexXml IndexXmlWitness Label LabelProps.

(** ** Nodes as bytes *)

#[local] Instance xnode_eq_dec : EqDecision xnode.
Proof. solve_decision. Defined.

Abbreviation node_code := (string * attributes * bool + (string + list Z) + Z)%type.

Definition code_node (x : xnode) : node_code :=
  match x with
  | XStart t a e => inl (inl (t, a, e))
  | XEnd t => inl (inr (inl t))
  | XText v => inl (inr (inr v))
  | XOther n => inr n
  end.

Definition decode_node (c : node_code) : xnode :=
  match c with
  | inl (inl (t, a, e)) => XStart t a e
  | inl (inr (inl t)) => XEnd t
  | inl (inr (inr v)) => XText v
  | inr n => XOther n
  end.

#[local] Instance xnode_countable : Countable xnode.
Proof. refine (inj_countable' code_node decode_node _). by intros []. Defined.

Fixpoint number_bytes (n : nat) (z : Z) : list Z :=
  match n with
  | O => []
  | Datatypes.S n => if z =? 0 then [] else Z.land z 255 :: number_bytes n (Z.shiftr z 8)
  end.

Definition bytes_number (l : list Z) : Z := foldr (fun b z => b + 256 * z) 0 l.

Lemma number_bytes_back n z : 0 <= z < 2 ^ Z.of_nat n -> bytes_number (number_bytes n z) = z.
Proof.
  revert z. induction n as [|n IH]; intros z Hz; [by cbn in *; lia|]. cbn [number_bytes].
  destruct (Z.eqb_spec z 0) as [->|Hne]; [done|]. cbn. fold bytes_number.
  change 255 with (Z.ones 8). rewrite Z.land_ones, Z.shiftr_div_pow2 by lia. change (2 ^ 8) with 256. rewrite IH.
  - pose proof (Z.div_mod z 256). lia.
  - rewrite Nat2Z.inj_succ, Z.pow_succ_r in Hz by lia. split; [apply Z.div_pos; lia|]. apply Z.div_lt_upper_bound; lia.
Qed.

Definition print_doc (ts : list token) : list Z :=
  let p := encode (snd <$> ts) in number_bytes (Datatypes.S (Z.to_nat (Z.log2 (Zpos p)))) (Zpos p).

Definition read_doc (l : list Z) : bool * list xnode := (true, default [] (decode (Z.to_pos (bytes_number l)))).

Lemma print_doc_number ts : bytes_number (print_doc ts) = Zpos (encode (snd <$> ts)).
Proof.
  apply number_bytes_back. split; [done|]. rewrite Nat2Z.inj_succ, Z2Nat.id by apply Z.log2_nonneg. by apply Z.log2_spec.
Qed.

Lemma print_doc_not_empty ts : print_doc ts <> [].
Proof. intros E. pose proof (print_doc_number ts) as H. by rewrite E in H. Qed.

Lemma read_doc_printed ts : exists ns, read_doc (print_doc ts) = (true, ns) /\ reads_as ts ns.
Proof. exists (snd <$> ts). split; [|apply reads_plain]. unfold read_doc. rewrite print_doc_number. cbn. by rewrite decode_encode. Qed.

(** ** The volume *)

Definition small_label : ltfs_label :=
  mk_label [] LTFS_LABEL_VERSION (str "AUR001") (str "01234567-89ab-cdef-0123-456789abcdef") t0 524288 true 0 98 97 (97, 98).

Lemma small_label_good : good_label small_label.
Proof.
  constructor; [by right|done|apply t0_ok|cbn; lia..|by right].
Qed.

Abbreviation write_small := (ltfs_write_label print_doc epoch (str "writer") small_label).

(** A drive that transfers no more than 4096 bytes at once. *)
Definition limited_device : device_data filedebug_data :=
  blank_device <| backend_data := blank_tape <| conf := (conf blank_tape) <| max_transfer_bytes := 4096 |> |> |>.

Lemma limited_device_ok : dev_ok limited_device blank_medium.
Proof. split; [exact blank_rep|done]. Qed.

Definition half_labelled : device_data filedebug_data := snd (write_small 1 limited_device).

Definition labelled : device_data filedebug_data := snd (write_small 0 half_labelled).

Abbreviation read_small := (ltfs_read_labels read_doc epoch (0, 1048576) label_alloc labelled).

Lemma label_fits p : zlength (print_doc (xml_make_label (str "writer") p small_label)) <= LTFS_LABEL_MAX.
Proof.
  unfold xml_make_label. destruct (p =? 0) eqn:Ep; unfold a2get; rewrite Ep; vm_compute; congruence.
Qed.

Lemma first_label_written : write_small 1 limited_device = (0, half_labelled).
Proof. vm_compute. reflexivity. Qed.

Lemma second_label_written : write_small 0 half_labelled = (0, labelled).
Proof. vm_compute. reflexivity. Qed.

Lemma labels_carried_out : carries_out epoch (label_calls 0 ++ label_calls 1) labelled = true.
Proof. vm_compute. reflexivity. Qed.

Lemma labels_read_back_witness :
  fst (fst read_small) = 0 /\ snd (fst read_small) = volume_label (str "writer") small_label label_alloc.
Proof.
  refine (labels_read_back print_doc read_doc print_doc_not_empty read_doc_printed epoch (str "writer") small_label label_alloc 1048576
    limited_device blank_medium 1 0 half_labelled labelled _ _ (snd read_small) small_label_good _ _
    label_fits limited_device_ok (or_intror (conj eq_refl eq_refl)) first_label_written second_label_written labels_carried_out _).
  - done.
  - done.
  - by destruct (ltfs_read_labels _ _ _ _ _) as [[??]?].
Defined.
