(* ===== verification/Volume.v ===== *)
(** * Indexes on tape (src/libltfs/ltfs.c, ltfs_internal.c, xml_writer.c, xml_reader.c)

    How an index gets to the end of a partition and is found again.
    [ltfs_write_index] moves to the append position, writes a file mark, the XML
    text in blocks, another file mark, and updates pointers, journal and the
    cartridge memory; [ltfs_seek_index] goes back from the end of data over file
    marks until something reads as an index; [_ltfs_check_pointers] decides which
    of the two partitions has the newer one.

    libxml2 is a parameter ([libs]): the bytes of a document and the pieces in
    which they are written, what it asks for next given the bytes it has, and
    the nodes of what it got.  There is no index cache on disk, no dentry cache and no key
    manager, and memory is never short.  What an unfinished parse leaves in the
    index is not modelled: the index is then a new one.  Conflicts of symbolic
    links are not repaired ([recover_symlink] is false).  [levels] is the room for
    the recursion over the tree.  The text of an incremental index and the text
    that was written when the writer of a full index fails are parameters. *)

From Stdlib Require Import String.
From S2P Require Import Prelude LtfsError Extents TapeOps TapeLayer Mam Journal Criteria Base64 KeyFormat Time Xml IndexXml Label.

(** ** The volume *)

(** [struct ltfs_volume], with the flags of [struct ltfs_index] that are not in the text. *)
Record ltfs_volume (S : Type) := mk_volume {
  device : device_data S;
  label : ltfs_label;
  index : ltfs_index;
  idx_dirty : bool;
  inc_dirty : bool;
  atime_dirty : bool;
  use_atime : bool;
  selfptr_inc : tape_offset;
  backptr_inc : tape_offset;
  v_creator : list Z;
  v_journal : jvolume;
  ip_index_file_end : bool;
  dp_index_file_end : bool;
  ip_coh : tc_coherency;
  dp_coh : tc_coherency;
  full_index_interval : Z;
  full_index_to_go : Z;
  v_reval : Z;
  attr_vollock : option Z;
  lock_status : Z;
  ignore_wrong_version : bool;
}.

Arguments mk_volume {S}.
Arguments device {S}. Arguments label {S}. Arguments index {S}. Arguments idx_dirty {S}. Arguments inc_dirty {S}.
Arguments atime_dirty {S}. Arguments use_atime {S}. Arguments selfptr_inc {S}. Arguments backptr_inc {S}.
Arguments v_creator {S}. Arguments v_journal {S}. Arguments ip_index_file_end {S}. Arguments dp_index_file_end {S}.
Arguments ip_coh {S}. Arguments dp_coh {S}. Arguments full_index_interval {S}. Arguments full_index_to_go {S}.
Arguments v_reval {S}. Arguments attr_vollock {S}. Arguments lock_status {S}. Arguments ignore_wrong_version {S}.

#[export] Instance eta_volume {S} : Eta (ltfs_volume S) := fun v =>
  mk_volume (device v) (label v) (index v) (idx_dirty v) (inc_dirty v) (atime_dirty v) (use_atime v) (selfptr_inc v)
    (backptr_inc v) (v_creator v) (v_journal v) (ip_index_file_end v) (dp_index_file_end v) (ip_coh v) (dp_coh v)
    (full_index_interval v) (full_index_to_go v) (v_reval v) (attr_vollock v) (lock_status v) (ignore_wrong_version v).

(** [enum ltfs_index_type]. *)
Inductive ltfs_index_type := LTFS_INDEX_AUTO | LTFS_FULL_INDEX | LTFS_INCREMENTAL_INDEX.

#[export] Instance index_type_eq_dec : EqDecision ltfs_index_type.
Proof. solve_decision. Defined.

Definition SYNC_FORMAT : list Z := str "Format".
Definition SYNC_WRITE_PERM : list Z := str "Write perm".

(** What the code takes from ICU, uthash and libxml2. *)
Record libs := mk_libs {
  u8_next : list Z -> option nat;
  validate_xattr_value : list Z -> Z;
  write_base64 : list Z -> list Z;
  pathname_normalize : path -> Z + path;
  pathname_validate_file : path -> Z;
  pathname_validate_target : path -> Z;
  hash_sort : list dtree -> list dtree;
  print_xml : list token -> list Z;
  xml_pieces : list Z -> list (list Z);
  xml_asks : list Z -> option Z;
  read_xml : list Z -> bool * list xnode;
}.

Section volume.
Context {S : Type} `{TapeOps S} `{MamOps S}.
Variable lib : libs.
Variable levels : nat.
Variable now : ltfs_timespec.
Variable incremental_schema : list Z -> ltfs_volume S -> option (list token) * ltfs_volume S.
Variable unfinished_text : list Z.
Implicit Types (d : device_data S) (v : ltfs_volume S).

Definition ltfs_dp_id v : Z := partid_dp (label v).
Definition ltfs_ip_id v : Z := partid_ip (label v).
Definition part_num v (id : Z) : Z := ltfs_part_id2num id (label v).

Definition put_device v d : ltfs_volume S := v <| device := d |>.
Definition put_index v (i : ltfs_index) : ltfs_volume S := v <| index := i |>.

(** [ltfs_index_alloc] for the volume. *)
Definition new_index v : ltfs_volume S :=
  put_index (v <| idx_dirty := false |> <| inc_dirty := false |> <| atime_dirty := false |> <| use_atime := false |>
               <| selfptr_inc := mk_offset 0 0 |> <| backptr_inc := mk_offset 0 0 |>) ltfs_index_alloc.

Definition ltfs_is_dirty v : bool := idx_dirty v || (use_atime v && atime_dirty v).

Definition ltfs_set_index_dirty (atime : bool) v : ltfs_volume S :=
  let v := if atime then v <| atime_dirty := true |> else v <| idx_dirty := true |> <| inc_dirty := true |> in
  if negb atime || use_atime v then put_index v ((index v) <| version := write_version (index v) |>) else v.

Definition ltfs_unset_index_dirty (update_version : bool) v : ltfs_volume S :=
  let v := v <| idx_dirty := false |> <| inc_dirty := false |> <| atime_dirty := false |> in
  if update_version then put_index v ((index v) <| version := write_version (index v) |>) else v.

Definition ltfs_get_partition_readonly (partition : Z) v : Z :=
  if negb (partition =? ltfs_dp_id v) && negb (partition =? ltfs_ip_id v) then - LTFS_BAD_PARTNUM
  else tape_read_only (device v) (part_num v partition).

(** A time that cannot be formatted leaves the message as it is (see the note on line 5071). *)
Definition ltfs_set_commit_message_reason (reason : list Z) v : ltfs_volume S :=
  if negb (idx_dirty v) then v
  else
    ltfs_set_index_dirty false
      (put_index v ((index v) <| commit_message := Some (reason ++ str " - " ++ time_text now) |>)).

(** ** Writing the text *)

Record xml_output := mk_output { o_buf : list Z; o_err : Z }.

(** The loop of the write callback: fill a block, write it, until at most a block is left. *)
Fixpoint write_blocks (fuel size : nat) (buf rest : list Z) d : Z * list Z * device_data S :=
  match fuel with
  | O => (0, rest, d)
  | Datatypes.S fuel =>
      let n := (size - length buf)%nat in
      let '(ret, d) := tape_write now d (buf ++ take n rest) true true in
      if ret <? 0 then (ret, [], d)
      else
        let rest := drop n rest in
        if (size <? length rest)%nat then write_blocks fuel size [] rest d else (0, rest, d)
  end.

Definition xml_output_tape_write_callback (size : nat) (buffer : list Z) (o : xml_output) d : xml_output * device_data S :=
  if bool_decide (buffer = []) || negb (o_err o =? 0) then (o, d)
  else if (length (o_buf o) + length buffer <? size)%nat then (mk_output (o_buf o ++ buffer) 0, d)
  else
    let '(err, buf, d) := write_blocks (Datatypes.S (length buffer)) size (o_buf o) buffer d in
    (mk_output buf err, d).

Fixpoint output_pieces (size : nat) (pieces : list (list Z)) (o : xml_output) d : xml_output * device_data S :=
  match pieces with
  | [] => (o, d)
  | p :: pieces => let '(o, d) := xml_output_tape_write_callback size p o d in output_pieces size pieces o d
  end.

Definition xml_output_tape_close_callback (o : xml_output) d : xml_output * device_data S :=
  if (o_err o =? 0) && negb (bool_decide (o_buf o = [])) then
    let '(ret, d) := tape_write now d (o_buf o) true true in
    (mk_output (o_buf o) (if ret <? 0 then ret else 0), d)
  else (o, d).

(** The text of an index, and the volume with the tree in the order of the text. *)
Definition index_text (creator : list Z) (type : ltfs_index_type) v : list Z * ltfs_volume S :=
  match type with
  | LTFS_FULL_INDEX =>
      match _xml_write_schema (u8_next lib) (validate_xattr_value lib) (write_base64 lib) (hash_sort lib) levels creator (index v) with
      | Some (ts, idx) => (print_xml lib ts, put_index v idx)
      | None => (unfinished_text, v)
      end
  | LTFS_INCREMENTAL_INDEX =>
      let '(ts, v) := incremental_schema creator v in
      (match ts with Some ts => print_xml lib ts | None => unfinished_text end, v)
  | LTFS_INDEX_AUTO => ([], v)
  end.

Definition xml_schema_to_tape (reason : list Z) (type : ltfs_index_type) v : Z * ltfs_volume S :=
  let size := Z.to_nat (l_blocksize (label v)) in
  let '(text, v) := index_text (v_creator v ++ str " - " ++ reason) type v in
  let '(o, d) := output_pieces size (xml_pieces lib text) (mk_output [] 0) (device v) in
  let '(o, d) := xml_output_tape_close_callback o d in
  let '(ret, d) :=
    if negb (o_err o =? 0) then (o_err o, d)
    else tape_write_filemark now d 1 true true (bool_decide (reason = SYNC_FORMAT)) in
  (ret, put_index (put_device v d) ((index v) <| creator := v_creator v |>)).


(** ** The cartridge memory *)

Definition put_coherency (part : Z) (coh : tc_coherency) v : ltfs_volume S :=
  put_device v (tape_set_cart_coherency part coh (device v)).2.

(** The coherency data of the partition [id]: they tell where its index is. *)
Definition point_coherency (current_vcr id : Z) (coh : tc_coherency) v : tc_coherency :=
  let coh := if to_partition (selfptr (index v)) =? id
             then coh <| coh_count := generation (index v) |> <| set_id := to_block (selfptr (index v)) |> else coh in
  let coh := coh <| coh_version := 1 |> <| volume_change_ref := current_vcr |> in
  if bool_decide (coh_uuid coh = []) then coh <| coh_uuid := l_vol_uuid (label v) |> else coh.

Definition ltfs_update_cart_coherency v : ltfs_volume S :=
  let current_vcr := (tape_get_volume_change_reference (device v)).2 in
  if (current_vcr =? 0) || (current_vcr =? UINT64_MAX) then v
  else
    let v :=
      if ip_index_file_end v then
        let coh := point_coherency current_vcr (ltfs_ip_id v) (ip_coh v) v in
        put_coherency (part_num v (ltfs_ip_id v)) coh (v <| ip_coh := coh |>)
      else v in
    if dp_index_file_end v then
      let coh := point_coherency current_vcr (ltfs_dp_id v) (dp_coh v) v in
      put_coherency (part_num v (ltfs_dp_id v)) coh (v <| dp_coh := coh |>)
    else v.

(** The numbers of [enum mam_advisory_lock_status]. *)
Definition lockval (l : mam_lockval) : Z :=
  match l with
  | UNLOCKED_MAM => 0 | LOCKED_MAM => 1 | PWE_MAM => 2 | PERMLOCKED_MAM => 3
  | PWE_MAM_DP => 4 | PWE_MAM_IP => 5 | PWE_MAM_BOTH => 6 | NOLOCK_MAM => 128
  end.

(** [update_tape_attribute] and [tape_set_attribute_to_cm] for the lock status;
    without [vol->t_attr] the result is -1. *)
Definition update_lock_attribute (status : Z) v : Z * ltfs_volume S :=
  match attr_vollock v with
  | None => (-1, v)
  | Some _ =>
      let '(ret, s) := op_write_attribute (backend_data (device v)) 0
                         (tobe 2 TC_MAM_LOCKED_MAM ++ [0] ++ tobe 2 TC_MAM_LOCKED_MAM_SIZE ++ [status mod 256]) in
      (ret, put_device (v <| attr_vollock := Some (status mod 256) |>) ((device v) <| backend_data := s |>))
  end.

Definition tape_set_cart_volume_lock_status (status : Z) v : Z * ltfs_volume S :=
  let cur_stat := (tape_get_cart_volume_lock_status (device v) (-1)).2 in
  if cur_stat =? status then (0, v)
  else if cur_stat =? lockval PERMLOCKED_MAM then (- LTFS_UNEXPECTED_VALUE, v)
  else if lockval PWE_MAM_BOTH <? status then (- LTFS_UNEXPECTED_VALUE, v)
  else
    let '(ret, v) := update_lock_attribute status v in
    if ret <? 0 then (ret, v)
    else
      let v := if status =? lockval LOCKED_MAM then put_index v ((index v) <| vollock := LOCKED_MAM |>)
               else if status =? lockval PERMLOCKED_MAM then put_index v ((index v) <| vollock := PERMLOCKED_MAM |>)
               else v in
      (ret, v <| attr_vollock := Some status |> <| lock_status := status |>).

(** ** Writing an index *)

Definition _ltfs_full_index_due v : bool := (0 <=? full_index_interval v) && (full_index_to_go v =? 0).

Definition ltfs_incremental_index_allowed v : bool := LTFS_INDEX_VERSION <=? write_version (index v).

Definition _ltfs_resolve_index_type (type : ltfs_index_type) v : ltfs_index_type :=
  let type :=
    if bool_decide (type = LTFS_INDEX_AUTO) then
      if _ltfs_full_index_due v || negb (ltfs_incremental_index_allowed v) then LTFS_FULL_INDEX else LTFS_INCREMENTAL_INDEX
    else type in
  if bool_decide (type = LTFS_INCREMENTAL_INDEX) &&
     (negb (ltfs_incremental_index_allowed v) || journal_err (v_journal v) || bool_decide (journal (v_journal v) = []))
  then LTFS_FULL_INDEX else type.

(** Out of space does not prevent writing an index. *)
Definition only_space (ret : Z) : bool := (ret =? - LTFS_NO_SPACE) || (ret =? - LTFS_LESS_SPACE).

Definition index_refusal v : Z :=
  let ret := ltfs_get_partition_readonly (ltfs_ip_id v) v in
  let ret := if (ret =? 0) || only_space ret then ltfs_get_partition_readonly (ltfs_dp_id v) v else ret in
  if (ret <? 0) && negb (only_space ret) then ret else 0.

(** A write error is lifted for the index, and the append position is looked up again. *)
Definition lift_write_error (partition : Z) v : ltfs_volume S :=
  let d := device v in
  put_device v (d <| write_error := false |> <| append_pos := a2set (append_pos d) (part_num v partition) 0 |>).

(** The lock status after a write error. *)
Definition write_error_status (volstat partition : Z) v : Z :=
  if (volstat =? lockval PWE_MAM_DP) && (partition =? ltfs_ip_id v) then lockval PWE_MAM_BOTH
  else if (volstat =? lockval PWE_MAM_IP) && (partition =? ltfs_dp_id v) then lockval PWE_MAM_BOTH
  else if (volstat =? lockval UNLOCKED_MAM) && (partition =? ltfs_ip_id v) then lockval PWE_MAM_IP
  else if (volstat =? lockval UNLOCKED_MAM) && (partition =? ltfs_dp_id v) then lockval PWE_MAM_DP
  else 0.

(** From [out_write_perm] on. *)
Definition write_index_out (write_perm update_vollock : bool) (volstat partition ret : Z) v : Z * ltfs_volume S :=
  let v := if write_perm then put_device v ((device v) <| write_error := true |>) else v in
  let new_volstat := if update_vollock then write_error_status volstat partition v else 0 in
  if new_volstat =? 0 then (ret, v)
  else
    let '(ret_mam, v) := tape_set_cart_volume_lock_status new_volstat v in
    (if ret_mam =? 0 then ret else ret_mam, v).

Definition undo_generation (generation_inc : bool) (modtime_old : ltfs_timespec) v : ltfs_volume S :=
  if generation_inc
  then put_index v ((index v) <| mod_time := modtime_old |> <| generation := u32 (generation (index v) - 1) |>) else v.

(** [old] has the pointers from before. *)
Definition undo_pointers (type : ltfs_index_type) (generation_inc : bool) (modtime_old : ltfs_timespec) (old : ltfs_volume S) v
    : ltfs_volume S :=
  if bool_decide (type = LTFS_FULL_INDEX) then
    let v := undo_generation generation_inc modtime_old v in
    put_index v ((index v) <| backptr := backptr (index old) |> <| selfptr := selfptr (index old) |>)
  else v <| backptr_inc := backptr_inc old |> <| selfptr_inc := selfptr_inc old |>.

(** The new back pointer and self pointer; a self pointer is behind the file mark. *)
Definition update_pointers (type : ltfs_index_type) v : ltfs_volume S :=
  let pos := position (device v) in
  let self := mk_offset (part_num2id (label v)).[TapeOps.partition pos] (block pos ⊞ 1) in
  if bool_decide (type = LTFS_FULL_INDEX) then
    let idx := index v in
    let idx := if to_partition (selfptr idx) =? ltfs_dp_id v then idx <| backptr := selfptr idx |> else idx in
    put_index v (idx <| selfptr := self |>)
  else v <| backptr_inc := selfptr_inc v |> <| selfptr_inc := self |>.

(** What is noted when the index is on tape. *)
Definition full_index_written (partition : Z) v : ltfs_volume S :=
  let v := if partition =? ltfs_ip_id v then v <| ip_index_file_end := true |> else v <| dp_index_file_end := true |> in
  let v := ltfs_update_cart_coherency v in
  let v :=
    if partition =? ltfs_ip_id v
    then put_device v (tape_set_ip_append_position (device v) (part_num v partition) (u64 (to_block (selfptr (index v)) - 1))).2
    else v in
  let v := v <| backptr_inc := mk_offset 0 0 |> <| selfptr_inc := mk_offset 0 0 |> in
  let v := v <| v_journal := (incj_clear (v_journal v)).2 |> in
  let v := ltfs_unset_index_dirty true v in
  v <| full_index_to_go := full_index_interval v |>.

Definition incremental_index_written v : ltfs_volume S :=
  let v := v <| dp_index_file_end := false |> <| inc_dirty := false |> in
  if 0 <? full_index_to_go v then v <| full_index_to_go := full_index_to_go v - 1 |> else v.

(** From the new generation on: the append position, the pointers, the file mark
    and the text.  [tape_get_position] only copies the position, so its error branch
    is never taken. *)
Definition write_index_here (partition : Z) (reason : list Z) (type : ltfs_index_type) (write_perm : bool) (volstat : Z) v
    : Z * ltfs_volume S :=
  let generation_inc := ltfs_is_dirty v in
  let modtime_old := mod_time (index v) in
  let v := if generation_inc
           then put_index v ((index v) <| generation := u32 (generation (index v) + 1) |> <| mod_time := now |>) else v in
  let '(ret, d) := tape_seek_append_position now (device v) (part_num v partition) (partition =? partid_ip (label v)) in
  let v := put_device v d in
  if ret <? 0 then write_index_out write_perm false volstat partition ret (undo_generation generation_inc modtime_old v)
  else
    let old := v in
    let v := update_pointers type v in
    let fail ret v :=
      write_index_out write_perm (IS_WRITE_PERM (- ret)) volstat partition ret
        (undo_pointers type generation_inc modtime_old old v) in
    let '(ret, d) :=
      if (partition =? ltfs_ip_id v) && negb (ip_index_file_end v)
      then tape_write_filemark now (device v) 0 true true false else (0, device v) in
    let v := put_device v d in
    if ret <? 0 then fail ret v
    else
      let '(ret, d) := tape_write_filemark now (device v) 1 true true true in
      let v := put_device v d in
      if ret <? 0 then fail ret v
      else
        let '(ret, v) := xml_schema_to_tape reason type v in
        if ret <? 0 then fail ret v
        else
          write_index_out write_perm false volstat partition ret
            (if bool_decide (type = LTFS_FULL_INDEX) then full_index_written partition v else incremental_index_written v).

(** The index goes to the data partition first. *)
Definition dp_index_first (partition : Z) (write_perm : bool) v : bool :=
  (partition =? ltfs_ip_id v) && negb write_perm &&
  (negb (dp_index_file_end v) || (ip_index_file_end v && (to_partition (selfptr (index v)) =? ltfs_ip_id v))).

(** [dp_index] is the recursive call for the data partition. *)
Definition write_index_with (dp_index : list Z -> ltfs_volume S -> Z * ltfs_volume S)
    (partition : Z) (reason : list Z) (type : ltfs_index_type) v : Z * ltfs_volume S :=
  let write_perm := bool_decide (reason = SYNC_WRITE_PERM) in
  let '(ret, volstat) := tape_get_cart_volume_lock_status (device v) (-1) in
  if ret <? 0 then (ret, v)
  else
    let type := _ltfs_resolve_index_type type v in
    let type := if bool_decide (type = LTFS_INCREMENTAL_INDEX) && negb (partition =? ltfs_dp_id v) then LTFS_FULL_INDEX else type in
    let refusal := if write_perm then 0 else index_refusal v in
    let v := if write_perm then lift_write_error partition v else v in
    if refusal <? 0 then (refusal, v)
    else if dp_index_first partition write_perm v then
      let v := v <| v_journal := (incj_clear (v_journal v)).2 |> in
      let '(ret, v) := dp_index reason v in
      if NEED_REVAL ret then (ret, v)
      else if IS_UNEXPECTED_MOVE ret then (ret, v <| v_reval := - LTFS_REVAL_FAILED |>)
      else if IS_WRITE_PERM (- ret) then
        let '(ret, volstat) := tape_get_cart_volume_lock_status (device v) volstat in
        if ret <? 0 then (ret, v)
        else
          write_index_here partition SYNC_WRITE_PERM LTFS_FULL_INDEX true volstat
            (ltfs_set_commit_message_reason SYNC_WRITE_PERM (lift_write_error partition v))
      else write_index_here partition reason LTFS_FULL_INDEX false volstat v
    else write_index_here partition reason type write_perm volstat v.

(** The index for the data partition never asks for another one: the two
    partitions have different names. *)
Definition ltfs_write_index : Z -> list Z -> ltfs_index_type -> ltfs_volume S -> Z * ltfs_volume S :=
  write_index_with (fun reason v => write_index_with (fun _ v => (0, v)) (ltfs_dp_id v) reason LTFS_FULL_INDEX v).

Definition SYNC_CASCHE_PRESSURE : list Z := str "Cache Pressure".

Definition ltfs_write_index_conditional (partition : Z) v : Z * ltfs_volume S :=
  if (partition =? ltfs_ip_id v) && negb (ip_index_file_end v) ||
     (partition =? ltfs_dp_id v) && (negb (dp_index_file_end v) ||
        (ip_index_file_end v && (to_partition (selfptr (index v)) =? ltfs_ip_id v)))
  then ltfs_write_index partition SYNC_CASCHE_PRESSURE LTFS_FULL_INDEX (ltfs_set_commit_message_reason SYNC_CASCHE_PRESSURE v)
  else (0, v).

(** ** Reading the text *)

Record xml_input := mk_input {
  current_pos : Z;
  eod_pos : Z;
  in_buf : list Z;
  saw_small_block : bool;
  saw_file_mark : bool;
  err_code : Z;
}.

#[export] Instance eta_input : Eta xml_input := fun x =>
  mk_input (current_pos x) (eod_pos x) (in_buf x) (saw_small_block x) (saw_file_mark x) (err_code x).

(** Back in front of the file mark that was read. *)
Definition before_file_mark (x : xml_input) d : bool * xml_input * device_data S :=
  let x := x <| saw_file_mark := true |> in
  let '(ret_sp, d) := tape_spacefm now d (-1) in
  if ret_sp <? 0 then (false, x <| err_code := ret_sp |>, d) else (true, x, d).

(** What follows a short read; [false] is a failure. *)
Definition look_for_file_mark (blocksize nread : Z) (x : xml_input) d : bool * xml_input * device_data S :=
  let x := x <| saw_small_block := true |> in
  if nread =? 0 then before_file_mark x d
  else if (eod_pos x =? 0) || ((0 <? eod_pos x) && (current_pos x <? eod_pos x)) then
    let '(nr2, _, d) := tape_read now None d blocksize false in
    if nr2 <? 0 then (false, x <| err_code := nr2 |>, d)
    else if nr2 =? 0 then before_file_mark x d
    else (true, x, d)
  else (true, x, d).

(** The loop of the read callback, with [saved] bytes so far; each turn adds at
    least one byte or is the last but one. *)
Fixpoint read_blocks (turns : nat) (blocksize : Z) (len : nat) (saved : list Z) (x : xml_input) d
    : option (list Z) * xml_input * device_data S :=
  match turns with
  | O => (Some saved, x, d)
  | Datatypes.S turns =>
      if (len <=? length saved)%nat then (Some saved, x, d)
      else if (0 <? eod_pos x) && (current_pos x =? eod_pos x) then (Some saved, x, d)
      else if saw_small_block x then (Some saved, x, d)
      else
        let '(nread, buf, d) := tape_read now None d blocksize false in
        let x := x <| current_pos := current_pos x ⊞ 1 |> in
        if nread <? 0 then (None, x <| err_code := nread |>, d)
        else
          let '(ok, x, d) := if nread <? blocksize then look_for_file_mark blocksize nread x d else (true, x, d) in
          if negb ok then (None, x, d)
          else
            let n := (len - length saved)%nat in
            read_blocks turns blocksize len (saved ++ take n buf) (x <| in_buf := drop n buf |>) d
  end.

(** [None] is the result -1. *)
Definition xml_input_tape_read_callback (blocksize : Z) (len : nat) (x : xml_input) d
    : option (list Z) * xml_input * device_data S :=
  if (len =? 0)%nat then (Some [], x, d)
  else if (len <=? length (in_buf x))%nat
  then (Some (take len (in_buf x)), x <| in_buf := drop len (in_buf x) |>, d)
  else read_blocks (Datatypes.S (Datatypes.S len)) blocksize len (in_buf x) (x <| in_buf := [] |>) d.

(** libxml2 asks for bytes until it has enough of them, or there are no more;
    [None] when [fuel] turns are not enough. *)
Fixpoint read_text (fuel : nat) (blocksize : Z) (got : list Z) (x : xml_input) d
    : option (list Z * xml_input * device_data S) :=
  match fuel with
  | O => None
  | Datatypes.S fuel =>
      match xml_asks lib got with
      | None => Some (got, x, d)
      | Some len =>
          let '(b, x, d) := xml_input_tape_read_callback blocksize (Z.to_nat len) x d in
          match b with
          | None | Some [] => Some (got, x, d)
          | Some b => read_text fuel blocksize (got ++ b) x d
          end
      end
  end.

(** [None] when the reading does not end within [fuel] turns, or the parser crashes. *)
Definition xml_schema_from_tape (fuel : nat) (eod_pos : Z) (skip_dir : bool) v : option (Z * ltfs_volume S) :=
  let blocksize := l_blocksize (label v) in
  '(text, x, d) ← read_text fuel blocksize [] (mk_input (block (position (device v))) eod_pos [] false false 0) (device v);
  let '(utf8, nodes) := read_xml lib text in
  let v := put_device v d in
  '(ret, v) ← match _xml_parse_schema (pathname_normalize lib) (pathname_validate_file lib) (pathname_validate_target lib)
                (Some blocksize) (Datatypes.S (length nodes)) levels utf8 skip_dir (nodes, index v) with
              | XOk (_, (_, idx)) => Some (0, put_index v idx)
              | XErr code => Some (code, v)
              | XCrash => None
              end;
  let ret := if err_code x <? 0 then err_code x else ret in
  Some (if ret <? 0 then (if ret =? -1 then - LTFS_INDEX_INVALID else ret)
        else if (ret =? 0) && negb (saw_file_mark x) then LTFS_NO_TRAIL_FM else ret, v).

(** Is the back pointer of an index possible? *)
Definition back_pointer_ok (l : ltfs_label) (idx : ltfs_index) : bool :=
  let self := selfptr idx in
  let back := backptr idx in
  if negb (to_partition back =? 0) && negb (to_partition back =? partid_dp l) then false
  else if (to_partition back =? to_partition self) && negb (to_block self =? 5) &&
          negb (to_block back =? to_block self) && (to_block self ⊟ 2 <=? to_block back) then false
  else if negb (to_partition back =? 0) && (to_block back <? 5) then false
  else true.

Definition ltfs_read_index (fuel : nat) (eod_pos : Z) (skip_dir : bool) v : option (Z * ltfs_volume S) :=
  let pos := position (device v) in
  '(ret, v) ← xml_schema_from_tape fuel eod_pos skip_dir (new_index v);
  if ret <? 0 then Some (ret, v)
  else
    let end_fm := negb (ret =? LTFS_NO_TRAIL_FM) in
    let v := put_index v ((index v) <| write_version := ltfs_index_write_version (l_version (label v)) (version (index v)) |>) in
    let idx := index v in
    if negb (strncmp_eq 36 (vol_uuid idx) (l_vol_uuid (label v))) then Some (- LTFS_INDEX_INVALID, v)
    else if negb (to_partition (selfptr idx) =? (part_num2id (label v)).[TapeOps.partition pos]) ||
            negb (to_block (selfptr idx) =? block pos) then Some (- LTFS_INDEX_INVALID, v)
    else if negb (back_pointer_ok (label v) idx) then Some (- LTFS_INDEX_INVALID, v)
    else if end_fm then
      let '(ret, d) := tape_spacefm now (device v) 1 in
      Some (if ret <? 0 then ret else 0, put_device v d)
    else Some (1, v).

(** ** Finding the last index of a partition *)

(** The results that [ltfs_seek_index] stores through its pointers. *)
Record found := mk_found {
  f_eod : Z;
  f_end : Z;
  fm_after : bool;
  blocks_after : bool;
}.

Definition keep_seeking (ret : Z) v : bool :=
  if (ret =? - LTFS_NO_MEMORY) || (ret =? - LTFS_ICU_ERROR) || (ret =? - LTFS_INVALID_PATH) || (ret =? - LTFS_NAMETOOLONG)
  then false
  else if ret =? - LTFS_UNSUPPORTED_INDEX_VERSION then ignore_wrong_version v
  else true.

(** The search loop from an index backwards; [tries] bounds the number of candidates. *)
Fixpoint seek_loop (tries fuel : nat) (partition eod : Z) v : option (Z * found * ltfs_volume S) :=
  match tries with
  | O => None
  | Datatypes.S tries =>
      let none := mk_found eod 0 false false in
      if block (position (device v)) =? 3 then Some (1, none, v)
      else
        let '(ret, d) := tape_spacefm now (device v) 1 in
        let v := put_device v d in
        if ret <? 0 then Some (ret, none, v)
        else
          '(ret, v) ← ltfs_read_index fuel eod false v;
          if ret <? 0 then
            if keep_seeking ret v then
              let '(ret, d) := tape_spacefm now (device v) (-2) in
              let v := put_device v d in
              if ret <? 0 then Some (ret, none, v) else seek_loop tries fuel partition eod v
            else Some (ret, none, v)
          else
            let pos := block (position (device v)) in
            let f := mk_found eod pos (ret =? 0) (negb (pos =? eod)) in
            if negb (partition =? to_partition (selfptr (index v))) then Some (- LTFS_INDEX_INVALID, f, v)
            else
              let note (coh : tc_coherency) :=
                coh <| coh_uuid := l_vol_uuid (label v) |> <| coh_count := generation (index v) |>
                    <| set_id := to_block (selfptr (index v)) |> in
              Some (0, f, if partition =? ltfs_ip_id v then v <| ip_coh := note (ip_coh v) |> else v <| dp_coh := note (dp_coh v) |>)
  end.

Definition ltfs_seek_index (tries fuel : nat) (partition : Z) v : option (Z * found * ltfs_volume S) :=
  let '(ret, d) := tape_seek_eod now (device v) (part_num v partition) in
  let v := put_device v d in
  if ret <? 0 then Some (ret, mk_found 0 0 false false, v)
  else
    let eod := block (position (device v)) in
    let none := mk_found eod 0 false false in
    if eod <=? 4 then Some (1, none, v)
    else
      let '(ret, d) := tape_spacefm now (device v) (-1) in
      let v := put_device v d in
      if ret <? 0 then Some (ret, none, v)
      else
        let pos := block (position (device v)) in
        if pos =? 3 then Some (1, none, v)
        else
          let '(ret, d) := if pos =? eod ⊟ 1 then tape_spacefm now (device v) (-1) else (0, device v) in
          let v := put_device v d in
          if ret <? 0 then Some (ret, none, v) else seek_loop tries fuel partition eod v.

(** ** Checking a volume *)

(** The block behind an extent. *)
Definition ext_lastblock (l : ltfs_label) (e : extent_info) : Z :=
  (start_block e ⊞ bytecount e / l_blocksize l) ⊞ (if 0 <? bytecount e mod l_blocksize l then 1 else 0).

Definition bad_extent (ip_eod dp_eod : Z) (l : ltfs_label) (e : extent_info) : bool :=
  (start_block e <? 4) || ((start_partition e =? partid_ip l) && (ip_eod <=? ext_lastblock l e)) ||
  ((start_partition e =? partid_dp l) && (dp_eod <=? ext_lastblock l e)).

Fixpoint _ltfs_check_extents (ip_eod dp_eod : Z) (l : ltfs_label) (t : dtree) : Z :=
  let 'DTree d children := t in
  let own := if existsb (bad_extent ip_eod dp_eod l) (extentlist d) then - LTFS_INDEX_INVALID else 0 in
  match children with
  | [] => own
  | _ :: _ =>
      if isdir d then
        (fix go ch :=
           match ch with
           | [] => 0
           | t :: ch => let ret := _ltfs_check_extents ip_eod dp_eod l t in if ret <? 0 then ret else go ch
           end) children
      else own
  end.

(** 0: the index of the index partition is newer, 1: that of the data partition, 2: there is none. *)
Definition _ltfs_check_pointers (fuel : nat) (ip_index dp_index : option ltfs_index) v : option (Z * ltfs_volume S) :=
  match ip_index, dp_index with
  | None, None => Some (2, v)
  | None, Some _ => Some (1, v)
  | Some ip, None => Some (if to_partition (backptr ip) =? 0 then 0 else - LTFS_INDEX_INVALID, v)
  | Some ip, Some dp =>
      if (generation dp <=? generation ip) && (to_partition (backptr ip) =? to_partition (selfptr dp)) &&
         (to_block (backptr ip) =? to_block (selfptr dp)) then Some (0, v)
      else if generation dp <? generation ip then Some (- LTFS_INDEX_INVALID, v)
      else if (generation ip =? generation dp) && (to_partition (backptr ip) =? 0) then Some (1, v)
      else if to_block (backptr ip) <? to_block (backptr dp) then
        let '(ret, d) := tape_seek now (device v)
                           (mk_position (to_block (backptr dp)) 0 (part_num v (ltfs_dp_id v)) false false) in
        let v := put_device v d in
        if ret <? 0 then Some (ret, v)
        else
          '(ret, v) ← ltfs_read_index fuel 0 true v;
          if ret <? 0 then Some (ret, v)
          else if (to_partition (backptr ip) =? 0) && (generation (index v) <? generation ip) then Some (- LTFS_INDEX_INVALID, v)
          else Some (1, v)
      else Some (1, v)
  end.

(** A missing file mark behind an index is written; the new end of data and the results. *)
Definition close_index (partition : Z) (f : found) (have : bool) v : Z * found * ltfs_volume S :=
  if have && negb (blocks_after f) && negb (fm_after f) then
    let '(ret, d) := tape_seek_eod now (device v) (part_num v partition) in
    if ret <? 0 then (ret, f, put_device v d)
    else
      let '(ret, d) := tape_write_filemark now d 1 true true false in
      if ret <? 0 then (ret, f, put_device v d)
      else (0, mk_found (f_eod f ⊞ 1) (f_end f) true (blocks_after f), put_device v d)
  else (0, f, v).

Definition SYNC_RECOVERY : list Z := str "Recovery".

(** Which index the volume has; [newer] is the answer of [_ltfs_check_pointers]. *)
Definition choose_index (newer : Z) (ip_index dp_index : option ltfs_index) (ip_eod dp_eod : Z) v : Z * ltfs_volume S :=
  match ip_index, dp_index with
  | Some ip, Some dp =>
      if newer =? 0 then (0, put_index v ip) else (0, ltfs_set_index_dirty false (put_index v dp))
  | Some i, None | None, Some i =>
      let ret := _ltfs_check_extents ip_eod dp_eod (label v) (root i) in
      if ret =? 0 then (0, ltfs_set_index_dirty false (put_index v i)) else (ret, v)
  | None, None => (0, v)
  end.

(** The last blocks of the two partitions that files refer to. *)
Fixpoint _ltfs_last_ref (l : ltfs_label) (t : dtree) (last : Z * Z) : Z * Z :=
  let 'DTree d children := t in
  let own := foldl (fun '(dp_last, ip_last) e =>
    let b := ext_lastblock l e in
    if (start_partition e =? partid_ip l) && (ip_last <? b) then (dp_last, b)
    else if (start_partition e =? partid_dp l) && (dp_last <? b) then (b, ip_last)
    else (dp_last, ip_last)) last (extentlist d) in
  match children with
  | [] => own
  | _ :: _ => if isdir d then foldl (fun last t => _ltfs_last_ref l t last) last children else own
  end.

(** Both partitions end in an index file if they have one; an index that is
    dirty is written again, when [fix_it] allows it. *)
Definition restore_consistency (fix_it : bool) (ip_have dp_have : bool) v : Z * ltfs_volume S :=
  let v := if ip_have then v <| ip_index_file_end := true |> else v in
  let v := if dp_have then v <| dp_index_file_end := true |> else v in
  if negb (idx_dirty v) then (0, ltfs_update_cart_coherency v)
  else if negb fix_it then (- LTFS_INCONSISTENT, v)
  else
    let append := (append_pos (device v)).[part_num v (ltfs_dp_id v)] in
    if negb (append =? 0) && (append <? (_ltfs_last_ref (label v) (root (index v)) (0, 0)).1) then (- LTFS_INDEX_INVALID, v)
    else
      let v := ltfs_set_commit_message_reason SYNC_RECOVERY v in
      let '(ret, v) := if dp_have then (0, v) else ltfs_write_index (ltfs_dp_id v) SYNC_RECOVERY LTFS_FULL_INDEX v in
      if ret =? 0 then (0, (ltfs_write_index (ltfs_ip_id v) SYNC_RECOVERY LTFS_FULL_INDEX v).2) else (ret, v).

(** [ltfs_check_medium] without deep recovery: extra blocks are refused, so what
    the function does about them afterwards is not reached. *)
Definition ltfs_check_medium (tries fuel : nat) (fix_it : bool) v : option (Z * ltfs_volume S) :=
  '(ret, ip_found, v) ← ltfs_seek_index tries fuel (ltfs_ip_id v) v;
  if ret <? 0 then Some (ret, v)
  else
    let ip_index := if ret =? 0 then Some (index v) else None in
    let ip_have := ret =? 0 in
    '(ret, dp_found, v) ← ltfs_seek_index tries fuel (ltfs_dp_id v) v;
    if ret <? 0 then Some (ret, v)
    else
      let dp_index := if ret =? 0 then Some (index v) else None in
      let dp_have := ret =? 0 in
      if negb ip_have && negb dp_have then Some (- LTFS_NO_INDEX, v)
      else
        let '(ret, dp_found, v) := close_index (ltfs_dp_id v) dp_found dp_have v in
        if ret <? 0 then Some (ret, v)
        else
          let '(ret, ip_found, v) := close_index (ltfs_ip_id v) ip_found ip_have v in
          if ret <? 0 then Some (ret, v)
          else
            let extra (f : found) (have : bool) := if have then blocks_after f else negb (f_eod f =? 4) in
            if extra dp_found dp_have || extra ip_found ip_have then Some (- LTFS_INCONSISTENT, v)
            else
              '(newer, v) ← _ltfs_check_pointers fuel ip_index dp_index v;
              if newer <? 0 then Some (newer, v)
              else
                let '(ret, v) := choose_index newer ip_index dp_index (f_eod ip_found) (f_eod dp_found) v in
                if ret <? 0 then Some (ret, v) else Some (restore_consistency fix_it ip_have dp_have v).
End volume.
