(* ===== verification/VolumeTape.v ===== *)
(** * The text of an index on tape

    What [xml_schema_to_tape] leaves on the medium when it succeeds, and that
    the read callback gives libxml2 the same bytes back and sees the file mark
    behind them.  For every backend that keeps the contract. *)

From Stdlib Require Import String.
From S2P Require Import Prelude LtfsError TapeOps TapeLayer TapeSpace Mam Xml IndexXml Label Volume.

(** ** Records appended to a medium *)

(** [m'] is [m] with everything from the head on replaced by [rs]. *)
Record appended (m : medium) (rs : list tape_record) (m' : medium) : Prop := {
  ap_part : m_part m' = m_part m;
  ap_block : m_block m' = m_block m + zlength rs;
  ap_log : m_log m' (m_part m) = take (Z.to_nat (m_block m)) (m_log m (m_part m)) ++ rs;
  ap_other q : q <> m_part m -> m_log m' q = m_log m q;
}.

Lemma appended_one m rs : appended m rs (m_append m rs).
Proof. split; [done|done|by cbn; rewrite Z.eqb_refl|]. intros q Hq. cbn. by rewrite (proj2 (Z.eqb_neq _ _)). Qed.

Lemma appended_trans m rs m1 ss m2 : m_wf m -> appended m rs m1 -> appended m1 ss m2 -> appended m (rs ++ ss) m2.
Proof.
  intros (_ & H0 & Hle) [P1 B1 L1 O1] [P2 B2 L2 O2]. unfold m_eod, zlength in Hle.
  split; [congruence|rewrite B2, B1, zlength_app; lia| |].
  - rewrite <- P1, L2, P1, L1, B1, app_assoc. f_equal. apply take_ge. unfold zlength. rewrite length_app, length_take. lia.
  - intros q Hq. rewrite O2 by congruence. by apply O1.
Qed.

(** ** Writing the text *)

(** Blocks of the size of the volume. *)
Abbreviation full size := (Forall (fun b : list Z => length b = size)).

Lemma full_count size bl : (0 < size)%nat -> full size bl -> (length bl <= length (concat bl))%nat.
Proof. intros Hs Hf. induction Hf as [|b bl Hb _ IH]; [done|]. cbn. rewrite length_app. lia. Qed.

(** The blocks of a text: full ones and a last one that is not empty. *)
Definition text_blocks (size : nat) (text : list Z) (bl : list (list Z)) : Prop :=
  exists fb last, bl = fb ++ [last] /\ concat fb ++ last = text /\ full size fb /\ (0 < length last <= size)%nat.

Section tape.
Context {S : Type} `{TapeLaws S}.
Variable now : ltfs_timespec.
Implicit Types d : device_data S.

(** The drive has written [rs], at least one record, at the head. *)
Definition wrote d (m : medium) (rs : list tape_record) d' : Prop :=
  exists m', dev_ok d' m' /\ appended m rs m' /\
    forall q, q = 0 \/ q = 1 -> q <> m_part m -> (append_pos d').[q] = (append_pos d).[q].

Lemma wrote_trans d m rs d1 m1 ss d2 : dev_ok d m -> dev_ok d1 m1 -> appended m rs m1 ->
  (forall q, q = 0 \/ q = 1 -> q <> m_part m -> (append_pos d1).[q] = (append_pos d).[q]) ->
  wrote d1 m1 ss d2 -> wrote d m (rs ++ ss) d2.
Proof.
  intros Hok Hok1 Ha Hq (m2 & Hok2 & Ha2 & Hq2). exists m2. split; [done|].
  split; [eapply appended_trans; [by eapply dev_ok_wf|done|done]|].
  intros q Hp Hne. rewrite Hq2; [by apply Hq|done|]. by rewrite (ap_part _ _ _ Ha).
Qed.

Lemma block_written d m buf il ins r d' : dev_ok d m -> m_block m + 1 < 2 ^ 62 -> buf <> [] ->
  tape_write now d buf il ins = (r, d') -> 0 <= r -> wrote d m [TData buf] d'.
Proof.
  intros Hok Hm Hb E Hr. destruct (tape_write_cases now d m buf il ins r d' Hok Hm Hb E) as [[? _]|[[? _]|(_ & Hok' & Ha & _)]]; [lia..|].
  exists (m_append m [TData buf]). split; [done|]. split; [apply appended_one|]. intros q Hq Hne. rewrite Ha.
  destruct (dev_ok_wf _ _ Hok) as [Hp _]. by apply a2get_set_ne.
Qed.

(** A file mark, or none: then nothing is written. *)
Lemma filemarks_written d m count il ins immed r d' : dev_ok d m -> count = 0 \/ count = 1 -> m_block m + 1 < 2 ^ 62 ->
  tape_write_filemark now d count il ins immed = (r, d') -> 0 <= r ->
  r = 0 /\ if count =? 0 then dev_ok d' m /\ forall q, q = 0 \/ q = 1 -> q <> m_part m -> (append_pos d').[q] = (append_pos d).[q]
           else wrote d m [TFilemark] d'.
Proof.
  assert (Hsize : forall c, c = 0 \/ c = 1 -> m_block (if c =? 0 then m else m_append m (replicate (Z.to_nat c) TFilemark)) <= m_block m + 1).
  { intros c [->| ->]; cbn [Z.eqb m_append m_block]; [lia|]. change (zlength _) with 1. lia. }
  intros Hok Hc Hm. pose proof Hok as [Hrep Hpos]. destruct (dev_ok_wf _ _ Hok) as [Hpart _]. unfold tape_write_filemark.
  destruct (write_refusal d il ins <? 0) eqn:Hw; [intros [= <- <-] ?; bsplit; lia|].
  destruct (op_writefm (backend_data d) count (position d) immed) as [[r1 s] p] eqn:E.
  destruct (r1 <? 0) eqn:Hr1; [intros [= <- <-] ?; bsplit; lia|]. bsplit.
  destruct (writefm_law (backend_data d) m count (position d) immed r1 s p Hrep Hpos ltac:(lia) ltac:(lia) E Hr1) as (-> & Hrep' & Hpos').
  set (m' := if count =? 0 then m else _) in *.
  set (d1 := if count =? 0 then _ else _).
  assert (H1 : dev_ok d1 m' /\ append_pos d1 = append_pos d) by (subst d1; by destruct (count =? 0)).
  destruct H1 as [[Hrep1 Hpos1] Ha1]. cbn [Z.eqb andb].
  set (res := if negb immed && negb (count =? 0) then _ else _).
  assert (H2 : exists r2 d2, res = (r2, d2) /\ (0 <= r2 -> r2 = 0 /\ dev_ok d2 m') /\ append_pos d2 = append_pos d).
  { subst res. destruct (negb immed && negb (count =? 0)); [|by exists 0, d1].
    destruct (op_writefm (backend_data d1) 0 (position d1) false) as [[r2 s2] p2] eqn:E2. eexists _, _. split; [done|]. split; [|done].
    intros Hr2. destruct (writefm_law (backend_data d1) m' 0 (position d1) false r2 s2 p2 Hrep1 Hpos1 ltac:(lia)) as (-> & ? & ?); [|done|done|by split].
    specialize (Hsize count Hc). fold m' in Hsize. lia. }
  destruct H2 as (r2 & d2 & -> & Hok2 & Ha2). destruct (r2 <? 0) eqn:Hr2; [intros [= <- <-] ?; bsplit; lia|]. bsplit.
  destruct (Hok2 Hr2) as [-> Hok3]. destruct (note_write_space 0 il ins d2) as [r3 d3] eqn:E3. intros [= <- <-] Hr.
  apply note_write_space_frame in E3 as ([Hb Hp] & Ha3 & _ & _ & Hr3).
  assert (r3 = 0) as -> by (destruct Hr3 as [->|[->| ->]]; [done|neg_ret Hr..]). split; [done|].
  assert (Hok4 : dev_ok (note_append_pos d3) m') by (apply (dev_ok_same d2); [done|done]).
  assert (Hq : forall q, q = 0 \/ q = 1 -> q <> m_part m -> (append_pos (note_append_pos d3)).[q] = (append_pos d).[q]).
  { intros q Hq Hne. cbn. destruct Hok4 as [_ [Hpp _]]. cbn in Hpp. rewrite Hpp.
    assert (m_part m' = m_part m) as -> by (subst m'; by destruct (count =? 0)).
    rewrite a2get_set_ne by done. congruence. }
  subst m'. destruct (Z.eqb_spec count 0) as [->|]; [by split|]. assert (count = 1) as -> by lia. exists (m_append m [TFilemark]).
  split; [done|]. split; [apply appended_one|done].
Qed.

(** *** Errors are negative *)

Lemma write_blocks_err fuel size : forall buf rest d err rest' d', write_blocks now fuel size buf rest d = (err, rest', d') -> err <= 0.
Proof.
  induction fuel as [|fuel IH]; intros buf rest d err rest' d' E; cbn [write_blocks] in E; [by injection E as <- _ _|].
  destruct (tape_write now d _ true true) as [r d1]. destruct (r <? 0) eqn:Hr; [injection E as <- _ _; bsplit; lia|].
  destruct (size <? _)%nat; [by eapply IH|]. by injection E as <- _ _.
Qed.

Lemma output_err size ps : forall o d o' d', output_pieces now size ps o d = (o', d') -> o_err o <= 0 -> o_err o' <= 0.
Proof.
  induction ps as [|p ps IH]; intros o d o' d' E Ho; [by injection E as <- <-|]. cbn in E.
  destruct (xml_output_tape_write_callback now size p o d) as [o1 d1] eqn:E1. eapply IH; [exact E|].
  unfold xml_output_tape_write_callback in E1. destruct (_ || _); [by injection E1 as <- <-|].
  destruct (_ <? _)%nat; [by injection E1 as <- <-|]. destruct (write_blocks now _ size _ p d) as [[err buf] d2] eqn:E2.
  injection E1 as <- <-. by eapply write_blocks_err.
Qed.

Lemma close_err o d o' d' : xml_output_tape_close_callback now o d = (o', d') -> o_err o <= 0 -> o_err o' <= 0.
Proof.
  unfold xml_output_tape_close_callback. intros E Ho. destruct (_ && _); [|by injection E as <- <-].
  destruct (tape_write now d _ true true) as [r d1]. injection E as <- <-. cbn. destruct (Z.ltb_spec r 0); lia.
Qed.

(** *** Blocks at the end of data *)

Definition at_end (m : medium) : Prop := m_block m = m_eod m (m_part m).

Lemma appended_end m rs m' : m_wf m -> appended m rs m' -> at_end m'.
Proof.
  intros (_ & H1 & Hle) [P B L _]. unfold at_end, m_eod in *. rewrite P, B, L, zlength_app. f_equal. unfold zlength in *. rewrite length_take. lia.
Qed.

Lemma wrote_nothing d m : dev_ok d m -> at_end m -> wrote d m [] d.
Proof.
  intros Hok He. exists m. split; [done|]. split; [|done]. split; [done|unfold zlength; cbn; lia| |done].
  rewrite app_nil_r, take_ge; [done|]. unfold at_end, m_eod, zlength in He. lia.
Qed.

(** Two writes in a row. *)
Lemma wrote_app d m rs d1 ss d2 : dev_ok d m -> wrote d m rs d1 ->
  (forall m1, dev_ok d1 m1 -> at_end m1 -> m_part m1 = m_part m -> m_block m1 = m_block m + zlength rs -> wrote d1 m1 ss d2) ->
  wrote d m (rs ++ ss) d2.
Proof.
  intros Hok (m1 & Hok1 & Ha & Hq) Hw. eapply wrote_trans; [done|exact Hok1|done|done|].
  apply Hw; [done|apply (appended_end m _ m1 (dev_ok_wf _ _ Hok) Ha)|apply Ha|apply Ha].
Qed.

Lemma index_blocks_written fuel size : forall buf rest d m err rest' d', (0 < size)%nat -> dev_ok d m -> (length buf <= size <= length buf + length rest)%nat ->
  (length rest < fuel \/ buf = [] /\ length rest <= fuel)%nat -> (fuel <> 0)%nat -> m_block m + Z.of_nat (length buf + length rest) < 2 ^ 62 ->
  write_blocks now fuel size buf rest d = (err, rest', d') -> err = 0 ->
  exists bl, concat bl ++ rest' = buf ++ rest /\ full size bl /\ (length rest' <= size)%nat /\ bl <> [] /\ wrote d m (TData <$> bl) d'.
Proof.
  induction fuel as [|fuel IH]; [done|]. intros buf rest d m err rest' d' Hs Hok Hl Hf _ Hm E He. cbn [write_blocks] in E.
  set (n := (size - length buf)%nat) in *. destruct (tape_write now d _ true true) as [r d1] eqn:Ew.
  destruct (r <? 0) eqn:Hr; [injection E as -> _ _; bsplit; lia|]. bsplit.
  assert (Hlen : length (buf ++ take n rest) = size) by (rewrite length_app, length_take; lia).
  pose proof (block_written d m _ true true r d1 Hok ltac:(lia) ltac:(by intros Hx; rewrite Hx in Hlen; cbn in Hlen; lia) Ew Hr) as Hw.
  assert (Hcat : (buf ++ take n rest) ++ drop n rest = buf ++ rest) by by rewrite <- app_assoc, take_drop.
  destruct (size <? length (drop n rest))%nat eqn:Hmore; rewrite ?Nat.ltb_lt, ?Nat.ltb_ge in Hmore.
  - rewrite length_drop in Hmore. destruct Hw as (m1 & Hok1 & Ha & Hq).
    apply (IH [] (drop n rest) d1 m1) in E as (bl & E1 & E2 & E3 & E4 & E5); [|done|done|rewrite length_drop; cbn; lia|rewrite length_drop; subst n; destruct Hf as [?|[-> ?]]; right; split; cbn in *; try done; lia|lia|
      rewrite (ap_block _ _ _ Ha), length_drop; change (zlength [_]) with 1; cbn; lia|done].
    exists ((buf ++ take n rest) :: bl). split; [cbn; rewrite <- app_assoc, E1; exact Hcat|]. split; [by constructor|].
    split; [done|]. split; [done|]. change (TData <$> (?x :: bl)) with ([TData x] ++ (TData <$> bl)). by eapply wrote_trans.
  - injection E as _ <- <-. exists [buf ++ take n rest]. cbn. rewrite app_nil_r. split; [done|]. split; [by repeat constructor|]. done.
Qed.

(** Blocks of [size] bytes are on tape, the rest is in the buffer. *)
Definition emitted (size : nat) (d : device_data S) (m : medium) (bytes : list Z) (o : xml_output) d' : Prop :=
  exists bl, concat bl ++ o_buf o = bytes /\ full size bl /\ (length (o_buf o) <= size)%nat /\ wrote d m (TData <$> bl) d'.

Lemma callback_ok size p buf d m o' d' : (0 < size)%nat -> dev_ok d m -> at_end m -> (length buf <= size)%nat ->
  m_block m + Z.of_nat (length buf + length p) < 2 ^ 62 ->
  xml_output_tape_write_callback now size p (mk_output buf 0) d = (o', d') -> o_err o' = 0 -> emitted size d m (buf ++ p) o' d'.
Proof.
  intros Hs Hok He Hb Hm E Herr. unfold xml_output_tape_write_callback in E. cbn [o_buf o_err] in E.
  destruct (bool_decide_reflect (p = [])) as [->|Hp]; [injection E as <- <-; exists []; split; [by rewrite app_nil_r|]; repeat split; [constructor|done|by apply wrote_nothing]|].
  cbn [orb Z.eqb negb] in E. destruct (_ <? size)%nat eqn:Hlt; rewrite ?Nat.ltb_lt, ?Nat.ltb_ge in Hlt.
  - injection E as <- <-. exists []. cbn. split; [done|]. rewrite length_app. split; [constructor|]. split; [lia|by apply wrote_nothing].
  - destruct (write_blocks now _ size buf p d) as [[err buf'] d1] eqn:Ew. injection E as <- <-. cbn in Herr.
    apply (index_blocks_written _ _ _ _ d m) in Ew as (bl & ? & ? & ? & _ & ?); [|done|done|lia|lia|lia|lia|done]. by exists bl.
Qed.

Lemma output_failed size ps o d : o_err o <> 0 -> output_pieces now size ps o d = (o, d).
Proof.
  intros He. induction ps as [|p ps IH]; [done|]. cbn. unfold xml_output_tape_write_callback. rewrite (proj2 (Z.eqb_neq _ _)) by done.
  by rewrite orb_true_r.
Qed.

Lemma emitted_app size d m bytes o1 d1 more o2 d2 : dev_ok d m -> emitted size d m bytes o1 d1 ->
  (forall m1, dev_ok d1 m1 -> at_end m1 -> m_block m1 <= m_block m + Z.of_nat (length bytes - length (o_buf o1)) -> emitted size d1 m1 (o_buf o1 ++ more) o2 d2) ->
  (0 < size)%nat -> emitted size d m (bytes ++ more) o2 d2.
Proof.
  intros Hok (bl & <- & Hf & Hl & m1 & Hok1 & Ha & Hq) Hnext Hs.
  assert (Hlen : zlength (TData <$> bl) <= Z.of_nat (length (concat bl))).
  { unfold zlength. rewrite length_fmap. pose proof (full_count size bl Hs Hf). lia. }
  destruct (Hnext m1 Hok1) as (bl2 & E & Hf2 & Hl2 & Hw2).
  { apply (appended_end m _ m1 (dev_ok_wf _ _ Hok) Ha). }
  { rewrite (ap_block _ _ _ Ha), length_app. lia. }
  exists (bl ++ bl2). rewrite concat_app, <- !app_assoc, E. split; [done|]. split; [by apply Forall_app|]. split; [done|].
  rewrite fmap_app. by eapply wrote_trans.
Qed.

Lemma pieces_ok size ps : forall buf d m o' d', (0 < size)%nat -> dev_ok d m -> at_end m -> (length buf <= size)%nat ->
  m_block m + Z.of_nat (length buf + length (concat ps)) < 2 ^ 62 ->
  output_pieces now size ps (mk_output buf 0) d = (o', d') -> o_err o' = 0 -> emitted size d m (buf ++ concat ps) o' d'.
Proof.
  induction ps as [|p ps IH]; intros buf d m o' d' Hs Hok He Hb Hm E Herr.
  - injection E as <- <-. exists []. cbn. rewrite app_nil_r. split; [done|]. split; [constructor|]. split; [done|by apply wrote_nothing].
  - cbn in E. destruct (xml_output_tape_write_callback now size p _ d) as [[b1 e1] d1] eqn:E1. cbn in Hm. rewrite length_app in Hm.
    destruct (Z.eq_dec e1 0) as [->|Hne]; [|rewrite output_failed in E by done; by injection E as <- <-].
    pose proof (callback_ok size p buf d m _ d1 Hs Hok He Hb ltac:(lia) E1 eq_refl) as Hem.
    pose proof Hem as (bl & Hcat & _ & Hl & _). apply (f_equal length) in Hcat. rewrite !length_app in Hcat. cbn [concat o_buf] in *.
    rewrite app_assoc. eapply emitted_app; [done|exact Hem| |done]. intros m1 Hok1 He1 Hm1. cbn [o_buf] in *. rewrite length_app in Hm1.
    eapply IH; try done. lia.
Qed.

Lemma text_written size ps d m o1 d1 o2 d2 : (0 < size)%nat -> dev_ok d m -> at_end m -> concat ps <> [] ->
  m_block m + Z.of_nat (length (concat ps)) < 2 ^ 62 ->
  output_pieces now size ps (mk_output [] 0) d = (o1, d1) -> xml_output_tape_close_callback now o1 d1 = (o2, d2) -> o_err o2 = 0 ->
  exists bl, text_blocks size (concat ps) bl /\ wrote d m (TData <$> bl) d2.
Proof.
  intros Hs Hok He Hne Hm E1 E2 Herr. unfold xml_output_tape_close_callback in E2.
  destruct (Z.eqb_spec (o_err o1) 0) as [H1|H1]; [|cbn in E2; injection E2 as <- <-; done].
  pose proof (pieces_ok size ps [] d m o1 d1 Hs Hok He ltac:(cbn; lia) ltac:(cbn; lia) E1 H1) as (bl & Hcat & Hf & Hl & Hw). cbn in Hcat.
  destruct (bool_decide_reflect (o_buf o1 = [])) as [Hb|Hb]; cbn [andb negb] in E2.
  - injection E2 as <- <-. rewrite Hb, app_nil_r in Hcat. exists bl. split; [|done].
    destruct bl as [|last fb _] using rev_ind; [by subst|]. apply Forall_app in Hf as [Hf Hlast]. rewrite Forall_singleton in Hlast.
    exists fb, last. split; [done|]. rewrite concat_app in Hcat. cbn in Hcat. rewrite app_nil_r in Hcat. split; [done|]. split; [done|lia].
  - destruct (tape_write now d1 (o_buf o1) true true) as [r d3] eqn:Ew. injection E2 as <- <-. cbn in Herr.
    destruct (r <? 0) eqn:Hr; [bsplit; lia|]. bsplit. exists (bl ++ [o_buf o1]). split.
    + exists bl, (o_buf o1). repeat split; try done. destruct (o_buf o1); [done|cbn; lia].
    + rewrite fmap_app. eapply wrote_app; [done|exact Hw|]. intros m1 Hok1 He1 Hp1 Hb1. eapply block_written; try done.
      assert (zlength (TData <$> bl) + 1 <= Z.of_nat (length (concat ps))).
      { rewrite <- Hcat, length_app. unfold zlength. rewrite length_fmap. pose proof (full_count size bl Hs Hf).
        assert (0 < length (o_buf o1))%nat by (destruct (o_buf o1); [done|cbn; lia]). lia. }
      lia.
Qed.
End tape.

(** ** Reading it back *)

(** What the reader relies on. *)
Lemma text_block_facts size text bl i blk : (0 < size)%nat -> text_blocks size text bl -> bl !! i = Some blk ->
  (0 < length blk <= size)%nat /\ ((length blk < size)%nat -> Datatypes.S i = length bl).
Proof.
  intros Hs (fb & last & -> & _ & Hf & Hl) Hi. rewrite length_app. cbn. apply lookup_app_Some in Hi as [Hi|[Hge Hi]].
  - eapply Forall_lookup_1 in Hf; [|exact Hi]. cbn in Hf. lia.
  - apply list_lookup_singleton_Some in Hi as [Hi ->]. lia.
Qed.

Lemma text_blocks_concat size text bl : text_blocks size text bl -> concat bl = text.
Proof. intros (fb & last & -> & <- & _). rewrite concat_app. cbn. by rewrite app_nil_r. Qed.

Lemma text_all_full size text bl : text_blocks size text bl -> full size bl -> (length text mod size = 0)%nat.
Proof.
  intros Ht Hf. apply text_blocks_concat in Ht as <-. induction Hf as [|b bl Hb _ IH]; [by apply Nat.Div0.mod_0_l|].
  cbn. rewrite length_app, Hb. rewrite Nat.Div0.add_mod, Nat.Div0.mod_same, IH. apply Nat.Div0.mod_0_l.
Qed.

Lemma text_blocks_count size text bl : (0 < size)%nat -> text_blocks size text bl -> length bl = ((length text + size - 1) / size)%nat.
Proof.
  intros Hs (fb & last & -> & <- & Hf & Hl). pose proof (full_count size fb Hs Hf) as Hc. rewrite !length_app. cbn [length].
  assert (Hfull : length (concat fb) = (length fb * size)%nat).
  { clear Hc. induction Hf as [|b fb Hb _ IH]; [done|]. cbn. rewrite length_app, Hb, IH. lia. }
  rewrite Hfull. replace (length fb * size + length last + size - 1)%nat with ((length fb + 1) * size + (length last - 1))%nat by lia.
  rewrite Nat.div_add_l by lia. rewrite Nat.div_small; lia.
Qed.

(** What reading a text asks of the drive when the head is at its first block: to read
    its blocks and the file mark behind them, each with a buffer of the block size,
    and to go back over the file mark. *)
Definition read_calls (size blocks : nat) : list drive_call :=
  replicate (Datatypes.S blocks) (CallRead (Z.of_nat size) false) ++ [CallSpace (-1)].

Section reader.
Context {S : Type} `{SpaceLaws S}.
Variable lib : libs.
Variable now : ltfs_timespec.
Implicit Types d : device_data S.

(** A text in the blocks [bl] from block [s] of partition [p] on, and a file mark behind it. *)
Record text_at (m : medium) (p s : Z) (size : nat) (text : list Z) (bl : list (list Z)) : Prop := {
  ta_part : p = 0 \/ p = 1;
  ta_start : 0 <= s;
  ta_size : (0 < size)%nat;
  ta_blocks : text_blocks size text bl;
  ta_data i blk : bl !! i = Some blk -> m_log m p !! (Z.to_nat s + i)%nat = Some (TData blk);
  ta_mark : m_log m p !! (Z.to_nat s + length bl)%nat = Some TFilemark;
  ta_bound : s + Z.of_nat (length bl) + 1 <= 2 ^ 62;
}.

Context (m : medium) (p s : Z) (size : nat) (text : list Z) (bl : list (list Z)).
Context (Htext : text_at m p s size text bl).
(** The end of data that the caller gives, or nothing. *)
Context (eod : Z) (Heod : eod = 0 \/ s + Z.of_nat (length bl) < eod).
(** What the drive is asked for afterwards. *)
Context (calls : list drive_call).

Abbreviation behind i := (m_move m p (s + Z.of_nat i)).

Lemma here_data i blk : bl !! i = Some blk -> m_here (behind i) = Some (TData blk).
Proof.
  intros Hi. pose proof (ta_start _ _ _ _ _ _ Htext). unfold m_here. cbn. rewrite Z2Nat.inj_add, Nat2Z.id by lia. by apply (ta_data _ _ _ _ _ _ Htext).
Qed.

Lemma here_mark : m_here (behind (length bl)) = Some TFilemark.
Proof. pose proof (ta_start _ _ _ _ _ _ Htext). unfold m_here. cbn. rewrite Z2Nat.inj_add, Nat2Z.id by lia. apply (ta_mark _ _ _ _ _ _ Htext). Qed.

(** Back over the file mark. *)
Lemma before_file_mark_ok x d ok x' d' : run_at now d (m_move m p (s + Z.of_nat (length bl) + 1)) (CallSpace (-1) :: calls) ->
  before_file_mark now x d = (ok, x', d') ->
  ok = true /\ x' = x <| saw_file_mark := true |> /\ run_at now d' (behind (length bl)) calls.
Proof.
  intros Hrun E. pose proof (ta_start _ _ _ _ _ _ Htext) as Hs. unfold before_file_mark in E. destruct (tape_spacefm now d (-1)) as [r d1] eqn:Es.
  assert (Hskip : fm_skip (Z.to_nat 1) (records_before (m_move m p (s + Z.of_nat (length bl) + 1))) = Some 1%nat).
  { unfold records_before. cbn. replace (Z.to_nat (s + Z.of_nat (length bl) + 1)) with (Datatypes.S (Z.to_nat s + length bl)) by lia.
    erewrite take_S_r by apply (ta_mark _ _ _ _ _ _ Htext). rewrite reverse_snoc. change (Z.to_nat 1) with 1%nat. by rewrite fm_skip_mark, fm_skip_0. }
  destruct (run_backward now d _ 1 1%nat calls r d1 Hrun ltac:(lia) ltac:(cbn; lia) Hskip Es) as [-> Hrun'].
  injection E as <- <- <-. do 2 (split; [done|]). cbn [m_move m_part m_block] in Hrun'.
  by replace (s + Z.of_nat (length bl) + 1 - Z.of_nat 1) with (s + Z.of_nat (length bl)) in Hrun' by lia.
Qed.

(** The reader has [rest] left: bytes in its buffer and in blocks it has not read. *)
Definition input_at (x : xml_input) d (rest : list Z) : Prop :=
  exists i, (i <= length bl)%nat /\ rest = in_buf x ++ concat (drop i bl) /\ err_code x = 0 /\ eod_pos x = eod /\
    (saw_small_block x = false /\ saw_file_mark x = false /\ current_pos x = s + Z.of_nat i /\
       run_at now d (behind i) (read_calls size (length bl - i) ++ calls) /\ full size (take i bl) \/
     saw_small_block x = true /\ saw_file_mark x = true /\ i = length bl /\ run_at now d (behind (length bl)) calls).

(** A short read is the last block or the file mark. *)
Definition look_calls (n : Z) : list drive_call :=
  (if n =? 0 then [] else [CallRead (Z.of_nat size) false]) ++ CallSpace (-1) :: calls.

Lemma look_ok n x d ok x' d' : 0 <= n -> current_pos x = s + Z.of_nat (length bl) + (if n =? 0 then 1 else 0) -> eod_pos x = eod ->
  run_at now d (m_move m p (current_pos x)) (look_calls n) -> look_for_file_mark now (Z.of_nat size) n x d = (ok, x', d') ->
  ok = true /\ x' = x <| saw_small_block := true |> <| saw_file_mark := true |> /\ run_at now d' (behind (length bl)) calls.
Proof.
  intros Hn Hc He Hrun E. unfold look_for_file_mark in E. rewrite Hc in Hrun. unfold look_calls in Hrun. destruct (n =? 0).
  - by apply before_file_mark_ok in E.
  - change (eod_pos (x <| saw_small_block := true |>)) with (eod_pos x) in E.
    change (current_pos (x <| saw_small_block := true |>)) with (current_pos x) in E. rewrite Z.add_0_r in *. rewrite He, Hc in E.
    replace ((eod =? 0) || (0 <? eod) && (s + Z.of_nat (length bl) <? eod)) with true in E.
    2: { pose proof (ta_start _ _ _ _ _ _ Htext). symmetry. destruct Heod as [->|Hlt]; [done|]. rewrite (proj2 (Z.ltb_lt _ eod) Hlt), (proj2 (Z.ltb_lt 0 eod)) by lia. by rewrite orb_true_r. }
    destruct (tape_read now None d (Z.of_nat size) false) as [[nr b] d1] eqn:Er.
    destruct (run_read now _ _ _ _ _ _ _ _ _ Hrun here_mark Er ltac:(unfold zlength; cbn; lia)) as (-> & _ & Hrun').
    cbn [record_bytes] in E. change (zlength []) with 0 in E. cbn [Z.ltb Z.eqb Z.compare] in E. by apply before_file_mark_ok in E.
Qed.

Lemma calls_step i : (i < length bl)%nat ->
  read_calls size (length bl - i) ++ calls = CallRead (Z.of_nat size) false :: read_calls size (length bl - Datatypes.S i) ++ calls.
Proof. intros Hi. by replace (length bl - i)%nat with (Datatypes.S (length bl - Datatypes.S i)) by lia. Qed.

(** One turn of the loop: the next block, or the file mark, is consumed. *)
Lemma turn_ok x d i nread buf d1 : (i <= length bl)%nat -> saw_small_block x = false -> saw_file_mark x = false -> err_code x = 0 ->
  eod_pos x = eod -> current_pos x = s + Z.of_nat i -> run_at now d (behind i) (read_calls size (length bl - i) ++ calls) -> full size (take i bl) ->
  tape_read now None d (Z.of_nat size) false = (nread, buf, d1) ->
  nread = zlength buf /\ (length buf <= size)%nat /\ buf ++ concat (drop (Datatypes.S i) bl) = concat (drop i bl) /\
   ((i < length bl)%nat -> (0 < length buf)%nat) /\
   forall ok x' d', (if nread <? Z.of_nat size then look_for_file_mark now (Z.of_nat size) nread (x <| current_pos := current_pos x ⊞ 1 |>) d1
                     else (true, x <| current_pos := current_pos x ⊞ 1 |>, d1)) = (ok, x', d') ->
    ok = true /\ ((i < length bl)%nat \/ saw_small_block x' = true) /\
      forall b, input_at (x' <| in_buf := b |>) d' (b ++ concat (drop (Datatypes.S i) bl)).
Proof.
  intros Hi Hsm Hfm Herr He Hc Hrun Hf Er. pose proof (ta_bound _ _ _ _ _ _ Htext). pose proof (ta_start _ _ _ _ _ _ Htext).
  pose proof (ta_size _ _ _ _ _ _ Htext) as Hsize. rewrite Hc, u64_small by lia. destruct (bl !! i) as [blk|] eqn:Hb.
  - pose proof (lookup_lt_Some _ _ _ Hb) as Hlt. destruct (text_block_facts size text bl i blk Hsize (ta_blocks _ _ _ _ _ _ Htext) Hb) as [Hlen Hlast].
    rewrite calls_step in Hrun by done.
    destruct (run_read now _ _ _ _ _ _ _ _ _ Hrun (here_data i blk Hb) Er ltac:(unfold zlength; cbn; lia)) as (-> & -> & Hrun1).
    cbn [record_bytes m_move m_part m_block] in *. split; [done|]. split; [lia|]. split; [by rewrite (drop_S bl blk i Hb)|]. split; [lia|].
    intros ok x' d' E. destruct (Z.ltb_spec (zlength blk) (Z.of_nat size)) as [Hsh|Hfull].
    + assert (Hi1 : Datatypes.S i = length bl) by (apply Hlast; unfold zlength in Hsh; lia).
      apply look_ok in E as (-> & -> & Hrun2); [|apply zlength_nonneg| |done|].
      * split; [done|]. split; [by left|]. intros b. exists (Datatypes.S i). split; [lia|]. split; [done|]. do 2 (split; [done|]). right. by rewrite Hi1 in *.
      * cbn. unfold zlength. replace (Z.of_nat (length blk) =? 0) with false by lia. lia.
      * rewrite Hi1, Nat.sub_diag in Hrun1. unfold look_calls. rewrite (proj2 (Z.eqb_neq (zlength blk) 0)) by (unfold zlength; lia). exact Hrun1.
    + injection E as <- <- <-. split; [done|]. split; [by left|]. intros b. exists (Datatypes.S i). split; [lia|]. split; [done|]. do 2 (split; [done|]). left.
      do 2 (split; [done|]). split; [cbn; lia|]. split; [replace (s + Z.of_nat (Datatypes.S i)) with (s + Z.of_nat i + 1) by lia; done|].
      erewrite take_S_r by exact Hb. apply Forall_app. split; [done|]. rewrite Forall_singleton. unfold zlength in Hfull. lia.
  - apply lookup_ge_None in Hb. assert (i = length bl) as -> by lia. rewrite Nat.sub_diag in Hrun.
    destruct (run_read now _ _ _ _ _ _ _ _ _ Hrun here_mark Er ltac:(unfold zlength; cbn; lia)) as (-> & -> & Hrun1).
    cbn [record_bytes m_move m_part m_block] in *. rewrite !drop_ge by lia. split; [done|]. split; [cbn; lia|]. split; [done|]. split; [lia|].
    intros ok x' d' E. change (zlength []) with 0 in E. rewrite (proj2 (Z.ltb_lt 0 _)) in E by lia.
    apply look_ok in E as (-> & -> & Hrun2); [|done|done|done|exact Hrun1].
    split; [done|]. split; [by right|]. intros b. exists (length bl). split; [done|]. rewrite drop_ge by lia. split; [done|]. do 2 (split; [done|]). by right.
Qed.

Definition delivers (len : nat) (bytes : list Z) (res : option (list Z) * xml_input * device_data S) : Prop :=
  exists x' d', res = (Some (take len bytes), x', d') /\ input_at x' d' (drop len bytes) /\
    ((length bytes < len)%nat -> saw_small_block x' = true).

Lemma read_blocks_ok turns : forall len saved x d rest, input_at x d rest -> (length saved <= len)%nat ->
  ((length saved < len)%nat -> in_buf x = []) -> (len - length saved + (if saw_small_block x then 0 else 1) < turns)%nat ->
  delivers len (saved ++ rest) (read_blocks now turns (Z.of_nat size) len saved x d).
Proof.
  induction turns as [|turns IH]; intros len saved x d rest Hin Hl Hb Ht; [lia|]. cbn [read_blocks].
  destruct (Nat.leb_spec len (length saved)) as [Hdone|Hmore].
  { exists x, d. rewrite take_app_ge, drop_app_ge by lia. replace (len - length saved)%nat with 0%nat by lia. rewrite app_nil_r.
    split; [done|]. split; [done|]. rewrite length_app. lia. }
  specialize (Hb Hmore). pose proof Hin as (i & Hi & Hrest & Herr & He & Hcase). rewrite Hb in Hrest. cbn in Hrest.
  pose proof (ta_start _ _ _ _ _ _ Htext).
  destruct Hcase as [(Hsm & Hfm & Hc & Hrun & Hf)|(Hsm & Hfm & -> & Hrun)].
  - replace ((0 <? eod_pos x) && (current_pos x =? eod_pos x)) with false by lia. rewrite Hsm.
    destruct (tape_read now None d (Z.of_nat size) false) as [[nread buf] d1] eqn:Er.
    destruct (turn_ok x d i nread buf d1 Hi Hsm Hfm Herr He Hc Hrun Hf Er) as (-> & Hlen & Hcat & Hpos & Hlook).
    rewrite (proj2 (Z.ltb_ge (zlength buf) 0)) by apply zlength_nonneg.
    destruct (if zlength buf <? Z.of_nat size then _ else _) as [[ok x1] d2] eqn:Ek.
    destruct (Hlook ok x1 d2 eq_refl) as (-> & Hor & Hnext). cbn [negb]. set (n := (len - length saved)%nat).
    replace (saved ++ rest) with ((saved ++ take n buf) ++ drop n buf ++ concat (drop (Datatypes.S i) bl))
      by (rewrite <- app_assoc, (app_assoc (take n buf)), take_drop, Hcat; by subst rest).
    apply (IH len (saved ++ take n buf) (x1 <| in_buf := drop n buf |>) d2 _ (Hnext (drop n buf))).
    + rewrite length_app, length_take. lia.
    + rewrite length_app, length_take. intros ?. cbn. apply drop_ge. lia.
    + rewrite length_app, length_take. change (saw_small_block (x1 <| in_buf := drop n buf |>)) with (saw_small_block x1). rewrite Hsm in Ht.
      destruct Hor as [Hor|Hor]; [specialize (Hpos Hor); destruct (saw_small_block x1); lia|rewrite Hor; lia].
  - assert (rest = []) as -> by (by rewrite Hrest, drop_ge). rewrite app_nil_r.
    assert (Hd : delivers len saved (Some saved, x, d)).
    { exists x, d. rewrite take_ge, drop_ge by lia. split; [done|]. split; [|done]. exists (length bl). rewrite Hb, drop_ge by done. auto 10. }
    rewrite Hsm. by destruct ((0 <? eod_pos x) && _).
Qed.

Lemma callback_read len x d rest : input_at x d rest -> (0 < len)%nat ->
  delivers len rest (xml_input_tape_read_callback now (Z.of_nat size) len x d).
Proof.
  intros Hin Hl. unfold xml_input_tape_read_callback. rewrite (proj2 (Nat.eqb_neq len 0)) by lia.
  pose proof Hin as (i & Hi & -> & Herr & He & Hcase). destruct (Nat.leb_spec len (length (in_buf x))) as [Hle|Hgt].
  - exists (x <| in_buf := drop len (in_buf x) |>), d. rewrite take_app_le, drop_app_le by done. split; [done|].
    split; [|rewrite length_app; lia]. exists i. auto 10.
  - apply read_blocks_ok; [|lia|done|].
    + exists i. auto 10.
    + destruct (saw_small_block _); lia.
Qed.

(** libxml2 asks for bytes as long as it does not have the whole document; when
    it then stops, the document must not end with a full block: the reader looks
    for the file mark behind a short one only. *)
Definition read_to_end : Prop :=
  (forall got more, text = got ++ more -> more <> [] -> exists len, xml_asks lib got = Some len /\ 0 < len) /\
  match xml_asks lib text with Some len => 0 < len | None => (length text mod size <> 0)%nat end.

Lemma read_text_ok fuel : read_to_end -> forall got x d rest, input_at x d rest -> got ++ rest = text -> (length rest < fuel)%nat ->
  exists x' d', read_text lib now fuel (Z.of_nat size) got x d = Some (text, x', d') /\
    saw_file_mark x' = true /\ err_code x' = 0 /\ run_at now d' (behind (length bl)) calls.
Proof.
  intros [Hask Hend]. induction fuel as [|fuel IH]; intros got x d rest Hin Htot Hf; [lia|]. cbn [read_text].
  destruct rest as [|c rest].
  - rewrite app_nil_r in Htot. subst got. destruct (xml_asks lib text) as [len|].
    + destruct (callback_read (Z.to_nat len) x d [] Hin ltac:(lia)) as (x' & d' & -> & Hin' & Hsm).
      rewrite take_nil. exists x', d'. split; [done|]. specialize (Hsm ltac:(cbn; lia)).
      destruct Hin' as (i & _ & _ & Herr & _ & [[Hno _]|(_ & Hfm & _ & Hrun)]); [congruence|done].
    + exists x, d. split; [done|]. pose proof Hin as (i & Hi & Hnil & Herr & _ & [(_ & _ & _ & _ & Hfull)|(_ & Hfm & _ & Hrun)]); [|done].
      exfalso. apply Hend. eapply text_all_full; [apply (ta_blocks _ _ _ _ _ _ Htext)|].
      symmetry in Hnil. apply app_nil in Hnil as [_ Hnil]. destruct (bl !! i) as [blk|] eqn:Hb.
      * rewrite (drop_S _ _ _ Hb) in Hnil. cbn in Hnil. apply app_nil in Hnil as [-> _].
        destruct (text_block_facts size text bl i [] (ta_size _ _ _ _ _ _ Htext) (ta_blocks _ _ _ _ _ _ Htext) Hb). cbn in *. lia.
      * apply lookup_ge_None in Hb. by rewrite take_ge in Hfull by lia.
  - destruct (Hask got (c :: rest) (eq_sym Htot) ltac:(done)) as (len & -> & Hlen).
    destruct (callback_read (Z.to_nat len) x d (c :: rest) Hin ltac:(lia)) as (x' & d' & -> & Hin' & _).
    destruct (Z.to_nat len) as [|k] eqn:Hk; [lia|]. cbn [take drop] in *.
    apply (IH (got ++ c :: take k rest) x' d' _ Hin').
    + by rewrite <- app_assoc, <- app_comm_cons, take_drop.
    + rewrite length_drop. cbn in Hf. lia.
Qed.

Lemma text_read_back fuel d : read_to_end -> (length text < fuel)%nat -> run_at now d (m_move m p s) (read_calls size (length bl) ++ calls) ->
  exists x' d', read_text lib now fuel (Z.of_nat size) [] (mk_input s eod [] false false 0) d = Some (text, x', d') /\
    saw_file_mark x' = true /\ err_code x' = 0 /\ run_at now d' (behind (length bl)) calls.
Proof.
  intros Hr Hf Hrun. apply (read_text_ok fuel Hr [] _ d text); [|done|done]. exists 0%nat. cbn. rewrite !Z.add_0_r, drop_0, (text_blocks_concat _ _ _ (ta_blocks _ _ _ _ _ _ Htext)).
  split; [lia|]. do 3 (split; [done|]). left. rewrite Nat.sub_0_r. do 4 (split; [done|]). constructor.
Qed.
End reader.
