(* ===== verification/VolumeFind.v ===== *)
(** * Finding the last index of a partition

    [ltfs_read_index] at an index file and [ltfs_seek_index] on a partition that
    ends in one: when the drive carries out the calls of the search, it stops at
    this index and delivers what the parser makes of its text. *)

From Stdlib Require Import String.
From S2P Require Import Prelude LtfsError TapeOps TapeLayer TapeSpace Mam Journal Time TimeProps Xml XmlProps IndexXml IndexXmlProps Label LabelProps Volume VolumeTape.

(** ** Reading and finding *)

Lemma text_mark_next m p s size text bl : text_at m p s size text bl ->
  fm_skip (Z.to_nat 1) (records_after (m_move m p (s + Z.of_nat (length bl)))) = Some 1%nat.
Proof.
  intros Ht. pose proof (ta_start _ _ _ _ _ _ Ht). unfold records_after. cbn [m_move m_block m_part m_log].
  rewrite Z2Nat.inj_add, Nat2Z.id by lia. erewrite drop_S by apply (ta_mark _ _ _ _ _ _ Ht).
  change (Z.to_nat 1) with 1%nat. by rewrite fm_skip_mark, fm_skip_0.
Qed.

Section find.
Context {S : Type} `{SpaceLaws S} `{MamOps S}.
Variable lib : libs.
Variable levels : nat.
Variable now : ltfs_timespec.
Implicit Types (d : device_data S) (v : ltfs_volume S).

Lemma run_pos d m calls : run_at now d m calls -> TapeOps.partition (position d) = m_part m /\ block (position d) = m_block m.
Proof. by intros [[_ Hp] _]. Qed.

(** The parser accepts the text and delivers [idx]. *)
Definition parses_as (size : nat) (text : list Z) (idx : ltfs_index) : Prop :=
  exists nodes rest, read_xml lib text = (true, nodes) /\
    _xml_parse_schema (pathname_normalize lib) (pathname_validate_file lib) (pathname_validate_target lib) (Some (Z.of_nat size))
      (Datatypes.S (length nodes)) levels true false (nodes, ltfs_index_alloc) = XOk (tt, (rest, idx)).

(** The index that the volume then has. *)
Definition index_of (l : ltfs_label) (idx : ltfs_index) : ltfs_index :=
  idx <| write_version := ltfs_index_write_version (l_version l) (version idx) |>.

(** It belongs to the volume and to the place where it was found. *)
Record fits (l : ltfs_label) (p s : Z) (idx : ltfs_index) : Prop := {
  fits_uuid : vol_uuid idx = l_vol_uuid l;
  fits_self : selfptr idx = mk_offset (part_num2id l).[p] s;
  fits_back : back_pointer_ok l idx = true;
}.

Lemma index_read v m p s size text bl eod calls fuel idx :
  text_at m p s size text bl -> eod = 0 \/ s + Z.of_nat (length bl) < eod -> l_blocksize (label v) = Z.of_nat size ->
  run_at now (device v) (m_move m p s) (read_calls size (length bl) ++ CallSpace 1 :: calls) -> read_to_end lib size text -> (length text < fuel)%nat ->
  parses_as size text idx -> fits (label v) p s idx ->
  exists v', ltfs_read_index lib levels now fuel eod false v = Some (0, v') /\
    index v' = index_of (label v) idx /\ label v' = label v /\ idx_dirty v' = false /\
    run_at now (device v') (m_move m p (s + Z.of_nat (length bl) + 1)) calls.
Proof.
  intros Htext Heod Hsize Hrun Hend Hf (nodes & rest & Hread & Hparse) [Hu Hself Hback].
  pose proof (ta_start _ _ _ _ _ _ Htext) as Hs. destruct (run_pos _ _ _ Hrun) as [Hp Hb]. cbn in Hp, Hb.
  unfold ltfs_read_index, xml_schema_from_tape. rewrite Hp, Hb. change (device (new_index v)) with (device v). change (label (new_index v)) with (label v).
  rewrite Hsize, Hb.
  destruct (text_read_back lib now m p s size text bl Htext eod Heod _ fuel (device v) Hend Hf Hrun) as (x & d & E & Hfm & Herr & Hrun1).
  rewrite E. cbn [mbind option_bind]. rewrite Hread. change (index (put_device (new_index v) d)) with ltfs_index_alloc. rewrite Hparse. cbn [mbind option_bind].
  rewrite Herr, Hfm. cbn [Z.ltb Z.compare Z.eqb andb negb].
  change (label (put_index (put_index (put_device (new_index v) d) idx) _)) with (label v).
  change (label (put_index (put_device (new_index v) d) idx)) with (label v). cbn [index put_index put_device set_field].
  change (vol_uuid (idx <| write_version := _ |>)) with (vol_uuid idx). change (selfptr (idx <| write_version := _ |>)) with (selfptr idx).
  change (back_pointer_ok (label v) (idx <| write_version := _ |>)) with (back_pointer_ok (label v) idx).
  rewrite Hu, Hself, Hback. unfold strncmp_eq. rewrite bool_decide_true by done. cbn [to_partition to_block negb]. rewrite !Z.eqb_refl. cbn [negb orb].
  change (match LTFS_NO_TRAIL_FM with 0 => true | _ => false end) with false. cbn [negb].
  change (device (put_index (put_index (put_device (new_index v) d) idx) _)) with d.
  destruct (tape_spacefm now d 1) as [r d1] eqn:Es.
  destruct (run_forward now d _ 1 1%nat calls r d1 Hrun1 ltac:(lia) (text_mark_next _ _ _ _ _ _ Htext) Es) as [-> Hrun2].
  eexists. split; [done|]. do 3 (split; [done|]). exact Hrun2.
Qed.

(** A partition that ends in an index file with the text in [bl], its first block is [s]. *)
Record ends_in_index (m : medium) (p s : Z) (size : nat) (text : list Z) (bl : list (list Z)) : Prop := {
  ei_part : p = 0 \/ p = 1;
  ei_start : 5 <= s;
  ei_size : (0 < size)%nat;
  ei_blocks : text_blocks size text bl;
  ei_log : exists pre, length pre = Z.to_nat (s - 1) /\ m_log m p = pre ++ TFilemark :: (TData <$> bl) ++ [TFilemark];
  ei_bound : s + Z.of_nat (length bl) + 1 < 2 ^ 62;
}.

Lemma index_eod m p s size text bl : ends_in_index m p s size text bl -> m_eod m p = s + Z.of_nat (length bl) + 1.
Proof.
  intros [_ Hs _ _ (pre & Hl & Hlog) _]. unfold m_eod, zlength. rewrite Hlog, length_app. cbn. rewrite length_app, length_fmap. cbn. lia.
Qed.

Lemma index_text_at m p s size text bl : ends_in_index m p s size text bl -> text_at m p s size text bl.
Proof.
  intros [Hp Hs Hsize Ht (pre & Hl & Hlog) Hb]. split; [done|lia|done|done| | |lia].
  - intros i blk Hi. rewrite Hlog, lookup_app_r by lia. replace (Z.to_nat s + i - length pre)%nat with (Datatypes.S i) by lia.
    cbn. apply lookup_app_l_Some. by rewrite list_lookup_fmap, Hi.
  - rewrite Hlog, lookup_app_r by lia. replace (Z.to_nat s + length bl - length pre)%nat with (Datatypes.S (length bl)) by lia.
    change ((TFilemark :: ?l) !! Datatypes.S ?n) with (l !! n).
    rewrite lookup_app_r by (by rewrite length_fmap). by rewrite length_fmap, Nat.sub_diag.
Qed.

(** What is in front of the head at the places where the search stops. *)
Lemma before_end m p s size text bl : ends_in_index m p s size text bl ->
  fm_skip (Z.to_nat 1) (records_before (m_move m p (s + Z.of_nat (length bl) + 1))) = Some 1%nat.
Proof.
  intros Hi. pose proof (ei_start _ _ _ _ _ _ Hi). pose proof (index_text_at _ _ _ _ _ _ Hi) as Ht. unfold records_before. cbn [m_move m_block m_part m_log].
  replace (Z.to_nat (s + Z.of_nat (length bl) + 1)) with (Datatypes.S (Z.to_nat s + length bl)) by lia.
  erewrite take_S_r by apply (ta_mark _ _ _ _ _ _ Ht). change (Z.to_nat 1) with 1%nat. by rewrite reverse_snoc, fm_skip_mark, fm_skip_0.
Qed.

Lemma before_text m p s size text bl : ends_in_index m p s size text bl ->
  fm_skip (Z.to_nat 1) (records_before (m_move m p (s + Z.of_nat (length bl)))) = Some (length bl + 1)%nat.
Proof.
  intros [_ Hs _ _ (pre & Hl & Hlog) _]. unfold records_before. cbn [m_move m_block m_part m_log]. rewrite Hlog.
  replace (Z.to_nat (s + Z.of_nat (length bl))) with (length (pre ++ TFilemark :: (TData <$> bl)))
    by (rewrite length_app; cbn; rewrite length_fmap; lia).
  replace (pre ++ TFilemark :: (TData <$> bl) ++ [TFilemark]) with ((pre ++ TFilemark :: (TData <$> bl)) ++ [TFilemark]) by by rewrite <- app_assoc.
  rewrite take_app_length, reverse_app, reverse_cons, <- app_assoc. change (Z.to_nat 1) with 1%nat. rewrite fm_skip_data.
  - cbn [app]. by rewrite fm_skip_mark, fm_skip_0, length_reverse, length_fmap.
  - apply Forall_reverse, Forall_fmap, Forall_forall. done.
Qed.

Lemma after_mark m p s size text bl : ends_in_index m p s size text bl ->
  fm_skip (Z.to_nat 1) (records_after (m_move m p (s - 1))) = Some 1%nat.
Proof.
  intros [_ Hs _ _ (pre & Hl & Hlog) _]. unfold records_after. cbn [m_move m_block m_part m_log]. rewrite Hlog, <- Hl, drop_app_length.
  change (Z.to_nat 1) with 1%nat. by rewrite fm_skip_mark, fm_skip_0.
Qed.

(** What the search for an index at the end of partition [p] asks of the drive: to go to the
    end of data, back over the two file marks around the index and forth over the
    first one, to read the blocks of the text and the file mark with a buffer of the
    block size, and to go back and forth over this file mark. *)
Definition index_calls (p : Z) (size : nat) (text : list Z) : list drive_call :=
  [CallEod p; CallSpace (-1); CallSpace (-1); CallSpace 1] ++
  read_calls size ((length text + size - 1) / size) ++ [CallSpace 1].

Lemma index_found v m p pid s size text bl calls tries fuel idx :
  ends_in_index m p s size text bl -> part_num v pid = p -> (part_num2id (label v)).[p] = pid -> l_blocksize (label v) = Z.of_nat size ->
  run_at now (device v) m (index_calls p size text ++ calls) -> read_to_end lib size text -> (length text < fuel)%nat ->
  parses_as size text idx -> fits (label v) p s idx ->
  exists v', ltfs_seek_index lib levels now (Datatypes.S tries) fuel pid v =
      Some (0, mk_found (m_eod m p) (m_eod m p) true false, v') /\
    index v' = index_of (label v) idx /\ label v' = label v /\ idx_dirty v' = false /\ run_at now (device v') (m_move m p (m_eod m p)) calls.
Proof.
  intros Hi Hnum Hid Hsize Hrun Hend Hf Hparse Hfits. pose proof (ei_start _ _ _ _ _ _ Hi) as Hs. pose proof (ei_bound _ _ _ _ _ _ Hi) as Hbound.
  pose proof (index_eod _ _ _ _ _ _ Hi) as Heod. unfold ltfs_seek_index. rewrite Hnum.
  unfold index_calls in Hrun. rewrite <- (text_blocks_count size text bl (ei_size _ _ _ _ _ _ Hi) (ei_blocks _ _ _ _ _ _ Hi)), <- !app_assoc in Hrun. cbn [app] in Hrun.
  destruct (tape_seek_eod now (device v) p) as [r1 d1] eqn:E1.
  destruct (run_eod now _ m p _ r1 d1 Hrun (ei_part _ _ _ _ _ _ Hi) ltac:(rewrite Heod; unfold TAPE_BLOCK_MAX; lia) E1) as [-> Hrun1].
  cbn [Z.ltb Z.compare]. change (device (put_device v d1)) with d1. destruct (run_pos _ _ _ Hrun1) as [_ Hb1]. cbn [m_move m_block] in Hb1.
  rewrite Hb1, Heod in *. rewrite (proj2 (Z.leb_gt _ 4)) by lia.
  destruct (tape_spacefm now d1 (-1)) as [r2 d2] eqn:E2.
  destruct (run_backward now d1 _ 1 1%nat _ r2 d2 Hrun1 ltac:(lia) ltac:(cbn; lia) (before_end _ _ _ _ _ _ Hi) E2) as [-> Hrun2].
  cbn [Z.ltb Z.compare m_move m_part m_block] in *. replace (s + Z.of_nat (length bl) + 1 - Z.of_nat 1) with (s + Z.of_nat (length bl)) in Hrun2 by lia.
  change (device (put_device (put_device v d1) d2)) with d2. destruct (run_pos _ _ _ Hrun2) as [_ Hb2]. cbn [m_move m_block] in Hb2. rewrite Hb2.
  rewrite (proj2 (Z.eqb_neq _ 3)) by lia. rewrite u64_small by lia. rewrite (proj2 (Z.eqb_eq _ _)) by lia.
  destruct (tape_spacefm now d2 (-1)) as [r3 d3] eqn:E3.
  destruct (run_backward now d2 _ 1 _ _ r3 d3 Hrun2 ltac:(lia) ltac:(cbn; lia) (before_text _ _ _ _ _ _ Hi) E3) as [-> Hrun3].
  cbn [Z.ltb Z.compare m_move m_part m_block seek_loop] in *.
  replace (s + Z.of_nat (length bl) - Z.of_nat (length bl + 1)) with (s - 1) in Hrun3 by lia.
  change (device (put_device (put_device (put_device v d1) d2) d3)) with d3. destruct (run_pos _ _ _ Hrun3) as [_ Hb3]. cbn [m_move m_block] in Hb3. rewrite Hb3.
  rewrite (proj2 (Z.eqb_neq _ 3)) by lia. destruct (tape_spacefm now d3 1) as [r4 d4] eqn:E4.
  destruct (run_forward now d3 _ 1 1%nat _ r4 d4 Hrun3 ltac:(lia) (after_mark _ _ _ _ _ _ Hi) E4) as [-> Hrun4].
  cbn [Z.ltb Z.compare m_move m_part m_block] in *. replace (s - 1 + Z.of_nat 1) with s in Hrun4 by lia.
  destruct (index_read (put_device (put_device (put_device (put_device v d1) d2) d3) d4) m p s size text bl (s + Z.of_nat (length bl) + 1) calls fuel idx
    (index_text_at _ _ _ _ _ _ Hi) ltac:(lia) Hsize Hrun4 Hend Hf Hparse Hfits) as (v' & -> & Hidx & Hlab & Hd & Hrun5).
  cbn [mbind option_bind Z.ltb Z.compare]. destruct (run_pos _ _ _ Hrun5) as [_ Hb5]. cbn [m_move m_block] in Hb5. rewrite Hb5, Z.eqb_refl, Hidx.
  change (selfptr (index_of _ idx)) with (selfptr idx). rewrite (fits_self _ _ _ _ Hfits). cbn [to_partition]. rewrite Hid, Z.eqb_refl. cbn [negb Z.eqb].
  rewrite Z.eqb_refl. eexists. split; [done|]. destruct (pid =? ltfs_ip_id v'); done.
Qed.
End find.
