(* ===== verification/VolumeWrite.v ===== *)
(** * What [ltfs_write_index] leaves on tape

    When writing a full index succeeds, its partition ends in an index file
    behind the append position, the other partition is untouched, and the volume
    keeps an index in good order. *)

From Stdlib Require Import String.
From S2P Require Import Prelude LtfsError Extents TapeOps TapeLayer TapeSpace Mam Journal Base64 KeyFormat Time TimeProps Xml XmlProps IndexXml IndexXmlProps IndexSorted Label Volume VolumeTape VolumeFind.

(** What the theorems need of ICU, uthash and libxml2. *)
Record lib_laws (lib : libs) : Prop := {
  ll_u8_ascii c s k : c < 0x80 -> u8_next lib (c :: s) = Some k -> k = 1%nat;
  ll_u8_positive s k : u8_next lib s = Some k -> (0 < k)%nat;
  ll_base64 v : Forall is_byte v -> exists text, write_base64 lib v = text ++ base64_padding v /\ Base64.skip_spaces text = base64_digits v;
  ll_sort l : hash_sort lib l ≡ₚ l;
  ll_pieces b : concat (xml_pieces lib b) = b;
  ll_not_empty ts : print_xml lib ts <> [];
  ll_reads ts : exists ns, read_xml lib (print_xml lib ts) = (true, ns) /\ reads_as ts ns;
}.

Section write.
Context {S : Type} `{MamLaws S}.
Variable lib : libs.
Context (Hlib : lib_laws lib).
Variable levels : nat.
Variable now : ltfs_timespec.
Variable incremental_schema : list Z -> ltfs_volume S -> option (list token) * ltfs_volume S.
Variable unfinished_text : list Z.
Implicit Types (d : device_data S) (v : ltfs_volume S).

Abbreviation good_for size := (good_index (u8_next lib) (validate_xattr_value lib) (write_base64 lib) (pathname_normalize lib)
  (pathname_validate_file lib) (pathname_validate_target lib) (Some (Z.of_nat size))).

Abbreviation write_schema := (_xml_write_schema (u8_next lib) (validate_xattr_value lib) (write_base64 lib) (hash_sort lib) levels).

(** The text of an index. *)
Definition document (c : list Z) (idx : ltfs_index) : list Z :=
  match write_schema c idx with Some (ts, _) => print_xml lib ts | None => [] end.

Lemma document_written size c idx : good_for size idx -> c <> [] -> (tree_depth (root idx) <= levels)%nat ->
  exists ts r, write_schema c idx = Some (ts, idx <| root := r |>) /\ sorted_tree (root idx) r /\ document c idx = print_xml lib ts /\
    parses_as lib levels size (print_xml lib ts) (read_back c (idx <| root := r |>)).
Proof.
  intros Hg Hc Hd.
  destruct (index_document _ (ll_u8_ascii _ Hlib) (ll_u8_positive _ Hlib) _ _ (ll_base64 _ Hlib) _ _ _ _ _ (ll_sort _ Hlib) c idx levels Hc Hd Hg)
    as (ts & r & E & Hs & Hp).
  exists ts, r. split; [done|]. split; [done|]. unfold document. rewrite E. split; [done|].
  destruct (ll_reads _ Hlib ts) as (ns & Hr & Hns). exists ns, []. split; [done|]. by apply Hp.
Qed.

(** ** The text *)

Lemma index_text_written size v m reason ts idx r v' : l_blocksize (label v) = Z.of_nat size -> (0 < size)%nat ->
  dev_ok (device v) m -> at_end m -> m_block m + zlength (print_xml lib ts) + 1 < 2 ^ 62 ->
  write_schema (v_creator v ++ str " - " ++ reason) (index v) = Some (ts, idx) ->
  xml_schema_to_tape lib levels now incremental_schema unfinished_text reason LTFS_FULL_INDEX v = (r, v') -> 0 <= r ->
  r = 0 /\ exists bl, text_blocks size (print_xml lib ts) bl /\ wrote (device v) m ((TData <$> bl) ++ [TFilemark]) (device v') /\
    v' = put_index (put_device v (device v')) (idx <| creator := v_creator v |>).
Proof.
  intros Hsize Hs Hok He Hm Ets. unfold xml_schema_to_tape, index_text. rewrite Ets, Hsize, Nat2Z.id.
  destruct (output_pieces now size _ _ _) as [o1 d1] eqn:E1. destruct (xml_output_tape_close_callback now o1 d1) as [o2 d2] eqn:E2.
  change (device (put_index v idx)) with (device v) in E1. pose proof (ll_pieces _ Hlib (print_xml lib ts)) as Hcat.
  destruct (Z.eqb_spec (o_err o2) 0) as [Herr|Herr]; cbn [negb].
  - destruct (text_written now size (xml_pieces lib (print_xml lib ts)) (device v) m o1 d1 o2 d2 Hs Hok He) as (bl & Hbl & Hw);
      [rewrite Hcat; apply (ll_not_empty _ Hlib)|rewrite Hcat; unfold zlength in Hm; lia|done..|].
    rewrite Hcat in Hbl. destruct (tape_write_filemark now d2 1 true true _) as [r3 d3] eqn:E3. intros [= <- <-] Hr.
    assert (Hlen : zlength (TData <$> bl) <= zlength (print_xml lib ts)).
    { destruct Hbl as (fb & last & -> & <- & Hf & Hl). pose proof (full_count size fb Hs Hf). unfold zlength. rewrite length_fmap, !length_app. cbn. lia. }
    assert (Hw3 : wrote (device v) m ((TData <$> bl) ++ [TFilemark]) d3 /\ r3 = 0).
    { destruct Hw as (m2 & Hok2 & Ha & Hq).
      destruct (filemarks_written now d2 m2 1 true true _ r3 d3 Hok2 ltac:(lia) ltac:(rewrite (ap_block _ _ _ Ha); lia) E3 Hr) as [-> Hw].
      split; [|done]. by eapply wrote_trans. }
    destruct Hw3 as [Hw3 ->]. split; [done|]. exists bl. done.
  - intros [= <- <-] Hr. exfalso. pose proof (close_err _ _ _ _ _ E2 (output_err _ _ _ _ _ _ _ E1 ltac:(cbn; lia))). lia.
Qed.

(** ** The device and the cartridge memory *)

(** Where the next index of a partition goes. *)
Definition append_block d (m : medium) (p : Z) : Z := if (append_pos d).[p] =? 0 then m_eod m p else (append_pos d).[p].

Lemma seek_append d m p unlock r d' : dev_ok d m -> p = 0 \/ p = 1 -> 0 <= (append_pos d).[p] < 2 ^ 62 -> m_eod m p < 2 ^ 62 ->
  tape_seek_append_position now d p unlock = (r, d') -> 0 <= r ->
  append_block d m p <= m_eod m p /\ dev_ok d' (m_move m p (append_block d m p)) /\
  forall q, q = 0 \/ q = 1 -> q <> p -> (append_pos d').[q] = (append_pos d).[q].
Proof.
  intros Hok Hp Ha Hm E Hr. destruct (tape_seek_append_cases now d m p unlock r d' Hok Hp ltac:(lia) ltac:(unfold TAPE_BLOCK_MAX; lia) E Hr) as (_ & Hok' & Hle & _).
  fold (append_block d m p) in Hok', Hle.
  assert (append_block d m p <= m_eod m p) by (unfold append_block, TAPE_BLOCK_MAX in *; case_bool; lia).
  split; [done|]. rewrite Z.min_l in Hok' by done. split; [done|]. intros q Hq Hne. unfold tape_seek_append_position in E.
  set (b := if (append_pos d).[p] =? 0 then _ else _) in E.
  destruct (tape_seek now d _) as [r1 d1] eqn:E1.
  apply (tape_seek_cases now d m) in E1 as (Ha1 & _ & _ & _); [|done|cbn; lia|cbn; subst b; unfold TAPE_BLOCK_MAX; case_bool; lia].
  destruct (r1 <? 0); [injection E as _ <-; cbn; congruence|].
  set (res := if _ && _ && _ then _ else _) in E. assert (exists r2 d2, res = (r2, d2) /\ append_pos d2 = append_pos d1) as (r2 & d2 & -> & Ha2).
  { subst res. destruct (_ && _ && _); [destruct (op_allow_overwrite _ _) as [r2 s2]|]; by eexists _, _. }
  injection E as _ <-. destruct ((append_pos d2).[p] =? 0); [|congruence].
  change (append_pos (d2 <| append_pos := ?x |>)) with x. rewrite a2get_set_ne by congruence. congruence.
Qed.

(** The cartridge memory is not the tape. *)
Lemma coherency_frame v : exists d ipc dpc, ltfs_update_cart_coherency v = v <| device := d |> <| ip_coh := ipc |> <| dp_coh := dpc |> /\
  append_pos d = append_pos (device v) /\ forall m, dev_ok (device v) m -> dev_ok d m.
Proof.
  assert (Hput : forall part coh w, exists d, put_coherency part coh w = w <| device := d |> /\ append_pos d = append_pos (device w) /\
    forall m, dev_ok (device w) m -> dev_ok d m).
  { intros part coh w. unfold put_coherency, tape_set_cart_coherency. destruct (op_write_attribute _ part _) as [r s] eqn:E.
    eexists. split; [done|]. split; [done|]. intros m [Hrep Hpos]. split; [|done]. by eapply mam_keeps_tape. }
  unfold ltfs_update_cart_coherency. set (vcr := (tape_get_volume_change_reference (device v)).2).
  destruct (_ || _); [by exists (device v), (ip_coh v), (dp_coh v); destruct v|].
  set (ipc0 := point_coherency vcr (ltfs_ip_id v) (ip_coh v) v).
  assert (exists d ipc, (if ip_index_file_end v then put_coherency (part_num v (ltfs_ip_id v)) ipc0 (v <| ip_coh := ipc0 |>) else v)
    = v <| device := d |> <| ip_coh := ipc |> /\ append_pos d = append_pos (device v) /\ forall m, dev_ok (device v) m -> dev_ok d m) as (d & ipc & -> & Ha & Hd).
  { destruct (ip_index_file_end v); [|by exists (device v), (ip_coh v); destruct v].
    destruct (Hput (part_num v (ltfs_ip_id v)) ipc0 (v <| ip_coh := ipc0 |>)) as (d & -> & Ha & Hd). by exists d, ipc0. }
  set (w := v <| device := d |> <| ip_coh := ipc |>). change (dp_index_file_end w) with (dp_index_file_end v). destruct (dp_index_file_end v).
  - set (dpc := point_coherency vcr (ltfs_dp_id w) (dp_coh w) w).
    destruct (Hput (part_num w (ltfs_dp_id w)) dpc (w <| dp_coh := dpc |>)) as (d2 & -> & Ha2 & Hd2).
    exists d2, ipc, dpc. split; [done|]. split; [by rewrite Ha2|]. intros m Hm. by apply Hd2, Hd.
  - by exists d, ipc, (dp_coh v); destruct v.
Qed.

(** What is noted after a full index. *)
Lemma noted_frame partition v m : dev_ok (device v) m ->
  exists d ipc dpc, full_index_written partition v =
    (if partition =? ltfs_ip_id v then v <| ip_index_file_end := true |> else v <| dp_index_file_end := true |>)
      <| device := d |> <| ip_coh := ipc |> <| dp_coh := dpc |> <| backptr_inc := mk_offset 0 0 |> <| selfptr_inc := mk_offset 0 0 |>
      <| v_journal := mk_jvolume [] [] false |> <| idx_dirty := false |> <| inc_dirty := false |> <| atime_dirty := false |>
      <| index := (index v) <| version := write_version (index v) |> |> <| full_index_to_go := full_index_interval v |> /\
    dev_ok d m /\ forall q, q = 0 \/ q = 1 -> q <> part_num v partition -> (append_pos d).[q] = (append_pos (device v)).[q].
Proof.
  intros Hok. unfold full_index_written.
  set (w := if partition =? ltfs_ip_id v then _ else _). destruct (coherency_frame w) as (d & ipc & dpc & -> & Ha & Hd).
  assert (Hw : device w = device v /\ label w = label v /\ index w = index v /\ full_index_interval w = full_index_interval v) by (subst w; by destruct (_ =? _)).
  destruct Hw as (Hw1 & Hw2 & Hw3 & Hw4). rewrite Hw1 in Ha, Hd. set (w2 := w <| device := d |> <| ip_coh := ipc |> <| dp_coh := dpc |>).
  assert (Hid : ltfs_ip_id w2 = ltfs_ip_id v /\ part_num w2 partition = part_num v partition) by (unfold ltfs_ip_id, part_num; change (label w2) with (label w); by rewrite Hw2).
  destruct Hid as [Hid Hnum]. rewrite Hid, Hnum. destruct (partition =? ltfs_ip_id v) eqn:Hip.
  - exists (tape_set_ip_append_position (device w2) (part_num v partition) (u64 (to_block (selfptr (index w2)) - 1))).2, ipc, dpc.
    split; [subst w2 w; by cbn; rewrite ?Hip|].
    unfold tape_set_ip_append_position. destruct (op_get_worm_status _) as [rw is_worm]. change (device w2) with d.
    assert (Hset : forall b, dev_ok (tape_set_append_position d (part_num v partition) b).2 m /\
      forall q, q = 0 \/ q = 1 -> q <> part_num v partition -> (append_pos (tape_set_append_position d (part_num v partition) b).2).[q] = (append_pos (device v)).[q]).
    { intros b. unfold tape_set_append_position. destruct (1 <? part_num v partition) eqn:Hbig; [split; [by apply Hd|intros; cbn [snd]; by rewrite Ha]|].
      split; [by apply (dev_ok_same d); [|apply Hd]|]. intros q Hq Hne. cbn. rewrite a2get_set_ne; [by rewrite Ha| |done|done].
      unfold part_num, ltfs_part_id2num in *. destruct (_ =? partition); [by left|]. destruct (_ =? partition); [by right|]. bsplit. lia. }
    destruct ((rw =? 0) && is_worm); apply Hset.
  - exists d, ipc, dpc. split; [subst w2 w; by cbn; rewrite ?Hip|]. split; [by apply Hd|intros; by rewrite Ha].
Qed.

(** ** The index *)

(** The index that is written: a new generation when something has changed, its
    place, and the place of the last one on the data partition. *)
Definition next_index (l : ltfs_label) (changed : bool) (p b : Z) (idx : ltfs_index) : ltfs_index :=
  let idx := if changed then idx <| generation := u32 (generation idx + 1) |> <| mod_time := now |> else idx in
  let idx := if to_partition (selfptr idx) =? partid_dp l then idx <| backptr := selfptr idx |> else idx in
  idx <| selfptr := mk_offset (part_num2id l).[p] (b + 1) |>.

Lemma next_root l changed p b idx : root (next_index l changed p b idx) = root idx.
Proof. unfold next_index. destruct changed; cbn; by destruct (_ =? _). Qed.

Definition creator_text (reason : list Z) v : list Z := v_creator v ++ str " - " ++ reason.

Lemma creator_text_not_empty reason v : creator_text reason v <> [].
Proof. unfold creator_text. by destruct (v_creator v). Qed.

Lemma out_failed write_perm upd volstat partition ret v v' : ret < 0 -> write_index_out write_perm upd volstat partition ret v <> (0, v').
Proof.
  intros Hr. unfold write_index_out. destruct (_ =? 0); [intros [= -> _]; lia|].
  destruct (tape_set_cart_volume_lock_status _ _) as [rm w]. destruct (Z.eqb_spec rm 0); intros [= ? _]; lia.
Qed.

(** A partition can take an index. *)
Record writable (size : nat) (p : Z) (v : ltfs_volume S) (m : medium) : Prop := {
  wr_dev : dev_ok (device v) m;
  wr_part : p = 0 \/ p = 1;
  wr_size : l_blocksize (label v) = Z.of_nat size /\ (0 < size)%nat;
  wr_append : 0 <= (append_pos (device v)).[p] < 2 ^ 62;
  wr_label : 4 <= append_block (device v) m p;
  wr_eod : m_eod m p < 2 ^ 62;
}.

(** An index was written: what is on tape and in memory. *)
Record index_written (size : nat) (partition : Z) (reason : list Z) v (m : medium) v' (m' : medium) : Prop := {
  iw_dev : dev_ok (device v') m';
  iw_tape : exists bl, ends_in_index m' (part_num v partition) (append_block (device v) m (part_num v partition) + 1) size
    (document (creator_text reason v)
       (next_index (label v) (ltfs_is_dirty v) (part_num v partition) (append_block (device v) m (part_num v partition)) (index v))) bl;
  iw_other q : q = 0 \/ q = 1 -> q <> part_num v partition -> m_log m' q = m_log m q /\ (append_pos (device v')).[q] = (append_pos (device v)).[q];
  iw_index : let idx := next_index (label v) (ltfs_is_dirty v) (part_num v partition) (append_block (device v) m (part_num v partition)) (index v) in
    exists r, sorted_tree (root idx) r /\ index v' = idx <| root := r |> <| creator := v_creator v |> <| version := write_version idx |> /\
      parses_as lib levels size (document (creator_text reason v) idx) (read_back (creator_text reason v) (idx <| root := r |>));
  iw_label : label v' = label v;
  iw_creator : v_creator v' = v_creator v;
  iw_clean : ltfs_is_dirty v' = false;
  iw_ip_end : ip_index_file_end v' = if partition =? ltfs_ip_id v then true else ip_index_file_end v;
  iw_dp_end : dp_index_file_end v' = if partition =? ltfs_ip_id v then dp_index_file_end v else true;
}.

Lemma index_here size v m partition reason volstat v' :
  let p := part_num v partition in
  let b := append_block (device v) m p in
  let idx := next_index (label v) (ltfs_is_dirty v) p b (index v) in
  writable size p v m -> good_for size idx -> (tree_depth (root (index v)) <= levels)%nat ->
  b + zlength (document (creator_text reason v) idx) + 3 < 2 ^ 62 ->
  write_index_here lib levels now incremental_schema unfinished_text partition reason LTFS_FULL_INDEX false volstat v = (0, v') ->
  exists m', index_written size partition reason v m v' m'.
Proof.
  intros p b idx [Hok Hp [Hsize Hs] Ha Hb Heod] Hg Hd Hroom. unfold write_index_here.
  set (v1 := if ltfs_is_dirty v then _ else v).
  assert (Hv1 : device v1 = device v /\ label v1 = label v) by (subst v1; by destruct (ltfs_is_dirty v)). destruct Hv1 as [Hd1 Hl1].
  assert (part_num v1 partition = p) as -> by (subst p; unfold part_num; by rewrite Hl1). rewrite Hd1, Hl1.
  destruct (tape_seek_append_position now (device v) p _) as [r0 d0] eqn:E0.
  destruct (r0 <? 0) eqn:Hr0; [intros E; exfalso; bsplit; by eapply out_failed in E|]. bsplit.
  destruct (seek_append _ m p _ _ _ Hok Hp Ha Heod E0 Hr0) as (Hle & Hok0 & Ha0). fold b in Hle, Hok0.
  assert (update_pointers LTFS_FULL_INDEX (put_device v1 d0) = put_index (put_device v d0) idx) as ->.
  { unfold update_pointers. rewrite bool_decide_true by done. change (position (device (put_device v1 d0))) with (position d0).
    change (label (put_device v1 d0)) with (label v1). destruct Hok0 as [_ [-> ->]]. cbn [m_move m_part m_block]. rewrite u64_small by lia.
    change (ltfs_dp_id (put_device v1 d0)) with (partid_dp (label v1)). rewrite Hl1. subst idx v1. unfold next_index. by destruct (ltfs_is_dirty v). }
  set (old := put_device v1 d0). cbn zeta.
  set (flush := if _ && _ then _ else _).
  assert (Hflush : exists r1 d1, flush = (r1, d1) /\ (0 <= r1 -> dev_ok d1 (m_move m p b) /\
    forall q, q = 0 \/ q = 1 -> q <> p -> (append_pos d1).[q] = (append_pos (device v)).[q])).
  { subst flush. destruct (_ && _); [|eexists _, _; split; [done|]; by split].
    destruct (tape_write_filemark now _ 0 true true false) as [r1 d1] eqn:E1. exists r1, d1. split; [done|]. intros Hr1.
    destruct (filemarks_written now d0 (m_move m p b) 0 true true false r1 d1 Hok0 ltac:(lia) ltac:(cbn; pose proof (zlength_nonneg (document (creator_text reason v) idx)); lia) E1 Hr1) as [_ [Hok1 Ha1]].
    split; [done|]. intros q Hq Hne. rewrite Ha1 by done. by apply Ha0. }
  destruct Hflush as (r1 & d1 & -> & Hok1). destruct (r1 <? 0) eqn:Hr1; [intros E; exfalso; bsplit; by eapply out_failed in E|]. bsplit.
  destruct (Hok1 Hr1) as [Hok1' Ha1]. clear Hok1. change (device (put_device (put_index (put_device v d0) idx) d1)) with d1.
  destruct (tape_write_filemark now d1 1 true true true) as [r2 d2] eqn:E2.
  destruct (r2 <? 0) eqn:Hr2; [intros E; exfalso; bsplit; by eapply out_failed in E|]. bsplit.
  pose proof (zlength_nonneg (document (creator_text reason v) idx)) as Hpos.
  destruct (filemarks_written now d1 (m_move m p b) 1 true true true r2 d2 Hok1' ltac:(lia) ltac:(cbn; lia) E2 Hr2) as [_ Hw2].
  cbn [Z.eqb] in Hw2. pose proof Hw2 as (m2 & Hok2 & Hap2 & Hq2). change (put_device (put_device (put_index (put_device v d0) idx) d1) d2) with (put_index (put_device v d2) idx).
  destruct (document_written size (creator_text reason v) idx Hg (creator_text_not_empty reason v)) as (ts & r & Ets & Hsort & Hdoc & Hparse).
  { subst idx. by rewrite next_root. }
  destruct (xml_schema_to_tape _ _ _ _ _ _ _ _) as [r3 v3] eqn:E3.
  destruct (r3 <? 0) eqn:Hr3; [intros E; exfalso; bsplit; by eapply out_failed in E|]. bsplit.
  assert (Hend : at_end m2) by (eapply appended_end; [by eapply dev_ok_wf, Hok1'|exact Hap2]).
  rewrite Hdoc in *.
  destruct (index_text_written size (put_index (put_device v d2) idx) m2 reason ts _ r3 v3 Hsize Hs Hok2 Hend
    ltac:(rewrite (ap_block _ _ _ Hap2); change (zlength [TFilemark]) with 1; cbn [m_move m_block]; lia) Ets E3 Hr3) as (-> & bl & Hbl & Hw3 & Hv3).
  rewrite bool_decide_true by done. change (device (put_index (put_device v d2) idx)) with d2 in Hw3. pose proof Hw3 as (m3 & Hok3 & Hap3 & Hq3).
  destruct (noted_frame partition v3 m3 Hok3) as (d4 & ipc & dpc & Hv4 & Hok4 & Ha4). unfold write_index_out. cbn [Z.eqb]. intros [= Hv'].
  pose proof (appended_trans _ _ _ _ _ (dev_ok_wf _ _ Hok1') Hap2 Hap3) as Hap.
  assert (Hids : ltfs_ip_id v3 = ltfs_ip_id v /\ part_num v3 partition = p) by (by rewrite Hv3). destruct Hids as [Hip Hnum].
  rewrite Hip in Hv4. rewrite Hnum in Ha4. exists m3.
  assert (Hidx : index v3 = idx <| root := r |> <| creator := v_creator v |>) by by rewrite Hv3.
  assert (Hlab : label v3 = label v) by by rewrite Hv3. assert (Hcr : v_creator v3 = v_creator v) by by rewrite Hv3.
  assert (Hflags : use_atime v3 = use_atime v /\ ip_index_file_end v3 = ip_index_file_end v /\ dp_index_file_end v3 = dp_index_file_end v) by by rewrite Hv3.
  destruct Hflags as (_ & Hf1 & Hf2). rewrite Hv4 in Hv'. clear Hv4 Hv3.
  split.
  - rewrite <- Hv'. by destruct (partition =? ltfs_ip_id v).
  - exists bl. fold p b idx. rewrite Hdoc. split; [done|lia|done|done| |].
    + exists (take (Z.to_nat b) (m_log m p)). split.
      * rewrite length_take. unfold m_eod, zlength in *. lia.
      * destruct Hap as [_ _ Hl _]. cbn [m_move m_part m_block m_log] in Hl. by rewrite Hl.
    + assert (Hlen : zlength (TData <$> bl) <= zlength (print_xml lib ts)).
      { destruct Hbl as (fb & last & -> & <- & Hf & Hl). pose proof (full_count size fb Hs Hf). unfold zlength. rewrite length_fmap, !length_app. cbn. lia. }
      unfold zlength in *. rewrite length_fmap in Hlen. lia.
  - intros q Hq Hne. fold p in Hne. split; [by rewrite (ap_other _ _ _ Hap)|].
    assert ((append_pos d4).[q] = (append_pos (device v)).[q]) as <-.
    { rewrite Ha4 by done. rewrite Hq3, Hq2, Ha1; [done|done|done|done|done|done|]. by rewrite (ap_part _ _ _ Hap2). }
    rewrite <- Hv'. by destruct (partition =? ltfs_ip_id v).
  - fold p b idx. exists r. split; [done|]. rewrite Hdoc. split; [|done]. rewrite <- Hv', Hidx. by destruct (partition =? ltfs_ip_id v).
  - rewrite <- Hv', <- Hlab. by destruct (partition =? ltfs_ip_id v).
  - rewrite <- Hv', <- Hcr. by destruct (partition =? ltfs_ip_id v).
  - rewrite <- Hv'. unfold ltfs_is_dirty. destruct (partition =? ltfs_ip_id v); cbn; apply andb_false_r.
  - rewrite <- Hv', <- Hf1. by destruct (partition =? ltfs_ip_id v).
  - rewrite <- Hv', <- Hf2. by destruct (partition =? ltfs_ip_id v).
Qed.
End write.
