(* ===== verification/VolumeProps.v ===== *)
(** * A volume that was synchronised is consistent

    After [ltfs_write_index] has brought an index to both partitions, the medium
    check of the next mount finds both, takes the one of the index partition as
    the newer one, and calls the volume consistent.  For every backend that
    keeps the contracts of the tape layer and of the cartridge memory. *)

From Stdlib Require Import String.
From S2P Require Import Prelude LtfsError Extents TapeOps TapeLayer TapeSpace Mam Journal Base64 KeyFormat Time TimeProps Xml XmlProps IndexXml IndexXmlProps IndexSorted Label LabelProps Volume VolumeTape VolumeFind VolumeWrite.

Section sync.
Context {S : Type} {Hops : TapeOps S} {Hlaws : TapeLaws S} {Hspace : SpaceLaws S} {Hmam : MamOps S} {Hmaml : MamLaws S}.
Variable lib : libs.
Context (Hlib : lib_laws lib).
Variable levels : nat.
Variable now : ltfs_timespec.
Variable incremental_schema : list Z -> ltfs_volume S -> option (list token) * ltfs_volume S.
Variable unfinished_text : list Z.
Implicit Types (d : device_data S) (v w : ltfs_volume S).

Abbreviation write_index := (ltfs_write_index lib levels now incremental_schema unfinished_text).
Abbreviation good_for size := (good_index (u8_next lib) (validate_xattr_value lib) (write_base64 lib) (pathname_normalize lib)
  (pathname_validate_file lib) (pathname_validate_target lib) (Some (Z.of_nat size))).

Lemma write_index_plain partition reason v v' : reason <> SYNC_WRITE_PERM -> dp_index_first partition false v = false ->
  write_index partition reason LTFS_FULL_INDEX v = (0, v') ->
  exists volstat, write_index_here lib levels now incremental_schema unfinished_text partition reason LTFS_FULL_INDEX false volstat v = (0, v').
Proof.
  intros Hr Hfirst. unfold ltfs_write_index, write_index_with. rewrite bool_decide_false by done.
  destruct (tape_get_cart_volume_lock_status _ _) as [r0 volstat]. destruct (r0 <? 0) eqn:E0; [bsplit; intros [= ? _]; lia|].
  unfold _ltfs_resolve_index_type. rewrite (bool_decide_false (LTFS_FULL_INDEX = LTFS_INDEX_AUTO)), (bool_decide_false (LTFS_FULL_INDEX = LTFS_INCREMENTAL_INDEX)) by done.
  cbn [andb]. rewrite (bool_decide_false (LTFS_FULL_INDEX = LTFS_INCREMENTAL_INDEX)) by done. cbn [andb].
  destruct (index_refusal v <? 0) eqn:E1; [bsplit; intros [= ? _]; lia|]. rewrite Hfirst. by exists volstat.
Qed.

(** ** Pointers *)

(** An index in good order, but for its pointers. *)
Definition good_content (size : nat) (idx : ltfs_index) : Prop :=
  good_for size (idx <| selfptr := mk_offset 97 0 |> <| backptr := mk_offset 0 0 |>).

Definition back_to (back : tape_offset) : Prop := back = mk_offset 0 0 \/ good_position back /\ to_block back <> 0.

Lemma good_pointers size idx : good_content size idx -> good_position (selfptr idx) -> back_to (backptr idx) -> good_for size idx.
Proof. intros [] Hs Hb. by constructor. Qed.

Lemma content_pointers size idx : good_for size idx -> good_content size idx.
Proof. intros []. constructor; try done. by left. Qed.

Lemma content_next size l changed p b idx : good_content size idx -> time_ok now -> good_content size (next_index now l changed p b idx).
Proof.
  intros [] Ht. unfold next_index. destruct changed; cbn; (destruct (_ =? _); [by constructor; try done; unfold in_u32, u32; cbn; apply Z.mod_pos_bound|]);
    by constructor; try done; unfold in_u32, u32; cbn; apply Z.mod_pos_bound.
Qed.

(** The last index on the data partition is in front of the block [b]. *)
Definition dp_place (l : ltfs_label) (b : Z) (o : tape_offset) : Prop :=
  to_partition o = partid_dp l /\ 5 <= to_block o /\ to_block o + 2 <= b.

Definition pointers_ok (l : ltfs_label) (b : Z) (idx : ltfs_index) : Prop :=
  if to_partition (selfptr idx) =? partid_dp l then dp_place l b (selfptr idx)
  else backptr idx = mk_offset 0 0 \/ dp_place l b (backptr idx).

Lemma next_back l changed p b idx : pointers_ok l b idx ->
  backptr (next_index now l changed p b idx) = mk_offset 0 0 \/ dp_place l b (backptr (next_index now l changed p b idx)).
Proof.
  unfold pointers_ok, next_index. intros Hp. assert (forall x : ltfs_index, selfptr x = selfptr idx -> backptr x = backptr idx ->
    let y := if to_partition (selfptr x) =? partid_dp l then x <| backptr := selfptr x |> else x in
    backptr y = mk_offset 0 0 \/ dp_place l b (backptr y)) as Hx.
  { intros x Es Eb. rewrite Es. destruct (_ =? _); cbn; rewrite ?Es, ?Eb; [by right|done]. }
  destruct changed; by apply (Hx (idx <| generation := _ |> <| mod_time := _ |>)) || by apply (Hx idx).
Qed.

Lemma next_from_dp l changed p b idx : to_partition (selfptr idx) = partid_dp l -> backptr (next_index now l changed p b idx) = selfptr idx.
Proof. intros E. unfold next_index. destruct changed; cbn; by rewrite E, Z.eqb_refl. Qed.

Lemma next_uuid l changed p b idx : vol_uuid (next_index now l changed p b idx) = vol_uuid idx.
Proof. unfold next_index. destruct changed; cbn; by destruct (_ =? _). Qed.

Lemma next_place l changed p b idx : b + 1 < 2 ^ 64 -> 0 <= b -> 97 <= (part_num2id l).[p] <= 122 -> good_position (selfptr (next_index now l changed p b idx)).
Proof. intros. unfold good_position, in_u64. cbn. lia. Qed.

Lemma place_good l b o : 97 <= partid_dp l <= 122 -> b < 2 ^ 62 -> o = mk_offset 0 0 \/ dp_place l b o -> back_to o.
Proof. intros Hl Hb [->|(Hp & H1 & H2)]; [by left|right]. unfold good_position, in_u64. lia. Qed.

(** A back pointer to the last index of the data partition is accepted. *)
Lemma back_accepted l idx p b : good_label l -> selfptr idx = mk_offset (part_num2id l).[p] (b + 1) -> 4 <= b -> b + 1 < 2 ^ 62 ->
  97 <= (part_num2id l).[p] -> backptr idx = mk_offset 0 0 \/ to_partition (backptr idx) = partid_dp l /\ 5 <= to_block (backptr idx) /\
    ((part_num2id l).[p] = partid_dp l -> to_block (backptr idx) + 2 <= b) -> back_pointer_ok l idx = true.
Proof.
  intros Hl Hs Hb Hbound Hp Hback. pose proof (gl_dp _ Hl). unfold back_pointer_ok. rewrite Hs. cbn [to_partition to_block]. rewrite u64_small by lia.
  destruct Hback as [->|(-> & H5 & H2)]; cbn [to_partition to_block]; [rewrite (proj2 (Z.eqb_neq 0 (part_num2id l).[p])) by lia; done|].
  replace (negb (partid_dp l =? 0) && negb (partid_dp l =? partid_dp l)) with false by lia.
  destruct (Z.eqb_spec (partid_dp l) (part_num2id l).[p]) as [E|E]; cbn [andb].
  - specialize (H2 (eq_sym E)). replace (b + 1 - 2 <=? to_block (backptr idx)) with false by lia. rewrite andb_false_r.
    replace (to_block (backptr idx) <? 5) with false by lia. by rewrite andb_false_r.
  - replace (to_block (backptr idx) <? 5) with false by lia. by rewrite andb_false_r.
Qed.

(** ** The two partitions *)

Lemma partition_numbers l : good_label l -> let pd := ltfs_part_id2num (partid_dp l) l in let pi := ltfs_part_id2num (partid_ip l) l in
  (pd = 0 /\ pi = 1 \/ pd = 1 /\ pi = 0) /\ (part_num2id l).[pd] = partid_dp l /\ (part_num2id l).[pi] = partid_ip l.
Proof.
  intros Hl. pose proof (gl_distinct _ Hl) as Hne. unfold ltfs_part_id2num. destruct (gl_map _ Hl) as [->| ->]; cbn; rewrite ?Z.eqb_refl;
    (rewrite (proj2 (Z.eqb_neq _ _)) by congruence); cbn; auto.
Qed.

Lemma same_end m1 m2 p s size text bl : m_log m2 p = m_log m1 p -> ends_in_index m1 p s size text bl -> ends_in_index m2 p s size text bl.
Proof. intros E []. by split; try rewrite E. Qed.

(** A volume that can be synchronised: both partitions can take an index, and the index is in good order. *)
Record sync_ready (size : nat) v (m : medium) : Prop := {
  sr_label : good_label (label v);
  sr_part partition : partition = ltfs_dp_id v \/ partition = ltfs_ip_id v -> writable size (part_num v partition) v m;
  sr_index : good_content size (index v);
  sr_depth : (tree_depth (root (index v)) <= levels)%nat;
  sr_uuid : vol_uuid (index v) = l_vol_uuid (label v);
  sr_pointers : pointers_ok (label v) (append_block (device v) m (part_num v (ltfs_dp_id v))) (index v);
}.

(** The text that is written to a partition at block [b]. *)
Definition next_text (reason : list Z) (partition b : Z) v : list Z :=
  document lib levels (creator_text reason v) (next_index now (label v) (ltfs_is_dirty v) (part_num v partition) b (index v)).

(** The text fits on the tape, and libxml2 reads it to its end. *)
Record readable (size : nat) (b : Z) (text : list Z) : Prop := {
  rd_room : b + zlength text + 3 < 2 ^ 62;
  rd_end : read_to_end lib size text;
}.

Lemma append_bound size p v m : writable size p v m -> 4 <= append_block (device v) m p < 2 ^ 62.
Proof. intros []. unfold append_block in *. destruct (_ =? 0); lia. Qed.

Lemma content_written size idx r c vn : good_for size idx -> sorted_tree (root idx) r ->
  good_content size (idx <| root := r |> <| creator := c |> <| version := vn |>) /\ (tree_depth r <= tree_depth (root idx))%nat.
Proof.
  intros Hg Hs. destruct (sorted_index _ _ _ _ _ _ _ idx r Hs Hg) as [Hg' Hd]. split; [|done].
  apply content_pointers in Hg'. unfold good_content in *. destruct Hg'. by constructor.
Qed.

Lemma dp_written size reason v m v1 : sync_ready size v m -> time_ok now -> reason <> SYNC_WRITE_PERM ->
  readable size (append_block (device v) m (part_num v (ltfs_dp_id v))) (next_text reason (ltfs_dp_id v) (append_block (device v) m (part_num v (ltfs_dp_id v))) v) ->
  write_index (ltfs_dp_id v) reason LTFS_FULL_INDEX v = (0, v1) ->
  good_for size (next_index now (label v) (ltfs_is_dirty v) (part_num v (ltfs_dp_id v)) (append_block (device v) m (part_num v (ltfs_dp_id v))) (index v)) /\
  exists m1, index_written lib levels now size (ltfs_dp_id v) reason v m v1 m1.
Proof.
  intros Hr Ht Hreason Hread E. pose proof (sr_label _ _ _ Hr) as Hl. destruct (partition_numbers _ Hl) as (Hnum & Hdp & Hip).
  pose proof (sr_part _ _ _ Hr _ (or_introl eq_refl)) as Hw. pose proof (append_bound _ _ _ _ Hw) as Hb. pose proof (gl_dp _ Hl) as Hdp_range.
  assert (Hg : good_for size (next_index now (label v) (ltfs_is_dirty v) (part_num v (ltfs_dp_id v)) (append_block (device v) m (part_num v (ltfs_dp_id v))) (index v))).
  { apply good_pointers; [by apply content_next; [apply Hr|]|apply next_place; [lia|lia|]|].
    - unfold part_num, ltfs_dp_id. by rewrite Hdp.
    - eapply place_good; [done| |apply next_back, Hr]. lia. }
  split; [done|]. apply write_index_plain in E as [volstat E]; [|done|].
  - eapply index_here; [done|exact Hw|exact Hg|apply Hr|apply Hread|exact E].
  - unfold dp_index_first, ltfs_dp_id, ltfs_ip_id. by rewrite (proj2 (Z.eqb_neq _ _) (gl_distinct _ Hl)).
Qed.

(** The second index: nothing has changed since the first, to which it points back. *)
Lemma ip_written size reason v m v1 m1 v2 : sync_ready size v m -> time_ok now -> reason <> SYNC_WRITE_PERM ->
  good_for size (next_index now (label v) (ltfs_is_dirty v) (part_num v (ltfs_dp_id v)) (append_block (device v) m (part_num v (ltfs_dp_id v))) (index v)) ->
  index_written lib levels now size (ltfs_dp_id v) reason v m v1 m1 ->
  let b := append_block (device v) m (part_num v (ltfs_ip_id v)) in
  readable size b (next_text reason (ltfs_ip_id v) b v1) ->
  write_index (ltfs_ip_id v) reason LTFS_FULL_INDEX v1 = (0, v2) ->
  append_block (device v1) m1 (part_num v1 (ltfs_ip_id v)) = b /\ exists m2, index_written lib levels now size (ltfs_ip_id v) reason v1 m1 v2 m2.
Proof.
  intros Hr Ht Hreason Hg Hw1 b Hread E. pose proof (sr_label _ _ _ Hr) as Hl. destruct (partition_numbers _ Hl) as (Hnum & Hdp & Hip).
  fold (part_num v (partid_dp (label v))) in Hnum, Hdp. fold (part_num v (partid_ip (label v))) in Hnum, Hip. fold (ltfs_dp_id v) in Hnum, Hdp. fold (ltfs_ip_id v) in Hnum, Hip.
  set (pd := part_num v (ltfs_dp_id v)) in *. set (pi := part_num v (ltfs_ip_id v)) in *.
  pose proof (sr_part _ _ _ Hr _ (or_introl eq_refl)) as Hwd. fold pd in Hwd.
  pose proof (sr_part _ _ _ Hr _ (or_intror eq_refl)) as Hwi. fold pi in Hwi.
  pose proof (append_bound _ _ _ _ Hwd) as Hbd. pose proof (append_bound _ _ _ _ Hwi) as Hbi.
  pose proof (gl_dp _ Hl) as Hdr. pose proof (gl_ip _ Hl) as Hir. pose proof (gl_distinct _ Hl) as Hne.
  destruct (iw_other _ _ _ _ _ _ _ _ _ _ Hw1 pi ltac:(lia) ltac:(fold pd; lia)) as [Hlog Happ].
  pose proof (iw_label _ _ _ _ _ _ _ _ _ _ Hw1) as Hlab. assert (Hpn : part_num v1 (ltfs_ip_id v) = pi) by (unfold part_num; by rewrite Hlab).
  rewrite Hpn. assert (Hb : append_block (device v1) m1 pi = b) by (subst b; unfold append_block, m_eod; by rewrite Hlog, Happ). split; [done|].
  destruct (iw_index _ _ _ _ _ _ _ _ _ _ Hw1) as (r & Hsort & Hidx & _). fold pd in Hsort, Hidx.
  set (i1 := next_index now (label v) (ltfs_is_dirty v) pd (append_block (device v) m pd) (index v)) in *.
  assert (Hself : selfptr (index v1) = mk_offset (ltfs_dp_id v) (append_block (device v) m pd + 1)) by (rewrite Hidx; subst i1; unfold next_index; cbn; by rewrite Hdp).
  destruct (content_written size i1 r (v_creator v) (write_version i1) Hg Hsort) as [Hcont Hdepth]. rewrite <- Hidx in Hcont.
  apply write_index_plain in E as [volstat E]; [|done|].
  - eapply index_here; [done|..|exact E].
    + rewrite Hpn. destruct Hwi as [? ? ? ? ? ?]. split; [apply Hw1|done|by rewrite Hlab|by rewrite Happ|by rewrite Hb|unfold m_eod; by rewrite Hlog].
    + rewrite Hpn, Hb. apply good_pointers; [by apply content_next|apply next_place; [lia|lia|rewrite Hlab, Hip; done]|].
      rewrite next_from_dp, Hself by (by rewrite Hself, Hlab). right. unfold good_position, in_u64, ltfs_dp_id. cbn. lia.
    + assert (root (index v1) = r) as -> by by rewrite Hidx. pose proof (sr_depth _ _ _ Hr). subst i1. rewrite next_root in Hdepth. lia.
    + rewrite Hpn, Hb. unfold next_text in Hread. rewrite Hpn in Hread. apply Hread.
  - unfold dp_index_first. rewrite (iw_dp_end _ _ _ _ _ _ _ _ _ _ Hw1). unfold ltfs_ip_id, ltfs_dp_id. rewrite (proj2 (Z.eqb_neq _ _) Hne), Hself.
    cbn [to_partition]. unfold ltfs_dp_id. rewrite Hlab, (proj2 (Z.eqb_neq _ _) Hne). cbn. by rewrite andb_false_r, andb_false_r.
Qed.

(** What is on a partition belongs there. *)
Lemma written_fits l changed p b idx c r : good_label l -> vol_uuid idx = l_vol_uuid l -> 4 <= b -> b + 1 < 2 ^ 62 -> 97 <= (part_num2id l).[p] ->
  let i := next_index now l changed p b idx in
  backptr i = mk_offset 0 0 \/ to_partition (backptr i) = partid_dp l /\ 5 <= to_block (backptr i) /\
    ((part_num2id l).[p] = partid_dp l -> to_block (backptr i) + 2 <= b) ->
  fits l p (b + 1) (read_back c (i <| root := r |>)).
Proof.
  intros Hl Hu Hb Hbound Hp i Hback. pose proof (next_uuid l changed p b idx) as Hi. fold i in Hi.
  split; [by rewrite <- Hu, <- Hi|done|]. by eapply back_accepted.
Qed.

(** What the check asks of the drive: to find the index of the index partition, and then
    that of the data partition. *)
Definition mount_calls (pi pd : Z) (size : nat) (ti td : list Z) : list drive_call :=
  index_calls pi size ti ++ index_calls pd size td.

(** Both partitions end in an index, and both indexes are accepted. *)
Lemma check_consistent size w m later tries fuel fix_it pd pi sd si td ti bd bi id ii :
  good_label (label w) -> part_num w (ltfs_dp_id w) = pd -> part_num w (ltfs_ip_id w) = pi ->
  (part_num2id (label w)).[pd] = ltfs_dp_id w -> (part_num2id (label w)).[pi] = ltfs_ip_id w -> l_blocksize (label w) = Z.of_nat size ->
  dev_ok (device w) m -> ends_in_index m pd sd size td bd -> ends_in_index m pi si size ti bi ->
  read_to_end lib size td -> read_to_end lib size ti -> (length td < fuel)%nat -> (length ti < fuel)%nat ->
  parses_as lib levels size td id -> parses_as lib levels size ti ii -> fits (label w) pd sd id -> fits (label w) pi si ii ->
  generation id <= generation ii -> backptr ii = selfptr id ->
  carries_out later (mount_calls pi pd size ti td) (device w) = true ->
  exists w', ltfs_check_medium lib levels later incremental_schema unfinished_text (Datatypes.S tries) fuel fix_it w = Some (0, w') /\
    index w' = index_of (label w) ii /\ idx_dirty w' = false /\ ip_index_file_end w' = true /\ dp_index_file_end w' = true /\
    exists p b, dev_ok (device w') (m_move m p b).
Proof.
  intros Hl Hpd Hpi Hid1 Hid2 Hsize Hok Hed Hei Hrd Hri Hfd Hfi Hpard Hpari Hfitd Hfiti Hgen Hback Hdrive. unfold ltfs_check_medium, mount_calls in *. rewrite <- (app_nil_r (index_calls pd size td)) in Hdrive.
  destruct (index_found lib levels later w m pi (ltfs_ip_id w) si size ti bi _ tries fuel ii Hei Hpi Hid2 Hsize (conj Hok Hdrive) Hri Hfi Hpari Hfiti)
    as (w1 & -> & Hx1 & Hl1 & _ & Hrun1).
  cbn [mbind option_bind Z.ltb Z.compare Z.eqb]. assert (Hdp1 : ltfs_dp_id w1 = ltfs_dp_id w) by (unfold ltfs_dp_id; by rewrite Hl1). rewrite Hdp1.
  destruct (index_found lib levels later w1 (m_move m pi (m_eod m pi)) pd (ltfs_dp_id w) sd size td bd [] tries fuel id) as (w2 & -> & Hx2 & Hl2 & Hd2 & Hrun2);
    [by apply (same_end m)|unfold part_num; by rewrite Hl1|by rewrite Hl1|by rewrite Hl1|done|done|done|done|by rewrite Hl1|].
  cbn [mbind option_bind Z.ltb Z.compare Z.eqb andb negb close_index blocks_after fm_after orb].
  assert (Hpoint : _ltfs_check_pointers lib levels later fuel (Some (index w1)) (Some (index w2)) w2 = Some (0, w2)).
  { unfold _ltfs_check_pointers. rewrite Hx1, Hx2. unfold index_of. cbn. rewrite Hback, !Z.eqb_refl.
    by rewrite (proj2 (Z.leb_le _ _)). }
  rewrite Hpoint. cbn [mbind option_bind Z.ltb Z.compare Z.eqb choose_index]. unfold restore_consistency.
  change (idx_dirty ((put_index w2 (index w1)) <| ip_index_file_end := true |> <| dp_index_file_end := true |>)) with (idx_dirty w2). rewrite Hd2. cbn [negb].
  destruct (coherency_frame ((put_index w2 (index w1)) <| ip_index_file_end := true |> <| dp_index_file_end := true |>)) as (d & ipc & dpc & -> & _ & Hd).
  eexists. split; [done|]. cbn. rewrite Hx1. do 4 (split; [done|]). eexists _, _. apply Hd. apply Hrun2.
Qed.

(** C5: synchronising a volume leaves it consistent.  When [ltfs_write_index] has
    written a full index to the data partition and then to the index partition,
    then [ltfs_check_medium] (without deep recovery and without the recovery of
    symbolic links) of any later mount that holds the same tape, wherever its head
    is, finds both indexes by searching from the end of data, takes the one of the
    index partition as the newest, reports success and leaves the tape as it is:
    the volume has the index that was written (its creator names the reason, the
    version for writing is that of the volume, and the criteria in use are those
    stored in the index), it is not dirty, and both partitions end in an index
    file.  The drive has to carry out the calls that the check makes
    ([mount_calls]: for each partition to go to the end of data, over the file marks of the
    index, and to read its blocks with a buffer of the block size), and libxml2 has to
    ask for bytes until it has the whole text ([read_to_end]).  Before the
    synchronisation the volume has good labels, an index in good order and room
    behind the labels ([sync_ready]). *)
Theorem synced_volume_is_consistent size reason v m v1 v2
    (Hready : sync_ready size v m) (Htime : time_ok now) (Hreason : reason <> SYNC_WRITE_PERM)
    (Hdp : write_index (ltfs_dp_id v) reason LTFS_FULL_INDEX v = (0, v1))
    (Hip : write_index (ltfs_ip_id v) reason LTFS_FULL_INDEX v1 = (0, v2)) :
  let bd := append_block (device v) m (part_num v (ltfs_dp_id v)) in
  let bi := append_block (device v) m (part_num v (ltfs_ip_id v)) in
  let td := next_text reason (ltfs_dp_id v) bd v in
  let ti := next_text reason (ltfs_ip_id v) bi v1 in
  readable size bd td -> readable size bi ti ->
  exists m2, dev_ok (device v2) m2 /\
  forall w m3 later tries fuel fix_it,
    label w = label v -> dev_ok (device w) m3 -> (forall q, q = 0 \/ q = 1 -> m_log m3 q = m_log m2 q) ->
    (length td < fuel)%nat -> (length ti < fuel)%nat ->
    carries_out later (mount_calls (part_num v (ltfs_ip_id v)) (part_num v (ltfs_dp_id v)) size ti td) (device w) = true ->
    exists w', ltfs_check_medium lib levels later incremental_schema unfinished_text (Datatypes.S tries) fuel fix_it w = Some (0, w') /\
      index w' = (index v2) <| creator := creator_text reason v |> <| active_criteria := original_criteria (index v2) |>
                   <| write_version := ltfs_index_write_version (l_version (label v)) (write_version (index v2)) |> /\
      idx_dirty w' = false /\ ip_index_file_end w' = true /\ dp_index_file_end w' = true /\
      exists p b, dev_ok (device w') (m_move m3 p b).
Proof.
  intros bd bi td ti Htd Hti. pose proof (sr_label _ _ _ Hready) as Hl. destruct (partition_numbers _ Hl) as (Hnum & Hdn & Hin).
  fold (part_num v (partid_dp (label v))) in Hnum, Hdn. fold (part_num v (partid_ip (label v))) in Hnum, Hin. fold (ltfs_dp_id v) in Hnum, Hdn. fold (ltfs_ip_id v) in Hnum, Hin.
  destruct (dp_written size reason v m v1 Hready Htime Hreason Htd Hdp) as (Hg & m1 & Hw1).
  destruct (ip_written size reason v m v1 m1 v2 Hready Htime Hreason Hg Hw1 Hti Hip) as (Hbi & m2 & Hw2).
  exists m2. split; [apply Hw2|]. intros w m3 later tries fuel fix_it Hlab Hok Hlog Hfd Hfi Hdrive.
  pose proof (iw_label _ _ _ _ _ _ _ _ _ _ Hw1) as Hl1. pose proof (iw_creator _ _ _ _ _ _ _ _ _ _ Hw1) as Hc1.
  assert (Hpn : part_num v1 (ltfs_ip_id v) = part_num v (ltfs_ip_id v)) by (unfold part_num; by rewrite Hl1).
  assert (Hct : creator_text reason v1 = creator_text reason v) by (unfold creator_text; by rewrite Hc1).
  destruct (iw_tape _ _ _ _ _ _ _ _ _ _ Hw1) as [bld Hed]. destruct (iw_tape _ _ _ _ _ _ _ _ _ _ Hw2) as [bli Hei].
  destruct (iw_index _ _ _ _ _ _ _ _ _ _ Hw1) as (r1 & _ & Hx1 & Hp1). destruct (iw_index _ _ _ _ _ _ _ _ _ _ Hw2) as (r2 & _ & Hx2 & Hp2).
  rewrite Hbi in Hei, Hx2, Hp2. fold bd in Hed, Hx1, Hp1. fold bi in Hei, Hx2, Hp2. change (document _ _ _ _) with td in Hed, Hp1.
  change (document _ _ _ _) with ti in Hei, Hp2. rewrite Hpn, Hl1, (iw_clean _ _ _ _ _ _ _ _ _ _ Hw1), ?Hct in *.
  set (pd := part_num v (ltfs_dp_id v)) in *. set (pi := part_num v (ltfs_ip_id v)) in *.
  set (i1 := next_index now (label v) (ltfs_is_dirty v) pd bd (index v)) in *.
  set (i2 := next_index now (label v) false pi bi (index v1)) in *. cbn zeta in Hx1, Hx2.
  pose proof (append_bound _ _ _ _ (sr_part _ _ _ Hready _ (or_introl eq_refl))) as Hbd. fold pd bd in Hbd.
  pose proof (append_bound _ _ _ _ (sr_part _ _ _ Hready _ (or_intror eq_refl))) as Hbi'. fold pi bi in Hbi'.
  pose proof (gl_dp _ Hl) as Hdr. pose proof (gl_ip _ Hl) as Hir. pose proof (gl_distinct _ Hl) as Hne.
  pose proof (rd_room _ _ _ Htd) as Hroom1. pose proof (rd_room _ _ _ Hti) as Hroom2. pose proof (zlength_nonneg td). pose proof (zlength_nonneg ti).
  assert (Hself : selfptr (index v1) = mk_offset (ltfs_dp_id v) (bd + 1)) by (rewrite Hx1; subst i1; cbn; by rewrite Hdn).
  assert (Hb2 : backptr i2 = selfptr (index v1)) by (apply next_from_dp; by rewrite Hself).
  destruct (check_consistent size w m3 later tries fuel fix_it pd pi (bd + 1) (bi + 1) td ti bld bli (read_back (creator_text reason v) (i1 <| root := r1 |>))
    (read_back (creator_text reason v) (i2 <| root := r2 |>))) as (w' & Hcheck & Hxw & Hrest); try done; try (unfold part_num, ltfs_dp_id, ltfs_ip_id; by rewrite Hlab);
    try (unfold ltfs_dp_id, ltfs_ip_id; rewrite Hlab; done).
  - rewrite Hlab. apply (wr_size _ _ _ _ (sr_part _ _ _ Hready _ (or_introl eq_refl))).
  - apply (same_end m1); [|done]. rewrite Hlog by lia. by apply (iw_other _ _ _ _ _ _ _ _ _ _ Hw2); [lia|rewrite Hpn; lia].
  - apply (same_end m2); [|done]. apply Hlog. lia.
  - apply Htd.
  - apply Hti.
  - rewrite Hlab. apply written_fits; [done|apply Hready|lia|lia|by rewrite Hdn; unfold ltfs_dp_id; lia|].
    destruct (next_back (label v) (ltfs_is_dirty v) pd bd (index v) (sr_pointers _ _ _ Hready)) as [?|(? & ? & ?)]; [by left|right]. by split_and!.
  - rewrite Hlab. apply written_fits; [done|by rewrite Hx1; transitivity (vol_uuid i1); [|unfold i1; rewrite next_uuid; apply Hready]|lia|lia|by rewrite Hin; unfold ltfs_ip_id; lia|].
    right. fold i2. rewrite Hb2, Hself, Hin. cbn. unfold ltfs_ip_id, ltfs_dp_id. split; [done|]. split; [lia|]. congruence.
  - cbn. subst i2. unfold next_index. rewrite Hself. cbn. unfold ltfs_dp_id. rewrite Z.eqb_refl. cbn. rewrite Hx1. cbn. lia.
  - change (backptr i2 = selfptr i1). by rewrite Hb2, Hx1.
  - exists w'. split; [done|]. split; [|done]. rewrite Hxw, Hx2, Hlab. done.
Qed.
End sync.
