(* ===== verification/VolumeWitness.v ===== *)
(** * A volume on which the synchronised index is found

    A blank tape of the file backend with a transfer limit is labelled and synchronised with blocks of
    512 bytes; documents are the bytes of [LabelWitness], written in three pieces
    and read in pieces of 100 bytes. *)

From Stdlib Require Import String.
From S2P Require Import Prelude LtfsError Extents TapeOps FileDebug FileDebugLaws TapeLayer TapeSpace TapeProps Mam Journal Criteria Base64 KeyFormat Time TimeProps Xml XmlProps IndexXml IndexXmlProps IndexXmlWitness Label LabelProps LabelWitness Volume VolumeTape VolumeFind VolumeWrite VolumeProps.

#[local] Instance sane_space : @SpaceLaws filedebug_data sane_ops sane_laws := filedebug_space_laws host_writes_all_sane false.
#[local] Instance sane_mam : @MamLaws filedebug_data sane_ops sane_laws filedebug_mam_ops := filedebug_mam_laws host_writes_all_sane false.

Definition three_pieces (b : list Z) : list (list Z) := [take 10 b; take 100 (drop 10 b); drop 100 (drop 10 b)].

Definition plain_libs : libs :=
  mk_libs one_byte text_or_base64 base64_encode keep_name accept accept id print_doc three_pieces (fun _ => Some 100) read_doc.

Lemma plain_laws : lib_laws plain_libs.
Proof.
  split; [exact one_byte_ascii|exact one_byte_positive|exact plain_base64|done| |exact print_doc_not_empty|exact read_doc_printed].
  intros b. cbn. by rewrite app_nil_r, !take_drop.
Qed.

Lemma always_asks size text : read_to_end plain_libs size text.
Proof. split; [|cbn; lia]. intros. by exists 100. Qed.

Definition label_512 : ltfs_label := small_label <| l_blocksize := 512 |>.

Lemma label_512_good : good_label label_512.
Proof. destruct small_label_good. by constructor. Qed.

Definition bare_root : dent :=
  mk_dent (Some (mk_name false (str "/"))) (Some (str "/")) true false None false 1 2 0 0 0 t0 t0 t0 t0 t0 [] [] false false true [].

Definition bare_index : ltfs_index :=
  mk_index [] (l_vol_uuid label_512) None 0 t0 (mk_offset 0 0) (mk_offset 0 0) true
    (mk_criteria false 0 None None) (mk_criteria false 0 None None) (DTree bare_root []) 0 1 0 None LTFS_INDEX_VERSION LTFS_INDEX_VERSION [] [] UNLOCKED_MAM.

Definition tape_1 : device_data filedebug_data := (ltfs_write_label print_doc epoch (str "w") label_512 1 limited_device).2.
Definition tape_2 : device_data filedebug_data := (ltfs_write_label print_doc epoch (str "w") label_512 0 tape_1).2.

Definition fresh_volume : ltfs_volume filedebug_data :=
  mk_volume tape_2 label_512 bare_index true true false false (mk_offset 0 0) (mk_offset 0 0) (str "w") (mk_jvolume [] [] false) false false
    (mk_coherency 0 0 0 [] 0) (mk_coherency 0 0 0 [] 0) 0 0 0 (Some 0) 0 false.

Abbreviation sync := (ltfs_write_index plain_libs 1 epoch (fun _ v => (None, v)) []).

Definition after_dp : ltfs_volume filedebug_data := (sync 98 SYNC_FORMAT LTFS_FULL_INDEX fresh_volume).2.
Definition after_ip : ltfs_volume filedebug_data := (sync 97 SYNC_FORMAT LTFS_FULL_INDEX after_dp).2.

Lemma pair_zero {A} (x : Z * A) : x.1 = 0 -> x = (0, x.2).
Proof. destruct x. cbn. by intros ->. Qed.

(** ** The labels are on tape *)

Abbreviation write_512 := (ltfs_write_label print_doc epoch (str "w") label_512).

Lemma tape_1_written : write_512 1 limited_device = (0, tape_1).
Proof. refine (pair_zero (write_512 1 limited_device) _). vm_compute. reflexivity. Qed.

Lemma tape_2_written : write_512 0 tape_1 = (0, tape_2).
Proof. refine (pair_zero (write_512 0 tape_1) _). vm_compute. reflexivity. Qed.

Lemma labels_on_tape : exists m, dev_ok tape_2 m /\ forall p, p = 0 \/ p = 1 -> m_log m p = label_log print_doc (str "w") label_512 p.
Proof.
  destruct (good_barcode _ label_512_good) as (Hl & Hn & _).
  destruct (label_written print_doc print_doc_not_empty epoch (str "w") label_512 1 _ _ _ limited_device_ok (or_intror eq_refl) Hl Hn tape_1_written) as (m1 & Hok1 & L1 & _).
  destruct (label_written print_doc print_doc_not_empty epoch (str "w") label_512 0 _ _ _ Hok1 (or_introl eq_refl) Hl Hn tape_2_written) as (m2 & Hok2 & L2 & O2).
  exists m2. split; [exact Hok2|]. intros p [->| ->]; [exact L2|]. rewrite O2; [exact L1|lia].
Qed.

Lemma bare_index_good : good_content plain_libs 512 bare_index.
Proof.
  constructor; try done.
  - by left.
  - split; [|by repeat split; try apply Forall_nil]. split.
    + split; [repeat split; apply t0_ok|]. split; [cbn; lia|]. split; [by apply Forall_nil|]. do 2 (split; [done|]). split; [by apply Forall_nil|done].
    + do 7 (split; [done|]). apply NoDup_nil_2.
  - by left.
Qed.

Lemma tape_2_append : append_pos (device fresh_volume) = (4, 4).
Proof. vm_compute. reflexivity. Qed.

Lemma fresh_volume_ready m : dev_ok tape_2 m -> (forall p, p = 0 \/ p = 1 -> m_log m p = label_log print_doc (str "w") label_512 p) ->
  sync_ready plain_libs 1 512 fresh_volume m.
Proof.
  intros Hok Hlog. assert (Heod : forall p, p = 0 \/ p = 1 -> m_eod m p = 4) by (intros p Hp; unfold m_eod; by rewrite Hlog).
  split; [apply label_512_good| |apply bare_index_good|reflexivity|reflexivity|left; reflexivity].
  intros partition Hp. assert (Hn : part_num fresh_volume partition = 0 \/ part_num fresh_volume partition = 1)
    by (destruct Hp as [->| ->]; [right|left]; reflexivity).
  split; [exact Hok|exact Hn|split; [reflexivity|lia]| | |rewrite Heod by exact Hn; lia]; unfold append_block; rewrite tape_2_append;
    destruct Hn as [->| ->]; cbn; lia.
Qed.

(** ** The two indexes are written *)

Lemma dp_index_written : sync 98 SYNC_FORMAT LTFS_FULL_INDEX fresh_volume = (0, after_dp).
Proof. refine (pair_zero (sync 98 SYNC_FORMAT LTFS_FULL_INDEX fresh_volume) _). vm_compute. reflexivity. Qed.

Lemma ip_index_written : sync 97 SYNC_FORMAT LTFS_FULL_INDEX after_dp = (0, after_ip).
Proof. refine (pair_zero (sync 97 SYNC_FORMAT LTFS_FULL_INDEX after_dp) _). vm_compute. reflexivity. Qed.

Abbreviation text_at := (next_text plain_libs 1 epoch SYNC_FORMAT).

Lemma epoch_ok : time_ok epoch.
Proof. unfold time_ok. vm_compute. intuition congruence. Qed.

Lemma format_is_no_error : SYNC_FORMAT <> SYNC_WRITE_PERM.
Proof. discriminate. Qed.

Lemma texts_readable :
  readable plain_libs 512 4 (text_at (ltfs_dp_id fresh_volume) 4 fresh_volume) /\ readable plain_libs 512 4 (text_at (ltfs_ip_id fresh_volume) 4 after_dp).
Proof. split; (split; [vm_compute; reflexivity|apply always_asks]). Qed.

Lemma texts_short : (length (text_at (ltfs_dp_id fresh_volume) 4 fresh_volume) < 4000)%nat /\ (length (text_at (ltfs_ip_id fresh_volume) 4 after_dp) < 4000)%nat.
Proof. split; apply Nat.ltb_lt; vm_compute; reflexivity. Qed.

Lemma append_at_4 m p : append_block (device fresh_volume) m p = 4.
Proof. unfold append_block. rewrite tape_2_append. unfold a2get. by destruct (p =? 0). Qed.

Abbreviation check := (ltfs_check_medium plain_libs 1 epoch (fun _ v => (None, v)) []).

Lemma mount_carried_out : carries_out epoch
  (mount_calls (part_num fresh_volume (ltfs_ip_id fresh_volume)) (part_num fresh_volume (ltfs_dp_id fresh_volume)) 512
    (text_at (ltfs_ip_id fresh_volume) 4 after_dp) (text_at (ltfs_dp_id fresh_volume) 4 fresh_volume)) (device after_ip) = true.
Proof. vm_compute. reflexivity. Qed.

Lemma synced_volume_is_consistent_witness :
  exists w', check 2 4000 false after_ip = Some (0, w') /\ idx_dirty w' = false /\ ip_index_file_end w' = true /\ dp_index_file_end w' = true /\
    generation (index w') = 1 /\ selfptr (index w') = mk_offset 97 5 /\ backptr (index w') = mk_offset 98 5.
Proof.
  destruct labels_on_tape as (m & Hok & Hlog).
  destruct (synced_volume_is_consistent plain_libs plain_laws 1 epoch (fun _ v => (None, v)) [] 512 SYNC_FORMAT fresh_volume m after_dp after_ip
    (fresh_volume_ready m Hok Hlog) epoch_ok format_is_no_error dp_index_written ip_index_written) as (m2 & Hok2 & Hmount).
  - rewrite append_at_4. exact (proj1 texts_readable).
  - rewrite append_at_4. exact (proj2 texts_readable).
  - destruct (Hmount after_ip m2 epoch 1%nat 4000%nat false) as (w' & Hw & Hi & Hd & He1 & He2 & _).
    + vm_compute. reflexivity.
    + exact Hok2.
    + intros. reflexivity.
    + rewrite append_at_4. exact (proj1 texts_short).
    + rewrite append_at_4. exact (proj2 texts_short).
    + rewrite !append_at_4. exact mount_carried_out.
    + exists w'. rewrite Hi. do 4 (split; [assumption|]). repeat split; vm_compute; reflexivity.
Defined.
